(* ===== verification/_CoqProject ===== *)
-Q . S2P
Prelude.v
Str.v
Ulib.v
Printf.v
Grep.v
Console.v
Kbd.v
Spinlock.v
NetUtils.v
Queue.v
KState.v
Kalloc.v
Proc.v
Sleeplock.v
Bio.v
Log.v
Nic.v
Ether.v
Arp.v
Ip.v
Icmp.v
Tcp.v
Receive.v
Socket.v
Pipe.v
File.v
Fs.v
Trans.v
Balloc.v
Inode.v
Itrunc.v
Icache.v
Dir.v
Namei.v
Sysfile.v
FsDemo.v
Vm.v
Space.v
Life.v
Reap.v
Grow.v
Usermem.v
Exec.v
Family.v
SockApi.v
Syscall.v
Sh.v
ShParse.v
ShRun.v
ShSession.v
Umalloc.v
Mkfs.v
MkfsImage.v
Programs.v
ProgramsRun.v
Ide.v
Trap.v
Hw.v
Mp.v
