(* ===== verification/Prelude.v ===== *)
(** * A verification development for the xv6 network stack

    The program is xv6 (a Unix-like kernel for the i386) with a network stack:
    an RTL8139 driver, Ethernet, ARP, IPv4, ICMP and TCP, sockets as file
    descriptors, on top of xv6's processes, locks, page allocator, virtual
    memory, buffer cache, write-ahead log and file system.  The library models
    this code function by function, under the source's names, and proves the
    properties that make each part correct, and of the parts together.

    ** How the code is modelled

    - C integers are [Z] in the range of their type; [u8], [u16], [u32] and
      [s32] are the conversions of the i386, written where the code can leave
      the range.  Structs are records, [r <| f := v |>] is an assignment to a
      field, enums are inductive types, arrays are lists whose index is checked
      where the code could leave them, byte buffers are lists of bytes, and
      headers on the wire are encoded to and decoded from bytes.
    - Kernel code runs in the monad [M] of KState: state passing over the
      record [kstate] of the kernel's global variables, with four outcomes.
      [Ret] is a normal return, [Panic] the kernel's [panic], [Fault] is what C
      leaves undefined (an index out of range, a null pointer, a lost stack
      frame), and [Block] is [sleep]: the state in which the process sleeps
      and the rest of its code, so that a theorem can interleave what wakes it.
      A theorem that some code returns thus also shows that it neither panics
      nor leaves its buffers.
    - Hardware is visible through the trace of events in the state (frames
      given to the controller, disk writes, console output) and, where it
      answers, through parameters: the class [Machine] of Nic has the values
      device registers return.
    - User programs and device drivers have their own, smaller states: the
      descriptors of the shell, the heap of the allocator, the request queue of the
      disk driver, the blocks of mkfs; each file says how they correspond.
    - Loops that are not structural take fuel; running out of it is a [Fault],
      so every theorem that gives a result also shows that the fuel passed by
      the caller is enough.  The fuel is computed from the arguments (number of
      pages of a range, bytes of a buffer), or is a constant bound of the data
      (ten slots of the send window).
    - Spin-locks taken by kernel code are the set [held] of the locks the CPU
      holds: taking a lock twice, releasing one not held and sleeping with a
      second lock are panics, as in the code.  That this view is sound on
      several CPUs is the subject of Spinlock.

    ** The files

    Foundations: this file (integers, buffers, record update, tactics), KState
    (structs, [kstate], [M]).

    User space and strings.
    - Str: string.c.  [memmove] is a copy through a snapshot also when the
      ranges overlap, the string functions read and write the ranges they
      should and terminate what they copy.
    - Ulib: ulib.c.  [gets] reads one line; [memmove] here copies upwards only.
    - Printf: printf.c.  The output of [printf] is the rendering of the format,
      and [atoi] inverts [printint].
    - Grep: grep.c.  The matcher decides the language of the pattern, the line
      loop prints the matching lines.
    - Umalloc: umalloc.c.  Blocks are disjoint and large enough, [free] merges
      neighbours, and memory is never lost.
    - Sh, ShParse, ShRun: sh.c.  The parser (it stays in its buffer, terminates,
      and inverts the printing of commands), and [runcmd], [getcmd] and [main] as
      trees of system calls.  ShSession: the processes of the shell side by side;
      every schedule shows a behaviour of the command lines, none gets stuck, all
      end.
    - Programs, ProgramsRun: the other user programs and [stat] of ulib.c, as
      interaction trees over the system calls, and what they do in a world of
      files and network peers: [cat] copies, [wc] counts, the server echoes what
      its reads return, [ping] reports, init restarts the shell.

    Console.
    - Console: console.c, with [uartputc] of uart.c.  Interrupts and reads
      implement a line editor; the screen code stays inside the text memory.
    - Kbd: kbd.c and the tables of kbd.h.

    Interrupts and devices.
    - Trap: trap.c.  The timer preempts and wakes sleepers; a fault in user space
      ends its process and nothing else.
    - Hw: picirq.c, ioapic.c, lapic.c, uart.c on the history of accesses to ports
      and registers: where interrupts are routed, what the clock says.
    - Mp: mp.c, the processor tables.
    - Ide: ide.c.  Requests are served in order and each one is, also when
      commands fail.

    Kernel services.
    - Spinlock: spinlock.c as a step relation of several CPUs: mutual exclusion,
      interrupts off inside, no panic for paired use, progress.
    - Kalloc: kalloc.c refines a stack of distinct pages.
    - Proc: sleeping, waking, killing and scheduling of proc.c.
    - Vm, Space: vm.c, page tables in the pages of Kalloc; whole address spaces
      ([freevm] returns every page), and what paging code may change.
    - Life: userinit, growproc, fork, exit and wait of proc.c.  Family: the
      parent of a process is alive, through all system calls and their sleeps.
      Reap: whom exit wakes and what wait frees.  Grow: what growproc does.
    - Usermem, Syscall: syscall.c, sysproc.c and the argument fetching of
      sysfile.c and sysnet.c, through the page table of the process: no argument
      makes the kernel fault or leave the process.
    - Exec: exec.c; the arguments a program gets are those it was given.
    - Pipe, File: pipe.c, file.c and the calls of sysfile.c on descriptors.
      Reference counts are the numbers of open descriptors; a pipe is a FIFO.

    Storage.
    - Sleeplock, Bio, Log: sleeplock.c, bio.c with memide.c, log.c.  The cache
      is transparent, a committed transaction is on the disk, and any prefix of
      the disk writes of a commit recovers to the old or the new state.
    - Fs: all of fs.c.  Trans: the logic in which its theorems are proved; code
      inside a transaction sees the blocks as an array.  Balloc, Inode, Itrunc,
      Icache: blocks and inodes are given out once and freed completely, a file
      reads back what was written, at most one cache entry per inode.  Dir,
      Namei: a directory is a finite map of names, and a path resolves to the
      inode its elements lead to.  FsDemo: a small disk for the witnesses.
    - Sysfile: link, unlink, open, mkdir, mknod and chdir.
    - Mkfs, MkfsImage: mkfs.c, and that the image it builds satisfies the
      invariants above, with every file under its name.

    Network.
    - NetUtils, Queue: netutils.c, queue.c.
    - Nic, Ether, Arp, Ip, Icmp, Tcp: rtl8139.c with pci.c, ether.c, arp.c,
      ip.c, icmp.c, tcp.c with utils.c, each up to what it sends.
    - Receive: the upward path from [nicintr] to the protocols, and the
      end-to-end theorems: a datagram sent by one host reaches the protocol of
      another with its payload; a ping is answered.
    - Socket, SockApi: socket.c and sysnet.c.

    ** How the parts interact

    [Syscall.syscall] dispatches to Life, Exec, File, Sysfile and SockApi.  File
    calls Pipe, Socket, or inodes (the class [InodeOps], an interface of File
    that Fs implements).  Socket calls Tcp, Tcp calls
    Ip, Ip asks Arp for the next hop (and sleeps there when it is unknown) and
    calls Ether, which hands the frame to Nic.  Interrupts enter at
    [Receive.nicintr] and climb the same layers; what they deliver wakes the
    processes sleeping in Arp, Icmp, Tcp and Socket through [Proc.wakeup].
    Pages come from Kalloc; Log calls Bio, which calls Sleeplock and the disk.

    ** Not modelled

    - Boot and start-up (bootmain.c, main.c), segment descriptors and control
      registers (part of vm.c, mmu.h, x86.h): assembly-level set-up of the machine,
      of which this development has no model; main.c otherwise calls the
      initialisers of the parts.
    - Kernel stacks and the context switch itself: a process that gives up the
      CPU is a [Block] outcome and its continuation.  The disk under the buffer
      cache is the memory disk memide.c; Ide is about the other driver alone.
    - The test programs (usertests.c, stressfs.c, forktest.c, test.c), and headers
      that only declare. *)
From Stdlib Require Export ZArith Lia.
From stdpp Require Export base tactics numbers list gmap strings.
#[global] Open Scope Z_scope.

(** ** Record update

    [r <| field := v |>] is the C assignment [r.field = v].  A record type
    declares its eta-expansion once ([Eta]); the setter of each field is
    computed from it. *)
Class Eta (R : Type) := eta : R -> R.
Class Setter {R T : Type} (proj : R -> T) := setf : (T -> T) -> R -> R.

Ltac solve_setter :=
  match goal with
  | |- @Setter ?R ?T ?proj =>
    let i := constr:(_ : Eta R) in
    let e := eval hnf in i in
    let e' := eval pattern proj in e in
    match e' with
    | ?F _ =>
      let t := eval cbv beta in (fun g : T -> T => F (fun r => g (proj r))) in
      exact t
    end
  end.
#[export] Hint Extern 1 (Setter _) => solve_setter : typeclass_instances.

Declare Scope c_scope.
Delimit Scope c_scope with c.
#[global] Open Scope c_scope.
Notation "r <| p := v |>" := (setf (proj:=p) (fun _ => v) r)
  (at level 1, left associativity, format "r <| p  :=  v |>") : c_scope.

(** ** Machine integers

    A C integer is a [Z] in the range of its type; these are the conversions
    to [uchar], [ushort], [uint] and [int] of the i386 target. *)
Definition u8 (z : Z) : Z := z `mod` 2 ^ 8.
Definition u16 (z : Z) : Z := z `mod` 2 ^ 16.
Definition u32 (z : Z) : Z := z `mod` 2 ^ 32.
Definition s32 (z : Z) : Z := (z + 2 ^ 31) `mod` 2 ^ 32 - 2 ^ 31.

(** ** Byte buffers: little-endian loads and stores *)
Definition byte_ok (b : Z) : Prop := 0 <= b < 256.
Abbreviation bytes_ok := (Forall byte_ok).

Definition get8 (b : list Z) (o : nat) : Z := nth o b 0.
Definition get16 (b : list Z) (o : nat) : Z := get8 b o + 256 * get8 b (S o).
Definition get32 (b : list Z) (o : nat) : Z := get16 b o + 65536 * get16 b (S (S o)).

Definition le8 (v : Z) : list Z := [u8 v].
Definition le16 (v : Z) : list Z := [u8 v; u8 (v `div` 256)].
Definition le32 (v : Z) : list Z :=
  [u8 v; u8 (v `div` 256); u8 (v `div` 65536); u8 (v `div` 16777216)].

(** [blit dst o src] is [memmove(dst + o, src, length src)]. *)
Definition blit (dst : list Z) (o : nat) (src : list Z) : list Z :=
  take o dst ++ src ++ drop (o + length src) dst.

(** ** Generic loop helpers *)

(** [find_index p l]: the first index whose element satisfies [p], the
    [for(i = 0; i < n; i++) if(p(a[i])) break;] loop. *)
Fixpoint find_index {A} (p : A -> bool) (l : list A) : option nat :=
  match l with
  | [] => None
  | x :: l' => if p x then Some 0%nat else S <$> find_index p l'
  end.

(** Numeral forms of the widths, for [lia]. *)
Ltac widths :=
  unfold u8, u16, u32, s32 in *;
  change (2 ^ 8) with 256 in *; change (2 ^ 16) with 65536 in *;
  change (2 ^ 24) with 16777216 in *; change (2 ^ 31) with 2147483648 in *; change (2 ^ 32) with 4294967296 in *.

(** [lia] with division and modulo by constants. *)
Ltac zlia := widths; Z.to_euclidean_division_equations; lia.

(** ** Lemmas on machine integers *)
Lemma u8_range z : 0 <= u8 z < 256.
Proof. unfold u8. apply Z.mod_pos_bound. lia. Qed.
Lemma u16_range z : 0 <= u16 z < 65536.
Proof. unfold u16. apply Z.mod_pos_bound. lia. Qed.
Lemma u32_range z : 0 <= u32 z < 2 ^ 32.
Proof. unfold u32. apply Z.mod_pos_bound. lia. Qed.
Lemma u8_small z : 0 <= z < 256 -> u8 z = z.
Proof. intros. unfold u8. apply Z.mod_small. lia. Qed.
Lemma u16_small z : 0 <= z < 65536 -> u16 z = z.
Proof. intros. unfold u16. apply Z.mod_small. lia. Qed.
Lemma u32_small z : 0 <= z < 2 ^ 32 -> u32 z = z.
Proof. intros. unfold u32. apply Z.mod_small. lia. Qed.
Lemma s32_small z : - 2 ^ 31 <= z < 2 ^ 31 -> s32 z = z.
Proof. intros. unfold s32. rewrite Z.mod_small; lia. Qed.
Lemma u8_idemp z : u8 (u8 z) = u8 z.
Proof. apply u8_small, u8_range. Qed.
Lemma u16_idemp z : u16 (u16 z) = u16 z.
Proof. apply u16_small, u16_range. Qed.
Lemma u32_idemp z : u32 (u32 z) = u32 z.
Proof. apply u32_small, u32_range. Qed.

Lemma u32_add_l a b : u32 (u32 a + b) = u32 (a + b).
Proof. unfold u32. apply Zplus_mod_idemp_l. Qed.

(** ** Lemmas on bytes *)
Lemma byte_ok_u8 z : byte_ok (u8 z).
Proof. apply u8_range. Qed.
Lemma le8_ok v : bytes_ok (le8 v).
Proof. repeat constructor; apply u8_range. Qed.
Lemma le16_ok v : bytes_ok (le16 v).
Proof. repeat constructor; apply u8_range. Qed.
Lemma le32_ok v : bytes_ok (le32 v).
Proof. repeat constructor; apply u8_range. Qed.

Lemma get16_le16 v r : get16 (le16 v ++ r) 0 = u16 v.
Proof. unfold get16, get8, le16; simpl. zlia. Qed.

Lemma get32_le32 v r : get32 (le32 v ++ r) 0 = u32 v.
Proof. unfold get32, get16, get8, le32; simpl. zlia. Qed.

(** ** Bit operations as arithmetic *)
Lemma lor_add a b : Z.land a b = 0 -> Z.lor a b = a + b.
Proof. intros H. rewrite <- Z.add_lor_land, H. lia. Qed.

Lemma testbit_above a k n : 0 <= k <= n -> 0 <= a < 2 ^ k -> Z.testbit a n = false.
Proof.
  intros Hk Ha. rewrite Z.testbit_odd, Z.shiftr_div_pow2 by lia.
  rewrite Z.div_small; [done|]. split; [lia|].
  apply Z.lt_le_trans with (2 ^ k); [lia|]. apply Z.pow_le_mono_r; lia.
Qed.

Lemma lor_shiftl_add a b k :
  0 <= k -> 0 <= a < 2 ^ k -> Z.lor a (Z.shiftl b k) = a + b * 2 ^ k.
Proof.
  intros Hk Ha. rewrite lor_add, Z.shiftl_mul_pow2; [done..|].
  apply Z.bits_inj'. intros n Hn. rewrite Z.land_spec, Z.bits_0, Z.shiftl_spec by done.
  destruct (decide (n < k)).
  - rewrite (Z.testbit_neg_r b) by lia. apply andb_false_r.
  - by rewrite (testbit_above a k) by lia.
Qed.

Lemma lor_mul_add x k y :
  0 <= k -> 0 <= y < 2 ^ k -> Z.lor (x * 2 ^ k) y = x * 2 ^ k + y.
Proof.
  intros Hk Hy. rewrite Z.lor_comm, <- Z.shiftl_mul_pow2, lor_shiftl_add by done.
  rewrite Z.shiftl_mul_pow2 by done. lia.
Qed.

Lemma ldiff_le_l a b : 0 <= b -> Z.ldiff a b <= a.
Proof.
  intros Hb. pose proof (Z.lor_ldiff_and a b) as E. rewrite lor_add in E.
  - pose proof (proj2 (Z.land_nonneg a b) (or_intror Hb)). lia.
  - by rewrite (Z.land_comm a b), Z.land_assoc, Z.land_ldiff, Z.land_0_l.
Qed.
Lemma land_ff z : Z.land z 0xff = z `mod` 256.
Proof. change 0xff with (Z.ones 8). by rewrite Z.land_ones. Qed.
Lemma land_ffff z : Z.land z 0xffff = z `mod` 65536.
Proof. change 0xffff with (Z.ones 16). by rewrite Z.land_ones. Qed.

Lemma get8_app_r a b o : get8 (a ++ b) (length a + o) = get8 b o.
Proof. unfold get8. rewrite app_nth2 by lia. f_equal. lia. Qed.
Lemma get16_app_r a b o : get16 (a ++ b) (length a + o) = get16 b o.
Proof. unfold get16. rewrite <- Nat.add_succ_r, !get8_app_r. done. Qed.
Lemma get32_app_r a b o : get32 (a ++ b) (length a + o) = get32 b o.
Proof. unfold get32. rewrite <- !Nat.add_succ_r, !get16_app_r. done. Qed.

Lemma get8_range b o : bytes_ok b -> byte_ok (get8 b o).
Proof.
  intros H. unfold get8. destruct (nth_in_or_default o b 0) as [Hin | ->].
  - rewrite List.Forall_forall in H. by apply H.
  - unfold byte_ok. lia.
Qed.
Lemma get16_range b o : bytes_ok b -> 0 <= get16 b o < 65536.
Proof.
  intros H. pose proof (get8_range b o H). pose proof (get8_range b (S o) H).
  unfold get16, byte_ok in *. lia.
Qed.
Lemma get32_range b o : bytes_ok b -> 0 <= get32 b o < 2 ^ 32.
Proof.
  intros H. pose proof (get16_range b o H). pose proof (get16_range b (S (S o)) H).
  unfold get32 in *. lia.
Qed.

Lemma length_blit dst o src :
  (o + length src <= length dst)%nat -> length (blit dst o src) = length dst.
Proof. intros. unfold blit. rewrite !length_app, length_take, length_drop. lia. Qed.

Lemma lookup_blit dst o src j : (o + length src <= length dst)%nat ->
  blit dst o src !! j = if decide (o <= j < o + length src)%nat then src !! (j - o)%nat else dst !! j.
Proof.
  intros Hl. unfold blit. destruct (decide (j < o)%nat).
  - rewrite decide_False by lia. rewrite lookup_app_l by (rewrite length_take; lia). by apply lookup_take_lt.
  - rewrite lookup_app_r by (rewrite length_take; lia). rewrite length_take, Nat.min_l by lia.
    case_decide.
    + by rewrite lookup_app_l by lia.
    + rewrite lookup_app_r, lookup_drop by lia. f_equal. lia.
Qed.

(** Loads from a buffer after a store to it. *)
Lemma get8_blit_ne d o src j : (j < o \/ o + length src <= j)%nat -> (o + length src <= length d)%nat ->
  get8 (blit d o src) j = get8 d j.
Proof.
  intros Hj Hl. unfold get8, blit. rewrite <- (take_drop o d) at 3. destruct Hj.
  - rewrite !app_nth1 by (rewrite length_take; lia). done.
  - rewrite !(app_nth2 (take o d)) by (rewrite length_take; lia).
    rewrite app_nth2 by (rewrite length_take; lia). rewrite <- drop_drop.
    rewrite <- (take_drop (length src) (drop o d)) at 2.
    rewrite (app_nth2 (take _ _)) by (rewrite !length_take, length_drop; lia).
    rewrite !length_take, length_drop. f_equal. lia.
Qed.
Lemma get32_blit_ne d o src j : (j + 4 <= o \/ o + length src <= j)%nat ->
  (o + length src <= length d)%nat -> get32 (blit d o src) j = get32 d j.
Proof. intros Hj Hl. unfold get32, get16. rewrite !get8_blit_ne by lia. done. Qed.
Lemma get32_blit_eq d o v : (o + 4 <= length d)%nat -> get32 (blit d o (le32 v)) o = u32 v.
Proof.
  intros Hl. unfold blit. replace o with (length (take o d) + 0)%nat at 3 by (rewrite length_take; lia).
  by rewrite get32_app_r, get32_le32.
Qed.

Lemma blit_0 dst src : blit dst 0 src = src ++ drop (length src) dst.
Proof. done. Qed.

Lemma bytes_ok_blit dst o src :
  bytes_ok dst -> bytes_ok src -> bytes_ok (blit dst o src).
Proof. intros. unfold blit. auto using Forall_app_2, Forall_take, Forall_drop. Qed.

Lemma Forall2_self {A} (P : A -> A -> Prop) l : (forall x, P x x) -> Forall2 P l l.
Proof. intros. induction l; by constructor. Qed.

Lemma list_alter_alter {A} (f g : A -> A) i (l : list A) :
  alter f i (alter g i l) = alter (fun x => f (g x)) i l.
Proof.
  apply list_eq. intros j. destruct (decide (i = j)) as [<-|].
  - rewrite !list_lookup_alter_eq. by destruct (l !! i).
  - by rewrite !list_lookup_alter_ne.
Qed.

(** Induction two elements at a time. *)
Lemma list_alter_to_insert {A} (f : A -> A) i (l : list A) x :
  l !! i = Some x -> alter f i l = <[i := f x]> l.
Proof.
  intros Hx. apply list_eq. intros j. destruct (decide (i = j)) as [<-|].
  - rewrite list_lookup_alter_eq, Hx, list_lookup_insert_eq by (by eapply lookup_lt_Some). done.
  - by rewrite list_lookup_alter_ne, list_lookup_insert_ne by done.
Qed.

Lemma list_pair_ind {A} (P : list A -> Prop) :
  P [] -> (forall x, P [x]) -> (forall x y l, P l -> P (x :: y :: l)) -> forall l, P l.
Proof.
  intros H0 H1 H2. fix IH 1. intros [|x [|y l]]; [apply H0|apply H1|].
  apply H2, IH.
Qed.

(** ** Lemmas on [find_index] *)
Lemma find_index_Some {A} (p : A -> bool) l i :
  find_index p l = Some i ->
  exists x, l !! i = Some x /\ p x = true /\
    forall j y, (j < i)%nat -> l !! j = Some y -> p y = false.
Proof.
  revert i. induction l as [|x l IH]; intros i; simpl; [done|].
  destruct (p x) eqn:Hp.
  - intros [= <-]. exists x. split_and!; [done..|lia].
  - intros (j & Hj & ->)%fmap_Some. destruct (IH _ Hj) as (y & Hy & Hpy & Hlt).
    exists y. split_and!; [done..|]. intros [|j'] z Hj' Hz; simpl in *; simplify_eq; [done|].
    eapply Hlt; [|done]. lia.
Qed.

Lemma find_index_None {A} (p : A -> bool) l :
  find_index p l = None <-> forall i x, l !! i = Some x -> p x = false.
Proof.
  induction l as [|x l IH]; simpl; [split; [by intros|done]|].
  destruct (p x) eqn:Hp.
  - split; [done|]. intros H. specialize (H 0%nat x eq_refl). congruence.
  - rewrite fmap_None, IH. split.
    + intros H [|i] y Hy; simpl in *; simplify_eq; eauto.
    + intros H i y Hy. apply (H (S i)). done.
Qed.

Lemma find_index_unique {A} (p : A -> bool) l i x :
  l !! i = Some x -> p x = true ->
  (forall j y, l !! j = Some y -> p y = true -> j = i) -> find_index p l = Some i.
Proof.
  intros Hi Hp Hu. destruct (find_index p l) as [j|] eqn:Hf.
  - apply find_index_Some in Hf as (y&Hy&Hpy&_). f_equal. eauto.
  - rewrite find_index_None in Hf. specialize (Hf i x Hi). congruence.
Qed.

Lemma find_index_first {A} (p : A -> bool) l i x :
  l !! i = Some x -> p x = true -> (forall j y, (j < i)%nat -> l !! j = Some y -> p y = false) ->
  find_index p l = Some i.
Proof.
  intros Hi Hp Hf. destruct (find_index p l) as [j|] eqn:Ej.
  - apply find_index_Some in Ej as (y&Hy&Hpy&Hb). f_equal. destruct (lt_eq_lt_dec i j) as [[Hlt| ->]|Hgt]; [|done|].
    + specialize (Hb i x Hlt Hi). congruence.
    + specialize (Hf j y Hgt Hy). congruence.
  - rewrite find_index_None in Ej. specialize (Ej i x Hi). congruence.
Qed.

Lemma find_index_lt {A} (p : A -> bool) l i :
  find_index p l = Some i -> (i < length l)%nat.
Proof. intros (x & Hx & _)%find_index_Some. by eapply lookup_lt_Some. Qed.

(** ** Automation *)
Create HintDb xv6.
Create Rewrite HintDb xv6.
#[export] Hint Resolve u8_range u16_range u32_range byte_ok_u8 le16_ok le32_ok
  bytes_ok_blit Forall_app_2 Forall_take Forall_drop find_index_lt : xv6.
#[export] Hint Rewrite u8_idemp u16_idemp u32_idemp : xv6.
