(* ===== verification/Str.v ===== *)
(** * Str: the kernel's memory and string functions (string.c)

    A flat byte memory is a finite map from addresses to bytes: an address
    that is not in the map is not mapped, and a load or a store there is a
    fault ([None]).  Pointers are addresses below [2^32]; the comparison
    [s + n > d] of [memmove] is made at that width.  [mread] and [mwrite]
    describe a range of memory as a list; the theorems say which list each
    function reads and writes. *)
From S2P Require Import Prelude.

Module Str.

Abbreviation mem := (gmap Z Z).

Definition load (m : mem) (a : Z) : option Z := m !! a.
Definition store (m : mem) (a v : Z) : option mem :=
  _ ← m !! a; Some (<[a := v]> m).

(** ** Ranges of memory *)
Fixpoint mread (m : mem) (a : Z) (n : nat) : option (list Z) :=
  match n with
  | O => Some []
  | S n' => v ← load m a; l ← mread m (a + 1) n'; Some (v :: l)
  end.

Fixpoint mwrite (m : mem) (a : Z) (l : list Z) : mem :=
  match l with
  | [] => m
  | v :: l' => <[a := v]> (mwrite m (a + 1) l')
  end.

(** Every byte of [a .. a+n-1] is mapped. *)
Definition mapped (m : mem) (a : Z) (n : nat) : Prop :=
  forall x, a <= x < a + Z.of_nat n -> is_Some (m !! x).

(** The NUL-terminated string [l] is at address [a]. *)
Definition cstr (m : mem) (a : Z) (l : list Z) : Prop :=
  mread m a (S (length l)) = Some (l ++ [0]) /\ Forall (fun c => c <> 0) l.

(** The ranges of [n] bytes at [a] and [k] bytes at [b] do not meet. *)
Definition apart (a : Z) (n : nat) (b : Z) (k : nat) : Prop :=
  a + Z.of_nat n <= b \/ b + Z.of_nat k <= a.

(** ** [memset] *)

(** [rep stosb]: the low byte of [%eax], [cnt] times. *)
Fixpoint stosb (m : mem) (addr data : Z) (cnt : nat) : option mem :=
  match cnt with
  | O => Some m
  | S k => m ← store m addr (u8 data); stosb m (addr + 1) data k
  end.

(** A store of [%eax]: its four bytes, the least significant one first. *)
Fixpoint store_all (m : mem) (a : Z) (l : list Z) : option mem :=
  match l with
  | [] => Some m
  | v :: l' => m ← store m a v; store_all m (a + 1) l'
  end.

Fixpoint stosl (m : mem) (addr data : Z) (cnt : nat) : option mem :=
  match cnt with
  | O => Some m
  | S k => m ← store_all m addr (le32 data); stosl m (addr + 4) data k
  end.

(** [(int)dst % 4]: the remainder of C, which truncates. *)
Definition memset (m : mem) (dst c n : Z) : option mem :=
  if (Z.rem (s32 dst) 4 =? 0) && (n `mod` 4 =? 0) then
    let c := Z.land c 0xff in
    stosl m dst (Z.lor (Z.lor (Z.lor (Z.shiftl c 24) (Z.shiftl c 16)) (Z.shiftl c 8)) c)
      (Z.to_nat (n `div` 4))
  else stosb m dst c (Z.to_nat n).

(** ** [memcmp] *)
Fixpoint memcmp_loop (m : mem) (s1 s2 : Z) (n : nat) : option Z :=
  match n with
  | O => Some 0
  | S k =>
    a ← load m s1; b ← load m s2;
    if negb (a =? b) then Some (a - b) else memcmp_loop m (s1 + 1) (s2 + 1) k
  end.
Definition memcmp (m : mem) (v1 v2 n : Z) : option Z := memcmp_loop m v1 v2 (Z.to_nat n).

(** ** [memmove] *)

(** [while(n-- > 0) *--d = *--s;] with [d] and [s] already past the end. *)
Fixpoint copy_down (m : mem) (d s : Z) (n : nat) : option mem :=
  match n with
  | O => Some m
  | S k => v ← load m (s - 1); m ← store m (d - 1) v; copy_down m (d - 1) (s - 1) k
  end.

(** [while(n-- > 0) *d++ = *s++;] *)
Fixpoint copy_up (m : mem) (d s : Z) (n : nat) : option mem :=
  match n with
  | O => Some m
  | S k => v ← load m s; m ← store m d v; copy_up m (d + 1) (s + 1) k
  end.

Definition memmove (m : mem) (dst src n : Z) : option mem :=
  if (src <? dst) && (dst <? u32 (src + n))
  then copy_down m (dst + n) (src + n) (Z.to_nat n)
  else copy_up m dst src (Z.to_nat n).

Definition memcpy (m : mem) (dst src n : Z) : option mem := memmove m dst src n.

(** ** Strings *)
Fixpoint strncmp_loop (m : mem) (p q : Z) (n : nat) : option Z :=
  match n with
  | O => Some 0
  | S k =>
    a ← load m p;
    if a =? 0 then b ← load m q; Some (u8 a - u8 b) else
    b ← load m q;
    if a =? b then strncmp_loop m (p + 1) (q + 1) k else Some (u8 a - u8 b)
  end.
Definition strncmp (m : mem) (p q n : Z) : option Z := strncmp_loop m p q (Z.to_nat n).

(** [while(n-- > 0 && ( *s++ = *t++) != 0);]: the memory, [s] and what is
    left of [n] when the loop ends. *)
Fixpoint copy_str (m : mem) (s t : Z) (n : nat) : option (mem * Z * nat) :=
  match n with
  | O => Some (m, s, O)
  | S k =>
    c ← load m t; m ← store m s c;
    if c =? 0 then Some (m, s + 1, k) else copy_str m (s + 1) (t + 1) k
  end.

Definition strncpy (m : mem) (s t n : Z) : option mem :=
  '(m, s, k) ← copy_str m s t (Z.to_nat n);
  stosb m s 0 k.

Definition safestrcpy (m : mem) (s t n : Z) : option mem :=
  if n <=? 0 then Some m else
  '(m, s, _) ← copy_str m s t (Z.to_nat (n - 1));
  store m s 0.

(** [for(n = 0; s[n]; n++);], looking at no more than [fuel] bytes. *)
Fixpoint strlen_loop (fuel : nat) (m : mem) (s n : Z) : option Z :=
  match fuel with
  | O => None
  | S k => c ← load m (s + n); if c =? 0 then Some n else strlen_loop k m s (n + 1)
  end.
Definition strlen (fuel : nat) (m : mem) (s : Z) : option Z := strlen_loop fuel m s 0.

(** ** Reading and writing ranges *)
Lemma mwrite_lookup_out m a l x : x < a \/ a + Z.of_nat (length l) <= x -> mwrite m a l !! x = m !! x.
Proof.
  revert a. induction l as [|v l IH]; intros a Hx; simpl in *; [done|].
  rewrite lookup_insert_ne by lia. apply IH. lia.
Qed.

Lemma mwrite_lookup_in m a l i v : l !! i = Some v -> mwrite m a l !! (a + Z.of_nat i) = Some v.
Proof.
  revert a i. induction l as [|w l IH]; intros a [|i] Hi; simpl in *; [done..| |].
  - rewrite Z.add_0_r, lookup_insert_eq. done.
  - rewrite lookup_insert_ne by lia. rewrite <- (IH (a + 1) i Hi). f_equal. lia.
Qed.

Lemma mwrite_app m a l k : mwrite m a (l ++ k) = mwrite (mwrite m (a + Z.of_nat (length l)) k) a l.
Proof.
  revert a. induction l as [|v l IH]; intros a; simpl.
  - f_equal. lia.
  - f_equal. rewrite IH. do 2 f_equal. lia.
Qed.

Lemma mwrite_insert m a l x v :
  x < a \/ a + Z.of_nat (length l) <= x -> mwrite (<[x := v]> m) a l = <[x := v]> (mwrite m a l).
Proof.
  revert a. induction l as [|w l IH]; intros a Hx; simpl in *; [done|].
  rewrite IH by lia. apply insert_insert_ne. lia.
Qed.

(** A range written after the one before it. *)
Lemma mwrite_app_after m a l k : mwrite m a (l ++ k) = mwrite (mwrite m a l) (a + Z.of_nat (length l)) k.
Proof.
  revert m a. induction l as [|v l IH]; intros m a; simpl.
  - f_equal. lia.
  - rewrite IH, mwrite_insert by lia. do 2 f_equal. lia.
Qed.

Lemma mapped_mwrite_after m a n l b k : mapped m a n -> a <= b -> b + Z.of_nat k <= a + Z.of_nat n ->
  mapped (mwrite m a l) b k.
Proof.
  intros H Ha Hb x Hx. destruct (decide (x < a + Z.of_nat (length l))).
  - destruct (lookup_lt_is_Some_2 l (Z.to_nat (x - a)) ltac:(lia)) as [v Hv].
    replace x with (a + Z.of_nat (Z.to_nat (x - a))) by lia. rewrite (mwrite_lookup_in _ _ _ _ _ Hv). eauto.
  - rewrite mwrite_lookup_out by lia. apply H. lia.
Qed.

Lemma length_mread m a n l : mread m a n = Some l -> length l = n.
Proof.
  revert a l. induction n as [|n IH]; intros a l H; simpl in H; [by simplify_eq|].
  simplify_option_eq. f_equal. eauto.
Qed.

Lemma mread_ext m m' a n :
  (forall x, a <= x < a + Z.of_nat n -> m !! x = m' !! x) -> mread m a n = mread m' a n.
Proof.
  revert a. induction n as [|n IH]; intros a H; simpl; [done|].
  unfold load. rewrite H by lia. rewrite IH; [done|]. intros x Hx. apply H. lia.
Qed.

Lemma mread_insert m a n x v : x < a \/ a + Z.of_nat n <= x -> mread (<[x := v]> m) a n = mread m a n.
Proof. intros Hx. apply mread_ext. intros y Hy. apply lookup_insert_ne. lia. Qed.

Lemma mread_mwrite_out m a l b n :
  apart a (length l) b n -> mread (mwrite m a l) b n = mread m b n.
Proof.
  intros Hx. apply mread_ext. intros y Hy. apply mwrite_lookup_out. unfold apart in Hx. lia.
Qed.

Lemma mread_app m a n k :
  mread m a (n + k) = (l ← mread m a n; r ← mread m (a + Z.of_nat n) k; Some (l ++ r)).
Proof.
  revert a. induction n as [|n IH]; intros a.
  - simpl. rewrite Z.add_0_r. by destruct (mread m a k).
  - simpl. destruct (load m a) as [v|]; simpl; [|done]. rewrite IH.
    destruct (mread m (a + 1) n) as [l|]; simpl; [|done].
    replace (a + 1 + Z.of_nat n) with (a + Z.of_nat (S n)) by lia.
    by destruct (mread m (a + Z.of_nat (S n)) k).
Qed.

Lemma mread_split m a n k l :
  mread m a (n + k) = Some l ->
  mread m a n = Some (take n l) /\ mread m (a + Z.of_nat n) k = Some (drop n l).
Proof.
  rewrite mread_app. intros H.
  destruct (mread m a n) as [l1|] eqn:H1; simpl in H; [|done].
  destruct (mread m (a + Z.of_nat n) k) as [l2|] eqn:H2; simpl in H; [|done]. simplify_eq.
  apply length_mread in H1. rewrite take_app_le, drop_app_ge by lia.
  rewrite firstn_all2, H1, Nat.sub_diag by lia. done.
Qed.

Lemma mread_lookup m a n l i : mread m a n = Some l -> (i < n)%nat -> m !! (a + Z.of_nat i) = l !! i.
Proof.
  revert a l i. induction n as [|n IH]; intros a l i H Hi; simpl in H; [lia|].
  unfold load in H. simplify_option_eq. destruct i as [|i]; simpl.
  - by rewrite Z.add_0_r.
  - rewrite <- (IH (a + 1) _ i) by (done || lia). f_equal. lia.
Qed.

Lemma mread_mwrite m a l : mread (mwrite m a l) a (length l) = Some l.
Proof.
  revert a. induction l as [|v l IH]; intros a; simpl; [done|].
  unfold load. rewrite lookup_insert_eq. simpl.
  rewrite mread_insert by lia. by rewrite IH.
Qed.

Lemma mread_mapped m a n l : mread m a n = Some l -> mapped m a n.
Proof.
  intros H x Hx. pose proof (mread_lookup m a n l (Z.to_nat (x - a)) H ltac:(lia)) as Hl.
  replace (a + Z.of_nat (Z.to_nat (x - a))) with x in Hl by lia. rewrite Hl.
  apply lookup_lt_is_Some. apply length_mread in H. lia.
Qed.

Lemma mapped_insert m a n x v : mapped m a n -> mapped (<[x := v]> m) a n.
Proof.
  intros H y Hy. destruct (decide (x = y)) as [->|].
  - rewrite lookup_insert_eq. eauto.
  - rewrite lookup_insert_ne by done. auto.
Qed.

Lemma mapped_sub m a n b k : mapped m a n -> a <= b -> b + Z.of_nat k <= a + Z.of_nat n -> mapped m b k.
Proof. intros H Ha Hb x Hx. apply H. lia. Qed.

Lemma store_mapped m a v : is_Some (m !! a) -> store m a v = Some (<[a := v]> m).
Proof. intros [w Hw]. unfold store. by rewrite Hw. Qed.

(** The first byte of a mapped range can be stored, and the rest stays mapped. *)
Lemma store_first m a n v :
  mapped m a (S n) -> store m a v = Some (<[a := v]> m) /\ mapped (<[a := v]> m) (a + 1) n.
Proof.
  intros H. split; [apply store_mapped, H; lia|].
  apply mapped_insert. eapply mapped_sub; [done|lia..].
Qed.

Lemma store_all_ok m a l : mapped m a (length l) -> store_all m a l = Some (mwrite m a l).
Proof.
  revert m a. induction l as [|v l IH]; intros m a H; simpl; [done|].
  destruct (store_first m a (length l) v H) as [-> H']. simpl.
  rewrite IH by done. f_equal. apply mwrite_insert. lia.
Qed.

Lemma stosb_ok m a c n : mapped m a n -> stosb m a c n = Some (mwrite m a (replicate n (u8 c))).
Proof.
  revert m a. induction n as [|n IH]; intros m a H; simpl; [done|].
  destruct (store_first m a n (u8 c) H) as [-> H']. simpl.
  rewrite IH by done. f_equal. apply mwrite_insert. lia.
Qed.

Lemma stosl_ok m a c n x :
  le32 x = replicate 4 c -> mapped m a (4 * n) ->
  stosl m a x n = Some (mwrite m a (replicate (4 * n) c)).
Proof.
  intros Hx. revert m a. induction n as [|n IH]; intros m a H; [done|].
  cbn [stosl]. rewrite Hx, store_all_ok by (eapply mapped_sub; [done|lia|simpl; lia]). simpl mbind.
  rewrite IH.
  - replace (4 * S n)%nat with (4 + 4 * n)%nat by lia. rewrite replicate_add, mwrite_app. f_equal.
    rewrite length_replicate. change (Z.of_nat 4) with 4. simpl.
    rewrite !mwrite_insert by lia. done.
  - simpl mwrite. repeat apply mapped_insert. eapply mapped_sub; [done|lia..].
Qed.

(** The word [memset] gives to [stosl] has the fill byte four times. *)
Lemma fill_word c :
  le32 (Z.lor (Z.lor (Z.lor (Z.shiftl (Z.land c 0xff) 24) (Z.shiftl (Z.land c 0xff) 16))
    (Z.shiftl (Z.land c 0xff) 8)) (Z.land c 0xff)) = replicate 4 (u8 c).
Proof.
  rewrite land_ff. pose proof (Z.mod_pos_bound c 256 ltac:(lia)) as Hb.
  set (b := c `mod` 256) in *. change (u8 c) with b.
  rewrite !Z.shiftl_mul_pow2 by lia. rewrite <- !Z.lor_assoc.
  rewrite (lor_mul_add b 8 b) by lia.
  rewrite (lor_mul_add b 16) by (change (2 ^ 8) with 256; lia).
  rewrite (lor_mul_add b 24) by (change (2 ^ 8) with 256; change (2 ^ 16) with 65536; lia).
  unfold le32. simpl replicate. repeat f_equal; zlia.
Qed.

(** ** Copies *)
Lemma copy_up_ok m d s n l :
  mread m s n = Some l -> mapped m d n -> d <= s \/ s + Z.of_nat n <= d ->
  copy_up m d s n = Some (mwrite m d l).
Proof.
  revert m d s l. induction n as [|n IH]; intros m d s l Hr Hd Hov; simpl in Hr; [by simplify_eq|].
  destruct (load m s) as [v|] eqn:Hv; simpl in Hr; [|done].
  destruct (mread m (s + 1) n) as [l'|] eqn:Hl; simpl in Hr; [|done]. simplify_eq.
  destruct (store_first m d n v Hd) as [Hst Hd']. cbn [copy_up]. rewrite Hv. simpl mbind.
  rewrite Hst. simpl mbind. rewrite (IH _ (d + 1) (s + 1) l'); [|by rewrite mread_insert by lia|done|lia].
  cbn [mwrite]. by rewrite mwrite_insert by lia.
Qed.

Lemma copy_down_ok m d s n l :
  mread m s n = Some l -> mapped m d n -> s < d ->
  copy_down m (d + Z.of_nat n) (s + Z.of_nat n) n = Some (mwrite m d l).
Proof.
  revert m l. induction n as [|n IH]; intros m l Hr Hd Hov; [simpl in *; by simplify_eq|].
  replace (S n) with (n + 1)%nat in Hr by lia. pose proof Hr as Hl%length_mread.
  apply mread_split in Hr as [H1 H2].
  destruct (lookup_lt_is_Some_2 l n ltac:(lia)) as [v Hv].
  rewrite (drop_S _ _ _ Hv) in H2. simpl in H2. unfold load in H2. simplify_option_eq.
  cbn [copy_down]. replace (s + Z.of_nat (S n) - 1) with (s + Z.of_nat n) by lia.
  replace (d + Z.of_nat (S n) - 1) with (d + Z.of_nat n) by lia. unfold load. rewrite Heqo.
  simpl mbind. rewrite store_mapped by (apply Hd; lia). simpl mbind.
  rewrite (IH _ (take n l)).
  - f_equal. rewrite <- (take_drop_middle l n v Hv), mwrite_app. simpl.
    rewrite length_take, Nat.min_l by lia. rewrite drop_ge by lia.
    by rewrite take_app_le, take_take, Nat.min_id by (rewrite length_take; lia).
  - rewrite mread_insert by lia. done.
  - apply mapped_insert. eapply mapped_sub; [done|lia..].
  - done.
Qed.

(** ** Strings *)
Lemma cstr_nil m a : cstr m a [] -> load m a = Some 0.
Proof. intros [H _]. simpl in H. by destruct (load m a); simplify_eq/=. Qed.

Lemma mread_S m a n : mread m a (S n) = (v ← load m a; l ← mread m (a + 1) n; Some (v :: l)).
Proof. done. Qed.

Lemma cstr_cons m a c l :
  cstr m a (c :: l) <-> load m a = Some c /\ c <> 0 /\ cstr m (a + 1) l.
Proof.
  unfold cstr. cbn [length app]. rewrite Forall_cons, mread_S.
  destruct (load m a) as [v|]; [|naive_solver].
  destruct (mread m (a + 1) (S (length l))) as [k|]; simpl; naive_solver.
Qed.

Lemma cstr_insert m a l x v :
  x < a \/ a + Z.of_nat (S (length l)) <= x -> cstr m a l -> cstr (<[x := v]> m) a l.
Proof. intros Hx [H1 H2]. split; [by rewrite mread_insert|done]. Qed.

Lemma cstr_mwrite m a l : Forall (fun c => c <> 0) l -> cstr (mwrite m a (l ++ [0])) a l.
Proof.
  intros H. split; [|done]. rewrite <- (mread_mwrite m a (l ++ [0])). f_equal.
  rewrite length_app. simpl. lia.
Qed.

Lemma copy_str_ok m s t n l :
  cstr m t l -> mapped m s n -> apart s n t (S (length l)) ->
  copy_str m s t n =
    Some (mwrite m s (take n (l ++ [0])), s + Z.of_nat (min n (S (length l))), (n - S (length l))%nat).
Proof.
  revert m s t l. induction n as [|n IH]; intros m s t l Hc Hm Ha; unfold apart in *.
  { simpl. by rewrite Z.add_0_r. }
  destruct l as [|c l].
  - apply cstr_nil in Hc. cbn [copy_str]. rewrite Hc. simpl mbind.
    destruct (store_first m s n 0 Hm) as [-> _]. simpl. by rewrite take_nil, Nat.sub_0_r, Nat.min_0_r.
  - apply cstr_cons in Hc as (Hc & Hne & Hl). cbn [copy_str]. rewrite Hc. simpl mbind.
    destruct (store_first m s n c Hm) as [-> Hm']. simpl mbind.
    rewrite (proj2 (Z.eqb_neq c 0) Hne). cbn [length] in Ha.
    rewrite (IH _ (s + 1) (t + 1) l); [|apply cstr_insert; [lia|done]|done|lia].
    cbn [length app take mwrite Nat.sub]. rewrite mwrite_insert by lia.
    do 2 f_equal. f_equal. lia.
Qed.

Lemma strlen_ok fuel m s l : cstr m s l -> (length l < fuel)%nat -> strlen fuel m s = Some (Z.of_nat (length l)).
Proof.
  unfold strlen. intros Hc Hf. cut (forall n, 0 <= n -> cstr m (s + n) l ->
    strlen_loop fuel m s n = Some (n + Z.of_nat (length l))).
  { intros H. rewrite H by (by rewrite ?Z.add_0_r). done. }
  clear Hc. revert fuel Hf. induction l as [|c l IH]; intros [|f] Hf n Hn Hc; simpl in Hf; try lia.
  - cbn [strlen_loop]. rewrite (cstr_nil _ _ Hc). simpl. by rewrite Z.add_0_r.
  - apply cstr_cons in Hc as (Hc & Hne & Hl). cbn [strlen_loop]. rewrite Hc. simpl mbind.
    rewrite (proj2 (Z.eqb_neq c 0) Hne), IH; [f_equal; simpl; lia|lia..|].
    by rewrite Z.add_assoc.
Qed.

(** ** The order of byte strings *)
Inductive lex_lt : list Z -> list Z -> Prop :=
  | lex_nil b l : lex_lt [] (b :: l)
  | lex_head a b l k : a < b -> lex_lt (a :: l) (b :: k)
  | lex_tail a l k : lex_lt l k -> lex_lt (a :: l) (a :: k).

(** [r] orders [l] and [k] the way the comparison functions of C do. *)
Definition orders (r : Z) (l k : list Z) : Prop :=
  (r = 0 <-> l = k) /\ (r < 0 <-> lex_lt l k) /\ (0 < r <-> lex_lt k l).

Lemma lex_irrefl l : ~ lex_lt l l.
Proof. induction l; inversion 1; naive_solver lia. Qed.

Lemma orders_refl l : orders 0 l l.
Proof. pose proof (lex_irrefl l). unfold orders. naive_solver lia. Qed.

Lemma orders_head a b l k : a <> b -> orders (a - b) (a :: l) (b :: k).
Proof.
  intros Hne. unfold orders. split_and!; split; intros H.
  - lia.
  - naive_solver.
  - apply lex_head. lia.
  - inversion H; naive_solver lia.
  - apply lex_head. lia.
  - inversion H; naive_solver lia.
Qed.

Lemma orders_tail r a l k : orders r l k -> orders r (a :: l) (a :: k).
Proof.
  assert (Hl : forall l k, lex_lt (a :: l) (a :: k) <-> lex_lt l k).
  { intros. split; [inversion 1; [lia|done]|apply lex_tail]. }
  unfold orders. rewrite !Hl. naive_solver.
Qed.

Lemma orders_nil_l b k : 0 < b -> orders (0 - b) [] (b :: k).
Proof.
  intros. unfold orders. split_and!; split; intros; try lia; try done; [constructor|by inversion H0].
Qed.

Lemma orders_nil_r a l : 0 < a -> orders (a - 0) (a :: l) [].
Proof.
  intros. unfold orders. split_and!; split; intros; try lia; try done; [by inversion H0|constructor].
Qed.

Lemma byte_pos c : byte_ok c -> c <> 0 -> 0 < c.
Proof. unfold byte_ok. lia. Qed.

Lemma strncmp_loop_ok m p q n l k :
  cstr m p l -> cstr m q k -> bytes_ok l -> bytes_ok k ->
  exists r, strncmp_loop m p q n = Some r /\ orders r (take n l) (take n k).
Proof.
  revert p q l k. induction n as [|n IH]; intros p q l k Hl Hk Bl Bk.
  { exists 0. split; [done|]. apply orders_refl. }
  cbn [strncmp_loop]. destruct l as [|a l], k as [|b k].
  - rewrite (cstr_nil _ _ Hl), (cstr_nil _ _ Hk). simpl. eexists. split; [done|]. apply orders_refl.
  - apply cstr_cons in Hk as (Hb & Hnb & Hk). inversion Bk; subst.
    rewrite (cstr_nil _ _ Hl), Hb. simpl. rewrite (u8_small b) by done. eexists. split; [done|].
    by apply orders_nil_l, byte_pos.
  - apply cstr_cons in Hl as (Ha & Hna & Hl). inversion Bl; subst.
    rewrite Ha, (cstr_nil _ _ Hk). simpl. rewrite (proj2 (Z.eqb_neq a 0) Hna).
    rewrite (u8_small a) by done. eexists. split; [done|]. by apply orders_nil_r, byte_pos.
  - apply cstr_cons in Hl as (Ha & Hna & Hl). apply cstr_cons in Hk as (Hb & Hnb & Hk).
    inversion Bl; inversion Bk; subst. rewrite Ha, Hb. simpl mbind.
    rewrite (proj2 (Z.eqb_neq a 0) Hna). destruct (Z.eqb_spec a b) as [<-|Hne].
    + destruct (IH _ _ _ _ Hl Hk) as (r & -> & Hr); [done..|]. exists r. split; [done|].
      by apply orders_tail.
    + rewrite !u8_small by done. eexists. split; [done|]. by apply orders_head.
Qed.

Lemma memcmp_loop_ok m p q n l k :
  mread m p n = Some l -> mread m q n = Some k ->
  exists r, memcmp_loop m p q n = Some r /\ orders r l k.
Proof.
  revert p q l k. induction n as [|n IH]; intros p q l k Hl Hk; simpl in Hl, Hk.
  { simplify_eq. exists 0. split; [done|]. apply orders_refl. }
  destruct (load m p) as [a|] eqn:Ha; simpl in Hl; [|done].
  destruct (mread m (p + 1) n) eqn:Hl'; simpl in Hl; [|done].
  destruct (load m q) as [b|] eqn:Hb; simpl in Hk; [|done].
  destruct (mread m (q + 1) n) eqn:Hk'; simpl in Hk; [|done]. simplify_eq.
  cbn [memcmp_loop]. rewrite Ha, Hb. simpl mbind. destruct (Z.eqb_spec a b) as [<-|Hne]; simpl negb.
  - destruct (IH _ _ _ _ Hl' Hk') as (r & -> & Hr). exists r. split; [done|]. by apply orders_tail.
  - eexists. split; [done|]. by apply orders_head.
Qed.

(** ** Theorems *)

(** [memmove] copies the bytes that were at [src] before the call,
    whichever way the two ranges overlap, and writes nothing else; it faults
    on no mapped range. *)
Theorem memmove_snapshot m dst src n l :
  0 <= src -> 0 <= dst -> 0 <= n -> src + n < 2 ^ 32 ->
  mread m src (Z.to_nat n) = Some l -> mapped m dst (Z.to_nat n) ->
  memmove m dst src n = Some (mwrite m dst l).
Proof.
  intros Hs Hd Hn Hw Hr Hm. unfold memmove. rewrite u32_small by lia.
  destruct ((src <? dst) && (dst <? src + n)) eqn:Hc.
  - rewrite <- (Z2Nat.id n) at 1 2 by done. apply copy_down_ok; [done..|]. lia.
  - apply copy_up_ok; [done..|]. rewrite Z2Nat.id by done. lia.
Qed.

(** [memset] stores the low byte of [c] in the [n] bytes at [dst] and
    nowhere else, whether it takes the word path or the byte path. *)
Theorem memset_fills m dst c n :
  0 <= n -> mapped m dst (Z.to_nat n) ->
  memset m dst c n = Some (mwrite m dst (replicate (Z.to_nat n) (u8 c))).
Proof.
  intros Hn Hm. unfold memset. destruct (_ && _) eqn:Hc; [|by apply stosb_ok].
  apply andb_true_iff in Hc as [_ Hc%Z.eqb_eq].
  assert (E : Z.to_nat n = (4 * Z.to_nat (n `div` 4))%nat).
  { rewrite <- (Z2Nat.id n) at 1 by done. zlia. }
  rewrite E in *. apply stosl_ok; [apply fill_word|done].
Qed.

(** [strncpy] fills exactly [n] bytes: the string, cut at [n] or padded
    with zeros. *)
Theorem strncpy_pads m s t n l :
  cstr m t l -> mapped m s (Z.to_nat n) -> apart s (Z.to_nat n) t (S (length l)) ->
  strncpy m s t n = Some (mwrite m s (resize (Z.to_nat n) 0 l)).
Proof.
  intros Hc Hm Ha. unfold strncpy. rewrite (copy_str_ok m s t (Z.to_nat n) l) by done. simpl mbind.
  set (k := Z.to_nat n) in *. assert (Hlen : length (take k (l ++ [0])) = min k (S (length l))).
  { rewrite length_take, length_app. simpl. lia. }
  rewrite stosb_ok by (eapply mapped_mwrite_after; [done|lia..]).
  rewrite <- Hlen, <- mwrite_app_after. do 2 f_equal. change (u8 0) with 0. rewrite resize_spec.
  destruct (decide (k <= length l)%nat).
  - rewrite take_app_le by done. do 2 f_equal. lia.
  - rewrite !(firstn_all2 (n := k)) by (rewrite ?length_app; simpl; lia).
    rewrite <- app_assoc. f_equal. replace (k - length l)%nat with (S (k - S (length l))) by lia. done.
Qed.

(** [safestrcpy] with a positive [n] leaves the longest prefix of the
    string that fits in [n] bytes with its terminator, always terminated, and
    stores outside the [n] bytes at [s] nothing. *)
Theorem safestrcpy_terminates m s t n l :
  0 < n -> cstr m t l -> mapped m s (Z.to_nat n) -> apart s (Z.to_nat n) t (S (length l)) ->
  exists m', safestrcpy m s t n = Some m' /\ cstr m' s (take (Z.to_nat (n - 1)) l) /\
    forall x, x < s \/ s + n <= x -> m' !! x = m !! x.
Proof.
  intros Hn Hc Hm Ha. unfold safestrcpy. destruct (Z.leb_spec n 0); [lia|].
  replace (Z.to_nat n) with (S (Z.to_nat (n - 1))) in * by lia. set (k := Z.to_nat (n - 1)) in *.
  rewrite (copy_str_ok m s t k l); [|done|eapply mapped_sub; [done|lia..]|unfold apart in *; lia].
  simpl mbind. set (w := take k (l ++ [0])).
  assert (Hlen : length w = min k (S (length l))).
  { unfold w. rewrite length_take, length_app. simpl. lia. }
  rewrite <- Hlen, store_mapped.
  2:{ eapply (mapped_mwrite_after m s (S k) w (s + Z.of_nat (length w)) 1); [done|lia..|lia]. }
  eexists. split; [done|].
  change (<[?a := 0]> ?x) with (mwrite x a [0]). rewrite <- mwrite_app_after.
  split.
  - destruct Hc as [_ Hnz]. destruct (decide (k <= length l)%nat).
    + unfold w. rewrite take_app_le by done. apply cstr_mwrite. by apply Forall_take.
    + unfold w. rewrite !firstn_all2 by (rewrite ?length_app; simpl; lia).
      rewrite mwrite_app_after. apply cstr_insert; [rewrite length_app; simpl; lia|].
      by apply cstr_mwrite.
  - intros x Hx. apply mwrite_lookup_out. rewrite length_app. simpl. lia.
Qed.

(** [strncmp] orders the first [n] characters of two strings as unsigned
    bytes: zero exactly when they agree, negative and positive exactly when
    the one is before the other in the lexicographic order; [memcmp] orders
    two ranges of [n] bytes the same way. *)
Theorem comparisons_order m p q n l k :
  (cstr m p l -> cstr m q k -> bytes_ok l -> bytes_ok k ->
   exists r, strncmp m p q n = Some r /\ orders r (take (Z.to_nat n) l) (take (Z.to_nat n) k)) /\
  (mread m p (Z.to_nat n) = Some l -> mread m q (Z.to_nat n) = Some k ->
   exists r, memcmp m p q n = Some r /\ orders r l k).
Proof. split; intros; [by apply strncmp_loop_ok|by apply memcmp_loop_ok]. Qed.

(** ** Witnesses: the text "abcdefgh" at 100, "abd" at 200 *)
Definition demo_mem : mem :=
  mwrite (mwrite ∅ 100 ([97; 98; 99; 100; 101; 102; 103; 104] ++ [0])) 200 ([97; 98; 100] ++ [0]).

Lemma demo_strings : cstr demo_mem 100 [97; 98; 99; 100; 101; 102; 103; 104] /\ cstr demo_mem 200 [97; 98; 100].
Proof. split; (split; [vm_compute; reflexivity|repeat constructor; lia]). Qed.

Lemma memmove_snapshot_witness :
  memmove demo_mem 102 100 4 = Some (mwrite demo_mem 102 [97; 98; 99; 100]).
Proof.
  apply (memmove_snapshot demo_mem 102 100 4); [lia..|vm_compute; reflexivity|].
  eapply mread_mapped. vm_compute. reflexivity.
Defined.

Lemma memset_fills_witness :
  memset demo_mem 100 0x1ff 8 = Some (mwrite demo_mem 100 (replicate 8 255)).
Proof.
  apply (memset_fills demo_mem 100 0x1ff 8); [lia|].
  eapply mread_mapped. vm_compute. reflexivity.
Defined.

Lemma strncpy_pads_witness :
  strncpy demo_mem 100 200 6 = Some (mwrite demo_mem 100 [97; 98; 100; 0; 0; 0]).
Proof.
  apply (strncpy_pads demo_mem 100 200 6 [97; 98; 100]); [apply demo_strings| |left; lia].
  eapply mread_mapped. vm_compute. reflexivity.
Defined.

Lemma safestrcpy_terminates_witness :
  exists m', safestrcpy demo_mem 200 100 3 = Some m' /\ cstr m' 200 [97; 98] /\
    forall x, x < 200 \/ 203 <= x -> m' !! x = demo_mem !! x.
Proof.
  apply (safestrcpy_terminates demo_mem 200 100 3 [97; 98; 99; 100; 101; 102; 103; 104]);
    [lia|apply demo_strings| |right; simpl; lia].
  eapply mread_mapped. vm_compute. reflexivity.
Defined.

Lemma comparisons_order_witness :
  exists r, strncmp demo_mem 100 200 3 = Some r /\ orders r [97; 98; 99] [97; 98; 100].
Proof.
  apply (comparisons_order demo_mem 100 200 3 [97; 98; 99; 100; 101; 102; 103; 104] [97; 98; 100]);
    [apply demo_strings..| |]; repeat constructor; unfold byte_ok; lia.
Defined.

End Str.
