(* ===== verification/Ulib.v ===== *)
(** * Ulib: the user library's string functions (ulib.c)

    The same flat memory as [Str].  [gets] reads descriptor 0, modelled as
    the list of the bytes it still delivers before [read] returns less than
    one. *)
From S2P Require Import Prelude Str.

Module Ulib.
Import Str.

(** [while(( *s++ = *t++) != 0);], at most [fuel] characters. *)
Fixpoint strcpy (fuel : nat) (m : mem) (s t : Z) : option mem :=
  match fuel with
  | O => None
  | S k =>
    c ← load m t; m ← store m s c;
    if c =? 0 then Some m else strcpy k m (s + 1) (t + 1)
  end.

Fixpoint strcmp (fuel : nat) (m : mem) (p q : Z) : option Z :=
  match fuel with
  | O => None
  | S k =>
    a ← load m p;
    if a =? 0 then b ← load m q; Some (u8 a - u8 b) else
    b ← load m q;
    if a =? b then strcmp k m (p + 1) (q + 1) else Some (u8 a - u8 b)
  end.

(** [strlen] returns the [int] counter as [uint]. *)
Definition strlen (fuel : nat) (m : mem) (s : Z) : option Z := u32 <$> Str.strlen_loop fuel m s 0.

Definition memset (m : mem) (dst c n : Z) : option mem := stosb m dst c (Z.to_nat n).

(** The address of the first [c] in the string at [s], 0 if there is none. *)
Fixpoint strchr (fuel : nat) (m : mem) (s c : Z) : option Z :=
  match fuel with
  | O => None
  | S k =>
    v ← load m s;
    if v =? 0 then Some 0 else
    if v =? c then Some s else strchr k m (s + 1) c
  end.

Definition NL : Z := 10.
Definition CR : Z := 13.

(** The loop of [gets]: [input] is what descriptor 0 still delivers. *)
Fixpoint gets_loop (m : mem) (buf i max : Z) (input : list Z) : option (mem * Z * list Z) :=
  if i + 1 <? max then
    match input with
    | [] => Some (m, i, [])
    | c :: input =>
      m ← store m (buf + i) c;
      if (c =? NL) || (c =? CR) then Some (m, i + 1, input)
      else gets_loop m buf (i + 1) max input
    end
  else Some (m, i, input).

Definition gets (m : mem) (buf max : Z) (input : list Z) : option (mem * list Z) :=
  '(m, i, input) ← gets_loop m buf 0 max input;
  m ← store m (buf + i) 0;
  Some (m, input).

Fixpoint atoi_loop (fuel : nat) (m : mem) (s n : Z) : option Z :=
  match fuel with
  | O => None
  | S k =>
    c ← load m s;
    if (48 <=? c) && (c <=? 57) then atoi_loop k m (s + 1) (s32 (n * 10 + c - 48)) else Some n
  end.
Definition atoi (fuel : nat) (m : mem) (s : Z) : option Z := atoi_loop fuel m s 0.

(** The user library copies upwards whatever the overlap. *)
Definition memmove (m : mem) (vdst vsrc n : Z) : option mem := copy_up m vdst vsrc (Z.to_nat n).

(** ** Specifications *)

(** What a line is: the input up to and including the first newline or
    carriage return, all of it if there is none. *)
Fixpoint line (input : list Z) : list Z :=
  match input with
  | [] => []
  | c :: input => if (c =? NL) || (c =? CR) then [c] else c :: line input
  end.

(** The number a string of decimal digits denotes, the most significant one first. *)
Definition decimal (l : list Z) : Z := foldl (fun n c => n * 10 + (c - 48)) 0 l.
Definition digit (c : Z) : Prop := 48 <= c <= 57.

Lemma line_prefix input : exists r, input = line input ++ r.
Proof.
  induction input as [|c l [r IH]]; simpl; [by exists []|].
  destruct (_ || _); [by exists l|]. exists r. simpl. by rewrite <- IH.
Qed.

Lemma strcpy_ok fuel m s t l :
  cstr m t l -> (length l < fuel)%nat -> mapped m s (S (length l)) ->
  apart s (S (length l)) t (S (length l)) ->
  strcpy fuel m s t = Some (mwrite m s (l ++ [0])).
Proof.
  revert fuel m s t. induction l as [|c l IH]; intros [|f] m s t Hc Hf Hm Ha; cbn [length] in *; try lia.
  - cbn [strcpy]. rewrite (cstr_nil _ _ Hc). simpl mbind.
    destruct (store_first m s 0 0 Hm) as [-> _]. done.
  - apply cstr_cons in Hc as (Hc & Hne & Hl). cbn [strcpy]. rewrite Hc. simpl mbind.
    destruct (store_first m s _ c Hm) as [-> Hm']. simpl mbind. unfold apart in *.
    rewrite (proj2 (Z.eqb_neq c 0) Hne), IH; [|apply cstr_insert; [lia|done]|lia|done|lia].
    cbn [app mwrite]. by rewrite mwrite_insert by lia.
Qed.

Lemma strcmp_strncmp fuel m p q l k :
  cstr m p l -> cstr m q k -> (length l < fuel)%nat ->
  strcmp fuel m p q = strncmp_loop m p q fuel.
Proof.
  revert fuel p q k. induction l as [|a l IH]; intros [|f] p q k Hl Hk Hf; cbn [length] in *; try lia.
  - cbn [strcmp strncmp_loop]. by rewrite (cstr_nil _ _ Hl).
  - apply cstr_cons in Hl as (Ha & Hne & Hl). cbn [strcmp strncmp_loop]. rewrite Ha. simpl mbind.
    rewrite (proj2 (Z.eqb_neq a 0) Hne). destruct k as [|b k].
    + rewrite (cstr_nil _ _ Hk). simpl mbind. by rewrite (proj2 (Z.eqb_neq a 0) Hne).
    + apply cstr_cons in Hk as (Hb & _ & Hk). rewrite Hb. simpl mbind.
      destruct (a =? b); [|done]. apply (IH _ _ _ k); [done..|lia].
Qed.

Lemma strchr_ok fuel m s c l :
  cstr m s l -> (length l < fuel)%nat ->
  strchr fuel m s c = Some (match find_index (Z.eqb c) l with Some i => s + Z.of_nat i | None => 0 end).
Proof.
  revert fuel s. induction l as [|a l IH]; intros [|f] s Hl Hf; cbn [length] in *; try lia.
  - cbn [strchr]. by rewrite (cstr_nil _ _ Hl).
  - apply cstr_cons in Hl as (Ha & Hne & Hl). cbn [strchr find_index]. rewrite Ha. simpl mbind.
    rewrite (proj2 (Z.eqb_neq a 0) Hne), (Z.eqb_sym c a). destruct (a =? c); [by rewrite Z.add_0_r|].
    rewrite IH by (done || lia). destruct (find_index _ l); simpl; f_equal; lia.
Qed.

Lemma gets_loop_ok m buf i max input :
  0 <= i -> mapped m (buf + i) (Z.to_nat (max - 1 - i)) ->
  let w := take (Z.to_nat (max - 1 - i)) (line input) in
  gets_loop m buf i max input =
    Some (mwrite m (buf + i) w, i + Z.of_nat (length w), drop (length w) input).
Proof.
  revert m i. induction input as [|c input IH]; intros m i Hi Hm w; subst w; cbn [gets_loop].
  - simpl. rewrite take_nil. simpl. rewrite Z.add_0_r. by destruct (i + 1 <? max).
  - destruct (Z.ltb_spec (i + 1) max) as [Hlt|Hge].
    2:{ replace (Z.to_nat (max - 1 - i)) with 0%nat by lia. simpl. by rewrite Z.add_0_r. }
    replace (Z.to_nat (max - 1 - i)) with (S (Z.to_nat (max - 1 - (i + 1)))) in * by lia.
    destruct (store_first m (buf + i) _ c Hm) as [-> Hm']. simpl mbind. cbn [line].
    destruct ((c =? NL) || (c =? CR)).
    + cbn [take]. rewrite take_nil. done.
    + replace (buf + i + 1) with (buf + (i + 1)) in Hm' by lia.
      rewrite (IH _ (i + 1)) by (done || lia). cbn [take mwrite length drop].
      rewrite mwrite_insert by lia. rewrite Nat2Z.inj_succ.
      replace (buf + i + 1) with (buf + (i + 1)) by lia. do 3 f_equal. lia.
Qed.

Lemma foldl_decimal l n : Forall digit l ->
  foldl (fun n c => n * 10 + (c - 48)) n l = n * 10 ^ Z.of_nat (length l) + decimal l.
Proof.
  unfold decimal. intros H. revert n. induction H as [|c l Hc H IH]; intros n; cbn [foldl]; [simpl; lia|].
  rewrite IH, (IH (0 * 10 + (c - 48))). cbn [length]. rewrite Nat2Z.inj_succ, Z.pow_succ_r by lia. lia.
Qed.

Lemma decimal_bound l : Forall digit l -> 0 <= decimal l < 10 ^ Z.of_nat (length l).
Proof.
  induction 1 as [|c l Hc H IH]; [unfold decimal; simpl; lia|]. unfold decimal. cbn [foldl].
  rewrite foldl_decimal by done. cbn [length]. rewrite Nat2Z.inj_succ, Z.pow_succ_r by lia.
  unfold digit in Hc. nia.
Qed.

Lemma atoi_loop_ok fuel m s n l c :
  mread m s (S (length l)) = Some (l ++ [c]) -> Forall digit l -> ~ digit c ->
  (length l < fuel)%nat -> 0 <= n ->
  foldl (fun n c => n * 10 + (c - 48)) n l < 2 ^ 31 ->
  atoi_loop fuel m s n = Some (foldl (fun n c => n * 10 + (c - 48)) n l).
Proof.
  intros Hm Hl Hc. revert fuel s n Hm. induction Hl as [|d l Hd Hl IH]; intros [|f] s n Hm Hf Hn Hb;
    cbn [length] in *; try lia; cbn [atoi_loop]; rewrite mread_S in Hm; cbn [app] in Hm.
  - destruct (load m s); simpl in Hm; [|done]. simplify_eq. simpl mbind. unfold digit in Hc.
    replace ((48 <=? c) && (c <=? 57)) with false by lia. done.
  - destruct (load m s) as [v|]; cbn [mbind option_bind] in Hm; [|done].
    destruct (mread m (s + 1) (S (length l))) as [r|] eqn:Hr; cbn [mbind option_bind] in Hm; [|done]. simplify_eq.
    simpl mbind. unfold digit in Hd. replace ((48 <=? d) && (d <=? 57)) with true by (symmetry; apply andb_true_iff; lia).
    cbn [foldl] in *. rewrite foldl_decimal in Hb by done. pose proof (decimal_bound l Hl).
    assert (0 < 10 ^ Z.of_nat (length l)) by (apply Z.pow_pos_nonneg; lia).
    rewrite s32_small by nia. replace (n * 10 + d - 48) with (n * 10 + (d - 48)) by lia.
    apply IH; [done..|lia|lia|]. rewrite foldl_decimal by done. lia.
Qed.

(** ** Theorems *)

(** [gets] stores one line, cut at [max - 1] characters, terminated, and
    leaves the rest of the input for the next call: no character is lost or
    read twice. *)
Theorem gets_line m buf max input :
  0 < max -> mapped m buf (Z.to_nat max) ->
  let w := take (Z.to_nat (max - 1)) (line input) in
  exists rest, input = w ++ rest /\ gets m buf max input = Some (mwrite m buf (w ++ [0]), rest).
Proof.
  intros Hmax Hm w. exists (drop (length w) input). split.
  - destruct (line_prefix input) as [r Hr].
    assert (E : input = w ++ drop (Z.to_nat (max - 1)) (line input) ++ r).
    { unfold w. by rewrite app_assoc, take_drop. }
    clearbody w. rewrite E at 2. by rewrite drop_app_length.
  - unfold gets. rewrite gets_loop_ok; [|lia|].
    2:{ rewrite Z.add_0_r. eapply mapped_sub; [done|lia..]. }
    rewrite Z.sub_0_r, Z.add_0_r. fold w. simpl mbind.
    rewrite store_mapped, Z.add_0_l.
    + simpl. by rewrite mwrite_app_after.
    + assert (length w <= Z.to_nat (max - 1))%nat by (unfold w; rewrite length_take; lia).
      rewrite Z.add_0_l. apply (mapped_mwrite_after m buf (Z.to_nat max) w (buf + Z.of_nat (length w)) 1);
        [done|lia..].
Qed.

(** the user library's [strcpy], [strlen], [strcmp] and [strchr] on a
    string read exactly its characters: the copy is the string, its length is
    counted, the comparison orders the two strings, and the character found
    is the first one. *)
Theorem ulib_strings fuel m s t l k c :
  cstr m s l -> cstr m t k -> bytes_ok l -> bytes_ok k ->
  (length l < fuel)%nat -> (length k < fuel)%nat -> Z.of_nat (length l) < 2 ^ 32 ->
  strlen fuel m s = Some (Z.of_nat (length l)) /\
  (exists r, strcmp fuel m s t = Some r /\ orders r l k) /\
  strchr fuel m s c =
    Some (match find_index (Z.eqb c) l with Some i => s + Z.of_nat i | None => 0 end) /\
  forall d, mapped m d (S (length l)) -> apart d (S (length l)) s (S (length l)) ->
    exists m', strcpy fuel m d s = Some m' /\ cstr m' d l.
Proof.
  intros Hl Hk Bl Bk Hf Hg Hb. split_and!.
  - unfold strlen. pose proof (Str.strlen_ok fuel m s l Hl Hf) as H. unfold Str.strlen in H.
    rewrite H. simpl. by rewrite u32_small by lia.
  - rewrite (strcmp_strncmp fuel m s t l k) by done.
    destruct (strncmp_loop_ok m s t fuel l k) as (r & -> & Hr); [done..|]. exists r. split; [done|].
    by rewrite !firstn_all2 in Hr by lia.
  - by apply strchr_ok.
  - intros d Hm Ha. eexists. split; [by apply strcpy_ok|]. apply cstr_mwrite. apply Hl.
Qed.

(** The library's [memmove] is right when the destination does not start
    inside the source. *)
Lemma memmove_upward m d s n l :
  0 <= n -> mread m s (Z.to_nat n) = Some l -> mapped m d (Z.to_nat n) -> d <= s \/ s + n <= d ->
  memmove m d s n = Some (mwrite m d l).
Proof. intros. apply copy_up_ok; [done..|lia]. Qed.

Lemma mod_succ i g : 0 < g -> 0 <= i ->
  (i `mod` g = g - 1 /\ (i + 1) `mod` g = 0) \/ (i `mod` g < g - 1 /\ (i + 1) `mod` g = i `mod` g + 1).
Proof.
  intros Hg Hi. pose proof (Z.mod_pos_bound i g Hg). pose proof (Z.div_mod i g ltac:(lia)).
  destruct (decide (i `mod` g = g - 1)) as [E|E]; [left|right]; (split; [lia|]); symmetry.
  - apply (Z.mod_unique_pos _ _ (i `div` g + 1)); [lia|nia].
  - apply (Z.mod_unique_pos _ _ (i `div` g)); [lia|nia].
Qed.

Lemma copy_up_smears g n m s :
  0 < g -> mapped m s (n + Z.to_nat g) ->
  exists m', copy_up m (s + g) s n = Some m' /\
    (forall i, 0 <= i < Z.of_nat n -> m' !! (s + g + i) = m !! (s + i `mod` g)) /\
    (forall x, x < s + g -> m' !! x = m !! x).
Proof.
  intros Hg. revert m s. induction n as [|n IH]; intros m s Hm.
  { exists m. split_and!; [done|lia|done]. }
  cbn [copy_up]. destruct (Hm s ltac:(lia)) as [v Hv]. unfold load. rewrite Hv. simpl mbind.
  rewrite store_mapped by (apply Hm; lia). simpl mbind.
  replace (s + g + 1) with (s + 1 + g) by lia.
  destruct (IH (<[s + g := v]> m) (s + 1)) as (m' & -> & Hi & Hx).
  { apply mapped_insert. eapply mapped_sub; [done|lia..]. }
  exists m'. split_and!; [done| |].
  - intros i Hin. destruct (decide (i = 0)) as [->|].
    { rewrite Hx, Zmod_0_l, !Z.add_0_r, lookup_insert_eq by lia. done. }
    specialize (Hi (i - 1) ltac:(lia)). replace (s + 1 + g + (i - 1)) with (s + g + i) in Hi by lia.
    rewrite Hi. destruct (mod_succ (i - 1) g Hg ltac:(lia)) as [[E1 E2]|[E1 E2]];
      rewrite Z.sub_add in E2; rewrite E2.
    + rewrite E1. replace (s + 1 + (g - 1)) with (s + g) by lia.
      by rewrite lookup_insert_eq, Z.add_0_r.
    + rewrite lookup_insert_ne by lia. f_equal. lia.
  - intros x Hlt. rewrite Hx, lookup_insert_ne by lia. done.
Qed.

(** the library's [memmove] into the middle of its own source does not
    move the source: the byte at [d + i] becomes the byte that was at
    [s + i mod (d - s)], the first [d - s] bytes over and over. *)
Theorem memmove_smears m s n g l :
  0 < g -> g < n -> mread m s (Z.to_nat n) = Some l -> mapped m (s + g) (Z.to_nat n) ->
  exists m', memmove m (s + g) s n = Some m' /\
    forall i, 0 <= i < n -> m' !! (s + g + i) = m !! (s + i `mod` g).
Proof.
  intros Hg Hn Hr%mread_mapped Hm. destruct (copy_up_smears g (Z.to_nat n) m s Hg) as (m' & E & Hi & _).
  { intros x Hx. destruct (decide (x < s + n)); [apply Hr|apply Hm]; lia. }
  exists m'. split; [done|]. intros i Hin. apply Hi. lia.
Qed.

(** ** Witnesses *)
Lemma gets_line_witness :
  exists rest, [104; 105; 10; 98; 121; 101] = [104; 105; 10] ++ rest /\
    gets demo_mem 100 9 [104; 105; 10; 98; 121; 101] = Some (mwrite demo_mem 100 [104; 105; 10; 0], rest).
Proof.
  apply (gets_line demo_mem 100 9 [104; 105; 10; 98; 121; 101]); [lia|].
  eapply mread_mapped. vm_compute. reflexivity.
Defined.

Lemma ulib_strings_witness :
  strlen 10 demo_mem 100 = Some 8 /\
  exists r, strcmp 10 demo_mem 100 200 = Some r /\ orders r [97; 98; 99; 100; 101; 102; 103; 104] [97; 98; 100].
Proof.
  destruct (ulib_strings 10 demo_mem 100 200 [97; 98; 99; 100; 101; 102; 103; 104] [97; 98; 100] 99)
    as (H1 & H2 & _); [apply demo_strings..| | |simpl; lia|simpl; lia|simpl; lia|split; [exact H1|exact H2]];
    repeat constructor; unfold byte_ok; lia.
Defined.

Lemma memmove_smears_witness :
  exists m', memmove demo_mem (100 + 2) 100 5 = Some m' /\
    forall i, 0 <= i < 5 -> m' !! (100 + 2 + i) = demo_mem !! (100 + i `mod` 2).
Proof.
  eapply (memmove_smears demo_mem 100 5 2); [lia|lia|vm_compute; reflexivity|].
  eapply mread_mapped. vm_compute. reflexivity.
Defined.

End Ulib.
