(* ===== verification/Printf.v ===== *)
(** * Printf: formatted output of user programs (printf.c)

    The output of [write(fd, &c, 1)] is the list of bytes written.  The
    argument words after [fmt] on the stack are a list; reading past its end
    is a fault.  [printint] fills [char buf[16]]: storing past it is a fault,
    so that [printint] returning is part of what is proved. *)
From S2P Require Import Prelude Str Ulib.

Module Printf.
Import Str.

(** ** [printint] *)

(** "0123456789ABCDEF" *)
Definition digits : list Z := [48; 49; 50; 51; 52; 53; 54; 55; 56; 57; 65; 66; 67; 68; 69; 70].

(** [do { buf[i++] = digits[x % base]; } while((x /= base) != 0);] with
    [room] places left in [buf]: the characters stored, in order. *)
Fixpoint digit_loop (table : list Z) (room : nat) (x base : Z) : option (list Z) :=
  match room with
  | O => None
  | S room =>
    c ← table !! Z.to_nat (x `mod` base);
    let x := x `div` base in
    if x =? 0 then Some [c] else cs ← digit_loop table room x base; Some (c :: cs)
  end.

(** [buf[i++] = '-'] *)
Definition put_sign (neg : bool) (buf : list Z) : option (list Z) :=
  if neg then if (length buf <? 16)%nat then Some (buf ++ [45]) else None else Some buf.

(** [xx] is an [int]; [x] is unsigned, so that [-xx] is exact for every
    [xx].  The result is what is written, the last character of [buf] first. *)
Definition printint (xx base : Z) (sgn : bool) : option (list Z) :=
  let neg := sgn && (xx <? 0) in
  let x := if neg then u32 (- xx) else u32 xx in
  buf ← digit_loop digits 16 x base;
  buf ← put_sign neg buf;
  Some (rev buf).

(** ** [printf] *)

(** [while( *s != 0){ putc(fd, *s); s++; }] *)
Fixpoint puts_loop (fuel : nat) (m : mem) (s : Z) : option (list Z) :=
  match fuel with
  | O => None
  | S k => c ← load m s; if c =? 0 then Some [] else cs ← puts_loop k m (s + 1); Some (c :: cs)
  end.

(** "(null)" *)
Definition null_text : list Z := [40; 110; 117; 108; 108; 41].

(** [state] is 0 or ['%']. *)
Inductive pstate : Type := Plain | Percent.

(** One character [c] of the format: the output, the arguments left and the
    next state. *)
Definition printf_char (fuel : nat) (m : mem) (state : pstate) (c : Z) (ap : list Z)
    : option (list Z * list Z * pstate) :=
  match state with
  | Plain => if c =? 37 then Some ([], ap, Percent) else Some ([c], ap, Plain)
  | Percent =>
    if c =? 100 then
      a ← head ap; out ← printint (s32 a) 10 true; Some (out, tail ap, Plain)
    else if (c =? 120) || (c =? 112) then
      a ← head ap; out ← printint (s32 a) 16 false; Some (out, tail ap, Plain)
    else if c =? 115 then
      a ← head ap;
      out ← (if a =? 0 then Some null_text else puts_loop fuel m a); Some (out, tail ap, Plain)
    else if c =? 99 then
      a ← head ap; Some ([u8 a], tail ap, Plain)
    else if c =? 37 then Some ([c], ap, Plain)
    else Some ([37; c], ap, Plain)
  end.

(** [for(i = 0; fmt[i]; i++)] *)
Fixpoint printf_loop (fuel : nat) (m : mem) (fmt : Z) (state : pstate) (ap : list Z) : option (list Z) :=
  match fuel with
  | O => None
  | S k =>
    c ← load m fmt;
    if c =? 0 then Some [] else
    '(out, ap, state) ← printf_char k m state c ap;
    rest ← printf_loop k m (fmt + 1) state ap;
    Some (out ++ rest)
  end.
Definition printf (fuel : nat) (m : mem) (fmt : Z) (args : list Z) : option (list Z) :=
  printf_loop fuel m fmt Plain args.

(** ** What a numeral denotes *)

(** Digit values, the most significant one first. *)
Definition value (base : Z) (vs : list Z) : Z := foldl (fun n v => n * base + v) 0 vs.

(** [cs] is the numeral of [x] in [base]: digits of [table], no leading zero. *)
Definition numeral (table : list Z) (base x : Z) (cs : list Z) : Prop :=
  exists vs, Forall2 (fun c v => 0 <= v < base /\ table !! Z.to_nat v = Some c) cs vs /\
    value base vs = x /\ (vs = [0] \/ exists v vs', vs = v :: vs' /\ v <> 0).

Lemma value_snoc base vs v : value base (vs ++ [v]) = value base vs * base + v.
Proof. unfold value. by rewrite foldl_app. Qed.

Lemma value_cons0 base v : value base [v] = v.
Proof. done. Qed.

Lemma numeral_snoc table base x c v cs :
  0 <= v < base -> table !! Z.to_nat v = Some c -> 0 < x -> numeral table base x cs ->
  numeral table base (x * base + v) (cs ++ [c]).
Proof.
  intros Hv Hc Hx (vs & Hall & Hval & Hlead). exists (vs ++ [v]). split_and!.
  - apply Forall2_app; [done|]. constructor; [done|constructor].
  - by rewrite value_snoc, Hval.
  - right. destruct Hlead as [->|(w & vs' & -> & Hw)]; [unfold value in Hval; simpl in Hval; lia|].
    by exists w, (vs' ++ [v]).
Qed.

(** The loop stops within [room] characters when [x < base ^ room]. *)
Lemma digit_loop_ok table base room x :
  1 < base -> base <= Z.of_nat (length table) -> (0 < room)%nat -> 0 <= x < base ^ Z.of_nat room ->
  exists cs, digit_loop table room x base = Some cs /\ (length cs <= room)%nat /\
    numeral table base x (rev cs).
Proof.
  intros Hb Ht. revert x. induction room as [|room IH]; intros x Hr Hx; [lia|].
  cbn [digit_loop]. pose proof (Z.mod_pos_bound x base ltac:(lia)) as Hm.
  destruct (lookup_lt_is_Some_2 table (Z.to_nat (x `mod` base)) ltac:(lia)) as [c Hc].
  rewrite Hc. simpl mbind. pose proof (Z.div_mod x base ltac:(lia)) as Hdm.
  destruct (Z.eqb_spec (x `div` base) 0) as [E|E].
  - exists [c]. split_and!; [done|simpl; lia|]. exists [x `mod` base].
    split_and!; [constructor; [done|constructor]|rewrite value_cons0; lia|].
    destruct (decide (x `mod` base = 0)) as [->|]; [by left|right; eauto].
  - assert (0 <= x `div` base) by (apply Z.div_pos; lia).
    assert (x `div` base < base ^ Z.of_nat room) as Hlt.
    { apply Z.div_lt_upper_bound; [lia|]. rewrite <- Z.pow_succ_r, <- Nat2Z.inj_succ by lia. lia. }
    destruct (decide (room = 0)%nat) as [->|]; [simpl in Hlt; lia|].
    destruct (IH (x `div` base)) as (cs & -> & Hl & Hn); [lia|lia|]. simpl.
    exists (c :: cs). split_and!; [done|simpl; lia|]. simpl.
    replace x with (x `div` base * base + x `mod` base) at 1 by lia.
    apply numeral_snoc; [done..|lia|done].
Qed.

Lemma digit_loop_more table base k r y l :
  digit_loop table r y base = Some l -> digit_loop table (r + k) y base = Some l.
Proof.
  revert y l. induction r as [|r IH]; intros y l H; [done|]. cbn [Nat.add digit_loop] in *.
  destruct (table !! Z.to_nat (y `mod` base)) as [c|]; simpl in *; [|done].
  destruct (_ =? 0); [done|]. destruct (digit_loop table r _ base) as [cs|] eqn:E; simpl in H; [|done].
  by rewrite (IH _ _ E).
Qed.

Lemma digit_loop_word table base x :
  10 <= base <= Z.of_nat (length table) -> 0 <= x < 2 ^ 32 ->
  exists cs, digit_loop table 16 x base = Some cs /\ (length cs <= 10)%nat /\ numeral table base x (rev cs).
Proof.
  intros Hb Hx. assert (H10 : x < base ^ 10).
  { apply Z.lt_le_trans with (10 ^ 10); [lia|]. apply Z.pow_le_mono_l. lia. }
  destruct (digit_loop_ok table base 10 x) as (cs & Hd & Hl & Hn); [lia..|].
  exists cs. split_and!; [|done..]. by apply (digit_loop_more table base 6 10).
Qed.

(** ** [printf] on a format made of pieces *)
Inductive piece : Type :=
  | Text (c : Z) | Dec (a : Z) | Hex (a : Z) | Ptr (a : Z) | PStr (a : Z) (l : list Z)
  | Chr (a : Z) | PPercent | Unknown (c : Z).

Definition spell (p : piece) : list Z :=
  match p with
  | Text c => [c] | Dec _ => [37; 100] | Hex _ => [37; 120] | Ptr _ => [37; 112]
  | PStr _ _ => [37; 115] | Chr _ => [37; 99] | PPercent => [37; 37] | Unknown c => [37; c]
  end.
Definition args_of (p : piece) : list Z :=
  match p with
  | Dec a | Hex a | Ptr a | PStr a _ | Chr a => [a]
  | _ => []
  end.

(** A string argument points to its text or is null; other pieces are what
    they look like. *)
Definition piece_ok (m : mem) (p : piece) : Prop :=
  match p with
  | Text c => c <> 0 /\ c <> 37
  | PStr a l => (a = 0 /\ l = null_text) \/ (a <> 0 /\ cstr m a l)
  | Unknown c => c <> 0 /\ Forall (fun d => c <> d) [100; 120; 112; 115; 99; 37]
  | _ => True
  end.

(** What a piece prints. *)
Definition prints (p : piece) (out : list Z) : Prop :=
  match p with
  | Text c => out = [c]
  | Dec a => exists ds, numeral digits 10 (Z.abs (s32 a)) ds /\
      out = (if s32 a <? 0 then [45] else []) ++ ds
  | Hex a | Ptr a => numeral digits 16 (u32 a) out
  | PStr _ l => out = l
  | Chr a => out = [u8 a]
  | PPercent => out = [37]
  | Unknown c => out = [37; c]
  end.

Definition str_len (p : piece) : nat := match p with PStr _ l => length l | _ => 0 end.

Lemma printint_signed xx : - 2 ^ 31 <= xx < 2 ^ 31 ->
  exists ds, printint xx 10 true = Some ((if xx <? 0 then [45] else []) ++ ds) /\
    numeral digits 10 (Z.abs xx) ds /\ (length ds <= 10)%nat.
Proof.
  intros Hx. unfold printint. simpl andb. destruct (Z.ltb_spec xx 0) as [H|H].
  - rewrite u32_small by lia. destruct (digit_loop_word digits 10 (- xx)) as (cs & -> & Hl & Hn);
      [simpl; lia|lia|]. simpl mbind. unfold put_sign. rewrite (proj2 (Nat.ltb_lt _ _)) by lia.
    simpl mbind. exists (rev cs). rewrite rev_app_distr, length_rev. split_and!; [done| |done].
    by rewrite Z.abs_neq by lia.
  - rewrite u32_small by lia. destruct (digit_loop_word digits 10 xx) as (cs & -> & Hl & Hn);
      [simpl; lia|lia|]. exists (rev cs). rewrite length_rev. split_and!; [done| |done].
    by rewrite Z.abs_eq by lia.
Qed.

Lemma printint_unsigned xx :
  exists ds, printint xx 16 false = Some ds /\ numeral digits 16 (u32 xx) ds.
Proof.
  unfold printint. simpl andb. cbv iota zeta.
  destruct (digit_loop_word digits 16 (u32 xx)) as (cs & -> & _ & Hn); [simpl; lia|apply u32_range|].
  simpl. eauto.
Qed.

Lemma puts_loop_ok fuel m s l : cstr m s l -> (length l < fuel)%nat -> puts_loop fuel m s = Some l.
Proof.
  revert fuel s. induction l as [|c l IH]; intros [|f] s Hc Hf; cbn [length] in *; try lia.
  - cbn [puts_loop]. by rewrite (cstr_nil _ _ Hc).
  - apply cstr_cons in Hc as (Hc & Hne & Hl). cbn [puts_loop]. rewrite Hc. simpl mbind.
    rewrite (proj2 (Z.eqb_neq c 0) Hne), IH by (done || lia). done.
Qed.

Lemma u32_s32 a : u32 (s32 a) = u32 a.
Proof. zlia. Qed.
Lemma s32_range a : - 2 ^ 31 <= s32 a < 2 ^ 31.
Proof. zlia. Qed.

(** The characters after a ['%']. *)
Lemma printf_conversion fuel m p rest :
  piece_ok m p -> (forall c, p <> Text c) -> (str_len p < fuel)%nat ->
  exists c out, spell p = [37; c] /\ c <> 0 /\
    printf_char fuel m Percent c (args_of p ++ rest) = Some (out, rest, Plain) /\ prints p out.
Proof.
  intros Hok Ht Hf. destruct p as [c|a|a|a|a l|a| |c]; simpl in Hok; [by destruct (Ht c)|..];
    eexists; cbn [spell args_of app].
  - destruct (printint_signed (s32 a) (s32_range a)) as (ds & E & Hn & _).
    eexists. split_and!; [done|done| |]; [simpl; by rewrite E|]. simpl. eauto.
  - destruct (printint_unsigned (s32 a)) as (ds & E & Hn). rewrite u32_s32 in Hn.
    eexists. split_and!; [done|done| |]; [simpl; by rewrite E|done].
  - destruct (printint_unsigned (s32 a)) as (ds & E & Hn). rewrite u32_s32 in Hn.
    eexists. split_and!; [done|done| |]; [simpl; by rewrite E|done].
  - exists l. split_and!; [done|done| |done]. simpl. destruct Hok as [[-> ->]|[Ha Hc]]; [done|].
    rewrite (proj2 (Z.eqb_neq a 0) Ha). by rewrite (puts_loop_ok _ _ _ l).
  - by eexists.
  - by eexists.
  - destruct Hok as [Hc Hne]. rewrite !Forall_cons in Hne.
    eexists. split_and!; [done|done| |done]. simpl.
    repeat match goal with |- context [c =? ?d] => destruct (Z.eqb_spec c d); [lia|] end. done.
Qed.

Lemma printf_step fuel m fmt state c ap out ap' state' :
  load m fmt = Some c -> c <> 0 -> printf_char fuel m state c ap = Some (out, ap', state') ->
  printf_loop (S fuel) m fmt state ap =
    (rest ← printf_loop fuel m (fmt + 1) state' ap'; Some (out ++ rest)).
Proof.
  intros Hc Hne Hp. cbn [printf_loop]. rewrite Hc. cbn [mbind option_bind].
  by rewrite (proj2 (Z.eqb_neq c 0) Hne), Hp.
Qed.

(** ** Theorems *)

(** [printf] prints the pieces of its format in order, each conversion
    with its own argument: numbers as their shortest numerals (signed decimal
    for [%d], also for [INT_MIN]; unsigned hexadecimal for [%x] and [%p]),
    strings ([(null)] for a null pointer), characters, and an unknown
    sequence as it stands; its digit buffer never overflows. *)
Theorem printf_renders fuel m fmt ps extra :
  Forall (piece_ok m) ps -> cstr m fmt (concat (map spell ps)) ->
  (2 * length ps + sum_list (map str_len ps) < fuel)%nat ->
  exists outs, printf fuel m fmt (concat (map args_of ps) ++ extra) = Some (concat outs) /\
    Forall2 prints ps outs.
Proof.
  unfold printf. intros Hok. revert fuel fmt. induction Hok as [|p ps Hp Hok IH]; intros fuel fmt Hc Hf;
    cbn [map concat length sum_list] in *.
  { exists []. destruct fuel as [|f]; [lia|]. cbn [printf_loop]. by rewrite (cstr_nil _ _ Hc). }
  destruct fuel as [|[|f]]; simpl in Hf; try lia. rewrite <- app_assoc.
  assert ((exists c, p = Text c) \/ forall c, p <> Text c) as [[c ->]|Hn] by (destruct p; naive_solver).
  - cbn [spell args_of app] in *. apply cstr_cons in Hc as (Hc & Hne & Hl).
    destruct (IH (S f) (fmt + 1)) as (outs & E & Ho); [done|lia|].
    exists ([c] :: outs). split; [|by constructor]. destruct Hp as [_ Hp].
    rewrite (printf_step _ m fmt Plain c _ [c] (concat (map args_of ps) ++ extra) Plain), E; [done..|].
    cbn [printf_char]. by rewrite (proj2 (Z.eqb_neq c 37) Hp).
  - destruct (printf_conversion f m p (concat (map args_of ps) ++ extra)) as (c & out & Hs & Hne & Hch & Hpr);
      [done|done|lia|]. rewrite Hs in Hc. cbn [app] in Hc.
    apply cstr_cons in Hc as (Hc & _ & Hl). apply cstr_cons in Hl as (Hc' & _ & Hl).
    destruct (IH f (fmt + 1 + 1)) as (outs & E & Ho); [done|lia|].
    exists (out :: outs). split; [|by constructor].
    rewrite (printf_step _ m fmt Plain 37 _ [] (args_of p ++ concat (map args_of ps) ++ extra) Percent),
      (printf_step _ m (fmt + 1) Percent c _ out (concat (map args_of ps) ++ extra) Plain), E; done.
Qed.

Lemma numeral_decimal x ds : numeral digits 10 x ds -> Forall Ulib.digit ds /\ Ulib.decimal ds = x.
Proof.
  intros (vs & H & <- & _). unfold Ulib.decimal, value. clear - H. generalize 0.
  induction H as [|c v cs vs [Hv Hc] H IH]; intros n; simpl; [done|].
  assert (c = 48 + v) as ->.
  { assert (v = 0 \/ v = 1 \/ v = 2 \/ v = 3 \/ v = 4 \/ v = 5 \/ v = 6 \/ v = 7 \/ v = 8 \/ v = 9) as Hcs by lia.
    repeat (destruct Hcs as [->|Hcs]; [by vm_compute in Hc; simplify_eq|]). by subst; vm_compute in Hc; simplify_eq. }
  destruct (IH (n * 10 + v)) as [Hd Hf]. split; [constructor; [unfold Ulib.digit; lia|done]|].
  rewrite <- Hf. f_equal. lia.
Qed.

(** [atoi] reads back what [%d] prints: for every non-negative [int],
    the digits written by [printint] and then a character that is no digit
    give the number again. *)
Theorem printint_atoi xx fuel m s c :
  0 <= xx < 2 ^ 31 -> ~ Ulib.digit c -> (10 < fuel)%nat ->
  exists out, printint xx 10 true = Some out /\
    Ulib.atoi fuel (mwrite m s (out ++ [c])) s = Some xx.
Proof.
  intros Hx Hc Hf. destruct (printint_signed xx ltac:(lia)) as (ds & E & Hn & Hl).
  destruct (numeral_decimal _ _ Hn) as [Hd Hv]. rewrite Z.abs_eq in Hv by lia.
  rewrite (proj2 (Z.ltb_ge xx 0)) in E by lia. exists ds. split; [done|]. unfold Ulib.atoi.
  rewrite (Ulib.atoi_loop_ok fuel _ s 0 ds c); [by f_equal| |done..|lia|lia|].
  - rewrite <- (mread_mwrite m s (ds ++ [c])). f_equal. rewrite length_app. simpl. lia.
  - change (Ulib.decimal ds < 2 ^ 31). lia.
Qed.

(** ** Witnesses: the format "%d:%s%x\n" with -2147483648, "abd" and 255 *)
Definition demo_pieces : list piece :=
  [Dec 2147483648; Text 58; PStr 200 [97; 98; 100]; Hex 255; Text 10].
Definition demo_fmt : mem := mwrite demo_mem 300 (concat (map spell demo_pieces) ++ [0]).

Lemma printf_renders_witness :
  exists outs, printf 20 demo_fmt 300 ([2147483648; 200; 255] ++ []) = Some (concat outs) /\
    Forall2 prints demo_pieces outs.
Proof.
  apply (printf_renders 20 demo_fmt 300 demo_pieces []).
  - repeat (apply Forall_cons; split); [exact I|split; lia| |exact I|split; lia|apply Forall_nil; exact I].
    right. split; [lia|]. split; [vm_compute; reflexivity|repeat constructor; lia].
  - split; [vm_compute; reflexivity|simpl; repeat constructor; lia].
  - vm_compute. lia.
Defined.

Example printf_output :
  printf 20 demo_fmt 300 [2147483648; 200; 255] =
    Some [45; 50; 49; 52; 55; 52; 56; 51; 54; 52; 56; 58; 97; 98; 100; 70; 70; 10].
Proof. vm_compute. reflexivity. Qed.

Lemma printint_atoi_witness :
  exists out, printint 8080 10 true = Some out /\ Ulib.atoi 11 (mwrite ∅ 0 (out ++ [0])) 0 = Some 8080.
Proof. apply (printint_atoi 8080 11 ∅ 0 0); [lia|unfold Ulib.digit; lia|lia]. Defined.

End Printf.
