(* ===== verification/Grep.v ===== *)
(** * Grep: the pattern matcher and the line loop of grep (grep.c)

    A NUL-terminated string is the list of its characters; moving a pointer
    forward drops the head.  The buffer of [grep] is a list of 1024 bytes with
    indices for the pointers [p] and [q]; the successive results of [read] are
    a list of chunks, the end of the list or an empty chunk being the end of
    the input. *)
From S2P Require Import Prelude.

Module Grep.

(** ** The matcher *)

(** The [do ... while] of [matchstar]; [here] is [matchhere(re, _)]. *)
Fixpoint matchstar (c : Z) (here : list Z -> bool) (text : list Z) : bool :=
  if here text then true else
  match text with
  | [] => false
  | t :: text' => if (t =? c) || (c =? 46) then matchstar c here text' else false
  end.

Fixpoint matchhere (re : list Z) (text : list Z) : bool :=
  match re with
  | [] => true
  | r0 :: re1 =>
    match re1 with
    | 42 :: re2 => matchstar r0 (matchhere re2) text
    | _ =>
      if (r0 =? 36) && match re1 with [] => true | _ => false end
      then match text with [] => true | _ => false end
      else match text with
           | t :: text' => if (r0 =? 46) || (r0 =? t) then matchhere re1 text' else false
           | [] => false
           end
    end
  end.

Fixpoint match_anywhere (re text : list Z) : bool :=
  if matchhere re text then true else
  match text with
  | [] => false
  | _ :: text' => match_anywhere re text'
  end.

Definition match_ (re text : list Z) : bool :=
  match re with
  | 94 :: re' => matchhere re' text
  | _ => match_anywhere re text
  end.

(** ** The line loop *)
Definition SIZEOF_BUF : nat := 1024.

(** The string at index [p] of the buffer. *)
Fixpoint upto_nul (l : list Z) : list Z :=
  match l with
  | [] => []
  | c :: l' => if c =? 0 then [] else c :: upto_nul l'
  end.
Definition string_at (buf : list Z) (p : nat) : list Z := upto_nul (drop p buf).

(** [while((q = strchr(p, '\n')) != 0) ...]: the buffer, [p] and the output. *)
Fixpoint grep_scan (fuel : nat) (pattern : list Z) (buf : list Z) (p : nat)
    : option (list Z * nat * list Z) :=
  match fuel with
  | O => None
  | S k =>
    match find_index (Z.eqb 10) (string_at buf p) with
    | None => Some (buf, p, [])
    | Some i =>
      let q := (p + i)%nat in
      let buf := <[q := 0]> buf in
      if match_ pattern (string_at buf p) then
        let buf := <[q := 10]> buf in
        '(buf', p', out) ← grep_scan k pattern buf (S q);
        Some (buf', p', take (S q - p) (drop p buf) ++ out)
      else grep_scan k pattern buf (S q)
    end
  end.

(** [read(fd, buf+m, sizeof(buf)-m-1)] returns the next chunk, which is never
    longer than the room asked for. *)
Fixpoint grep (pattern : list Z) (reads : list (list Z)) (buf : list Z) (m : nat) : option (list Z) :=
  match reads with
  | [] => Some []
  | chunk :: reads =>
    if (length chunk =? 0)%nat then Some [] else
    if (SIZEOF_BUF - m - 1 <? length chunk)%nat then None else
    let buf := blit buf m chunk in
    let m := (m + length chunk)%nat in
    let buf := <[m := 0]> buf in
    '(buf, p, out) ← grep_scan (S SIZEOF_BUF) pattern buf 0;
    let m := if (p =? 0)%nat then 0%nat else m in
    let '(buf, m) :=
      if (0 <? m)%nat
      then let m := (m - p)%nat in (blit buf 0 (take m (drop p buf)), m)
      else (buf, m) in
    rest ← grep pattern reads buf m;
    Some (out ++ rest)
  end.

(** ** What a pattern means *)
Inductive atom : Type := Char (c : Z) | Dot.
Inductive token : Type := One (a : atom) | Many (a : atom) | Eol.

Definition atom_of (c : Z) : atom := if c =? 46 then Dot else Char c.
Definition atom_ok (a : atom) (t : Z) : Prop := match a with Char c => t = c | Dot => True end.

Fixpoint tokens (re : list Z) : list token :=
  match re with
  | [] => []
  | r0 :: re1 =>
    match re1 with
    | 42 :: re2 => Many (atom_of r0) :: tokens re2
    | [] => [if r0 =? 36 then Eol else One (atom_of r0)]
    | _ => One (atom_of r0) :: tokens re1
    end
  end.

(** [matches ts w rest]: the tokens match the text [w] when [rest] is what
    follows it. *)
Inductive matches : list token -> list Z -> list Z -> Prop :=
  | matches_nil rest : matches [] [] rest
  | matches_one a t ts w rest :
      atom_ok a t -> matches ts w rest -> matches (One a :: ts) (t :: w) rest
  | matches_many a ws ts w rest :
      Forall (atom_ok a) ws -> matches ts w rest -> matches (Many a :: ts) (ws ++ w) rest
  | matches_eol : matches [Eol] [] [].

(** The tokens match at the start of the text. *)
Definition begins (ts : list token) (text : list Z) : Prop :=
  exists w rest, text = w ++ rest /\ matches ts w rest.

Lemma atom_of_ok c t : atom_ok (atom_of c) t <-> c = 46 \/ c = t.
Proof. unfold atom_of. destruct (Z.eqb_spec c 46); simpl; naive_solver. Qed.

Lemma begins_many a ts text :
  begins (Many a :: ts) text <->
  begins ts text \/ exists t text', text = t :: text' /\ atom_ok a t /\ begins (Many a :: ts) text'.
Proof.
  split.
  - intros (w & rest & -> & H). inversion H as [| |? ws ? w' ? Hws Hw|]; subst.
    destruct Hws as [|t ws Ht Hws]; [left; by exists w', rest|].
    right. exists t, ((ws ++ w') ++ rest). split_and!; [done..|].
    exists (ws ++ w'), rest. split; [done|by constructor].
  - intros [(w & rest & -> & H)|(t & text' & -> & Ht & w & rest & -> & H)].
    + exists w, rest. split; [done|]. by apply (matches_many a []).
    + inversion H as [| |? ws ? w' ? Hws Hw|]; subst.
      exists ((t :: ws) ++ w'), rest. split; [done|]. apply matches_many; [by constructor|done].
Qed.

Lemma begins_one a ts text :
  begins (One a :: ts) text <-> exists t text', text = t :: text' /\ atom_ok a t /\ begins ts text'.
Proof.
  split.
  - intros (w & rest & -> & H). inversion H; subst. simpl. eexists _, _. split_and!; [done..|].
    by eexists _, _.
  - intros (t & text' & -> & Ht & w & rest & -> & H). exists (t :: w), rest. split; [done|by constructor].
Qed.

Lemma begins_eol text : begins [Eol] text <-> text = [].
Proof.
  split; [intros (w & rest & -> & H); by inversion H|intros ->]. exists [], []. split; [done|constructor].
Qed.

Lemma matchstar_ok c here ts text :
  (forall t, here t = true <-> begins ts t) ->
  matchstar c here text = true <-> begins (Many (atom_of c) :: ts) text.
Proof.
  intros Hh. induction text as [|t text IH]; rewrite begins_many; simpl; rewrite <- Hh.
  - destruct (here []); naive_solver.
  - destruct (here (t :: text)); [naive_solver|].
    transitivity ((c = 46 \/ c = t) /\ begins (Many (atom_of c) :: ts) text).
    + rewrite <- IH. destruct (Z.eqb_spec t c), (Z.eqb_spec c 46); simpl; naive_solver.
    + split; [|intros [?|(?&?&[= <- <-]&?&?)]; [done|split; [by apply atom_of_ok|done]]].
      intros [Hc Hb]. right. exists t, text. split_and!; [done|by apply atom_of_ok|done].
Qed.

Lemma matchhere_one r re text :
  (forall text, matchhere re text = true <-> begins (tokens re) text) ->
  match text with t :: text' => if (r =? 46) || (r =? t) then matchhere re text' else false | [] => false end
    = true <-> begins (One (atom_of r) :: tokens re) text.
Proof.
  intros IH. rewrite begins_one. destruct text as [|t text]; [naive_solver|].
  transitivity ((r = 46 \/ r = t) /\ begins (tokens re) text).
  - rewrite <- IH. destruct (Z.eqb_spec r 46), (Z.eqb_spec r t); simpl; naive_solver.
  - rewrite <- atom_of_ok. split; [|naive_solver]. intros [? ?]. by exists t, text.
Qed.

(** The tokens of a pattern whose second character is no star. *)
Lemma tokens_one r re :
  head re <> Some 42 ->
  tokens (r :: re) = (if (r =? 36) && match re with [] => true | _ => false end then Eol
                      else One (atom_of r)) :: tokens re.
Proof.
  destruct re as [|c re]; simpl; intros H; [by destruct (r =? 36)|].
  rewrite andb_false_r. destruct c as [|c|c]; try done.
  repeat (destruct c as [c|c|]; try done; try (by destruct H)).
Qed.

Lemma matchhere_cons r re text :
  head re <> Some 42 ->
  matchhere (r :: re) text =
    if (r =? 36) && match re with [] => true | _ => false end
    then match text with [] => true | _ => false end
    else match text with
         | t :: text' => if (r =? 46) || (r =? t) then matchhere re text' else false
         | [] => false
         end.
Proof.
  destruct re as [|c re]; simpl; intros H; [done|]. destruct c as [|c|c]; try done.
  repeat (destruct c as [c|c|]; try done; try (by destruct H)).
Qed.

(** ** Theorems on the matcher *)
Lemma matchhere_ok re text : matchhere re text = true <-> begins (tokens re) text.
Proof.
  revert text. induction re as [[|r re] IH] using (induction_ltof1 _ (@length Z)); unfold ltof in IH; intros text.
  { simpl. split; [|done]. intros _. exists [], text. split; [done|constructor]. }
  destruct (decide (head re = Some 42)) as [H|H].
  - destruct re as [|? re2]; simplify_eq/=. apply matchstar_ok. intros t. apply IH. lia.
  - rewrite matchhere_cons, tokens_one by done.
    destruct ((r =? 36) && _) eqn:E.
    + destruct re; [|by rewrite andb_false_r in E]. simpl. rewrite begins_eol. destruct text; naive_solver.
    + apply matchhere_one. intros t. apply IH. simpl. lia.
Qed.

Lemma match_anywhere_ok re text :
  match_anywhere re text = true <-> exists before w, text = before ++ w /\ matchhere re w = true.
Proof.
  induction text as [|t text IH]; simpl; destruct (matchhere re _) eqn:E.
  - split; [|done]. intros _. by exists [], [].
  - split; [done|]. intros (b & w & H & Hw). symmetry in H. apply app_eq_nil in H as [-> ->]. congruence.
  - split; [|done]. intros _. by exists [], (t :: text).
  - rewrite IH. split.
    + intros (b & w & -> & Hw). by exists (t :: b), w.
    + intros ([|t' b] & w & H & Hw); simplify_eq/=; [congruence|]. by exists b, w.
Qed.

(** [match] decides the meaning of a pattern: a pattern that starts with
    [^] matches exactly the texts that begin with a match of its tokens, any
    other pattern exactly the texts that contain one; [c*] is any number of
    [c], [.] any character and a final [$] the end of the text. *)
Theorem match_decides re text :
  match_ re text = true <->
  match re with
  | 94 :: re' => begins (tokens re') text
  | _ => exists before rest, text = before ++ rest /\ begins (tokens re) rest
  end.
Proof.
  assert (H : match_anywhere re text = true <->
    exists before rest, text = before ++ rest /\ begins (tokens re) rest).
  { rewrite match_anywhere_ok. by setoid_rewrite matchhere_ok. }
  unfold match_. destruct re as [|c re]; [done|]. destruct c as [|c|c]; try done.
  repeat (destruct c as [c|c|]; try exact H). apply matchhere_ok.
Qed.

(** ** Lines *)

(** The newline-terminated lines of a text and what follows the last one. *)
Fixpoint split_lines (l : list Z) : list (list Z) * list Z :=
  match l with
  | [] => ([], [])
  | c :: l' =>
    let '(ls, r) := split_lines l' in
    if c =? 10 then ([] :: ls, r) else
    match ls with
    | [] => ([], c :: r)
    | x :: ls' => ((c :: x) :: ls', r)
    end
  end.

(** What grep is to print for a text. *)
Definition matching (pattern text : list Z) : list Z :=
  concat (map (fun x => x ++ [10]) (filter (fun x => match_ pattern x = true) (split_lines text).1)).

Definition no_nul (l : list Z) : Prop := Forall (fun c => c <> 0) l.
Definition no_newline (l : list Z) : Prop := Forall (fun c => c <> 10) l.

Lemma split_lines_rest l : no_newline l -> split_lines l = ([], l).
Proof.
  induction 1 as [|c l Hc H IH]; [done|]. simpl. rewrite IH. by rewrite (proj2 (Z.eqb_neq c 10) Hc).
Qed.

Lemma split_lines_line l k :
  no_newline l -> split_lines (l ++ 10 :: k) = (l :: (split_lines k).1, (split_lines k).2).
Proof.
  induction 1 as [|c l Hc H IH]; simpl; [by destruct (split_lines k)|].
  rewrite IH. by rewrite (proj2 (Z.eqb_neq c 10) Hc).
Qed.

(** Every text is a rest without newline, or a line and more text. *)
Lemma lines_ind (P : list Z -> Prop) :
  (forall l, no_newline l -> P l) -> (forall l k, no_newline l -> P k -> P (l ++ 10 :: k)) -> forall l, P l.
Proof.
  intros Hr Hl l. induction l as [l IH] using (induction_ltof1 _ (@length Z)). unfold ltof in IH.
  destruct (find_index (Z.eqb 10) l) as [i|] eqn:E.
  - apply find_index_Some in E as (x & Hx & Hp & Hlt). apply Z.eqb_eq in Hp as <-.
    rewrite <- (take_drop_middle l i 10 Hx). apply Hl.
    + apply Forall_lookup. intros j y Hj. pose proof (lookup_lt_Some _ _ _ Hj) as Hj2.
      rewrite length_take in Hj2. rewrite lookup_take_lt in Hj by lia.
      specialize (Hlt j y ltac:(lia) Hj). lia.
    + apply IH. rewrite length_drop. apply lookup_lt_Some in Hx. lia.
  - apply Hr, Forall_lookup. rewrite find_index_None in E. intros i x Hx. specialize (E i x Hx). lia.
Qed.

Lemma split_lines_app a b :
  split_lines (a ++ b) =
    ((split_lines a).1 ++ (split_lines ((split_lines a).2 ++ b)).1, (split_lines ((split_lines a).2 ++ b)).2).
Proof.
  induction a as [l H|l k H IH] using lines_ind.
  - rewrite (split_lines_rest l) by done. simpl. by destruct (split_lines (l ++ b)).
  - rewrite <- app_assoc. cbn [app]. rewrite !split_lines_line by done. simpl. by rewrite IH.
Qed.

Lemma split_rest_no_newline l : no_newline (split_lines l).2.
Proof.
  induction l as [l H|l k H IH] using lines_ind.
  - by rewrite split_lines_rest.
  - by rewrite split_lines_line.
Qed.

Lemma split_rest_length l : (length (split_lines l).2 <= length l)%nat.
Proof.
  induction l as [l H|l k H IH] using lines_ind.
  - by rewrite split_lines_rest.
  - rewrite split_lines_line by done. simpl. rewrite length_app. simpl. lia.
Qed.

Lemma split_rest_no_nul l : no_nul l -> no_nul (split_lines l).2.
Proof.
  induction l as [l H|l k H IH] using lines_ind; intros Hn.
  - by rewrite split_lines_rest.
  - rewrite split_lines_line by done. simpl. apply Forall_app in Hn as [_ Hn]. apply IH. by inversion Hn.
Qed.

Lemma split_rest_lt l : 10 ∈ l -> (length (split_lines l).2 < length l)%nat.
Proof.
  destruct l as [l H|l k H _] using lines_ind; intros Hin.
  - unfold no_newline in H. rewrite Forall_forall in H. by destruct (H _ Hin).
  - rewrite split_lines_line by done. simpl. rewrite length_app. simpl.
    pose proof (split_rest_length k). lia.
Qed.

(** ** The buffer *)
Lemma upto_nul_app l k : no_nul l -> upto_nul (l ++ 0 :: k) = l.
Proof. induction 1 as [|c l Hc H IH]; simpl; [done|]. by rewrite (proj2 (Z.eqb_neq c 0) Hc), IH. Qed.

Lemma string_at_app pre l k : no_nul l -> string_at (pre ++ l ++ 0 :: k) (length pre) = l.
Proof. intros. unfold string_at. by rewrite drop_app_length, upto_nul_app. Qed.

Lemma insert_at_length pre c v (k : list Z) : <[length pre := v]> (pre ++ c :: k) = pre ++ v :: k.
Proof. rewrite insert_app_r_alt by done. by rewrite Nat.sub_diag. Qed.

Lemma find_newline l k : no_newline l -> find_index (Z.eqb 10) (l ++ 10 :: k) = Some (length l).
Proof.
  induction 1 as [|c l Hc H IH]; cbn [app find_index length]; [done|].
  rewrite (proj2 (Z.eqb_neq 10 c)) by done. by rewrite IH.
Qed.

Lemma no_newline_find l : no_newline l -> find_index (Z.eqb 10) l = None.
Proof.
  intros H. apply find_index_None. intros i x Hx. unfold no_newline in H. rewrite Forall_lookup in H.
  specialize (H i x Hx). simpl in H. lia.
Qed.

Lemma matching_line pattern l k : no_newline l ->
  matching pattern (l ++ 10 :: k) = (if match_ pattern l then l ++ [10] else []) ++ matching pattern k.
Proof.
  intros H. unfold matching. rewrite split_lines_line by done. cbn [fst]. rewrite filter_cons.
  destruct (decide (match_ pattern l = true)) as [E|E].
  - by rewrite E.
  - by rewrite (not_true_is_false _ E).
Qed.

(** The scan prints the matching lines and stops at the rest. *)
Lemma grep_scan_ok fuel pattern pre text k :
  no_nul text -> (length text < fuel)%nat ->
  exists pre', grep_scan fuel pattern (pre ++ text ++ 0 :: k) (length pre) =
      Some (pre' ++ (split_lines text).2 ++ 0 :: k, length pre', matching pattern text) /\
    (length pre' + length (split_lines text).2 = length pre + length text)%nat.
Proof.
  revert fuel pre. induction text as [l H|l t H IH] using lines_ind; intros [|fuel] pre Hn Hf; try lia.
  - exists pre. rewrite split_lines_rest by done. cbn [grep_scan]. rewrite string_at_app by done.
    rewrite no_newline_find by done. split; [|done]. unfold matching. by rewrite split_lines_rest.
  - rewrite length_app in Hf. cbn [length] in Hf. cbn [grep_scan]. rewrite string_at_app by done.
    apply Forall_app in Hn as [Hl Ht]. inversion Ht; subst.
    rewrite find_newline by done. rewrite <- app_assoc. cbn [app].
    rewrite (app_assoc pre l), <- length_app, insert_at_length, <- (app_assoc pre l), string_at_app by done.
    rewrite matching_line, split_lines_line by done. cbn [fst snd]. destruct (match_ pattern l).
    + rewrite (app_assoc pre l), insert_at_length. rewrite (cons_middle 10), (app_assoc _ [10]).
      destruct (IH fuel ((pre ++ l) ++ [10])) as (pre' & E & Hlen); [done|lia|].
      replace (S (length (pre ++ l))) with (length ((pre ++ l) ++ [10])) by (rewrite length_app; simpl; lia).
      rewrite E. exists pre'. split.
      * cbn [mbind option_bind]. do 3 f_equal. rewrite <- !app_assoc, drop_app_length, (app_assoc l).
        replace (length (pre ++ l ++ [10%Z]) - length pre)%nat with (length (l ++ [10%Z]))
          by (rewrite !length_app; simpl; lia).
        apply take_app_length.
      * rewrite !length_app in *. simpl in *. lia.
    + rewrite (app_assoc pre l), (cons_middle 0), (app_assoc _ [0]).
      destruct (IH fuel ((pre ++ l) ++ [0])) as (pre' & E & Hlen); [done|lia|].
      replace (S (length (pre ++ l))) with (length ((pre ++ l) ++ [0])) by (rewrite length_app; simpl; lia).
      rewrite E. exists pre'. split; [done|]. rewrite !length_app in *. simpl in *. lia.
Qed.

(** ** The loop *)

(** What [read] guarantees: no more bytes than the room left after the rest
    [r] of the line before. *)
Fixpoint fits (r : list Z) (reads : list (list Z)) : Prop :=
  match reads with
  | [] => True
  | chunk :: reads =>
    (length r + length chunk <= SIZEOF_BUF - 1)%nat /\ fits (split_lines (r ++ chunk)).2 reads
  end.

(** One read: the scan runs over the rest of the line before and the chunk. *)
Lemma grep_fill pattern r chunk k :
  no_nul r -> no_nul chunk -> (length r + length chunk <= SIZEOF_BUF - 1)%nat ->
  length (r ++ k) = SIZEOF_BUF ->
  exists pre k', length (pre ++ (split_lines (r ++ chunk)).2 ++ 0 :: k') = SIZEOF_BUF /\
    grep_scan (S SIZEOF_BUF) pattern (<[(length r + length chunk)%nat := 0]> (blit (r ++ k) (length r) chunk)) 0 =
      Some (pre ++ (split_lines (r ++ chunk)).2 ++ 0 :: k', length pre, matching pattern (r ++ chunk)) /\
    (length pre + length (split_lines (r ++ chunk)).2 = length r + length chunk)%nat.
Proof.
  intros Hr Hc Hfit Hlen. rewrite length_app in Hlen. unfold blit. rewrite take_app_length.
  rewrite drop_app_ge, Nat.add_sub' by lia.
  destruct (drop (length chunk) k) as [|x k'] eqn:Ek.
  { apply (f_equal length) in Ek. rewrite length_drop in Ek. simpl in Ek. unfold SIZEOF_BUF in *. lia. }
  rewrite app_assoc, <- length_app, insert_at_length.
  destruct (grep_scan_ok (S SIZEOF_BUF) pattern [] (r ++ chunk) k') as (pre & E & Hl).
  { by apply Forall_app. } { rewrite length_app. lia. }
  cbn [app length] in E. exists pre, k'. rewrite E. simpl in Hl. rewrite length_app in Hl.
  rewrite (length_app r). split_and!; [|done|lia]. apply (f_equal length) in Ek. rewrite length_drop in Ek. cbn [length] in Ek.
  rewrite (length_app pre), (length_app _ (0 :: k')). cbn [length]. lia.
Qed.

Lemma matching_app pattern a b :
  matching pattern (a ++ b) = matching pattern a ++ matching pattern ((split_lines a).2 ++ b).
Proof.
  unfold matching. rewrite split_lines_app. cbn [fst]. by rewrite filter_app, map_app, concat_app.
Qed.

Lemma grep_ok pattern r k reads :
  no_nul r -> no_newline r -> length (r ++ k) = SIZEOF_BUF ->
  Forall (fun chunk => no_nul chunk /\ 10 ∈ chunk) reads -> fits r reads ->
  grep pattern reads (r ++ k) (length r) = Some (matching pattern (r ++ concat reads)).
Proof.
  intros Hr Hnl Hlen Hall. revert r k Hr Hnl Hlen. induction Hall as [|chunk reads [Hc Hin] Hall IH];
    intros r k Hr Hnl Hlen Hfit.
  { simpl. rewrite app_nil_r. unfold matching. by rewrite split_lines_rest. }
  destruct Hfit as [Hfit Hrest]. cbn [grep concat].
  assert (0 < length chunk)%nat by (destruct chunk; [inversion Hin|simpl; lia]).
  rewrite (proj2 (Nat.eqb_neq _ 0)) by lia.
  rewrite (proj2 (Nat.ltb_ge _ (length chunk))) by (unfold SIZEOF_BUF in *; lia).
  destruct (grep_fill pattern r chunk k) as (pre & k' & Hlen' & -> & Hpre); [done..|].
  cbn [mbind option_bind].
  assert (length (split_lines (r ++ chunk)).2 < length r + length chunk)%nat.
  { rewrite <- length_app. apply split_rest_lt, elem_of_app. by right. }
  set (r' := (split_lines (r ++ chunk)).2) in *.
  rewrite (proj2 (Nat.eqb_neq (length pre) 0)) by lia.
  rewrite (proj2 (Nat.ltb_lt 0 (length r + length chunk))) by lia.
  replace (length r + length chunk - length pre)%nat with (length r') by lia.
  rewrite drop_app_length, take_app_length, blit_0, IH.
  - cbn [mbind option_bind]. rewrite (app_assoc r), (matching_app _ (r ++ chunk)). done.
  - apply split_rest_no_nul, Forall_app. done.
  - apply split_rest_no_newline.
  - rewrite !length_app, length_drop, !length_app in *. lia.
  - done.
Qed.

(** grep prints exactly the matching lines of its input, whole and in
    order, when every read brings a newline and the lines fit the buffer; the
    text after the last newline is not printed. *)
Theorem grep_prints pattern buf reads :
  length buf = SIZEOF_BUF -> Forall (fun chunk => no_nul chunk /\ 10 ∈ chunk) reads -> fits [] reads ->
  grep pattern reads buf 0 = Some (matching pattern (concat reads)).
Proof. intros. by apply (grep_ok pattern [] buf reads); [constructor..| | |]. Qed.

(** a read that brings no newline is forgotten, also when the line it
    begins goes on in the next read: grep prints what it would print if the
    input started after it. *)
Theorem grep_forgets_partial_line pattern buf chunk reads :
  length buf = SIZEOF_BUF -> no_nul chunk -> no_newline chunk ->
  (0 < length chunk <= SIZEOF_BUF - 1)%nat ->
  exists buf', length buf' = SIZEOF_BUF /\
    grep pattern (chunk :: reads) buf 0 = grep pattern reads buf' 0.
Proof.
  intros Hb Hn Hnl Hl. cbn [grep]. rewrite (proj2 (Nat.eqb_neq (length chunk) 0)) by lia.
  rewrite (proj2 (Nat.ltb_ge _ (length chunk))) by lia.
  destruct (grep_fill pattern [] chunk buf) as (pre & k' & Hlen & E & Hpre); [by apply Forall_nil|done|cbn [length]; lia|done|].
  cbn [app length] in E. cbn [app] in Hpre, Hlen. change (0 + length chunk)%nat with (length chunk) in *.
  rewrite E. cbn [mbind option_bind].
  rewrite split_lines_rest in * by done. cbn [snd] in *. cbn [length] in Hpre.
  assert (length pre = 0)%nat as -> by lia. cbn [Nat.eqb Nat.ltb Nat.leb].
  eexists. split; [done|]. unfold matching. rewrite split_lines_rest by done. simpl.
  by destruct (grep pattern reads _ 0).
Qed.

(** ** Witnesses: the pattern "^a*b$" *)
Definition demo_pattern : list Z := [94; 97; 42; 98; 36].
Definition demo_reads : list (list Z) := [[97; 97; 98; 10; 98]; [10; 99; 98; 10]].

Lemma grep_prints_witness :
  grep demo_pattern demo_reads (replicate SIZEOF_BUF 0) 0 = Some [97; 97; 98; 10; 98; 10].
Proof.
  rewrite (grep_prints demo_pattern (replicate SIZEOF_BUF 0) demo_reads); [reflexivity|reflexivity| |].
  - repeat constructor; try lia; unfold no_nul; repeat constructor; lia.
  - vm_compute. repeat split; lia.
Defined.

Lemma grep_forgets_partial_line_witness :
  exists buf', length buf' = SIZEOF_BUF /\
    grep [97; 98] ([97] :: [[98; 10]]) (replicate SIZEOF_BUF 0) 0 = grep [97; 98] [[98; 10]] buf' 0.
Proof.
  apply (grep_forgets_partial_line [97; 98] (replicate SIZEOF_BUF 0) [97] [[98; 10]]);
    [reflexivity|repeat constructor; lia..|vm_compute; lia].
Defined.

End Grep.
