(* ===== verification/Console.v ===== *)
(** * Console: screen, serial line and line editing (console.c, uart.c's [uartputc])

    The state has the CGA text memory with the two cursor registers of the
    controller, the bytes sent to the serial port and the input ring with its
    free-running 32-bit indices.  [getc] of [consoleintr] is the list of the
    values it returns before the negative one.  The lock [cons.lock] is held
    throughout an interrupt and a copy, so that a step is one such critical
    section; the wait in [consoleread] ends the step as [Sleeps].  The theorems
    show that the screen code never panics and never stores outside the text
    memory, and that interrupts and reads implement an abstract line editor. *)
From S2P Require Import Prelude Str Printf.

Module Console.
Import Str.

(** ** State *)
Definition INPUT_BUF : Z := 128.
Definition BACKSPACE : Z := 0x100.

Record input_t : Type := mkInput { in_buf : list Z; in_r : Z; in_w : Z; in_e : Z }.
#[export] Instance eta_input : Eta input_t := fun i => mkInput (in_buf i) (in_r i) (in_w i) (in_e i).

Record console : Type := mkConsole {
  crt : list Z;          (* the cells of the text memory, 25 rows of 80 *)
  cursor_hi : Z;         (* controller register 14 *)
  cursor_lo : Z;         (* controller register 15 *)
  uart : bool;           (* is there a serial port? *)
  uart_out : list Z;     (* bytes sent to COM1 *)
  panicked : bool;
  input : input_t;
}.
#[export] Instance eta_console : Eta console :=
  fun s => mkConsole (crt s) (cursor_hi s) (cursor_lo s) (uart s) (uart_out s) (panicked s) (input s).

(** A call returns, panics, loops forever (another CPU has panicked) or
    stores outside an array. *)
Inductive outcome (A : Type) : Type := Done (a : A) | Panics | Spins | Faults.
Arguments Done {A} a.
Arguments Panics {A}.
Arguments Spins {A}.
Arguments Faults {A}.
#[export] Instance outcome_bind : MBind outcome := fun A B f x =>
  match x with Done a => f a | Panics => Panics | Spins => Spins | Faults => Faults end.

(** ** Output *)

(** The wait for the transmitter is bounded and has no other effect. *)
Definition uartputc (c : Z) (s : console) : console :=
  if negb (uart s) then s else s <| uart_out := uart_out s ++ [u8 c] |>.

(** [crt[i] = v] *)
Definition crt_store (i v : Z) (cells : list Z) : outcome (list Z) :=
  if (0 <=? i) && (i <? Z.of_nat (length cells)) then Done (<[Z.to_nat i := v]> cells) else Faults.

(** [memmove(crt, crt+80, sizeof(crt[0])*23*80)] and the [memset] of the rest
    of the 24 rows from [pos]. *)
Definition scroll (pos : Z) (cells : list Z) : list Z :=
  let cells := blit cells 0 (take (23 * 80) (drop 80 cells)) in
  blit cells (Z.to_nat pos) (replicate (Z.to_nat (24 * 80 - pos)) 0).

Definition cgaputc (c : Z) (s : console) : outcome console :=
  let pos := Z.lor (Z.shiftl (cursor_hi s) 8) (cursor_lo s) in
  '(cells, pos) ←
    (if c =? 10 then Done (crt s, pos + (80 - pos `mod` 80))
     else if c =? BACKSPACE then Done (crt s, if 0 <? pos then pos - 1 else pos)
     else cells ← crt_store pos (Z.lor (Z.land c 0xff) 0x0700) (crt s); Done (cells, pos + 1));
  if (pos <? 0) || (25 * 80 <? pos) then Panics else
  let '(cells, pos) :=
    if 24 <=? pos `div` 80 then (scroll (pos - 80) cells, pos - 80) else (cells, pos) in
  cells ← crt_store pos (Z.lor 32 0x0700) cells;
  Done (s <| crt := cells |> <| cursor_hi := u8 (Z.shiftr pos 8) |> <| cursor_lo := u8 pos |>).

Definition consputc (c : Z) (s : console) : outcome console :=
  if panicked s then Spins else
  let s := if c =? BACKSPACE then uartputc 8 (uartputc 32 (uartputc 8 s)) else uartputc c s in
  cgaputc c s.

Fixpoint cputs (l : list Z) (s : console) : outcome console :=
  match l with
  | [] => Done s
  | c :: l' => s ← consputc c s; cputs l' s
  end.

(** ** [cprintf] *)

(** "0123456789abcdef" *)
Definition digits : list Z := [48; 49; 50; 51; 52; 53; 54; 55; 56; 57; 97; 98; 99; 100; 101; 102].

Definition need {A} (o : option A) : outcome A := match o with Some a => Done a | None => Faults end.

Definition printint (xx base : Z) (sign : bool) (s : console) : outcome console :=
  let sign := sign && (xx <? 0) in
  let x := if sign then u32 (- xx) else u32 xx in
  buf ← need (Printf.digit_loop digits 16 x base);
  buf ← need (Printf.put_sign sign buf);
  cputs (rev buf) s.

(** The [switch] on the character after a ['%']: the state and the arguments left. *)
Definition cprintf_conv (fuel : nat) (m : mem) (c : Z) (argp : list Z) (s : console)
    : outcome (console * list Z) :=
  if c =? 100 then
    a ← need (head argp); s ← printint (s32 a) 10 true s; Done (s, tail argp)
  else if (c =? 120) || (c =? 112) then
    a ← need (head argp); s ← printint (s32 a) 16 false s; Done (s, tail argp)
  else if c =? 115 then
    a ← need (head argp);
    l ← need (if a =? 0 then Some Printf.null_text else Printf.puts_loop fuel m a);
    s ← cputs l s; Done (s, tail argp)
  else if c =? 37 then s ← consputc 37 s; Done (s, argp)
  else s ← consputc 37 s; s ← consputc c s; Done (s, argp).

Fixpoint cprintf_loop (fuel : nat) (m : mem) (fmt : Z) (argp : list Z) (s : console) : outcome console :=
  match fuel with
  | O => Faults
  | S k =>
    c ← need (Str.load m fmt);
    if c =? 0 then Done s else
    if negb (c =? 37) then s ← consputc c s; cprintf_loop k m (fmt + 1) argp s else
    c ← need (Str.load m (fmt + 1));
    if c =? 0 then Done s else
    '(s, argp) ← cprintf_conv k m c argp s;
    cprintf_loop k m (fmt + 2) argp s
  end.

Definition cprintf (fuel : nat) (m : mem) (fmt : Z) (args : list Z) (s : console) : outcome console :=
  if fmt =? 0 then Panics else cprintf_loop fuel m fmt args s.

Definition consolewrite (buf : list Z) (n : Z) (s : console) : outcome (Z * console) :=
  s ← cputs (map (fun c => Z.land c 0xff) (take (Z.to_nat n) buf)) s;
  Done (n, s).

(** ** Input *)
Definition C (x : Z) : Z := x - 64.

(** [input.buf[i % INPUT_BUF]] *)
Definition in_at (i : input_t) (k : Z) : option Z := in_buf i !! Z.to_nat (k `mod` INPUT_BUF).

(** [while(input.e != input.w && input.buf[(input.e-1) % INPUT_BUF] != '\n')];
    each turn takes one character, so that [u32 (e - w)] turns are enough. *)
Fixpoint kill_line (fuel : nat) (s : console) : outcome console :=
  match fuel with
  | O => Done s
  | S k =>
    let i := input s in
    if in_e i =? in_w i then Done s else
    c ← need (in_at i (u32 (in_e i - 1)));
    if c =? 10 then Done s else
    s ← consputc BACKSPACE (s <| input := i <| in_e := u32 (in_e i - 1) |> |>);
    kill_line k s
  end.

(** The [default] case: the state, and whether [wakeup(&input.r)] is called. *)
Definition take_key (c : Z) (s : console) : outcome (console * bool) :=
  let i := input s in
  if negb (c =? 0) && (u32 (in_e i - in_r i) <? INPUT_BUF) then
    let c := if c =? 13 then 10 else c in
    let i := i <| in_buf := <[Z.to_nat (in_e i `mod` INPUT_BUF) := u8 c]> (in_buf i) |>
               <| in_e := u32 (in_e i + 1) |> in
    s ← consputc c (s <| input := i |>);
    if (c =? 10) || (c =? C 68) || (in_e i =? u32 (in_r i + INPUT_BUF))
    then Done (s <| input := i <| in_w := in_e i |> |>, true)
    else Done (s, false)
  else Done (s, false).

(** One value of [getc]: the state, [wakeup] called, [doprocdump] set. *)
Definition console_key (c : Z) (s : console) : outcome (console * bool * bool) :=
  let i := input s in
  if c =? C 80 then Done (s, false, true)
  else if c =? C 85 then
    s ← kill_line (Z.to_nat (u32 (in_e i - in_w i))) s; Done (s, false, false)
  else if (c =? C 72) || (c =? 127) then
    if negb (in_e i =? in_w i) then
      s ← consputc BACKSPACE (s <| input := i <| in_e := u32 (in_e i - 1) |> |>); Done (s, false, false)
    else Done (s, false, false)
  else '(s, w) ← take_key c s; Done (s, w, false).

Fixpoint consoleintr (keys : list Z) (s : console) : outcome (console * bool * bool) :=
  match keys with
  | [] => Done (s, false, false)
  | c :: keys =>
    '(s, w, d) ← console_key c s;
    '(s, w', d') ← consoleintr keys s;
    Done (s, w || w', d || d')
  end.

(** [consoleread]: the bytes stored at [dst] and how the call goes on. *)
Inductive read_end : Type := Returns (n : Z) | Sleeps.

Fixpoint consoleread_loop (n : nat) (target : Z) (killed : bool) (i : input_t)
    : option (input_t * list Z * read_end) :=
  match n with
  | O => Some (i, [], Returns target)
  | S n' =>
    if in_r i =? in_w i then Some (i, [], if killed then Returns (-1) else Sleeps) else
    c ← in_at i (in_r i);
    let i' := i <| in_r := u32 (in_r i + 1) |> in
    if c =? C 68 then
      Some (if Z.of_nat n <? target then i else i', [], Returns (target - Z.of_nat n))
    else if c =? 10 then Some (i', [c], Returns (target - Z.of_nat n'))
    else '(i, d, e) ← consoleread_loop n' target killed i'; Some (i, c :: d, e)
  end.

Definition consoleread (n : Z) (killed : bool) (i : input_t) : option (input_t * list Z * read_end) :=
  if n <? 0 then Some (i, [], Returns 0) else consoleread_loop (Z.to_nat n) (u32 n) killed i.

(** ** The screen *)
Definition cursor (s : console) : Z := cursor_hi s * 256 + cursor_lo s.

(** 25 rows of 80 cells, the cursor in the first 24. *)
Definition screen_ok (s : console) : Prop :=
  length (crt s) = 2000%nat /\ byte_ok (cursor_lo s) /\ 0 <= cursor_hi s /\ cursor s < 24 * 80.

(** Where the cursor goes before the screen scrolls. *)
Definition next_pos (c pos : Z) : Z :=
  if c =? 10 then pos + (80 - pos `mod` 80)
  else if c =? BACKSPACE then if 0 <? pos then pos - 1 else pos
  else pos + 1.
(** The cells before the screen scrolls. *)
Definition put_cell (c pos : Z) (cells : list Z) : list Z :=
  if (c =? 10) || (c =? BACKSPACE) then cells else <[Z.to_nat pos := Z.lor (Z.land c 0xff) 0x0700]> cells.

(** Scrolling from row 24: every row moves up by one. *)
Lemma scroll_up cells j : length cells = 2000%nat -> (j < 1840)%nat ->
  length (scroll 1840 cells) = 2000%nat /\ scroll 1840 cells !! j = cells !! (j + 80)%nat.
Proof.
  intros Hl Hj. unfold scroll. change (Z.to_nat 1840) with 1840%nat.
  change (Z.to_nat (24 * 80 - 1840)) with 80%nat. change (23 * 80)%nat with 1840%nat.
  set (row := take 1840 (drop 80 cells)).
  assert (Hr : length row = 1840%nat) by (unfold row; rewrite length_take, length_drop; lia).
  assert (Hb : length (blit cells 0 row) = 2000%nat) by (rewrite length_blit; lia). split.
  - rewrite length_blit; [done|]. rewrite length_replicate. lia.
  - rewrite !lookup_blit, decide_False, decide_True by (rewrite ?length_replicate; lia).
    unfold row. rewrite lookup_take_lt, lookup_drop by lia. f_equal. lia.
Qed.

Lemma cursor_regs s : screen_ok s -> Z.lor (Z.shiftl (cursor_hi s) 8) (cursor_lo s) = cursor s.
Proof.
  intros (_ & Hlo & Hhi & _). unfold byte_ok in Hlo.
  rewrite Z.shiftl_mul_pow2, lor_mul_add by (try change (2 ^ 8) with 256; lia). done.
Qed.

Lemma cursor_bounds s : screen_ok s -> 0 <= cursor s < 1920.
Proof. unfold screen_ok, cursor, byte_ok. lia. Qed.

Lemma next_pos_bound c pos : 0 <= pos < 1920 -> 0 <= next_pos c pos <= 1920.
Proof. intros. unfold next_pos. repeat case_match; zlia. Qed.

Lemma crt_store_ok i v cells : 0 <= i < Z.of_nat (length cells) ->
  crt_store i v cells = Done (<[Z.to_nat i := v]> cells).
Proof. intros H. unfold crt_store. by rewrite (proj2 (andb_true_iff _ _)) by lia. Qed.

(** The first half of [cgaputc]. *)
Lemma cgaputc_put c s : screen_ok s ->
  (if c =? 10 then Done (crt s, cursor s + (80 - cursor s `mod` 80))
   else if c =? BACKSPACE then Done (crt s, if 0 <? cursor s then cursor s - 1 else cursor s)
   else cells ← crt_store (cursor s) (Z.lor (Z.land c 0xff) 0x0700) (crt s); Done (cells, cursor s + 1))
  = Done (put_cell c (cursor s) (crt s), next_pos c (cursor s)).
Proof.
  intros Hs. pose proof (cursor_bounds s Hs). destruct Hs as (Hl & _). unfold put_cell, next_pos.
  destruct (c =? 10); [done|]. destruct (c =? BACKSPACE); [done|].
  by rewrite crt_store_ok by lia.
Qed.

Lemma cursor_split p : 0 <= p < 1920 -> u8 (Z.shiftr p 8) * 256 + u8 p = p.
Proof. intros. rewrite Z.shiftr_div_pow2 by lia. zlia. Qed.

Lemma length_put_cell c pos cells : length (put_cell c pos cells) = length cells.
Proof. unfold put_cell. by case_match; rewrite ?length_insert. Qed.

(** [shift] is 80 when the screen scrolls. *)
Lemma cgaputc_ok c s : screen_ok s ->
  let p := next_pos c (cursor s) in
  let shift := if p <? 1920 then 0 else 80 in
  exists cells,
    cgaputc c s = Done (s <| crt := cells |> <| cursor_hi := u8 (Z.shiftr (p - shift) 8) |>
                          <| cursor_lo := u8 (p - shift) |>) /\
    length cells = 2000%nat /\ cells !! Z.to_nat (p - shift) = Some 0x720 /\
    forall j, 0 <= j < p - shift ->
      cells !! Z.to_nat j = put_cell c (cursor s) (crt s) !! Z.to_nat (j + shift).
Proof.
  intros Hs p shift. pose proof (cursor_bounds s Hs) as Hc. pose proof (next_pos_bound c _ Hc) as Hp.
  fold p in Hp. unfold cgaputc. rewrite cursor_regs, cgaputc_put by done. cbn [mbind outcome_bind]. fold p.
  set (cells0 := put_cell c (cursor s) (crt s)).
  assert (Hl : length cells0 = 2000%nat) by (unfold cells0; rewrite length_put_cell; apply Hs).
  rewrite (proj2 (orb_false_iff (p <? 0) (25 * 80 <? p))) by lia. unfold shift.
  destruct (Z.ltb_spec p 1920) as [Hlt|Hge].
  - rewrite (proj2 (Z.leb_gt 24 (p `div` 80))) by zlia. rewrite crt_store_ok by lia.
    rewrite Z.sub_0_r. exists (<[Z.to_nat p := 0x720]> cells0). split_and!; [done| | |].
    + by rewrite length_insert.
    + apply list_lookup_insert_eq. lia.
    + intros j Hj. rewrite list_lookup_insert_ne, Z.add_0_r by lia. done.
  - assert (p = 1920) as Ep by lia. rewrite Ep. change (24 <=? 1920 `div` 80) with true. cbv iota.
    change (1920 - 80) with 1840. destruct (scroll_up cells0 0 Hl) as [Hl2 _]; [lia|].
    rewrite crt_store_ok by lia. exists (<[Z.to_nat 1840 := 0x720]> (scroll 1840 cells0)). split_and!; [done| | |].
    + by rewrite length_insert.
    + apply list_lookup_insert_eq. lia.
    + intros j Hj. rewrite list_lookup_insert_ne by lia.
      destruct (scroll_up cells0 (Z.to_nat j) Hl) as [_ ->]; [lia|]. f_equal. lia.
Qed.

(** What a character leaves alone. *)
Definition same_but_output (s s' : console) : Prop :=
  uart s' = uart s /\ panicked s' = panicked s /\ input s' = input s.

Lemma cgaputc_total c s : screen_ok s ->
  exists s', cgaputc c s = Done s' /\ screen_ok s' /\ same_but_output s s' /\ uart_out s' = uart_out s.
Proof.
  intros Hs. destruct (cgaputc_ok c s Hs) as (cells & -> & Hl & _).
  eexists. split; [done|]. split; [|done]. pose proof (cursor_bounds s Hs) as Hc.
  pose proof (next_pos_bound c _ Hc) as Hp. set (p := next_pos c (cursor s)) in *. clearbody p.
  assert (Hq : 0 <= p - (if p <? 1920 then 0 else 80) < 1920) by (destruct (Z.ltb_spec p 1920); lia).
  set (q := p - _) in *. clearbody q. unfold screen_ok, cursor. cbn [crt cursor_hi cursor_lo setf].
  rewrite cursor_split by done. split_and!; [done|apply u8_range..|lia].
Qed.

(** The bytes a character sends to the serial line. *)
Definition serial (c : Z) : list Z := if c =? BACKSPACE then [8; 32; 8] else [u8 c].

Lemma consputc_ok c s : screen_ok s -> panicked s = false -> uart s = true ->
  exists s', consputc c s = Done s' /\ screen_ok s' /\ same_but_output s s' /\
    uart_out s' = uart_out s ++ serial c.
Proof.
  intros Hs Hp Hu. unfold consputc, serial. rewrite Hp.
  assert (Ht : exists t, (if c =? BACKSPACE then uartputc 8 (uartputc 32 (uartputc 8 s)) else uartputc c s) = t /\
    screen_ok t /\ same_but_output s t /\
    uart_out t = uart_out s ++ if c =? BACKSPACE then [8; 32; 8] else [u8 c]).
  { unfold uartputc. destruct s as [a b d u o p i]. simpl in Hu. subst u.
    destruct (c =? BACKSPACE); eexists; (split_and!; [done|exact Hs|done|]); simpl; by rewrite <- ?app_assoc. }
  destruct Ht as (t & -> & Ht & (E1 & E2 & E3) & Eo).
  destruct (cgaputc_total c t Ht) as (s' & -> & Hs' & (F1 & F2 & F3) & Fo).
  exists s'. unfold same_but_output. rewrite F1, F2, F3, Fo. done.
Qed.

Lemma cputs_ok l s : screen_ok s -> panicked s = false -> uart s = true ->
  exists s', cputs l s = Done s' /\ screen_ok s' /\ same_but_output s s' /\
    uart_out s' = uart_out s ++ concat (map serial l).
Proof.
  revert s. induction l as [|c l IH]; intros s Hs Hp Hu; simpl.
  { exists s. by rewrite app_nil_r. }
  destruct (consputc_ok c s Hs Hp Hu) as (s1 & -> & Hs1 & (E1 & E2 & E3) & Ho). cbn [mbind outcome_bind].
  destruct (IH s1) as (s2 & -> & Hs2 & (F1 & F2 & F3) & Ho2); [done|congruence|congruence|].
  exists s2. unfold same_but_output. rewrite Ho2, Ho, <- app_assoc. split_and!; [done..| | | |done]; congruence.
Qed.

(** ** [cprintf] on a format made of pieces *)

(** The console has no [%c]. *)
Definition cpiece_ok (m : mem) (p : Printf.piece) : Prop :=
  match p with
  | Printf.Chr _ => False
  | Printf.Unknown c => c <> 0 /\ Forall (fun d => c <> d) [100; 120; 112; 115; 37]
  | _ => Printf.piece_ok m p
  end.
Definition cprints (p : Printf.piece) (out : list Z) : Prop :=
  match p with
  | Printf.Dec a => exists ds, Printf.numeral digits 10 (Z.abs (s32 a)) ds /\
      out = (if s32 a <? 0 then [45] else []) ++ ds
  | Printf.Hex a | Printf.Ptr a => Printf.numeral digits 16 (u32 a) out
  | _ => Printf.prints p out
  end.

(** The console is working: its state is good and it has a serial line. *)
Definition works (s : console) : Prop := screen_ok s /\ panicked s = false /\ uart s = true.
(** [s'] is [s] after the characters [out]. *)
Definition printed (s : console) (out : list Z) (s' : console) : Prop :=
  works s' /\ input s' = input s /\ uart_out s' = uart_out s ++ concat (map serial out).

Lemma cputs_printed l s : works s -> exists s', cputs l s = Done s' /\ printed s l s'.
Proof.
  intros (Hs & Hp & Hu). destruct (cputs_ok l s Hs Hp Hu) as (s' & E & Hs' & (F1 & F2 & F3) & Ho).
  exists s'. unfold printed, works. rewrite F1, F2. done.
Qed.

Lemma consputc_printed c s : works s -> exists s', consputc c s = Done s' /\ printed s [c] s'.
Proof.
  intros (Hs & Hp & Hu). destruct (consputc_ok c s Hs Hp Hu) as (s' & E & Hs' & (F1 & F2 & F3) & Ho).
  exists s'. unfold printed, works. simpl. rewrite F1, F2, app_nil_r. done.
Qed.

Lemma printed_app s a s1 b s2 : printed s a s1 -> printed s1 b s2 -> printed s (a ++ b) s2.
Proof.
  intros (_ & E1 & O1) (H & E2 & O2). unfold printed.
  rewrite E2, E1, O2, O1, map_app, concat_app, app_assoc. done.
Qed.

Lemma kprintint_signed xx s : works s -> - 2 ^ 31 <= xx < 2 ^ 31 ->
  exists ds s', printint xx 10 true s = Done s' /\
    Printf.numeral digits 10 (Z.abs xx) ds /\ printed s ((if xx <? 0 then [45] else []) ++ ds) s'.
Proof.
  intros Hs Hx. unfold printint. simpl andb. destruct (Z.ltb_spec xx 0) as [H|H];
    rewrite u32_small by lia.
  - destruct (Printf.digit_loop_word digits 10 (- xx)) as (cs & -> & Hl & Hn); [simpl; lia|lia|].
    cbn [need mbind outcome_bind]. unfold Printf.put_sign. rewrite (proj2 (Nat.ltb_lt _ _)) by lia.
    cbn [need mbind outcome_bind]. rewrite rev_app_distr.
    destruct (cputs_printed (rev [45] ++ rev cs) s Hs) as (s' & -> & Hp). exists (rev cs), s'.
    by rewrite Z.abs_neq by lia.
  - destruct (Printf.digit_loop_word digits 10 xx) as (cs & -> & Hl & Hn); [simpl; lia|lia|].
    cbn [need mbind outcome_bind Printf.put_sign].
    destruct (cputs_printed (rev cs) s Hs) as (s' & -> & Hp). exists (rev cs), s'.
    by rewrite Z.abs_eq by lia.
Qed.

Lemma kprintint_unsigned xx s : works s ->
  exists ds s', printint xx 16 false s = Done s' /\ Printf.numeral digits 16 (u32 xx) ds /\ printed s ds s'.
Proof.
  intros Hs. unfold printint. simpl andb. cbv iota zeta.
  destruct (Printf.digit_loop_word digits 16 (u32 xx)) as (cs & -> & _ & Hn); [simpl; lia|apply u32_range|].
  cbn [need mbind outcome_bind Printf.put_sign].
  destruct (cputs_printed (rev cs) s Hs) as (s' & -> & Hp). eauto.
Qed.

Lemma cprintf_conv_ok fuel m p rest s :
  works s -> cpiece_ok m p -> (forall c, p <> Printf.Text c) -> (Printf.str_len p < fuel)%nat ->
  exists c out s', Printf.spell p = [37; c] /\ c <> 0 /\
    cprintf_conv fuel m c (Printf.args_of p ++ rest) s = Done (s', rest) /\ cprints p out /\ printed s out s'.
Proof.
  intros Hs Hok Ht Hf. destruct p as [c|a|a|a|a l|a| |c]; simpl in Hok;
    [by destruct (Ht c)|..|done| |]; eexists; cbn [Printf.spell Printf.args_of app cprints].
  - destruct (kprintint_signed (s32 a) s Hs (Printf.s32_range a)) as (ds & s' & E & Hn & Hp).
    eexists _, s'. split_and!; [done|done| |eauto|done]. unfold cprintf_conv; cbn [Z.eqb Pos.eqb orb need head hd_error tail mbind outcome_bind]. by rewrite E.
  - destruct (kprintint_unsigned (s32 a) s Hs) as (ds & s' & E & Hn & Hp). rewrite Printf.u32_s32 in Hn.
    eexists _, s'. split_and!; [done|done| |done|done]. unfold cprintf_conv; cbn [Z.eqb Pos.eqb orb need head hd_error tail mbind outcome_bind]. by rewrite E.
  - destruct (kprintint_unsigned (s32 a) s Hs) as (ds & s' & E & Hn & Hp). rewrite Printf.u32_s32 in Hn.
    eexists _, s'. split_and!; [done|done| |done|done]. unfold cprintf_conv; cbn [Z.eqb Pos.eqb orb need head hd_error tail mbind outcome_bind]. by rewrite E.
  - destruct (cputs_printed l s Hs) as (s' & E & Hp). exists l, s'. split_and!; [done|done| |done|done].
    unfold cprintf_conv; cbn [Z.eqb Pos.eqb orb need head hd_error tail mbind outcome_bind]. destruct Hok as [[-> ->]|[Ha Hc]].
    + cbn [Z.eqb need mbind outcome_bind]. rewrite E. done.
    + rewrite (proj2 (Z.eqb_neq a 0) Ha), (Printf.puts_loop_ok _ _ _ l) by done.
      cbn [need mbind outcome_bind]. by rewrite E.
  - destruct (consputc_printed 37 s Hs) as (s' & E & Hp). exists [37], s'. split_and!; [done|done| |done|done].
    unfold cprintf_conv; cbn [Z.eqb Pos.eqb orb need head hd_error tail mbind outcome_bind]. by rewrite E.
  - destruct Hok as [Hc Hne]. rewrite !Forall_cons in Hne.
    destruct (consputc_printed 37 s Hs) as (s1 & E1 & Hp1).
    destruct (consputc_printed c s1) as (s2 & E2 & Hp2); [apply Hp1|].
    exists [37; c], s2. split_and!; [done|done| |done|by apply (printed_app s [37] s1 [c])].
    unfold cprintf_conv. repeat match goal with |- context [c =? ?d] => destruct (Z.eqb_spec c d); [lia|] end.
    rewrite E1. cbn [mbind outcome_bind]. by rewrite E2.
Qed.

Lemma printed_refl s : works s -> printed s [] s.
Proof. unfold printed. simpl. by rewrite app_nil_r. Qed.

(** [cprintf] sends the pieces of its format to the screen and the serial
    line in order, numbers as their shortest numerals in lower-case digits,
    and leaves the console working: no panic, no store outside the text
    memory, no overflow of the digit buffer. *)
Theorem cprintf_renders fuel m fmt ps extra s :
  works s -> fmt <> 0 -> Forall (cpiece_ok m) ps -> cstr m fmt (concat (map Printf.spell ps)) ->
  (length ps + sum_list (map Printf.str_len ps) < fuel)%nat ->
  exists outs s', cprintf fuel m fmt (concat (map Printf.args_of ps) ++ extra) s = Done s' /\
    Forall2 cprints ps outs /\ printed s (concat outs) s'.
Proof.
  intros Hs Hfmt Hok Hc Hf. unfold cprintf. rewrite (proj2 (Z.eqb_neq fmt 0) Hfmt). clear Hfmt.
  revert fuel fmt s Hs Hc Hf. induction Hok as [|p ps Hp Hok IH]; intros [|f] fmt s Hs Hc Hf;
    cbn [map concat length sum_list foldr] in *; try lia.
  { exists [], s. cbn [cprintf_loop]. rewrite (cstr_nil _ _ Hc). split_and!; [done..|by apply printed_refl]. }
  simpl in Hf. rewrite <- app_assoc. cbn [cprintf_loop].
  assert ((exists c, p = Printf.Text c) \/ forall c, p <> Printf.Text c) as [[c ->]|Hn] by (destruct p; naive_solver).
  - cbn [Printf.spell Printf.args_of app] in *. apply cstr_cons in Hc as (Hc & Hne & Hl). destruct Hp as [_ Hp].
    rewrite Hc. cbn [need mbind outcome_bind].
    rewrite (proj2 (Z.eqb_neq c 0) Hne), (proj2 (Z.eqb_neq c 37) Hp). cbn [negb].
    destruct (consputc_printed c s Hs) as (s1 & -> & Hp1). cbn [mbind outcome_bind].
    destruct (IH f (fmt + 1) s1) as (outs & s2 & E & Ho & Hp2); [apply Hp1|done|lia|].
    exists ([c] :: outs), s2. split_and!; [done|by constructor|by eapply (printed_app s [c])].
  - destruct (cprintf_conv_ok f m p (concat (map Printf.args_of ps) ++ extra) s)
      as (c & out & s1 & Hsp & Hne & E1 & Hpr & Hp1); [done|done|done|simpl in Hf; lia|].
    rewrite Hsp in Hc. cbn [app] in Hc.
    apply cstr_cons in Hc as (Hc & _ & Hl). apply cstr_cons in Hl as (Hc' & _ & Hl).
    rewrite Hc. cbn [need mbind outcome_bind Z.eqb Pos.eqb negb]. rewrite Hc'. cbn [need mbind outcome_bind].
    rewrite (proj2 (Z.eqb_neq c 0) Hne), E1.
    destruct (IH f (fmt + 2) s1) as (outs & s2 & E & Ho & Hp2); [apply Hp1| |lia|].
    { by replace (fmt + 2) with (fmt + 1 + 1) by lia. }
    exists (out :: outs), s2. split_and!; [done|by constructor|by eapply printed_app].
Qed.

(** ** Specification: a line editor

    [committed] is what [consoleread] may take, [pending] the line being
    edited. *)
Record editor : Type := mkEditor { committed : list Z; pending : list Z }.

Definition edit (c : Z) (ed : editor) : editor :=
  let '(mkEditor cs ps) := ed in
  if c =? C 80 then ed
  else if c =? C 85 then mkEditor cs []
  else if (c =? C 72) || (c =? 127) then mkEditor cs (removelast ps)
  else if negb (c =? 0) && (Z.of_nat (length (cs ++ ps)) <? 128) then
    let c := if c =? 13 then 10 else c in
    if (c =? 10) || (c =? C 68) || (Z.of_nat (length (cs ++ ps)) =? 127)
    then mkEditor (cs ++ ps ++ [c]) [] else mkEditor cs (ps ++ [c])
  else ed.

(** The ring holds the editor's text. *)
Definition edits (i : input_t) (ed : editor) : Prop :=
  let l := committed ed ++ pending ed in
  length (in_buf i) = 128%nat /\ 0 <= in_r i < 2 ^ 32 /\ (length l <= 128)%nat /\
  in_w i = u32 (in_r i + Z.of_nat (length (committed ed))) /\
  in_e i = u32 (in_r i + Z.of_nat (length l)) /\
  forall k, (k < length l)%nat -> in_buf i !! Z.to_nat ((in_r i + Z.of_nat k) `mod` 128) = l !! k.

Lemma u32_mod_128 z : u32 z `mod` 128 = z `mod` 128.
Proof. zlia. Qed.
Lemma u32_diff a n m : 0 <= n <= 128 -> 0 <= m <= 128 -> u32 (u32 (a + n) - u32 (a + m)) = u32 (n - m).
Proof. intros. zlia. Qed.
Lemma u32_same a n m : 0 <= n <= 128 -> 0 <= m <= 128 -> u32 (a + n) = u32 (a + m) -> n = m.
Proof. intros. zlia. Qed.

(** [input.e - input.r] is the length of the text. *)
Lemma edits_room i ed : edits i ed -> u32 (in_e i - in_r i) = Z.of_nat (length (committed ed ++ pending ed)).
Proof.
  intros (_ & Hr & Hl & _ & -> & _). rewrite <- (u32_small (in_r i)) at 2 by done.
  rewrite <- (Z.add_0_r (in_r i)) at 2. rewrite u32_diff by lia. rewrite Z.sub_0_r, u32_small by lia. done.
Qed.

(** [input.e == input.w] exactly when no line is being edited. *)
Lemma edits_pending i ed : edits i ed -> (in_e i =? in_w i) = bool_decide (pending ed = []).
Proof.
  intros (_ & Hr & Hl & -> & -> & _). rewrite length_app in *.
  destruct (Z.eqb_spec (u32 (in_r i + Z.of_nat (length (committed ed) + length (pending ed))))
    (u32 (in_r i + Z.of_nat (length (committed ed))))) as [E|E].
  - apply u32_same in E; [|lia..]. rewrite bool_decide_eq_true_2; [done|].
    destruct (pending ed); [done|simpl in E; lia].
  - rewrite bool_decide_eq_false_2; [done|]. intros Hp. rewrite Hp in E. simpl in E. by rewrite Nat.add_0_r in E.
Qed.

(** [input.r == input.w] exactly when nothing is committed. *)
Lemma edits_committed i ed : edits i ed -> (in_r i =? in_w i) = bool_decide (committed ed = []).
Proof.
  intros (_ & Hr & Hl & -> & _). rewrite length_app in *.
  rewrite <- (u32_small (in_r i)) at 1 by done. rewrite <- (Z.add_0_r (in_r i)) at 1.
  destruct (Z.eqb_spec (u32 (in_r i + 0)) (u32 (in_r i + Z.of_nat (length (committed ed))))) as [E|E].
  - apply u32_same in E; [|lia..]. rewrite bool_decide_eq_true_2; [done|].
    destruct (committed ed); [done|simpl in E; lia].
  - rewrite bool_decide_eq_false_2; [done|]. intros Hp. by rewrite Hp in E.
Qed.

(** Taking back the last character being edited. *)
Lemma edits_back i cs ps c :
  edits i (mkEditor cs (ps ++ [c])) -> edits (i <| in_e := u32 (in_e i - 1) |>) (mkEditor cs ps).
Proof.
  intros (Hb & Hr & Hl & Hw & He & Hk). unfold edits. cbn [committed pending in_buf in_r in_w in_e setf] in *.
  rewrite app_assoc in *. rewrite (length_app _ [c]) in *. cbn [length] in *.
  split_and!; [done|lia|lia|lia|done| |].
  - rewrite He. zlia.
  - intros k Hkl. rewrite Hk by lia. by rewrite lookup_app_l.
Qed.

Lemma edits_last i cs ps c : edits i (mkEditor cs (ps ++ [c])) -> in_at i (u32 (in_e i - 1)) = Some c.
Proof.
  intros (Hb & Hr & Hl & Hw & He & Hk). unfold in_at, INPUT_BUF.
  cbn [committed pending] in *. rewrite app_assoc in *. rewrite length_app in *. cbn [length] in *.
  specialize (Hk (length (cs ++ ps)) ltac:(lia)).
  rewrite lookup_app_r, Nat.sub_diag in Hk by lia. change (Some c) with ([c] !! 0%nat). rewrite <- Hk.
  rewrite u32_mod_128, He. do 2 f_equal. zlia.
Qed.

(** Storing one more character. *)
Lemma edits_put i cs ps c :
  edits i (mkEditor cs ps) -> (length (cs ++ ps) < 128)%nat ->
  edits (i <| in_buf := <[Z.to_nat (in_e i `mod` 128) := c]> (in_buf i) |> <| in_e := u32 (in_e i + 1) |>)
    (mkEditor cs (ps ++ [c])).
Proof.
  intros (Hb & Hr & Hl & Hw & He & Hk) Hroom. unfold edits.
  cbn [committed pending in_buf in_r in_w in_e setf] in *. rewrite app_assoc.
  rewrite (length_app (cs ++ ps)). cbn [length]. split_and!; [by rewrite length_insert|lia|lia|lia|done| |].
  - rewrite He. zlia.
  - intros k Hkl. rewrite He, u32_mod_128. destruct (decide (k = length (cs ++ ps))) as [->|].
    + pose proof (Z.mod_pos_bound (in_r i + Z.of_nat (length (cs ++ ps))) 128 ltac:(lia)).
      rewrite list_lookup_insert_eq by lia. by rewrite lookup_app_r, Nat.sub_diag by lia.
    + rewrite list_lookup_insert_ne by (clear Hk; zlia). rewrite Hk by lia. symmetry. apply lookup_app_l. lia.
Qed.

(** [input.w = input.e]. *)
Lemma edits_commit i l c :
  edits i (mkEditor l c) -> edits (i <| in_w := in_e i |>) (mkEditor (l ++ c) []).
Proof.
  intros (Hb & Hr & Hl & Hw & He & Hk). unfold edits. cbn [committed pending in_buf in_r in_w in_e setf] in *.
  rewrite app_nil_r. split_and!; first [done|lia].
Qed.

(** ** Interrupts *)
Lemma kill_line_ok fuel s cs ps :
  works s -> edits (input s) (mkEditor cs ps) -> Forall (fun c => c <> 10) ps -> (length ps <= fuel)%nat ->
  exists s', kill_line fuel s = Done s' /\ works s' /\ edits (input s') (mkEditor cs []).
Proof.
  revert s ps. induction fuel as [|fuel IH]; intros s ps Hs He Hn Hf.
  { destruct ps; simpl in Hf; [eauto|lia]. }
  cbn [kill_line]. rewrite (edits_pending _ _ He). cbn [pending].
  destruct ps as [|c ps _] using rev_ind; [rewrite bool_decide_eq_true_2 by done; eauto|].
  rewrite bool_decide_eq_false_2 by (by destruct ps). rewrite (edits_last _ _ _ _ He).
  cbn [need mbind outcome_bind]. apply Forall_app in Hn as [Hn Hc]. inversion Hc; subst.
  rewrite (proj2 (Z.eqb_neq c 10)) by done. apply edits_back in He.
  set (s1 := s <| input := _ |>). destruct (consputc_printed BACKSPACE s1 Hs) as (s2 & -> & Hw & Hi & _).
  cbn [mbind outcome_bind]. apply (IH s2 ps); [done|by rewrite Hi|done|]. rewrite length_app in Hf. simpl in Hf. lia.
Qed.

(** The invariant of the input side. *)
Definition editing (s : console) (ed : editor) : Prop :=
  works s /\ edits (input s) ed /\ Forall (fun c => c <> 10) (pending ed).

Lemma take_key_ok c s cs ps :
  editing s (mkEditor cs ps) -> 0 <= c < 256 ->
  let ed' := if negb (c =? 0) && (Z.of_nat (length (cs ++ ps)) <? 128) then
      let c := if c =? 13 then 10 else c in
      if (c =? 10) || (c =? C 68) || (Z.of_nat (length (cs ++ ps)) =? 127)
      then mkEditor (cs ++ ps ++ [c]) [] else mkEditor cs (ps ++ [c])
    else mkEditor cs ps in
  exists s' w, take_key c s = Done (s', w) /\ editing s' ed' /\ (w = false -> committed ed' = cs) /\
    (w = true -> committed ed' <> cs).
Proof.
  intros (Hs & He & Hn) Hc ed'. unfold take_key. rewrite (edits_room _ _ He). cbn [committed pending].
  unfold INPUT_BUF, ed'. destruct (negb (c =? 0) && (Z.of_nat (length (cs ++ ps)) <? 128)) eqn:Hroom.
  2:{ exists s, false. split_and!; [done|done|done|done]. }
  apply andb_true_iff in Hroom as [_ Hroom]. cbv zeta. set (d := if c =? 13 then 10 else c).
  assert (Hd : 0 <= d < 256) by (unfold d; case_match; lia). rewrite (u8_small d) by done.
  pose proof (edits_put _ _ _ d He ltac:(lia)) as Hput. set (i1 := _ <| in_e := _ |>) in *.
  set (s1 := s <| input := i1 |>). destruct (consputc_printed d s1 Hs) as (s2 & -> & Hw & Hi & _).
  cbn [mbind outcome_bind]. change (input s1) with i1 in Hi.
  assert (Hfull : (in_e i1 =? u32 (in_r i1 + 128)) = (Z.of_nat (length (cs ++ ps)) =? 127)).
  { destruct Hput as (_ & _ & _ & _ & -> & _). cbn [committed pending]. rewrite app_assoc, (length_app _ [d]).
    cbn [length]. apply eq_bool_prop_intro. rewrite !Is_true_true, !Z.eqb_eq. split; intros E; [|f_equal; lia].
    apply u32_same in E; lia. }
  rewrite Hfull. destruct ((d =? 10) || (d =? C 68) || _) eqn:Hcommit.
  - exists (s2 <| input := i1 <| in_w := in_e i1 |> |>), true. split_and!; [done| |done|].
    + split; [done|]. split; [|constructor]. apply edits_commit in Hput. by rewrite <- app_assoc in Hput || exact Hput.
    + intros _ E%(f_equal length). cbn [committed] in E. rewrite !length_app in E. simpl in E. lia.
  - exists s2, false. split_and!; [done| |done|done]. split; [done|]. split; [by rewrite Hi|].
    apply Forall_app. split; [done|]. apply orb_false_iff in Hcommit as [Hcommit _].
    constructor; [|constructor]. lia.
Qed.

Lemma console_key_ok c s ed :
  editing s ed -> 0 <= c < 256 ->
  exists s' w d, console_key c s = Done (s', w, d) /\ editing s' (edit c ed) /\
    (w = true <-> committed (edit c ed) <> committed ed).
Proof.
  intros Hed Hc. destruct ed as [cs ps]. pose proof Hed as (Hs & He & Hn). unfold console_key, edit.
  cbn [pending] in Hn. destruct (c =? C 80); [exists s, false, true; naive_solver|].
  destruct (c =? C 85).
  { destruct (kill_line_ok (Z.to_nat (u32 (in_e (input s) - in_w (input s)))) s cs ps) as (s' & -> & Hw & He');
      [done|done|done| |exists s', false, false; split_and!; [done| |naive_solver]].
    - destruct He as (_ & Hr & Hl & -> & -> & _). cbn [committed pending] in *.
      rewrite u32_diff by (rewrite ?length_app in *; lia). rewrite u32_small by (rewrite ?length_app in *; lia).
      rewrite length_app. lia.
    - split; [done|]. split; [done|constructor]. }
  destruct ((c =? C 72) || (c =? 127)).
  { rewrite (edits_pending _ _ He). cbn [pending].
    destruct ps as [|x ps _] using rev_ind.
    { rewrite bool_decide_eq_true_2 by done. exists s, false, false. naive_solver. }
    rewrite bool_decide_eq_false_2 by (by destruct ps). cbn [negb]. apply edits_back in He.
    set (s1 := s <| input := _ |>). destruct (consputc_printed BACKSPACE s1 Hs) as (s2 & -> & Hw & Hi & _).
    exists s2, false, false. rewrite removelast_last. apply Forall_app in Hn as [Hn _].
    split_and!; [done| |naive_solver]. split; [done|]. split; [by rewrite Hi|done]. }
  destruct (take_key_ok c s cs ps Hed Hc) as (s' & w & -> & He' & H1 & H2).
  exists s', w, false. split_and!; [done|done|]. destruct w; naive_solver.
Qed.

Definition edit_all (keys : list Z) (ed : editor) : editor := foldl (fun ed c => edit c ed) ed keys.

Lemma edit_committed c ed : exists x, committed (edit c ed) = committed ed ++ x.
Proof.
  destruct ed as [cs ps]. unfold edit. repeat case_match; cbn [committed];
    solve [exists []; by rewrite app_nil_r|eexists; reflexivity].
Qed.

Lemma edit_all_committed keys ed : exists x, committed (edit_all keys ed) = committed ed ++ x.
Proof.
  revert ed. induction keys as [|c keys IH]; intros ed; [exists []; by rewrite app_nil_r|].
  destruct (edit_committed c ed) as [x Hx]. destruct (IH (edit c ed)) as [y Hy].
  exists (x ++ y). rewrite app_assoc, <- Hx. exact Hy.
Qed.

Lemma consoleintr_ok keys s ed :
  editing s ed -> Forall byte_ok keys ->
  exists s' w d, consoleintr keys s = Done (s', w, d) /\ editing s' (edit_all keys ed) /\
    (w = true <-> committed (edit_all keys ed) <> committed ed).
Proof.
  intros Hed Hk. revert s ed Hed. induction Hk as [|c keys Hc Hk IH]; intros s ed Hed.
  { exists s, false, false. naive_solver. }
  destruct (console_key_ok c s ed Hed Hc) as (s1 & w1 & d1 & E1 & He1 & Hw1).
  destruct (IH s1 _ He1) as (s2 & w2 & d2 & E2 & He2 & Hw2).
  cbn [consoleintr]. rewrite E1. cbn [mbind outcome_bind]. rewrite E2.
  exists s2, (w1 || w2), (d1 || d2). split_and!; [done|done|].
  change (edit_all (c :: keys) ed) with (edit_all keys (edit c ed)).
  destruct (edit_committed c ed) as [x Hx]. destruct (edit_all_committed keys (edit c ed)) as [y Hy].
  rewrite orb_true_iff, Hw1, Hw2, Hy, Hx. rewrite <- app_assoc. clear. destruct x as [|a x]; simpl.
  - rewrite app_nil_r. naive_solver.
  - split; [|intros _; left]; intros H%(f_equal length) || intros _; rewrite ?length_app in *; simpl in *; try lia.
    intros H%(f_equal length). rewrite length_app in H. simpl in H. lia.
Qed.

(** ** Reading *)

(** The next character is taken. *)
Lemma edits_take i c cs ps :
  edits i (mkEditor (c :: cs) ps) ->
  in_at i (in_r i) = Some c /\ edits (i <| in_r := u32 (in_r i + 1) |>) (mkEditor cs ps).
Proof.
  intros (Hb & Hr & Hl & Hw & He & Hk). cbn [committed pending app length] in *. split.
  - unfold in_at, INPUT_BUF. specialize (Hk 0%nat ltac:(lia)). by rewrite Z.add_0_r in Hk.
  - unfold edits. cbn [committed pending in_buf in_r in_w in_e setf]. rewrite ?length_app in *.
    pose proof (u32_range (in_r i + 1)). split_and!; [done|lia|lia|lia| | |].
    + rewrite Hw. clear Hk. zlia.
    + rewrite He. clear Hk. zlia.
    + intros k Hkl. specialize (Hk (S k) ltac:(rewrite ?length_app in *; lia)). change ((cs ++ ps) !! k) with ((c :: cs ++ ps) !! S k).
      rewrite <- Hk. do 2 f_equal. clear Hk. zlia.
Qed.

(** [reads n cs d cs' e]: with [cs] committed, a read of [n] characters that
    has stored none yet delivers [d], leaves [cs'] and ends as [e]; [first] is
    the number of characters asked for at the start of the call. *)
Inductive reads (first : Z) (killed : bool) : nat -> list Z -> list Z -> list Z -> read_end -> Prop :=
  | reads_all cs : reads first killed 0 cs [] cs (Returns first)
  | reads_wait n : killed = false -> reads first killed (S n) [] [] [] Sleeps
  | reads_killed n : killed = true -> reads first killed (S n) [] [] [] (Returns (-1))
  | reads_eof_first n cs : first = Z.of_nat (S n) -> reads first killed (S n) (C 68 :: cs) [] cs (Returns 0)
  | reads_eof_later n cs : Z.of_nat (S n) < first ->
      reads first killed (S n) (C 68 :: cs) [] (C 68 :: cs) (Returns (first - Z.of_nat (S n)))
  | reads_newline n cs : reads first killed (S n) (10 :: cs) [10] cs (Returns (first - Z.of_nat n))
  | reads_char n c cs d cs' e : c <> 10 -> c <> C 68 -> reads first killed n cs d cs' e ->
      reads first killed (S n) (c :: cs) (c :: d) cs' e.

Lemma consoleread_loop_ok n first killed i cs ps :
  edits i (mkEditor cs ps) -> Z.of_nat n <= first ->
  exists i' d cs' e, consoleread_loop n first killed i = Some (i', d, e) /\
    reads first killed n cs d cs' e /\ edits i' (mkEditor cs' ps).
Proof.
  revert i cs. induction n as [|n IH]; intros i cs He Hn.
  { exists i, [], cs, (Returns first). split_and!; [done|constructor|done]. }
  cbn [consoleread_loop]. rewrite (edits_committed _ _ He). cbn [committed]. destruct cs as [|c cs].
  { rewrite bool_decide_eq_true_2 by done. exists i, [], []. destruct killed; eexists;
      (split_and!; [done|by constructor|done]). }
  rewrite bool_decide_eq_false_2 by done. destruct (edits_take _ _ _ _ He) as [-> He'].
  cbn [mbind option_bind]. destruct (Z.eqb_spec c (C 68)) as [->|Hd].
  - destruct (Z.ltb_spec (Z.of_nat (S n)) first).
    + exists i, [], (C 68 :: cs). eexists. split_and!; [done|by constructor|done].
    + replace (first - Z.of_nat (S n)) with 0 by lia. eexists _, [], cs, _.
      split_and!; [done|constructor; lia|done].
  - destruct (Z.eqb_spec c 10) as [->|Hnl].
    + eexists _, [10], cs, _. split_and!; [done|constructor|done].
    + destruct (IH _ _ He') as (i' & d & cs' & e & -> & Hr & He2); [lia|].
      exists i', (c :: d), cs', e. split_and!; [done|by constructor|done].
Qed.

(** ** Theorems *)

(** putting a character on the screen never panics and never stores
    outside the text memory; the cursor stays in the first 24 rows, the
    character is where the cursor was, the text before it stays (one row
    higher when the screen scrolls), and the cell under the cursor is blank. *)
Theorem cgaputc_shows c s : screen_ok s -> c <> 10 -> c <> BACKSPACE ->
  exists s' shift, cgaputc c s = Done s' /\ screen_ok s' /\ (shift = 0 \/ shift = 80) /\
    cursor s' = cursor s + 1 - shift /\
    crt s' !! Z.to_nat (cursor s - shift) = Some (Z.lor (Z.land c 0xff) 0x0700) /\
    crt s' !! Z.to_nat (cursor s') = Some 0x720 /\
    forall j, 0 <= j < cursor s - shift -> crt s' !! Z.to_nat j = crt s !! Z.to_nat (j + shift).
Proof.
  intros Hs Hc Hb. destruct (cgaputc_total c s Hs) as (s' & E & Hs' & _).
  destruct (cgaputc_ok c s Hs) as (cells & E2 & Hl & Hblank & Hj).
  pose proof (cursor_bounds s Hs) as Hcu. destruct Hs as (Hlen & _).
  assert (Hp : next_pos c (cursor s) = cursor s + 1).
  { unfold next_pos. by rewrite (proj2 (Z.eqb_neq c 10) Hc), (proj2 (Z.eqb_neq c BACKSPACE) Hb). }
  assert (Hcell : put_cell c (cursor s) (crt s) = <[Z.to_nat (cursor s) := Z.lor (Z.land c 0xff) 0x0700]> (crt s)).
  { unfold put_cell. by rewrite (proj2 (Z.eqb_neq c 10) Hc), (proj2 (Z.eqb_neq c BACKSPACE) Hb). }
  rewrite Hp, Hcell in *. set (shift := if _ <? _ then 0 else 80) in *.
  assert (Hsh : (shift = 0 /\ cursor s + 1 < 1920) \/ (shift = 80 /\ cursor s + 1 = 1920)).
  { unfold shift. destruct (Z.ltb_spec (cursor s + 1) 1920); lia. }
  clearbody shift. rewrite E in E2. injection E2 as ->.
  assert (Hcur : cursor (s <| crt := cells |> <| cursor_hi := u8 (Z.shiftr (cursor s + 1 - shift) 8) |>
    <| cursor_lo := u8 (cursor s + 1 - shift) |>) = cursor s + 1 - shift) by (apply cursor_split; lia).
  eexists _, shift. split; [exact E|]. rewrite Hcur. cbn [crt setf].
  split_and!; [done|lia|done| |done|].
  - rewrite Hj by lia. rewrite Z.sub_add. apply list_lookup_insert_eq. lia.
  - intros j Hjl. rewrite Hj, list_lookup_insert_ne by lia. done.
Qed.

(** C18: the interrupt handler implements the line editor for every sequence
    of keys: control-U kills the line, backspace takes back its last
    character, a newline (or carriage return), control-D or a full buffer
    commits it; a reader is woken exactly when text was committed. *)
Theorem consoleintr_edits keys s ed :
  editing s ed -> Forall byte_ok keys ->
  exists s' w d, consoleintr keys s = Done (s', w, d) /\ editing s' (edit_all keys ed) /\
    (w = true <-> committed (edit_all keys ed) <> committed ed).
Proof. apply consoleintr_ok. Qed.

(** a read takes characters from the front of the committed text up to
    the number asked for, a newline (which it delivers) or control-D (which
    ends the read, and is kept for the next read unless nothing was
    delivered); with nothing committed it sleeps, or fails when the process
    is killed.  The line being edited is not touched. *)
Theorem consoleread_takes n killed i cs ps :
  edits i (mkEditor cs ps) -> 0 <= n < 2 ^ 31 ->
  exists i' d cs' e, consoleread n killed i = Some (i', d, e) /\
    reads n killed (Z.to_nat n) cs d cs' e /\ edits i' (mkEditor cs' ps).
Proof.
  intros He Hn. unfold consoleread. rewrite (proj2 (Z.ltb_ge n 0)), u32_small by lia.
  apply consoleread_loop_ok; [done|lia].
Qed.

(** ** Witnesses: an empty screen; the keys "ab", backspace, "c", return *)
Definition demo_console : console :=
  mkConsole (replicate 2000 0) 7 127 true [] false (mkInput (replicate 128 0) (2 ^ 32 - 1) (2 ^ 32 - 1) (2 ^ 32 - 1)).

Lemma demo_works : works demo_console.
Proof. unfold works, screen_ok, cursor, byte_ok. vm_compute. split_and!; done. Qed.

Lemma demo_edits : edits (input demo_console) (mkEditor [] []).
Proof. unfold edits. split_and!; [reflexivity|done|done|simpl; lia|reflexivity|reflexivity|simpl; lia]. Qed.

Lemma cgaputc_shows_witness :
  exists s' shift, cgaputc 65 demo_console = Done s' /\ screen_ok s' /\ (shift = 0 \/ shift = 80) /\
    cursor s' = 1919 + 1 - shift /\ crt s' !! Z.to_nat (1919 - shift) = Some 0x741.
Proof.
  destruct (cgaputc_shows 65 demo_console) as (s' & sh & H1 & H2 & H3 & H4 & H5 & _);
    [apply demo_works|lia|unfold BACKSPACE; lia|].
  exists s', sh. split_and!; [exact H1|exact H2..|exact H3|exact H4|exact H5].
Defined.

Lemma consoleintr_edits_witness :
  exists s' w d, consoleintr [97; 98; 8; 99; 13] demo_console = Done (s', w, d) /\
    editing s' (mkEditor [97; 99; 10] []) /\ (w = true <-> [97; 99; 10] <> []).
Proof.
  apply (consoleintr_edits [97; 98; 8; 99; 13] demo_console (mkEditor [] [])).
  - split; [apply demo_works|]. split; [apply demo_edits|constructor].
  - repeat constructor; unfold byte_ok; lia.
Defined.

Lemma consoleread_takes_witness :
  exists i' d cs' e, consoleread 10 false (input demo_console) = Some (i', d, e) /\
    reads 10 false 10 [] d cs' e /\ edits i' (mkEditor cs' []).
Proof. apply (consoleread_takes 10 false (input demo_console) [] []); [apply demo_edits|lia]. Defined.

Lemma cprintf_renders_witness :
  exists outs s', cprintf 20 Printf.demo_fmt 300 ([2147483648; 200; 255] ++ []) demo_console = Done s' /\
    Forall2 cprints Printf.demo_pieces outs /\ printed demo_console (concat outs) s'.
Proof.
  apply (cprintf_renders 20 Printf.demo_fmt 300 Printf.demo_pieces [] demo_console).
  - apply demo_works.
  - lia.
  - repeat (apply Forall_cons; split); [exact I|split; lia| |exact I|split; lia|apply Forall_nil; exact I].
    right. split; [lia|]. split; [vm_compute; reflexivity|repeat constructor; lia].
  - split; [vm_compute; reflexivity|simpl; repeat constructor; lia].
  - vm_compute. lia.
Defined.

End Console.
