(* ===== verification/Kbd.v ===== *)
(** * Kbd: the PC keyboard (kbd.c, kbd.h)

    [kbdgetc] reads a scan code from the controller and keeps the modifiers in
    a static variable.  The tables are the arrays of kbd.h, in order and with
    their designated initialisers.  The theorems, by evaluation over every
    modifier state and scan code, show that every table access is in bounds
    and what modifiers do; [kbdintr] feeds the console's line editor. *)
From S2P Require Import Prelude Str Printf Console.

Module Kbd.

(** ** kbd.h *)
Definition KBS_DIB : Z := 0x01.
Definition SHIFT : Z := 1.
Definition CTL : Z := 2.
Definition ALT : Z := 4.
Definition CAPSLOCK : Z := 8.
Definition NUMLOCK : Z := 16.
Definition SCROLLLOCK : Z := 32.
Definition E0ESC : Z := 64.
Definition KEY_HOME : Z := 0xE0.
Definition KEY_END : Z := 0xE1.
Definition KEY_UP : Z := 0xE2.
Definition KEY_DN : Z := 0xE3.
Definition KEY_LF : Z := 0xE4.
Definition KEY_RT : Z := 0xE5.
Definition KEY_PGUP : Z := 0xE6.
Definition KEY_PGDN : Z := 0xE7.
Definition KEY_INS : Z := 0xE8.
Definition KEY_DEL : Z := 0xE9.

(** [uchar t[256] = { first..., [i] v, ... }], the values converted to
    [uchar] (control-slash is -17). *)
Definition table (first : list Z) (rest : list (Z * Z)) : list Z :=
  foldl (fun t iv => <[Z.to_nat iv.1 := u8 iv.2]> t) (resize 256 0 (u8 <$> first)) rest.

Definition shiftcode : list Z :=
  table [] [(0x1D, CTL); (0x2A, SHIFT); (0x36, SHIFT); (0x38, ALT); (0x9D, CTL); (0xB8, ALT)].
Definition togglecode : list Z := table [] [(0x3A, CAPSLOCK); (0x45, NUMLOCK); (0x46, SCROLLLOCK)].

Definition normalmap : list Z :=
  table [
   0; 27; 49; 50; 51; 52; 53; 54;
   55; 56; 57; 48; 45; 61; 8; 9;
   113; 119; 101; 114; 116; 121; 117; 105;
   111; 112; 91; 93; 10; 0; 97; 115;
   100; 102; 103; 104; 106; 107; 108; 59;
   39; 96; 0; 92; 122; 120; 99; 118;
   98; 110; 109; 44; 46; 47; 0; 42;
   0; 32; 0; 0; 0; 0; 0; 0;
   0; 0; 0; 0; 0; 0; 0; 55;
   56; 57; 45; 52; 53; 54; 43; 49;
   50; 51; 48; 46; 0; 0; 0; 0]
    [(0x9C, 10); (0xB5, 47); (0xC8, KEY_UP); (0xD0, KEY_DN); (0xC9, KEY_PGUP); (0xD1, KEY_PGDN); (0xCB, KEY_LF); (0xCD, KEY_RT); (0x97, KEY_HOME); (0xCF, KEY_END); (0xD2, KEY_INS); (0xD3, KEY_DEL)].
Definition shiftmap : list Z :=
  table [
   0; 27; 33; 64; 35; 36; 37; 94;
   38; 42; 40; 41; 95; 43; 8; 9;
   81; 87; 69; 82; 84; 89; 85; 73;
   79; 80; 123; 125; 10; 0; 65; 83;
   68; 70; 71; 72; 74; 75; 76; 58;
   34; 126; 0; 124; 90; 88; 67; 86;
   66; 78; 77; 60; 62; 63; 0; 42;
   0; 32; 0; 0; 0; 0; 0; 0;
   0; 0; 0; 0; 0; 0; 0; 55;
   56; 57; 45; 52; 53; 54; 43; 49;
   50; 51; 48; 46; 0; 0; 0; 0]
    [(0x9C, 10); (0xB5, 47); (0xC8, KEY_UP); (0xD0, KEY_DN); (0xC9, KEY_PGUP); (0xD1, KEY_PGDN); (0xCB, KEY_LF); (0xCD, KEY_RT); (0x97, KEY_HOME); (0xCF, KEY_END); (0xD2, KEY_INS); (0xD3, KEY_DEL)].
Definition ctlmap : list Z :=
  table [
   0; 0; 0; 0; 0; 0; 0; 0;
   0; 0; 0; 0; 0; 0; 0; 0;
   17; 23; 5; 18; 20; 25; 21; 9;
   15; 16; 0; 0; 13; 0; 1; 19;
   4; 6; 7; 8; 10; 11; 12; 0;
   0; 0; 0; 28; 26; 24; 3; 22;
   2; 14; 13; 0; 0; -17; 0; 0]
    [(0x9C, 13); (0xB5, -17); (0xC8, KEY_UP); (0xD0, KEY_DN); (0xC9, KEY_PGUP); (0xD1, KEY_PGDN); (0xCB, KEY_LF); (0xCD, KEY_RT); (0x97, KEY_HOME); (0xCF, KEY_END); (0xD2, KEY_INS); (0xD3, KEY_DEL)].

(** ** kbd.c *)
Definition charcode : list (list Z) := [normalmap; shiftmap; ctlmap; ctlmap].

(** [kbdgetc] after the status check, with the scan code [data]: the
    character and the modifiers; [None] is an index out of a table. *)
Definition kbd_data (data shift : Z) : option (Z * Z) :=
  if data =? 0xE0 then Some (0, Z.lor shift E0ESC)
  else if negb (Z.land data 0x80 =? 0) then
    let data := if negb (Z.land shift E0ESC =? 0) then data else Z.land data 0x7F in
    code ← shiftcode !! Z.to_nat data;
    Some (0, Z.land shift (u32 (Z.lnot (Z.lor code E0ESC))))
  else
    let '(data, shift) :=
      if negb (Z.land shift E0ESC =? 0)
      then (Z.lor data 0x80, Z.land shift (u32 (Z.lnot E0ESC))) else (data, shift) in
    code ← shiftcode !! Z.to_nat data;
    toggle ← togglecode !! Z.to_nat data;
    let shift := Z.lxor (Z.lor shift code) toggle in
    map ← charcode !! Z.to_nat (Z.land shift (Z.lor CTL SHIFT));
    c ← map !! Z.to_nat data;
    let c :=
      if negb (Z.land shift CAPSLOCK =? 0) then
        if (97 <=? c) && (c <=? 122) then c + (65 - 97)
        else if (65 <=? c) && (c <=? 90) then c + (97 - 65) else c
      else c in
    Some (c, shift).

(** [st] and [data] are what the status and data ports read. *)
Definition kbdgetc (st data shift : Z) : option (Z * Z) :=
  if Z.land st KBS_DIB =? 0 then Some (-1, shift) else kbd_data data shift.

(** The values [getc] returns while the controller has scan codes. *)
Fixpoint kbd_keys (codes : list Z) (shift : Z) : option (list Z * Z) :=
  match codes with
  | [] => Some ([], shift)
  | d :: codes =>
    '(c, shift) ← kbdgetc 1 d shift;
    '(cs, shift) ← kbd_keys codes shift;
    Some (c :: cs, shift)
  end.

Definition kbdintr (codes : list Z) (shift : Z) (s : Console.console)
    : option (Console.outcome (Console.console * bool * bool) * Z) :=
  '(keys, shift) ← kbd_keys codes shift;
  Some (Console.consoleintr keys s, shift).

(** ** Checks over every modifier state and scan code *)
Definition all_states (f : Z -> Z -> bool) : bool :=
  forallb (fun shift => forallb (f shift) (seqZ 0 256)) (seqZ 0 128).

Lemma all_states_spec f shift data :
  all_states f = true -> 0 <= shift < 128 -> 0 <= data < 256 -> f shift data = true.
Proof.
  unfold all_states. intros H Hs Hd. rewrite forallb_forall in H.
  specialize (H shift). rewrite forallb_forall in H.
  apply H; apply list_elem_of_In, elem_of_seqZ; lia.
Qed.

Definition in_bounds (shift data : Z) : bool :=
  match kbd_data data shift with
  | Some (c, shift') => (0 <=? c) && (c <? 256) && (0 <=? shift') && (shift' <? 128)
  | None => false
  end.
Lemma in_bounds_all : all_states in_bounds = true.
Proof. vm_compute. reflexivity. Qed.

(** A letter key with and without shift and caps lock. *)
Definition letter_ok (data : Z) : bool :=
  match kbd_data data 0, kbd_data data SHIFT, kbd_data data CAPSLOCK, kbd_data data (Z.lor SHIFT CAPSLOCK) with
  | Some (c, _), Some (cs, _), Some (cc, _), Some (csc, _) =>
    if (97 <=? c) && (c <=? 122) then (cs =? c - 32) && (cc =? c - 32) && (csc =? c) else true
  | _, _, _, _ => false
  end.
Lemma letter_ok_all : forallb letter_ok (seqZ 0 256) = true.
Proof. vm_compute. reflexivity. Qed.

(** ** Theorems *)
Lemma kbd_data_ok data shift : byte_ok data -> 0 <= shift < 128 ->
  exists c shift', kbd_data data shift = Some (c, shift') /\ byte_ok c /\ 0 <= shift' < 128.
Proof.
  intros Hd Hs. pose proof (all_states_spec _ shift data in_bounds_all Hs Hd) as H.
  unfold in_bounds in H. destruct (kbd_data data shift) as [[c shift']|]; [|done].
  exists c, shift'. split; [done|]. unfold byte_ok. lia.
Qed.

Lemma kbd_keys_ok codes shift : bytes_ok codes -> 0 <= shift < 128 ->
  exists keys shift', kbd_keys codes shift = Some (keys, shift') /\ bytes_ok keys /\ 0 <= shift' < 128.
Proof.
  intros Hc. revert shift. induction Hc as [|d codes Hd Hc IH]; intros shift Hs.
  { exists [], shift. split_and!; first [done|lia|constructor]. }
  destruct (kbd_data_ok d shift Hd Hs) as (c & shift1 & E1 & Hb & Hs1).
  destruct (IH shift1 Hs1) as (keys & shift2 & E2 & Hk & Hs2).
  cbn [kbd_keys]. unfold kbdgetc. change (Z.land 1 KBS_DIB =? 0) with false. rewrite E1.
  cbn [mbind option_bind]. rewrite E2. exists (c :: keys), shift2. split_and!; [done|by constructor|lia|lia].
Qed.

(** a keyboard interrupt indexes its tables in bounds for every sequence
    of scan codes, and edits the console's line with the characters they
    stand for; the modifier state stays in its seven bits. *)
Theorem kbdintr_edits codes shift s ed :
  bytes_ok codes -> 0 <= shift < 128 -> Console.editing s ed ->
  exists keys shift' s' w d,
    kbd_keys codes shift = Some (keys, shift') /\ 0 <= shift' < 128 /\ bytes_ok keys /\
    kbdintr codes shift s = Some (Console.Done (s', w, d), shift') /\
    Console.editing s' (Console.edit_all keys ed).
Proof.
  intros Hc Hs He. destruct (kbd_keys_ok codes shift Hc Hs) as (keys & shift' & E & Hk & Hs').
  destruct (Console.consoleintr_ok keys s ed He Hk) as (s' & w & d & E2 & He' & _).
  exists keys, shift', s', w, d. unfold kbdintr. rewrite E. cbn [mbind option_bind]. rewrite E2.
  split_and!; [done|lia|lia|done|done|done].
Qed.

(** on every letter key, shift and caps lock each give the capital and
    both together the small letter. *)
Theorem kbd_letters data c shift' :
  byte_ok data -> kbd_data data 0 = Some (c, shift') -> 97 <= c <= 122 ->
  exists s1 s2 s3, kbd_data data SHIFT = Some (c - 32, s1) /\
    kbd_data data CAPSLOCK = Some (c - 32, s2) /\ kbd_data data (Z.lor SHIFT CAPSLOCK) = Some (c, s3).
Proof.
  intros Hd E Hc. pose proof letter_ok_all as H. rewrite forallb_forall in H.
  specialize (H data ltac:(apply list_elem_of_In, elem_of_seqZ; unfold byte_ok in Hd; lia)).
  unfold letter_ok in H. rewrite E in H.
  destruct (kbd_data data SHIFT) as [[cs s1]|]; [|done].
  destruct (kbd_data data CAPSLOCK) as [[cc s2]|]; [|done].
  destruct (kbd_data data (Z.lor SHIFT CAPSLOCK)) as [[csc s3]|]; [|done].
  rewrite (proj2 (andb_true_iff (97 <=? c) (c <=? 122))) in H by lia.
  exists s1, s2, s3. split_and!; do 2 f_equal; lia.
Qed.

(** ** Witnesses: scan codes of shift-h (with the release of shift), i, enter *)
Lemma kbdintr_edits_witness :
  exists keys shift' s' w d,
    kbd_keys [0x2A; 0x23; 0xAA; 0x17; 0x1C] 0 = Some (keys, shift') /\ 0 <= shift' < 128 /\ bytes_ok keys /\
    kbdintr [0x2A; 0x23; 0xAA; 0x17; 0x1C] 0 Console.demo_console = Some (Console.Done (s', w, d), shift') /\
    Console.editing s' (Console.edit_all keys (Console.mkEditor [] [])).
Proof.
  apply (kbdintr_edits [0x2A; 0x23; 0xAA; 0x17; 0x1C] 0 Console.demo_console (Console.mkEditor [] [])).
  - repeat constructor; unfold byte_ok; lia.
  - lia.
  - split; [apply Console.demo_works|]. split; [apply Console.demo_edits|constructor].
Defined.

(** The keys are "H", "i", newline, with two silent codes for the modifier. *)
Example kbd_types : kbd_keys [0x2A; 0x23; 0xAA; 0x17; 0x1C] 0 = Some ([0; 72; 0; 105; 10], 0).
Proof. vm_compute. reflexivity. Qed.

Lemma kbd_letters_witness :
  exists s1 s2 s3, kbd_data 0x23 SHIFT = Some (104 - 32, s1) /\
    kbd_data 0x23 CAPSLOCK = Some (104 - 32, s2) /\ kbd_data 0x23 (Z.lor SHIFT CAPSLOCK) = Some (104, s3).
Proof.
  apply (kbd_letters 0x23 104 0); [unfold byte_ok; lia|vm_compute; reflexivity|lia].
Defined.

End Kbd.
