(* ===== verification/Spinlock.v ===== *)
(** * Spinlock: spin-locks on several CPUs (spinlock.c)

    Kalloc models [acquire] and [release] as kernel code on one CPU sees them.
    This file models what they do on the machine (without the debugging
    fields [name] and [pcs] of the lock): the atomic exchange on
    [lk->locked], the interrupt flag and the nesting of [pushcli], with one
    step per memory access that other CPUs can see.  The invariant of the
    interleavings gives mutual exclusion, interrupts off while a lock is held,
    and that [acquire] and [release] never panic in code that takes and
    releases its locks in pairs. *)
From S2P Require Import Prelude.

Module Spinlock.

(** ** Interrupts: [pushcli] and [popcli] *)
Record cpu : Type := mkCpu {
  if_flag : bool;     (* FL_IF of the CPU's eflags *)
  ncli : Z;
  intena : bool;
}.
#[export] Instance eta_cpu : Eta cpu := fun c => mkCpu (if_flag c) (ncli c) (intena c).

Definition pushcli (c : cpu) : cpu :=
  let eflags := if_flag c in
  let c := c <| if_flag := false |> in
  let c := if ncli c =? 0 then c <| intena := eflags |> else c in
  c <| ncli := ncli c + 1 |>.

(** [None]: a panic. *)
Definition popcli (c : cpu) : option cpu :=
  if if_flag c then None else
  let c := c <| ncli := ncli c - 1 |> in
  if ncli c <? 0 then None else
  Some (if (ncli c =? 0) && intena c then c <| if_flag := true |> else c).

(** ** The lock and its steps *)
Record spinlock : Type := mkSpinlock {
  locked : Z;
  lk_cpu : option nat;
}.
#[export] Instance eta_spinlock : Eta spinlock := fun l => mkSpinlock (locked l) (lk_cpu l).

Definition initlock : spinlock := mkSpinlock 0 None.

(** [holding]: its [pushcli] and [popcli] are balanced around the test. *)
Definition holding (lk : spinlock) (me : nat) (c : cpu) : option (bool * cpu) :=
  let c := pushcli c in
  let r := negb (locked lk =? 0) && bool_decide (lk_cpu lk = Some me) in
  c ← popcli c; Some (r, c).

(** [xchg(&lk->locked, 1)]: the old value. *)
Definition xchg (lk : spinlock) (newval : Z) : Z * spinlock := (locked lk, lk <| locked := newval |>).

(** [acquire] up to its loop. *)
Definition acquire_enter (lk : spinlock) (me : nat) (c : cpu) : option cpu :=
  let c := pushcli c in
  '(h, c) ← holding lk me c;
  if (h : bool) then None else Some c.

(** One turn of [while(xchg(&lk->locked, 1) != 0);]: is the lock taken? *)
Definition acquire_try (lk : spinlock) : bool * spinlock :=
  let '(old, lk) := xchg lk 1 in (old =? 0, lk).

(** [lk->cpu = mycpu();] *)
Definition acquire_record (lk : spinlock) (me : nat) : spinlock := lk <| lk_cpu := Some me |>.

(** [release] up to the store of [lk->locked]. *)
Definition release_enter (lk : spinlock) (me : nat) (c : cpu) : option (spinlock * cpu) :=
  '(h, c) ← holding lk me c;
  if (h : bool) then Some (lk <| lk_cpu := None |>, c) else None.

(** [movl $0, lk->locked; popcli();] *)
Definition release_store (lk : spinlock) : spinlock := lk <| locked := 0 |>.

(** ** [getcallerpcs]: the saved program counters along the %ebp chain *)
Definition KERNBASE : Z := 0x80000000.

Fixpoint caller_chain (n : nat) (word : Z -> Z) (ebp : Z) : list Z :=
  match n with
  | O => []
  | S n' =>
    if (ebp =? 0) || (ebp <? KERNBASE) || (ebp =? 0xffffffff) then []
    else word (u32 (ebp + 4)) :: caller_chain n' word (word ebp)
  end.

Definition getcallerpcs (word : Z -> Z) (v : Z) : list Z :=
  let pcs := caller_chain 10 word (u32 (v - 8)) in
  pcs ++ replicate (10 - length pcs) 0.

(** ** Interleavings

    The code on a CPU is between two calls ([Running]) or inside [acquire] or
    [release]; it owes a [release] for every lock in [held] and a [popcli] for
    each of its own [pushes]. *)
Inductive control : Type := Running | Spinning (l : nat) | Won (l : nat) | Releasing (l : nat).

Record core : Type := mkCore { flags : cpu; at_ : control; held : list nat; pushes : nat }.
#[export] Instance eta_core : Eta core := fun k => mkCore (flags k) (at_ k) (held k) (pushes k).

Record machine : Type := mkMachine { locks : gmap nat spinlock; cores : gmap nat core }.

Inductive step : machine -> machine -> Prop :=
  | step_push ls cs me k :
      cs !! me = Some k -> at_ k = Running ->
      step (mkMachine ls cs)
        (mkMachine ls (<[me := k <| flags := pushcli (flags k) |> <| pushes := S (pushes k) |>]> cs))
  | step_pop ls cs me k n f :
      cs !! me = Some k -> at_ k = Running -> pushes k = S n -> popcli (flags k) = Some f ->
      step (mkMachine ls cs) (mkMachine ls (<[me := k <| flags := f |> <| pushes := n |>]> cs))
  | step_acquire ls cs me k l lk f :
      cs !! me = Some k -> at_ k = Running -> ls !! l = Some lk ->
      acquire_enter lk me (flags k) = Some f ->
      step (mkMachine ls cs) (mkMachine ls (<[me := k <| flags := f |> <| at_ := Spinning l |>]> cs))
  | step_xchg ls cs me k l lk b lk' :
      cs !! me = Some k -> at_ k = Spinning l -> ls !! l = Some lk -> acquire_try lk = (b, lk') ->
      step (mkMachine ls cs)
        (mkMachine (<[l := lk']> ls) (<[me := k <| at_ := if b then Won l else Spinning l |>]> cs))
  | step_record ls cs me k l lk :
      cs !! me = Some k -> at_ k = Won l -> ls !! l = Some lk ->
      step (mkMachine ls cs)
        (mkMachine (<[l := acquire_record lk me]> ls)
           (<[me := k <| at_ := Running |> <| held := l :: held k |>]> cs))
  | step_release ls cs me k l lk lk' f :
      cs !! me = Some k -> at_ k = Running -> ls !! l = Some lk -> l ∈ held k ->
      release_enter lk me (flags k) = Some (lk', f) ->
      step (mkMachine ls cs)
        (mkMachine (<[l := lk']> ls)
           (<[me := k <| flags := f |> <| at_ := Releasing l |> <| held := filter (fun x => x <> l) (held k) |>]> cs))
  | step_store ls cs me k l lk f :
      cs !! me = Some k -> at_ k = Releasing l -> ls !! l = Some lk -> popcli (flags k) = Some f ->
      step (mkMachine ls cs)
        (mkMachine (<[l := release_store lk]> ls) (<[me := k <| flags := f |> <| at_ := Running |>]> cs)).

(** All locks free, all CPUs with interrupts in any state and no lock. *)
Definition initial (s : machine) : Prop :=
  (forall l lk, locks s !! l = Some lk -> lk = initlock) /\
  (forall me k, cores s !! me = Some k ->
     at_ k = Running /\ held k = [] /\ pushes k = 0%nat /\ ncli (flags k) = 0).

Definition reachable (s : machine) : Prop := exists s0, initial s0 /\ rtc step s0 s.

(** ** The invariant *)

(** The CPU owns the lock word. *)
Definition inside (k : core) (l : nat) : Prop := at_ k = Won l \/ at_ k = Releasing l \/ l ∈ held k.

Definition busy (k : core) : Z := match at_ k with Running => 0 | _ => 1 end.

Record core_ok (k : core) : Prop := {
  core_nodup : NoDup (held k);
  core_ncli : ncli (flags k) = Z.of_nat (length (held k)) + Z.of_nat (pushes k) + busy k;
  core_if : if_flag (flags k) = true -> ncli (flags k) = 0;
  core_won : forall l, at_ k = Won l -> l ∉ held k;
  core_rel : forall l, at_ k = Releasing l -> l ∉ held k;
}.

Record inv (s : machine) : Prop := {
  inv_core : forall me k, cores s !! me = Some k -> core_ok k;
  inv_mutex : forall l a b ka kb, cores s !! a = Some ka -> cores s !! b = Some kb ->
    inside ka l -> inside kb l -> a = b;
  inv_locked : forall l lk a k, locks s !! l = Some lk -> cores s !! a = Some k -> inside k l -> locked lk <> 0;
  inv_owner : forall l lk a k, locks s !! l = Some lk -> cores s !! a = Some k ->
    (lk_cpu lk = Some a <-> l ∈ held k);
  inv_taken : forall l lk, locks s !! l = Some lk -> locked lk <> 0 ->
    exists a k, cores s !! a = Some k /\ inside k l;
}.

(** ** Lemmas on interrupts *)
Lemma pushcli_ok c : 0 <= ncli c -> (if_flag c = true -> ncli c = 0) ->
  ncli (pushcli c) = ncli c + 1 /\ if_flag (pushcli c) = false.
Proof. intros. unfold pushcli. by destruct (ncli c =? 0) eqn:E; cbn [ncli if_flag intena setf]; rewrite E. Qed.

Lemma popcli_ok c : 0 < ncli c -> if_flag c = false ->
  exists c', popcli c = Some c' /\ ncli c' = ncli c - 1 /\ (if_flag c' = true -> ncli c' = 0) /\
    if_flag c' = (ncli c - 1 =? 0) && intena c /\ intena c' = intena c.
Proof.
  intros Hn Hi. unfold popcli. rewrite Hi. cbn [ncli setf if_flag intena].
  rewrite (proj2 (Z.ltb_ge _ 0)) by lia. eexists. split; [done|].
  destruct (Z.eqb_spec (ncli c - 1) 0), (intena c) eqn:E; cbn [andb ncli setf if_flag intena]; rewrite ?Hi, ?E; naive_solver.
Qed.

(** [popcli] undoes [pushcli]. *)
Lemma push_pop c : 0 <= ncli c -> (if_flag c = true -> ncli c = 0) ->
  exists c', popcli (pushcli c) = Some c' /\ ncli c' = ncli c /\ if_flag c' = if_flag c.
Proof.
  intros Hn Hi. destruct (pushcli_ok c Hn Hi) as [E1 E2].
  destruct (popcli_ok (pushcli c)) as (c' & -> & E3 & _ & E4 & _); [lia|done|].
  exists c'. split_and!; [done|lia|]. rewrite E4, E1, Z.add_simpl_r.
  unfold pushcli. destruct (Z.eqb_spec (ncli c) 0) as [H0|H0]; cbn [andb ncli setf if_flag intena].
  - rewrite H0. done.
  - destruct (if_flag c); [by destruct H0; apply Hi|done].
Qed.

Lemma holding_ok lk me c : 0 <= ncli c -> (if_flag c = true -> ncli c = 0) ->
  exists c', holding lk me c = Some (negb (locked lk =? 0) && bool_decide (lk_cpu lk = Some me), c') /\
    ncli c' = ncli c /\ if_flag c' = if_flag c.
Proof. intros. unfold holding. destruct (push_pop c) as (c' & -> & ? & ?); [done..|]. by exists c'. Qed.

(** ** Preservation *)

Ltac at_core H := first [rewrite lookup_insert_eq in H | rewrite lookup_insert_ne in H by done].

(** Only [me] and the words of the locks it owns change. *)
Lemma inv_update ls cs ls' me k k' :
  inv (mkMachine ls cs) -> cs !! me = Some k -> core_ok k' ->
  (forall l, inside k' l -> inside k l \/ forall b kb, cs !! b = Some kb -> ~ inside kb l) ->
  (forall l lk', ls' !! l = Some lk' -> exists lk, ls !! l = Some lk /\
     (locked lk <> 0 -> locked lk' <> 0 \/ inside k l) /\ (inside k' l -> locked lk' <> 0) /\
     (lk_cpu lk' = Some me <-> l ∈ held k') /\
     (forall b kb, b <> me -> cs !! b = Some kb -> lk_cpu lk' = Some b <-> lk_cpu lk = Some b) /\
     (locked lk' <> 0 -> inside k' l \/ (locked lk <> 0 /\ (inside k l -> inside k' l)))) ->
  inv (mkMachine ls' (<[me := k']> cs)).
Proof.
  intros [Hcore Hmutex Hlocked Howner Htaken] Hk Hok Hins Hlk. cbn [cores locks] in *. split; cbn [cores locks].
  - intros a ka Ha. destruct (decide (a = me)) as [->|]; at_core Ha; simplify_eq; eauto.
  - intros l a b ka kb Ha Hb Ia Ib.
    destruct (decide (a = me)) as [->|], (decide (b = me)) as [->|]; [done|..];
      at_core Ha; at_core Hb; simplify_eq.
    + destruct (Hins l Ia) as [Ik|Hn]; [by eapply Hmutex|by destruct (Hn b kb Hb)].
    + destruct (Hins l Ib) as [Ik|Hn]; [by eapply Hmutex|by destruct (Hn a ka Ha)].
    + by eapply Hmutex.
  - intros l lk' a ka Hl Ha Ia. destruct (Hlk l lk' Hl) as (lk & Hl0 & H1 & H2 & _).
    destruct (decide (a = me)) as [->|]; at_core Ha; simplify_eq; [auto|].
    destruct H1 as [H1|H1]; [by eapply Hlocked|done|]. by assert (a = me) by (by eapply Hmutex).
  - intros l lk' a ka Hl Ha. destruct (Hlk l lk' Hl) as (lk & Hl0 & _ & _ & H3 & H4 & _).
    destruct (decide (a = me)) as [->|]; at_core Ha; simplify_eq; [done|].
    rewrite (H4 a ka) by done. by eapply Howner.
  - intros l lk' Hl Hn. destruct (Hlk l lk' Hl) as (lk & Hl0 & _ & _ & _ & _ & H5).
    destruct (H5 Hn) as [Hi|[Hlk0 Hi]]; [exists me, k'; by rewrite lookup_insert_eq|].
    destruct (Htaken l lk Hl0 Hlk0) as (a & ka & Ha & Ia). destruct (decide (a = me)) as [->|].
    + simplify_eq. exists me, k'. rewrite lookup_insert_eq. auto.
    + exists a, ka. by rewrite lookup_insert_ne.
Qed.

(** The words of the locks stay. *)
Lemma inv_core_only ls cs me k k' :
  inv (mkMachine ls cs) -> cs !! me = Some k -> core_ok k' -> held k' = held k ->
  (forall l, inside k' l <-> inside k l) -> inv (mkMachine ls (<[me := k']> cs)).
Proof.
  intros Hinv Hk Hok Hh Hins. eapply inv_update; [done..|intros l; rewrite Hins; auto|].
  intros l lk Hl. exists lk. destruct Hinv as [_ _ Hlocked Howner _]. rewrite Hins.
  split_and!; [done|auto| | |done|auto].
  - intros Hi. by eapply Hlocked.
  - rewrite Hh. by eapply Howner.
Qed.

(** The word of one lock changes. *)
Lemma inv_one_lock ls cs me k k' l lk lk' :
  inv (mkMachine ls cs) -> cs !! me = Some k -> core_ok k' -> ls !! l = Some lk ->
  (forall x, x <> l -> inside k' x <-> inside k x) -> (forall x, x <> l -> x ∈ held k' <-> x ∈ held k) ->
  (inside k' l -> inside k l \/ forall b kb, cs !! b = Some kb -> ~ inside kb l) ->
  (locked lk <> 0 -> locked lk' <> 0 \/ inside k l) -> (inside k' l -> locked lk' <> 0) ->
  (lk_cpu lk' = Some me <-> l ∈ held k') ->
  (forall b kb, b <> me -> cs !! b = Some kb -> lk_cpu lk' = Some b <-> lk_cpu lk = Some b) ->
  (locked lk' <> 0 -> inside k' l \/ (locked lk <> 0 /\ (inside k l -> inside k' l))) ->
  inv (mkMachine (<[l := lk']> ls) (<[me := k']> cs)).
Proof.
  intros Hinv Hk Hok Hl Hx Hhx H1 H2 H3 H4 H5 H6. eapply inv_update; [done..| |].
  - intros x Hi. destruct (decide (x = l)) as [->|]; [auto|]. left. by apply Hx.
  - intros x lkx Hlx. destruct (decide (x = l)) as [->|].
    + rewrite lookup_insert_eq in Hlx. simplify_eq. exists lk. done.
    + rewrite lookup_insert_ne in Hlx by done. exists lkx. destruct Hinv as [_ _ Hlocked Howner _].
      rewrite Hx by done. split_and!; [done|auto| | |done|auto].
      * intros Hi. by eapply Hlocked.
      * rewrite Hhx by done. by eapply Howner.
Qed.

Lemma core_bounds k : core_ok k -> 0 <= ncli (flags k) /\ 0 <= busy k <= 1.
Proof. intros Hok. rewrite (core_ncli k Hok). unfold busy. destruct (at_ k); lia. Qed.

Lemma free_no_owner ls cs l lk :
  inv (mkMachine ls cs) -> ls !! l = Some lk -> locked lk = 0 ->
  forall b kb, cs !! b = Some kb -> ~ inside kb l.
Proof. intros Hinv Hl H0 b kb Hb Hi. by destruct (inv_locked _ Hinv l lk b kb Hl Hb Hi). Qed.

Ltac core_fields := constructor; cbn [flags at_ held pushes setf busy]; unfold busy; cbn [at_ setf].

Lemma filter_out_one (l : nat) (h : list nat) : NoDup h -> l ∈ h ->
  S (length (filter (fun x => x <> l) h)) = length h.
Proof.
  induction 1 as [|x h Hx Hnd IH]; intros Hin; [by inversion Hin|]. rewrite filter_cons.
  destruct (decide (x <> l)) as [Hne|He].
  - simpl. rewrite IH; [done|]. set_solver.
  - apply dec_stable in He as ->. simpl. do 2 f_equal. clear - Hx.
    induction h as [|y h IH]; [done|]. rewrite filter_cons, decide_True by set_solver. f_equal. apply IH. set_solver.
Qed.

(** What the invariant says of the CPU that moves. *)
Ltac mover Hinv Hk Hat Hok :=
  pose proof (inv_core _ Hinv _ _ Hk) as Hok; pose proof (core_bounds _ Hok) as [? _];
  pose proof (core_ncli _ Hok) as Hn; unfold busy in Hn; rewrite Hat in Hn.

Lemma popping k : core_ok k -> 0 < ncli (flags k) -> if_flag (flags k) = false.
Proof. intros Hok Hn. destruct (if_flag (flags k)) eqn:E; [|done]. apply (core_if k Hok) in E. lia. Qed.

Lemma acquire_inv ls cs me k l lk f :
  inv (mkMachine ls cs) -> cs !! me = Some k -> at_ k = Running -> acquire_enter lk me (flags k) = Some f ->
  inv (mkMachine ls (<[me := k <| flags := f |> <| at_ := Spinning l |>]> cs)).
Proof.
  intros Hinv Hk Hat Hacq. mover Hinv Hk Hat Hok. destruct (pushcli_ok (flags k)) as [E1 E2]; [done|apply Hok|].
  unfold acquire_enter in Hacq.
  destruct (holding_ok lk me (pushcli (flags k))) as (c' & Hh & E3 & E4); [lia|by rewrite E2|].
  rewrite Hh in Hacq. cbn [mbind option_bind] in Hacq. destruct (negb _ && _); [done|]. simplify_eq.
  eapply inv_core_only; [done..| |done|].
  - core_fields; rewrite ?E3, ?E4, ?E2; [apply Hok|lia|done|done|done].
  - intros x. unfold inside. cbn [at_ held setf]. rewrite Hat. naive_solver.
Qed.

Lemma xchg_inv ls cs me k l lk b lk' :
  inv (mkMachine ls cs) -> cs !! me = Some k -> at_ k = Spinning l -> ls !! l = Some lk ->
  acquire_try lk = (b, lk') ->
  inv (mkMachine (<[l := lk']> ls) (<[me := k <| at_ := if b then Won l else Spinning l |>]> cs)).
Proof.
  intros Hinv Hk Hat Hl Htry. mover Hinv Hk Hat Hok. pose proof (inv_owner _ Hinv l lk me k Hl Hk) as Ho.
  unfold acquire_try, xchg in Htry. simplify_eq. destruct (Z.eqb_spec (locked lk) 0) as [E0|E0].
  - pose proof (free_no_owner _ _ _ _ Hinv Hl E0) as Hfree. assert (Hf : l ∉ held k).
    { intros Hx. apply (Hfree me k Hk). by right; right. }
    eapply inv_one_lock; [exact Hinv|exact Hk| |exact Hl|..]; unfold inside; cbn [at_ held setf locked lk_cpu];
      rewrite ?Hat; try done.
    + core_fields; [apply Hok|lia|apply Hok|naive_solver|done].
    + intros x Hx. naive_solver.
    + intros _. right. exact Hfree.
    + intros _. by left; left.
  - eapply inv_one_lock; [exact Hinv|exact Hk| |exact Hl|..]; unfold inside; cbn [at_ held setf locked lk_cpu];
      rewrite ?Hat; try done.
    + core_fields; [apply Hok|lia|apply Hok|done|done].
    + by left.
    + by left.
    + by right.
Qed.

Lemma record_inv ls cs me k l lk :
  inv (mkMachine ls cs) -> cs !! me = Some k -> at_ k = Won l -> ls !! l = Some lk ->
  inv (mkMachine (<[l := acquire_record lk me]> ls)
         (<[me := k <| at_ := Running |> <| held := l :: held k |>]> cs)).
Proof.
  intros Hinv Hk Hat Hl. mover Hinv Hk Hat Hok.
  eapply inv_one_lock; [exact Hinv|exact Hk| |exact Hl|..]; unfold inside;
    cbn [at_ held setf locked lk_cpu acquire_record]; rewrite ?Hat; try done.
  - core_fields; [|simpl length; lia|apply Hok|done|done]. constructor; [by apply Hok|apply Hok].
  - intros x Hx. rewrite elem_of_cons. naive_solver.
  - intros x Hx. rewrite elem_of_cons. naive_solver.
  - by left; left.
  - by left.
  - intros _. eapply (inv_locked _ Hinv); [done..|]. by left.
  - rewrite elem_of_cons. naive_solver.
  - intros b kb Hb Eb. split; [naive_solver|]. intros E. eapply (inv_owner _ Hinv) in E; [|done..].
    destruct Hb. eapply (inv_mutex _ Hinv l); [done..| |]; [by right; right|by left].
  - intros _. left. right. right. by apply elem_of_cons; left.
Qed.

Lemma release_inv ls cs me k l lk lk' f :
  inv (mkMachine ls cs) -> cs !! me = Some k -> at_ k = Running -> ls !! l = Some lk -> l ∈ held k ->
  release_enter lk me (flags k) = Some (lk', f) ->
  inv (mkMachine (<[l := lk']> ls)
    (<[me := k <| flags := f |> <| at_ := Releasing l |> <| held := filter (fun x => x <> l) (held k) |>]> cs)).
Proof.
  intros Hinv Hk Hat Hl Hin Hrel. mover Hinv Hk Hat Hok. unfold release_enter in Hrel.
  destruct (holding_ok lk me (flags k)) as (c' & Hh & E1 & E2); [done|apply Hok|].
  rewrite Hh in Hrel. cbn [mbind option_bind] in Hrel. destruct (negb _ && _); [|done]. simplify_eq.
  pose proof (filter_out_one l (held k) (core_nodup k Hok) Hin) as Hlen.
  eapply inv_one_lock; [exact Hinv|exact Hk| |exact Hl|..]; unfold inside; cbn [at_ held setf locked lk_cpu];
    rewrite ?Hat; try done.
  - core_fields; [apply NoDup_filter, Hok|lia|rewrite E1, E2; apply Hok|done|].
    intros x [= <-]. rewrite list_elem_of_filter. naive_solver.
  - intros x Hx. rewrite list_elem_of_filter. naive_solver.
  - intros x Hx. rewrite list_elem_of_filter. naive_solver.
  - intros _. left. by right; right.
  - by left.
  - intros _. eapply (inv_locked _ Hinv); [done..|]. by right; right.
  - rewrite list_elem_of_filter. naive_solver.
  - intros b kb Hb Eb. split; [done|]. intros E. eapply (inv_owner _ Hinv) in E; [|done..].
    destruct Hb. eapply (inv_mutex _ Hinv l); [done..| |]; by right; right.
  - intros _. left. by right; left.
Qed.

Lemma store_inv ls cs me k l lk f :
  inv (mkMachine ls cs) -> cs !! me = Some k -> at_ k = Releasing l -> ls !! l = Some lk ->
  popcli (flags k) = Some f ->
  inv (mkMachine (<[l := release_store lk]> ls) (<[me := k <| flags := f |> <| at_ := Running |>]> cs)).
Proof.
  intros Hinv Hk Hat Hl Hpop. mover Hinv Hk Hat Hok. pose proof (core_rel k Hok l Hat) as Hnot.
  destruct (popcli_ok (flags k)) as (f' & E & E1 & E2 & _); [lia|apply popping; [done|lia]|].
  rewrite E in Hpop. simplify_eq.
  eapply inv_one_lock; [exact Hinv|exact Hk| |exact Hl|..]; unfold inside;
    cbn [at_ held setf locked lk_cpu release_store]; rewrite ?Hat; try done.
  - core_fields; [apply Hok|lia|done|done|done].
  - intros x Hx. naive_solver.
  - intros [?|[?|Hi]]; done.
  - intros _. right. by right; left.
  - intros [?|[?|Hi]]; done.
  - by eapply (inv_owner _ Hinv).
Qed.

Lemma step_inv s s' : inv s -> step s s' -> inv s'.
Proof.
  intros Hinv Hs. destruct Hs; eauto using acquire_inv, xchg_inv, record_inv, release_inv, store_inv.
  - mover Hinv H H0 Hok. destruct (pushcli_ok (flags k)) as [E1 E2]; [done|apply Hok|].
    eapply inv_core_only; [done..| |done|done]. core_fields; rewrite ?H0, ?E2; [apply Hok|lia|done|done|done].
  - mover Hinv H H0 Hok. destruct (popcli_ok (flags k)) as (f' & E & E1 & E2 & _);
      [lia|apply popping; [done|lia]|]. rewrite E in H2. simplify_eq.
    eapply inv_core_only; [done..| |done|done]. core_fields; rewrite ?H0; [apply Hok|lia|done|done|done].
Qed.

Lemma reachable_inv s : reachable s -> inv s.
Proof.
  intros (s0 & [Hl Hc] & Hsteps). assert (Hinv : inv s0).
  { split.
    - intros me k Hk. destruct (Hc me k Hk) as (Hat & Hh & Hp & Hn). split; rewrite ?Hh, ?Hp, ?Hn, ?Hat; try done.
      + constructor.
      + unfold busy. by rewrite Hat.
    - intros l a b ka kb Ha _ Hi _. destruct (Hc a ka Ha) as (Hat & Hh & _). unfold inside in Hi.
      rewrite Hat, Hh in Hi. set_solver.
    - intros l lk a k _ Ha Hi. destruct (Hc a k Ha) as (Hat & Hh & _). unfold inside in Hi.
      rewrite Hat, Hh in Hi. set_solver.
    - intros l lk a k Hlk Ha. rewrite (Hl l lk Hlk). destruct (Hc a k Ha) as (_ & -> & _). set_solver.
    - intros l lk Hlk Hn. by rewrite (Hl l lk Hlk) in Hn. }
  clear Hl Hc. induction Hsteps; eauto using step_inv.
Qed.

(** ** Steps that are always possible *)
Lemma acquire_enter_ok lk me k : core_ok k -> lk_cpu lk <> Some me ->
  exists f, acquire_enter lk me (flags k) = Some f.
Proof.
  intros Hok Ho. destruct (core_bounds k Hok) as [Hb _].
  destruct (pushcli_ok (flags k) Hb (core_if k Hok)) as [E1 E2]. unfold acquire_enter.
  destruct (holding_ok lk me (pushcli (flags k))) as (c' & -> & _); [lia|by rewrite E2|].
  cbn [mbind option_bind]. rewrite bool_decide_eq_false_2 by done. rewrite andb_false_r. eauto.
Qed.

Lemma release_enter_ok lk me k : core_ok k -> locked lk <> 0 -> lk_cpu lk = Some me ->
  exists f, release_enter lk me (flags k) = Some (lk <| lk_cpu := None |>, f) /\ ncli f = ncli (flags k).
Proof.
  intros Hok Hl Ho. destruct (core_bounds k Hok) as [Hb _]. unfold release_enter.
  destruct (holding_ok lk me (flags k) Hb (core_if k Hok)) as (c' & -> & E & _). cbn [mbind option_bind].
  rewrite (proj2 (Z.eqb_neq _ _) Hl), bool_decide_eq_true_2 by done. by exists c'.
Qed.

Lemma release_pop k l : core_ok k -> at_ k = Releasing l -> exists f, popcli (flags k) = Some f.
Proof.
  intros Hok Hat. pose proof (core_ncli k Hok) as Hn. unfold busy in Hn. rewrite Hat in Hn.
  destruct (popcli_ok (flags k)) as (f & E & _); [lia|apply popping; [done|lia]|]. eauto.
Qed.

(** The lock [l] can become free by steps of [me] alone. *)
Definition frees (s : machine) (l me : nat) : Prop :=
  exists s' lk, rtc step s s' /\ inv s' /\ locks s' !! l = Some lk /\ locked lk = 0 /\
    forall c, c <> me -> cores s' !! c = cores s !! c.

Lemma frees_step s s1 l me :
  step s s1 -> (forall c, c <> me -> cores s1 !! c = cores s !! c) -> frees s1 l me -> frees s l me.
Proof.
  intros Hs Hc (s' & lk & Hr & Hi & Hl & H0 & Hf). exists s', lk. split_and!; [by eapply rtc_l|done..|].
  intros c Hne. by rewrite Hf, Hc.
Qed.

Lemma frees_releasing s l me k lk :
  inv s -> cores s !! me = Some k -> at_ k = Releasing l -> locks s !! l = Some lk -> frees s l me.
Proof.
  destruct s as [ls cs]. cbn [cores locks]. intros Hinv Hk Hat Hl.
  destruct (release_pop k l (inv_core _ Hinv me k Hk) Hat) as [f Hf].
  eexists _, (release_store lk). split_and!; [by eapply rtc_once, step_store|by eapply store_inv| | |]; cbn [locks cores].
  - apply lookup_insert_eq.
  - done.
  - intros c Hc. by rewrite lookup_insert_ne.
Qed.

Lemma frees_held s l me k lk :
  inv s -> cores s !! me = Some k -> at_ k = Running -> l ∈ held k -> locks s !! l = Some lk -> frees s l me.
Proof.
  destruct s as [ls cs]. cbn [cores locks]. intros Hinv Hk Hat Hh Hl. pose proof (inv_core _ Hinv me k Hk) as Hok.
  assert (Hi : inside k l) by (by right; right).
  destruct (release_enter_ok lk me k Hok) as (f & Hf & _).
  { by eapply (inv_locked _ Hinv). } { by eapply (inv_owner _ Hinv). }
  eapply frees_step; [by eapply step_release| |].
  - cbn [cores]. intros c Hc. by rewrite lookup_insert_ne.
  - eapply frees_releasing; cbn [cores locks]; [by eapply release_inv|apply lookup_insert_eq|done|apply lookup_insert_eq].
Qed.

Lemma frees_won s l me k lk :
  inv s -> cores s !! me = Some k -> at_ k = Won l -> locks s !! l = Some lk -> frees s l me.
Proof.
  destruct s as [ls cs]. cbn [cores locks]. intros Hinv Hk Hat Hl.
  eapply frees_step; [by eapply step_record| |].
  - cbn [cores]. intros c Hc. by rewrite lookup_insert_ne.
  - eapply frees_held; cbn [cores locks]; [by eapply record_inv|apply lookup_insert_eq|done| |apply lookup_insert_eq].
    cbn [held setf]. by apply elem_of_cons; left.
Qed.

(** ** Theorems *)

(** C15: in every interleaving of the CPUs at most one holds a lock; its word
    is then set, and the holder runs with interrupts off. *)
Theorem spinlock_mutual_exclusion s l lk a b ka kb :
  reachable s -> locks s !! l = Some lk -> cores s !! a = Some ka -> cores s !! b = Some kb ->
  l ∈ held ka -> l ∈ held kb ->
  a = b /\ locked lk <> 0 /\ lk_cpu lk = Some a /\ if_flag (flags ka) = false.
Proof.
  intros Hr%reachable_inv Hl Ha Hb Ia Ib. assert (inside ka l) by (by right; right).
  assert (inside kb l) by (by right; right). pose proof (inv_core _ Hr a ka Ha) as Hok. split_and!.
  - by eapply (inv_mutex _ Hr).
  - by eapply (inv_locked _ Hr).
  - by eapply (inv_owner _ Hr).
  - apply popping; [done|]. rewrite (core_ncli _ Hok). pose proof (core_bounds _ Hok).
    destruct (held ka); [by inversion Ia|simpl; lia].
Qed.

(** code that pairs its calls never panics in [acquire], [release] or
    [popcli]; taking a lock the CPU holds panics. *)
Theorem spinlock_panics s me k l lk :
  reachable s -> cores s !! me = Some k -> locks s !! l = Some lk ->
  (l ∉ held k -> exists f, acquire_enter lk me (flags k) = Some f) /\
  (l ∈ held k -> acquire_enter lk me (flags k) = None) /\
  (l ∈ held k -> exists lk' f, release_enter lk me (flags k) = Some (lk', f)) /\
  (at_ k = Releasing l \/ pushes k <> 0%nat -> exists f, popcli (flags k) = Some f).
Proof.
  intros Hr%reachable_inv Hk Hl. pose proof (inv_core _ Hr me k Hk) as Hok.
  pose proof (inv_owner _ Hr l lk me k Hl Hk) as Ho. destruct (core_bounds k Hok) as [Hb Hbusy]. split_and!.
  - intros Hh. apply acquire_enter_ok; [done|]. by rewrite Ho.
  - intros Hh. destruct (pushcli_ok (flags k) Hb (core_if k Hok)) as [E1 E2]. unfold acquire_enter.
    destruct (holding_ok lk me (pushcli (flags k))) as (c' & -> & _); [lia|by rewrite E2|].
    cbn [mbind option_bind]. rewrite bool_decide_eq_true_2 by (by apply Ho). rewrite (proj2 (Z.eqb_neq (locked lk) 0)); [done|].
    eapply (inv_locked _ Hr); [done..|]. by right; right.
  - intros Hh. destruct (release_enter_ok lk me k Hok) as (f & E & _); [|by apply Ho|eauto].
    eapply (inv_locked _ Hr); [done..|]. by right; right.
  - intros [Hat|Hp]; [by eapply release_pop|]. pose proof (core_ncli k Hok).
    destruct (popcli_ok (flags k)) as (f & E & _); [lia|apply popping; [done|lia]|]. eauto.
Qed.

(** a CPU that spins can always still get the lock: when the code that
    holds it is not itself waiting, some continuation of the run releases it
    and lets the spinning CPU take it.  No lock is lost. *)
Theorem spinlock_progress s c k l lk :
  reachable s -> cores s !! c = Some k -> at_ k = Spinning l -> locks s !! l = Some lk ->
  (forall h kh, cores s !! h = Some kh -> l ∈ held kh -> at_ kh = Running) ->
  exists s' k', rtc step s s' /\ cores s' !! c = Some k' /\ l ∈ held k'.
Proof.
  intros Hr%reachable_inv Hc Hat Hl Hrun.
  assert (exists s1 lk1, rtc step s s1 /\ inv s1 /\ locks s1 !! l = Some lk1 /\ locked lk1 = 0 /\
    cores s1 !! c = Some k) as (s1 & lk1 & Hs1 & Hi1 & Hl1 & H0 & Hc1).
  { destruct (decide (locked lk = 0)) as [E|E]; [exists s, lk; by split_and!; [apply rtc_refl|..]|].
    destruct (inv_taken _ Hr l lk Hl E) as (h & kh & Hh & Hi).
    assert (Hf : frees s l h).
    { destruct Hi as [Hi|[Hi|Hi]]; [by eapply frees_won|by eapply frees_releasing|eapply frees_held; eauto]. }
    destruct Hf as (s1 & lk1 & ? & ? & ? & ? & Hsame). exists s1, lk1. split_and!; [done..|].
    rewrite Hsame; [done|]. intros ->. rewrite Hc in Hh. simplify_eq. destruct Hi as [Hi|[Hi|Hi]]; [congruence..|].
    rewrite (Hrun h kh Hc Hi) in Hat. done. }
  destruct s1 as [ls cs]. cbn [cores locks] in *. eexists _, (k <| at_ := Running |> <| held := l :: held k |>).
  split_and!.
  - etrans; [exact Hs1|]. eapply rtc_l.
    { eapply (step_xchg ls cs c k l lk1 true (lk1 <| locked := 1 |>)); [done..|].
      unfold acquire_try, xchg. by rewrite H0. }
    eapply rtc_once, (step_record _ _ c (k <| at_ := Won l |>) l); [apply lookup_insert_eq|done|apply lookup_insert_eq].
  - cbn [cores]. apply lookup_insert_eq.
  - cbn [held setf]. by apply elem_of_cons; left.
Qed.

(** Calls of [pushcli] ([true]) and [popcli] in order. *)
Fixpoint run_cli (ops : list bool) (c : cpu) : option cpu :=
  match ops with
  | [] => Some c
  | true :: ops => run_cli ops (pushcli c)
  | false :: ops => c ← popcli c; run_cli ops c
  end.

(** Every [pushcli] is followed by its [popcli]. *)
Inductive paired : list bool -> Prop :=
  | paired_nil : paired []
  | paired_call w : paired w -> paired (true :: w ++ [false])
  | paired_app u v : paired u -> paired v -> paired (u ++ v).

Lemma run_cli_app u v c : run_cli (u ++ v) c = (c ← run_cli u c; run_cli v c).
Proof.
  revert c. induction u as [|[] u IH]; intros c; cbn [app run_cli]; [done|done|].
  destruct (popcli c) as [c'|]; cbn [mbind option_bind]; [apply IH|done].
Qed.

(** paired calls of [pushcli] and [popcli], nested in any way, never
    panic and leave the interrupt flag and the depth as they were; when
    interrupts were off they stay off. *)
Theorem cli_nesting ops c :
  paired ops -> 0 <= ncli c -> (if_flag c = true -> ncli c = 0) ->
  exists c', run_cli ops c = Some c' /\ ncli c' = ncli c /\ if_flag c' = if_flag c /\
    (0 < ncli c -> intena c' = intena c).
Proof.
  intros Hp. revert c. induction Hp as [|w Hw IH|u v Hu IHu Hv IHv]; intros c Hn Hi.
  - by exists c.
  - cbn [run_cli]. destruct (pushcli_ok c Hn Hi) as [E1 E2].
    destruct (IH (pushcli c)) as (c1 & R & F1 & F2 & F3); [lia|by rewrite E2|].
    rewrite run_cli_app, R. cbn [mbind option_bind run_cli].
    destruct (popcli_ok c1) as (c2 & -> & G1 & _ & G2 & G3); [lia|by rewrite F2|].
    assert (F4 : intena c1 = intena (pushcli c)) by (apply F3; lia).
    exists c2. cbn [mbind option_bind]. rewrite G1, F1, E1, G2, F1, E1, G3, F4. rewrite Z.add_simpl_r.
    unfold pushcli. destruct (Z.eqb_spec (ncli c) 0) as [H0|H0]; cbn [andb ncli setf if_flag intena].
    + rewrite H0. split_and!; [done|done|done|lia].
    + rewrite (proj2 (Z.eqb_neq _ _) H0). split_and!; [done|done| |done].
      destruct (if_flag c); [by destruct H0; apply Hi|done].
  - destruct (IHu c Hn Hi) as (c1 & R1 & F1 & F2 & F3).
    destruct (IHv c1) as (c2 & R2 & G1 & G2 & G3); [lia|rewrite F1, F2; done|].
    exists c2. rewrite run_cli_app, R1. cbn [mbind option_bind]. rewrite G1, F1, G2, F2.
    split_and!; [done..|]. intros H. rewrite G3 by lia. by apply F3.
Qed.

(** [getcallerpcs] always fills its ten entries. *)
Lemma getcallerpcs_ten word v : length (getcallerpcs word v) = 10%nat.
Proof.
  unfold getcallerpcs. assert (H : forall n e, (length (caller_chain n word e) <= n)%nat).
  { induction n as [|n IH]; intros e; simpl; [lia|]. case_match; simpl; [lia|]. specialize (IH (word e)). lia. }
  specialize (H 10%nat (u32 (v - 8))). rewrite length_app, length_replicate. lia.
Qed.

(** ** Witnesses: two CPUs and one lock; CPU 0 takes it, CPU 1 spins *)
Definition idle : core := mkCore (mkCpu true 0 false) Running [] 0.
Definition demo0 : machine := mkMachine {[ 0%nat := initlock ]} {[ 0%nat := idle; 1%nat := idle ]}.
Definition off : cpu := mkCpu false 1 true.
Definition holder : core := mkCore off Running [0%nat] 0.
Definition waiter : core := mkCore off (Spinning 0) [] 0.
Definition demo1 : machine :=
  mkMachine {[ 0%nat := mkSpinlock 1 (Some 0%nat) ]} {[ 0%nat := holder; 1%nat := waiter ]}.

Lemma step_eq s t s' : step s t -> t = s' -> step s s'.
Proof. by intros ? ->. Qed.

Lemma demo1_reachable : reachable demo1.
Proof.
  exists demo0. split.
  - split; cbn [locks cores demo0].
    + intros l lk H. apply lookup_singleton_Some in H. naive_solver.
    + intros me k H. apply lookup_insert_Some in H as [[<- <-]|[_ H]]; [done|].
      apply lookup_singleton_Some in H as [<- <-]. done.
  - eapply rtc_l. { eapply (step_acquire _ _ 0%nat idle 0%nat initlock); done. }
    eapply rtc_l. { eapply (step_xchg _ _ 0%nat _ 0%nat initlock true); done. }
    eapply rtc_l. { eapply (step_record _ _ 0%nat _ 0%nat); done. }
    eapply rtc_once, step_eq; [eapply (step_acquire _ _ 1%nat idle 0%nat); done|vm_compute; reflexivity].
Qed.

Lemma spinlock_mutual_exclusion_witness :
  0%nat = 0%nat /\ locked (mkSpinlock 1 (Some 0%nat)) <> 0 /\
  lk_cpu (mkSpinlock 1 (Some 0%nat)) = Some 0%nat /\ if_flag (flags holder) = false.
Proof.
  apply (spinlock_mutual_exclusion demo1 0 (mkSpinlock 1 (Some 0%nat)) 0 0 holder holder);
    [apply demo1_reachable|reflexivity..| |]; constructor.
Defined.

Lemma spinlock_panics_witness :
  exists f, acquire_enter (mkSpinlock 1 (Some 0%nat)) 1 (flags waiter) = Some f.
Proof.
  apply (spinlock_panics demo1 1 waiter 0 (mkSpinlock 1 (Some 0%nat)));
    [apply demo1_reachable|reflexivity..|]. simpl. set_solver.
Defined.

Lemma spinlock_progress_witness :
  exists s' k', rtc step demo1 s' /\ cores s' !! 1%nat = Some k' /\ 0%nat ∈ held k'.
Proof.
  apply (spinlock_progress demo1 1 waiter 0 (mkSpinlock 1 (Some 0%nat)));
    [apply demo1_reachable|reflexivity..|].
  cbn [cores demo1]. intros h kh H Hin. apply lookup_insert_Some in H as [[<- <-]|[_ H]]; [reflexivity|].
  apply lookup_singleton_Some in H as [<- <-]. inversion Hin.
Defined.

Lemma cli_nesting_witness :
  exists c', run_cli [true; true; false; true; false; false] (mkCpu true 0 false) = Some c' /\
    ncli c' = 0 /\ if_flag c' = true /\ (0 < 0 -> intena c' = false).
Proof.
  apply (cli_nesting [true; true; false; true; false; false] (mkCpu true 0 false)); [|simpl; lia|simpl; lia].
  apply (paired_call ([true; false] ++ [true; false])).
  apply paired_app; apply (paired_call []); constructor.
Defined.

End Spinlock.
