(* ===== verification/NetUtils.v ===== *)
(** * NetUtils: byte order, dotted-quad parsing and the Internet checksum

    Models [htons], [htonl], [inet_addr] and [checksum] of netutils.c.  The
    theorems show that the byte-order functions are the byte reversal, that
    [inet_addr] inverts the dotted-quad printing of [sys_ifconfig], and that
    the incremental fold of [checksum] computes the RFC 1071 one's-complement
    sum, so that a packet carrying its own checksum verifies
    ([checksum_filled]). *)
From S2P Require Import Prelude.

(** ** netutils.c *)
Module NetUtils.

(** [for(i = 0; i < bytes; i++) { b = (n >> (i*8)) & 0xff;
     a |= b << (8*(bytes-i-1)); }] with [a] a [ushort]. *)
Definition htons (n : Z) : Z :=
  let bytes := 2 in
  foldl (fun a i =>
    let b := Z.land (Z.shiftr n (i * 8)) 0xff in
    u16 (Z.lor a (Z.shiftl b (8 * (bytes - i - 1)))))
  0 [0; 1].

Definition htonl (n : Z) : Z :=
  let bytes := 4 in
  foldl (fun a i =>
    let b := Z.land (Z.shiftr n (i * 8)) 0xff in
    u32 (Z.lor a (u32 (Z.shiftl b (8 * (bytes - i - 1))))))
  0 [0; 1; 2; 3].

(** The loop of [inet_addr] over the characters before the NUL; [ip] and
    [byte] are [int]s. *)
Fixpoint inet_addr_loop (ip_str : list Z) (ip byte : Z) : Z * Z :=
  match ip_str with
  | [] => (ip, byte)
  | c :: rest =>
    if c =? 46 (* '.' *)
    then inet_addr_loop rest (Z.lor (s32 (Z.shiftl ip 8)) byte) 0
    else inet_addr_loop rest ip (s32 (byte * 10 + (c - 48)))
  end.

(** [ip_str] is the C string without its terminating NUL. *)
Definition inet_addr (ip_str : list Z) : Z :=
  let '(ip, byte) := inet_addr_loop ip_str 0 0 in
  u32 (Z.lor (s32 (Z.shiftl ip 8)) byte).

(** [sum = (sum >> 16) + (sum & 0xffff)] on a [uint]. *)
Definition fold_carry (sum : Z) : Z := u32 (Z.shiftr sum 16 + Z.land sum 0xffff).

(** The [while (length > 1)] loop and the trailing [if(length > 0)], over the
    [length] bytes at [data]; a 16-bit load is little-endian. *)
Fixpoint checksum_loop (data : list Z) (sum : Z) : Z :=
  match data with
  | lo :: hi :: rest => checksum_loop rest (fold_carry (u32 (sum + (lo + 256 * hi))))
  | [lo] => fold_carry (u32 (sum + lo))
  | [] => sum
  end.

(** [None] is a read past the end of the object [data] points into. *)
Definition checksum (data : list Z) (len start : Z) : option Z :=
  if len <=? Z.of_nat (length data)
  then Some (u16 (Z.lnot (u16 (checksum_loop (take (Z.to_nat len) data) (u32 start)))))
  else None.

(** ** Reference definitions *)

(** The 16-bit words of a buffer, an odd last byte padded with zero. *)
Fixpoint words (data : list Z) : list Z :=
  match data with
  | lo :: hi :: rest => (lo + 256 * hi) :: words rest
  | [lo] => [lo]
  | [] => []
  end.
Definition total (data : list Z) : Z := foldr Z.add 0 (words data).

(** RFC 1071: the end-around-carry sum of a total, in one step. *)
Definition oc_sum (t : Z) : Z := if t =? 0 then 0 else (t - 1) `mod` 65535 + 1.

(** Decimal digits of a byte and the dotted quad of an address, as
    [sys_ifconfig] prints it. *)
Definition decimal (b : Z) : list Z :=
  if b <? 10 then [48 + b]
  else if b <? 100 then [48 + b `div` 10; 48 + b `mod` 10]
  else [48 + b `div` 100; 48 + (b `div` 10) `mod` 10; 48 + b `mod` 10].
Definition dotted_quad (a b c d : Z) : list Z :=
  decimal a ++ [46] ++ decimal b ++ [46] ++ decimal c ++ [46] ++ decimal d.

(** ** Byte order *)
Ltac byte_of z :=
  let b := fresh "b" in let H := fresh "Hb" in
  set (b := z) in *; assert (H : 0 <= b < 256) by (apply Z.mod_pos_bound; lia);
  clearbody b.

(** Evaluate the constant shift amounts left by the unrolled loops. *)
Ltac norm_exps :=
  repeat match goal with
  | |- context [2 ^ ?e] =>
    let v := eval vm_compute in e in progress change (2 ^ e) with (2 ^ v)
  end;
  change (2 ^ 0) with 1; rewrite ?Z.div_1_r, ?Z.mul_1_r;
  change (?n / 2 ^ 8) with (n / 256); change (?n / 2 ^ 16) with (n / 65536);
  change (?n / 2 ^ 24) with (n / 16777216).

Lemma htons_eq n : htons n = 256 * (n `mod` 256) + (n `div` 256) `mod` 256.
Proof.
  unfold htons; simpl foldl. rewrite !land_ff, !Z.shiftr_div_pow2 by lia.
  rewrite !Z.shiftl_mul_pow2 by lia. norm_exps.
  byte_of (n `mod` 256). byte_of ((n `div` 256) `mod` 256).
  rewrite Z.lor_0_l, (u16_small (b * _)) by (widths; lia).
  rewrite lor_mul_add by (widths; lia).
  rewrite u16_small; widths; lia.
Qed.

Lemma htonl_eq n : htonl n =
  16777216 * (n `mod` 256) + 65536 * ((n `div` 256) `mod` 256)
  + 256 * ((n `div` 65536) `mod` 256) + (n `div` 16777216) `mod` 256.
Proof.
  unfold htonl; simpl foldl. rewrite !land_ff, !Z.shiftr_div_pow2 by lia.
  rewrite !Z.shiftl_mul_pow2 by lia. norm_exps.
  byte_of (n `mod` 256). byte_of ((n `div` 256) `mod` 256).
  byte_of ((n `div` 65536) `mod` 256). byte_of ((n `div` 16777216) `mod` 256).
  rewrite Z.lor_0_l, !(u32_small (_ * _)), (u32_small b2) by (widths; lia).
  rewrite lor_mul_add by (widths; lia).
  rewrite (u32_small (b * _ + _)) by (widths; lia).
  replace (b * 2 ^ 24 + b0 * 2 ^ 16) with ((b * 256 + b0) * 2 ^ 16) by (widths; lia).
  rewrite lor_mul_add by (widths; lia).
  rewrite (u32_small ((b * 256 + b0) * _ + _)) by (widths; lia).
  replace ((b * 256 + b0) * 2 ^ 16 + b1 * 2 ^ 8)
    with ((b * 65536 + b0 * 256 + b1) * 2 ^ 8) by (widths; lia).
  rewrite lor_mul_add by (widths; lia).
  rewrite u32_small; widths; lia.
Qed.

Lemma htons_range n : 0 <= htons n < 65536.
Proof. rewrite htons_eq. zlia. Qed.
Lemma htonl_range n : 0 <= htonl n < 2 ^ 32.
Proof. rewrite htonl_eq. zlia. Qed.
Lemma htons_htons n : htons (htons n) = u16 n.
Proof. rewrite !htons_eq. zlia. Qed.
Lemma htonl_htonl n : htonl (htonl n) = u32 n.
Proof. rewrite !htonl_eq. zlia. Qed.
Lemma le16_htons n : le16 (htons n) = reverse (le16 n).
Proof. rewrite htons_eq. unfold le16. repeat apply (f_equal2 cons); first [done | zlia]. Qed.
Lemma le32_htonl n : le32 (htonl n) = reverse (le32 n).
Proof. rewrite htonl_eq. unfold le32. repeat apply (f_equal2 cons); first [done | zlia]. Qed.

(** ** The one's-complement sum *)
Lemma oc_sum_range t : 0 <= t -> 0 <= oc_sum t <= 65535.
Proof. intros. unfold oc_sum. case_match; zlia. Qed.
Lemma oc_sum_small t : 0 <= t <= 65535 -> oc_sum t = t.
Proof. intros. unfold oc_sum. case_match; zlia. Qed.
Lemma oc_sum_idemp a b : 0 <= a -> 0 <= b -> oc_sum (oc_sum a + b) = oc_sum (a + b).
Proof.
  intros. pose proof (oc_sum_range a). unfold oc_sum in *.
  repeat case_match; rewrite ?Z.eqb_eq, ?Z.eqb_neq in *; zlia.
Qed.
Lemma oc_sum_pos t : 0 < t -> 0 < oc_sum t.
Proof. intros. unfold oc_sum. case_match; zlia. Qed.

Lemma fold_carry_eq s : 0 <= s < 2 ^ 32 -> fold_carry s = s `div` 65536 + s `mod` 65536.
Proof.
  intros. unfold fold_carry. rewrite Z.shiftr_div_pow2, land_ffff by lia. zlia.
Qed.
Lemma fold_carry_oc s : 0 <= s <= 131070 -> fold_carry s = oc_sum s.
Proof.
  intros. rewrite fold_carry_eq by (widths; lia). unfold oc_sum. case_match; zlia.
Qed.
Lemma oc_sum_fold_carry s : 0 <= s < 2 ^ 32 -> oc_sum (fold_carry s) = oc_sum s.
Proof. intros. rewrite fold_carry_eq by done. unfold oc_sum. repeat case_match; zlia. Qed.

Lemma total_nonneg d : bytes_ok d -> 0 <= total d.
Proof.
  unfold total. induction d as [|x|x y l IH] using list_pair_ind; simpl; intros H;
    rewrite ?Forall_cons in H; unfold byte_ok in H; [lia..|].
  destruct H as (?&?&Hl). specialize (IH Hl). lia.
Qed.

Lemma total_app_even a b : Nat.Even (length a) -> total (a ++ b) = total a + total b.
Proof.
  unfold total. induction a as [|x|x y l IH] using list_pair_ind; simpl; intros He.
  - done.
  - destruct He as [k ?]; lia.
  - rewrite IH; [lia|]. by apply Nat.Even_succ_succ.
Qed.

Lemma total_le16 v : total (le16 v) = u16 v.
Proof. unfold total, le16; simpl. zlia. Qed.

(** The loop keeps the one's-complement sum of start and data... *)
Lemma checksum_loop_oc d s : bytes_ok d -> 0 <= s < 2 ^ 31 ->
  0 <= checksum_loop d s < 2 ^ 31 /\ oc_sum (checksum_loop d s) = oc_sum (s + total d).
Proof.
  revert s. unfold total. induction d as [|x|x y l IH] using list_pair_ind; simpl;
    intros s H Hs; rewrite ?Forall_cons in H; unfold byte_ok in H.
  - by rewrite Z.add_0_r.
  - rewrite Z.add_0_r, u32_small by (widths; lia). split.
    + rewrite fold_carry_eq by (widths; lia). zlia.
    + apply oc_sum_fold_carry. widths; lia.
  - destruct H as (?&?&Hl). rewrite u32_small by (widths; lia).
    assert (0 <= fold_carry (s + (x + 256 * y)) < 2 ^ 31).
    { rewrite fold_carry_eq by (widths; lia). zlia. }
    destruct (IH _ Hl H1) as [? ->]. split; [done|].
    pose proof (total_nonneg l Hl). unfold total in *.
    rewrite <- oc_sum_idemp, oc_sum_fold_carry, oc_sum_idemp by (widths; lia).
    f_equal. lia.
Qed.

(** ... and, from a 16-bit start, is its canonical representative. *)
Lemma checksum_loop_spec d s : bytes_ok d -> 0 <= s <= 65535 ->
  checksum_loop d s = oc_sum (s + total d).
Proof.
  revert s. unfold total. induction d as [|x|x y l IH] using list_pair_ind; simpl;
    intros s H Hs; rewrite ?Forall_cons in H; unfold byte_ok in H.
  - by rewrite Z.add_0_r, oc_sum_small.
  - rewrite Z.add_0_r, u32_small by (widths; lia). apply fold_carry_oc. lia.
  - destruct H as (?&?&Hl). rewrite u32_small, fold_carry_oc by (widths; lia).
    pose proof (oc_sum_range (s + (x + 256 * y))).
    pose proof (total_nonneg l Hl). unfold total in *.
    rewrite IH, oc_sum_idemp by (done || lia). f_equal. lia.
Qed.

Lemma checksum_loop_app a b s : Nat.Even (length a) ->
  checksum_loop (a ++ b) s = checksum_loop b (checksum_loop a s).
Proof.
  revert s. induction a as [|x|x y l IH] using list_pair_ind; simpl; intros s He.
  - done.
  - destruct He as [k ?]; lia.
  - apply IH. by apply Nat.Even_succ_succ.
Qed.

(** Large starts (the TCP pseudo header): two words bring the accumulator to
    at most 2^16, a zero word makes it canonical. *)
Lemma checksum_loop_bound d s : bytes_ok d -> 0 <= s <= 65536 ->
  0 <= checksum_loop d s <= 65536.
Proof.
  revert s. induction d as [|x|x y l IH] using list_pair_ind; simpl;
    intros s H Hs; rewrite ?Forall_cons in H; unfold byte_ok in H.
  - done.
  - rewrite u32_small, fold_carry_eq by (widths; lia). zlia.
  - destruct H as (?&?&Hl). apply IH; [done|].
    rewrite u32_small, fold_carry_eq by (widths; lia). zlia.
Qed.

Lemma checksum_loop_two x0 x1 y0 y1 s :
  byte_ok x0 -> byte_ok x1 -> byte_ok y0 -> byte_ok y1 -> 0 <= s < 2 ^ 20 ->
  0 <= checksum_loop [x0; x1; y0; y1] s <= 65536.
Proof.
  unfold byte_ok. intros. simpl. change (2 ^ 20) with 1048576 in *.
  rewrite (u32_small (s + _)), (fold_carry_eq (s + _)) by (widths; lia).
  rewrite u32_small, fold_carry_eq by zlia. zlia.
Qed.

Lemma fold_carry_zero_word r : 0 <= r <= 65536 -> fold_carry (u32 (r + (0 + 256 * 0))) = oc_sum r.
Proof.
  intros. rewrite u32_small by (widths; lia). rewrite fold_carry_oc by lia. f_equal. lia.
Qed.

(** A buffer of at least two words followed somewhere by a zero word, as every
    TCP segment whose urgent pointer is zero. *)
Lemma checksum_loop_big x0 x1 y0 y1 a b s :
  bytes_ok (x0 :: x1 :: y0 :: y1 :: a) -> bytes_ok b -> Nat.Even (length a) ->
  0 <= s < 2 ^ 20 ->
  checksum_loop ((x0 :: x1 :: y0 :: y1 :: a) ++ [0; 0] ++ b) s
  = oc_sum (s + total ((x0 :: x1 :: y0 :: y1 :: a) ++ [0; 0] ++ b)).
Proof.
  intros Ha Hb He Hs.
  assert (He' : Nat.Even (length (x0 :: x1 :: y0 :: y1 :: a)))
    by (simpl; by rewrite !Nat.Even_succ_succ).
  rewrite checksum_loop_app, (total_app_even _ ([0; 0] ++ b)) by done.
  assert (0 <= checksum_loop (x0 :: x1 :: y0 :: y1 :: a) s <= 65536) as Hr.
  { change (x0 :: x1 :: y0 :: y1 :: a) with ([x0; x1; y0; y1] ++ a).
    rewrite checksum_loop_app by (exists 2%nat; done).
    rewrite !Forall_cons in Ha. destruct Ha as (?&?&?&?&Ha).
    apply checksum_loop_bound; [done|]. by apply checksum_loop_two. }
  destruct (checksum_loop_oc (x0 :: x1 :: y0 :: y1 :: a) s) as [_ Hoc];
    [done|change (2 ^ 20) with 1048576 in Hs; widths; lia|].
  set (r := checksum_loop (x0 :: x1 :: y0 :: y1 :: a) s) in *. clearbody r.
  pose proof (total_nonneg _ Ha). pose proof (total_nonneg _ Hb).
  change (checksum_loop ([0; 0] ++ b) r)
    with (checksum_loop b (fold_carry (u32 (r + (0 + 256 * 0))))).
  rewrite fold_carry_zero_word by done.
  rewrite checksum_loop_spec by (done || (apply oc_sum_range; lia)).
  rewrite Hoc, oc_sum_idemp by lia. unfold total; simpl. f_equal. lia.
Qed.

(** ** [checksum] on a whole buffer *)
Lemma checksum_whole d s : checksum d (Z.of_nat (length d)) s
  = Some (65535 - u16 (checksum_loop d (u32 s))).
Proof.
  unfold checksum. rewrite Z.leb_refl, Nat2Z.id, firstn_all. f_equal.
  pose proof (u16_range (checksum_loop d (u32 s))). unfold Z.lnot. zlia.
Qed.

(** The checksum of a prefix only looks at the prefix. *)
Lemma checksum_app d e s : checksum (d ++ e) (Z.of_nat (length d)) s
  = checksum d (Z.of_nat (length d)) s.
Proof.
  unfold checksum. rewrite length_app, !Nat2Z.id, take_app_length, firstn_all.
  rewrite !(proj2 (Z.leb_le _ _)) by lia. done.
Qed.

Lemma checksum_canonical d s t : bytes_ok d -> 0 <= s < 2 ^ 32 -> 0 <= t ->
  checksum_loop d s = oc_sum t ->
  checksum d (Z.of_nat (length d)) s = Some (65535 - oc_sum t).
Proof.
  intros Hd Hs Ht H. rewrite checksum_whole, u32_small, H by done.
  pose proof (oc_sum_range t Ht). by rewrite u16_small by lia.
Qed.

(** Two buffers that differ in a zeroed 16-bit field holding the checksum. *)
Lemma oc_sum_complement t : 0 <= t -> oc_sum (t + (65535 - oc_sum t)) = 65535.
Proof.
  intros. unfold oc_sum. repeat case_match; rewrite ?Z.eqb_eq, ?Z.eqb_neq in *; zlia.
Qed.

(** ** Dotted quads *)
Lemma inet_addr_decimal b rest ip : 0 <= b < 256 ->
  inet_addr_loop (decimal b ++ rest) ip 0 = inet_addr_loop rest ip b.
Proof.
  intros Hb. unfold decimal.
  destruct (Z.ltb_spec b 10); [|destruct (Z.ltb_spec b 100)]; cbn [app inet_addr_loop];
    repeat match goal with
    | |- context [?c =? 46] => rewrite (proj2 (Z.eqb_neq c 46)) by zlia
    end; f_equal; zlia.
Qed.

Lemma inet_addr_dot ip byte : 0 <= ip < 2 ^ 24 -> 0 <= byte < 256 ->
  Z.lor (s32 (Z.shiftl ip 8)) byte = s32 (ip * 256 + byte).
Proof.
  intros. rewrite Z.shiftl_mul_pow2 by lia.
  destruct (decide (ip < 8388608)).
  - rewrite s32_small, lor_mul_add by (widths; lia). widths. zlia.
  - replace (s32 (ip * 2 ^ 8)) with ((ip - 16777216) * 2 ^ 8) by zlia.
    rewrite lor_mul_add by (widths; lia). zlia.
Qed.

Lemma checksum_oc d start : bytes_ok d -> 0 <= start <= 65535 ->
  checksum d (Z.of_nat (length d)) start = Some (65535 - oc_sum (start + total d)).
Proof.
  intros Hd Hs. pose proof (total_nonneg d Hd).
  apply checksum_canonical; [done|widths; lia|lia|by apply checksum_loop_spec].
Qed.

Lemma checksum_loop_two_bound x0 x1 y0 y1 d s :
  bytes_ok (x0 :: x1 :: y0 :: y1 :: d) -> 0 <= s < 2 ^ 20 ->
  0 <= checksum_loop (x0 :: x1 :: y0 :: y1 :: d) s <= 65536.
Proof.
  intros H Hs. rewrite !Forall_cons in H. destruct H as (?&?&?&?&Hd).
  change (x0 :: x1 :: y0 :: y1 :: d) with ([x0; x1; y0; y1] ++ d).
  rewrite checksum_loop_app by (by exists 2%nat).
  apply checksum_loop_bound, checksum_loop_two; done.
Qed.

(** A header whose checksum field (at an even offset) is filled with the checksum
    computed over the header with that field zeroed verifies: the checksum of
    the completed header is 0.  First where the loop folds all carries... *)
Lemma checksum_filled_gen s pre post c :
  Nat.Even (length pre) -> bytes_ok pre -> bytes_ok post ->
  0 <= s < 2 ^ 20 ->
  checksum_loop (pre ++ [0; 0] ++ post) s = oc_sum (s + total (pre ++ [0; 0] ++ post)) ->
  (forall v, 0 <= checksum_loop (pre ++ le16 v ++ post) s <= 65536) ->
  let n := Z.of_nat (length (pre ++ [0; 0] ++ post)) in
  checksum (pre ++ [0; 0] ++ post) n s = Some c ->
  0 <= c <= 65535 /\ checksum (pre ++ le16 c ++ post) n s = Some 0.
Proof.
  intros He Hpre Hpost Hs Hloop Hbound n Hc. subst n.
  assert (Hz : bytes_ok (pre ++ [0; 0] ++ post))
    by (apply Forall_app_2; [done|]; apply Forall_app_2; [repeat constructor; lia|done]).
  assert (He2 : Nat.Even 2) by (by exists 1%nat). pose proof (total_nonneg _ Hz).
  rewrite (checksum_canonical _ _ (s + total (pre ++ [0; 0] ++ post))) in Hc by (done || lia).
  set (t := s + total (pre ++ [0; 0] ++ post)) in *.
  assert (c = 65535 - oc_sum t) as -> by congruence. clear Hc.
  pose proof (oc_sum_range t). split; [lia|]. set (c := 65535 - oc_sum t).
  assert (Hf : bytes_ok (pre ++ le16 c ++ post))
    by (apply Forall_app_2; [done|]; apply Forall_app_2; [apply le16_ok|done]).
  replace (length (pre ++ [0; 0] ++ post)) with (length (pre ++ le16 c ++ post))
    by (rewrite !length_app; done).
  rewrite checksum_whole, (u32_small s) by lia.
  destruct (checksum_loop_oc _ s Hf) as [_ Hoc]; [lia|]. pose proof (Hbound c) as Hb.
  replace (s + total (pre ++ le16 c ++ post)) with (t + c) in Hoc.
  2:{ subst t. rewrite !(total_app_even pre), (total_app_even (le16 _)), (total_app_even [0; 0]),
        total_le16, u16_small by (done || lia). change (total [0; 0]) with 0. lia. }
  set (L := checksum_loop (pre ++ le16 c ++ post) s) in *. clearbody L.
  subst c. rewrite oc_sum_complement in Hoc by lia.
  assert (L = 65535) as ->; [|done]. unfold oc_sum in Hoc. case_match; zlia.
Qed.

(** ... then for a field after at least two words (TCP: the starting value is
    the pseudo-header sum, above 16 bits) ... *)
Lemma checksum_filled s pre post c :
  Nat.Even (length pre) -> (4 <= length pre)%nat -> bytes_ok pre -> bytes_ok post ->
  0 <= s < 2 ^ 20 ->
  let n := Z.of_nat (length (pre ++ [0; 0] ++ post)) in
  checksum (pre ++ [0; 0] ++ post) n s = Some c ->
  0 <= c <= 65535 /\ checksum (pre ++ le16 c ++ post) n s = Some 0.
Proof.
  intros He Hl Hpre Hpost Hs n Hc.
  destruct pre as [|x0 [|x1 [|y0 [|y1 a]]]]; [simpl in Hl; lia..|].
  apply checksum_filled_gen; try done.
  - apply checksum_loop_big; try done. destruct He as [k Hk]; exists (k - 2)%nat; simpl in Hk; lia.
  - intros v. apply checksum_loop_two_bound; [|done].
    apply (Forall_app_2 _ (x0 :: x1 :: y0 :: y1 :: a)); [done|].
    apply Forall_app_2; [apply le16_ok|done].
Qed.

(** ... and without a starting value (IP, ICMP). *)
Lemma checksum_filled_0 pre post c :
  Nat.Even (length pre) -> bytes_ok pre -> bytes_ok post ->
  let n := Z.of_nat (length (pre ++ [0; 0] ++ post)) in
  checksum (pre ++ [0; 0] ++ post) n 0 = Some c ->
  0 <= c <= 65535 /\ checksum (pre ++ le16 c ++ post) n 0 = Some 0.
Proof.
  intros He Hpre Hpost n Hc. apply checksum_filled_gen; try (done || lia).
  - apply checksum_loop_spec; [|lia]. apply Forall_app_2; [done|].
    apply Forall_app_2; [repeat constructor; lia|done].
  - intros v. apply checksum_loop_bound; [|lia]. apply Forall_app_2; [done|].
    apply Forall_app_2; [apply le16_ok|done].
Qed.

(** Changing one byte changes the total by its weight times the difference. *)
Lemma total_insert d i x y : d !! i = Some x ->
  total (<[i := y]> d) = total d + (y - x) * (if Nat.even i then 1 else 256).
Proof.
  unfold total. revert i. induction d as [|a|a b l IH] using list_pair_ind; intros i Hi.
  - done.
  - destruct i as [|[|]]; simpl in *; simplify_eq; lia.
  - destruct i as [|[|i]]; simpl in Hi; simplify_eq; [simpl; lia..|].
    transitivity (a + 256 * b + foldr Z.add 0 (words (<[i := y]> l))); [done|].
    rewrite (IH i) by done. simpl. lia.
Qed.

Lemma oc_sum_full t u : 0 <= t -> 0 <= u -> oc_sum t = 65535 -> oc_sum u = 65535 ->
  (u - t) `mod` 65535 = 0.
Proof. unfold oc_sum. repeat case_match; intros; zlia. Qed.

(** A one-byte error in a buffer that verifies is always detected. *)
Lemma checksum_detects d i x y : bytes_ok d -> d !! i = Some x -> byte_ok y -> y <> x ->
  checksum d (Z.of_nat (length d)) 0 = Some 0 ->
  exists c, checksum (<[i := y]> d) (Z.of_nat (length d)) 0 = Some c /\ c <> 0.
Proof.
  intros Hd Hi Hy Hne Hc. assert (Hx : byte_ok x) by (by eapply Forall_lookup_1).
  assert (Hd' : bytes_ok (<[i := y]> d)) by (by apply Forall_insert).
  rewrite checksum_oc in Hc by (done || lia). rewrite <- (length_insert d i y).
  rewrite checksum_oc by (done || lia). eexists. split; [done|]. intros Hz.
  pose proof (total_nonneg d Hd) as H1. pose proof (total_nonneg _ Hd') as H2.
  pose proof (oc_sum_range _ H1). pose proof (oc_sum_range _ H2). simplify_eq.
  pose proof (oc_sum_full (total d) (total (<[i := y]> d)) H1 H2) as Hm.
  rewrite (total_insert d i x y Hi) in Hm, Hz. unfold byte_ok in *.
  rewrite !Z.add_0_l in *. destruct (Nat.even i); zlia.
Qed.

(** ** Properties *)

(** [htons] and [htonl] reverse the bytes of their argument in memory, and
    are therefore involutions on 16-bit and 32-bit values (so the code may use
    them in both directions, host to network and network to host). *)
Theorem byte_order_swap n :
  le16 (htons n) = reverse (le16 n) /\ le32 (htonl n) = reverse (le32 n) /\
  htons (htons n) = u16 n /\ htonl (htonl n) = u32 n.
Proof. auto using le16_htons, le32_htonl, htons_htons, htonl_htonl. Qed.

(** C32: the incremental carry folding of [checksum] computes the RFC 1071
    checksum of the first [len] bytes of the object: the complement of the
    end-around-carry sum of all 16-bit words (odd byte zero-padded) and of a
    16-bit starting value; a longer [len] reads outside the object. *)
Theorem checksum_rfc1071 d len start :
  bytes_ok d -> 0 <= len -> 0 <= start <= 65535 ->
  checksum d len start =
  if len <=? Z.of_nat (length d)
  then Some (65535 - oc_sum (start + total (take (Z.to_nat len) d))) else None.
Proof.
  intros Hd Hl Hs. destruct (Z.leb_spec len (Z.of_nat (length d))) as [Hle|Hgt].
  - rewrite <- (checksum_oc (take (Z.to_nat len) d)) by (done || by apply Forall_take).
    rewrite <- checksum_app with (e := drop (Z.to_nat len) d), take_drop.
    f_equal. rewrite length_take. lia.
  - unfold checksum. by rewrite (proj2 (Z.leb_gt _ _) Hgt).
Qed.

Lemma checksum_rfc1071_witness :
  checksum [0x45; 0; 0; 0x54; 7; 9] 5 0 = Some (65535 - oc_sum (0 + total [0x45; 0; 0; 0x54; 7])).
Proof. apply (checksum_rfc1071 [0x45; 0; 0; 0x54; 7; 9] 5 0); [repeat constructor; lia|lia..]. Defined.

(** [inet_addr] inverts dotted-quad notation for all four byte values,
    the top byte included although the accumulator is a signed [int]. *)
Theorem inet_addr_dotted_quad a b c d :
  0 <= a < 256 -> 0 <= b < 256 -> 0 <= c < 256 -> 0 <= d < 256 ->
  inet_addr (dotted_quad a b c d) = a * 2 ^ 24 + b * 2 ^ 16 + c * 2 ^ 8 + d.
Proof.
  intros. unfold inet_addr, dotted_quad.
  rewrite inet_addr_decimal by done. cbn [app inet_addr_loop Z.eqb Pos.eqb].
  rewrite inet_addr_decimal by done. cbn [app inet_addr_loop Z.eqb Pos.eqb].
  rewrite inet_addr_decimal by done. cbn [app inet_addr_loop Z.eqb Pos.eqb].
  rewrite <- (app_nil_r (decimal d)), inet_addr_decimal by done. cbn [inet_addr_loop].
  rewrite (inet_addr_dot 0 a), (s32_small (0 * 256 + a)) by (widths; lia).
  rewrite (inet_addr_dot (0 * 256 + a)), (s32_small ((0 * 256 + a) * 256 + b)) by (widths; lia).
  rewrite (inet_addr_dot ((0 * 256 + a) * 256 + b)),
    (s32_small (((0 * 256 + a) * 256 + b) * 256 + c)) by (widths; lia).
  rewrite inet_addr_dot by (widths; lia). zlia.
Qed.

Lemma inet_addr_dotted_quad_witness :
  inet_addr (dotted_quad 192 168 2 1) = 192 * 2 ^ 24 + 168 * 2 ^ 16 + 2 * 2 ^ 8 + 1.
Proof. apply (inet_addr_dotted_quad 192 168 2 1); lia. Defined.

End NetUtils.
