(* ===== verification/Queue.v ===== *)
(** * Queue: the circular queue of queue.c

    The queue is used by TCP for the accept queue ([waitqueue], pointers into
    [requests]) and for the send window (pointers into [tcon.pkts]).  The
    operations are translated as they are, on the [front]/[rear] indices and
    the array [A]; the theorems show that every operation refines the one of a
    FIFO list bounded by [QUEUE_SIZE]. *)
From S2P Require Import Prelude.

(** ** queue.h *)
Definition QUEUE_SIZE : Z := 10.

(** What an [int] cell of the queue holds: the code stores pointers cast to
    [int].  [VInt] is a plain integer ([0] and [-1] are what the operations
    return for an empty queue), [VReq i] is [(int) &requests[i]] and [VPkt s j]
    is [(int) &sockets[s].tcon.pkts[j]]. *)
Inductive cval : Type :=
| VInt (z : Z)
| VReq (i : nat)
| VPkt (s j : nat).

#[export] Instance cval_eq_dec : EqDecision cval.
Proof. solve_decision. Defined.

Record queue : Type := mkQueue {
  front : Z;
  rear : Z;
  size : Z;
  A : list cval;
}.
#[export] Instance eta_queue : Eta queue :=
  fun q => mkQueue (front q) (rear q) (size q) (A q).

(** A queue in zero-initialised memory. *)
Definition zero_queue : queue := mkQueue 0 0 0 (replicate 10 (VInt 0)).

(** ** queue.c *)
Module Queue.

(** C's [%]; [None] is the division fault. *)
Definition c_rem (a b : Z) : option Z := if b =? 0 then None else Some (Z.rem a b).

(** [A[i]] and [A[i] = v]; [None] is an access outside the array. *)
Definition load (l : list cval) (i : Z) : option cval :=
  if 0 <=? i then l !! Z.to_nat i else None.
Definition store (l : list cval) (i : Z) (v : cval) : option (list cval) :=
  if (0 <=? i) && (i <? Z.of_nat (length l)) then Some (<[Z.to_nat i := v]> l) else None.

Definition initqueue (q : queue) : queue :=
  q <| front := -1 |> <| rear := -1 |> <| size := QUEUE_SIZE |>.

Definition enqueue (q : queue) (d : cval) : option queue :=
  r ← c_rem (rear q + 1) (size q);
  if r =? front q then Some q
  else
    let q := if front q =? -1 then q <| front := front q + 1 |> else q in
    r ← c_rem (rear q + 1) (size q);
    a ← store (A q) r d;
    Some (q <| rear := r |> <| A := a |>).

Definition dequeue (q : queue) : option (cval * queue) :=
  if front q =? -1 then Some (VInt (-1), q)
  else
    x ← load (A q) (front q);
    if negb (front q =? -1) && (front q =? rear q)
    then Some (x, q <| front := -1 |> <| rear := -1 |>)
    else
      f ← c_rem (front q + 1) (size q);
      Some (x, q <| front := f |>).

Definition getfront (q : queue) : option cval :=
  if front q =? -1 then Some (VInt 0) else load (A q) (front q).

Definition isqueuefull (q : queue) : option bool :=
  r ← c_rem (rear q + 1) (size q); Some (r =? front q).

Definition isqueueempty (q : queue) : bool := front q =? -1.

(** ** Abstract specification: a FIFO list of at most [QUEUE_SIZE] elements *)
Definition fifo_full (l : list cval) : bool := bool_decide (length l = 10%nat).
Definition fifo_enqueue (l : list cval) (d : cval) : list cval :=
  if fifo_full l then l else l ++ [d].
Definition fifo_dequeue (l : list cval) : cval * list cval :=
  match l with [] => (VInt (-1), []) | x :: l' => (x, l') end.
Definition fifo_front (l : list cval) : cval :=
  match l with [] => VInt 0 | x :: _ => x end.

(** [repr q l]: the queue [q] holds the elements [l], oldest first. *)
Definition repr (q : queue) (l : list cval) : Prop :=
  size q = QUEUE_SIZE /\ length (A q) = 10%nat /\
  ((l = [] /\ front q = -1 /\ rear q = -1) \/
   (0 <= front q < 10 /\ 0 <= rear q < 10 /\ l <> [] /\
    Z.of_nat (length l) = (rear q - front q) `mod` 10 + 1 /\
    forall i, (i < length l)%nat ->
      A q !! Z.to_nat ((front q + Z.of_nat i) `mod` 10) = l !! i)).

(** Sequences of calls, on the queue and on the specification. *)
Inductive qop : Type := OEnqueue (d : cval) | ODequeue | OFront | OFull | OEmpty.
Inductive qres : Type := RVoid | RVal (v : cval) | RBool (b : bool).

Definition q_step (q : queue) (o : qop) : option (qres * queue) :=
  match o with
  | OEnqueue d => q' ← enqueue q d; Some (RVoid, q')
  | ODequeue => '(x, q') ← dequeue q; Some (RVal x, q')
  | OFront => x ← getfront q; Some (RVal x, q)
  | OFull => b ← isqueuefull q; Some (RBool b, q)
  | OEmpty => Some (RBool (isqueueempty q), q)
  end.
Definition fifo_step (l : list cval) (o : qop) : qres * list cval :=
  match o with
  | OEnqueue d => (RVoid, fifo_enqueue l d)
  | ODequeue => let '(x, l') := fifo_dequeue l in (RVal x, l')
  | OFront => (RVal (fifo_front l), l)
  | OFull => (RBool (fifo_full l), l)
  | OEmpty => (RBool (bool_decide (l = [])), l)
  end.
Fixpoint q_run (q : queue) (os : list qop) : option (list qres) :=
  match os with
  | [] => Some []
  | o :: os' => '(r, q') ← q_step q o; rs ← q_run q' os'; Some (r :: rs)
  end.
Fixpoint fifo_run (l : list cval) (os : list qop) : list qres :=
  match os with
  | [] => []
  | o :: os' => let '(r, l') := fifo_step l o in r :: fifo_run l' os'
  end.

(** ** Lemmas *)
Lemma c_rem_10 a : 0 <= a -> c_rem a QUEUE_SIZE = Some (a `mod` 10).
Proof. intros. unfold c_rem, QUEUE_SIZE. simpl. by rewrite Z.rem_mod_nonneg by lia. Qed.

Lemma repr_length q l : repr q l -> (length l <= 10)%nat.
Proof. intros (_&_&[(->&_)|(?&?&?&?&_)]); simpl; zlia. Qed.

Lemma repr_initqueue q : length (A q) = 10%nat -> repr (initqueue q) [].
Proof. intros. split_and!; [done..|]. left. done. Qed.

Lemma repr_full q l : repr q l -> isqueuefull q = Some (fifo_full l).
Proof.
  intros (Hs&_&H). unfold isqueuefull, fifo_full. rewrite Hs.
  destruct H as [(->&Hf&Hr)|(?&?&?&?&_)].
  - rewrite Hf, Hr. done.
  - rewrite c_rem_10 by lia. simpl. f_equal. apply eq_bool_prop_intro.
    rewrite Is_true_true, Z.eqb_eq, bool_decide_spec. zlia.
Qed.

Lemma repr_empty q l : repr q l -> isqueueempty q = bool_decide (l = []).
Proof.
  intros (_&_&[(->&Hf&_)|(?&?&?&_)]); unfold isqueueempty.
  - by rewrite Hf.
  - rewrite bool_decide_eq_false_2 by done. apply Z.eqb_neq. lia.
Qed.

Lemma repr_front q l : repr q l -> getfront q = Some (fifo_front l).
Proof.
  intros (_&_&[(->&Hf&_)|(?&?&?&?&Hi)]); unfold getfront.
  - by rewrite Hf.
  - rewrite (proj2 (Z.eqb_neq _ _)) by lia. unfold load.
    rewrite (proj2 (Z.leb_le _ _)) by lia. destruct l as [|x l]; [done|].
    specialize (Hi 0%nat ltac:(simpl; lia)). rewrite Z.add_0_r, Z.mod_small in Hi by lia. done.
Qed.

Lemma repr_enqueue q l d : repr q l ->
  exists q', enqueue q d = Some q' /\ repr q' (fifo_enqueue l d).
Proof.
  intros Hq. pose proof (repr_full q l Hq) as Hfull. unfold isqueuefull in Hfull.
  unfold enqueue, fifo_enqueue. destruct Hq as (Hs&Hl&H). rewrite Hs in *.
  destruct (c_rem (rear q + 1) QUEUE_SIZE) as [r|] eqn:Hr; [|done].
  simpl in *. injection Hfull as ->. destruct (fifo_full l) eqn:Hf.
  { exists q. split; [done|]. split_and!; done. }
  unfold fifo_full in Hf. apply bool_decide_eq_false in Hf.
  destruct H as [(->&Hfr&Hre)|(?&?&Hne&Hlen&Hi)].
  - rewrite Hfr. simpl. rewrite Hre, Hs, c_rem_10 by lia. simpl. unfold store. rewrite Hl. simpl.
    eexists. split; [done|]. split_and!; simpl; [done|by rewrite length_insert|].
    right. split_and!; simpl; [done..|]. intros i Hi.
    assert (i = 0%nat) as -> by lia. apply list_lookup_insert_eq. rewrite Hl. vm_compute. lia.
  - rewrite (proj2 (Z.eqb_neq (front q) _)) by lia. rewrite Hs.
    rewrite c_rem_10 in * by lia. simplify_eq. simpl. unfold store. rewrite Hl.
    rewrite (proj2 (Z.leb_le _ _)), (proj2 (Z.ltb_lt _ _)) by zlia. simpl.
    eexists. split; [done|]. split_and!; simpl; [done|by rewrite length_insert|].
    assert (Hrr : (rear q + 1) `mod` 10 = (front q + Z.of_nat (length l)) `mod` 10) by zlia.
    right. rewrite length_app; simpl. split_and!; simpl; [lia..|zlia|zlia| |zlia|].
    { intros ?%app_nil. naive_solver. }
    intros i Hi'. destruct (decide (i = length l)) as [->|].
    + rewrite list_lookup_middle by done. rewrite <- Hrr.
      apply list_lookup_insert_eq. rewrite Hl. zlia.
    + rewrite list_lookup_insert_ne by zlia. rewrite Hi by lia.
      by rewrite lookup_app_l by lia.
Qed.

Lemma repr_dequeue q l : repr q l ->
  exists q', dequeue q = Some (fst (fifo_dequeue l), q') /\ repr q' (snd (fifo_dequeue l)).
Proof.
  intros Hq. pose proof (repr_front q l Hq) as Hfront. unfold getfront in Hfront.
  unfold dequeue. destruct Hq as (Hs&Hl&H).
  destruct H as [(->&Hfr&Hre)|(?&?&Hne&Hlen&Hi)].
  - rewrite Hfr. eexists. split; [done|]. split_and!; auto.
  - rewrite (proj2 (Z.eqb_neq (front q) (-1))) in * by lia. rewrite Hfront.
    destruct l as [|x l]; [done|]. simpl in *.
    destruct (Z.eqb_spec (front q) (rear q)) as [Heq|Hneq].
    + eexists. split; [done|]. rewrite Heq, Z.sub_diag in Hlen.
      assert (l = []) as -> by (destruct l; [done|simpl in Hlen; zlia]).
      split_and!; [done..|]. left. done.
    + rewrite Hs, c_rem_10 by lia. simpl. eexists. split; [done|].
      split_and!; [done..|]. right. simpl.
      split_and!; [zlia|zlia|lia|lia| |zlia|].
      { intros ->. simpl in Hlen. zlia. }
      intros i Hi'. specialize (Hi (S i) ltac:(lia)). simpl in Hi. rewrite <- Hi.
      f_equal. f_equal. zlia.
Qed.

Lemma repr_step q l o : repr q l ->
  exists q', q_step q o = Some (fst (fifo_step l o), q') /\ repr q' (snd (fifo_step l o)).
Proof.
  intros Hq. destruct o; simpl.
  - destruct (repr_enqueue q l d Hq) as (q'&->&?). eauto.
  - destruct (repr_dequeue q l Hq) as (q'&->&?). destruct (fifo_dequeue l); eauto.
  - rewrite (repr_front q l) by done. eauto.
  - rewrite (repr_full q l) by done. eauto.
  - rewrite (repr_empty q l) by done. eauto.
Qed.

Lemma repr_run q l os : repr q l -> q_run q os = Some (fifo_run l os).
Proof.
  revert q l. induction os as [|o os IH]; intros q l Hq; [done|].
  destruct (repr_step q l o Hq) as (q'&Hs&Hq'). simpl. rewrite Hs.
  destruct (fifo_step l o) as [r l']. simpl in *. by rewrite (IH _ _ Hq').
Qed.

(** ** Properties *)

(** C16: after [initqueue], any sequence of [enqueue], [dequeue], [getfront],
    [isqueuefull] and [isqueueempty] calls never divides by zero or leaves the
    array, and returns what a FIFO list holding at most ten elements returns:
    an enqueue on a full queue is dropped, a dequeue on an empty one gives -1
    and [getfront] gives 0. *)
Theorem queue_refines_fifo q os :
  length (A q) = 10%nat -> q_run (initqueue q) os = Some (fifo_run [] os).
Proof. intros H. by apply repr_run, repr_initqueue. Qed.

Lemma queue_refines_fifo_witness :
  q_run (initqueue zero_queue) [ODequeue; OEnqueue (VReq 3); OFront; OFull; ODequeue; OEmpty]
  = Some (fifo_run [] [ODequeue; OEnqueue (VReq 3); OFront; OFull; ODequeue; OEmpty]).
Proof. apply (queue_refines_fifo zero_queue). reflexivity. Defined.

End Queue.
