(* ===== verification/KState.v ===== *)
(** * KState: the data of the kernel and the monad its code runs in

    The structs of the kernel headers as records, the global variables of the
    kernel as one record [kstate], and the monad [M] of kernel code: explicit
    state passing with [panic], undefined behaviour and [sleep] as outcomes. *)
From S2P Require Import Prelude Queue.

(** ** param.h *)
Definition NPROC : nat := 64.
Definition NOFILE : Z := 16.
Definition NFILE : nat := 100.
Definition NPORTS : Z := 2048.
Definition NSOCKETS : nat := 20.
Definition MAXOPBLOCKS : Z := 10.
Definition PGSIZE : Z := 4096.

(** ** arp.h *)
Inductive entry_status : Type := EMPTY | USED | REQUESTED.
#[export] Instance entry_status_eq_dec : EqDecision entry_status.
Proof. solve_decision. Defined.

Record arp_entry : Type := mkArpEntry {
  ae_ip : Z;
  ae_mac : list Z;
  ae_valid_until : Z;
  ae_status : entry_status;
}.
#[export] Instance eta_arp_entry : Eta arp_entry :=
  fun e => mkArpEntry (ae_ip e) (ae_mac e) (ae_valid_until e) (ae_status e).

(** ** tcp.h *)
Definition TCP_HEADER_MIN_SIZE : Z := 20.
Definition MSS : Z := 1460.
Definition WINDOW_LENGTH : Z := 10.
Definition WINDOW_SIZE : Z := MSS * WINDOW_LENGTH.
Definition MAX_PENDING_REQUESTS : nat := 20.
Definition INITIAL_SEQ : Z := 0.
Definition TCP_FLAG_SYN : Z := 0x02.
Definition TCP_FLAG_ACK : Z := 0x10.
(** [sizeof(struct tcp_packet)]: the header and [MSS] bytes. *)
Definition SIZEOF_TCP_PACKET : Z := 1480.

Record tcp_request : Type := mkTcpRequest {
  client_ip : Z;
  request_packet : list Z;   (* struct tcp_packet, as bytes *)
}.
#[export] Instance eta_tcp_request : Eta tcp_request :=
  fun r => mkTcpRequest (client_ip r) (request_packet r).

Inductive tcp_connection_state : Type :=
  TCP_CLOSED | TCP_LISTEN | TCP_SYN_SENT | TCP_SYNACK_SENT | TCP_ESTABLISHED.
#[export] Instance tcp_connection_state_eq_dec : EqDecision tcp_connection_state.
Proof. solve_decision. Defined.

Record queued_packet : Type := mkQueuedPacket {
  qp_seq : Z;
  qp_size : Z;
  qp_pkt : list Z;           (* struct tcp_packet, as bytes *)
}.
#[export] Instance eta_queued_packet : Eta queued_packet :=
  fun q => mkQueuedPacket (qp_seq q) (qp_size q) (qp_pkt q).

Record tcp_connection : Type := mkTcpConnection {
  tc_state : tcp_connection_state;
  dst_addr : Z;
  dst_port : Z;
  pkts : list queued_packet;
  window : queue;
  base_seq : Z;
  next_seq : Z;
  ack_sent : Z;
  seq_received : Z;
  ack_received : Z;
  dst_mss : Z;
  dst_win_size : Z;
}.
#[export] Instance eta_tcp_connection : Eta tcp_connection :=
  fun t => mkTcpConnection (tc_state t) (dst_addr t) (dst_port t) (pkts t) (window t)
    (base_seq t) (next_seq t) (ack_sent t) (seq_received t) (ack_received t)
    (dst_mss t) (dst_win_size t).

(** ** socket.h *)
Inductive socket_states : Type :=
  SOCKET_FREE | SOCKET_UNBOUND | SOCKET_BOUND | SOCKET_WAIT | SOCKET_CONNECTED.
#[export] Instance socket_states_eq_dec : EqDecision socket_states.
Proof. solve_decision. Defined.

(** [so_buffer] is the address of a [kalloc]ed page, 0 for NULL. *)
Record socket : Type := mkSocket {
  so_addr : Z;
  so_port : Z;
  so_type : Z;
  waitqueue : queue;
  so_state : socket_states;
  so_buffer : Z;
  so_offset : Z;
  so_end : Z;
  tcon : tcp_connection;
}.
#[export] Instance eta_socket : Eta socket :=
  fun s => mkSocket (so_addr s) (so_port s) (so_type s) (waitqueue s) (so_state s)
    (so_buffer s) (so_offset s) (so_end s) (tcon s).

(** A [struct socket *] is an index into [sockets]; [None] is NULL. *)
Record port : Type := mkPort {
  po_pid : Z;
  active_socket : option nat;
  passive_socket : option nat;
}.
#[export] Instance eta_port : Eta port :=
  fun p => mkPort (po_pid p) (active_socket p) (passive_socket p).

(** ** icmp.h *)
Record icmp_reply_packet : Type := mkIcmpReply {
  ir_size : Z;
  ir_src_ip : Z;
  ir_seq_no : Z;
}.

(** ** file.h *)
Inductive file_type : Type := FD_NONE | FD_PIPE | FD_INODE | FD_SOCKET.
#[export] Instance file_type_eq_dec : EqDecision file_type.
Proof. solve_decision. Defined.

(** Pointers: [f_pipe] is the page holding the [struct pipe], [f_ip] an index
    into the inode cache, [f_socket] an index into [sockets]. *)
Record file : Type := mkFile {
  f_type : file_type;
  f_ref : Z;
  f_readable : bool;
  f_writable : bool;
  f_pipe : Z;
  f_ip : option nat;
  f_socket : option nat;
  f_off : Z;
}.
#[export] Instance eta_file : Eta file :=
  fun f => mkFile (f_type f) (f_ref f) (f_readable f) (f_writable f) (f_pipe f)
    (f_ip f) (f_socket f) (f_off f).

(** ** pipe.c *)
Definition PIPESIZE : Z := 512.
Record pipe : Type := mkPipe {
  pi_data : list Z;
  nread : Z;
  nwrite : Z;
  readopen : bool;
  writeopen : bool;
}.
#[export] Instance eta_pipe : Eta pipe :=
  fun p => mkPipe (pi_data p) (nread p) (nwrite p) (readopen p) (writeopen p).

(** ** Locks and wait channels

    A [struct spinlock *] and the [void *chan] of [sleep] are addresses of
    kernel objects; each object that is used so has a constructor. *)
Inductive lockid : Type :=
| LkPtable | LkFtable | LkArp | LkPort | LkSock | LkKmem | LkTicks
| LkPipe (p : Z) | LkLog | LkIcache | LkBcache | LkCons | LkIde | LkSleep (n : nat).
#[export] Instance lockid_eq_dec : EqDecision lockid.
Proof. solve_decision. Defined.

Inductive chan : Type :=
| ChPort (p : Z) | ChArp (i : nat) | ChTicks | ChProc (i : nat)
| ChPipeRead (p : Z) | ChPipeWrite (p : Z) | ChLog | ChBuf (i : nat) | ChSleep (n : nat)
| ChInput.
#[export] Instance chan_eq_dec : EqDecision chan.
Proof. solve_decision. Defined.

(** ** proc.h *)
Inductive procstate : Type := UNUSED | EMBRYO | SLEEPING | RUNNABLE | RUNNING | ZOMBIE.
#[export] Instance procstate_eq_dec : EqDecision procstate.
Proof. solve_decision. Defined.

(** x86.h: the registers of the user program, saved at the top of the kernel
    stack. *)
Record trapframe : Type := mkTf {
  tf_edi : Z; tf_esi : Z; tf_ebp : Z; tf_ebx : Z; tf_edx : Z; tf_ecx : Z; tf_eax : Z;
  tf_gs : Z; tf_fs : Z; tf_es : Z; tf_ds : Z; tf_trapno : Z; tf_err : Z; tf_eip : Z;
  tf_cs : Z; tf_eflags : Z; tf_esp : Z; tf_ss : Z;
}.
#[export] Instance eta_tf : Eta trapframe :=
  fun t => mkTf (tf_edi t) (tf_esi t) (tf_ebp t) (tf_ebx t) (tf_edx t) (tf_ecx t) (tf_eax t)
    (tf_gs t) (tf_fs t) (tf_es t) (tf_ds t) (tf_trapno t) (tf_err t) (tf_eip t)
    (tf_cs t) (tf_eflags t) (tf_esp t) (tf_ss t).
Definition zero_tf : trapframe := mkTf 0 0 0 0 0 0 0 0 0 0 0 0 0 0 0 0 0 0.

(** [struct proc], less the saved kernel context; [parent] is an index into the
    process table, [ofile] holds indices into the file table. *)
Record proc : Type := mkProc {
  p_sz : Z;
  p_pgdir : Z;
  p_kstack : Z;
  p_state : procstate;
  p_pid : Z;
  p_parent : option nat;
  p_tf : trapframe;
  p_chan : option chan;
  p_killed : bool;
  p_ofile : list (option nat);
  p_cwd : option nat;
  p_name : list Z;
}.
#[export] Instance eta_proc : Eta proc :=
  fun p => mkProc (p_sz p) (p_pgdir p) (p_kstack p) (p_state p) (p_pid p) (p_parent p)
    (p_tf p) (p_chan p) (p_killed p) (p_ofile p) (p_cwd p) (p_name p).

(** ** kalloc.c

    [mem] is the physical memory above [end_], page by page; [freelist] is the
    head pointer of the list threaded through the first word of free pages. *)
Record kmem_t : Type := mkKmem {
  end_ : Z;
  use_lock : bool;
  freelist : Z;
  mem : gmap Z (list Z);
}.
#[export] Instance eta_kmem : Eta kmem_t :=
  fun k => mkKmem (end_ k) (use_lock k) (freelist k) (mem k).

(** ** rtl8139.c *)
Record nic_t : Type := mkNic {
  tx_buffer : list Z;
  rx_ring : list Z;
  cur_tx : Z;
  cur_rx : Z;
  packets_received_good : Z;
  byte_received : Z;
  pci_device_no : Z;
}.
#[export] Instance eta_nic : Eta nic_t :=
  fun n => mkNic (tx_buffer n) (rx_ring n) (cur_tx n) (cur_rx n)
    (packets_received_good n) (byte_received n) (pci_device_no n).

(** The registers of [struct RTL8139_registers] the driver uses. *)
Inductive reg : Type :=
| IDR (i : Z) | MAR0 | MAR4 | TxStatus (d : Z) | TxAddr (d : Z) | RxBufStart | Cmd
| CurAddrPacket | IMR | ISR | TxConfig | RxConfig | MissedPacketCounter | Cfg9346
| Config1 | BasicModeCtrl.
#[export] Instance reg_eq_dec : EqDecision reg.
Proof. solve_decision. Defined.

(** The buffers whose addresses are written to registers. *)
Inductive dma_buffer : Type := TxBuffer | RxRing.

(** What the outside world sees, in program order: port and register accesses,
    the frame a [TxStatus] write hands to the controller, console output. *)
Inductive event : Type :=
| EvOut (port val : Z)
| EvIn (port : Z)
| EvRegWrite (r : reg) (val : Z)
| EvRegBuf (r : reg) (b : dma_buffer)   (* the physical address of a buffer *)
| EvRegRead (r : reg)
| EvTx (frame : list Z)
| EvPrint (s : list Z)
| EvIoapic (irq cpu : Z)
| EvDisk (blockno : Z) (data : list Z)    (* a block written to the disk *)
| EvLapic (index value : Z).   (* a write to the local APIC *)

(** ** buf.h, sleeplock.h, log.c: the storage stack

    The sleep-lock of buffer [i] is entry [i] of [sleeplocks], that of inode
    [i] of the inode cache entry [30 + i]; [lru] lists the buffers in the order
    of the doubly-linked list from [bcache.head.next] on; [memdisk] is the disk,
    block by block. *)
Record sleeplock : Type := mkSleeplock { sl_locked : bool; sl_pid : Z }.

Record buf : Type := mkBuf {
  b_valid : bool;      (* flags & B_VALID *)
  b_dirty : bool;      (* flags & B_DIRTY *)
  b_dev : Z;
  b_blockno : Z;
  b_refcnt : Z;
  b_data : list Z;
}.
#[export] Instance eta_buf : Eta buf :=
  fun b => mkBuf (b_valid b) (b_dirty b) (b_dev b) (b_blockno b) (b_refcnt b) (b_data b).

Record log_t : Type := mkLog {
  l_start : Z;
  l_size : Z;
  l_outstanding : Z;
  l_committing : bool;
  l_dev : Z;
  lh_n : Z;
  lh_block : list Z;
}.
#[export] Instance eta_log : Eta log_t :=
  fun l => mkLog (l_start l) (l_size l) (l_outstanding l) (l_committing l) (l_dev l) (lh_n l)
    (lh_block l).

(** fs.h *)
Record superblock : Type := mkSuperblock {
  sb_size : Z; sb_nblocks : Z; sb_ninodes : Z; sb_nlog : Z; sb_logstart : Z;
  sb_inodestart : Z; sb_bmapstart : Z;
}.

(** file.h: an entry of the inode cache; its lock is in [sleeplocks]. *)
Record inode : Type := mkInode {
  i_dev : Z;
  i_inum : Z;
  i_ref : Z;
  i_valid : bool;
  i_type : Z;
  i_major : Z;
  i_minor : Z;
  i_nlink : Z;
  i_size : Z;
  i_addrs : list Z;
}.
#[export] Instance eta_inode : Eta inode :=
  fun i => mkInode (i_dev i) (i_inum i) (i_ref i) (i_valid i) (i_type i) (i_major i) (i_minor i)
    (i_nlink i) (i_size i) (i_addrs i).

Record fs_t : Type := mkFs {
  sleeplocks : list sleeplock;
  bufs : list buf;
  lru : list nat;
  memdisk : list (list Z);
  log : log_t;
  sb : superblock;
  icache : list inode;
}.
#[export] Instance eta_fs : Eta fs_t :=
  fun f => mkFs (sleeplocks f) (bufs f) (lru f) (memdisk f) (log f) (sb f) (icache f).

Definition zero_log : log_t := mkLog 0 0 0 false 0 0 (replicate 30 0).
Definition zero_sb : superblock := mkSuperblock 0 0 0 0 0 0 0.
Definition zero_inode : inode := mkInode 0 0 0 false 0 0 0 0 0 (replicate 13 0).
(** Thirty buffers and fifty inodes, zeroed. *)
Definition zero_fs : fs_t :=
  mkFs (replicate 80 (mkSleeplock false 0)) (replicate 30 (mkBuf false false 0 0 0 (replicate 512 0)))
    [] [] zero_log zero_sb (replicate 50 zero_inode).

(** ** Global variables *)
Record kstate : Type := mkK {
  (* ip.c, ether.c, trap.c *)
  MYIP : Z;
  NETMASK : Z;
  GATEWAY : Z;
  ip_id : Z;
  MAC : list Z;
  ticks : Z;
  (* arp.c, icmp.c *)
  arp_cache : list arp_entry;
  icmp_echo_reply_received : Z;
  icmp_reply_pkt_info : icmp_reply_packet;
  (* tcp.c, socket.c *)
  requests : list tcp_request;
  ports : list port;
  sockets : list socket;
  (* proc.c: the process table, the process on this CPU *)
  ptable : list proc;
  nextpid : Z;
  initproc : option nat;
  curproc : option nat;
  (* file.c, pipe.c, kalloc.c *)
  ftable : list file;
  pipes : gmap Z pipe;
  kmem : kmem_t;
  (* rtl8139.c *)
  nic : nic_t;
  (* bio.c, memide.c, log.c *)
  fs : fs_t;
  (* spinlock.c: the locks this CPU holds, innermost first *)
  held : list lockid;
  (* the observable trace, oldest first *)
  trace : list event;
}.
#[export] Instance eta_kstate : Eta kstate :=
  fun k => mkK (MYIP k) (NETMASK k) (GATEWAY k) (ip_id k) (MAC k) (ticks k)
    (arp_cache k) (icmp_echo_reply_received k) (icmp_reply_pkt_info k)
    (requests k) (ports k) (sockets k) (ptable k) (nextpid k) (initproc k) (curproc k)
    (ftable k) (pipes k) (kmem k) (nic k) (fs k) (held k) (trace k).

(** ** The monad of kernel code *)

(** How a computation of the kernel ends.  [Block s k] has switched to the
    scheduler ([sched]) in state [s]; [k] is the rest of the computation, run
    from the state in which the scheduler resumes it.  [Fault] is undefined
    behaviour: a null dereference, an access outside an object, a division by
    zero. *)
Inductive outcome (T : Type) : Type :=
| Ret (a : T) (s : kstate)
| Panic (msg : string)
| Fault (what : string)
| Block (s : kstate) (k : kstate -> outcome T).
Arguments Ret {T} a s.
Arguments Panic {T} msg.
Arguments Fault {T} what.
Arguments Block {T} s k.

Definition M (T : Type) : Type := kstate -> outcome T.

Fixpoint obind {T U : Type} (o : outcome T) (f : T -> M U) : outcome U :=
  match o with
  | Ret a s => f a s
  | Panic m => Panic m
  | Fault w => Fault w
  | Block s k => Block s (fun s' => obind (k s') f)
  end.

#[export] Instance M_ret : MRet M := fun T a s => Ret a s.
#[export] Instance M_bind : MBind M := fun T U f m s => obind (m s) f.

Definition panic {T} (msg : string) : M T := fun _ => Panic msg.
Definition fault {T} (what : string) : M T := fun _ => Fault what.
Definition gets {T} (f : kstate -> T) : M T := fun s => Ret (f s) s.
Definition modify (f : kstate -> kstate) : M unit := fun s => Ret tt (f s).

(** A partial access that must succeed: the C code does not check it. *)
Definition need {T} (o : option T) (what : string) : M T :=
  match o with Some a => mret a | None => fault what end.

(** [memmove(dst + off, src, n)], [n] converted to [uint]: a fault when it
    leaves either object. *)
Definition memmove (dst : list Z) (off : Z) (src : list Z) (n : Z) (what : string) : M (list Z) :=
  let n := u32 n in
  if (0 <=? off) && (n <=? Z.of_nat (length src)) && (off + n <=? Z.of_nat (length dst))
  then mret (blit dst (Z.to_nat off) (take (Z.to_nat n) src))
  else fault what.

(** A store of the bytes [v] at offset [o] of an object. *)
Definition mstore (dst : list Z) (o : nat) (v : list Z) (what : string) : M (list Z) :=
  if Z.of_nat (o + length v) <=? Z.of_nat (length dst) then mret (blit dst o v) else fault what.

(** Run a loop body over a list of loop indices. *)
Fixpoint mfor {T} (l : list T) (body : T -> M unit) : M unit :=
  match l with
  | [] => mret tt
  | x :: l' => body x ;; mfor l' body
  end.

Definition emit (e : event) : M unit := modify (fun s => s <| trace := trace s ++ [e] |>).

(** The bytes of a console message. *)
Definition chars (s : string) : list Z :=
  (fun a => Z.of_nat (Ascii.nat_of_ascii a)) <$> String.list_ascii_of_string s.
Definition cprintf (s : string) : M unit := emit (EvPrint (chars s)).

(** The contents of uninitialised memory of [n] bytes (a local object, a fresh
    page): arbitrary, so a parameter of the code that leaves some of it so. *)
Class Stack := {
  uninit : nat -> list Z;
  length_uninit : forall n, length (uninit n) = n;
  uninit_bytes : forall n, bytes_ok (uninit n);
}.

(** [memmove(buffer + off, src, n)] where [buffer] is a page from [kalloc]. *)
Definition page_write (buffer off : Z) (src : list Z) (n : Z) (what : string) : M unit :=
  m ← gets (fun s => mem (kmem s));
  pg ← need (m !! buffer) what;
  pg ← memmove pg off src n what;
  modify (fun s => s <| kmem := (kmem s) <| mem := <[buffer := pg]> (mem (kmem s)) |> |>).

(** [memmove(dst, buffer + off, n)]: the bytes read. *)
Definition page_read (buffer off n : Z) (what : string) : M (list Z) :=
  m ← gets (fun s => mem (kmem s));
  pg ← need (m !! buffer) what;
  if (0 <=? off) && (off + u32 n <=? Z.of_nat (length pg))
  then mret (take (Z.to_nat (u32 n)) (drop (Z.to_nat off) pg)) else fault what.

(** ** Array accesses *)
Definition get_socket (i : nat) : M socket :=
  l ← gets sockets; need (l !! i) "sockets[]".
Definition set_socket (i : nat) (f : socket -> socket) : M unit :=
  modify (fun s => s <| sockets := alter f i (sockets s) |>).
(** [ports[p]] with an [int] or [ushort] index. *)
Definition port_at (s : kstate) (p : Z) : option port :=
  if 0 <=? p then ports s !! Z.to_nat p else None.
Definition get_port (p : Z) : M port := fun s => need (port_at s p) "ports[]" s.
Definition set_port (p : Z) (f : port -> port) : M unit :=
  modify (fun s => s <| ports := alter f (Z.to_nat p) (ports s) |>).
Definition upd_tcon (f : tcp_connection -> tcp_connection) (s : socket) : socket :=
  s <| tcon := f (tcon s) |>.

(** ** Zero-initialised globals (.bss) and the initialised ones *)
Definition zero_bytes (n : Z) : list Z := replicate (Z.to_nat n) 0.
Definition zero_arp_entry : arp_entry := mkArpEntry 0 (zero_bytes 6) 0 EMPTY.
Definition zero_request : tcp_request := mkTcpRequest 0 (zero_bytes SIZEOF_TCP_PACKET).
Definition zero_queued_packet : queued_packet :=
  mkQueuedPacket 0 0 (zero_bytes SIZEOF_TCP_PACKET).
Definition zero_tcon : tcp_connection :=
  mkTcpConnection TCP_CLOSED 0 0 (replicate 10 zero_queued_packet) zero_queue 0 0 0 0 0 0 0.
Definition zero_socket : socket :=
  mkSocket 0 0 0 zero_queue SOCKET_FREE 0 0 0 zero_tcon.
Definition zero_port : port := mkPort 0 None None.
Definition zero_proc : proc :=
  mkProc 0 0 0 UNUSED 0 None zero_tf None false (replicate 16 None) None (zero_bytes 16).
Definition zero_file : file := mkFile FD_NONE 0 false false 0 None None 0.

(** The state at reset, for a kernel image ending at [kend]. *)
Definition bss (kend : Z) : kstate :=
  mkK 0xc0a80202 0xffffff00 0xc0a80201 0 (zero_bytes 6) 0
    (replicate 10 zero_arp_entry) 0 (mkIcmpReply 0 0 0)
    (replicate MAX_PENDING_REQUESTS zero_request) (replicate 2048 zero_port)
    (replicate NSOCKETS zero_socket) (replicate NPROC zero_proc) 1 None None
    (replicate NFILE zero_file) ∅ (mkKmem kend false 0 ∅)
    (mkNic (zero_bytes 1514) (zero_bytes 8208) 0 0 0 0 0) zero_fs [] [].

(** The same with empty tables: a base for small concrete states. *)
Definition tiny : kstate :=
  mkK 0xc0a80202 0xffffff00 0xc0a80201 0 [0x52; 0x54; 0x98; 0x76; 0x54; 0x32] 100
    [] 0 (mkIcmpReply 0 0 0) [] [] [] [] 1 None None [] ∅ (mkKmem 0x80100000 false 0 ∅)
    (mkNic (zero_bytes 1514) [] 0 0 0 0 0) (mkFs [] [] [] [] zero_log zero_sb []) [] [].

(** ** Running computations *)

(** [m] run from [s] returns [a] in state [s'] without sleeping. *)
Abbreviation returns m s a s' := (m s = Ret a s').

Lemma bind_ret {T U} (m : M T) (f : T -> M U) s a s' :
  returns m s a s' -> (m ≫= f) s = f a s'.
Proof. intros H. unfold mbind, M_bind. by rewrite H. Qed.

(** The same one operation at a time, by rewriting: large arguments of the
    operations are left alone. *)
Lemma bind_gets {T U} (f : kstate -> T) (k : T -> M U) s : (gets f ≫= k) s = k (f s) s.
Proof. done. Qed.
Lemma bind_modify {U} f (k : unit -> M U) s : (modify f ≫= k) s = k tt (f s).
Proof. done. Qed.
Lemma bind_mret {T U} (a : T) (k : T -> M U) s : ((mret a : M T) ≫= k) s = k a s.
Proof. done. Qed.
Lemma bind_need {T U} (a : T) o w (k : T -> M U) s : o = Some a -> (need o w ≫= k) s = k a s.
Proof. by intros ->. Qed.
Lemma memmove_ok dst off src n what s :
  0 <= off -> 0 <= n < 2 ^ 32 -> n <= Z.of_nat (length src) ->
  off + n <= Z.of_nat (length dst) ->
  memmove dst off src n what s = Ret (blit dst (Z.to_nat off) (take (Z.to_nat n) src)) s.
Proof.
  intros. unfold memmove. rewrite u32_small by done.
  by rewrite !(proj2 (Z.leb_le _ _)) by lia.
Qed.

(** Unfold the monad operations at the head of a run. *)
Ltac mrun :=
  unfold mbind, M_bind, mret, M_ret, gets, modify, panic, fault, emit, cprintf; cbn [obind].

Lemma bind_get_socket {U} i a (k : socket -> M U) s :
  sockets s !! i = Some a -> (get_socket i ≫= k) s = k a s.
Proof. intros H. unfold get_socket, mbind, M_bind, gets. cbn [obind]. by rewrite H. Qed.
Lemma bind_set_socket {U} i f (k : unit -> M U) s :
  (set_socket i f ≫= k) s = k tt (s <| sockets := alter f i (sockets s) |>).
Proof. done. Qed.
Lemma get_port_ok p po s : port_at s p = Some po -> get_port p s = Ret po s.
Proof. intros H. unfold get_port. by rewrite H. Qed.

Lemma mstore_ok dst o v what s : (o + length v <= length dst)%nat ->
  mstore dst o v what s = Ret (blit dst o v) s.
Proof. intros. unfold mstore. by rewrite (proj2 (Z.leb_le _ _)) by lia. Qed.

Lemma page_write_ok buffer off src n what pg s :
  mem (kmem s) !! buffer = Some pg -> 0 <= off -> 0 <= n < 2 ^ 32 ->
  n <= Z.of_nat (length src) -> off + n <= Z.of_nat (length pg) ->
  page_write buffer off src n what s =
  Ret tt (s <| kmem := (kmem s) <| mem :=
    <[buffer := blit pg (Z.to_nat off) (take (Z.to_nat n) src)]> (mem (kmem s)) |> |>).
Proof.
  intros. unfold page_write. rewrite bind_gets, (bind_need pg) by done.
  by erewrite bind_ret by (apply memmove_ok; lia).
Qed.

Ltac mstep := first [rewrite bind_gets | rewrite bind_modify | rewrite bind_mret]; cbv beta.
