(* ===== verification/Kalloc.v ===== *)
(** * Kalloc: lock calls and the physical page allocator

    The calls [acquire] and [release] as kernel code on one CPU sees them, and
    kalloc.c: a free list threaded through the first word of the free pages.
    The theorems show that the allocator refines a stack of distinct pages. *)
From S2P Require Import Prelude Queue KState.

(** ** memlayout.h, mmu.h *)
Definition KERNBASE : Z := 0x80000000.
Definition PHYSTOP : Z := 0x20000000.
Definition V2P (a : Z) : Z := u32 (a - KERNBASE).
Definition P2V (a : Z) : Z := u32 (a + KERNBASE).
Definition PGROUNDUP (sz : Z) : Z := Z.land (u32 (sz + PGSIZE - 1)) (Z.lnot (PGSIZE - 1)).
Definition PGROUNDDOWN (a : Z) : Z := Z.land a (Z.lnot (PGSIZE - 1)).

(** ** Spin locks on one CPU

    While a critical section runs on this CPU interrupts are off, so a lock can
    only be found taken by this CPU itself, which is a panic: [acquire] panics
    on a lock it holds and [release] on one it does not hold. *)
Fixpoint unlock (lk : lockid) (h : list lockid) : list lockid :=
  match h with
  | [] => []
  | x :: h' => if decide (x = lk) then h' else x :: unlock lk h'
  end.
Definition acquire (lk : lockid) : M unit :=
  h ← gets held;
  if bool_decide (lk ∈ h) then panic "acquire"
  else modify (fun s => s <| held := lk :: held s |>).
Definition release (lk : lockid) : M unit :=
  h ← gets held;
  if bool_decide (lk ∈ h)
  then modify (fun s => s <| held := unlock lk (held s) |>)
  else panic "release".

(** ** kalloc.c *)
Module Kalloc.

(** [memset(v, 1, PGSIZE)] and the store [r->next = next]. *)
Definition free_page_bytes (next : Z) : list Z :=
  blit (replicate (Z.to_nat PGSIZE) 1) 0 (le32 next).

Definition kfree (v : Z) : M unit :=
  k ← gets kmem;
  if negb (v `mod` PGSIZE =? 0) || (v <? end_ k) || (PHYSTOP <=? V2P v)
  then panic "kfree"
  else
    modify (fun s => s <| kmem := (kmem s) <| mem :=
      <[v := replicate (Z.to_nat PGSIZE) 1]> (mem (kmem s)) |> |>) ;;
    (if use_lock k then acquire LkKmem else mret tt) ;;
    modify (fun s => s <| kmem := (kmem s)
      <| mem := <[v := free_page_bytes (freelist (kmem s))]> (mem (kmem s)) |>
      <| freelist := v |> |>) ;;
    (if use_lock k then release LkKmem else mret tt).

Definition kalloc : M Z :=
  k ← gets kmem;
  (if use_lock k then acquire LkKmem else mret tt) ;;
  r ← gets (fun s => freelist (kmem s));
  (if negb (r =? 0)
   then
     m ← gets (fun s => mem (kmem s));
     pg ← need (m !! r) "r->next";
     modify (fun s => s <| kmem := (kmem s) <| freelist := get32 pg 0 |> |>)
   else mret tt) ;;
  (if use_lock k then release LkKmem else mret tt) ;;
  mret r.

(** [for(; p + PGSIZE <= (char* )vend; p += PGSIZE) kfree(p);] *)
Fixpoint freerange_loop (fuel : nat) (p vend : Z) : M unit :=
  match fuel with
  | O => fault "freerange: fuel"
  | S fuel' =>
    if u32 (p + PGSIZE) <=? vend
    then kfree p ;; freerange_loop fuel' (u32 (p + PGSIZE)) vend
    else mret tt
  end.
Definition freerange (vstart vend : Z) : M unit :=
  freerange_loop (S (Z.to_nat ((vend - vstart) / PGSIZE))) (PGROUNDUP vstart) vend.

Definition kinit1 (vstart vend : Z) : M unit :=
  modify (fun s => s <| kmem := (kmem s) <| use_lock := false |> |>) ;;
  freerange vstart vend.
Definition kinit2 (vstart vend : Z) : M unit :=
  freerange vstart vend ;;
  modify (fun s => s <| kmem := (kmem s) <| use_lock := true |> |>).

(** ** Specification: a stack of distinct free pages *)

(** The addresses [kfree] accepts. *)
Definition valid_page (k : kmem_t) (v : Z) : Prop :=
  v `mod` PGSIZE = 0 /\ end_ k <= v /\ KERNBASE <= v < KERNBASE + PHYSTOP.

(** The chain of free pages starting at [hd]. *)
Fixpoint chain (m : gmap Z (list Z)) (hd : Z) (l : list Z) : Prop :=
  match l with
  | [] => hd = 0
  | x :: l' => hd = x /\ x <> 0 /\ exists pg, m !! x = Some pg /\ chain m (get32 pg 0) l'
  end.
Definition repr (k : kmem_t) (l : list Z) : Prop :=
  chain (mem k) (freelist k) l /\ NoDup l /\ Forall (valid_page k) l.

(** Sequences of allocator calls: [KAlloc], and [KFree] of a page that is not
    free.  The specification state is the list of free pages. *)
Inductive kop : Type := KAlloc | KFree (v : Z).
Definition kop_ok (k : kmem_t) (l : list Z) (o : kop) : Prop :=
  match o with KAlloc => True | KFree v => valid_page k v /\ v ∉ l end.
Definition k_step (o : kop) : M Z :=
  match o with KAlloc => kalloc | KFree v => kfree v ;; mret 0 end.
Definition stack_step (l : list Z) (o : kop) : Z * list Z :=
  match o with
  | KAlloc => match l with [] => (0, []) | p :: l' => (p, l') end
  | KFree v => (0, v :: l)
  end.
Fixpoint kops_ok (k : kmem_t) (l : list Z) (os : list kop) : Prop :=
  match os with
  | [] => True
  | o :: os' => kop_ok k l o /\ kops_ok k (snd (stack_step l o)) os'
  end.
Fixpoint k_run (os : list kop) : M (list Z) :=
  match os with
  | [] => mret []
  | o :: os' => r ← k_step o; rs ← k_run os'; mret (r :: rs)
  end.
Fixpoint stack_run (l : list Z) (os : list kop) : list Z :=
  match os with
  | [] => []
  | o :: os' => let '(r, l') := stack_step l o in r :: stack_run l' os'
  end.

(** ** Lemmas *)
Lemma acquire_ok lk s : lk ∉ held s ->
  acquire lk s = Ret tt (s <| held := lk :: held s |>).
Proof. intros. unfold acquire. mrun. by rewrite bool_decide_eq_false_2. Qed.

Lemma release_ok lk s : lk ∈ held s ->
  release lk s = Ret tt (s <| held := unlock lk (held s) |>).
Proof. intros. unfold release. mrun. by rewrite bool_decide_eq_true_2. Qed.

(** The two outcomes of a lock call. *)
Lemma acquire_cases lk s :
  acquire lk s = Ret tt (s <| held := lk :: held s |>) \/ acquire lk s = Panic "acquire".
Proof. unfold acquire. mrun. case_bool_decide; auto. Qed.
Lemma release_cases lk s :
  release lk s = Ret tt (s <| held := unlock lk (held s) |>) \/ release lk s = Panic "release".
Proof. unfold release. mrun. case_bool_decide; auto. Qed.

Lemma unlock_head lk l : unlock lk (lk :: l) = l.
Proof. simpl. by rewrite decide_True. Qed.

Lemma valid_page_le k v : valid_page k v -> 0 < v < 2 ^ 32.
Proof. unfold valid_page, KERNBASE, PHYSTOP. widths. lia. Qed.

Lemma valid_page_check k v : valid_page k v ->
  negb (v `mod` PGSIZE =? 0) || (v <? end_ k) || (PHYSTOP <=? V2P v) = false.
Proof.
  intros (Hm&He&Hr). rewrite Hm. unfold V2P, KERNBASE, PHYSTOP in *.
  rewrite u32_small by (widths; lia). rewrite (proj2 (Z.ltb_ge _ _)) by lia. simpl.
  apply Z.leb_gt. lia.
Qed.

Lemma free_page_next n : 0 <= n < 2 ^ 32 -> get32 (free_page_bytes n) 0 = n.
Proof. intros. unfold free_page_bytes. rewrite blit_0, get32_le32. by apply u32_small. Qed.

Lemma chain_insert m hd l v pg : v ∉ l -> chain m hd l -> chain (<[v := pg]> m) hd l.
Proof.
  revert hd. induction l as [|x l IH]; intros hd; [done|].
  rewrite not_elem_of_cons. intros [Hv Hl] (->&Hx&pg'&Hpg&Hc). split_and!; [done..|].
  exists pg'. rewrite lookup_insert_ne by done. auto.
Qed.

Lemma chain_head m hd l : chain m hd l -> hd = default 0 (head l).
Proof. destruct l; simpl; naive_solver. Qed.

(** What the allocator calls do to the state. *)
Definition kfree_result (v : Z) (s : kstate) : kstate :=
  s <| kmem := (kmem s) <| mem := <[v := free_page_bytes (freelist (kmem s))]> (mem (kmem s)) |>
                        <| freelist := v |> |>.

Lemma kfree_ok v s : valid_page (kmem s) v -> LkKmem ∉ held s ->
  kfree v s = Ret tt (kfree_result v s).
Proof.
  intros Hv Hl. unfold kfree. mrun. rewrite valid_page_check by done. mrun.
  destruct (use_lock (kmem s)) eqn:Hu; mrun.
  - rewrite acquire_ok by done. mrun. rewrite release_ok by (cbn; left). f_equal.
    cbn. unfold kfree_result. destruct s; cbn. by rewrite insert_insert_eq.
  - f_equal. unfold kfree_result. destruct s; cbn. by rewrite insert_insert_eq.
Qed.

Lemma kfree_repr v s l : valid_page (kmem s) v -> v ∉ l ->
  repr (kmem s) l -> repr (kmem (kfree_result v s)) (v :: l).
Proof.
  intros Hv Hn (Hc&Hd&Hf). split_and!; cbn.
  - split_and!; [done|pose proof (valid_page_le _ _ Hv); lia|].
    eexists. rewrite lookup_insert_eq. split; [done|].
    rewrite free_page_next; [by apply chain_insert|].
    rewrite (chain_head _ _ _ Hc). destruct l as [|x l]; [done|]. simpl.
    apply Forall_cons in Hf as [Hx _]. pose proof (valid_page_le _ _ Hx). lia.
  - by constructor.
  - constructor; [done|]. done.
Qed.

Lemma kalloc_ok s l : repr (kmem s) l -> LkKmem ∉ held s ->
  exists s', kalloc s = Ret (default 0 (head l)) s' /\ repr (kmem s') (tail l) /\
    s' = s <| kmem := (kmem s) <| freelist := freelist (kmem s') |> |>.
Proof.
  intros (Hc&Hd&Hf) Hl. unfold kalloc. mrun.
  assert (Hlk : forall (b : bool) s0, held s0 = held s ->
    (if b then acquire LkKmem else mret tt) s0
    = Ret tt (if b then s0 <| held := LkKmem :: held s0 |> else s0)).
  { intros [] s0 Hs0; [|done]. rewrite acquire_ok; [done|by rewrite Hs0]. }
  rewrite Hlk by done. mrun. clear Hlk.
  destruct l as [|p l]; simpl in Hc.
  - destruct (use_lock (kmem s)) eqn:Hu; cbn [kmem setf]; rewrite Hc; cbn [negb Z.eqb]; mrun.
    + rewrite release_ok by (cbn; left). mrun. eexists. split; [done|].
      split; [split_and!; cbn; auto|]. cbn. destruct s as []; cbn.
      by match goal with |- context [freelist ?k] => destruct k end.
    + eexists. split; [done|]. split; [split_and!; auto|].
      destruct s as []; cbn. by match goal with |- context [freelist ?k] => destruct k end.
  - destruct Hc as (Hhd&Hp&pg&Hpg&Hc).
    apply Forall_cons in Hf as [Hvp Hf]. apply NoDup_cons in Hd as [Hnp Hd].
    destruct (use_lock (kmem s)) eqn:Hu; cbn [kmem setf]; rewrite Hhd;
      rewrite (proj2 (Z.eqb_neq p 0)) by done; cbn [negb]; mrun;
      cbn [kmem setf]; rewrite Hpg; cbn [need]; mrun.
    + rewrite release_ok by (cbn; left). mrun. eexists. split; [done|].
      cbn. split; [split_and!; done|]. by destruct s.
    + eexists. split; [done|]. cbn. split; [split_and!; done|]. by destruct s.
Qed.

Lemma kalloc_step s l o : repr (kmem s) l -> LkKmem ∉ held s -> kop_ok (kmem s) l o ->
  exists s', k_step o s = Ret (fst (stack_step l o)) s' /\
    repr (kmem s') (snd (stack_step l o)) /\ held s' = held s /\
    end_ (kmem s') = end_ (kmem s).
Proof.
  intros Hr Hl Ho. destruct o as [|v]; simpl.
  - destruct (kalloc_ok s l Hr Hl) as (s'&->&Hr'&Hs').
    exists s'. destruct l; (split_and!; [done|done|by rewrite Hs'|by rewrite Hs']).
  - destruct Ho as [Hv Hn]. mrun. rewrite kfree_ok by done.
    eexists. split; [done|]. split; [by apply kfree_repr|]. done.
Qed.

Lemma kops_ok_end k k' l os : end_ k = end_ k' -> kops_ok k l os -> kops_ok k' l os.
Proof.
  intros He. revert l. induction os as [|o os IH]; intros l; [done|]. simpl.
  intros [Ho Hos]. split; [|auto]. destruct o; [done|]. simpl in *.
  unfold valid_page in *. by rewrite <- He.
Qed.

(** ** [freerange] *)
Lemma PGROUNDUP_eq sz : 0 <= sz -> sz + 4095 < 2 ^ 32 ->
  PGROUNDUP sz = (sz + 4095) `div` 4096 * 4096.
Proof.
  intros. unfold PGROUNDUP, PGSIZE. rewrite u32_small by lia.
  change (4096 - 1) with (Z.ones 12). fold (Z.ldiff (sz + 4096 - 1) (Z.ones 12)).
  rewrite <- Z.ldiff_land, Z.ldiff_ones_r, Z.shiftl_mul_pow2, Z.shiftr_div_pow2 by lia.
  f_equal. f_equal. lia.
Qed.

(** The pages [freerange] frees, in the order they end up on the list. *)
Fixpoint pages_from (n : nat) (p : Z) : list Z :=
  match n with O => [] | S n' => pages_from n' (p + PGSIZE) ++ [p] end.

Lemma pages_from_elem n p v : v ∈ pages_from n p -> p <= v < p + Z.of_nat n * PGSIZE.
Proof.
  revert p. induction n as [|n IH]; intros p; simpl; [by intros ?%elem_of_nil|].
  rewrite elem_of_app, list_elem_of_singleton. unfold PGSIZE in *.
  intros [H%IH| ->]; lia.
Qed.

Lemma freerange_loop_ok n p vend s l : forall fuel,
  repr (kmem s) l -> LkKmem ∉ held s ->
  p `mod` PGSIZE = 0 -> end_ (kmem s) <= p -> KERNBASE <= p ->
  vend <= KERNBASE + PHYSTOP ->
  p + Z.of_nat n * PGSIZE <= vend < p + Z.of_nat n * PGSIZE + PGSIZE ->
  (forall v, v ∈ l -> ~ (p <= v < vend)) -> (n < fuel)%nat ->
  exists s', freerange_loop fuel p vend s = Ret tt s' /\
    repr (kmem s') (pages_from n p ++ l) /\ held s' = held s.
Proof.
  revert p s l. induction n as [|n IH]; intros p s l fuel Hr Hl Hm He Hk Hend Hn Hd Hf;
    (destruct fuel as [|fuel]; [lia|]); simpl; unfold PGSIZE, KERNBASE, PHYSTOP in *.
  - rewrite u32_small by (widths; lia). rewrite (proj2 (Z.leb_gt _ _)) by lia.
    exists s. done.
  - rewrite u32_small by (widths; lia). rewrite (proj2 (Z.leb_le _ _)) by lia.
    assert (Hv : valid_page (kmem s) p).
    { unfold valid_page, PGSIZE, KERNBASE, PHYSTOP. lia. }
    mrun. rewrite kfree_ok by done. mrun.
    assert (Hp : p ∉ l) by (intros ?%Hd; lia).
    destruct (IH (p + 4096) (kfree_result p s) (p :: l) fuel) as (s'&->&Hr'&Hh).
    + by apply kfree_repr.
    + done.
    + zlia.
    + cbn. lia.
    + lia.
    + done.
    + lia.
    + intros v [->|Hv']%elem_of_cons; [lia|]. specialize (Hd v Hv'). lia.
    + lia.
    + exists s'. split_and!; [done| |done]. by rewrite <- app_assoc.
Qed.

(** ** Properties *)

(** C17: the page allocator refines a stack of distinct free pages: any sequence
    of [kalloc] calls and of [kfree] calls on valid pages that are not free
    runs without panic or wild access and returns what the stack returns, so
    [kalloc] never hands out a page that is still free-listed twice and returns
    0 exactly when no page is left. *)
Theorem kalloc_refines_stack s l os :
  repr (kmem s) l -> LkKmem ∉ held s -> kops_ok (kmem s) l os ->
  exists s', k_run os s = Ret (stack_run l os) s'.
Proof.
  revert s l. induction os as [|o os IH]; intros s l Hr Hl Ho; [by exists s|].
  destruct Ho as [Ho Hos]. destruct (kalloc_step s l o Hr Hl Ho) as (s1&Hs1&Hr1&Hh&He).
  simpl. mrun. rewrite Hs1. mrun.
  destruct (IH s1 _ Hr1) as (s2&Hs2).
  - by rewrite Hh.
  - by apply (kops_ok_end (kmem s)).
  - rewrite Hs2. exists s2. by destruct (stack_step l o).
Qed.

Lemma kalloc_refines_stack_witness :
  exists s', k_run [KAlloc; KFree 0x80400000; KFree 0x80401000; KAlloc; KAlloc; KAlloc]
    (bss 0x80100000) =
    Ret (stack_run [] [KAlloc; KFree 0x80400000; KFree 0x80401000; KAlloc; KAlloc; KAlloc]) s'.
Proof.
  apply (kalloc_refines_stack (bss 0x80100000) []).
  - split; [reflexivity|]. split; constructor.
  - apply not_elem_of_nil.
  - unfold kops_ok, kop_ok, valid_page; simpl. unfold PGSIZE, KERNBASE, PHYSTOP.
    split_and!; first [done | lia | set_solver].
Defined.

(** [freerange] terminates and pushes exactly the whole pages between the
    rounded-up start and the end onto the free list (fuel [(vend-vstart)/4096 + 1]
    is enough), for any range inside physical memory disjoint from the pages
    already free. *)
Theorem freerange_frees_range s l vstart vend :
  repr (kmem s) l -> LkKmem ∉ held s ->
  end_ (kmem s) <= vstart -> KERNBASE <= vstart <= vend -> vend <= KERNBASE + PHYSTOP ->
  PGROUNDUP vstart <= vend ->
  (forall v, v ∈ l -> ~ (PGROUNDUP vstart <= v < vend)) ->
  exists s', freerange vstart vend s = Ret tt s' /\
    repr (kmem s') (pages_from (Z.to_nat ((vend - PGROUNDUP vstart) / PGSIZE)) (PGROUNDUP vstart) ++ l)
    /\ held s' = held s.
Proof.
  intros Hr Hl He Hk Hp Hle Hd. unfold KERNBASE, PHYSTOP in *.
  assert (Hup : PGROUNDUP vstart = (vstart + 4095) `div` 4096 * 4096).
  { apply PGROUNDUP_eq; widths; lia. }
  unfold freerange, PGSIZE in *. apply freerange_loop_ok; try done; rewrite ?Hup in *.
  - unfold PGSIZE. zlia.
  - zlia.
  - unfold KERNBASE. zlia.
  - unfold PGSIZE. zlia.
  - zlia.
Qed.

Lemma freerange_frees_range_witness :
  exists s', freerange 0x80100123 0x80103000 (bss 0x80100123) = Ret tt s' /\
    repr (kmem s') (pages_from (Z.to_nat ((0x80103000 - PGROUNDUP 0x80100123) / PGSIZE))
      (PGROUNDUP 0x80100123) ++ []) /\ held s' = held (bss 0x80100123).
Proof.
  apply (freerange_frees_range (bss 0x80100123) [] 0x80100123 0x80103000).
  - split; [reflexivity|]. split; constructor.
  - apply not_elem_of_nil.
  - vm_compute. discriminate.
  - vm_compute. split; discriminate.
  - vm_compute. discriminate.
  - vm_compute. discriminate.
  - intros v Hv. by apply elem_of_nil in Hv.
Defined.

End Kalloc.
