(* ===== verification/Proc.v ===== *)
(** * Proc: sleep, wakeup, kill and the scheduler (proc.c)

    The process table as a list of [proc] records.  The theorems show that
    [sleep] parks the process and releases its lock in one atomic step, that
    [wakeup] makes exactly the sleepers of the channel runnable, and that every
    operation moves processes along the state diagram of xv6 only. *)
From S2P Require Import Prelude Queue KState Kalloc.
Import Kalloc.

Module Proc.

(** ** proc.c *)

(** [myproc()]: the process on this CPU, [None] for NULL. *)
Definition myproc : M (option nat) := gets curproc.
Definition get_proc (i : nat) : M proc := l ← gets ptable; need (l !! i) "ptable.proc[]".
Definition set_proc (i : nat) (f : proc -> proc) : M unit :=
  modify (fun s => s <| ptable := alter f i (ptable s) |>).

(** Wake up all processes sleeping on [c]; the ptable lock is held. *)
Definition wakeup1_proc (c : chan) (p : proc) : proc :=
  if bool_decide (p_state p = SLEEPING) && bool_decide (p_chan p = Some c)
  then p <| p_state := RUNNABLE |> else p.
Definition wakeup1 (c : chan) : M unit :=
  modify (fun s => s <| ptable := wakeup1_proc c <$> ptable s |>).
Definition wakeup (c : chan) : M unit :=
  acquire LkPtable ;; wakeup1 c ;; release LkPtable.

(** Enter the scheduler.  [mycpu()->ncli] counts the held locks, and while one
    is held interrupts are off, so the last check of [sched] cannot fire. *)
Definition sched : M unit :=
  o ← myproc;
  h ← gets held;
  if negb (bool_decide (LkPtable ∈ h)) then panic "sched ptable.lock"
  else if negb (Nat.eqb (length h) 1) then panic "sched locks"
  else
    i ← need o "sched: myproc";
    p ← get_proc i;
    if bool_decide (p_state p = RUNNING) then panic "sched running"
    else fun s => Block s (fun s' => Ret tt s').

(** Give up the CPU for one scheduling round. *)
Definition yield : M unit :=
  acquire LkPtable ;;
  o ← myproc; i ← need o "yield: myproc";
  set_proc i (fun p => p <| p_state := RUNNABLE |>) ;;
  sched ;;
  release LkPtable.

(** Atomically release [lk] and sleep on [c]; reacquire [lk] when awakened. *)
Definition sleep (c : chan) (lk : lockid) : M unit :=
  o ← myproc;
  match o with
  | None => panic "sleep"
  | Some i =>
    (if decide (lk = LkPtable) then mret tt else acquire LkPtable ;; release lk) ;;
    set_proc i (fun p => p <| p_chan := Some c |> <| p_state := SLEEPING |>) ;;
    sched ;;
    set_proc i (fun p => p <| p_chan := None |>) ;;
    (if decide (lk = LkPtable) then mret tt else release LkPtable ;; acquire lk)
  end.

(** Sleep without a lock. *)
Definition sleepnolock (c : chan) : M unit :=
  o ← myproc;
  match o with
  | None => panic "sleep"
  | Some i =>
    acquire LkPtable ;;
    set_proc i (fun p => p <| p_chan := Some c |> <| p_state := SLEEPING |>) ;;
    sched ;;
    set_proc i (fun p => p <| p_chan := None |>) ;;
    release LkPtable
  end.

(** Kill the process with the given pid. *)
Definition kill_proc (p : proc) : proc :=
  let p := p <| p_killed := true |> in
  if bool_decide (p_state p = SLEEPING) then p <| p_state := RUNNABLE |> else p.
Definition kill (pid : Z) : M Z :=
  acquire LkPtable ;;
  l ← gets ptable;
  match find_index (fun p => p_pid p =? pid) l with
  | Some i => set_proc i kill_proc ;; release LkPtable ;; mret 0
  | None => release LkPtable ;; mret (-1)
  end.

(** Look for an UNUSED proc, make it EMBRYO with a fresh pid and a kernel stack.
    The frame built at the top of that stack (trap frame, return address,
    context) is machine state the model does not carry. *)
Definition allocproc : M (option nat) :=
  acquire LkPtable ;;
  l ← gets ptable;
  match find_index (fun p => bool_decide (p_state p = UNUSED)) l with
  | None => release LkPtable ;; mret None
  | Some i =>
    pid ← gets nextpid;
    set_proc i (fun p => p <| p_state := EMBRYO |> <| p_pid := pid |>) ;;
    modify (fun s => s <| nextpid := s32 (nextpid s + 1) |>) ;;
    release LkPtable ;;
    stk ← kalloc;
    set_proc i (fun p => p <| p_kstack := stk |>) ;;
    if stk =? 0
    then set_proc i (fun p => p <| p_state := UNUSED |>) ;; mret None
    else mret (Some i)
  end.

(** The scan of [scheduler] from slot [i]: the next RUNNABLE process is made
    RUNNING and switched to; [None] is the end of the table. *)
Definition scheduler_next (i : nat) (s : kstate) : option (nat * kstate) :=
  j ← find_index (fun p => bool_decide (p_state p = RUNNABLE)) (drop i (ptable s));
  let n := (i + j)%nat in
  Some (n, s <| curproc := Some n |>
             <| ptable := alter (fun p => p <| p_state := RUNNING |>) n (ptable s) |>).

(** ** The state diagram *)
Inductive pstep : procstate -> procstate -> Prop :=
| ps_same st : pstep st st
| ps_alloc : pstep UNUSED EMBRYO
| ps_alloc_fail : pstep EMBRYO UNUSED
| ps_ready : pstep EMBRYO RUNNABLE
| ps_run : pstep RUNNABLE RUNNING
| ps_yield : pstep RUNNING RUNNABLE
| ps_sleep : pstep RUNNING SLEEPING
| ps_wake : pstep SLEEPING RUNNABLE
| ps_exit : pstep RUNNING ZOMBIE
| ps_reap : pstep ZOMBIE UNUSED.

(** Every slot of the table moved along the diagram. *)
Definition table_step (l l' : list proc) : Prop :=
  Forall2 (fun p p' => pstep (p_state p) (p_state p')) l l'.

(** One atomic segment of kernel code that changes the process table. *)
Inductive op_step : kstate -> kstate -> Prop :=
| os_wakeup c s s' : wakeup c s = Ret tt s' -> op_step s s'
| os_kill pid r s s' : kill pid s = Ret r s' -> op_step s s'
| os_alloc o s s' : allocproc s = Ret o s' -> op_step s s'
| os_sched i n s s' : scheduler_next i s = Some (n, s') -> op_step s s'
| os_yield s s' k : yield s = Block s' k -> op_step s s'
| os_sleep c lk s s' k : sleep c lk s = Block s' k -> op_step s s'
| os_sleepnolock c s s' k : sleepnolock c s = Block s' k -> op_step s s'.

(** The process on the CPU, if any, is RUNNING: kernel code runs on behalf of a
    process the scheduler switched to. *)
Definition cur_running (s : kstate) : Prop :=
  exists i p, curproc s = Some i /\ ptable s !! i = Some p /\ p_state p = RUNNING.

(** ** Lemmas *)
Lemma wakeup_ok c s : LkPtable ∉ held s ->
  wakeup c s = Ret tt (s <| ptable := wakeup1_proc c <$> ptable s |>).
Proof.
  intros. unfold wakeup. mrun. rewrite acquire_ok by done. unfold wakeup1. mrun.
  rewrite release_ok by (cbn; left). by destruct s.
Qed.

Lemma get_proc_ok i p s : ptable s !! i = Some p -> get_proc i s = Ret p s.
Proof. intros H. unfold get_proc. mrun. by rewrite H. Qed.

Lemma bind_set_proc {U} k f (g : unit -> M U) s :
  (set_proc k f ≫= g) s = g tt (s <| ptable := alter f k (ptable s) |>).
Proof. done. Qed.

Lemma sched_ok i p s : curproc s = Some i -> ptable s !! i = Some p ->
  held s = [LkPtable] -> p_state p <> RUNNING ->
  sched s = Block s (fun s' => Ret tt s').
Proof.
  intros Hi Hp Hh Hst. unfold sched, myproc. mrun. rewrite Hh, Hi.
  rewrite bool_decide_eq_true_2 by set_solver. simpl. mrun.
  rewrite (get_proc_ok i p) by done. mrun. by rewrite bool_decide_eq_false_2.
Qed.

Lemma table_step_refl l : table_step l l.
Proof. apply Forall2_self. constructor. Qed.

Lemma table_step_alter f i l :
  (forall p, l !! i = Some p -> pstep (p_state p) (p_state (f p))) ->
  table_step l (alter f i l).
Proof.
  intros H. apply Forall2_lookup. intros j. destruct (decide (i = j)) as [<-|].
  - rewrite list_lookup_alter_eq. destruct (l !! i) eqn:E; constructor. auto.
  - rewrite list_lookup_alter_ne by done. destruct (l !! j); constructor. constructor.
Qed.

Lemma table_step_fmap f l :
  (forall p, pstep (p_state p) (p_state (f p))) -> table_step l (f <$> l).
Proof. intros H. apply Forall2_fmap_r, Forall2_self. auto. Qed.

Lemma wakeup1_pstep c p : pstep (p_state p) (p_state (wakeup1_proc c p)).
Proof.
  unfold wakeup1_proc. case_bool_decide as Hs; simpl; [|constructor].
  rewrite Hs. case_bool_decide; [|rewrite Hs]; constructor.
Qed.

Lemma kill_pstep p : pstep (p_state p) (p_state (kill_proc p)).
Proof. unfold kill_proc; cbn. case_bool_decide as Hs; cbn; [rewrite Hs|]; constructor. Qed.

(** The state in which [sleep] and [sleepnolock] give up the CPU. *)
Definition park (i : nat) (c : chan) (s : kstate) : kstate :=
  s <| held := [LkPtable] |>
    <| ptable := alter (fun p => p <| p_chan := Some c |> <| p_state := SLEEPING |>) i (ptable s) |>.
Definition unpark (i : nat) (h : list lockid) (s : kstate) : kstate :=
  s <| ptable := alter (fun p => p <| p_chan := None |>) i (ptable s) |> <| held := h |>.

Lemma sched_park i p c s : curproc s = Some i -> ptable s !! i = Some p ->
  sched (park i c s) = Block (park i c s) (fun s' => Ret tt s').
Proof.
  intros Hi Hp. apply (sched_ok i (p <| p_chan := Some c |> <| p_state := SLEEPING |>)); try done.
  cbn. by rewrite list_lookup_alter_eq, Hp.
Qed.

Lemma sleep_blocks i p c lk s : curproc s = Some i -> ptable s !! i = Some p ->
  held s = [lk] -> lk <> LkPtable ->
  exists k, sleep c lk s = Block (park i c s) k /\
    forall s', held s' = [LkPtable] -> k s' = Ret tt (unpark i [lk] s').
Proof.
  intros Hi Hp Hh Hlk. unfold sleep, myproc. mrun. rewrite Hi, !decide_False by done. mrun.
  rewrite acquire_ok by (rewrite Hh; set_solver). mrun.
  rewrite release_ok by (cbn; rewrite Hh; set_solver). mrun.
  unfold set_proc at 1. mrun.
  match goal with |- context [sched ?x] => replace x with (park i c s) end.
  2:{ unfold park. destruct s; cbn in *. rewrite Hh. cbn.
      rewrite decide_False by done. by rewrite decide_True by done. }
  rewrite (sched_park i p) by done. cbn [obind]. eexists. split; [done|].
  intros s' Hs'. unfold set_proc. mrun.
  rewrite release_ok by (cbn; rewrite Hs'; set_solver). mrun.
  rewrite acquire_ok by (cbn; rewrite Hs'; cbn; set_solver).
  f_equal. unfold unpark. destruct s'; cbn in *. by rewrite Hs'.
Qed.

Lemma sleepnolock_blocks i p c s : curproc s = Some i -> ptable s !! i = Some p ->
  held s = [] ->
  exists k, sleepnolock c s = Block (park i c s) k /\
    forall s', held s' = [LkPtable] -> k s' = Ret tt (unpark i [] s').
Proof.
  intros Hi Hp Hh. unfold sleepnolock, myproc. mrun. rewrite Hi.
  rewrite acquire_ok by (rewrite Hh; set_solver). mrun.
  unfold set_proc at 1. mrun.
  match goal with |- context [sched ?x] => replace x with (park i c s) end.
  2:{ unfold park. destruct s; cbn in *. by rewrite Hh. }
  rewrite (sched_park i p) by done. cbn [obind]. eexists. split; [done|].
  intros s' Hs'. unfold set_proc. mrun.
  rewrite release_ok by (cbn; rewrite Hs'; set_solver).
  f_equal. unfold unpark. destruct s'; cbn in *. by rewrite Hs'.
Qed.

(** [sched] either stops the kernel or switches in the state it was called in. *)
Lemma sched_cases s :
  sched s = Block s (fun s' => Ret tt s') \/ (exists m, sched s = Panic m) \/
  (exists w, sched s = Fault w).
Proof.
  unfold sched, myproc, get_proc, need. mrun.
  repeat (case_match; mrun; eauto).
Qed.

Ltac lock_cases :=
  match goal with
  | |- context [acquire ?l ?s] =>
    let E := fresh in destruct (acquire_cases l s) as [E|E]; rewrite E; mrun; [|by intros]
  | |- context [release ?l ?s] =>
    let E := fresh in destruct (release_cases l s) as [E|E]; rewrite E; mrun; [|by intros]
  | |- context [sched ?s] =>
    let E := fresh in destruct (sched_cases s) as [E|[[? E]|[? E]]]; rewrite E; mrun;
      [|by intros..]
  end.

Lemma yield_inv i s s' k : curproc s = Some i -> yield s = Block s' k ->
  ptable s' = alter (fun p => p <| p_state := RUNNABLE |>) i (ptable s).
Proof.
  intros Hi. unfold yield, myproc, set_proc. mrun. lock_cases. cbn [curproc setf].
  rewrite Hi. cbn [need]. mrun. lock_cases. by intros [= <- _].
Qed.

Lemma sleep_inv i c lk s s' k : curproc s = Some i -> sleep c lk s = Block s' k ->
  ptable s' = alter (fun p => p <| p_chan := Some c |> <| p_state := SLEEPING |>) i (ptable s).
Proof.
  intros Hi. unfold sleep, myproc, set_proc. mrun. rewrite Hi.
  case_decide; mrun; repeat lock_cases; by intros [= <- _].
Qed.

Lemma sleepnolock_inv i c s s' k : curproc s = Some i -> sleepnolock c s = Block s' k ->
  ptable s' = alter (fun p => p <| p_chan := Some c |> <| p_state := SLEEPING |>) i (ptable s).
Proof.
  intros Hi. unfold sleepnolock, myproc, set_proc. mrun. rewrite Hi.
  repeat lock_cases. by intros [= <- _].
Qed.

Lemma kalloc_ptable r s s' : kalloc s = Ret r s' -> ptable s' = ptable s.
Proof.
  unfold kalloc. mrun. destruct (use_lock (kmem s)); mrun; repeat lock_cases;
    (case_match; mrun; [unfold need; case_match; mrun; [|by intros]|]); repeat lock_cases;
    by intros [= _ <-].
Qed.

Lemma wakeup_inv c s s' : wakeup c s = Ret tt s' -> ptable s' = wakeup1_proc c <$> ptable s.
Proof. unfold wakeup, wakeup1. mrun. repeat lock_cases. by intros [= <-]. Qed.

Lemma kill_inv pid r s s' : kill pid s = Ret r s' ->
  ptable s' = ptable s \/ exists i, ptable s' = alter kill_proc i (ptable s).
Proof.
  unfold kill, set_proc. mrun. lock_cases. case_match; mrun; lock_cases; intros [= _ <-]; cbn; eauto.
Qed.

Lemma allocproc_step o s s' : allocproc s = Ret o s' -> table_step (ptable s) (ptable s').
Proof.
  unfold allocproc, set_proc. mrun. lock_cases. cbn [ptable setf].
  destruct (find_index _ (ptable s)) as [i|] eqn:Hi; mrun; lock_cases.
  2:{ intros [= _ <-]. apply table_step_refl. }
  destruct (kalloc _) as [stk s1|?|?|? ?] eqn:Hk; mrun; [|by intros..].
  apply kalloc_ptable in Hk. cbn in Hk.
  apply find_index_Some in Hi as (p&Hp&Hst&_). apply bool_decide_eq_true in Hst.
  case_match; mrun; intros [= _ <-]; cbn; rewrite Hk, !list_alter_alter;
    apply table_step_alter; intros p' Hp'; simplify_eq; cbn; rewrite Hst; constructor.
Qed.

Lemma scheduler_next_step i n s s' : scheduler_next i s = Some (n, s') ->
  table_step (ptable s) (ptable s').
Proof.
  unfold scheduler_next. destruct (find_index _ _) as [j|] eqn:Hj; simpl; [|done].
  intros [= <- <-]. cbn. apply find_index_Some in Hj as (p&Hp&Hst&_).
  apply bool_decide_eq_true in Hst. rewrite lookup_drop in Hp.
  apply table_step_alter. intros p' Hp'. simplify_eq. cbn. rewrite Hst. constructor.
Qed.

(** ** Properties *)

(** [sleep(chan, lk)] atomically parks the caller: it switches to the
    scheduler with the process SLEEPING on [chan], [lk] released and only
    [ptable.lock] held, so a [wakeup] cannot fall between the release and the
    sleep; resumed by the scheduler (which holds [ptable.lock]) it clears the
    channel and holds [lk] again.  A [wakeup] of the channel while it sleeps
    makes it RUNNABLE, a [wakeup] of another channel leaves it SLEEPING. *)
Theorem sleep_wakeup i p c lk s :
  curproc s = Some i -> ptable s !! i = Some p -> held s = [lk] -> lk <> LkPtable ->
  exists s1 k, sleep c lk s = Block s1 k /\
    held s1 = [LkPtable] /\
    (exists p1, ptable s1 !! i = Some p1 /\ p_state p1 = SLEEPING /\ p_chan p1 = Some c) /\
    (forall s2, LkPtable ∉ held s2 -> ptable s2 = ptable s1 -> forall c', exists s3 p3,
       wakeup c' s2 = Ret tt s3 /\ ptable s3 !! i = Some p3 /\
       p_state p3 = if decide (c' = c) then RUNNABLE else SLEEPING) /\
    (forall s2, held s2 = [LkPtable] -> exists s3,
       k s2 = Ret tt s3 /\ held s3 = [lk] /\
       p_chan <$> (ptable s3 !! i) = (fun _ => None) <$> (ptable s2 !! i)).
Proof.
  intros Hi Hp Hh Hlk. destruct (sleep_blocks i p c lk s) as (k&Hk&Hres); try done.
  exists (park i c s), k. split_and!; [done..| | |].
  - cbn. rewrite list_lookup_alter_eq, Hp. by eexists.
  - intros s2 Hl Hpt c'. rewrite wakeup_ok by done. eexists _, _. split; [done|].
    cbn. rewrite Hpt. cbn. rewrite list_lookup_fmap, list_lookup_alter_eq, Hp. simpl.
    split; [done|]. unfold wakeup1_proc; cbn. case_decide as Hc; subst.
    + by rewrite !bool_decide_eq_true_2.
    + by rewrite (bool_decide_eq_false_2 (Some c = Some c')) by congruence.
  - intros s2 Hs2. eexists. rewrite Hres by done. split_and!; [done..|].
    cbn. rewrite list_lookup_alter_eq. by destruct (ptable s2 !! i).
Qed.

(** A one-process system, used by the witnesses. *)
Definition demo_state (h : list lockid) : kstate :=
  tiny <| ptable := [zero_proc <| p_state := RUNNING |> <| p_pid := 1 |>] |>
    <| curproc := Some 0%nat |> <| held := h |>.

Lemma sleep_wakeup_witness :
  exists s1 k, sleep ChTicks LkTicks (demo_state [LkTicks]) = Block s1 k /\
    held s1 = [LkPtable].
Proof.
  destruct (sleep_wakeup 0 (zero_proc <| p_state := RUNNING |> <| p_pid := 1 |>) ChTicks LkTicks
    (demo_state [LkTicks])) as (s1&k&H1&H2&_); [reflexivity..|discriminate|].
  exists s1, k. split; [exact H1|exact H2].
Defined.

(** every atomic segment of wakeup, kill, allocproc, the scheduler, yield,
    sleep and sleepnolock moves each process of the table along the xv6 state
    diagram only: in particular nothing but the scheduler makes a process
    RUNNING, only a RUNNING process goes to sleep, and a ZOMBIE or UNUSED
    process is never woken, killed into RUNNABLE or scheduled. *)
Theorem proc_state_diagram s s' :
  cur_running s -> op_step s s' -> table_step (ptable s) (ptable s').
Proof.
  intros (i&p&Hi&Hp&Hst) Hop. destruct Hop as [c s s' H|pid r s s' H|o s s' H|j n s s' H|s s' k H
    |c lk s s' k H|c s s' k H].
  - rewrite (wakeup_inv _ _ _ H). apply table_step_fmap, wakeup1_pstep.
  - destruct (kill_inv _ _ _ _ H) as [->|[j ->]]; [apply table_step_refl|].
    apply table_step_alter. intros. apply kill_pstep.
  - by eapply allocproc_step.
  - by eapply scheduler_next_step.
  - rewrite (yield_inv _ _ _ _ Hi H). apply table_step_alter. intros. simplify_eq. cbn.
    rewrite Hst. constructor.
  - rewrite (sleep_inv _ _ _ _ _ _ Hi H). apply table_step_alter. intros. simplify_eq. cbn.
    rewrite Hst. constructor.
  - rewrite (sleepnolock_inv _ _ _ _ _ Hi H). apply table_step_alter. intros. simplify_eq. cbn.
    rewrite Hst. constructor.
Qed.

Definition demo_killed : kstate :=
  (demo_state []) <| ptable :=
    [zero_proc <| p_state := RUNNING |> <| p_pid := 1 |> <| p_killed := true |>] |>.

Lemma proc_state_diagram_witness :
  table_step (ptable (demo_state [])) (ptable demo_killed).
Proof.
  apply (proc_state_diagram (demo_state []) demo_killed).
  - exists 0%nat, (zero_proc <| p_state := RUNNING |> <| p_pid := 1 |>).
    split; [reflexivity|]. split; reflexivity.
  - apply (os_kill 1 0). vm_compute. reflexivity.
Defined.

(** [kill(0)] succeeds on a free slot of the table (free slots have pid 0)
    and leaves it marked killed; [allocproc] does not clear the mark, so the
    next process created in that slot starts killed. *)
Theorem kill_zero_marks_free_slot i p s :
  find_index (fun p => p_pid p =? 0) (ptable s) = Some i ->
  ptable s !! i = Some p -> p_state p = UNUSED -> LkPtable ∉ held s ->
  exists s', kill 0 s = Ret 0 s' /\ ptable s' !! i = Some (p <| p_killed := true |>) /\
    forall s2, allocproc s' = Ret (Some i) s2 -> exists p2,
      ptable s2 !! i = Some p2 /\ p_killed p2 = true /\ p_state p2 = EMBRYO.
Proof.
  intros Hf Hp Hst Hl.
  set (s' := s <| ptable := alter kill_proc i (ptable s) |>).
  assert (Hs' : ptable s' !! i = Some (p <| p_killed := true |>)).
  { cbn. rewrite list_lookup_alter_eq, Hp. cbn. unfold kill_proc. cbn. by rewrite Hst. }
  exists s'. split_and!; [|done|].
  - unfold kill, set_proc. mrun. rewrite acquire_ok by done. mrun. cbn [ptable setf].
    rewrite Hf. mrun. rewrite release_ok by (cbn; left). mrun. subst s'. by destruct s.
  - intros s2. clearbody s'. unfold allocproc, set_proc. mrun. lock_cases. cbn [ptable setf].
    destruct (find_index _ (ptable s')) as [j|] eqn:Hj; mrun; lock_cases; [|by intros].
    destruct (kalloc _) as [stk s1|?|?|? ?] eqn:Hk; mrun; [|by intros..].
    apply kalloc_ptable in Hk. cbn in Hk. case_match; mrun; intros [= -> <-]. cbn.
    rewrite Hk, !list_lookup_alter_eq, Hs'. by eexists.
Qed.

Lemma kill_zero_marks_free_slot_witness :
  exists s', kill 0 (tiny <| ptable := [zero_proc] |>) = Ret 0 s' /\
    ptable s' !! 0%nat = Some (zero_proc <| p_killed := true |>).
Proof.
  destruct (kill_zero_marks_free_slot 0 zero_proc (tiny <| ptable := [zero_proc] |>))
    as (s'&H1&H2&_); [reflexivity..|apply not_elem_of_nil|].
  exists s'. split; [exact H1|exact H2].
Defined.

End Proc.
