(* ===== verification/Sleeplock.v ===== *)
(** * Sleeplock: long-term locks (sleeplock.c)

    A sleep-lock is a flag and the pid of its owner, guarded by a spinlock of
    its own; a process that finds it taken sleeps.  The storage stack runs on
    these locks, so this file also has the triple [runs] in which its theorems
    are stated: code run by a process that holds no spinlock, from one state of
    the storage stack to another, with the disk writes it makes. *)
From S2P Require Import Prelude Queue KState Kalloc Proc.

Definition upd_fs (f : fs_t -> fs_t) : M unit := modify (fun s => s <| fs := f (fs s) |>).

Module Sleeplock.

Definition get_sl (n : nat) : M sleeplock :=
  l ← gets (fun s => sleeplocks (fs s)); need (l !! n) "sleeplock".
Definition set_sl (n : nat) (sl : sleeplock) : M unit :=
  upd_fs (fun f => f <| sleeplocks := <[n := sl]> (sleeplocks f) |>).
(** [myproc()->pid]. *)
Definition mypid : M Z :=
  o ← Proc.myproc; i ← need o "myproc()"; p ← Proc.get_proc i; mret (p_pid p).

Definition initsleeplock (n : nat) : M unit := set_sl n (mkSleeplock false 0).

(** [while (lk->locked) sleep(lk, &lk->lk);], woken at most [fuel] times. *)
Fixpoint acquiresleep_wait (fuel : nat) (n : nat) : M unit :=
  match fuel with
  | O => fault "acquiresleep: fuel"
  | S fuel' =>
    sl ← get_sl n;
    if sl_locked sl then Proc.sleep (ChSleep n) (LkSleep n) ;; acquiresleep_wait fuel' n else mret tt
  end.

Definition acquiresleep (fuel : nat) (n : nat) : M unit :=
  acquire (LkSleep n) ;;
  acquiresleep_wait fuel n ;;
  pid ← mypid;
  set_sl n (mkSleeplock true pid) ;;
  release (LkSleep n).

Definition releasesleep (n : nat) : M unit :=
  acquire (LkSleep n) ;;
  set_sl n (mkSleeplock false 0) ;;
  Proc.wakeup (ChSleep n) ;;
  release (LkSleep n).

Definition holdingsleep (n : nat) : M bool :=
  acquire (LkSleep n) ;;
  sl ← get_sl n;
  r ← (if sl_locked sl then pid ← mypid; mret (sl_pid sl =? pid) else mret false);
  release (LkSleep n) ;;
  mret r.

(** ** Runs of the storage stack *)

(** Process [pid] runs with the spinlocks [h] held. *)
Definition ready (pid : Z) (h : list lockid) (s : kstate) : Prop :=
  held s = h /\ exists i p, curproc s = Some i /\ ptable s !! i = Some p /\ p_pid p = pid.

(** [m], run by [pid] with the spinlocks [h] held and the storage stack in state
    [f], returns [a] with the locks [h'] and the storage stack in state [f'],
    having written the blocks [ws] to the disk, in order.  Nothing else of the
    kernel changes but processes that are woken. *)
Definition runs {T} (pid : Z) (m : M T) (h : list lockid) (f : fs_t)
    (a : T) (ws : list (Z * list Z)) (h' : list lockid) (f' : fs_t) : Prop :=
  forall s, ready pid h s -> fs s = f -> exists s', m s = Ret a s' /\ ready pid h' s' /\
    s' = s <| fs := f' |> <| held := h' |> <| ptable := ptable s' |>
           <| trace := trace s ++ ((fun w => EvDisk w.1 w.2) <$> ws) |>.

Section Rules.
Context (pid : Z).

Lemma runs_ret {T} (a : T) h f : runs pid (mret a) h f a [] h f.
Proof.
  intros s Hr Hf. exists s. split_and!; [done|done|]. destruct Hr as [<- _]. cbn.
  rewrite app_nil_r. subst f. by destruct s.
Qed.

Lemma runs_bind {T U} (m : M T) (k : T -> M U) h f a w1 h1 f1 b w2 h2 f2 :
  runs pid m h f a w1 h1 f1 -> runs pid (k a) h1 f1 b w2 h2 f2 ->
  runs pid (m ≫= k) h f b (w1 ++ w2) h2 f2.
Proof.
  intros H1 H2 s Hr Hf. destruct (H1 s Hr Hf) as (s1&E1&Hr1&R1).
  destruct (H2 s1 Hr1) as (s2&E2&Hr2&R2); [by rewrite R1|].
  exists s2. split_and!; [|done|].
  - erewrite bind_ret by exact E1. exact E2.
  - rewrite R2, R1. cbn. by rewrite fmap_app, app_assoc.
Qed.

(** The common case: the first part writes nothing to the disk. *)
Lemma runs_seq {T U} (m : M T) (k : T -> M U) h f a h1 f1 b w h2 f2 :
  runs pid m h f a [] h1 f1 -> runs pid (k a) h1 f1 b w h2 f2 -> runs pid (m ≫= k) h f b w h2 f2.
Proof. intros H1 H2. exact (runs_bind m k h f a [] h1 f1 b w h2 f2 H1 H2). Qed.

Lemma runs_gets {T U} (g : fs_t -> T) (k : T -> M U) h f b w h2 f2 :
  runs pid (k (g f)) h f b w h2 f2 -> runs pid (gets (fun s => g (fs s)) ≫= k) h f b w h2 f2.
Proof.
  intros Hk s Hr Hf. destruct (Hk s Hr Hf) as (s'&E&R). exists s'. split; [|done].
  rewrite bind_gets, Hf. exact E.
Qed.

Lemma runs_need {T U} (o : option T) a msg (k : T -> M U) h f b w h2 f2 : o = Some a ->
  runs pid (k a) h f b w h2 f2 -> runs pid (need o msg ≫= k) h f b w h2 f2.
Proof. by intros ->. Qed.

Lemma runs_upd g h f : runs pid (upd_fs g) h f tt [] h (g f).
Proof.
  intros s Hr Hf. exists (s <| fs := g f |>). split_and!; [|done|].
  - unfold upd_fs. mrun. by rewrite Hf.
  - destruct Hr as [<- _]. cbn. rewrite app_nil_r. by destruct s.
Qed.

Lemma runs_acquire lk h f : lk ∉ h -> runs pid (acquire lk) h f tt [] (lk :: h) f.
Proof.
  intros Hl s [Hh Hp] Hf. exists (s <| held := lk :: h |>). split_and!.
  - rewrite Kalloc.acquire_ok by (by rewrite Hh). by rewrite Hh.
  - done.
  - cbn. rewrite app_nil_r. subst f. by destruct s.
Qed.

Lemma runs_release lk h f : runs pid (release lk) (lk :: h) f tt [] h f.
Proof.
  intros s [Hh Hp] Hf. exists (s <| held := h |>). split_and!.
  - rewrite Kalloc.release_ok by (rewrite Hh; left). by rewrite Hh, Kalloc.unlock_head.
  - done.
  - cbn. rewrite app_nil_r. subst f. by destruct s.
Qed.

Lemma runs_wakeup c h f : LkPtable ∉ h -> runs pid (Proc.wakeup c) h f tt [] h f.
Proof.
  intros Hl s [Hh (i&p&Hc&Hp&Hpid)] Hf.
  exists (s <| ptable := Proc.wakeup1_proc c <$> ptable s |>). split_and!.
  - apply Proc.wakeup_ok. by rewrite Hh.
  - split; [done|]. exists i, (Proc.wakeup1_proc c p). split_and!; [done| |].
    + cbn. by rewrite list_lookup_fmap, Hp.
    + rewrite <- Hpid. unfold Proc.wakeup1_proc. by case_match.
  - cbn. rewrite app_nil_r. subst f h. by destruct s.
Qed.

Lemma runs_mypid {U} (k : Z -> M U) h f b w h2 f2 :
  runs pid (k pid) h f b w h2 f2 -> runs pid (mypid ≫= k) h f b w h2 f2.
Proof.
  intros Hk s Hr Hf. destruct (Hk s Hr Hf) as (s'&E&R). exists s'. split; [|done].
  destruct Hr as (_&i&p&Hc&Hp&<-). rewrite <- E. apply bind_ret.
  unfold mypid, Proc.myproc, Proc.get_proc. rewrite bind_gets, (bind_need i) by done.
  unfold mbind, M_bind, gets. cbn [obind]. by rewrite Hp.
Qed.

(** ** Uncontended sleep-locks *)
Definition sl_at (f : fs_t) (n : nat) (sl : sleeplock) : fs_t :=
  f <| sleeplocks := <[n := sl]> (sleeplocks f) |>.

Lemma runs_get_sl n h f sl : sleeplocks f !! n = Some sl -> runs pid (get_sl n) h f sl [] h f.
Proof. intros Hn. apply (runs_gets sleeplocks). rewrite Hn. apply runs_ret. Qed.

Lemma runs_acquiresleep fuel n h f sl : LkSleep n ∉ h ->
  sleeplocks f !! n = Some sl -> sl_locked sl = false ->
  runs pid (acquiresleep (S fuel) n) h f tt [] h (sl_at f n (mkSleeplock true pid)).
Proof.
  intros Hh Hn Hl. unfold acquiresleep.
  eapply runs_seq; [by apply runs_acquire|]. eapply runs_seq.
  - cbn [acquiresleep_wait]. eapply runs_seq; [by apply runs_get_sl|]. rewrite Hl. apply runs_ret.
  - apply runs_mypid. eapply runs_seq; [apply runs_upd|]. apply runs_release.
Qed.

Lemma runs_releasesleep n h f : LkSleep n ∉ h -> LkPtable ∉ h ->
  runs pid (releasesleep n) h f tt [] h (sl_at f n (mkSleeplock false 0)).
Proof.
  intros Hh Hp. unfold releasesleep. eapply runs_seq; [by apply runs_acquire|].
  eapply runs_seq; [apply runs_upd|]. eapply runs_seq; [apply runs_wakeup|apply runs_release].
  set_solver.
Qed.

Lemma runs_holdingsleep n h f : LkSleep n ∉ h ->
  sleeplocks f !! n = Some (mkSleeplock true pid) ->
  runs pid (holdingsleep n) h f true [] h f.
Proof.
  intros Hh Hn. unfold holdingsleep. eapply runs_seq; [by apply runs_acquire|].
  eapply runs_seq; [by apply runs_get_sl|]. cbn [sl_locked].
  eapply runs_seq; [apply runs_mypid; apply runs_ret|].
  eapply runs_seq; [apply runs_release|]. cbn [sl_pid]. rewrite Z.eqb_refl. apply runs_ret.
Qed.

End Rules.

End Sleeplock.
