(* ===== verification/Bio.v ===== *)
(** * Bio: the buffer cache and the disk (bio.c, memide.c)

    Buffers are entries of [bufs]; [lru] is the order of the linked list.  The
    disk is the memory disk of memide.c, whose [iderw] completes at once; every
    block it writes is appended to the trace.  The theorems show that the cache
    is transparent: at most one buffer holds a block, a clean valid buffer
    agrees with the disk, dirty buffers are never recycled, and [bread] returns
    the dirty copy of a block if there is one, else what the disk holds. *)
From S2P Require Import Prelude Queue KState Kalloc Proc Sleeplock.

Definition BSIZE : Z := 512.
Definition NBUF : nat := 30.
Definition zero_buf : buf := mkBuf false false 0 0 0 (zero_bytes BSIZE).

Module Bio.
Import Sleeplock.

Definition get_buf (i : nat) : M buf := l ← gets (fun s => bufs (fs s)); need (l !! i) "bcache.buf[]".
Definition set_buf (i : nat) (g : buf -> buf) : M unit :=
  upd_fs (fun f => f <| bufs := alter g i (bufs f) |>).

(** ** bio.c *)

(** The list is built back to front: buffer 0 is the least recently used. *)
Definition binit : M unit :=
  upd_fs (fun f => f <| lru := [] |>) ;;
  mfor (seq 0 NBUF) (fun i =>
    Sleeplock.initsleeplock i ;; upd_fs (fun f => f <| lru := i :: lru f |>)).

(** The first buffer of a list of buffers that satisfies [P]. *)
Definition scan (P : buf -> bool) (bs : list buf) (order : list nat) : option nat :=
  List.find (fun i => match bs !! i with Some b => P b | None => false end) order.

Definition bget (fuel : nat) (dev blockno : Z) : M nat :=
  acquire LkBcache ;;
  f ← gets fs;
  match scan (fun b => (b_dev b =? dev) && (b_blockno b =? blockno)) (bufs f) (lru f) with
  | Some i =>
    set_buf i (fun b => b <| b_refcnt := u32 (b_refcnt b + 1) |>) ;;
    release LkBcache ;;
    Sleeplock.acquiresleep fuel i ;;
    mret i
  | None =>
    match scan (fun b => (b_refcnt b =? 0) && negb (b_dirty b)) (bufs f) (reverse (lru f)) with
    | Some i =>
      set_buf i (fun b => b <| b_dev := dev |> <| b_blockno := blockno |>
        <| b_valid := false |> <| b_dirty := false |> <| b_refcnt := 1 |>) ;;
      release LkBcache ;;
      Sleeplock.acquiresleep fuel i ;;
      mret i
    | None => panic "bget: no buffers"
    end
  end.

(** ** memide.c *)
Definition iderw (i : nat) : M unit :=
  h ← Sleeplock.holdingsleep i;
  if negb h then panic "iderw: buf not locked" else
  b ← get_buf i;
  if b_valid b && negb (b_dirty b) then panic "iderw: nothing to do"
  else if negb (b_dev b =? 1) then panic "iderw: request not for disk 1"
  else
    disk ← gets (fun s => memdisk (fs s));
    if Z.of_nat (length disk) <=? b_blockno b then panic "iderw: block out of range"
    else
      (if b_dirty b then
         set_buf i (fun b => b <| b_dirty := false |>) ;;
         upd_fs (fun f => f <| memdisk := <[Z.to_nat (b_blockno b) := b_data b]> (memdisk f) |>) ;;
         emit (EvDisk (b_blockno b) (b_data b))
       else
         d ← need (disk !! Z.to_nat (b_blockno b)) "memdisk";
         set_buf i (fun b => b <| b_data := d |>)) ;;
      set_buf i (fun b => b <| b_valid := true |>).

(** ** bio.c, continued *)
Definition bread (fuel : nat) (dev blockno : Z) : M nat :=
  i ← bget fuel dev blockno;
  b ← get_buf i;
  (if negb (b_valid b) then iderw i else mret tt) ;;
  mret i.

Definition bwrite (i : nat) : M unit :=
  h ← Sleeplock.holdingsleep i;
  if negb h then panic "bwrite" else
  set_buf i (fun b => b <| b_dirty := true |>) ;;
  iderw i.

Definition brelse (i : nat) : M unit :=
  h ← Sleeplock.holdingsleep i;
  if negb h then panic "brelse" else
  Sleeplock.releasesleep i ;;
  acquire LkBcache ;;
  set_buf i (fun b => b <| b_refcnt := u32 (b_refcnt b - 1) |>) ;;
  b ← get_buf i;
  (if b_refcnt b =? 0
   then upd_fs (fun f => f <| lru := i :: filter (fun j => j <> i) (lru f) |>) else mret tt) ;;
  release LkBcache.

(** ** Specification *)

(** The cache, on a disk [m], with the dirty blocks [D], while the running
    process holds the buffers [H]. *)
Record cache_ok (pid : Z) (f : fs_t) (H : list nat) (m : list (list Z)) (D : gmap Z (list Z)) : Prop := {
  ck_disk : memdisk f = m;
  ck_lru : forall i, i ∈ lru f <-> (i < length (bufs f))%nat;
  ck_locks : (length (bufs f) <= length (sleeplocks f))%nat;
  (* held buffers are referenced once and locked, the others are free *)
  ck_held : forall i b sl, bufs f !! i = Some b -> sleeplocks f !! i = Some sl ->
    if decide (i ∈ H) then b_refcnt b = 1 /\ sl = mkSleeplock true pid /\ b_valid b = true /\ b_dev b = 1
    else b_refcnt b = 0 /\ sl_locked sl = false;
  ck_range : forall i, i ∈ H -> (i < length (bufs f))%nat;
  (* a block is cached at most once *)
  ck_unique : forall i j b c, bufs f !! i = Some b -> bufs f !! j = Some c ->
    b_dev b = 1 -> b_dev c = 1 -> b_blockno b = b_blockno c -> i = j;
  (* a clean valid buffer agrees with the disk *)
  ck_coherent : forall i b, bufs f !! i = Some b -> b_dev b = 1 -> b_valid b = true ->
    b_dirty b = false -> 0 <= b_blockno b /\ m !! Z.to_nat (b_blockno b) = Some (b_data b);
  (* the dirty buffers are those of [D] *)
  ck_dirty : forall i b, bufs f !! i = Some b -> b_dirty b = true ->
    b_dev b = 1 /\ b_valid b = true /\ D !! b_blockno b = Some (b_data b);
  ck_dom : forall bn d, D !! bn = Some d ->
    exists i b, bufs f !! i = Some b /\ b_dirty b = true /\ b_blockno b = bn;
}.

(** What a reader of block [bn] must see. *)
Definition content (m : list (list Z)) (D : gmap Z (list Z)) (bn : Z) : option (list Z) :=
  match D !! bn with Some d => Some d | None => m !! Z.to_nat bn end.

(** Some buffer can be recycled. *)
Definition spare (f : fs_t) : Prop :=
  exists i b, bufs f !! i = Some b /\ b_refcnt b = 0 /\ b_dirty b = false.

(** ** Lemmas *)
Lemma scan_Some P bs order i : scan P bs order = Some i ->
  i ∈ order /\ exists b, bs !! i = Some b /\ P b = true.
Proof.
  intros Hs. apply List.find_some in Hs as [Hi Hb]. split; [by apply list_elem_of_In|].
  destruct (bs !! i); [eauto|done].
Qed.
Lemma scan_None P bs order i b : scan P bs order = None -> i ∈ order -> bs !! i = Some b -> P b = false.
Proof.
  intros Hs Hi Hb. apply list_elem_of_In in Hi. pose proof (List.find_none _ _ Hs i Hi) as E.
  cbv beta in E. by rewrite Hb in E.
Qed.

(** Buffer [i] replaced by [b], its sleep-lock by [sl]. *)
Definition with_buf (f : fs_t) (i : nat) (b : buf) (sl : sleeplock) : fs_t :=
  f <| bufs := <[i := b]> (bufs f) |> <| sleeplocks := <[i := sl]> (sleeplocks f) |>.

Section Specs.
Context (pid : Z).
Abbreviation runs := (Sleeplock.runs pid).
Abbreviation mine := (mkSleeplock true pid).

Lemma runs_get_buf i h f b : bufs f !! i = Some b -> runs (get_buf i) h f b [] h f.
Proof. intros Hb. apply (runs_gets pid bufs). rewrite Hb. apply runs_ret. Qed.

Lemma runs_set_buf i g h f b : bufs f !! i = Some b ->
  runs (set_buf i g) h f tt [] h (f <| bufs := <[i := g b]> (bufs f) |>).
Proof.
  intros Hb. rewrite <- (list_alter_to_insert g i _ b Hb). unfold set_buf.
  apply (runs_upd pid (fun f => f <| bufs := alter g i (bufs f) |>)).
Qed.

(** Taking a free buffer: the end of both branches of [bget]. *)
Lemma runs_take fuel i g h f b sl : LkSleep i ∉ h -> bufs f !! i = Some b ->
  sleeplocks f !! i = Some sl -> sl_locked sl = false ->
  runs (set_buf i g ;; release LkBcache ;; Sleeplock.acquiresleep (S fuel) i ;; mret i)
    (LkBcache :: h) f i [] h (with_buf f i (g b) mine).
Proof.
  intros Hh Hb Hs Hl. eapply runs_seq; [by apply runs_set_buf|].
  eapply runs_seq; [apply runs_release|].
  eapply runs_seq; [by eapply runs_acquiresleep|]. apply runs_ret.
Qed.

(** [iderw] reading into a buffer that is not valid. *)
Lemma runs_iderw_read i h f b d : LkSleep i ∉ h -> bufs f !! i = Some b ->
  sleeplocks f !! i = Some mine -> b_valid b = false -> b_dirty b = false -> b_dev b = 1 ->
  memdisk f !! Z.to_nat (b_blockno b) = Some d -> 0 <= b_blockno b ->
  runs (iderw i) h f tt [] h
    (f <| bufs := <[i := b <| b_data := d |> <| b_valid := true |>]> (bufs f) |>).
Proof.
  intros Hh Hb Hs Hv Hd Hdev Hm Hbn. pose proof (lookup_lt_Some _ _ _ Hm). unfold iderw.
  eapply runs_seq; [by apply runs_holdingsleep|]. cbn [negb].
  eapply runs_seq; [by apply runs_get_buf|]. rewrite Hv, Hdev. cbn [andb negb].
  rewrite Z.eqb_refl. cbn [negb]. apply (runs_gets pid memdisk).
  rewrite (proj2 (Z.leb_gt _ _)) by lia. rewrite Hd.
  eapply runs_seq.
  - eapply runs_need; [done|]. by apply runs_set_buf.
  - match goal with |- runs _ _ ?f1 _ _ _ ?f2 =>
      assert (E : f2 = f1 <| bufs := <[i := b <| b_data := d |> <| b_valid := true |>]> (bufs f1) |>) end.
    { cbn. by rewrite list_insert_insert_eq. }
    rewrite E. apply runs_set_buf. cbn. apply list_lookup_insert_eq. by eapply lookup_lt_Some.
Qed.

(** Lookups in an updated table. *)
Ltac at_index :=
  repeat match goal with
  | H : <[?i := _]> _ !! ?j = Some _ |- _ =>
    let H' := fresh in
    destruct (proj1 (list_lookup_insert_Some _ _ _ _ _) H) as [(?&?&?)|[? H']]; clear H;
    [|rename H' into H]; simplify_eq
  end.

(** Taking buffer [i] with the contents of its block keeps the invariant. *)
Lemma cache_ok_take f H m D i b0 b : cache_ok pid f H m D -> i ∉ H -> bufs f !! i = Some b0 ->
  b_valid b = true -> b_refcnt b = 1 -> b_dev b = 1 -> 0 <= b_blockno b ->
  b_dirty b = b_dirty b0 -> (b_dirty b0 = true -> b_blockno b = b_blockno b0 /\ b_data b = b_data b0) ->
  content m D (b_blockno b) = Some (b_data b) ->
  (forall j c, j <> i -> bufs f !! j = Some c -> b_dev c = 1 -> b_blockno c <> b_blockno b) ->
  cache_ok pid (with_buf f i b mine) (i :: H) m D.
Proof.
  intros [Hdk Hlru Hlk Hhd Hrg Hun Hco Hdi Hdo] Hi Hb0 Hv Hr Hdev Hbn Hd Hdt Hc Hne.
  pose proof (lookup_lt_Some _ _ _ Hb0).
  split; cbn [bufs sleeplocks memdisk lru with_buf setf]; rewrite ?length_insert; try done.
  - intros j c sl Hj Hsl. at_index; [by rewrite decide_True by left|].
    specialize (Hhd j c sl Hj Hsl). destruct (decide (j ∈ H)).
    + by rewrite decide_True by (by right).
    + by rewrite decide_False by (rewrite elem_of_cons; naive_solver).
  - intros j [->|?]%elem_of_cons; [done|auto].
  - intros j k c d Hj Hk Hcd Hdd E. at_index; [done| | |by eapply Hun].
    + exfalso. eapply (Hne j); [congruence|exact Hj|done|congruence].
    + exfalso. eapply (Hne k); [congruence|exact Hk|done|congruence].
  - intros j c Hj Hcd Hcv Hcdi. at_index; [|by eapply Hco]. split; [done|].
    unfold content in Hc. destruct (D !! b_blockno c) as [d|] eqn:HD; [|done].
    destruct (Hdo _ _ HD) as (k&e&Hk&Hke&Hkb). exfalso.
    destruct (decide (k = j)) as [->|]; [congruence|]. apply (Hne k e); try done. by eapply Hdi.
  - intros j c Hj Hcd. at_index; [|by eapply Hdi]. rewrite Hd in Hcd. destruct (Hdt Hcd) as [-> ->].
    by destruct (Hdi j b0 Hb0 Hcd) as (_&_&?).
  - intros bn d HD. destruct (Hdo _ _ HD) as (k&e&Hk&Hke&Hkb). destruct (decide (k = i)) as [->|].
    + simplify_eq. exists i, b. rewrite list_lookup_insert_eq by done. destruct (Hdt Hke).
      split_and!; congruence.
    + exists k, e. by rewrite list_lookup_insert_ne by done.
Qed.

(** The end of [bread], the buffer taken: fill it if it is not valid. *)
Definition filled (b : buf) (d : list Z) : buf :=
  if b_valid b then b else b <| b_data := d |> <| b_valid := true |>.

Lemma runs_fill f i b d : (i < length (bufs f))%nat -> (i < length (sleeplocks f))%nat ->
  b_dev b = 1 -> 0 <= b_blockno b -> (b_valid b = false -> b_dirty b = false) ->
  memdisk f !! Z.to_nat (b_blockno b) = Some d ->
  runs (b ← get_buf i; (if negb (b_valid b) then iderw i else mret tt) ;; mret i)
    [] (with_buf f i b mine) i [] [] (with_buf f i (filled b d) mine).
Proof.
  intros Hi Hl Hdev Hbn Hd Hm.
  assert (Hb : bufs (with_buf f i b mine) !! i = Some b) by (by apply list_lookup_insert_eq).
  eapply runs_seq; [by apply runs_get_buf|]. unfold filled. destruct (b_valid b) eqn:Hv; cbn [negb].
  - eapply runs_seq; apply runs_ret.
  - eapply runs_seq; [|apply runs_ret].
    replace (with_buf f i (b <| b_data := d |> <| b_valid := true |>) mine) with
      ((with_buf f i b mine) <| bufs := <[i := b <| b_data := d |> <| b_valid := true |>]>
        (bufs (with_buf f i b mine)) |>) by (unfold with_buf; cbn; by rewrite list_insert_insert_eq).
    apply runs_iderw_read; try done; [set_solver|by apply list_lookup_insert_eq|auto].
Qed.

(** What block [bn] of a free buffer that caches it, or a recycled one, must hold. *)
Lemma content_dirty f H m D i b : cache_ok pid f H m D -> bufs f !! i = Some b -> b_dirty b = true ->
  content m D (b_blockno b) = Some (b_data b).
Proof. intros Hck Hb Hd. unfold content. by destruct (ck_dirty _ _ _ _ _ Hck i b Hb Hd) as (_&_&->). Qed.

Lemma content_clean f H m D bn : cache_ok pid f H m D ->
  (forall j c, bufs f !! j = Some c -> b_dirty c = true -> b_blockno c <> bn) ->
  content m D bn = m !! Z.to_nat bn.
Proof.
  intros Hck Hc. unfold content. destruct (D !! bn) eqn:HD; [|done].
  destruct (ck_dom _ _ _ _ _ Hck _ _ HD) as (j&c&Hj&Hd&Hb). by destruct (Hc j c).
Qed.

(** [bread], once [bget] has delivered buffer [i] of [b0] as [b1]. *)
Lemma bread_from_bget fuel f H m D bn i b0 b1 : cache_ok pid f H m D ->
  0 <= bn < Z.of_nat (length m) -> bufs f !! i = Some b0 -> i ∉ H ->
  b_dev b1 = 1 -> b_blockno b1 = bn -> b_refcnt b1 = 1 -> b_dirty b1 = b_dirty b0 ->
  (b_dirty b0 = true \/ b_valid b1 = true -> b1 = b0 <| b_refcnt := 1 |>) ->
  (forall j c, j <> i -> bufs f !! j = Some c -> b_dev c = 1 -> b_blockno c <> bn) ->
  runs (bget (S fuel) 1 bn) [] f i [] [] (with_buf f i b1 mine) ->
  exists b, runs (bread (S fuel) 1 bn) [] f i [] [] (with_buf f i b mine) /\
    cache_ok pid (with_buf f i b mine) (i :: H) m D /\
    b_blockno b = bn /\ content m D bn = Some (b_data b).
Proof.
  intros Hck Hbn Hb0 Hi Hdev Hb1 Hr Hd Hval Hne Hrun.
  destruct (lookup_lt_is_Some_2 m (Z.to_nat bn)) as [d Hd']; [lia|].
  pose proof (lookup_lt_Some _ _ _ Hb0). pose proof (ck_locks _ _ _ _ _ Hck).
  assert (Hvd : b_dirty b0 = true -> b_valid b1 = true).
  { intros E. rewrite Hval by auto. by destruct (ck_dirty _ _ _ _ _ Hck i b0 Hb0 E) as (_&?&_). }
  assert (Hcd : forall j c, bufs f !! j = Some c -> b_dirty c = true -> j <> i -> b_blockno c <> bn).
  { intros j c Hj Hjd Hji. apply (Hne j); try done. by eapply ck_dirty. }
  assert (Hcl : b_dirty b0 = false -> content m D bn = Some d).
  { intros E. rewrite <- Hd'. eapply content_clean; [done|]. intros j c Hj Hjd.
    apply (Hcd j); try done. congruence. }
  exists (filled b1 d). assert (Hc : content m D bn = Some (b_data (filled b1 d))).
  { unfold filled. destruct (b_valid b1) eqn:Hv.
    - assert (Hv0 : b_valid b0 = true) by (by rewrite (Hval (or_intror eq_refl)) in Hv).
      destruct (b_dirty b0) eqn:E; rewrite Hval in Hb1, Hdev |- * by auto; subst bn.
      + by apply (content_dirty f H m D i b0).
      + rewrite Hcl by done. rewrite <- Hd'. exact (proj2 (ck_coherent _ _ _ _ _ Hck i b0 Hb0 Hdev Hv0 E)).
    - destruct (b_dirty b0) eqn:E; [by specialize (Hvd eq_refl)|]. by apply Hcl. }
  split_and!; [..|done].
  - unfold bread. eapply runs_seq; [exact Hrun|].
    apply runs_fill; try done; [lia|lia| |by rewrite (ck_disk _ _ _ _ _ Hck), Hb1].
    intros E. rewrite Hd. destruct (b_dirty b0); [|done]. by rewrite Hvd in E.
  - assert (E : b_blockno (filled b1 d) = bn) by (unfold filled; by case_match).
    apply (cache_ok_take f H m D i b0); rewrite ?E; try done; try lia.
    all: unfold filled; destruct (b_valid b1) eqn:Hv; try done.
    + intros Hb0d. rewrite Hval in Hb1 |- * by auto. by subst bn.
    + intros Hb0d. by specialize (Hvd Hb0d).
  - unfold filled. by case_match.
Qed.

(** [bread] of block [bn], which this process does not hold already. *)
Lemma bread_ok fuel f H m D bn : cache_ok pid f H m D ->
  0 <= bn < Z.of_nat (length m) -> spare f \/ is_Some (D !! bn) ->
  (forall i b, i ∈ H -> bufs f !! i = Some b -> b_blockno b <> bn) ->
  exists i b, runs (bread (S fuel) 1 bn) [] f i [] [] (with_buf f i b mine) /\
    cache_ok pid (with_buf f i b mine) (i :: H) m D /\ i ∉ H /\
    b_blockno b = bn /\ content m D bn = Some (b_data b).
Proof.
  intros Hck Hbn Hsp Hnh. pose proof Hck as [Hdk Hlru Hlk Hhd Hrg Hun Hco Hdi Hdo].
  destruct (scan (fun b => (b_dev b =? 1) && (b_blockno b =? bn)) (bufs f) (lru f)) as [i|] eqn:Hs.
  - destruct (scan_Some _ _ _ _ Hs) as (Hil&b0&Hb0&[Hb1%Z.eqb_eq Hb2%Z.eqb_eq]%andb_true_iff).
    assert (Hi : i ∉ H) by (intros Hi; by apply (Hnh i b0)).
    destruct (lookup_lt_is_Some_2 (sleeplocks f) i) as [sl Hsl]; [apply Hlru in Hil; lia|].
    specialize (Hhd i b0 sl Hb0 Hsl). rewrite decide_False in Hhd by done. destruct Hhd as [Hr Hl].
    destruct (bread_from_bget fuel f H m D bn i b0 (b0 <| b_refcnt := 1 |>)) as (b&?); try done.
    + intros j c Hji Hj Hjd Hjb. apply Hji. eapply Hun; try done. congruence.
    + unfold bget. eapply runs_seq; [apply runs_acquire; set_solver|].
      apply (runs_gets pid id). unfold id. rewrite Hs.
      set (g := fun b => b <| b_refcnt := u32 (b_refcnt b + 1) |>).
      assert (E : b0 <| b_refcnt := 1 |> = g b0) by (unfold g; by rewrite Hr). rewrite E.
      apply (runs_take fuel i g [] f b0 sl); try done. set_solver.
    + naive_solver.
  - assert (Hno : forall j c, bufs f !! j = Some c -> b_dev c = 1 -> b_blockno c <> bn).
    { intros j c Hj Hjd Hjb. pose proof (lookup_lt_Some _ _ _ Hj) as Hlt. apply Hlru in Hlt.
      pose proof (scan_None _ _ _ _ _ Hs Hlt Hj) as E. cbv beta in E. rewrite Hjd, Hjb, !Z.eqb_refl in E. done. }
    destruct (scan (fun b => (b_refcnt b =? 0) && negb (b_dirty b)) (bufs f) (reverse (lru f)))
      as [i|] eqn:Hs2.
    2:{ destruct Hsp as [(v&bv&Hv&Hvr&Hvd)|[d HD]].
      2:{ destruct (Hdo _ _ HD) as (j&c&Hj&Hjd&Hjb). exfalso. apply (Hno j c); try done. by eapply Hdi. }
      pose proof (lookup_lt_Some _ _ _ Hv) as Hlt. apply Hlru, elem_of_reverse in Hlt.
      pose proof (scan_None _ _ _ _ _ Hs2 Hlt Hv) as E. cbv beta in E. by rewrite Hvr, Hvd in E. }
    destruct (scan_Some _ _ _ _ Hs2) as (Hil&b0&Hb0&[Hr%Z.eqb_eq Hd0%negb_true_iff]%andb_true_iff).
    apply elem_of_reverse, Hlru in Hil.
    destruct (lookup_lt_is_Some_2 (sleeplocks f) i) as [sl Hsl]; [lia|].
    specialize (Hhd i b0 sl Hb0 Hsl). destruct (decide (i ∈ H)) as [?|Hi]; [lia|]. destruct Hhd as [_ Hl].
    set (g := fun b => b <| b_dev := 1 |> <| b_blockno := bn |> <| b_valid := false |>
      <| b_dirty := false |> <| b_refcnt := 1 |>).
    destruct (bread_from_bget fuel f H m D bn i b0 (g b0)) as (b&?); try done.
    + intros [?|?]; [congruence|done].
    + intros j c _. apply Hno.
    + unfold bget. eapply runs_seq; [apply runs_acquire; set_solver|].
      apply (runs_gets pid id). unfold id. rewrite Hs, Hs2.
      apply (runs_take fuel i g [] f b0 sl); try done. set_solver.
    + naive_solver.
Qed.

Lemma runs_emit_disk bn d h f : runs (emit (EvDisk bn d)) h f tt [(bn, d)] h f.
Proof.
  intros s Hr Hf. eexists. split_and!; [done|done|]. destruct Hr as [<- _]. subst f. by destruct s.
Qed.

(** Storing [d] in a held buffer and writing it out. *)
Definition wrote (f : fs_t) (i : nat) (b : buf) (d : list Z) : fs_t :=
  f <| bufs := <[i := b <| b_data := d |> <| b_dirty := false |> <| b_valid := true |>]> (bufs f) |>
    <| memdisk := <[Z.to_nat (b_blockno b) := d]> (memdisk f) |>.

Lemma runs_bwrite f i b d : bufs f !! i = Some b -> sleeplocks f !! i = Some mine ->
  b_dev b = 1 -> 0 <= b_blockno b < Z.of_nat (length (memdisk f)) ->
  runs (set_buf i (fun b => b <| b_data := d |>) ;; bwrite i) [] f tt [(b_blockno b, d)] []
    (wrote f i b d).
Proof.
  intros Hb Hs Hdev Hbn. pose proof (lookup_lt_Some _ _ _ Hb) as Hi.
  eapply runs_seq; [by apply runs_set_buf|]. unfold bwrite.
  eapply runs_seq; [apply runs_holdingsleep; [set_solver|done]|]. cbn [negb].
  eapply runs_seq; [apply runs_set_buf; by apply list_lookup_insert_eq|].
  cbn [bufs setf]. rewrite list_insert_insert_eq. unfold iderw.
  eapply runs_seq; [apply runs_holdingsleep; [set_solver|done]|]. cbn [negb].
  eapply runs_seq; [apply runs_get_buf; by apply list_lookup_insert_eq|].
  cbn [b_valid b_dirty b_dev b_blockno b_data setf]. rewrite Hdev, andb_false_r, Z.eqb_refl. cbn [negb].
  apply (runs_gets pid memdisk). rewrite (proj2 (Z.leb_gt _ _)) by (cbn; lia).
  rewrite <- (app_nil_r [(b_blockno b, d)]). eapply runs_bind.
  - eapply runs_seq; [apply runs_set_buf; by apply list_lookup_insert_eq|].
    eapply runs_seq; [apply runs_upd|apply runs_emit_disk].
  - replace (wrote f i b d) with
      ((f <| bufs := <[i := b <| b_data := d |> <| b_dirty := false |>]> (bufs f) |>
          <| memdisk := <[Z.to_nat (b_blockno b) := d]> (memdisk f) |>)
       <| bufs := <[i := b <| b_data := d |> <| b_dirty := false |> <| b_valid := true |>]>
            (<[i := b <| b_data := d |> <| b_dirty := false |>]> (bufs f)) |>)
      by (unfold wrote; cbn; by rewrite list_insert_insert_eq).
    cbn [bufs memdisk setf b_blockno b_data]. rewrite list_insert_insert_eq.
    apply runs_set_buf. by apply list_lookup_insert_eq.
Qed.

(** The facts about a held buffer. *)
Lemma held_buf f H m D i : cache_ok pid f H m D -> i ∈ H ->
  exists b, bufs f !! i = Some b /\ sleeplocks f !! i = Some mine /\ b_refcnt b = 1 /\
    b_valid b = true /\ b_dev b = 1.
Proof.
  intros Hck Hi. pose proof (ck_range _ _ _ _ _ Hck i Hi) as Hlt. pose proof (ck_locks _ _ _ _ _ Hck).
  destruct (lookup_lt_is_Some_2 (bufs f) i) as [b Hb]; [done|].
  destruct (lookup_lt_is_Some_2 (sleeplocks f) i) as [sl Hsl]; [lia|].
  pose proof (ck_held _ _ _ _ _ Hck i b sl Hb Hsl) as E. rewrite decide_True in E by done.
  destruct E as (?&->&?&?). eauto 10.
Qed.

Lemma cache_ok_wrote f H m D i b d : cache_ok pid f H m D -> i ∈ H -> bufs f !! i = Some b ->
  0 <= b_blockno b < Z.of_nat (length m) ->
  cache_ok pid (wrote f i b d) H (<[Z.to_nat (b_blockno b) := d]> m) (delete (b_blockno b) D).
Proof.
  intros Hck Hi Hb Hbn. destruct (held_buf _ _ _ _ _ Hck Hi) as (b'&Hb'&Hsl&Hr&Hv&Hdev). simplify_eq.
  destruct Hck as [Hdk Hlru Hlk Hhd Hrg Hun Hco Hdi Hdo].
  split; cbn [bufs sleeplocks memdisk lru wrote setf]; rewrite ?length_insert; try done.
  - by rewrite Hdk.
  - intros j c sl Hj Hjs. at_index; [|by eapply Hhd]. by rewrite decide_True.
  - intros j k c e Hj Hk Hc He E. at_index; try done.
    all: eapply Hun; eauto.
  - intros j c Hj Hc Hcv Hcd. at_index.
    + cbn. split; [lia|]. apply list_lookup_insert_eq. lia.
    + destruct (Hco j c) as [? <-]; try done. split; [done|]. apply list_lookup_insert_ne.
      intros E. assert (b_blockno b = b_blockno c) by lia. assert (i = j) by (by eapply Hun). done.
  - intros j c Hj Hcd. at_index. destruct (Hdi j c) as (?&?&<-); try done. split_and!; try done.
    apply lookup_delete_ne. intros E. assert (i = j) by (by eapply Hun). done.
  - intros bn e [Hne HD]%lookup_delete_Some. destruct (Hdo _ _ HD) as (j&c&Hj&Hjd&<-).
    exists j, c. rewrite list_lookup_insert_ne; [done|]. intros ->. simplify_eq.
Qed.

(** The two together. *)
Lemma bwrite_ok f H m D i b d : cache_ok pid f H m D -> i ∈ H -> bufs f !! i = Some b ->
  0 <= b_blockno b < Z.of_nat (length m) ->
  runs (set_buf i (fun b => b <| b_data := d |>) ;; bwrite i) [] f tt [(b_blockno b, d)] []
    (wrote f i b d) /\
  cache_ok pid (wrote f i b d) H (<[Z.to_nat (b_blockno b) := d]> m) (delete (b_blockno b) D).
Proof.
  intros Hck Hi Hb Hbn. split; [|by apply cache_ok_wrote].
  destruct (held_buf _ _ _ _ _ Hck Hi) as (b'&Hb'&Hsl&_&_&Hdev). simplify_eq.
  apply runs_bwrite; try done. by rewrite (ck_disk _ _ _ _ _ Hck).
Qed.

(** [brelse] gives a held buffer back. *)
Definition freed (f : fs_t) (i : nat) (b : buf) : fs_t :=
  f <| sleeplocks := <[i := mkSleeplock false 0]> (sleeplocks f) |>
    <| bufs := <[i := b <| b_refcnt := 0 |>]> (bufs f) |>
    <| lru := i :: filter (fun j => j <> i) (lru f) |>.

Lemma brelse_ok f H m D i b : cache_ok pid f (i :: H) m D -> i ∉ H -> bufs f !! i = Some b ->
  runs (brelse i) [] f tt [] [] (freed f i b) /\ cache_ok pid (freed f i b) H m D.
Proof.
  intros Hck Hi Hb. destruct (held_buf _ _ _ _ i Hck) as (b'&Hb'&Hsl&Hr&Hv&Hdev); [by left|]. simplify_eq.
  pose proof (lookup_lt_Some _ _ _ Hb) as Hlt. split.
  - unfold brelse. eapply runs_seq; [apply runs_holdingsleep; [set_solver|done]|]. cbn [negb].
    eapply runs_seq; [apply runs_releasesleep; set_solver|].
    eapply runs_seq; [apply runs_acquire; set_solver|].
    eapply runs_seq; [apply runs_set_buf; exact Hb|].
    eapply runs_seq; [apply runs_get_buf; by apply list_lookup_insert_eq|].
    cbn [b_refcnt setf]. rewrite Hr. change (u32 (1 - 1)) with 0. rewrite Z.eqb_refl.
    eapply runs_seq; [apply runs_upd|apply runs_release].
  - destruct Hck as [Hdk Hlru Hlk Hhd Hrg Hun Hco Hdi Hdo].
    split; cbn [bufs sleeplocks memdisk lru freed setf]; rewrite ?length_insert; try done.
    + intros j. rewrite elem_of_cons, list_elem_of_filter, Hlru. destruct (decide (j = i)); naive_solver.
    + intros j c sl Hj Hjs. at_index; [by rewrite decide_False by done|].
      specialize (Hhd j c sl Hj Hjs). destruct (decide (j ∈ H)).
      * by rewrite decide_True in Hhd by (by right).
      * by rewrite decide_False in Hhd by (rewrite elem_of_cons; naive_solver).
    + intros j Hj. apply Hrg. by right.
    + intros j k c e Hj Hk. at_index; intros; eauto.
    + intros j c Hj. at_index; cbn; eauto.
    + intros j c Hj. at_index; cbn; eauto.
    + intros bn d HD. destruct (Hdo _ _ HD) as (j&c&Hj&Hjd&<-). destruct (decide (j = i)) as [->|].
      * simplify_eq. exists i, (b <| b_refcnt := 0 |>). by rewrite list_lookup_insert_eq.
      * exists j, c. by rewrite list_lookup_insert_ne.
Qed.

(** The client of the log changed a held buffer and marked it dirty. *)
Definition marked (f : fs_t) (i : nat) (b : buf) (d : list Z) : fs_t :=
  f <| bufs := <[i := b <| b_data := d |> <| b_dirty := true |>]> (bufs f) |>.

Lemma cache_ok_marked f H m D i b d : cache_ok pid f H m D -> i ∈ H -> bufs f !! i = Some b ->
  cache_ok pid (marked f i b d) H m (<[b_blockno b := d]> D).
Proof.
  intros Hck Hi Hb. destruct (held_buf _ _ _ _ _ Hck Hi) as (b'&Hb'&Hsl&Hr&Hv&Hdev). simplify_eq.
  destruct Hck as [Hdk Hlru Hlk Hhd Hrg Hun Hco Hdi Hdo]. pose proof (lookup_lt_Some _ _ _ Hb).
  split; cbn [bufs sleeplocks memdisk lru marked setf]; rewrite ?length_insert; try done.
  - intros j c sl Hj Hjs. at_index; [|by eapply Hhd]. by rewrite decide_True.
  - intros j k c e Hj Hk. at_index; intros; eauto.
  - intros j c Hj. at_index; cbn; [done|eauto].
  - intros j c Hj Hcd. at_index; cbn.
    + by rewrite lookup_insert_eq.
    + destruct (Hdi j c) as (?&?&<-); try done. split_and!; try done. apply lookup_insert_ne.
      intros E. assert (i = j) by (by eapply Hun). done.
  - intros bn e [[<- <-]|[Hne HD]]%lookup_insert_Some.
    + exists i, (b <| b_data := d |> <| b_dirty := true |>). by rewrite list_lookup_insert_eq.
    + destruct (Hdo _ _ HD) as (j&c&Hj&Hjd&<-). exists j, c.
      rewrite list_lookup_insert_ne; [done|]. intros ->. simplify_eq.
Qed.

(** Only membership in the list of held buffers matters. *)
Lemma cache_ok_equiv f H H' m D : (forall i, i ∈ H <-> i ∈ H') ->
  cache_ok pid f H m D -> cache_ok pid f H' m D.
Proof.
  intros E [Hdk Hlru Hlk Hhd Hrg Hun Hco Hdi Hdo]. split; try done.
  - intros i b sl Hb Hs. specialize (Hhd i b sl Hb Hs). specialize (E i).
    destruct (decide (i ∈ H)), (decide (i ∈ H')); done || (exfalso; tauto).
  - intros i Hi. by apply Hrg, E.
Qed.

(** The dirty blocks are at least as many as the dirty buffers. *)
Lemma dirty_count f H m D : cache_ok pid f H m D ->
  let dirty := filter (fun i : nat => b_dirty <$> bufs f !! i = Some true) (seq 0 (length (bufs f))) in
  (length dirty <= base.size D)%nat.
Proof.
  intros Hck dirty. set (bno i := default 0 (b_blockno <$> bufs f !! i)).
  assert (Hdi : forall i, i ∈ dirty -> exists b, bufs f !! i = Some b /\ b_dev b = 1 /\
    bno i = b_blockno b /\ D !! bno i = Some (b_data b)).
  { intros i [Hd _]%list_elem_of_filter. unfold bno. destruct (bufs f !! i) as [b|] eqn:Hb; [|done].
    cbn in Hd. simplify_eq. destruct (ck_dirty _ _ _ _ _ Hck i b) as (?&_&?); eauto. }
  rewrite <- length_map_to_list, <- (length_fmap fst), <- (length_fmap bno dirty).
  apply submseteq_length, NoDup_submseteq.
  - apply NoDup_fmap_2_strong; [|apply NoDup_filter, NoDup_seq]. intros i j Hi Hj E.
    destruct (Hdi i Hi) as (b&Hb&Hbd&Eb&_). destruct (Hdi j Hj) as (c&Hc&Hcd&Ec&_).
    eapply (ck_unique _ _ _ _ _ Hck); try done. congruence.
  - intros bn (i&->&Hi)%list_elem_of_fmap. destruct (Hdi i Hi) as (b&_&_&_&HD).
    apply list_elem_of_fmap. exists (bno i, b_data b). split; [done|]. by apply elem_of_map_to_list.
Qed.

(** A buffer is left while there are fewer held and dirty ones than buffers. *)
Lemma spare_count f H m D : cache_ok pid f H m D -> (length H + base.size D < length (bufs f))%nat ->
  spare f.
Proof.
  intros Hck Hlt. pose proof (dirty_count _ _ _ _ Hck) as Hd. cbv zeta in Hd.
  destruct (scan (fun b => (b_refcnt b =? 0) && negb (b_dirty b)) (bufs f) (seq 0 (length (bufs f))))
    as [i|] eqn:Hs.
  { destruct (scan_Some _ _ _ _ Hs) as (_&b&Hb&[Hr%Z.eqb_eq Hdi%negb_true_iff]%andb_true_iff).
    by exists i, b. }
  exfalso. set (dirty := filter _ _) in Hd.
  assert (Hsub : (length (seq 0 (length (bufs f))) <= length (H ++ dirty))%nat).
  { apply submseteq_length, NoDup_submseteq; [apply NoDup_seq|]. intros i Hi.
    assert (Hil : (i < length (bufs f))%nat) by (apply elem_of_seq in Hi; lia).
    destruct (lookup_lt_is_Some_2 (bufs f) i Hil) as [b Hb].
    pose proof (scan_None _ _ _ _ _ Hs Hi Hb) as E. cbv beta in E. apply elem_of_app.
    destruct (decide (i ∈ H)) as [|Hni]; [by left|]. right. apply list_elem_of_filter. split; [|done].
    rewrite Hb. cbn. f_equal. pose proof (ck_locks _ _ _ _ _ Hck).
    destruct (lookup_lt_is_Some_2 (sleeplocks f) i) as [sl Hsl]; [lia|].
    pose proof (ck_held _ _ _ _ _ Hck i b sl Hb Hsl) as Hh. rewrite decide_False in Hh by done.
    destruct Hh as [Hr _]. rewrite Hr in E. by destruct (b_dirty b). }
  rewrite length_seq, length_app in Hsub. lia.
Qed.

End Specs.

(** ** Properties *)

(** What a client does with the cache: read a block; replace a block. *)
Definition read_block (fuel : nat) (bn : Z) : M (list Z) :=
  i ← bread fuel 1 bn; b ← get_buf i; brelse i ;; mret (b_data b).
Definition write_block (fuel : nat) (bn : Z) (d : list Z) : M unit :=
  i ← bread fuel 1 bn; (set_buf i (fun b => b <| b_data := d |>) ;; bwrite i) ;; brelse i.

(** C26: the buffer cache is transparent.  With fewer dirty blocks than buffers,
    reading a block through [bread]/[brelse] returns the dirty copy if a
    transaction left one and else the block on the disk, and writes nothing;
    replacing a block through [bread]/[bwrite]/[brelse] writes exactly that
    block to the disk.  Both keep the cache's invariant: one buffer per block,
    clean buffers equal to the disk, dirty buffers kept. *)
Theorem buffer_cache_transparent pid fuel f m D bn d :
  cache_ok pid f [] m D -> (base.size D < length (bufs f))%nat -> 0 <= bn < Z.of_nat (length m) ->
  (exists f' old, runs pid (read_block (S fuel) bn) [] f old [] [] f' /\
     content m D bn = Some old /\ cache_ok pid f' [] m D) /\
  (exists f', runs pid (write_block (S fuel) bn d) [] f tt [(bn, d)] [] f' /\
     cache_ok pid f' [] (<[Z.to_nat bn := d]> m) (delete bn D)).
Proof.
  intros Hck Hsz Hbn. destruct (bread_ok pid fuel f [] m D bn) as (i&b&Hr&Hck1&_&Hb&Hc); try done.
  { left. eapply spare_count; [done|]. simpl. lia. }
  { intros ? ? ?%elem_of_nil. done. }
  set (f1 := with_buf f i b (mkSleeplock true pid)) in *.
  destruct (held_buf pid f1 [i] m D i Hck1) as (b'&Hb'&_); [by left|].
  assert (b' = b) as ->.
  { pose proof (ck_range _ _ _ _ _ Hck1 i ltac:(by left)) as Hl. cbn in Hl. rewrite length_insert in Hl.
    cbn in Hb'. rewrite list_lookup_insert_eq in Hb' by done. congruence. }
  split.
  - destruct (brelse_ok pid f1 [] m D i b) as [Hr2 Hck2]; [done|set_solver|done|].
    eexists _, (b_data b). split_and!; [|done|exact Hck2].
    eapply runs_seq; [exact Hr|]. eapply runs_seq; [by apply runs_get_buf|].
    eapply runs_seq; [exact Hr2|apply runs_ret].
  - destruct (bwrite_ok pid f1 [i] m D i b d) as [Hr2 Hck2]; [done|by left|done|by rewrite Hb|].
    destruct (held_buf pid _ _ _ _ i Hck2) as (b2&Hb2&_); [by left|].
    destruct (brelse_ok pid (wrote f1 i b d) [] (<[Z.to_nat (b_blockno b) := d]> m)
      (delete (b_blockno b) D) i b2) as [Hr3 Hck3]; [done|set_solver|done|].
    rewrite Hb in *. eexists. split; [|exact Hck3].
    eapply runs_seq; [exact Hr|]. rewrite <- (app_nil_r [(bn, d)]).
    eapply runs_bind; [exact Hr2|exact Hr3].
Qed.

(** A cache of two buffers, one of them dirty, on a disk of three one-byte blocks. *)
Definition demo_cache : fs_t :=
  mkFs [mkSleeplock false 0; mkSleeplock false 0]
    [mkBuf true true 1 2 0 [9]; mkBuf false false 0 0 0 [0]] [1; 0]%nat [[5]; [6]; [7]]
    (mkLog 0 0 0 false 0 0 []) zero_sb [].

Lemma demo_cache_ok pid : cache_ok pid demo_cache [] [[5]; [6]; [7]] {[2 := [9]]}.
Proof.
  split; cbn.
  - done.
  - intros i. rewrite !elem_of_cons, elem_of_nil. destruct i as [|[|]]; naive_solver lia.
  - lia.
  - intros [|[|i]] b sl Hb Hs; simplify_eq/=; done.
  - set_solver.
  - intros [|[|i]] [|[|j]] b c; intros; simplify_eq/=; done.
  - intros [|[|i]] b; intros; simplify_eq/=.
  - intros [|[|i]] b; intros; simplify_eq/=. by rewrite lookup_singleton_eq.
  - intros bn d [<- <-]%lookup_singleton_Some. by eexists 0%nat, _.
Qed.

Lemma buffer_cache_transparent_witness :
  (exists f' old, runs 1 (read_block 1 2) [] demo_cache old [] [] f' /\ old = [9]) /\
  (exists f', runs 1 (write_block 1 0 [8]) [] demo_cache tt [(0, [8])] [] f').
Proof.
  split.
  - destruct (buffer_cache_transparent 1 0 demo_cache _ _ 2 [8] (demo_cache_ok 1)) as [(f'&old&H1&H2&_) _];
      [rewrite map_size_singleton; simpl; lia|simpl; lia|].
    exists f', old. split; [exact H1|]. vm_compute in H2. by simplify_eq.
  - destruct (buffer_cache_transparent 1 0 demo_cache _ _ 0 [8] (demo_cache_ok 1)) as [_ (f'&H1&_)];
      [rewrite map_size_singleton; simpl; lia|simpl; lia|].
    exists f'. exact H1.
Defined.

End Bio.
