(* ===== verification/Log.v ===== *)
(** * Log: the write-ahead log (log.c, [readsb] of fs.c)

    A transaction's blocks stay dirty in the buffer cache until [commit] writes
    them to the log, writes the header (the commit point), installs them at
    their home locations and erases the header.  The theorems show what each
    function does to the disk, write by write, and that the log is crash safe:
    whatever prefix of the writes of [commit] reaches the disk, recovery at the
    next boot leaves either the old or the new file system. *)
From S2P Require Import Prelude Queue KState Kalloc Proc Sleeplock Bio.

Definition LOGSIZE : Z := MAXOPBLOCKS * 3.

Module Log.
Import Sleeplock Bio.

Definition get_log : M log_t := gets (fun s => log (fs s)).
Definition set_log (g : log_t -> log_t) : M unit := upd_fs (fun f => f <| log := g (log f) |>).

Section Code.
Context (fuel : nat).

Definition install_trans_block (tail : nat) : M unit :=
  l ← get_log;
  lbuf ← bread fuel (u32 (l_dev l)) (u32 (l_start l + Z.of_nat tail + 1));
  block ← need (lh_block l !! tail) "log.lh.block[]";
  dbuf ← bread fuel (u32 (l_dev l)) (u32 block);
  lb ← get_buf lbuf;
  (set_buf dbuf (fun b => b <| b_data := b_data lb |>) ;; bwrite dbuf) ;;
  brelse lbuf ;;
  brelse dbuf.

Definition install_trans : M unit :=
  l ← get_log;
  mfor (seq 0 (Z.to_nat (lh_n l))) install_trans_block.

(** The fields of [struct logheader] in a block. *)
Definition hb_n (d : list Z) : Z := s32 (get32 d 0).
Definition hb_block (d : list Z) (i : nat) : Z := s32 (get32 d (4 + 4 * i)).

Definition read_head : M unit :=
  l ← get_log;
  i ← bread fuel (u32 (l_dev l)) (u32 (l_start l));
  b ← get_buf i;
  set_log (fun l => l <| lh_n := hb_n (b_data b) |>) ;;
  mfor (seq 0 (Z.to_nat (hb_n (b_data b)))) (fun j =>
    l ← get_log;
    if LOGSIZE <=? Z.of_nat j then fault "log.lh.block[]" else
    set_log (fun l => l <| lh_block := <[j := hb_block (b_data b) j]> (lh_block l) |>)) ;;
  brelse i.

(** [hb->n = n; for (i = 0; i < n; i++) hb->block[i] = block[i];] *)
Fixpoint put_blocks (d : list Z) (i : nat) (blocks : list Z) : list Z :=
  match blocks with
  | [] => d
  | b :: blocks' => put_blocks (blit d (4 + 4 * i) (le32 b)) (S i) blocks'
  end.
Definition put_head (d : list Z) (n : Z) (blocks : list Z) : list Z :=
  put_blocks (blit d 0 (le32 n)) 0 (take (Z.to_nat n) blocks).

Definition write_head : M unit :=
  l ← get_log;
  i ← bread fuel (u32 (l_dev l)) (u32 (l_start l));
  b ← get_buf i;
  (if LOGSIZE <? lh_n l then fault "log.lh.block[]" else mret tt) ;;
  let hb := put_head (b_data b) (lh_n l) (lh_block l) in
  (set_buf i (fun b => b <| b_data := hb |>) ;; bwrite i) ;;
  brelse i.

Definition recover_from_log : M unit :=
  read_head ;;
  install_trans ;;
  set_log (fun l => l <| lh_n := 0 |>) ;;
  write_head.

(** fs.c: the superblock, of which the log uses [nlog] and [logstart]. *)
Definition superblock_of (d : list Z) : superblock :=
  mkSuperblock (get32 d 0) (get32 d 4) (get32 d 8) (get32 d 12) (get32 d 16) (get32 d 20) (get32 d 24).
Definition readsb (dev : Z) : M superblock :=
  i ← bread fuel (u32 dev) 1;
  b ← get_buf i;
  brelse i ;;
  mret (superblock_of (b_data b)).

Definition initlog (dev : Z) : M unit :=
  sb ← readsb dev;
  set_log (fun l => l <| l_start := s32 (sb_logstart sb) |> <| l_size := s32 (sb_nlog sb) |>
    <| l_dev := dev |>) ;;
  recover_from_log.

(** The loop of [begin_op]; it ends with the lock released. *)
Fixpoint begin_op_loop (turns : nat) : M unit :=
  match turns with
  | O => fault "begin_op: fuel"
  | S turns' =>
    l ← get_log;
    if l_committing l then Proc.sleep ChLog LkLog ;; begin_op_loop turns'
    else if LOGSIZE <? lh_n l + (l_outstanding l + 1) * MAXOPBLOCKS then
      Proc.sleep ChLog LkLog ;; begin_op_loop turns'
    else
      set_log (fun l => l <| l_outstanding := l_outstanding l + 1 |>) ;;
      release LkLog
  end.
Definition begin_op : M unit := acquire LkLog ;; begin_op_loop fuel.

Definition write_log_block (tail : nat) : M unit :=
  l ← get_log;
  to ← bread fuel (u32 (l_dev l)) (u32 (l_start l + Z.of_nat tail + 1));
  block ← need (lh_block l !! tail) "log.lh.block[]";
  from ← bread fuel (u32 (l_dev l)) (u32 block);
  fb ← get_buf from;
  (set_buf to (fun b => b <| b_data := b_data fb |>) ;; bwrite to) ;;
  brelse from ;;
  brelse to.

Definition write_log : M unit :=
  l ← get_log;
  mfor (seq 0 (Z.to_nat (lh_n l))) write_log_block.

Definition commit : M unit :=
  l ← get_log;
  if 0 <? lh_n l then
    write_log ;;
    write_head ;;
    install_trans ;;
    set_log (fun l => l <| lh_n := 0 |>) ;;
    write_head
  else mret tt.

Definition end_op : M unit :=
  acquire LkLog ;;
  set_log (fun l => l <| l_outstanding := l_outstanding l - 1 |>) ;;
  l ← get_log;
  if l_committing l then panic "log.committing" else
  do_commit ← (if l_outstanding l =? 0
    then set_log (fun l => l <| l_committing := true |>) ;; mret true
    else Proc.wakeup ChLog ;; mret false);
  release LkLog ;;
  if (do_commit : bool) then
    commit ;;
    acquire LkLog ;;
    set_log (fun l => l <| l_committing := false |>) ;;
    Proc.wakeup ChLog ;;
    release LkLog
  else mret tt.

(** [b] is the index of the buffer. *)
Definition log_write (b : nat) : M unit :=
  l ← get_log;
  if (LOGSIZE <=? lh_n l) || (l_size l - 1 <=? lh_n l) then panic "too big a transaction"
  else if l_outstanding l <? 1 then panic "log_write outside of trans"
  else
    acquire LkLog ;;
    bp ← get_buf b;
    l ← get_log;
    let i := default (Z.to_nat (lh_n l))
      (find_index (fun blk => u32 blk =? b_blockno bp) (take (Z.to_nat (lh_n l)) (lh_block l))) in
    set_log (fun l => l <| lh_block := <[i := s32 (b_blockno bp)]> (lh_block l) |>
      <| lh_n := if Nat.eqb i (Z.to_nat (lh_n l)) then lh_n l + 1 else lh_n l |>) ;;
    set_buf b (fun bp => bp <| b_dirty := true |>) ;;
    release LkLog.

End Code.

(** ** Lemmas: one block *)
Section Specs.
Context (pid : Z) (fuel : nat).
Abbreviation runs := (Sleeplock.runs pid).

(** A cache on disk [m] with dirty blocks [D], no buffer held, of [nb] buffers,
    and the log in state [l]. *)
Definition log_on (f : fs_t) (m : list (list Z)) (D : gmap Z (list Z)) (nb : nat) (l : log_t) : Prop :=
  cache_ok pid f [] m D /\ length (bufs f) = nb /\ log f = l.

Lemma runs_get_log {U} (k : log_t -> M U) h f b w h2 f2 :
  runs (k (log f)) h f b w h2 f2 -> runs (get_log ≫= k) h f b w h2 f2.
Proof. apply (runs_gets pid log). Qed.

Lemma with_buf_at f i b sl : (i < length (bufs f))%nat -> bufs (with_buf f i b sl) !! i = Some b.
Proof. intros. by apply list_lookup_insert_eq. Qed.
Lemma with_buf_ne f i j b sl : i <> j -> bufs (with_buf f i b sl) !! j = bufs f !! j.
Proof. intros. by apply list_lookup_insert_ne. Qed.

(** Two different blocks read one after the other, both held. *)
Lemma open_two f m D nb l A B : log_on f m D nb l -> A <> B ->
  0 <= A < Z.of_nat (length m) -> 0 <= B < Z.of_nat (length m) ->
  (base.size D < nb)%nat -> (S (base.size D) < nb)%nat \/ is_Some (D !! B) ->
  exists i j bi bj f1 f2,
    runs (bread (S fuel) 1 A) [] f i [] [] f1 /\ runs (bread (S fuel) 1 B) [] f1 j [] [] f2 /\
    cache_ok pid f2 [j; i] m D /\ i <> j /\ bufs f2 !! i = Some bi /\ bufs f2 !! j = Some bj /\
    b_blockno bi = A /\ b_blockno bj = B /\
    content m D A = Some (b_data bi) /\ content m D B = Some (b_data bj) /\
    length (bufs f2) = nb /\ log f1 = l /\ log f2 = l.
Proof.
  intros (Hck&Hnb&Hl) Hne HA HB Hs1 Hs2.
  destruct (bread_ok pid fuel f [] m D A) as (i&bi&Hr1&Hck1&_&HbA&HcA); try done.
  { left. eapply spare_count; [done|]. cbn [length Nat.add]. lia. }
  { by intros ? ? ?%elem_of_nil. }
  set (f1 := with_buf f i bi _) in *.
  assert (Hi : (i < length (bufs f))%nat).
  { pose proof (ck_range _ _ _ _ _ Hck1 i ltac:(by left)) as E. cbn in E. by rewrite length_insert in E. }
  assert (Hnb1 : length (bufs f1) = nb) by (cbn; by rewrite length_insert).
  destruct (bread_ok pid fuel f1 [i] m D B) as (j&bj&Hr2&Hck2&Hji&HbB&HcB); try done.
  { destruct Hs2 as [?|?]; [left|by right]. eapply spare_count; [done|]. cbn [length Nat.add]. lia. }
  { intros k b ->%list_elem_of_singleton Hb. unfold f1 in Hb. rewrite with_buf_at in Hb by done.
    by simplify_eq. }
  rewrite list_elem_of_singleton in Hji.
  exists i, j, bi, bj, f1, (with_buf f1 j bj (mkSleeplock true pid)). split_and!; try done.
  - rewrite with_buf_ne by done. by apply with_buf_at.
  - apply with_buf_at. pose proof (ck_range _ _ _ _ _ Hck2 j ltac:(by left)) as E. cbn in E.
    rewrite !length_insert in E. cbn. by rewrite length_insert.
  - cbn. rewrite length_insert. done.
Qed.

(** Both released, in the order given. *)
Lemma close_two f m D i j : cache_ok pid f [j; i] m D -> i <> j ->
  exists f', runs (brelse i ;; brelse j) [] f tt [] [] f' /\
    log_on f' m D (length (bufs f)) (log f).
Proof.
  intros Hck Hij.
  assert (Hck' : cache_ok pid f [i; j] m D) by (eapply cache_ok_equiv; [|exact Hck]; set_solver).
  destruct (held_buf pid f _ m D i Hck') as (bi&Hbi&_); [by left|].
  destruct (brelse_ok pid f [j] m D i bi Hck') as [Hr1 Hck1]; [set_solver|done|].
  destruct (held_buf pid _ _ _ _ j Hck1) as (bj&Hbj&_); [by left|].
  destruct (brelse_ok pid _ [] m D j bj Hck1) as [Hr2 Hck2]; [set_solver|done|].
  exists (freed (freed f i bi) j bj). split; [eapply runs_seq; [exact Hr1|exact Hr2]|].
  split_and!; [done| |done]. cbn. by rewrite !length_insert.
Qed.

(** One iteration of [write_log]: a dirty block goes to its place in the log. *)
Lemma write_log_block_ok f m D nb l tail blk d : log_on f m D nb l ->
  let A := l_start l + Z.of_nat tail + 1 in
  l_dev l = 1 -> lh_block l !! tail = Some blk -> A <> blk ->
  0 <= A < Z.of_nat (length m) -> 0 <= blk < Z.of_nat (length m) -> Z.of_nat (length m) < 2 ^ 32 ->
  D !! blk = Some d -> D !! A = None -> (base.size D < nb)%nat ->
  exists f', runs (write_log_block (S fuel) tail) [] f tt [(A, d)] [] f' /\
    log_on f' (<[Z.to_nat A := d]> m) D nb l.
Proof.
  intros Hon A Hdev Hblk Hne HA HB Hm HD HDA Hsz.
  destruct (open_two f m D nb l A blk) as (i&j&bi&bj&f1&f2&Hr1&Hr2&Hck&Hij&Hbi&Hbj&EA&EB&_&HcB&Hnb&Hl1&Hl2);
    try done; [by right|]. destruct Hon as (_&_&Hl). unfold content in HcB. rewrite HD in HcB. injection HcB as ->.
  destruct (bwrite_ok pid f2 [j; i] m D i bi (b_data bj)) as [Hr3 Hck3]; [done|set_solver|done|by rewrite EA|].
  rewrite EA in Hr3, Hck3. rewrite delete_id in Hck3 by done.
  destruct (close_two (wrote f2 i bi (b_data bj)) (<[Z.to_nat A := b_data bj]> m) D j i) as (f'&Hr4&Hck4&Hnb4&Hl4);
    [eapply cache_ok_equiv; [|exact Hck3]; set_solver|done|].
  exists f'. split.
  - unfold write_log_block. apply runs_get_log. rewrite Hl, Hdev.
    change (u32 1) with 1. fold A. rewrite !u32_small by lia.
    eapply runs_seq; [exact Hr1|]. eapply runs_need; [done|]. rewrite u32_small by lia.
    eapply runs_seq; [exact Hr2|]. eapply runs_seq; [by apply runs_get_buf|].
    rewrite <- (app_nil_r [(A, _)]). eapply runs_bind; [exact Hr3|exact Hr4].
  - split_and!; [done| |by rewrite Hl4]. rewrite Hnb4. cbn. by rewrite length_insert.
Qed.

(** One iteration of [install_trans]: a block of the log goes home. *)
Lemma install_block_ok f m D nb l tail blk d : log_on f m D nb l ->
  let A := l_start l + Z.of_nat tail + 1 in
  l_dev l = 1 -> lh_block l !! tail = Some blk -> A <> u32 blk ->
  0 <= A < Z.of_nat (length m) -> u32 blk < Z.of_nat (length m) -> Z.of_nat (length m) < 2 ^ 32 ->
  m !! Z.to_nat A = Some d -> D !! A = None -> (base.size D < nb)%nat ->
  (S (base.size D) < nb)%nat \/ is_Some (D !! u32 blk) ->
  exists f', runs (install_trans_block (S fuel) tail) [] f tt [(u32 blk, d)] [] f' /\
    log_on f' (<[Z.to_nat (u32 blk) := d]> m) (delete (u32 blk) D) nb l.
Proof.
  intros Hon A Hdev Hblk Hne HA HB Hm Hd HDA Hsz Hsz2. pose proof (u32_range blk).
  destruct (open_two f m D nb l A (u32 blk)) as (i&j&bi&bj&f1&f2&Hr1&Hr2&Hck&Hij&Hbi&Hbj&EA&EB&HcA&_&Hnb&Hl1&Hl2);
    try done; [lia|]. destruct Hon as (_&_&Hl). unfold content in HcA. rewrite HDA, Hd in HcA. injection HcA as ->.
  destruct (bwrite_ok pid f2 [j; i] m D j bj (b_data bi)) as [Hr3 Hck3]; [done|by left|done|rewrite EB; lia|].
  rewrite EB in Hr3, Hck3.
  destruct (close_two (wrote f2 j bj (b_data bi)) (<[Z.to_nat (u32 blk) := b_data bi]> m)
    (delete (u32 blk) D) i j) as (f'&Hr4&Hck4&Hnb4&Hl4); [done|done|].
  exists f'. split.
  - unfold install_trans_block. apply runs_get_log. rewrite Hl, Hdev.
    change (u32 1) with 1. fold A. rewrite (u32_small A) by lia.
    eapply runs_seq; [exact Hr1|]. eapply runs_need; [done|].
    eapply runs_seq; [exact Hr2|]. eapply runs_seq; [by apply runs_get_buf|].
    rewrite <- (app_nil_r [(u32 blk, _)]). eapply runs_bind; [exact Hr3|exact Hr4].
  - split_and!; [done| |by rewrite Hl4]. rewrite Hnb4. cbn. by rewrite length_insert.
Qed.

(** ** The header block *)
Lemma put_blocks_get bl : forall d i j, (j < 4 + 4 * i)%nat -> (j + 4 <= 4 + 4 * i)%nat ->
  (4 + 4 * (i + length bl) <= length d)%nat -> get32 (put_blocks d i bl) j = get32 d j.
Proof.
  induction bl as [|b bl IH]; intros d i j Hj Hj4 Hl; [done|]. cbn [put_blocks]. simpl in Hl.
  rewrite IH by (rewrite ?length_blit; simpl; lia). apply get32_blit_ne; simpl; lia.
Qed.

Lemma put_blocks_block bl : forall d i j b, bl !! j = Some b -> (4 + 4 * (i + length bl) <= length d)%nat ->
  get32 (put_blocks d i bl) (4 + 4 * (i + j)) = u32 b.
Proof.
  induction bl as [|b0 bl IH]; intros d i j b Hj Hl; [done|]. cbn [put_blocks]. simpl in Hl.
  destruct j as [|j]; simpl in Hj; simplify_eq.
  - rewrite Nat.add_0_r, put_blocks_get by (rewrite ?length_blit; simpl; lia).
    apply get32_blit_eq. lia.
  - replace (i + S j)%nat with (S i + j)%nat by lia. apply IH; [done|].
    rewrite length_blit by (simpl; lia). lia.
Qed.

Lemma length_put_blocks bl : forall d i, (4 + 4 * (i + length bl) <= length d)%nat ->
  length (put_blocks d i bl) = length d.
Proof.
  induction bl as [|b bl IH]; intros d i Hl; [done|]. cbn [put_blocks]. simpl in Hl.
  rewrite IH by (rewrite length_blit; simpl; lia). by apply length_blit; simpl; lia.
Qed.

(** Block numbers that fit, and a header block that holds them. *)
Definition blocks_ok (bl : list Z) : Prop := (length bl <= 30)%nat /\ Forall (fun b => 0 <= b < 2 ^ 31) bl.

Lemma put_head_round_trip d bl rest : blocks_ok bl -> (124 <= length d)%nat ->
  hb_n (put_head d (Z.of_nat (length bl)) (bl ++ rest)) = Z.of_nat (length bl) /\
  (forall i b, bl !! i = Some b -> hb_block (put_head d (Z.of_nat (length bl)) (bl ++ rest)) i = b) /\
  length (put_head d (Z.of_nat (length bl)) (bl ++ rest)) = length d.
Proof.
  intros [Hn Hb] Hl. unfold put_head. rewrite Nat2Z.id, take_app_length. split_and!.
  - unfold hb_n. rewrite put_blocks_get by (rewrite ?length_blit; simpl; lia).
    rewrite get32_blit_eq, u32_small, s32_small by lia. done.
  - intros i b Hi. unfold hb_block. rewrite (put_blocks_block bl _ 0 i b) by (rewrite ?length_blit; simpl; done || lia).
    rewrite Forall_lookup in Hb. specialize (Hb i b Hi). rewrite u32_small, s32_small by lia. done.
  - rewrite length_put_blocks; rewrite ?length_blit; simpl; lia.
Qed.

(** ** The loops and the header, on the disk *)

(** The disk after a sequence of writes. *)
Definition apply_writes (m : list (list Z)) (ws : list (Z * list Z)) : list (list Z) :=
  foldl (fun m w => <[Z.to_nat w.1 := w.2]> m) m ws.
(** Blocks written to consecutive addresses from [a] on. *)
Fixpoint run_of (a : Z) (ds : list (list Z)) : list (Z * list Z) :=
  match ds with [] => [] | d :: ds' => (a, d) :: run_of (a + 1) ds' end.

Lemma length_apply_writes ws : forall m, length (apply_writes m ws) = length m.
Proof.
  induction ws as [|w ws IH]; intros m; [done|]. cbn. unfold apply_writes in IH.
  by rewrite IH, length_insert.
Qed.

(** The parameters of a log that lies on the disk. *)
Definition geometry (m : list (list Z)) (l : log_t) : Prop :=
  l_dev l = 1 /\ 0 <= l_start l /\ l_start l + 29 < Z.of_nat (length m) /\ Z.of_nat (length m) < 2 ^ 31.
(** No block of the log is dirty in the cache. *)
Definition log_clean (D : gmap Z (list Z)) (l : log_t) : Prop :=
  forall a, l_start l <= a <= l_start l + 29 -> D !! a = None.

Lemma write_log_loop bl : forall ds k f m D nb l, log_on f m D nb l -> geometry m l -> log_clean D l ->
  (base.size D < nb)%nat -> (k + length bl <= 29)%nat ->
  (forall i b, bl !! i = Some b -> lh_block l !! (k + i)%nat = Some b) ->
  Forall2 (fun b d => D !! b = Some d /\ 0 <= b < Z.of_nat (length m)) bl ds ->
  let ws := run_of (l_start l + Z.of_nat k + 1) ds in
  exists f', runs (mfor (seq k (length bl)) (write_log_block (S fuel))) [] f tt ws [] f' /\
    log_on f' (apply_writes m ws) D nb l.
Proof.
  induction bl as [|b bl IH]; intros ds k f m D nb l Hon Hg Hcl Hsz Hk Hbl Hds ws.
  - inversion Hds; subst. exists f. split; [apply runs_ret|done].
  - inversion Hds as [|? d ? ds' [HD Hb] Hds']; subst. destruct Hg as (Hdev&Hst&Hen&Hm). simpl in Hk.
    assert (HDA : D !! (l_start l + Z.of_nat k + 1) = None) by (apply Hcl; lia).
    destruct (write_log_block_ok f m D nb l k b d) as (f1&Hr1&Hon1); try done; try lia.
    { rewrite <- (Nat.add_0_r k). by apply Hbl. }
    { intros E. rewrite E in HDA. congruence. }
    destruct (IH ds' (S k) f1 _ D nb l Hon1) as (f'&Hr2&Hon2); try done; try lia.
    { unfold geometry. by rewrite length_insert. }
    { intros i c Hi. replace (S k + i)%nat with (k + S i)%nat by lia. by apply Hbl. }
    { by rewrite length_insert. }
    replace (l_start l + Z.of_nat (S k) + 1) with (l_start l + Z.of_nat k + 1 + 1) in Hr2, Hon2 by lia.
    exists f'. split; [|exact Hon2]. cbn [length seq mfor]. subst ws. cbn [run_of].
    rewrite <- (app_nil_l (run_of _ _)), app_comm_cons. eapply runs_bind; [exact Hr1|exact Hr2].
Qed.

Lemma install_loop bl : forall ds k f m D nb l, log_on f m D nb l -> geometry m l -> log_clean D l ->
  (base.size D < nb)%nat -> (k + length bl <= 29)%nat ->
  (forall i b, bl !! i = Some b -> lh_block l !! (k + i)%nat = Some b) ->
  (forall i d, ds !! i = Some d -> m !! Z.to_nat (l_start l + Z.of_nat (k + i) + 1) = Some d) ->
  Forall (fun b => 0 <= b < Z.of_nat (length m) /\ ~ (l_start l <= b <= l_start l + 29)) bl ->
  length ds = length bl -> NoDup bl ->
  (forall b, b ∈ bl -> is_Some (D !! b)) \/ (S (base.size D) < nb)%nat ->
  exists f', runs (mfor (seq k (length bl)) (install_trans_block (S fuel))) [] f tt (zip bl ds) [] f' /\
    log_on f' (apply_writes m (zip bl ds)) (foldl (fun D b => delete b D) D bl) nb l.
Proof.
  induction bl as [|b bl IH]; intros ds k f m D nb l Hon Hg Hcl Hsz Hk Hbl Hds Hrg Hlen Hnd Hav.
  - exists f. split; [apply runs_ret|done].
  - destruct ds as [|d ds]; [done|]. pose proof Hg as (Hdev&Hst&Hen&Hm). simpl in Hk, Hlen.
    apply Forall_cons in Hrg as [[Hb Hout] Hrg]. apply NoDup_cons in Hnd as [Hnb Hnd].
    assert (Hu : u32 b = b) by (apply u32_small; lia).
    assert (HDA : D !! (l_start l + Z.of_nat k + 1) = None) by (apply Hcl; lia).
    destruct (install_block_ok f m D nb l k b d) as (f1&Hr1&Hon1); rewrite ?Hu; try done; try lia.
    { rewrite <- (Nat.add_0_r k). by apply Hbl. }
    { rewrite <- (Nat.add_0_r k) at 1. by apply Hds. }
    { destruct Hav as [Hav|]; [right|by left]. apply Hav. by left. }
    rewrite Hu in Hr1, Hon1.
    assert (Hsd : (base.size (delete b D) <= base.size D)%nat).
    { destruct (D !! b) eqn:E; [rewrite map_size_delete_Some by eauto|rewrite map_size_delete_None by done];
        lia. }
    destruct (IH ds (S k) f1 (<[Z.to_nat b := d]> m) (delete b D) nb l Hon1) as (f'&Hr2&Hon2); try done; try lia.
    { unfold geometry. by rewrite length_insert. }
    { intros a Ha. apply lookup_delete_None. right. by apply Hcl. }
    { intros i c Hi. replace (S k + i)%nat with (k + S i)%nat by lia. by apply Hbl. }
    { intros i e Hi. rewrite list_lookup_insert_ne by (pose proof (lookup_lt_Some _ _ _ Hi); lia).
      replace (S k + i)%nat with (k + S i)%nat by lia. by apply Hds. }
    { rewrite length_insert. done. }
    { destruct Hav as [Hav|]; [left|right; lia]. intros c Hc.
      rewrite lookup_delete_ne by (intros ->; done). apply Hav. by right. }
    exists f'. split; [|exact Hon2]. cbn [length seq mfor zip zip_with].
    rewrite <- (app_nil_l (zip_with _ _ _)), app_comm_cons. eapply runs_bind; [exact Hr1|exact Hr2].
Qed.

(** One buffer opened and closed. *)
Lemma open_one f m D nb l A : log_on f m D nb l -> 0 <= A < Z.of_nat (length m) -> (base.size D < nb)%nat ->
  exists i b f1, runs (bread (S fuel) 1 A) [] f i [] [] f1 /\ cache_ok pid f1 [i] m D /\
    bufs f1 !! i = Some b /\ b_blockno b = A /\ content m D A = Some (b_data b) /\
    length (bufs f1) = nb /\ log f1 = l.
Proof.
  intros (Hck&Hnb&Hl) HA Hs.
  destruct (bread_ok pid fuel f [] m D A) as (i&b&Hr1&Hck1&_&HbA&HcA); try done.
  { left. eapply spare_count; [done|]. cbn [length Nat.add]. lia. }
  { by intros ? ? ?%elem_of_nil. }
  exists i, b, (with_buf f i b (mkSleeplock true pid)). split_and!; try done.
  - apply with_buf_at. pose proof (ck_range _ _ _ _ _ Hck1 i ltac:(by left)) as E. cbn in E.
    by rewrite length_insert in E.
  - cbn. by rewrite length_insert.
Qed.

Lemma close_one f m D i : cache_ok pid f [i] m D ->
  exists f', runs (brelse i) [] f tt [] [] f' /\ log_on f' m D (length (bufs f)) (log f).
Proof.
  intros Hck. destruct (held_buf pid f _ m D i Hck) as (b&Hb&_); [by left|].
  destruct (brelse_ok pid f [] m D i b Hck) as [Hr Hck1]; [set_solver|done|].
  exists (freed f i b). split; [done|]. split_and!; [done| |done]. cbn. by rewrite length_insert.
Qed.

Lemma write_head_ok f m D nb l hd : log_on f m D nb l -> geometry m l -> log_clean D l ->
  (base.size D < nb)%nat -> lh_n l <= 30 -> m !! Z.to_nat (l_start l) = Some hd ->
  let hd' := put_head hd (lh_n l) (lh_block l) in
  exists f', runs (write_head (S fuel)) [] f tt [(l_start l, hd')] [] f' /\
    log_on f' (<[Z.to_nat (l_start l) := hd']> m) D nb l.
Proof.
  intros Hon (Hdev&Hst&Hen&Hm) Hcl Hs Hn Hhd hd'.
  destruct (open_one f m D nb l (l_start l)) as (i&b&f1&Hr1&Hck1&Hb&HbA&HcA&Hnb&Hl1); try done; [lia|].
  assert (HDA : D !! l_start l = None) by (apply Hcl; lia).
  unfold content in HcA. rewrite HDA, Hhd in HcA. injection HcA as ->.
  destruct (bwrite_ok pid f1 [i] m D i b hd') as [Hr2 Hck2]; [done|by left|done|rewrite HbA; lia|].
  rewrite HbA in Hr2, Hck2. rewrite delete_id in Hck2 by done.
  destruct (close_one _ _ _ _ Hck2) as (f'&Hr3&Hck3&Hnb3&Hl3). exists f'. split.
  - unfold write_head. apply runs_get_log. destruct Hon as (_&_&->). rewrite Hdev.
    change (u32 1) with 1. rewrite u32_small by lia.
    eapply runs_seq; [exact Hr1|]. eapply runs_seq; [by apply runs_get_buf|].
    rewrite (proj2 (Z.ltb_ge _ _)) by (unfold LOGSIZE, MAXOPBLOCKS; lia).
    eapply runs_seq; [apply runs_ret|]. rewrite <- (app_nil_r [(l_start l, _)]).
    eapply runs_bind; [exact Hr2|exact Hr3].
  - split_and!; [done| |by rewrite Hl3]. rewrite Hnb3. cbn. by rewrite length_insert.
Qed.

Lemma log_on_set f m D nb l l' : log_on f m D nb l -> log_on (f <| log := l' |>) m D nb l'.
Proof. intros (Hck&Hnb&_). split_and!; [|done|done]. destruct Hck. by split. Qed.

Lemma runs_set_log g h f : runs (set_log g) h f tt [] h (f <| log := g (log f) |>).
Proof. apply (runs_upd pid (fun f => f <| log := g (log f) |>)). Qed.

(** The copy loop of [read_head]. *)
Definition read_blocks (d : list Z) (k n : nat) (bs : list Z) : list Z :=
  foldl (fun bs j => <[j := hb_block d j]> bs) bs (seq k n).

Lemma read_blocks_lookup d n : forall k bs, (k + n <= length bs)%nat ->
  length (read_blocks d k n bs) = length bs /\
  (forall i, (i < k)%nat -> read_blocks d k n bs !! i = bs !! i) /\
  (forall i, (k <= i < k + n)%nat -> read_blocks d k n bs !! i = Some (hb_block d i)).
Proof.
  induction n as [|n IH]; intros k bs Hl; [split_and!; [done|done|lia]|].
  unfold read_blocks in *. cbn [seq foldl].
  destruct (IH (S k) (<[k := hb_block d k]> bs)) as (H1&H2&H3); [rewrite length_insert; lia|].
  rewrite length_insert in H1. split_and!; [done|..].
  - intros i Hi. rewrite H2 by lia. by rewrite list_lookup_insert_ne by lia.
  - intros i Hi. destruct (decide (i = k)) as [->|]; [|apply H3; lia].
    rewrite H2 by lia. apply list_lookup_insert_eq. lia.
Qed.

Lemma runs_read_loop d n : forall k f, (k + n <= 30)%nat ->
  runs (mfor (seq k n) (fun j =>
    l ← get_log;
    if LOGSIZE <=? Z.of_nat j then fault "log.lh.block[]" else
    set_log (fun l => l <| lh_block := <[j := hb_block d j]> (lh_block l) |>))) [] f tt [] []
    (f <| log := (log f) <| lh_block := read_blocks d k n (lh_block (log f)) |> |>).
Proof.
  induction n as [|n IH]; intros k f Hk.
  - cbn. replace (f <| log := _ |>) with f; [apply runs_ret|]. destruct f as [? ? ? ? []]; done.
  - cbn [seq mfor]. eapply runs_seq.
    + apply runs_get_log. rewrite (proj2 (Z.leb_gt _ _)) by (unfold LOGSIZE, MAXOPBLOCKS; lia).
      apply runs_set_log.
    + match goal with |- runs _ _ ?f1 _ _ _ _ => specialize (IH (S k) f1) end.
      apply IH. lia.
Qed.

(** [read_head] loads the block numbers of the header. *)
Lemma read_head_ok f m nb l hd bl : log_on f m ∅ nb l -> geometry m l -> (0 < nb)%nat ->
  length (lh_block l) = 30%nat -> m !! Z.to_nat (l_start l) = Some hd ->
  (length bl <= 30)%nat -> hb_n hd = Z.of_nat (length bl) ->
  (forall i b, bl !! i = Some b -> hb_block hd i = b) ->
  exists f' bs, runs (read_head (S fuel)) [] f tt [] [] f' /\
    (forall i b, bl !! i = Some b -> bs !! i = Some b) /\ length bs = 30%nat /\
    log_on f' m ∅ nb (l <| lh_n := Z.of_nat (length bl) |> <| lh_block := bs |>).
Proof.
  intros Hon (Hdev&Hst&Hen&Hm) Hnb0 Hlb Hhd Hbl Hn Hb.
  destruct (open_one f m ∅ nb l (l_start l)) as (i&b&f1&Hr1&Hck1&Hbi&HbA&HcA&Hnb&Hl1);
    [done|lia|by rewrite map_size_empty|].
  unfold content in HcA. rewrite lookup_empty, Hhd in HcA. injection HcA as ->.
  set (bs := read_blocks (b_data b) 0 (length bl) (lh_block l)).
  set (f2 := f1 <| log := l <| lh_n := Z.of_nat (length bl) |> <| lh_block := bs |> |>).
  destruct (close_one f2 m ∅ i) as (f'&Hr3&Hon3); [destruct Hck1; by split|].
  destruct (read_blocks_lookup (b_data b) (length bl) 0 (lh_block l)) as (B1&_&B3); [lia|].
  exists f', bs. split_and!.
  - unfold read_head. apply runs_get_log. destruct Hon as (_&_&->). rewrite Hdev.
    change (u32 1) with 1. rewrite u32_small by lia.
    eapply runs_seq; [exact Hr1|]. eapply runs_seq; [by apply runs_get_buf|].
    eapply runs_seq; [apply runs_set_log|]. rewrite Hn, Nat2Z.id.
    eapply runs_seq; [apply runs_read_loop; lia|]. cbn [log setf lh_block]. rewrite Hl1. exact Hr3.
  - intros j c Hj. pose proof (lookup_lt_Some _ _ _ Hj). subst bs. rewrite B3 by lia.
    f_equal. by apply Hb.
  - subst bs. by rewrite B1.
  - rewrite <- Hnb. exact Hon3.
Qed.

(** ** Whole operations *)

(** The header block with its count erased. *)
Definition erased (hd : list Z) : list Z := blit hd 0 (le32 0).
Lemma put_head_0 hd bs : put_head hd 0 bs = erased hd.
Proof. done. Qed.

(** The blocks of a transaction: where they live, outside the log. *)
Definition homes (m : list (list Z)) (l : log_t) (bl : list Z) : Prop :=
  (length bl <= 29)%nat /\ NoDup bl /\
  Forall (fun b => 0 <= b < Z.of_nat (length m) /\ ~ (l_start l <= b <= l_start l + 29)) bl.

Lemma apply_writes_app m w1 w2 : apply_writes m (w1 ++ w2) = apply_writes (apply_writes m w1) w2.
Proof. apply foldl_app. Qed.

(** Writes elsewhere do not matter... *)
Lemma apply_writes_ne ws : forall m a, (forall w, w ∈ ws -> Z.to_nat w.1 <> a) ->
  apply_writes m ws !! a = m !! a.
Proof.
  induction ws as [|w ws IH]; intros m a Ha; [done|]. cbn. unfold apply_writes in IH. rewrite IH.
  - apply list_lookup_insert_ne. apply Ha. by left.
  - intros w' Hw'. apply Ha. by right.
Qed.

(** ... and what was at a written place before does not matter. *)
Lemma apply_writes_in ws : forall m m' a, length m = length m' ->
  (exists w, w ∈ ws /\ Z.to_nat w.1 = a) -> apply_writes m ws !! a = apply_writes m' ws !! a.
Proof.
  induction ws as [|w ws IH]; intros m m' a Hl (x&Hx&Hxa); [by apply elem_of_nil in Hx|]. cbn.
  destruct (decide (Exists (fun w => Z.to_nat w.1 = a) ws)) as [He|Hn].
  - apply IH; [by rewrite !length_insert|]. by apply Exists_exists in He.
  - assert (Hne : forall w', w' ∈ ws -> Z.to_nat w'.1 <> a).
    { intros w' Hw' E. apply Hn, Exists_exists. eauto. }
    pose proof (apply_writes_ne ws) as H. unfold apply_writes in H. rewrite !H by done.
    apply elem_of_cons in Hx as [->|Hx]; [|by apply Hne in Hx]. subst a.
    destruct (decide (Z.to_nat w.1 < length m)%nat).
    + by rewrite !list_lookup_insert_eq by lia.
    + by rewrite !lookup_ge_None_2 by (rewrite length_insert; lia).
Qed.

Lemma apply_writes_same ws m m' a : length m = length m' -> m !! a = m' !! a ->
  apply_writes m ws !! a = apply_writes m' ws !! a.
Proof.
  intros Hl Ha. destruct (decide (Exists (fun w => Z.to_nat w.1 = a) ws)) as [He|Hn].
  - apply apply_writes_in; [done|]. by apply Exists_exists in He.
  - assert (Hne : forall w, w ∈ ws -> Z.to_nat w.1 <> a).
    { intros w Hw E. apply Hn, Exists_exists. eauto. }
    by rewrite !apply_writes_ne by done.
Qed.

(** Installing again after a partial installation. *)
Lemma apply_writes_again m j ws a : apply_writes (apply_writes m (take j ws)) ws !! a = apply_writes m ws !! a.
Proof.
  destruct (decide (Exists (fun w => Z.to_nat w.1 = a) ws)) as [He|Hn].
  - apply apply_writes_in; [by rewrite length_apply_writes|]. by apply Exists_exists in He.
  - assert (Hne : forall w, w ∈ ws -> Z.to_nat w.1 <> a).
    { intros w Hw E. apply Hn, Exists_exists. eauto. }
    rewrite !apply_writes_ne; try done. intros w Hw%subseteq_take. by apply Hne.
Qed.

Lemma deletes_subseteq (bl : list Z) : forall D : gmap Z (list Z), foldl (fun D b => delete b D) D bl ⊆ D.
Proof.
  induction bl as [|b bl IH]; intros D; [done|]. cbn. etrans; [apply IH|]. apply delete_subseteq.
Qed.

(** The second half of [commit] and of recovery: the blocks of the log go home
    and the header is erased. *)
Lemma install_erase_ok f m D nb l hd bl ds : log_on f m D nb l -> geometry m l -> log_clean D l ->
  (base.size D < nb)%nat -> lh_n l = Z.of_nat (length bl) ->
  (forall i b, bl !! i = Some b -> lh_block l !! i = Some b) ->
  homes m l bl -> length ds = length bl ->
  (forall i d, ds !! i = Some d -> m !! Z.to_nat (l_start l + Z.of_nat i + 1) = Some d) ->
  m !! Z.to_nat (l_start l) = Some hd ->
  (forall b, b ∈ bl -> is_Some (D !! b)) \/ (S (base.size D) < nb)%nat ->
  let ws := zip bl ds ++ [(l_start l, erased hd)] in
  exists f', runs (install_trans (S fuel) ;; set_log (fun l => l <| lh_n := 0 |>) ;; write_head (S fuel))
      [] f tt ws [] f' /\
    log_on f' (apply_writes m ws) (foldl (fun D b => delete b D) D bl) nb (l <| lh_n := 0 |>).
Proof.
  intros Hon Hg Hcl Hsz Hn Hbs (Hlen&Hnd&Hrg) Hld Hds Hhd Hav ws.
  destruct (install_loop bl ds 0 f m D nb l) as (f1&Hr1&Hon1); try done.
  pose proof (deletes_subseteq bl D) as HD1. set (D1 := foldl _ D bl) in *.
  set (m1 := apply_writes m (zip bl ds)) in *.
  set (l1 := l <| lh_n := 0 |>). pose proof (log_on_set _ _ _ _ _ l1 Hon1) as Hon1'.
  destruct (write_head_ok (f1 <| log := l1 |>) m1 D1 nb l1 hd) as (f2&Hr2&Hon2); try done.
  { unfold geometry. subst m1. by rewrite length_apply_writes. }
  { intros a Ha. eapply lookup_weaken_None; [by apply Hcl|done]. }
  { eapply Nat.le_lt_trans; [by apply map_subseteq_size|exact Hsz]. }
  { subst m1. rewrite apply_writes_ne; [done|]. intros [b d] Hw%elem_of_zip_l E.
    rewrite Forall_forall in Hrg. destruct (Hrg b Hw). destruct Hg as (_&?&_). cbn in E. lia. }
  exists f2. split; [|subst ws; rewrite apply_writes_app; exact Hon2]. eapply runs_bind.
  - unfold install_trans. apply runs_get_log. destruct Hon as (_&_&->). rewrite Hn, Nat2Z.id. exact Hr1.
  - eapply runs_seq; [apply runs_set_log|]. destruct Hon1 as (_&_&->). exact Hr2.
Qed.

(** Recovery: the blocks of the log go home and the header is erased. *)
Lemma recover_ok f m nb l hd bl ds : log_on f m ∅ nb l -> geometry m l -> (2 <= nb)%nat ->
  length (lh_block l) = 30%nat -> m !! Z.to_nat (l_start l) = Some hd ->
  homes m l bl -> hb_n hd = Z.of_nat (length bl) -> (forall i b, bl !! i = Some b -> hb_block hd i = b) ->
  length ds = length bl ->
  (forall i d, ds !! i = Some d -> m !! Z.to_nat (l_start l + Z.of_nat i + 1) = Some d) ->
  let ws := zip bl ds ++ [(l_start l, erased hd)] in
  exists f' l', runs (recover_from_log (S fuel)) [] f tt ws [] f' /\
    log_on f' (apply_writes m ws) ∅ nb l' /\ lh_n l' = 0 /\ l_start l' = l_start l.
Proof.
  intros Hon Hg Hnb Hlb Hhd Hh Hn Hb Hlen Hds ws.
  destruct (read_head_ok f m nb l hd bl) as (f1&bs&Hr1&Hbs&Hlbs&Hon1); try done; [lia|destruct Hh; lia|].
  set (l1 := l <| lh_n := _ |> <| lh_block := bs |>) in *.
  destruct (install_erase_ok f1 m ∅ nb l1 hd bl ds) as (f2&Hr2&Hon2); try done;
    [rewrite map_size_empty; lia|right; rewrite map_size_empty; lia|].
  replace (foldl (fun D b => delete b D) (∅ : gmap Z (list Z)) bl) with (∅ : gmap Z (list Z)) in Hon2
    by (apply map_eq; intros i; rewrite lookup_empty; symmetry; eapply lookup_weaken_None;
      [apply lookup_empty|apply deletes_subseteq]).
  eexists f2, _. split_and!; [|exact Hon2|done|done].
  unfold recover_from_log. eapply runs_seq; [exact Hr1|exact Hr2].
Qed.

(** The blocks of a run are at their addresses. *)
Lemma run_of_keys ds : forall a w, w ∈ run_of a ds -> a <= w.1 < a + Z.of_nat (length ds).
Proof.
  induction ds as [|d ds IH]; intros a w Hw; cbn [run_of length] in *; [by apply elem_of_nil in Hw|].
  apply elem_of_cons in Hw as [->|Hw]; [cbn; lia|]. apply IH in Hw. lia.
Qed.

Lemma run_of_lookup ds : forall m a i d, 0 <= a -> a + Z.of_nat (length ds) <= Z.of_nat (length m) ->
  ds !! i = Some d -> apply_writes m (run_of a ds) !! Z.to_nat (a + Z.of_nat i) = Some d.
Proof.
  induction ds as [|e ds IH]; intros m a i d Ha Hl Hi; [done|]. cbn [length] in Hl.
  cbn [run_of apply_writes foldl fst snd]. destruct i as [|i]; cbn in Hi; simplify_eq.
  - pose proof (apply_writes_ne (run_of (a + 1) ds)) as H. unfold apply_writes in H. rewrite H.
    + rewrite Z.add_0_r. apply list_lookup_insert_eq. lia.
    + intros w Hw. apply run_of_keys in Hw. lia.
  - replace (a + Z.of_nat (S i)) with (a + 1 + Z.of_nat i) by lia. apply IH; [lia| |done].
    rewrite length_insert. lia.
Qed.

(** What [commit] writes, in order. *)
Definition commit_writes (l : log_t) (hd : list Z) (bl : list Z) (ds : list (list Z)) : list (Z * list Z) :=
  let hd1 := put_head hd (lh_n l) (lh_block l) in
  run_of (l_start l + 1) ds ++ [(l_start l, hd1)] ++ zip bl ds ++ [(l_start l, erased hd1)].

(** A transaction ready to commit: its blocks are dirty in the cache, its
    header in memory, and the log on the disk is empty. *)
Record pending_trans (m : list (list Z)) (D : gmap Z (list Z)) (l : log_t)
    (hd : list Z) (bl : list Z) (ds : list (list Z)) : Prop := {
  pt_geom : geometry m l;
  pt_clean : log_clean D l;
  pt_n : lh_n l = Z.of_nat (length bl);
  pt_blocks : exists rest, lh_block l = bl ++ rest;
  pt_homes : homes m l bl;
  pt_data : Forall2 (fun b d => D !! b = Some d) bl ds;
  pt_head : m !! Z.to_nat (l_start l) = Some hd;
  pt_hd : (124 <= length hd)%nat;
}.

(** The first half of [commit], up to the commit point. *)
Lemma commit_point_ok f m D nb l hd bl ds : log_on f m D nb l -> pending_trans m D l hd bl ds ->
  (base.size D < nb)%nat ->
  let w1 := run_of (l_start l + 1) ds in
  let w2 := [(l_start l, put_head hd (lh_n l) (lh_block l))] in
  exists f1 f', runs (write_log (S fuel)) [] f tt w1 [] f1 /\
    runs (write_head (S fuel)) [] f1 tt w2 [] f' /\ log_on f' (apply_writes m (w1 ++ w2)) D nb l.
Proof.
  intros Hon [Hg Hcl Hn [rest Hbl] (Hlen&Hnd&Hrg) Hdat Hhd Hl] Hsz w1 w2.
  destruct (write_log_loop bl ds 0 f m D nb l) as (f1&Hr1&Hon1); try done.
  { intros i b Hi. rewrite Hbl. by apply lookup_app_l_Some. }
  { apply Forall2_same_length_lookup. split; [by eapply Forall2_length|]. intros i b d Hi Hd.
    rewrite Forall_lookup in Hrg. split; [by eapply (Forall2_lookup_lr _ _ _ _ _ _ Hdat)|by eapply Hrg]. }
  rewrite Z.add_0_r in Hr1, Hon1. set (m1 := apply_writes m (run_of (l_start l + 1) ds)) in *.
  destruct (write_head_ok f1 m1 D nb l hd) as (f2&Hr2&Hon2); try done; [..|lia| |].
  { unfold geometry. subst m1. by rewrite length_apply_writes. }
  { subst m1. rewrite apply_writes_ne; [done|]. intros w Hw%run_of_keys. destruct Hg as (_&?&_). lia. }
  exists f1, f2. split_and!; [|exact Hr2|subst w1 w2; rewrite apply_writes_app; exact Hon2].
  unfold write_log. apply runs_get_log. destruct Hon as (_&_&->). rewrite Hn, Nat2Z.id. exact Hr1.
Qed.

Lemma commit_ok f m D nb l hd bl ds : log_on f m D nb l -> pending_trans m D l hd bl ds ->
  (base.size D < nb)%nat -> bl <> [] ->
  exists f', runs (commit (S fuel)) [] f tt (commit_writes l hd bl ds) [] f' /\
    log_on f' (apply_writes m (commit_writes l hd bl ds)) (foldl (fun D b => delete b D) D bl) nb
      (l <| lh_n := 0 |>).
Proof.
  intros Hon Hpt Hsz Hne. 
  destruct (commit_point_ok f m D nb l hd bl ds) as (f0&f1&Hr0&Hr1&Hon1); try done.
  destruct Hpt as [Hg Hcl Hn [rest Hbl] Hh Hdat Hhd Hl]. pose proof (Forall2_length _ _ _ Hdat) as Hld.
  set (hd1 := put_head hd (lh_n l) (lh_block l)) in *. pose proof Hg as (_&Hst&Hen&_).
  pose proof Hh as (Hlen&_). set (m1 := apply_writes m _) in *.
  assert (Hlm1 : length m1 = length m) by apply length_apply_writes.
  destruct (install_erase_ok f1 m1 D nb l hd1 bl ds) as (f2&Hr2&Hon2); try done.
  - unfold geometry. by rewrite Hlm1.
  - intros i b Hi. rewrite Hbl. by apply lookup_app_l_Some.
  - unfold homes. by rewrite Hlm1.
  - intros i d Hi. pose proof (lookup_lt_Some _ _ _ Hi). subst m1. rewrite apply_writes_app. cbn.
    rewrite list_lookup_insert_ne by lia.
    replace (l_start l + Z.of_nat i + 1) with (l_start l + 1 + Z.of_nat i) by lia.
    apply run_of_lookup; [lia|lia|done].
  - subst m1. rewrite apply_writes_app. cbn. apply list_lookup_insert_eq. rewrite length_apply_writes. lia.
  - left. intros b Hb. apply list_elem_of_lookup in Hb as [i Hi].
    destruct (Forall2_lookup_l _ _ _ _ _ Hdat Hi) as (d&_&?). eauto.
  - exists f2. unfold commit_writes. fold hd1. split.
    + unfold commit. apply runs_get_log. destruct Hon as (_&_&->). rewrite Hn.
      rewrite (proj2 (Z.ltb_lt _ _)) by (destruct bl; [done|cbn; lia]).
      eapply runs_bind; [exact Hr0|]. eapply runs_bind; [exact Hr1|exact Hr2].
    + rewrite app_assoc, apply_writes_app. exact Hon2.
Qed.

(** ** Reboot *)

(** The storage stack after [binit], with [m] on the disk. *)
Definition boot (m : list (list Z)) : fs_t :=
  mkFs (replicate (NBUF + 50) (mkSleeplock false 0)) (replicate NBUF zero_buf) (reverse (seq 0 NBUF)) m
    zero_log zero_sb (replicate 50 zero_inode).

Lemma boot_cache m : cache_ok pid (boot m) [] m ∅.
Proof.
  split; cbn [boot bufs sleeplocks memdisk lru].
  - done.
  - intros i. rewrite elem_of_reverse, elem_of_seq, length_replicate. lia.
  - rewrite !length_replicate. lia.
  - intros i b sl [-> _]%lookup_replicate [-> _]%lookup_replicate. by rewrite decide_False by set_solver.
  - set_solver.
  - by intros i j b c [-> _]%lookup_replicate [-> _]%lookup_replicate.
  - by intros i b [-> _]%lookup_replicate.
  - by intros i b [-> _]%lookup_replicate.
  - intros bn d HD. by rewrite lookup_empty in HD.
Qed.

(** The superblock says where the log is, and no log block holds it. *)
Definition superblock_at (m : list (list Z)) (start : Z) : Prop :=
  exists d, m !! 1%nat = Some d /\ s32 (sb_logstart (superblock_of d)) = start.

Lemma initlog_ok m start hd bl ds : superblock_at m start ->
  0 <= start -> start + 29 < Z.of_nat (length m) -> Z.of_nat (length m) < 2 ^ 31 ->
  m !! Z.to_nat start = Some hd ->
  (length bl <= 29)%nat -> NoDup bl ->
  Forall (fun b => 0 <= b < Z.of_nat (length m) /\ ~ (start <= b <= start + 29)) bl ->
  hb_n hd = Z.of_nat (length bl) -> (forall i b, bl !! i = Some b -> hb_block hd i = b) ->
  length ds = length bl ->
  (forall i d, ds !! i = Some d -> m !! Z.to_nat (start + Z.of_nat i + 1) = Some d) ->
  let ws := zip bl ds ++ [(start, erased hd)] in
  exists f' l', runs (initlog (S fuel) 1) [] (boot m) tt ws [] f' /\
    log_on f' (apply_writes m ws) ∅ NBUF l' /\ lh_n l' = 0 /\ l_start l' = start.
Proof.
  intros (sbd&Hsb&Hlog) Hst Hen Hm Hhd Hlen Hnd Hrg Hn Hb Hld Hds ws.
  assert (Hon0 : log_on (boot m) m ∅ NBUF (log (boot m))).
  { split_and!; [apply boot_cache|apply length_replicate|done]. }
  destruct (open_one _ _ _ _ _ 1 Hon0) as (i&b&f1&Hr1&Hck1&Hbi&HbA&HcA&Hnb&Hl1);
    [lia|rewrite map_size_empty; unfold NBUF; lia|].
  unfold content in HcA. rewrite lookup_empty in HcA. change (Z.to_nat 1) with 1%nat in HcA.
  rewrite Hsb in HcA. injection HcA as ->.
  destruct (close_one _ _ _ _ Hck1) as (f2&Hr2&Hon2). rewrite Hnb, Hl1 in Hon2.
  set (l2 := (log (boot m)) <| l_start := start |>
    <| l_size := s32 (sb_nlog (superblock_of (b_data b))) |> <| l_dev := 1 |>).
  pose proof (log_on_set _ _ _ _ _ l2 Hon2) as Hon2'.
  destruct (recover_ok _ _ _ _ hd bl ds Hon2') as (f3&l3&Hr3&Hon3&?&?); try done; [unfold NBUF; lia|].
  exists f3, l3. split_and!; try done. unfold initlog. eapply runs_seq.
  - unfold readsb. change (u32 1) with 1. eapply runs_seq; [exact Hr1|].
    eapply runs_seq; [by apply runs_get_buf|]. eapply runs_seq; [exact Hr2|apply runs_ret].
  - eapply runs_seq; [apply runs_set_log|]. destruct Hon2 as (_&_&->). rewrite Hlog. exact Hr3.
Qed.

(** ** Crashes *)
Definition outside (l : log_t) (a : nat) : Prop := ~ (l_start l <= Z.of_nat a <= l_start l + 29).

(** Writes to the log do not change the rest of the disk. *)
Lemma apply_writes_log l ws m a : 0 <= l_start l -> outside l a ->
  Forall (fun w => l_start l <= w.1 <= l_start l + 29) ws -> apply_writes m ws !! a = m !! a.
Proof.
  intros Hst Ha Hws. apply apply_writes_ne. intros w Hw E. rewrite Forall_forall in Hws.
  specialize (Hws w Hw). apply Ha. subst a. rewrite Z2Nat.id; lia.
Qed.

Lemma log_writes_outside m l hd ds a : 0 <= l_start l -> (length ds <= 29)%nat -> outside l a ->
  apply_writes m (run_of (l_start l + 1) ds ++ [(l_start l, hd)]) !! a = m !! a.
Proof.
  intros Hst Hl Ha. apply (apply_writes_log l); try done. apply Forall_app. split.
  - apply Forall_forall. intros w Hw%run_of_keys. lia.
  - repeat constructor; cbn; lia.
Qed.

(** What recovery needs to find on the disk [mk] to leave [fin] outside the log. *)
Definition recoverable (l : log_t) (mk fin : list (list Z)) : Prop :=
  exists hdk blk dsk, mk !! Z.to_nat (l_start l) = Some hdk /\ homes mk l blk /\
    hb_n hdk = Z.of_nat (length blk) /\ (forall i b, blk !! i = Some b -> hb_block hdk i = b) /\
    length dsk = length blk /\
    (forall i d, dsk !! i = Some d -> mk !! Z.to_nat (l_start l + Z.of_nat i + 1) = Some d) /\
    forall a, outside l a -> apply_writes mk (zip blk dsk) !! a = fin !! a.

(** An empty log recovers to the disk as it is. *)
Lemma recoverable_empty l mk fin hd : 0 <= l_start l -> mk !! Z.to_nat (l_start l) = Some hd ->
  hb_n hd = 0 -> (forall a, outside l a -> mk !! a = fin !! a) -> recoverable l mk fin.
Proof.
  intros Hst Hhd Hn Hfin. exists hd, [], []. unfold homes. split_and!; try done; [simpl; lia|constructor].
Qed.

(** A crash before the header is written, between it and the erasure, after. *)
Lemma crash_before m D l hd bl ds k : pending_trans m D l hd bl ds -> hb_n hd = 0 ->
  recoverable l (apply_writes m (take k (run_of (l_start l + 1) ds))) m.
Proof.
  intros [(_&Hst&Hen&_) _ _ _ (Hlen&_) Hdat Hhd _] Hn. apply Forall2_length in Hdat.
  assert (Hk : forall w, w ∈ take k (run_of (l_start l + 1) ds) -> l_start l < w.1 <= l_start l + 29).
  { intros w Hw%subseteq_take%run_of_keys. lia. }
  apply (recoverable_empty _ _ _ hd); try done.
  - rewrite apply_writes_ne; [done|]. intros w Hw%Hk. lia.
  - intros a Ha. apply (apply_writes_log l); try done. apply Forall_forall. intros w Hw%Hk. lia.
Qed.

Lemma crash_between m D l hd bl ds j : pending_trans m D l hd bl ds ->
  recoverable l (apply_writes m (run_of (l_start l + 1) ds ++
    [(l_start l, put_head hd (lh_n l) (lh_block l))] ++ take j (zip bl ds))) (apply_writes m (zip bl ds)).
Proof.
  intros [(_&Hst&Hen&Hm) _ Hn [rest Hbl] Hh Hdat Hhd Hl]. pose proof (Forall2_length _ _ _ Hdat) as Hld.
  pose proof Hh as (Hlen&Hnd&Hrg). rewrite Forall_forall in Hrg. set (hd1 := put_head hd _ _).
  set (m1 := apply_writes m (run_of (l_start l + 1) ds ++ [(l_start l, hd1)])).
  assert (Hlm1 : length m1 = length m) by apply length_apply_writes.
  rewrite app_assoc, apply_writes_app. fold m1.
  assert (Hlog : forall a, (l_start l <= Z.of_nat a <= l_start l + 29) ->
    apply_writes m1 (take j (zip bl ds)) !! a = m1 !! a).
  { intros a Ha. apply apply_writes_ne. intros [b d] Hw%subseteq_take%elem_of_zip_l E. cbn in E.
    destruct (Hrg b Hw). lia. }
  destruct (put_head_round_trip hd bl rest) as (E1&E2&_); [|done|].
  { split; [lia|]. apply Forall_forall. intros b Hb. destruct (Hrg b Hb). lia. }
  rewrite <- Hn, <- Hbl in E1, E2. fold hd1 in E1, E2.
  exists hd1, bl, ds. split_and!; try done; try lia.
  - rewrite Hlog by lia. subst m1. rewrite apply_writes_app. cbn. apply list_lookup_insert_eq.
    rewrite length_apply_writes. lia.
  - unfold homes. rewrite length_apply_writes, Hlm1. done.
  - intros i d Hi. pose proof (lookup_lt_Some _ _ _ Hi). rewrite Hlog by lia. subst m1.
    rewrite apply_writes_app. cbn. rewrite list_lookup_insert_ne by lia.
    replace (l_start l + Z.of_nat i + 1) with (l_start l + 1 + Z.of_nat i) by lia.
    apply run_of_lookup; [lia|lia|done].
  - intros a Ha. rewrite apply_writes_again.
    apply apply_writes_same; [done|]. apply (log_writes_outside m l hd1 ds); try done. lia.
Qed.

(** Outside the log, [commit] installs the blocks. *)
Lemma commit_outside m D l hd bl ds a : pending_trans m D l hd bl ds -> outside l a ->
  apply_writes m (commit_writes l hd bl ds) !! a = apply_writes m (zip bl ds) !! a.
Proof.
  intros [(_&Hst&_) _ _ _ (Hlen&_) Hdat _ _] Ha. pose proof (Forall2_length _ _ _ Hdat) as Hld.
  unfold commit_writes. set (hd1 := put_head hd _ _). rewrite app_assoc, apply_writes_app, apply_writes_app.
  rewrite (apply_writes_log l) by (done || (repeat constructor; cbn; lia)).
  apply apply_writes_same; [by rewrite length_apply_writes|].
  apply (log_writes_outside m l hd1 ds); try done. lia.
Qed.

Lemma crash_after m D l hd bl ds : pending_trans m D l hd bl ds ->
  recoverable l (apply_writes m (commit_writes l hd bl ds)) (apply_writes m (zip bl ds)).
Proof.
  intros Hpt. pose proof Hpt as [(_&Hst&Hen&Hm) _ Hn [rest Hbl] (Hlen&Hnd&Hrg) Hdat Hhd Hl].
  set (hd1 := put_head hd (lh_n l) (lh_block l)). assert (Hl1 : (124 <= length hd1)%nat).
  { subst hd1. rewrite Hn, Hbl. rewrite Forall_forall in Hrg.
    destruct (put_head_round_trip hd bl rest) as (_&_&->); [|done|done]. split; [lia|].
    apply Forall_forall. intros b Hb. destruct (Hrg b Hb). lia. }
  apply (recoverable_empty _ _ _ (erased hd1)); [done|..].
  - unfold commit_writes. rewrite !app_assoc, apply_writes_app. cbn. apply list_lookup_insert_eq.
    rewrite length_apply_writes. lia.
  - unfold hb_n, erased. by rewrite get32_blit_eq by lia.
  - intros a Ha. by eapply commit_outside.
Qed.

Lemma length_run_of ds : forall a, length (run_of a ds) = length ds.
Proof. induction ds as [|d ds IH]; intros a; [done|]. cbn. by rewrite IH. Qed.

(** A crash after any number of writes. *)
Lemma crash_cases m D l hd bl ds k : pending_trans m D l hd bl ds -> hb_n hd = 0 ->
  recoverable l (apply_writes m (take k (commit_writes l hd bl ds)))
    (if (k <=? length ds)%nat then m else apply_writes m (zip bl ds)).
Proof.
  intros Hpt Hn. pose proof (crash_after m D l hd bl ds Hpt) as Haf. unfold commit_writes in *.
  set (h := (l_start l, put_head hd (lh_n l) (lh_block l))) in *.
  set (e := (l_start l, erased _)) in *. pose proof (length_run_of ds (l_start l + 1)) as Hlr.
  destruct (Nat.leb_spec k (length ds)).
  - rewrite take_app_le by lia. by apply (crash_before m D l hd bl ds).
  - destruct (decide (k <= length ds + 1 + length (zip bl ds))%nat).
    + rewrite take_app_ge by lia. replace (k - length _)%nat with (S (k - length ds - 1)) by lia.
      cbn [app take]. rewrite take_app_le by lia. by apply (crash_between m D l hd bl ds _ Hpt).
    + rewrite firstn_all2 by (rewrite length_app; cbn; rewrite length_app; cbn; lia). done.
Qed.

(** No write of [commit] touches the superblock. *)
Lemma commit_writes_keys m D l hd bl ds w : pending_trans m D l hd bl ds ->
  w ∈ commit_writes l hd bl ds -> l_start l <= w.1 \/ w.1 ∈ bl.
Proof.
  intros Hpt. unfold commit_writes. rewrite !elem_of_app, !list_elem_of_singleton.
  intros [Hw%run_of_keys|[->|[Hw| ->]]]; [left; lia|by left| |by left].
  right. destruct w. by apply elem_of_zip_l in Hw.
Qed.

(** ** Transactions *)

(** What a file-system call does with a block, as the comment of [log_write]
    says: read it, modify it, log it, release it. *)
Definition update_block (bn : Z) (d : list Z) : M unit :=
  i ← bread (S fuel) 1 bn;
  set_buf i (fun b => b <| b_data := d |>) ;;
  log_write i ;;
  brelse i.

(** The blocks recorded so far: those dirty in the cache, each once. *)
Record recorded (m : list (list Z)) (D : gmap Z (list Z)) (l : log_t) (bl : list Z) : Prop := {
  rc_n : lh_n l = Z.of_nat (length bl);
  rc_blocks : exists rest, lh_block l = bl ++ rest;
  rc_len : length (lh_block l) = 30%nat;
  rc_dom : forall b, b ∈ bl <-> is_Some (D !! b);
  rc_nodup : NoDup bl;
  rc_homes : Forall (fun b => 0 <= b < Z.of_nat (length m) /\ ~ (l_start l <= b <= l_start l + 29)) bl;
}.

(** The log record of a block, absorbed if it is already there. *)
Definition record_block (bn : Z) (l : log_t) : log_t :=
  let i := default (Z.to_nat (lh_n l))
    (find_index (fun blk => u32 blk =? bn) (take (Z.to_nat (lh_n l)) (lh_block l))) in
  l <| lh_block := <[i := s32 bn]> (lh_block l) |>
    <| lh_n := if Nat.eqb i (Z.to_nat (lh_n l)) then lh_n l + 1 else lh_n l |>.

Lemma recorded_block m D l bl bn d : recorded m D l bl -> geometry m l -> (length bl < 29)%nat ->
  0 <= bn < Z.of_nat (length m) -> ~ (l_start l <= bn <= l_start l + 29) ->
  recorded m (<[bn := d]> D) (record_block bn l) (if decide (bn ∈ bl) then bl else bl ++ [bn]).
Proof.
  intros [Hn [rest Hbl] Hlen Hdom Hnd Hh] (_&_&_&Hm) Hl Hbn Hout. unfold record_block.
  rewrite Hn, Nat2Z.id. rewrite Hbl, take_app_length, s32_small by lia.
  assert (Hdom' : forall b (bl' : list Z), (b ∈ bl' <-> b = bn \/ b ∈ bl) -> b ∈ bl' <-> is_Some (<[bn := d]> D !! b)).
  { intros b bl' ->. rewrite Hdom. destruct (decide (b = bn)) as [->|Hne].
    - rewrite lookup_insert_eq. split; [eauto|by left].
    - rewrite lookup_insert_ne by done. naive_solver. }
  destruct (find_index _ bl) as [i|] eqn:Hf; cbn [default from_option id]; unfold id.
  - apply find_index_Some in Hf as (x&Hx&Hxb%Z.eqb_eq&_).
    assert (Hxr : 0 <= x < Z.of_nat (length m)) by (rewrite Forall_lookup in Hh; by eapply Hh).
    rewrite u32_small in Hxb by lia. subst x. pose proof (list_elem_of_lookup_2 _ _ _ Hx) as Hin.
    pose proof (lookup_lt_Some _ _ _ Hx). rewrite decide_True by done.
    rewrite (proj2 (Nat.eqb_neq _ _)) by lia. rewrite insert_app_l, list_insert_id by done.
    split; cbn; try done; [by exists rest|by rewrite <- Hbl|]. intros b. apply Hdom'. naive_solver.
  - rewrite find_index_None in Hf. assert (Hni : bn ∉ bl).
    { intros Hin. apply list_elem_of_lookup in Hin as [i Hi]. specialize (Hf i bn Hi). cbv beta in Hf.
      rewrite u32_small, Z.eqb_refl in Hf by lia. done. }
    rewrite decide_False by done. rewrite Nat.eqb_refl.
    rewrite Hbl in Hlen. rewrite length_app in Hlen. destruct rest as [|r rest]; [cbn in Hlen; lia|].
    rewrite insert_app_r_alt, Nat.sub_diag by done.
    split; cbn [lh_n lh_block setf].
    + rewrite length_app. cbn. lia.
    + exists rest. by rewrite <- app_assoc.
    + rewrite length_app. cbn in *. lia.
    + intros b. apply Hdom'. rewrite elem_of_app, list_elem_of_singleton. naive_solver.
    + apply NoDup_app. split_and!; [done| |apply NoDup_singleton]. intros b Hb ->%list_elem_of_singleton. done.
    + apply Forall_app. split; [done|]. apply Forall_singleton. done.
Qed.

Lemma update_block_ok f m D nb l bl bn d : log_on f m D nb l -> recorded m D l bl -> geometry m l ->
  0 < l_outstanding l -> (length bl < 29)%nat -> Z.of_nat (length bl) < l_size l - 1 ->
  (base.size D < nb)%nat -> 0 <= bn < Z.of_nat (length m) ->
  exists f', runs (update_block bn d) [] f tt [] [] f' /\
    log_on f' m (<[bn := d]> D) nb (record_block bn l).
Proof.
  intros Hon Hrc Hg Hout Hl29 Hsz Hnb Hbn.
  destruct (open_one f m D nb l bn) as (i&b&f1&Hr1&Hck1&Hb&HbA&_&Hnb1&Hl1); try done.
  pose proof (lookup_lt_Some _ _ _ Hb) as Hi.
  pose proof (cache_ok_marked pid f1 [i] m D i b d Hck1 ltac:(by left) Hb) as Hck2. rewrite HbA in Hck2.
  set (f2 := (marked f1 i b d) <| log := record_block bn l |>).
  destruct (close_one f2 m (<[bn := d]> D) i) as (f3&Hr3&Hon3); [destruct Hck2; by split|].
  replace (length (bufs f2)) with nb in Hon3 by (cbn; by rewrite length_insert).
  exists f3. split; [|exact Hon3]. unfold update_block. eapply runs_seq; [exact Hr1|].
  eapply runs_seq; [by apply runs_set_buf|]. eapply runs_seq; [|exact Hr3]. unfold log_write.
  apply runs_get_log. cbn [log setf]. rewrite Hl1, (rc_n _ _ _ _ Hrc).
  unfold LOGSIZE, MAXOPBLOCKS. rewrite !(proj2 (Z.leb_gt _ _)) by lia. cbn [orb].
  rewrite (proj2 (Z.ltb_ge _ _)) by lia. eapply runs_seq; [apply runs_acquire; set_solver|].
  eapply runs_seq; [apply runs_get_buf; by apply list_lookup_insert_eq|].
  apply runs_get_log. cbn [log setf b_blockno]. rewrite HbA, Hl1.
  eapply runs_seq; [apply runs_set_log|]. cbn [log setf]. rewrite Hl1.
  eapply runs_seq; [apply runs_set_buf; by apply list_lookup_insert_eq|]. cbn [bufs setf].
  rewrite list_insert_insert_eq. apply runs_release.
Qed.

Lemma recorded_size m D l bl : recorded m D l bl -> (base.size D <= length bl)%nat.
Proof.
  intros Hrc. rewrite <- length_map_to_list, <- (length_fmap fst).
  apply submseteq_length, NoDup_submseteq; [apply NoDup_fst_map_to_list|].
  intros b ([b' d]&->&HD%elem_of_map_to_list)%list_elem_of_fmap. apply (rc_dom _ _ _ _ Hrc). eauto.
Qed.

(** The log's parameters, which recording does not change. *)
Definition same_log (l l' : log_t) : Prop :=
  l_start l' = l_start l /\ l_size l' = l_size l /\ l_outstanding l' = l_outstanding l /\
  l_committing l' = l_committing l /\ l_dev l' = l_dev l.

Definition update_ok (m : list (list Z)) (l : log_t) (u : Z * list Z) : Prop :=
  0 <= u.1 < Z.of_nat (length m) /\ ~ (l_start l <= u.1 <= l_start l + 29).

Lemma content_insert m D m0 bn d a : length m0 = length m -> 0 <= bn < Z.of_nat (length m) ->
  content m D (Z.of_nat a) = m0 !! a ->
  content m (<[bn := d]> D) (Z.of_nat a) = <[Z.to_nat bn := d]> m0 !! a.
Proof.
  intros Hl Hbn Hc. unfold content in *. destruct (decide (Z.of_nat a = bn)) as [<-|Hne].
  - rewrite lookup_insert_eq, Nat2Z.id, list_lookup_insert_eq by lia. done.
  - rewrite lookup_insert_ne by done. rewrite list_lookup_insert_ne by lia. done.
Qed.

Lemma updates_ok us : forall f m m0 D nb l bl, log_on f m D nb l -> recorded m D l bl -> geometry m l ->
  0 < l_outstanding l -> l_size l = 30 -> (length bl + length us <= 29)%nat ->
  (length bl + length us <= nb)%nat -> Forall (update_ok m l) us ->
  length m0 = length m -> (forall a, content m D (Z.of_nat a) = m0 !! a) ->
  exists f' D' l' bl', runs (mfor us (fun u => update_block u.1 u.2)) [] f tt [] [] f' /\
    log_on f' m D' nb l' /\ recorded m D' l' bl' /\ same_log l l' /\
    (length bl <= length bl' <= length bl + length us)%nat /\ (us <> [] -> 0 < length bl')%nat /\
    (forall a, content m D' (Z.of_nat a) = apply_writes m0 us !! a).
Proof.
  induction us as [|[bn d] us IH]; intros f m m0 D nb l bl Hon Hrc Hg Hout Hsz H29 Hnb Hus Hl0 Hc.
  - exists f, D, l, bl. split_and!; try done; [apply runs_ret|lia].
  - apply Forall_cons in Hus as [[Hbn Hno] Hus]. cbn [fst length] in *.
    pose proof (recorded_size _ _ _ _ Hrc) as Hs.
    destruct (update_block_ok f m D nb l bl bn d) as (f1&Hr1&Hon1); try done; try lia.
    pose proof (recorded_block _ _ _ _ bn d Hrc Hg) as Hrc1. specialize (Hrc1 ltac:(lia) Hbn Hno).
    set (bl1 := if decide (bn ∈ bl) then bl else bl ++ [bn]) in *.
    assert (Hlb1 : (length bl <= length bl1 <= S (length bl) /\ 0 < length bl1)%nat).
    { subst bl1. destruct (decide (bn ∈ bl)) as [Hin|]; [|rewrite length_app; cbn; lia].
      destruct bl; [by apply elem_of_nil in Hin|cbn; lia]. }
    destruct (IH f1 m (<[Z.to_nat bn := d]> m0) (<[bn := d]> D) nb _ bl1 Hon1 Hrc1)
      as (f'&D'&l'&bl'&Hr&Hon'&Hrc'&Hsl&Hlb&_&Hc'); try done; try lia.
    { by rewrite length_insert. }
    { intros a. by apply content_insert. }
    exists f', D', l', bl'. split; [|split_and!; try done; lia].
    cbn [mfor]. eapply runs_seq; [exact Hr1|exact Hr].
Qed.

(** The installed blocks are the contents the cache showed. *)
Lemma zip_content (D : gmap Z (list Z)) bl : forall ds m a, Forall2 (fun b d => D !! b = Some d) bl ds ->
  Forall (fun b => 0 <= b) bl -> (a < length m)%nat -> Z.of_nat a ∈ bl ->
  apply_writes m (zip bl ds) !! a = D !! Z.of_nat a.
Proof.
  induction bl as [|b bl IH]; intros ds m a Hds Hp Ha Hin; [by apply elem_of_nil in Hin|].
  inversion Hds as [|? d ? ds' HD Hds']; subst. apply Forall_cons in Hp as [Hb Hp].
  cbn [zip zip_with apply_writes foldl fst snd]. destruct (decide (Z.of_nat a ∈ bl)) as [Hin'|Hn].
  - apply IH; try done. by rewrite length_insert.
  - apply elem_of_cons in Hin as [<-|?]; [|done]. pose proof (apply_writes_ne (zip bl ds')) as H.
    unfold apply_writes in H. rewrite H.
    + rewrite Nat2Z.id, list_lookup_insert_eq by done. done.
    + intros [b d'] Hw%elem_of_zip_l E. cbn in E. apply Hn. rewrite Forall_forall in Hp.
      specialize (Hp b Hw). by replace (Z.of_nat a) with b by lia.
Qed.

(** The recorded transaction is ready to commit. *)
Lemma recorded_pending m D l hd bl : recorded m D l bl -> geometry m l -> (length bl <= 29)%nat ->
  m !! Z.to_nat (l_start l) = Some hd -> (124 <= length hd)%nat ->
  let ds := (fun b => default [] (D !! b)) <$> bl in
  pending_trans m D l hd bl ds /\ foldl (fun D b => delete b D) D bl = ∅ /\
  forall a, (a < length m)%nat -> apply_writes m (zip bl ds) !! a = content m D (Z.of_nat a).
Proof.
  intros [Hn Hbl Hlen Hdom Hnd Hh] Hg Hl Hhd H124 ds.
  assert (Hdat : Forall2 (fun b d => D !! b = Some d) bl ds).
  { apply Forall2_fmap_r, Forall_Forall2_diag, Forall_forall. intros b Hb. destruct (proj1 (Hdom b) Hb) as [d Hd]. cbn. by rewrite Hd. }
  assert (Hh' : forall b, b ∈ bl -> 0 <= b < Z.of_nat (length m) /\ ~ (l_start l <= b <= l_start l + 29))
    by (by apply Forall_forall).
  split_and!.
  - split; try done. intros a Ha. apply eq_None_not_Some. intros Hs. apply Hdom in Hs.
    destruct (Hh' a Hs). done.
  - apply map_eq. intros b. rewrite lookup_empty. clear -Hdom. assert (Hin : b ∈ bl \/ D !! b = None).
    { destruct (D !! b) eqn:E; [left; apply Hdom; eauto|by right]. }
    clear Hdom. revert D Hin. induction bl as [|c bl IH]; intros D Hin; cbn.
    + destruct Hin as [?%elem_of_nil|?]; done.
    + apply IH. destruct (decide (b = c)) as [->|]; [right; apply lookup_delete_eq|].
      rewrite lookup_delete_ne by done. rewrite elem_of_cons in Hin. naive_solver.
  - intros a Ha. unfold content. destruct (D !! Z.of_nat a) as [d|] eqn:HD.
    + rewrite (zip_content D); try done; [|apply Hdom; eauto]. apply Forall_forall. intros b Hb.
      destruct (Hh' b Hb). lia.
    + rewrite Nat2Z.id. apply apply_writes_ne. intros [b d] Hw%elem_of_zip_l E. cbn in E.
      destruct (Hh' b Hw). assert (Z.of_nat a = b) as <- by lia. apply Hdom in Hw as [? ?]. congruence.
Qed.

(** A file-system call: its updates between [begin_op] and [end_op]. *)
Definition transaction (us : list (Z * list Z)) : M unit :=
  begin_op (S fuel) ;; mfor us (fun u => update_block u.1 u.2) ;; end_op (S fuel).

Lemma runs_begin_op f l : log f = l -> l_committing l = false -> lh_n l = 0 -> l_outstanding l = 0 ->
  runs (begin_op (S fuel)) [] f tt [] [] (f <| log := l <| l_outstanding := 1 |> |>).
Proof.
  intros Hl Hc Hn Ho. unfold begin_op. eapply runs_seq; [apply runs_acquire; set_solver|].
  cbn [begin_op_loop]. apply runs_get_log. rewrite Hl, Hc, Hn, Ho.
  change (LOGSIZE <? 0 + (0 + 1) * MAXOPBLOCKS) with false. cbv iota.
  eapply runs_seq; [apply runs_set_log|]. rewrite Hl, Ho. apply runs_release.
Qed.

(** The last [end_op] commits. *)
Lemma runs_end_op f m D nb l hd bl ds : log_on f m D nb l -> pending_trans m D l hd bl ds ->
  (base.size D < nb)%nat -> bl <> [] -> l_outstanding l = 1 -> l_committing l = false ->
  exists f', runs (end_op (S fuel)) [] f tt (commit_writes l hd bl ds) [] f' /\
    log_on f' (apply_writes m (commit_writes l hd bl ds)) (foldl (fun D b => delete b D) D bl) nb
      (l <| l_outstanding := 0 |> <| lh_n := 0 |>).
Proof.
  intros Hon Hpt Hsz Hne Ho Hc. set (l1 := l <| l_outstanding := 0 |> <| l_committing := true |>).
  destruct (commit_ok (f <| log := l1 |>) m D nb l1 hd bl ds) as (f1&Hr1&Hon1); try done.
  { by apply (log_on_set _ _ _ _ l). }
  { by destruct Hpt. }
  pose proof (log_on_set _ _ _ _ _ (l <| l_outstanding := 0 |> <| lh_n := 0 |>) Hon1) as Hon2.
  eexists. split; [|exact Hon2]. destruct Hon as (_&_&Hl). destruct Hon1 as (_&_&Hl1).
  unfold end_op. eapply runs_seq; [apply runs_acquire; set_solver|].
  eapply runs_seq; [apply runs_set_log|]. apply runs_get_log. cbn [log setf l_committing l_outstanding].
  rewrite Hl, Hc, Ho. change (1 - 1 =? 0) with true. cbv iota.
  eapply runs_seq. { eapply runs_seq; [apply runs_set_log|apply runs_ret]. }
  eapply runs_seq; [apply runs_release|]. cbv iota. rewrite <- (app_nil_r (commit_writes _ _ _ _)).
  eapply runs_bind; [cbn [log setf]; rewrite ?Hl, ?Ho; exact Hr1|].
  eapply runs_seq; [apply runs_acquire; set_solver|]. eapply runs_seq; [apply runs_set_log|].
  eapply runs_seq; [apply runs_wakeup; set_solver|]. rewrite Hl1.
  replace (l <| l_outstanding := 0 |> <| lh_n := 0 |>) with (l1 <| lh_n := 0 |> <| l_committing := false |>);
    [apply runs_release|]. subst l1. destruct l; cbn in *. by subst.
Qed.

End Specs.

(** ** Properties *)

(** C2: crash safety of the log.  For a transaction with blocks [bl] and new
    contents [ds] on a disk whose log is empty, [commit] succeeds and makes the
    disk writes [ws]; if the machine stops after any number [k] of them, booting
    ([initlog]) on that disk succeeds, leaves the log empty and, outside the
    log, either exactly the old disk (the header was not written yet) or the
    old disk with every block of the transaction replaced. *)
Theorem commit_crash_safe pid fuel f m D nb l hd bl ds k :
  log_on pid f m D nb l -> pending_trans m D l hd bl ds -> (base.size D < nb)%nat -> bl <> [] ->
  hb_n hd = 0 -> superblock_at m (l_start l) -> 1 < l_start l -> 1 ∉ bl ->
  let ws := commit_writes l hd bl ds in
  let mk := apply_writes m (take k ws) in
  let final := if (k <=? length ds)%nat then m else apply_writes m (zip bl ds) in
  (exists f1, runs pid (commit (S fuel)) [] f tt ws [] f1 /\ memdisk (f1) = apply_writes m ws) /\
  exists f2 w2, runs pid (initlog (S fuel) 1) [] (boot mk) tt w2 [] f2 /\ lh_n (log f2) = 0 /\
    forall a, outside l a -> memdisk f2 !! a = final !! a.
Proof.
  intros Hon Hpt Hsz Hne Hn Hsb H1 Hb1 ws mk final. split.
  { destruct (commit_ok pid fuel f m D nb l hd bl ds) as (f1&Hr&(Hck&_)); try done.
    exists f1. split; [done|]. apply (ck_disk _ _ _ _ _ Hck). }
  pose proof (crash_cases m D l hd bl ds k Hpt Hn) as (hdk&blk&dsk&Hh&(Hlen&Hnd&Hrg)&Hnk&Hbk&Hld&Hds&Hfin).
  fold ws mk final in Hh, Hrg, Hds, Hfin.
  pose proof (pt_geom _ _ _ _ _ _ Hpt) as (_&Hst&Hen&Hm).
  assert (Hlmk : length mk = length m) by apply length_apply_writes.
  destruct (initlog_ok pid fuel mk (l_start l) hdk blk dsk) as (f2&l2&Hr&(Hck&_&Hl2)&Hn2&_);
    rewrite ?Hlmk in *; try done.
  { destruct Hsb as (d&Hd&Hs). exists d. split; [|done]. subst mk. rewrite apply_writes_ne; [done|].
    intros w Hw%subseteq_take E. destruct (commit_writes_keys m D l hd bl ds w Hpt Hw); [lia|].
    apply Hb1. by replace 1 with w.1 by lia. }
  exists f2, (zip blk dsk ++ [(l_start l, erased hdk)]). split_and!; [done|by rewrite Hl2|].
  intros a Ha. rewrite (ck_disk _ _ _ _ _ Hck), apply_writes_app, <- (Hfin a Ha).
  apply (apply_writes_log l); try done. repeat constructor; cbn; lia.
Qed.

(** A log between transactions. *)
Definition idle_log (l : log_t) : Prop :=
  lh_n l = 0 /\ l_outstanding l = 0 /\ l_committing l = false /\ length (lh_block l) = 30%nat /\
  l_size l = 30.

(** C13: a file-system call that updates up to ten blocks (some perhaps more than
    once) between [begin_op] and [end_op] runs to completion without sleeping
    when no other call is active, and then the disk outside the log is the old
    disk with the updates applied in order, no block is dirty in the cache any
    more, and the log is ready for the next call. *)
Theorem transaction_durable pid fuel f m nb l hd us :
  log_on pid f m ∅ nb l -> geometry m l -> idle_log l ->
  m !! Z.to_nat (l_start l) = Some hd -> (124 <= length hd)%nat ->
  us <> [] -> Z.of_nat (length us) <= MAXOPBLOCKS -> (length us < nb)%nat -> Forall (update_ok m l) us ->
  exists ws f' m' l', runs pid (transaction fuel us) [] f tt ws [] f' /\
    m' = apply_writes m ws /\ log_on pid f' m' ∅ nb l' /\ idle_log l' /\ l_start l' = l_start l /\
    forall a, outside l a -> m' !! a = apply_writes m us !! a.
Proof.
  intros Hon Hg (Hn&Ho&Hc&Hlb&Hsz) Hhd H124 Hne H10 Hnb Hus. unfold MAXOPBLOCKS in H10.
  set (l1 := l <| l_outstanding := 1 |>). pose proof (log_on_set _ _ _ _ _ _ l1 Hon) as Hon1.
  assert (Hrc : recorded m ∅ l1 []).
  { split; cbn; try done; [by exists (lh_block l)| |constructor..]. intros b.
    rewrite lookup_empty, elem_of_nil. split; [done|by intros [? ?]]. }
  destruct (updates_ok pid fuel us (f <| log := l1 |>) m m ∅ nb l1 [] Hon1 Hrc)
    as (f2&D&l2&bl&Hr2&Hon2&Hrc2&(E1&E2&E3&E4&E5)&Hlbl&Hbl&Hcon); cbn [length Nat.add] in *; try done; try lia.
  { intros a. unfold content. rewrite lookup_empty. by rewrite Nat2Z.id. }
  assert (Hg2 : geometry m l2) by (unfold geometry in *; by rewrite E1, E5).
  destruct (recorded_pending m D l2 hd bl Hrc2 Hg2) as (Hpt&HD&Hzip); try done; [lia|by rewrite E1|].
  set (ds := (fun b => default [] (D !! b)) <$> bl) in *. pose proof (recorded_size _ _ _ _ Hrc2).
  destruct (runs_end_op pid fuel f2 m D nb l2 hd bl ds) as (f3&Hr3&Hon3); try done; try lia.
  { intros ->. cbn in Hbl. specialize (Hbl Hne). lia. }
  { by rewrite E4. }
  rewrite HD in Hon3. eexists _, f3, _, _. split_and!; [|reflexivity|exact Hon3|..].
  - unfold transaction. eapply runs_seq; [apply (runs_begin_op pid fuel f l); try done; apply Hon|].
    eapply runs_seq; [exact Hr2|exact Hr3].
  - split_and!; cbn; try done; [by rewrite E4|apply Hrc2|by rewrite E2].
  - done.
  - intros a Ha. erewrite commit_outside by (done || (unfold outside; by rewrite E1)).
    rewrite <- Hcon. destruct (decide (a < length m)%nat) as [Ha'|Ha']; [by apply Hzip|].
    rewrite Hcon, !lookup_ge_None_2 by (rewrite length_apply_writes; lia). done.
Qed.

(** [begin_op] admits three calls at once on an empty log, reserving ten
    blocks for each, but the log of 30 blocks that mkfs makes has room for only
    29: the thirtieth block that the admitted calls log is the panic "too big a
    transaction" of [log_write]. *)
Theorem log_reservation_gap pid fuel f l b s :
  log f = l -> l_committing l = false -> lh_n l = 0 -> 0 <= l_outstanding l <= 2 ->
  lh_n (log (fs s)) = 29 -> l_size (log (fs s)) = 30 ->
  runs pid (begin_op (S fuel)) [] f tt [] [] (f <| log := l <| l_outstanding := l_outstanding l + 1 |> |>) /\
  29 < 3 * MAXOPBLOCKS /\ log_write b s = Panic "too big a transaction".
Proof.
  intros Hl Hc Hn Ho H29 H30. split_and!.
  - unfold begin_op. eapply runs_seq; [apply runs_acquire; set_solver|]. cbn [begin_op_loop].
    apply runs_get_log. rewrite Hl, Hc, Hn. unfold LOGSIZE, MAXOPBLOCKS.
    rewrite (proj2 (Z.ltb_ge _ _)) by lia. eapply runs_seq; [apply runs_set_log|]. rewrite Hl.
    apply runs_release.
  - done.
  - unfold log_write, get_log. rewrite bind_gets, H29, H30. done.
Qed.

(** ** Witnesses: a disk of 34 blocks with its log at block 2 *)
Definition demo_disk : list (list Z) :=
  [[]; [0; 0; 0; 0; 0; 0; 0; 0; 0; 0; 0; 0; 30; 0; 0; 0; 2; 0; 0; 0]; replicate 124 0]
  ++ replicate 29 [] ++ [[5]; [6]].
Definition demo_log : log_t := mkLog 2 30 0 false 1 0 (replicate 30 0).
(** Block 33 is dirty and recorded. *)
Definition demo_fs : fs_t :=
  mkFs [mkSleeplock false 0; mkSleeplock false 0]
    [mkBuf true true 1 33 0 [9]; mkBuf false false 0 0 0 [0]] [1; 0]%nat demo_disk
    (demo_log <| lh_n := 1 |> <| lh_block := 33 :: replicate 29 0 |>) zero_sb [].

Lemma demo_fs_on pid : log_on pid demo_fs demo_disk {[33 := [9]]} 2 (log demo_fs).
Proof.
  split_and!; [|done..]. split; cbn [demo_fs bufs sleeplocks memdisk lru].
  - done.
  - intros i. rewrite !elem_of_cons, elem_of_nil. destruct i as [|[|]]; cbn; naive_solver lia.
  - cbn. lia.
  - intros [|[|i]] b sl Hb Hs; simplify_eq/=; done.
  - set_solver.
  - intros [|[|i]] [|[|j]] b c; intros; simplify_eq/=; done.
  - intros [|[|i]] b; intros; simplify_eq/=.
  - intros [|[|i]] b; intros; simplify_eq/=. by rewrite lookup_singleton_eq.
  - intros bn d [<- <-]%lookup_singleton_Some. by eexists 0%nat, _.
Qed.

Lemma demo_pending : pending_trans demo_disk {[33 := [9]]} (log demo_fs) (replicate 124 0) [33] [[9]].
Proof.
  split; try done.
  - intros a Ha. cbn in Ha. rewrite lookup_singleton_ne by lia. done.
  - by exists (replicate 29 0).
  - unfold homes. split_and!; [cbn; lia|apply NoDup_singleton|]. apply Forall_singleton. cbn. lia.
  - repeat constructor.
Qed.

Lemma commit_crash_safe_witness :
  exists f2 w2, runs 1 (initlog 1 1) [] (boot (apply_writes demo_disk
      (take 2 (commit_writes (log demo_fs) (replicate 124 0) [33] [[9]])))) tt w2 [] f2 /\
    memdisk f2 !! 33%nat = Some [9] /\ memdisk f2 !! 32%nat = Some [5].
Proof.
  destruct (commit_crash_safe 1 0 demo_fs demo_disk {[33 := [9]]} 2 (log demo_fs) (replicate 124 0) [33] [[9]] 2
    (demo_fs_on 1) demo_pending) as [_ (f2&w2&H1&_&H2)];
    [rewrite map_size_singleton; lia|discriminate|vm_compute; reflexivity| |cbn; lia|set_solver|].
  - eexists. split; [reflexivity|vm_compute; reflexivity].
  - exists f2, w2. split; [exact H1|].
    split; [rewrite (H2 33%nat) by (unfold outside; cbn; lia)|rewrite (H2 32%nat) by (unfold outside; cbn; lia)];
      vm_compute; reflexivity.
Defined.

(** The same disk in a freshly booted cache. *)
Lemma demo_boot_on pid : log_on pid ((boot demo_disk) <| log := demo_log |>) demo_disk ∅ 30 demo_log.
Proof.
  apply (log_on_set _ _ _ _ _ (log (boot demo_disk))). split_and!; [apply boot_cache|done|done].
Qed.

Lemma transaction_durable_witness : exists ws f',
  runs 1 (transaction 0 [(33, [7]); (32, [8]); (33, [9])]) [] ((boot demo_disk) <| log := demo_log |>) tt ws [] f' /\
  memdisk f' !! 33%nat = Some [9].
Proof.
  destruct (transaction_durable 1 0 ((boot demo_disk) <| log := demo_log |>) demo_disk 30 demo_log
    (replicate 124 0) [(33, [7]); (32, [8]); (33, [9])]) as (ws&f'&m'&l'&H1&_&(H2&_)&_&_&H3);
    [apply demo_boot_on|vm_compute; repeat split; discriminate|repeat split|reflexivity
    |vm_compute; lia|discriminate|vm_compute; discriminate|cbn; lia
    |repeat constructor; cbn; lia|].
  exists ws, f'. split; [exact H1|]. rewrite (ck_disk _ _ _ _ _ H2), (H3 33%nat) by (unfold outside; cbn; lia).
  vm_compute. reflexivity.
Defined.

Lemma log_reservation_gap_witness :
  log_write 0 (tiny <| fs := (boot []) <| log := demo_log <| lh_n := 29 |> |> |>) =
    Panic "too big a transaction".
Proof.
  apply (log_reservation_gap 1 0 ((boot []) <| log := demo_log |>) demo_log); try reflexivity.
  vm_compute. split; discriminate.
Defined.

End Log.
