(* ===== verification/Nic.v ===== *)
(** * Nic: PCI configuration access and the RTL8139 transmit path

    pci.c and the parts of rtl8139.c below the protocol stack: reset,
    initialisation, [rtl8139_send] and [rtl8139_packetOK].  The controller and
    the PCI bridge are hardware: the values they return are a parameter, the
    class [Machine].  The theorems show which configuration register an address
    selects and what [rtl8139_send] hands to the controller. *)
From S2P Require Import Prelude Queue KState Kalloc.

(** The hardware, as a function of everything the kernel did to it: the value of
    a port or register read, and the receive ring after incoming DMA. *)
Class Machine := {
  port_in : list event -> Z -> Z;
  reg_in : list event -> reg -> Z;
  dma_in : list event -> list Z -> list Z;
}.

Module Nic.

Definition outl (port val : Z) : M unit := emit (EvOut port val).
Definition reg_write (r : reg) (v : Z) : M unit := emit (EvRegWrite r v).
Definition reg_buf (r : reg) (b : dma_buffer) : M unit := emit (EvRegBuf r b).

Section WithMachine.
Context `{Machine}.

Definition inl (port : Z) : M Z :=
  emit (EvIn port) ;; gets (fun s => u32 (port_in (trace s) port)).

(** A volatile register read; the controller may have written the receive ring
    by the time it returns. *)
Definition reg_read (r : reg) : M Z :=
  emit (EvRegRead r) ;;
  modify (fun s => s <| nic := (nic s) <| rx_ring := dma_in (trace s) (rx_ring (nic s)) |> |>) ;;
  gets (fun s => reg_in (trace s) r).

End WithMachine.

(** ** pci.c *)
Definition pci_address (bus device function offset : Z) : Z :=
  u32 (Z.lor (Z.lor (Z.lor (Z.lor (Z.shiftl 1 31) (u32 (Z.shiftl bus 16)))
    (u32 (Z.shiftl device 11))) (u32 (Z.shiftl function 8))) (Z.land offset 0xfc)).

Section PciAccess.
Context `{Machine}.

Definition read_pci_config_register (bus device function offset : Z) : M Z :=
  let address := pci_address bus device function offset in
  outl 0xcf8 address ;;
  inl 0xcfc.

End PciAccess.

Definition write_pci_config_register (bus device function offset data : Z) : M unit :=
  let address := pci_address bus device function offset in
  outl 0xcf8 address ;;
  outl 0xcfc data.

(** ** rtl8139.c: constants *)
Definition TX_FIFO_THRESH : Z := 256.
Definition RX_FIFO_THRESH : Z := 4.
Definition RX_DMA_BURST : Z := 4.
Definition TX_DMA_BURST : Z := 4.
Definition NUM_TX_DESC : Z := 4.
Definition TX_BUF_SIZE : Z := 1514.
Definition ETH_ZLEN : Z := 60.
Definition RX_BUF_LEN_IDX : Z := 0.
Definition RX_BUF_LEN : Z := Z.shiftl 8192 RX_BUF_LEN_IDX.
Definition RX_MAX_PKT_LENGTH : Z := 1514.
Definition RX_MIN_PKT_LENGTH : Z := 60.
Definition RX_READ_POINTER_MASK : Z := Z.lnot 3.
Definition RTL_REG_RXCONFIG_ACCEPTBROADCAST : Z := 0x08.
Definition RTL_REG_RXCONFIG_ACCEPTMYPHYS : Z := 0x02.
Definition rx_config : Z :=
  Z.lor (Z.lor (Z.shiftl RX_BUF_LEN_IDX 11) (Z.shiftl RX_FIFO_THRESH 13)) (Z.shiftl RX_DMA_BURST 8).

(** enum CmdBits, IntrStatusBits, PacketHeader *)
Definition RxBufEmpty : Z := 0x01.
Definition CmdTxEnb : Z := 0x04.
Definition CmdRxEnb : Z := 0x08.
Definition CmdReset : Z := 0x10.
Definition RxOK : Z := 0x0001.
Definition RxErr : Z := 0x0002.
Definition TxOK : Z := 0x0004.
Definition TxErr : Z := 0x0008.
Definition ROK : Z := 0x0001.
Definition FAErr : Z := 0x0002.
Definition CRC : Z := 0x0004.
Definition LongPkt : Z := 0x0008.
Definition RUNT : Z := 0x0010.

(** A bit test [x & m] used as a condition. *)
Definition test (x m : Z) : bool := negb (Z.land x m =? 0).

Definition rtl8139_set_rx_mode : M unit :=
  let rx_mode := Z.lor RTL_REG_RXCONFIG_ACCEPTBROADCAST RTL_REG_RXCONFIG_ACCEPTMYPHYS in
  reg_write RxConfig (Z.lor rx_config rx_mode) ;;
  reg_write MAR0 0xffffffff ;;
  reg_write MAR4 0xffffffff.

Section Reset.
Context `{Machine}.

(** [for (j = 1000; j > 0; j--) if ((Cmd & 0x10) == 0) break;] *)
Fixpoint reset_wait (j : nat) : M unit :=
  match j with
  | O => mret tt
  | S j' =>
    c ← reg_read Cmd;
    if Z.land (u8 c) 0x10 =? 0 then mret tt else reset_wait j'
  end.

Definition rtl8139_reset : M unit :=
  reg_write Cmd CmdReset ;;
  reset_wait 1000 ;;
  reg_write Cfg9346 0xC0 ;;
  reg_write Cmd (Z.lor CmdTxEnb CmdRxEnb) ;;
  reg_write RxConfig rx_config ;;
  reg_write TxConfig (Z.lor (Z.shiftl TX_DMA_BURST 8) 0x03000000) ;;
  v ← reg_read BasicModeCtrl;
  reg_write BasicModeCtrl (Z.lor (u16 v) 0x0100) ;;
  reg_write Cfg9346 0x00 ;;
  reg_buf RxBufStart RxRing ;;
  reg_write MissedPacketCounter 0 ;;
  rtl8139_set_rx_mode ;;
  reg_write Cmd (Z.lor (Z.lor CmdTxEnb CmdRxEnb) RxBufEmpty) ;;
  reg_write ISR 0xff ;;
  reg_write IMR (Z.lor (Z.lor TxOK RxOK) TxErr) ;;
  modify (fun s => s <| nic := (nic s) <| cur_rx := 0 |> <| cur_tx := 0 |> |>).

(** [for(i = 0; i < 32; i++) if(read_pci_config_register(0, i, 0, 0) == id) break;] *)
Fixpoint nic_search (n : nat) (i : Z) : M Z :=
  match n with
  | O => mret i
  | S n' =>
    v ← read_pci_config_register 0 i 0 0;
    if v =? 0x813910ec then mret i else nic_search n' (i + 1)
  end.

Definition IRQ_CASCADE : Z := 9.
Definition IRQ_NIC : Z := 11.

(** [nic.regs] itself is the base address of the register window; the model
    addresses registers by name. *)
Definition nicinit : M unit :=
  i ← nic_search 32 0;
  modify (fun s => s <| nic := (nic s) <| pci_device_no := i |> |>) ;;
  v ← read_pci_config_register 0 i 0 0x4;
  write_pci_config_register 0 i 0 0x4 (Z.lor v 0x7) ;;
  read_pci_config_register 0 i 0 0x14 ;;
  m0 ← reg_read (IDR 0); m1 ← reg_read (IDR 1); m2 ← reg_read (IDR 2);
  m3 ← reg_read (IDR 3); m4 ← reg_read (IDR 4); m5 ← reg_read (IDR 5);
  modify (fun s => s <| MAC := [u8 m0; u8 m1; u8 m2; u8 m3; u8 m4; u8 m5] |>) ;;
  emit (EvIoapic IRQ_CASCADE 0) ;;
  emit (EvIoapic IRQ_NIC 0) ;;
  reg_write Config1 0x0 ;;
  rtl8139_reset.

End Reset.

(** ** rtl8139.c: transmit *)

(** [while (len < ETH_ZLEN) nic.tx_buffer[len++] = 0;] *)
Definition pad (b : list Z) (len : Z) : list Z * Z :=
  if len <? ETH_ZLEN
  then (blit b (Z.to_nat len) (replicate (Z.to_nat (ETH_ZLEN - len)) 0), ETH_ZLEN)
  else (b, len).

Definition tx_status_word (len : Z) : Z :=
  Z.land (Z.lor (Z.shiftl TX_FIFO_THRESH 11) len) 0xffffdfff.

Definition rtl8139_send (packet : list Z) (len0 : Z) : M unit :=
  if len0 =? 0 then mret tt
  else
    n ← gets nic;
    b ← memmove (tx_buffer n) 0 packet len0 "nic.tx_buffer";
    let '(b, len) := pad b (u32 len0) in
    modify (fun s => s <| nic := (nic s) <| tx_buffer := b |> |>) ;;
    reg_buf (TxAddr (cur_tx n)) TxBuffer ;;
    let txstatus := tx_status_word len in
    reg_write (TxStatus (cur_tx n)) txstatus ;;
    (* the write starts the transmission of the low 13 bits' worth of bytes *)
    emit (EvTx (take (Z.to_nat (Z.land txstatus 0x1fff)) b)) ;;
    emit (EvRegRead (TxStatus (cur_tx n))).

(** ** rtl8139.c: receive status *)
Definition rtl8139_packetOK (rx_status rx_size pkt_length : Z) : Z :=
  let bad_packet := test rx_status RUNT || test rx_status LongPkt
    || test rx_status CRC || test rx_status FAErr in
  if negb bad_packet && test rx_status ROK
  then if (RX_MAX_PKT_LENGTH <? pkt_length) || (pkt_length <? RX_MIN_PKT_LENGTH) then 0 else 1
  else 0.

(** ** Lemmas *)

(** The frame the controller sends for the first [n] bytes of [packet]. *)
Definition padded (packet : list Z) : list Z :=
  packet ++ replicate (60 - length packet) 0.

Lemma tx_status_size len : 0 <= len < 8192 ->
  Z.land (tx_status_word len) 0x1fff = len /\ Z.testbit (tx_status_word len) 13 = false.
Proof.
  intros Hl. unfold tx_status_word, TX_FIFO_THRESH. change (Z.shiftl 256 11) with (64 * 2 ^ 13).
  rewrite lor_mul_add by (change (2 ^ 13) with 8192; lia). split.
  - rewrite <- Z.land_assoc. change (Z.land 0xffffdfff 0x1fff) with (Z.ones 13).
    rewrite Z.land_ones by lia. change (2 ^ 13) with 8192. zlia.
  - rewrite Z.land_spec. change (Z.testbit 0xffffdfff 13) with false. apply andb_false_r.
Qed.

Lemma pad_length b len : (Z.of_nat (length b) >= 60)%Z -> 0 <= len ->
  length (fst (pad b len)) = length b.
Proof.
  intros. unfold pad, ETH_ZLEN. destruct (Z.ltb_spec len 60); [|done]. simpl.
  apply length_blit. rewrite length_replicate. lia.
Qed.

Lemma pad_take b packet len :
  length packet = Z.to_nat len -> 0 < len <= Z.of_nat (length b) ->
  (60 <= length b)%nat ->
  let '(b', n) := pad (packet ++ drop (Z.to_nat len) b) len in
  take (Z.to_nat n) b' = padded packet /\ n = Z.max 60 len.
Proof.
  intros Hp Hl Hb. unfold pad, padded, ETH_ZLEN. destruct (Z.ltb_spec len 60).
  - split; [|lia]. unfold blit. rewrite <- Hp, take_app_length.
    replace (Z.to_nat (60 - len)) with (60 - length packet)%nat by lia.
    rewrite app_assoc. apply take_app_length'.
    rewrite length_app, length_replicate. lia.
  - split; [|lia]. replace (60 - length packet)%nat with 0%nat by lia.
    rewrite app_nil_r. by apply take_app_length'.
Qed.

(** Effect of a transmission of the (non-empty) [packet] on the state. *)
Definition sent (packet : list Z) (s : kstate) (b : list Z) : kstate :=
  let d := cur_tx (nic s) in
  s <| nic := (nic s) <| tx_buffer := b |> |>
    <| trace := trace s ++ [EvRegBuf (TxAddr d) TxBuffer;
         EvRegWrite (TxStatus d) (tx_status_word (Z.max 60 (Z.of_nat (length packet))));
         EvTx (padded packet); EvRegRead (TxStatus d)] |>.

Lemma rtl8139_send_ok packet s :
  length (tx_buffer (nic s)) = 1514%nat -> (0 < length packet <= 1514)%nat ->
  exists b, rtl8139_send packet (Z.of_nat (length packet)) s = Ret tt (sent packet s b) /\
    length b = 1514%nat.
Proof.
  intros Hb Hp. unfold rtl8139_send, reg_buf, reg_write.
  rewrite (proj2 (Z.eqb_neq _ 0)) by lia. mrun.
  rewrite memmove_ok by (widths; lia). mrun. rewrite u32_small by (widths; lia).
  rewrite Nat2Z.id, firstn_all. simpl (Z.to_nat 0). rewrite blit_0.
  pose proof (pad_take (tx_buffer (nic s)) packet (Z.of_nat (length packet))) as Ht.
  rewrite Nat2Z.id in Ht. specialize (Ht eq_refl ltac:(lia) ltac:(lia)).
  pose proof (pad_length (packet ++ drop (length packet) (tx_buffer (nic s)))
    (Z.of_nat (length packet))) as Hlen.
  rewrite length_app, length_drop in Hlen. specialize (Hlen ltac:(lia) ltac:(lia)).
  destruct (pad _ _) as [b n]. destruct Ht as [Ht ->]. simpl in Hlen.
  exists b. split; [|lia]. mrun.
  rewrite (proj1 (tx_status_size (Z.max 60 (Z.of_nat (length packet))) ltac:(lia))).
  rewrite Ht. unfold sent. f_equal. destruct s; cbn. by rewrite <- !app_assoc.
Qed.

(** ** Properties *)

(** [rtl8139_send] of 1 to 1514 bytes always succeeds, hands the controller
    the packet zero-padded to 60 bytes through the current descriptor, and the
    status word it writes carries exactly that length with the OWN bit (13)
    clear; nothing else of the kernel state changes. *)
Theorem rtl8139_send_transmits packet s :
  length (tx_buffer (nic s)) = 1514%nat -> (0 < length packet <= 1514)%nat ->
  let d := cur_tx (nic s) in
  let len := Z.max 60 (Z.of_nat (length packet)) in
  exists b s', rtl8139_send packet (Z.of_nat (length packet)) s = Ret tt s' /\
    s' = s <| nic := (nic s) <| tx_buffer := b |> |>
           <| trace := trace s ++ [EvRegBuf (TxAddr d) TxBuffer;
                EvRegWrite (TxStatus d) (tx_status_word len);
                EvTx (padded packet); EvRegRead (TxStatus d)] |> /\
    Z.of_nat (length (padded packet)) = len /\
    Z.land (tx_status_word len) 0x1fff = len /\ Z.testbit (tx_status_word len) 13 = false.
Proof.
  intros Hb Hp d len. destruct (rtl8139_send_ok packet s Hb Hp) as (b&Hs&_).
  exists b, (sent packet s b). split_and!; [done..| | |].
  - unfold padded. rewrite length_app, length_replicate. subst len. lia.
  - apply tx_status_size. subst len. lia.
  - apply tx_status_size. subst len. lia.
Qed.

Lemma rtl8139_send_transmits_witness :
  exists b s', rtl8139_send [1; 2; 3] 3 tiny = Ret tt s' /\ tx_buffer (nic s') = b.
Proof.
  destruct (rtl8139_send_transmits [1; 2; 3] tiny) as (b&s'&H1&H2&_);
    [reflexivity|simpl; lia|].
  exists b, s'. split; [exact H1|by rewrite H2].
Defined.

Lemma pci_address_eq bus device function offset :
  0 <= bus < 256 -> 0 <= device < 32 -> 0 <= function < 8 -> 0 <= offset < 256 ->
  pci_address bus device function offset =
  2 ^ 31 + bus * 2 ^ 16 + device * 2 ^ 11 + function * 2 ^ 8 + offset `div` 4 * 4.
Proof.
  intros. unfold pci_address.
  assert (Ho : Z.land offset 0xfc = offset `div` 4 * 4).
  { change 0xfc with (Z.land 0xff (Z.lnot (Z.ones 2))).
    rewrite Z.land_assoc, land_ff, Z.mod_small by lia.
    rewrite <- Z.ldiff_land, Z.ldiff_ones_r, Z.shiftl_mul_pow2, Z.shiftr_div_pow2 by lia. done. }
  rewrite Ho. rewrite !Z.shiftl_mul_pow2 by lia.
  change (2 ^ 11) with 2048. rewrite !(u32_small (_ * _)) by (widths; lia).
  rewrite (lor_mul_add 1 31) by (widths; lia).
  replace (1 * 2 ^ 31 + bus * 2 ^ 16) with ((32768 + bus) * 2 ^ 16) by (widths; lia).
  rewrite lor_mul_add by (widths; lia).
  replace ((32768 + bus) * 2 ^ 16 + device * 2048) with ((1048576 + bus * 32 + device) * 2 ^ 11)
    by (change (2 ^ 11) with 2048; widths; lia).
  rewrite lor_mul_add by (change (2 ^ 11) with 2048; widths; lia).
  replace ((1048576 + bus * 32 + device) * 2 ^ 11 + function * 2 ^ 8)
    with ((8388608 + bus * 256 + device * 8 + function) * 2 ^ 8)
    by (change (2 ^ 11) with 2048; widths; lia).
  rewrite lor_mul_add by (widths; zlia). rewrite u32_small by (widths; zlia).
  change (2 ^ 11) with 2048. zlia.
Qed.

(** the address written to the PCI configuration port selects exactly one
    register: on valid bus, device and function numbers two calls give the same
    address only for the same function and the same 32-bit register. *)
Theorem pci_address_injective b1 d1 f1 o1 b2 d2 f2 o2 :
  0 <= b1 < 256 -> 0 <= d1 < 32 -> 0 <= f1 < 8 -> 0 <= o1 < 256 ->
  0 <= b2 < 256 -> 0 <= d2 < 32 -> 0 <= f2 < 8 -> 0 <= o2 < 256 ->
  pci_address b1 d1 f1 o1 = pci_address b2 d2 f2 o2 ->
  b1 = b2 /\ d1 = d2 /\ f1 = f2 /\ o1 `div` 4 = o2 `div` 4.
Proof.
  intros. rewrite !pci_address_eq in * by done. change (2 ^ 11) with 2048 in *. zlia.
Qed.

Lemma pci_address_injective_witness : 0 = 0 /\ 3 = 3 /\ 0 = 0 /\ 0x14 `div` 4 = 0x17 `div` 4.
Proof. apply (pci_address_injective 0 3 0 0x14 0 3 0 0x17); first [lia | reflexivity]. Defined.

End Nic.
