(* ===== verification/Ether.v ===== *)
(** * Ether: building and sending Ethernet frames (ether.c, transmit side) *)
From S2P Require Import Prelude NetUtils Queue KState Kalloc Nic.
Import NetUtils.

(** ** ether.h *)
Definition ETHERNET_HDR_SIZE : Z := 14.
Definition ETHERNET_TRL_SIZE : Z := 4.
Definition ETHERNET_FRAME_SIZE_MAX : Z := 1518.
Definition ETHERNET_PAYLOAD_SIZE_MAX : Z :=
  ETHERNET_FRAME_SIZE_MAX - (ETHERNET_HDR_SIZE + ETHERNET_TRL_SIZE).
Definition MAC_SIZE : Z := 6.
Definition ETHERNET_TYPE_IP : Z := 0x0800.
Definition ETHERNET_TYPE_ARP : Z := 0x0806.

Record ether_hdr : Type := mkEtherHdr {
  eth_dst : list Z;
  eth_src : list Z;
  eth_type : Z;          (* as stored: network byte order *)
}.
Definition ether_hdr_bytes (h : ether_hdr) : list Z :=
  eth_dst h ++ eth_src h ++ le16 (eth_type h).
(** The cast [(struct ether_hdr* ) frame]. *)
Definition ether_hdr_of (b : list Z) : ether_hdr :=
  mkEtherHdr (take 6 b) (take 6 (drop 6 b)) (get16 b 12).

Module Ether.

(** [payload] is the object the [payload] pointer points into, [destMAC] the six
    bytes at [destMAC].  Only the first [flen] bytes of the local [frame] are
    initialised, and only they are sent. *)
Definition ether_send (destMAC : list Z) (type : Z) (payload : list Z) (plen : Z) : M unit :=
  if ETHERNET_PAYLOAD_SIZE_MAX <? u32 plen
  then cprintf "maximum payload size exceeded!
"
  else
    mac ← gets MAC;
    let header := mkEtherHdr destMAC mac (htons type) in
    if Z.of_nat (length payload) <? u32 plen then fault "ether_send: payload"
    else
      let frame := ether_hdr_bytes header ++ take (Z.to_nat (u32 plen)) payload in
      let flen := ETHERNET_HDR_SIZE + u32 plen in
      Nic.rtl8139_send frame flen.

(** The frame for a payload, as the controller sends it. *)
Definition frame_of (src dst : list Z) (type : Z) (payload : list Z) : list Z :=
  Nic.padded (ether_hdr_bytes (mkEtherHdr dst src (htons type)) ++ payload).

Lemma length_ether_hdr dst src t : length dst = 6%nat -> length src = 6%nat ->
  length (ether_hdr_bytes (mkEtherHdr dst src t)) = 14%nat.
Proof. intros. unfold ether_hdr_bytes; simpl. rewrite !length_app. simpl. lia. Qed.

(** The header of a frame decodes back to what was asked for. *)
Lemma frame_of_header src dst type payload : length dst = 6%nat -> length src = 6%nat ->
  ether_hdr_of (frame_of src dst type payload) = mkEtherHdr dst src (htons type).
Proof.
  intros Hd Hs. unfold frame_of, Nic.padded, ether_hdr_bytes, ether_hdr_of; cbn [eth_dst eth_src eth_type].
  f_equal.
  - rewrite <- !app_assoc. by apply take_app_length'.
  - rewrite <- !app_assoc, drop_app_length' by done. by apply take_app_length'.
  - rewrite <- !app_assoc, app_assoc.
    replace 12%nat with (length (dst ++ src) + 0)%nat by (rewrite length_app; lia).
    by rewrite get16_app_r, get16_le16, u16_small by apply htons_range.
Qed.

(** The effect of a successful send on the kernel state: the transmit buffer
    changes and four events are appended, one of them the frame. *)
Definition tx (frame : list Z) (s s' : kstate) : Prop :=
  exists b pre post,
    s' = s <| nic := (nic s) <| tx_buffer := b |> |>
           <| trace := trace s ++ pre ++ [EvTx frame] ++ post |> /\
    length b = 1514%nat /\
    Forall (fun e => forall f, e <> EvTx f) (pre ++ post).

Lemma ether_send_ok dst type payload s :
  length dst = 6%nat -> length (MAC s) = 6%nat ->
  length (tx_buffer (nic s)) = 1514%nat -> (length payload <= 1500)%nat ->
  exists s', ether_send dst type payload (Z.of_nat (length payload)) s = Ret tt s' /\
    tx (frame_of (MAC s) dst type payload) s s'.
Proof.
  intros Hd Hm Hb Hp. unfold ether_send. rewrite u32_small by (widths; lia).
  change ETHERNET_PAYLOAD_SIZE_MAX with 1500.
  rewrite (proj2 (Z.ltb_ge _ _)) by lia. mrun. rewrite Z.ltb_irrefl.
  rewrite Nat2Z.id, firstn_all.
  set (f := ether_hdr_bytes _ ++ payload).
  assert (Hf : length f = (14 + length payload)%nat).
  { subst f. by rewrite length_app, length_ether_hdr. }
  replace (ETHERNET_HDR_SIZE + Z.of_nat (length payload)) with (Z.of_nat (length f))
    by (unfold ETHERNET_HDR_SIZE; lia).
  destruct (Nic.rtl8139_send_ok f s Hb) as (b&Hs&Hlb); [lia|].
  eexists. split; [exact Hs|]. unfold Nic.sent.
  eexists b, [_; _], [_]. split_and!; [reflexivity|done|].
  repeat constructor; discriminate.
Qed.

(** Only the first [plen] bytes of the payload object are read. *)
Lemma ether_send_prefix dst type payload rest s : (length payload <= 1500)%nat ->
  ether_send dst type (payload ++ rest) (Z.of_nat (length payload)) s =
  ether_send dst type payload (Z.of_nat (length payload)) s.
Proof.
  intros Hp. unfold ether_send. rewrite u32_small by (widths; lia). mrun.
  rewrite length_app, Nat2Z.id, take_app_length, firstn_all, Z.ltb_irrefl.
  by rewrite (proj2 (Z.ltb_ge (Z.of_nat (length payload + length rest)) _)) by lia.
Qed.

(** ** Properties *)

(** [ether_send] of a payload of at most 1500 bytes succeeds and puts on the
    wire one frame: destination, own MAC address, big-endian type, payload,
    zero-padded to 60 bytes; the header decodes back to what was asked for.  A
    longer payload is refused without sending anything. *)
Theorem ether_send_frame dst type payload s :
  length dst = 6%nat -> length (MAC s) = 6%nat ->
  length (tx_buffer (nic s)) = 1514%nat ->
  ((length payload <= 1500)%nat ->
   exists s' frame, ether_send dst type payload (Z.of_nat (length payload)) s = Ret tt s' /\
     tx frame s s' /\ frame = Nic.padded (dst ++ MAC s ++ reverse (le16 type) ++ payload) /\
     eth_dst (ether_hdr_of frame) = dst /\ eth_src (ether_hdr_of frame) = MAC s /\
     htons (eth_type (ether_hdr_of frame)) = u16 type) /\
  (forall plen, 1500 < plen < 2 ^ 32 -> exists s',
     ether_send dst type payload plen s = Ret tt s' /\
     exists m, trace s' = trace s ++ [EvPrint m] /\ nic s' = nic s).
Proof.
  intros Hd Hm Hb. split.
  - intros Hp. destruct (ether_send_ok dst type payload s) as (s'&Hs&Htx); try done.
    exists s', (frame_of (MAC s) dst type payload). split_and!; [done..| | | |];
      rewrite ?frame_of_header by done; [|done..|apply htons_htons].
    unfold frame_of, Nic.padded, ether_hdr_bytes; cbn [eth_dst eth_src eth_type].
    by rewrite le16_htons, <- !app_assoc.
  - intros plen Hpl. unfold ether_send. rewrite u32_small by lia.
    change ETHERNET_PAYLOAD_SIZE_MAX with 1500. rewrite (proj2 (Z.ltb_lt _ _)) by lia.
    eexists. split; [reflexivity|]. eexists. split; reflexivity.
Qed.

Lemma ether_send_frame_witness :
  exists s' frame, ether_send [1; 2; 3; 4; 5; 6] 0x0806 [9; 8; 7] 3 tiny = Ret tt s' /\
    tx frame tiny s'.
Proof.
  destruct (ether_send_frame [1; 2; 3; 4; 5; 6] 0x0806 [9; 8; 7] tiny) as [H _];
    [reflexivity..|]. destruct H as (s'&f&H1&H2&_); [simpl; lia|].
  exists s', f. split; [exact H1|exact H2].
Defined.

End Ether.
