(* ===== verification/Arp.v ===== *)
(** * Arp: the ARP cache and protocol (arp.c)

    The cache of ten entries, the allocation and eviction policy, address
    resolution with its wait for the reply, and the handling of requests and
    replies.  The theorems show that no address ever has two active entries,
    that eviction spares pending requests and picks the oldest entry, and that
    a reply completes the resolution waiting for it. *)
From S2P Require Import Prelude NetUtils Queue KState Kalloc Proc Nic Ether.
Import NetUtils.

(** ** arp.h *)
Definition ARP_HTYPE_ETHERNET : Z := 1.
Definition ARP_OP_REQUEST : Z := 1.
Definition ARP_OP_REPLY : Z := 2.
Definition HADDR_SIZE : Z := 6.
Definition ARP_CACHE_SIZE : nat := 10.
Definition ARP_TTL_TICKS : Z := 20 * 60 * 100.
Definition IP_ADDR_SIZE : Z := 4.

(** [struct arp_packet], packed; multi-byte fields as stored. *)
Record arp_packet : Type := mkArpPacket {
  hwd_type : Z;
  prot_type : Z;
  hwd_length : Z;
  prot_length : Z;
  op : Z;
  sender_haddr : list Z;
  sender_paddr : Z;
  target_haddr : list Z;
  target_paddr : Z;
}.
Definition arp_packet_bytes (p : arp_packet) : list Z :=
  le16 (hwd_type p) ++ le16 (prot_type p) ++ le8 (hwd_length p) ++ le8 (prot_length p)
  ++ le16 (op p) ++ sender_haddr p ++ le32 (sender_paddr p) ++ target_haddr p
  ++ le32 (target_paddr p).
Definition SIZEOF_ARP_PACKET : Z := 28.
(** The cast [(struct arp_packet* ) arp_pkt]. *)
Definition arp_packet_of (b : list Z) : arp_packet :=
  mkArpPacket (get16 b 0) (get16 b 2) (get8 b 4) (get8 b 5) (get16 b 6)
    (take 6 (drop 8 b)) (get32 b 14) (take 6 (drop 18 b)) (get32 b 24).

Module Arp.

(** ** arp.c *)
Definition set_arp (i : nat) (f : arp_entry -> arp_entry) : M unit :=
  modify (fun s => s <| arp_cache := alter f i (arp_cache s) |>).

(** First loop of [arp_alloc]: an empty block or a timed out entry. *)
Definition reusable (t : Z) (e : arp_entry) : bool :=
  bool_decide (ae_status e = EMPTY) ||
  (bool_decide (ae_status e = USED) && (ae_valid_until e <? t)).

(** Second loop: the entry with the smallest [valid_until] that is not
    REQUESTED, starting from [minticks] and [i_min]. *)
Fixpoint oldest (i : nat) (minticks : Z) (i_min : option nat) (c : list arp_entry) : option nat :=
  match c with
  | [] => i_min
  | e :: c' =>
    if negb (bool_decide (ae_status e = REQUESTED)) && (ae_valid_until e <? minticks)
    then oldest (S i) (ae_valid_until e) (Some i) c'
    else oldest (S i) minticks i_min c'
  end.

Definition arp_victim (t : Z) (c : list arp_entry) : option nat :=
  match find_index (reusable t) c with
  | Some i => Some i
  | None => oldest 0 0xffffffff None c
  end.

Definition arp_alloc : M nat :=
  c ← gets arp_cache;
  t ← gets ticks;
  match arp_victim t c with
  | Some i => set_arp i (fun e => e <| ae_status := EMPTY |>) ;; mret i
  | None => panic "arp cache full"
  end.

(** [None] is the return value -1. *)
Definition found (t ip : Z) (e : arp_entry) : bool :=
  (ae_ip e =? ip) && bool_decide (ae_status e = USED) && (t <=? ae_valid_until e).
Definition arp_search (ip : Z) : M (option nat) :=
  gets (fun s => find_index (found (ticks s) ip) (arp_cache s)).

Definition requested (ip : Z) (e : arp_entry) : bool :=
  (ae_ip e =? ip) && bool_decide (ae_status e = REQUESTED).

Definition broadcast_mac : list Z := [0xff; 0xff; 0xff; 0xff; 0xff; 0xff].

Definition arp_request (ip : Z) : M unit :=
  mac ← gets MAC; myip ← gets MYIP;
  let ap := mkArpPacket (htons ARP_HTYPE_ETHERNET) (htons ETHERNET_TYPE_IP) MAC_SIZE
    IP_ADDR_SIZE (htons ARP_OP_REQUEST) mac (htonl myip) (zero_bytes MAC_SIZE) (htonl ip) in
  Ether.ether_send broadcast_mac ETHERNET_TYPE_ARP (arp_packet_bytes ap) SIZEOF_ARP_PACKET.

Definition arp_reply (arp_pkt : list Z) : M unit :=
  let req := arp_packet_of arp_pkt in
  if Z.of_nat (length arp_pkt) <? SIZEOF_ARP_PACKET then fault "arp_reply: arp_pkt" else
  myip ← gets MYIP; mac ← gets MAC;
  if negb (htonl (target_paddr req) =? myip) then mret tt
  else
    let rep := mkArpPacket (htons ARP_HTYPE_ETHERNET) (htons ETHERNET_TYPE_IP) MAC_SIZE
      IP_ADDR_SIZE (htons ARP_OP_REPLY) mac (htonl myip) (sender_haddr req)
      (sender_paddr req) in
    Ether.ether_send (sender_haddr req) ETHERNET_TYPE_ARP (arp_packet_bytes rep) SIZEOF_ARP_PACKET.

(** The address to resolve: off-link destinations go to the gateway. *)
Definition next_hop (s : kstate) (ip : Z) : Z :=
  if Z.land ip (NETMASK s) =? Z.land (MYIP s) (NETMASK s) then ip else GATEWAY s.

(** Returns the index of the entry whose [mac] field the C function points to. *)
Definition arp_resolve (ip0 : Z) : M nat :=
  ip ← gets (fun s => next_hop s ip0);
  acquire LkArp ;;
  o ← arp_search ip;
  match o with
  | Some i => release LkArp ;; mret i
  | None =>
    c ← gets arp_cache;
    match find_index (requested ip) c with
    | Some i => Proc.sleep (ChArp i) LkArp ;; release LkArp ;; mret i
    | None =>
      i ← arp_alloc;
      set_arp i (fun e => e <| ae_ip := ip |> <| ae_status := REQUESTED |>) ;;
      arp_request ip ;;
      Proc.sleep (ChArp i) LkArp ;;
      release LkArp ;;
      mret i
    end
  end.

Definition fill (t : Z) (mac : list Z) (e : arp_entry) : arp_entry :=
  e <| ae_mac := take 6 mac |> <| ae_valid_until := u32 (t + ARP_TTL_TICKS) |>
    <| ae_status := USED |>.

(** [mac] is the object the pointer points into. *)
Definition arp_add (ip : Z) (mac : list Z) : M unit :=
  acquire LkArp ;;
  o ← arp_search ip;
  match o with
  | Some _ => release LkArp
  | None =>
    c ← gets arp_cache;
    let r := find_index (requested ip) c in
    i ← match r with Some i => mret i | None => arp_alloc end;
    t ← gets ticks;
    (if Z.of_nat (length mac) <? HADDR_SIZE then fault "arp_add: mac" else mret tt) ;;
    set_arp i (fun e => fill t mac (e <| ae_ip := ip |>)) ;;
    match r with Some _ => Proc.wakeup (ChArp i) | None => mret tt end ;;
    release LkArp
  end.

Definition arp_receive (arp_pkt : list Z) : M unit :=
  let ap := arp_packet_of arp_pkt in
  if Z.of_nat (length arp_pkt) <? SIZEOF_ARP_PACKET then fault "arp_receive: arp_pkt" else
  if htons (op ap) =? ARP_OP_REQUEST then arp_reply arp_pkt
  else if htons (op ap) =? ARP_OP_REPLY then
    let ip := htonl (sender_paddr ap) in
    acquire LkArp ;;
    c ← gets arp_cache;
    match find_index (requested ip) c with
    | None => release LkArp
    | Some i =>
      t ← gets ticks;
      set_arp i (fill t (sender_haddr ap)) ;;
      Proc.wakeup (ChArp i) ;;
      release LkArp
    end
  else mret tt.

(** ** Specification *)

(** An entry that resolution uses: pending, or learnt and not timed out. *)
Definition active (t : Z) (e : arp_entry) : Prop :=
  ae_status e = REQUESTED \/ (ae_status e = USED /\ t <= ae_valid_until e).

(** At most one active entry per address. *)
Definition arp_unique (t : Z) (c : list arp_entry) : Prop :=
  forall i j e1 e2, c !! i = Some e1 -> c !! j = Some e2 ->
    active t e1 -> active t e2 -> ae_ip e1 = ae_ip e2 -> i = j.

(** The steps that touch the cache: calls of [arp_add], [arp_receive] and
    [arp_resolve] (up to its return or its first switch to the scheduler) from
    code that holds no lock, and the clock. *)
Inductive arp_step : kstate -> kstate -> Prop :=
| as_add ip mac s s' : held s = [] -> (6 <= length mac)%nat ->
    arp_add ip mac s = Ret tt s' -> arp_step s s'
| as_receive pkt s s' : held s = [] -> (28 <= length pkt)%nat ->
    arp_receive pkt s = Ret tt s' -> arp_step s s'
| as_resolved ip s i s' : held s = [] -> arp_resolve ip s = Ret i s' -> arp_step s s'
| as_waiting ip s s' k : held s = [] -> arp_resolve ip s = Block s' k -> arp_step s s'
| as_tick s : ticks s < 0xffffffff -> arp_step s (s <| ticks := ticks s + 1 |>).

(** The buffers the transmit path relies on. *)
Definition nic_ok (s : kstate) : Prop :=
  length (MAC s) = 6%nat /\ length (tx_buffer (nic s)) = 1514%nat.

(** The slot [arp_add] writes: the pending request, else an allocated entry. *)
Definition add_slot (t ip : Z) (c : list arp_entry) : option nat :=
  match find_index (requested ip) c with Some i => Some i | None => arp_victim t c end.

(** ** Lemmas: allocation *)
Lemma oldest_spec i0 m im c j : oldest i0 m im c = Some j ->
  (im = Some j /\ forall k e, c !! k = Some e -> ae_status e <> REQUESTED -> m <= ae_valid_until e)
  \/ exists k e, j = (i0 + k)%nat /\ c !! k = Some e /\ ae_status e <> REQUESTED /\
     ae_valid_until e < m /\
     forall k' e', c !! k' = Some e' -> ae_status e' <> REQUESTED ->
       ae_valid_until e <= ae_valid_until e'.
Proof.
  revert i0 m im. induction c as [|e c IH]; intros i0 m im; simpl.
  - intros ->. left. split; [done|]. intros k e He. by rewrite lookup_nil in He.
  - case_bool_decide as Hr; simpl.
    + intros [[? H]|(k&e'&->&Hk&Hne&Hlt&Hmin)]%IH.
      * left. split; [done|]. intros [|k] e' He'; simpl in He'; simplify_eq; [done|eauto].
      * right. exists (S k), e'. split_and!; [lia|done..|].
        intros [|k'] e2 He2; simpl in He2; simplify_eq; [done|eauto].
    + destruct (Z.ltb_spec (ae_valid_until e) m).
      * intros [[[= <-] H']|(k&e'&->&Hk&Hne&Hlt&Hmin)]%IH.
        -- right. exists 0%nat, e. split_and!; [lia|done..|].
           intros [|k'] e2 He2; simpl in He2; simplify_eq; [lia|eauto].
        -- right. exists (S k), e'. split_and!; [lia|done|done|lia|].
           intros [|k'] e2 He2; simpl in He2; simplify_eq; [lia|eauto].
      * intros [[? H']|(k&e'&->&Hk&Hne&Hlt&Hmin)]%IH.
        -- left. split; [done|]. intros [|k] e' He'; simpl in He'; simplify_eq; [done|eauto].
        -- right. exists (S k), e'. split_and!; [lia|done..|].
           intros [|k'] e2 He2; simpl in He2; simplify_eq; [lia|eauto].
Qed.

Lemma oldest_is_Some i0 m j c : oldest i0 m (Some j) c = None -> False.
Proof.
  revert i0 m j. induction c as [|e c IH]; intros i0 m j; simpl; [done|].
  case_match; apply IH.
Qed.

Lemma oldest_None i0 m c : oldest i0 m None c = None ->
  forall k e, c !! k = Some e -> ae_status e = REQUESTED \/ m <= ae_valid_until e.
Proof.
  revert i0. induction c as [|e c IH]; intros i0; simpl; [intros _ k e He; by rewrite lookup_nil in He|].
  case_bool_decide as Hr; simpl.
  - intros H [|k] e' He'; simpl in He'; simplify_eq; eauto.
  - destruct (Z.ltb_spec (ae_valid_until e) m).
    + intros Hn. by apply oldest_is_Some in Hn.
    + intros H' [|k] e' He'; simpl in He'; simplify_eq; eauto.
Qed.

Lemma arp_victim_spec t c i : arp_victim t c = Some i ->
  exists e, c !! i = Some e /\ ae_status e <> REQUESTED /\
    (reusable t e = true \/
     (forall j e', c !! j = Some e' -> reusable t e' = false) /\
     forall j e', c !! j = Some e' -> ae_status e' <> REQUESTED ->
       ae_valid_until e <= ae_valid_until e').
Proof.
  unfold arp_victim. destruct (find_index _ _) as [j|] eqn:Hf.
  - intros [= <-]. apply find_index_Some in Hf as (e&He&Hr&_). exists e.
    split_and!; [done| |by left]. intros Hs. unfold reusable in Hr. by rewrite Hs in Hr.
  - intros [[? _]|(k&e&->&Hk&Hs&_&Hmin)]%oldest_spec; [done|].
    exists e. split_and!; [done..|]. right. split; [|done]. by apply find_index_None.
Qed.

Lemma arp_victim_None t c : arp_victim t c = None ->
  forall k e, c !! k = Some e -> ae_status e = REQUESTED \/ 0xffffffff <= ae_valid_until e.
Proof. unfold arp_victim. case_match; [done|]. apply oldest_None. Qed.

(** ** Lemmas: uniqueness *)
Lemma found_None t ip c : find_index (found t ip) c = None ->
  forall i e, c !! i = Some e -> ae_ip e = ip -> active t e -> ae_status e = REQUESTED.
Proof.
  rewrite find_index_None. intros H i e Hi Hip [|[Hs Ht]]; [done|].
  specialize (H i e Hi). unfold found in H.
  rewrite Hip, Z.eqb_refl, bool_decide_eq_true_2, (proj2 (Z.leb_le _ _)) in H by done. done.
Qed.

Lemma requested_Some ip c i : find_index (requested ip) c = Some i ->
  exists e, c !! i = Some e /\ ae_ip e = ip /\ ae_status e = REQUESTED.
Proof.
  intros (e&He&Hr&_)%find_index_Some. unfold requested in Hr.
  apply andb_true_iff in Hr as [Hip Hs]. apply Z.eqb_eq in Hip. apply bool_decide_eq_true in Hs. eauto.
Qed.

Lemma requested_None ip c : find_index (requested ip) c = None ->
  forall i e, c !! i = Some e -> ae_ip e = ip -> ae_status e <> REQUESTED.
Proof.
  rewrite find_index_None. intros H i e Hi Hip Hs. specialize (H i e Hi).
  unfold requested in H. by rewrite Hip, Z.eqb_refl, bool_decide_eq_true_2 in H.
Qed.

(** Writing an entry for [ip] where no other slot is active for [ip]. *)
Lemma unique_write t c i f ip :
  arp_unique t c -> (forall e, ae_ip (f e) = ip) ->
  (forall j e, j <> i -> c !! j = Some e -> active t e -> ae_ip e <> ip) ->
  arp_unique t (alter f i c).
Proof.
  intros Hu Hf Ho. assert (Hl : forall j e, alter f i c !! j = Some e ->
    (j = i /\ ae_ip e = ip) \/ (j <> i /\ c !! j = Some e)).
  { intros j e. destruct (decide (j = i)) as [->|].
    - rewrite list_lookup_alter_eq. intros (e0&?&->)%fmap_Some. left. auto.
    - rewrite list_lookup_alter_ne by done. auto. }
  intros j k e1 e2 [[-> H1]|[H1 Hc1]]%Hl [[-> H2]|[H2 Hc2]]%Hl Ha1 Ha2 Heq.
  - done.
  - exfalso. eapply (Ho k e2); eauto. congruence.
  - exfalso. eapply (Ho j e1); eauto. congruence.
  - eapply Hu; eauto.
Qed.

Lemma others_inactive t ip c i :
  arp_unique t c -> find_index (found t ip) c = None -> add_slot t ip c = Some i ->
  forall j e, j <> i -> c !! j = Some e -> active t e -> ae_ip e <> ip.
Proof.
  intros Hu Hf Hs j e Hj He Ha Hip. unfold add_slot in Hs.
  destruct (find_index (requested ip) c) as [i'|] eqn:Hr; simplify_eq.
  - destruct (requested_Some _ _ _ Hr) as (e'&He'&Hip'&Hst').
    apply Hj. apply (Hu j i e e'); first [done | by left | congruence].
  - eapply requested_None; eauto using found_None.
Qed.

(** Time passing only makes entries inactive. *)
Lemma unique_later t t' c : t <= t' -> arp_unique t c -> arp_unique t' c.
Proof.
  intros Ht Hu i j e1 e2 H1 H2 Ha1 Ha2. apply (Hu i j e1 e2 H1 H2);
    unfold active in *; intuition lia.
Qed.

(** ** Lemmas: the operations *)
Lemma arp_alloc_ok i s : arp_victim (ticks s) (arp_cache s) = Some i ->
  arp_alloc s = Ret i (s <| arp_cache := alter (fun e => e <| ae_status := EMPTY |>) i (arp_cache s) |>).
Proof. intros H. unfold arp_alloc, set_arp. mrun. by rewrite H. Qed.

(** The state after [arp_add] stored the pair in slot [i]. *)
Definition added (i : nat) (ip : Z) (mac : list Z) (s : kstate) : kstate :=
  s <| arp_cache := alter (fun e => fill (ticks s) mac (e <| ae_ip := ip |>)) i (arp_cache s) |>
    <| ptable := match find_index (requested ip) (arp_cache s) with
                 | Some _ => Proc.wakeup1_proc (ChArp i) <$> ptable s | None => ptable s end |>.

Lemma arp_add_ok ip mac s :
  LkArp ∉ held s -> LkPtable ∉ held s -> (6 <= length mac)%nat ->
  arp_add ip mac s =
  match find_index (found (ticks s) ip) (arp_cache s) with
  | Some _ => Ret tt s
  | None =>
    match add_slot (ticks s) ip (arp_cache s) with
    | Some i => Ret tt (added i ip mac s)
    | None => Panic "arp cache full"
    end
  end.
Proof.
  intros Ha Hp Hm. unfold arp_add, arp_search, add_slot. mrun. rewrite Kalloc.acquire_ok by done.
  mrun. cbn [ticks arp_cache setf]. destruct (find_index (found _ _) _) eqn:Hf.
  { rewrite Kalloc.release_ok by (cbn; left). by destruct s. }
  mrun. cbn [ticks arp_cache setf]. unfold added.
  destruct (find_index (requested ip) (arp_cache s)) as [i|] eqn:Hr; mrun.
  - rewrite (proj2 (Z.ltb_ge _ _)) by (unfold HADDR_SIZE; lia). unfold set_arp. mrun.
    rewrite Proc.wakeup_ok by (cbn; set_solver). mrun.
    rewrite Kalloc.release_ok by (cbn; left). by destruct s.
  - destruct (arp_victim _ _) as [i|] eqn:Hv.
    + rewrite (arp_alloc_ok i) by done. mrun.
      rewrite (proj2 (Z.ltb_ge _ _)) by (unfold HADDR_SIZE; lia). unfold set_arp. mrun.
      rewrite Kalloc.release_ok by (cbn; left). destruct s; cbn in *. f_equal.
      by rewrite list_alter_alter.
    + unfold arp_alloc. mrun. cbn [ticks arp_cache setf]. by rewrite Hv.
Qed.

(** The state after a reply filled the pending slot [i]. *)
Definition replied (i : nat) (mac : list Z) (s : kstate) : kstate :=
  s <| arp_cache := alter (fill (ticks s) mac) i (arp_cache s) |>
    <| ptable := Proc.wakeup1_proc (ChArp i) <$> ptable s |>.

Lemma arp_receive_reply pkt s :
  LkArp ∉ held s -> LkPtable ∉ held s -> (28 <= length pkt)%nat ->
  htons (op (arp_packet_of pkt)) = ARP_OP_REPLY ->
  arp_receive pkt s =
  match find_index (requested (htonl (sender_paddr (arp_packet_of pkt)))) (arp_cache s) with
  | None => Ret tt s
  | Some i => Ret tt (replied i (sender_haddr (arp_packet_of pkt)) s)
  end.
Proof.
  intros Ha Hp Hl Hop. unfold arp_receive.
  rewrite (proj2 (Z.ltb_ge _ _)) by (unfold SIZEOF_ARP_PACKET; lia). rewrite Hop.
  change (ARP_OP_REPLY =? ARP_OP_REQUEST) with false. rewrite Z.eqb_refl. mrun.
  rewrite Kalloc.acquire_ok by done. mrun. cbn [arp_cache setf].
  destruct (find_index _ _) as [i|] eqn:Hf; mrun.
  - unfold set_arp. mrun. rewrite Proc.wakeup_ok by (cbn; set_solver). mrun.
    rewrite Kalloc.release_ok by (cbn; left). by destruct s.
  - rewrite Kalloc.release_ok by (cbn; left). by destruct s.
Qed.

Lemma length_arp_bytes p : length (sender_haddr p) = 6%nat -> length (target_haddr p) = 6%nat ->
  length (arp_packet_bytes p) = 28%nat.
Proof. intros. unfold arp_packet_bytes. rewrite !length_app. simpl. lia. Qed.

(** Casting the bytes of a packet gives the packet back. *)
Lemma arp_packet_roundtrip p tl :
  length (sender_haddr p) = 6%nat -> length (target_haddr p) = 6%nat ->
  arp_packet_of (arp_packet_bytes p ++ tl) =
  mkArpPacket (u16 (hwd_type p)) (u16 (prot_type p)) (u8 (hwd_length p)) (u8 (prot_length p))
    (u16 (op p)) (sender_haddr p) (u32 (sender_paddr p)) (target_haddr p) (u32 (target_paddr p)).
Proof.
  destruct p as [ht pt hl pl o sh sp th tp]; cbn. intros Hs Ht.
  do 6 (destruct sh as [|? sh]; [done|]). destruct sh; [|done].
  do 6 (destruct th as [|? th]; [done|]). destruct th; [|done].
  pose proof (get16_le16 ht []). pose proof (get16_le16 pt []). pose proof (get16_le16 o []).
  pose proof (get32_le32 sp []). pose proof (get32_le32 tp []).
  unfold arp_packet_of, arp_packet_bytes; cbn in *. f_equal; done.
Qed.

(** Broadcasting the request for [ip]. *)
Definition request_frame (s : kstate) (ip : Z) : list Z :=
  Ether.frame_of (MAC s) broadcast_mac ETHERNET_TYPE_ARP (arp_packet_bytes
    (mkArpPacket (htons ARP_HTYPE_ETHERNET) (htons ETHERNET_TYPE_IP) MAC_SIZE IP_ADDR_SIZE
      (htons ARP_OP_REQUEST) (MAC s) (htonl (MYIP s)) (zero_bytes MAC_SIZE) (htonl ip))).

Lemma arp_request_ok ip s : nic_ok s ->
  exists s', arp_request ip s = Ret tt s' /\ Ether.tx (request_frame s ip) s s'.
Proof.
  intros [Hm Hb]. unfold arp_request. mrun.
  set (ap := mkArpPacket _ _ _ _ _ _ _ _ _).
  assert (Hl : length (arp_packet_bytes ap) = 28%nat) by (apply length_arp_bytes; done).
  change SIZEOF_ARP_PACKET with (Z.of_nat 28). rewrite <- Hl.
  apply Ether.ether_send_ok; [done..|]. rewrite Hl. lia.
Qed.

(** What a transmission leaves alone. *)
Lemma tx_frame_fields f s s' : Ether.tx f s s' ->
  MYIP s' = MYIP s /\ arp_cache s' = arp_cache s /\ ptable s' = ptable s /\
  curproc s' = curproc s /\ held s' = held s /\ ticks s' = ticks s /\
  EvTx f ∈ trace s'.
Proof.
  intros (b&pre&post&->&_). cbn. split_and!; try done. set_solver.
Qed.

Lemma arp_resolve_request p pr ip0 s i :
  curproc s = Some p -> ptable s !! p = Some pr -> held s = [] -> nic_ok s ->
  let ip := next_hop s ip0 in
  find_index (found (ticks s) ip) (arp_cache s) = None ->
  find_index (requested ip) (arp_cache s) = None ->
  arp_victim (ticks s) (arp_cache s) = Some i ->
  exists s1 k, arp_resolve ip0 s = Block s1 k /\
    EvTx (request_frame s ip) ∈ trace s1 /\
    arp_cache s1 = alter (fun e => e <| ae_ip := ip |> <| ae_status := REQUESTED |>) i (arp_cache s) /\
    ptable s1 = alter (fun q => q <| p_chan := Some (ChArp i) |> <| p_state := SLEEPING |>) p (ptable s) /\
    forall s2, held s2 = [LkPtable] -> k s2 = Ret i (Proc.unpark p [] s2).
Proof.
  intros Hc Hp Hh Hn ip Hf Hr Hv. unfold arp_resolve, arp_search. mrun. fold ip.
  rewrite Kalloc.acquire_ok by (rewrite Hh; set_solver). mrun. cbn [arp_cache ticks setf].
  rewrite Hf. mrun. cbn [arp_cache setf]. rewrite Hr. mrun.
  rewrite (arp_alloc_ok i) by done. mrun. unfold set_arp. mrun.
  match goal with |- context [arp_request ip ?x] => set (sa := x) end.
  destruct (arp_request_ok ip sa) as (sb&Hsb&Htx); [done|]. rewrite Hsb. mrun.
  destruct (tx_frame_fields _ _ _ Htx) as (_&Hac&Hpt&Hcur&Hhe&_&Htr).
  destruct (Proc.sleep_blocks p pr (ChArp i) LkArp sb) as (k&Hk&Hres).
  - by rewrite Hcur.
  - by rewrite Hpt.
  - rewrite Hhe. subst sa. cbn. by rewrite Hh.
  - done.
  - rewrite Hk. cbn [obind]. eexists _, _. split; [reflexivity|]. split_and!.
    + exact Htr.
    + cbn. rewrite Hac. subst sa. cbn. by rewrite list_alter_alter.
    + cbn. by rewrite Hpt.
    + intros s2 Hs2. rewrite Hres by done. mrun.
      rewrite Kalloc.release_ok by (cbn; left). by destruct s2.
Qed.

(** An unresolved address with no process to put to sleep. *)
Lemma arp_resolve_panics ip0 s i : curproc s = None -> LkArp ∉ held s -> nic_ok s ->
  find_index (found (ticks s) (next_hop s ip0)) (arp_cache s) = None ->
  find_index (requested (next_hop s ip0)) (arp_cache s) = None ->
  arp_victim (ticks s) (arp_cache s) = Some i ->
  arp_resolve ip0 s = Panic "sleep".
Proof.
  intros Hc Hh Hn Hf Hr Hv. unfold arp_resolve, arp_search. mrun.
  rewrite Kalloc.acquire_ok by done. mrun. cbn [arp_cache ticks setf].
  rewrite Hf. mrun. cbn [arp_cache setf]. rewrite Hr. mrun.
  rewrite (arp_alloc_ok i) by done. mrun. unfold set_arp. mrun.
  match goal with |- context [arp_request ?ip ?x] => set (sa := x) end.
  destruct (arp_request_ok (next_hop s ip0) sa) as (sb&Hsb&Htx); [done|]. rewrite Hsb. mrun.
  destruct (tx_frame_fields _ _ _ Htx) as (_&_&_&Hcur&_).
  unfold Proc.sleep, Proc.myproc. mrun. rewrite Hcur. subst sa. cbn [curproc setf]. by rewrite Hc.
Qed.

Lemma arp_resolve_cached ip0 s i : LkArp ∉ held s ->
  find_index (found (ticks s) (next_hop s ip0)) (arp_cache s) = Some i ->
  arp_resolve ip0 s = Ret i s.
Proof.
  intros Hh Hf. unfold arp_resolve, arp_search. mrun. rewrite Kalloc.acquire_ok by done. mrun.
  cbn [arp_cache ticks setf]. rewrite Hf. mrun. rewrite Kalloc.release_ok by (cbn; left).
  by destruct s.
Qed.

(** Everything below the cache leaves it alone. *)
Definition same_arp (s s' : kstate) : Prop :=
  arp_cache s' = arp_cache s /\ ticks s' = ticks s.

Lemma rtl8139_send_same p n s s' : Nic.rtl8139_send p n s = Ret tt s' -> same_arp s s'.
Proof.
  unfold Nic.rtl8139_send, Nic.reg_buf, Nic.reg_write, memmove. case_match; mrun; [by intros [= <-]|].
  case_match; mrun; [|done]. destruct (Nic.pad _ _). mrun. by intros [= <-].
Qed.
Lemma ether_send_same d t p n s s' : Ether.ether_send d t p n s = Ret tt s' -> same_arp s s'.
Proof.
  unfold Ether.ether_send. case_match; mrun; [by intros [= <-]|]. case_match; [done|].
  apply rtl8139_send_same.
Qed.
Lemma ether_send_returns d t p n s :
  (exists s', Ether.ether_send d t p n s = Ret tt s') \/
  (exists w, Ether.ether_send d t p n s = Fault w).
Proof.
  unfold Ether.ether_send, Nic.rtl8139_send, memmove. case_match; mrun; [eauto|].
  case_match; [eauto|]. case_match; mrun; [eauto|]. case_match; mrun; [|eauto].
  destruct (Nic.pad _ _). unfold Nic.reg_buf, Nic.reg_write. mrun. eauto.
Qed.
Lemma sleep_same c lk s s' k : Proc.sleep c lk s = Block s' k -> same_arp s s'.
Proof.
  unfold Proc.sleep, Proc.myproc, Proc.set_proc. mrun. destruct (curproc s); [|done].
  case_decide; mrun; repeat Proc.lock_cases; by intros [= <- _].
Qed.
Lemma sleep_no_ret c lk s u s' : Proc.sleep c lk s = Ret u s' -> False.
Proof.
  unfold Proc.sleep, Proc.myproc, Proc.set_proc. mrun. destruct (curproc s); [|done].
  case_decide; mrun; repeat Proc.lock_cases; done.
Qed.

(** What [arp_resolve] did to the cache when it returned or blocked. *)
Lemma arp_resolve_cache ip0 s s' :
  (exists i, arp_resolve ip0 s = Ret i s') \/ (exists k, arp_resolve ip0 s = Block s' k) ->
  ticks s' = ticks s /\
  (arp_cache s' = arp_cache s \/
   exists i, find_index (found (ticks s) (next_hop s ip0)) (arp_cache s) = None /\
     add_slot (ticks s) (next_hop s ip0) (arp_cache s) = Some i /\
     arp_cache s' = alter (fun e => e <| ae_ip := next_hop s ip0 |> <| ae_status := REQUESTED |>) i
       (arp_cache s)).
Proof.
  unfold arp_resolve, arp_search, add_slot. mrun. set (ip := next_hop s ip0).
  destruct (Kalloc.acquire_cases LkArp s) as [E|E]; rewrite E; mrun; [|naive_solver].
  cbn [arp_cache ticks setf]. destruct (find_index (found _ ip) _) eqn:Hf; mrun.
  { edestruct (Kalloc.release_cases LkArp) as [E'|E']; rewrite E'; mrun; [|naive_solver].
    intros [[i H]|[k H]]; simplify_eq. auto. }
  cbn [arp_cache setf]. destruct (find_index (requested ip) _) eqn:Hr; mrun.
  { destruct (Proc.sleep _ _ _) as [u s1|?|?|s1 k1] eqn:Hs; mrun; [by apply sleep_no_ret in Hs|naive_solver..|].
    apply sleep_same in Hs as [Hc Ht]. intros [[i H]|[k H]]; simplify_eq. auto. }
  unfold arp_alloc. mrun. cbn [arp_cache ticks setf].
  destruct (arp_victim _ _) as [i|] eqn:Hv; mrun; [|naive_solver]. unfold set_arp. mrun.
  unfold arp_request. mrun.
  match goal with |- context [Ether.ether_send ?d ?t ?p ?n ?x] =>
    destruct (ether_send_returns d t p n x) as [[s1 H1]|[w H1]]; rewrite H1; mrun; [|naive_solver] end.
  apply ether_send_same in H1 as [Hc1 Ht1]. cbn in Hc1, Ht1.
  destruct (Proc.sleep _ _ _) as [u s2|?|?|s2 k2] eqn:Hs; mrun; [by apply sleep_no_ret in Hs|naive_solver..|].
  apply sleep_same in Hs as [Hc2 Ht2]. intros [[j H]|[k H]]; simplify_eq.
  split; [congruence|]. right. exists i. split_and!; [done..|].
  by rewrite Hc2, Hc1, list_alter_alter.
Qed.

Lemma arp_reply_same pkt s s' : arp_reply pkt s = Ret tt s' -> same_arp s s'.
Proof.
  unfold arp_reply. case_match; [done|]. mrun. case_match; [by intros [= <-]|]. apply ether_send_same.
Qed.

Lemma arp_step_unique s s' : arp_step s s' ->
  arp_unique (ticks s) (arp_cache s) -> arp_unique (ticks s') (arp_cache s').
Proof.
  intros Hst Hu. destruct Hst as [ip mac s s' Hh Hm H|pkt s s' Hh Hl H|ip s i s' Hh H|ip s s' k Hh H|s Hw].
  - rewrite arp_add_ok in H by (done || rewrite Hh; set_solver).
    destruct (find_index (found _ _) _) eqn:Hf; simplify_eq; [done|].
    destruct (add_slot _ _ _) as [i|] eqn:Hs; simplify_eq. cbn.
    apply (unique_write _ _ _ _ ip); [done..|]. by eapply others_inactive.
  - destruct (decide (htons (op (arp_packet_of pkt)) = ARP_OP_REPLY)) as [Hop|Hop].
    + rewrite arp_receive_reply in H by (done || rewrite Hh; set_solver).
      destruct (find_index _ _) as [i|] eqn:Hr; simplify_eq; [|done]. cbn.
      destruct (requested_Some _ _ _ Hr) as (e&He&Hip&Hst).
      intros j k e1 e2 H1 H2 Ha1 Ha2 Heq.
      assert (Hback : forall j e', alter (fill (ticks s) (sender_haddr (arp_packet_of pkt))) i
        (arp_cache s) !! j = Some e' -> active (ticks s) e' -> exists e0,
        arp_cache s !! j = Some e0 /\ active (ticks s) e0 /\ ae_ip e0 = ae_ip e').
      { intros j' e' Hj' Ha'. destruct (decide (j' = i)) as [->|].
        - rewrite list_lookup_alter_eq, He in Hj'. simplify_eq/=. exists e.
          split_and!; [done|by left|done].
        - rewrite list_lookup_alter_ne in Hj' by done. eauto. }
      destruct (Hback _ _ H1 Ha1) as (e1'&?&?&?). destruct (Hback _ _ H2 Ha2) as (e2'&?&?&?).
      eapply Hu; eauto. congruence.
    + unfold arp_receive in H. case_match; [done|]. case_match.
      * apply arp_reply_same in H as [-> ->]. done.
      * rewrite (proj2 (Z.eqb_neq _ _) Hop) in H. by injection H as <-.
  - destruct (arp_resolve_cache ip s s') as [-> [->|(j&Hf&Hs&->)]]; [eauto|done|].
    apply (unique_write _ _ _ _ (next_hop s ip)); [done..|]. by eapply others_inactive.
  - destruct (arp_resolve_cache ip s s') as [-> [->|(j&Hf&Hs&->)]]; [eauto|done|].
    apply (unique_write _ _ _ _ (next_hop s ip)); [done..|]. by eapply others_inactive.
  - cbn. eapply unique_later; [|done]. lia.
Qed.

(** The reply sent for a request. *)
Definition reply_frame (s : kstate) (req : arp_packet) : list Z :=
  Ether.frame_of (MAC s) (sender_haddr req) ETHERNET_TYPE_ARP (arp_packet_bytes
    (mkArpPacket (htons ARP_HTYPE_ETHERNET) (htons ETHERNET_TYPE_IP) MAC_SIZE IP_ADDR_SIZE
      (htons ARP_OP_REPLY) (MAC s) (htonl (MYIP s)) (sender_haddr req) (sender_paddr req))).

Lemma length_sender_haddr pkt : (28 <= length pkt)%nat ->
  length (sender_haddr (arp_packet_of pkt)) = 6%nat.
Proof. intros. cbn [sender_haddr arp_packet_of]. rewrite length_take, length_drop. lia. Qed.

Lemma arp_reply_ok pkt s : nic_ok s -> (28 <= length pkt)%nat ->
  htonl (target_paddr (arp_packet_of pkt)) = MYIP s ->
  exists s', arp_reply pkt s = Ret tt s' /\ Ether.tx (reply_frame s (arp_packet_of pkt)) s s'.
Proof.
  intros [Hm Hb] Hl Hip. unfold arp_reply.
  rewrite (proj2 (Z.ltb_ge _ _)) by (unfold SIZEOF_ARP_PACKET; lia). mrun.
  rewrite Hip, Z.eqb_refl. cbn [negb]. pose proof (length_sender_haddr pkt Hl) as Hsl.
  set (ap := mkArpPacket _ _ _ _ _ _ _ _ _).
  assert (Hla : length (arp_packet_bytes ap) = 28%nat) by (by apply length_arp_bytes).
  change SIZEOF_ARP_PACKET with (Z.of_nat 28). rewrite <- Hla.
  apply Ether.ether_send_ok; [done..|]. rewrite Hla. lia.
Qed.

(** The ARP packet a frame carries. *)
Definition frame_arp (frame : list Z) : arp_packet := arp_packet_of (drop 14 frame).

Lemma frame_arp_of src dst t p : length src = 6%nat -> length dst = 6%nat ->
  length (sender_haddr p) = 6%nat -> length (target_haddr p) = 6%nat ->
  frame_arp (Ether.frame_of src dst t (arp_packet_bytes p)) =
  mkArpPacket (u16 (hwd_type p)) (u16 (prot_type p)) (u8 (hwd_length p)) (u8 (prot_length p))
    (u16 (op p)) (sender_haddr p) (u32 (sender_paddr p)) (target_haddr p) (u32 (target_paddr p)).
Proof.
  intros. unfold frame_arp, Ether.frame_of, Nic.padded.
  rewrite <- app_assoc, drop_app_length' by (by rewrite Ether.length_ether_hdr).
  by apply arp_packet_roundtrip.
Qed.

(** The entry [arp_add] writes is the one a search finds until it times out. *)
Lemma added_found ip mac s i t :
  arp_unique (ticks s) (arp_cache s) -> find_index (found (ticks s) ip) (arp_cache s) = None ->
  add_slot (ticks s) ip (arp_cache s) = Some i ->
  0 <= ticks s <= t -> t <= ticks s + ARP_TTL_TICKS < 2 ^ 32 ->
  exists e, arp_cache (added i ip mac s) !! i = Some e /\ ae_mac e = take 6 mac /\
    find_index (found t ip) (arp_cache (added i ip mac s)) = Some i.
Proof.
  intros Hu Hf Hs Ht Htt. assert (Hi : exists e, arp_cache s !! i = Some e).
  { unfold add_slot in Hs. destruct (find_index (requested ip) _) eqn:Hr; simplify_eq.
    - apply requested_Some in Hr as (e&?&_). eauto.
    - apply arp_victim_spec in Hs as (e&?&_). eauto. }
  destruct Hi as [e He]. set (e' := fill (ticks s) mac (e <| ae_ip := ip |>)).
  assert (He' : arp_cache (added i ip mac s) !! i = Some e').
  { cbn. by rewrite list_lookup_alter_eq, He. }
  exists e'. split_and!; [done..|]. apply (find_index_unique _ _ i e'); [done| |].
  - unfold found; cbn. rewrite Z.eqb_refl. cbn. rewrite u32_small by (unfold ARP_TTL_TICKS in *; lia).
    apply Z.leb_le. lia.
  - intros j y Hj Hy. destruct (decide (j = i)) as [|Hne]; [done|]. exfalso.
    cbn in Hj. rewrite list_lookup_alter_ne in Hj by done.
    unfold found in Hy. apply andb_true_iff in Hy as [[Hip Hus]%andb_true_iff Hv].
    apply bool_decide_eq_true in Hus. apply Z.eqb_eq in Hip. apply Z.leb_le in Hv. cbn in Hv.
    refine (others_inactive _ _ _ _ Hu Hf Hs j y Hne Hj _ Hip). right. split; [done|lia].
Qed.

(** ** Properties *)

(** C30: from the cache at boot on and until the 32-bit [ticks] wraps around, no
    sequence of [arp_add], [arp_receive], [arp_resolve] calls and clock ticks makes
    two active entries (pending, or learnt and still valid) for one IP address.
    (After a wrap an expired entry is valid again, see [arp_wrap_duplicates].) *)
Theorem arp_cache_unique s s' :
  Forall (fun e => ae_status e = EMPTY) (arp_cache s) -> rtc arp_step s s' ->
  arp_unique (ticks s') (arp_cache s').
Proof.
  intros He Hr. assert (Hu : arp_unique (ticks s) (arp_cache s)).
  { intros i j e1 e2 H1 _ Ha. rewrite Forall_lookup in He. apply He in H1.
    destruct Ha as [Ha|[Ha _]]; congruence. }
  clear He. induction Hr; eauto using arp_step_unique.
Qed.

Definition demo_arp : kstate :=
  (Proc.demo_state []) <| arp_cache := replicate 2 zero_arp_entry |>.

(** The wrap of [ticks] brings an expired entry back beside the new one. *)
Definition demo_wrap : kstate := demo_arp <| ticks := 0xfffffff0 |>
  <| arp_cache := [zero_arp_entry; zero_arp_entry <| ae_ip := 7 |> <| ae_status := USED |> <| ae_valid_until := 50 |>] |>.
Example arp_wrap_duplicates : exists s', arp_add 7 [1; 2; 3; 4; 5; 6] demo_wrap = Ret tt s' /\
  (found 0 7 <$> arp_cache s') = [true; true].
Proof. eexists. split; [vm_compute; reflexivity|]. vm_compute. reflexivity. Qed.

Lemma arp_cache_unique_witness : exists s', rtc arp_step demo_arp s' /\
  ae_ip <$> arp_cache s' !! 0%nat = Some 7 /\ arp_unique (ticks s') (arp_cache s').
Proof.
  destruct (arp_add 7 [1; 2; 3; 4; 5; 6] demo_arp) as [[] s'|?|?|? ?] eqn:H;
    [|vm_compute in H; discriminate..].
  assert (Hr : rtc arp_step demo_arp s').
  { eapply rtc_once, (as_add 7 [1; 2; 3; 4; 5; 6]); [reflexivity|simpl; lia|exact H]. }
  exists s'. split; [exact Hr|]. split.
  - vm_compute in H. injection H as <-. reflexivity.
  - apply (arp_cache_unique demo_arp s'); [repeat constructor|exact Hr].
Defined.

(** [arp_alloc] hands out the first block that is empty or timed out; when
    there is none it evicts, among the entries that are not pending requests,
    one with the earliest [valid_until]; it panics only when every entry is a
    pending request or never expires.  A pending request is never taken. *)
Theorem arp_alloc_policy s :
  match arp_alloc s with
  | Ret i s' => exists e, arp_cache s !! i = Some e /\ ae_status e <> REQUESTED /\
      arp_cache s' = <[i := e <| ae_status := EMPTY |>]> (arp_cache s) /\
      ((reusable (ticks s) e = true /\
        forall j e', (j < i)%nat -> arp_cache s !! j = Some e' -> reusable (ticks s) e' = false) \/
       ((forall j e', arp_cache s !! j = Some e' -> reusable (ticks s) e' = false) /\
        forall j e', arp_cache s !! j = Some e' -> ae_status e' <> REQUESTED ->
          ae_valid_until e <= ae_valid_until e'))
  | Panic _ => forall j e', arp_cache s !! j = Some e' ->
      ae_status e' = REQUESTED \/ 0xffffffff <= ae_valid_until e'
  | _ => False
  end.
Proof.
  unfold arp_alloc. mrun. destruct (arp_victim _ _) as [i|] eqn:Hv.
  - destruct (arp_victim_spec _ _ _ Hv) as (e&He&Hst&Hcase). unfold set_arp. mrun.
    exists e. split_and!; [done..| |].
    + cbn. by apply list_alter_to_insert.
    + unfold arp_victim in Hv. destruct (find_index _ _) as [j|] eqn:Hf; simplify_eq.
      * apply find_index_Some in Hf as (e'&He'&Hr&Hlt). simplify_eq. by left.
      * right. destruct Hcase as [Hr|Hc]; [|done].
        rewrite find_index_None in Hf. by rewrite (Hf _ _ He) in Hr.
  - intros j e' He'. by eapply arp_victim_None.
Qed.

(** after [arp_add(ip, mac)] for an address that was not cached, a search
    (until the entry times out) finds an entry holding [mac]; processes waiting
    for the pending request become runnable. *)
Theorem arp_add_search ip mac s s' t :
  LkArp ∉ held s -> LkPtable ∉ held s -> (6 <= length mac)%nat ->
  arp_unique (ticks s) (arp_cache s) ->
  find_index (found (ticks s) ip) (arp_cache s) = None ->
  arp_add ip mac s = Ret tt s' ->
  0 <= ticks s <= t -> t <= ticks s + ARP_TTL_TICKS < 2 ^ 32 ->
  exists i e, arp_search ip (s' <| ticks := t |>) = Ret (Some i) (s' <| ticks := t |>) /\
    arp_cache s' !! i = Some e /\ ae_mac e = take 6 mac /\
    (find_index (requested ip) (arp_cache s) = Some i ->
     ptable s' = Proc.wakeup1_proc (ChArp i) <$> ptable s).
Proof.
  intros Ha Hp Hm Hu Hf Had Ht Htt. rewrite arp_add_ok, Hf in Had by done.
  destruct (add_slot _ _ _) as [i|] eqn:Hs; simplify_eq.
  destruct (added_found ip mac s i t) as (e&He&Hmac&Hfi); [done..|]. exists i, e. split_and!; [|done..|].
  - unfold arp_search. mrun. f_equal. exact Hfi.
  - intros Hr. cbn. by rewrite Hr.
Qed.

Lemma arp_add_search_witness : exists i e s',
  arp_add 7 [1; 2; 3; 4; 5; 6] demo_arp = Ret tt s' /\
  arp_search 7 (s' <| ticks := 5000 |>) = Ret (Some i) (s' <| ticks := 5000 |>) /\
  arp_cache s' !! i = Some e /\ ae_mac e = [1; 2; 3; 4; 5; 6].
Proof.
  destruct (arp_add 7 [1; 2; 3; 4; 5; 6] demo_arp) as [[] s'|?|?|? ?] eqn:H;
    [|vm_compute in H; discriminate..].
  destruct (arp_add_search 7 [1; 2; 3; 4; 5; 6] demo_arp s' 5000) as (i&e&H1&H2&H3&_).
  - apply not_elem_of_nil.
  - apply not_elem_of_nil.
  - simpl; lia.
  - intros [|[|?]] [|[|?]] e1 e2; cbn; intros; simplify_eq; try reflexivity;
      match goal with H : active _ _ |- _ => destruct H as [H|[H _]]; discriminate H end.
  - reflexivity.
  - exact H.
  - vm_compute; split; discriminate.
  - vm_compute; split; [discriminate|reflexivity].
  - exists i, e, s'. split; [reflexivity|]. split; [exact H1|]. split; [exact H2|exact H3].
Defined.

(** C34: resolving an address that is neither cached nor pending broadcasts a
    request for the next hop and puts the process to sleep; when, later, a reply
    from that host arrives (the cache and the process table being as they were
    left), its MAC address is stored, the process becomes runnable, and once
    rescheduled [arp_resolve] returns the entry holding that MAC address. *)
Theorem arp_resolve_completes p pr ip0 s i rep :
  curproc s = Some p -> ptable s !! p = Some pr -> held s = [] -> nic_ok s ->
  find_index (found (ticks s) (next_hop s ip0)) (arp_cache s) = None ->
  find_index (requested (next_hop s ip0)) (arp_cache s) = None ->
  arp_victim (ticks s) (arp_cache s) = Some i ->
  (28 <= length rep)%nat -> htons (op (arp_packet_of rep)) = ARP_OP_REPLY ->
  htonl (sender_paddr (arp_packet_of rep)) = next_hop s ip0 ->
  exists s1 k, arp_resolve ip0 s = Block s1 k /\
    EvTx (request_frame s (next_hop s ip0)) ∈ trace s1 /\
    forall s2, held s2 = [] -> arp_cache s2 = arp_cache s1 -> ptable s2 = ptable s1 ->
    exists s3, arp_receive rep s2 = Ret tt s3 /\
      p_state <$> ptable s3 !! p = Some RUNNABLE /\
      forall s4, held s4 = [LkPtable] -> arp_cache s4 = arp_cache s3 -> exists s5,
        k s4 = Ret i s5 /\ held s5 = [] /\
        ae_mac <$> arp_cache s5 !! i = Some (sender_haddr (arp_packet_of rep)).
Proof.
  intros Hc Hp Hh Hn Hf Hr Hv Hl Hop Hip.
  destruct (arp_resolve_request p pr ip0 s i) as (s1&k&H1&Htx&Hac&Hpt&Hk); [done..|].
  exists s1, k. split_and!; [done..|]. intros s2 Hh2 Ha2 Hp2.
  destruct (arp_victim_spec _ _ _ Hv) as (e&He&_).
  assert (Hfi : find_index (requested (next_hop s ip0)) (arp_cache s2) = Some i).
  { rewrite Ha2, Hac. eapply (find_index_unique _ _ i).
    - by rewrite list_lookup_alter_eq, He.
    - unfold requested; cbn. by rewrite Z.eqb_refl.
    - intros j y Hj Hy. destruct (decide (j = i)) as [|Hne]; [done|].
      rewrite list_lookup_alter_ne in Hj by done.
      rewrite find_index_None in Hr. by rewrite (Hr _ _ Hj) in Hy. }
  rewrite (arp_receive_reply rep) by (done || rewrite Hh2; set_solver).
  rewrite Hip, Hfi. eexists. split; [done|]. split.
  - cbn. rewrite Hp2, Hpt, list_lookup_fmap, list_lookup_alter_eq, Hp. cbn.
    unfold Proc.wakeup1_proc; cbn. by rewrite !bool_decide_eq_true_2.
  - intros s4 Hh4 Ha4. rewrite Hk by done. eexists. split_and!; [done..|].
    cbn. rewrite Ha4. cbn. rewrite list_lookup_alter_eq, Ha2, Hac, list_lookup_alter_eq, He. cbn.
    f_equal. rewrite take_ge; [done|]. rewrite length_take. lia.
Qed.

Definition demo_reply : list Z := arp_packet_bytes
  (mkArpPacket (htons ARP_HTYPE_ETHERNET) (htons ETHERNET_TYPE_IP) 6 4 (htons ARP_OP_REPLY)
    [9; 8; 7; 6; 5; 4] (htonl 0xc0a80205) [1; 1; 1; 1; 1; 1] (htonl 0xc0a80202)).

Lemma arp_resolve_completes_witness : exists s1 k,
  arp_resolve 0xc0a80205 demo_arp = Block s1 k /\
  EvTx (request_frame demo_arp (next_hop demo_arp 0xc0a80205)) ∈ trace s1.
Proof.
  destruct (arp_resolve_completes 0 (zero_proc <| p_state := RUNNING |> <| p_pid := 1 |>)
    0xc0a80205 demo_arp 0 demo_reply) as (s1&k&H1&H2&_);
    [reflexivity|reflexivity|reflexivity|split; reflexivity|reflexivity|reflexivity|reflexivity
    |vm_compute; lia|reflexivity|reflexivity|].
  exists s1, k. split; [exact H1|exact H2].
Defined.

(** a request for this host is answered with one frame to its sender: an ARP
    reply that carries our MAC and IP address and the sender's own; a request
    for another address leaves the state unchanged. *)
Theorem arp_request_answered pkt s :
  nic_ok s -> bytes_ok pkt -> (28 <= length pkt)%nat ->
  htons (op (arp_packet_of pkt)) = ARP_OP_REQUEST ->
  let req := arp_packet_of pkt in
  if htonl (target_paddr req) =? MYIP s then
    exists s' frame, arp_receive pkt s = Ret tt s' /\ Ether.tx frame s s' /\
      eth_dst (ether_hdr_of frame) = sender_haddr req /\
      htons (eth_type (ether_hdr_of frame)) = ETHERNET_TYPE_ARP /\
      htons (op (frame_arp frame)) = ARP_OP_REPLY /\
      sender_haddr (frame_arp frame) = MAC s /\
      htonl (sender_paddr (frame_arp frame)) = u32 (MYIP s) /\
      target_haddr (frame_arp frame) = sender_haddr req /\
      target_paddr (frame_arp frame) = sender_paddr req
  else arp_receive pkt s = Ret tt s.
Proof.
  intros Hn Hb Hl Hop req. unfold arp_receive.
  rewrite (proj2 (Z.ltb_ge _ _)) by (unfold SIZEOF_ARP_PACKET; lia). fold req in Hop |- *.
  rewrite Hop, Z.eqb_refl. destruct (Z.eqb_spec (htonl (target_paddr req)) (MYIP s)) as [He|He].
  - destruct (arp_reply_ok pkt s) as (s'&Hs&Htx); [done..|].
    pose proof (length_sender_haddr pkt Hl) as Hsl. destruct Hn as [Hm Hbuf].
    exists s', (reply_frame s req). split_and!; [done..| | | | | | |]; fold req in Hsl.
    all: unfold reply_frame; rewrite ?frame_arp_of, ?Ether.frame_of_header by done; try done; cbn [sender_paddr target_paddr].
    + rewrite (u32_small (htonl _)) by apply htonl_range. apply htonl_htonl.
    + apply u32_small, get32_range, Hb.
  - unfold arp_reply. rewrite (proj2 (Z.ltb_ge _ _)) by (unfold SIZEOF_ARP_PACKET; lia). mrun.
    fold req. by rewrite (proj2 (Z.eqb_neq _ _) He).
Qed.

Definition demo_request : list Z := arp_packet_bytes
  (mkArpPacket (htons ARP_HTYPE_ETHERNET) (htons ETHERNET_TYPE_IP) 6 4 (htons ARP_OP_REQUEST)
    [9; 8; 7; 6; 5; 4] (htonl 0xc0a80205) [0; 0; 0; 0; 0; 0] (htonl 0xc0a80202)).

Lemma arp_request_answered_witness : exists s' frame,
  arp_receive demo_request demo_arp = Ret tt s' /\ Ether.tx frame demo_arp s' /\
  eth_dst (ether_hdr_of frame) = [9; 8; 7; 6; 5; 4].
Proof.
  destruct (arp_request_answered demo_request demo_arp) as (s'&f&H1&H2&H3&_);
    [split; reflexivity|apply (bool_decide_unpack _); vm_compute; exact I
    |vm_compute; lia|reflexivity|].
  exists s', f. split; [exact H1|]. split; [exact H2|exact H3].
Defined.

End Arp.
