(* ===== verification/Ip.v ===== *)
(** * Ip: sending IPv4 datagrams (ip.h, ip.c)

    The IPv4 header and [ip_send].  The theorems show that the header on the
    wire decodes to the arguments of the call, carries a checksum that verifies
    and is sent to the resolved next hop; the receiving side is in Receive. *)
From S2P Require Import Prelude NetUtils Queue KState Kalloc Proc Nic Ether Arp.
Import NetUtils.

(** ** ip.h *)
Definition MAX_TRANSPORT_PAYLOAD_SIZE : Z := 1480.
Definition MINIMUM_IHL : Z := 5.
Definition IP_HDR_SIZE : Z := 20.
Definition INITIAL_TTL : Z := 64.
Definition IP_PROTOCOL_ICMP : Z := 0x01.
Definition IP_PROTOCOL_TCP : Z := 0x06.
Definition IP_VERSION_4 : Z := 4.

(** [struct ip_header]; multi-byte fields as stored. *)
Record ip_header : Type := mkIpHeader {
  version_ihl : Z;
  tos : Z;
  tlen : Z;
  ih_id : Z;
  flags_offset : Z;
  ttl : Z;
  protocol : Z;
  ih_checksum : Z;
  ih_src_ip : Z;
  ih_dst_ip : Z;
}.
#[export] Instance eta_ip_header : Eta ip_header :=
  fun h => mkIpHeader (version_ihl h) (tos h) (tlen h) (ih_id h) (flags_offset h) (ttl h)
    (protocol h) (ih_checksum h) (ih_src_ip h) (ih_dst_ip h).
Definition ip_header_bytes (h : ip_header) : list Z :=
  le8 (version_ihl h) ++ le8 (tos h) ++ le16 (tlen h) ++ le16 (ih_id h)
  ++ le16 (flags_offset h) ++ le8 (ttl h) ++ le8 (protocol h) ++ le16 (ih_checksum h)
  ++ le32 (ih_src_ip h) ++ le32 (ih_dst_ip h).
(** The cast [(struct ip_packet* ) ip_dgram], header part. *)
Definition ip_header_of (b : list Z) : ip_header :=
  mkIpHeader (get8 b 0) (get8 b 1) (get16 b 2) (get16 b 4) (get16 b 6) (get8 b 8) (get8 b 9)
    (get16 b 10) (get32 b 12) (get32 b 16).

Module Ip.

(** ** ip.c *)

(** The header [ip_send] builds, its checksum field still zero. *)
Definition ip_hdr (proto id src_ip dst_ip size : Z) : ip_header :=
  mkIpHeader (Z.lor (Z.shiftl 4 4) MINIMUM_IHL) 0 (htons (IP_HDR_SIZE + size)) (htons id)
    (htons 0x4000) INITIAL_TTL proto 0 (htonl src_ip) (htonl dst_ip).

(** [buffer] is the object the pointer points into.  The MAC address is read
    through the pointer [arp_resolve] returned, when the frame is built;
    [arp_resolve] never returns NULL. *)
Definition ip_send (proto : Z) (buffer : list Z) (src_ip dst_ip size : Z) : M unit :=
  id ← gets ip_id;
  modify (fun s => s <| ip_id := u16 (id + 1) |>) ;;
  let h := ip_hdr proto id src_ip dst_ip size in
  c ← need (checksum (ip_header_bytes h) IP_HDR_SIZE 0) "ip_send: checksum";
  let h := h <| ih_checksum := c |> in
  payload ← memmove (zero_bytes MAX_TRANSPORT_PAYLOAD_SIZE) 0 buffer size "ip_send: payload";
  let pkt := ip_header_bytes h ++ payload in
  if dst_ip =? 0xffffffff
  then Ether.ether_send Arp.broadcast_mac ETHERNET_TYPE_IP pkt (IP_HDR_SIZE + size)
  else
    i ← Arp.arp_resolve dst_ip;
    c ← gets arp_cache;
    e ← need (c !! i) "ip_send: destMAC";
    Ether.ether_send (ae_mac e) ETHERNET_TYPE_IP pkt (IP_HDR_SIZE + size).

(** ** Specification: the datagram for a payload *)
Definition header_sum (h : ip_header) : Z := 65535 - oc_sum (total (ip_header_bytes h)).
Definition sent_header (proto id src dst size : Z) : ip_header :=
  let h := ip_hdr proto id src dst size in h <| ih_checksum := header_sum h |>.
Definition datagram (proto id src dst : Z) (payload : list Z) : list Z :=
  ip_header_bytes (sent_header proto id src dst (Z.of_nat (length payload))) ++ payload.

(** ** Lemmas *)
Lemma ip_header_ok h : bytes_ok (ip_header_bytes h).
Proof. repeat constructor; apply u8_range. Qed.
Lemma length_ip_header h : length (ip_header_bytes h) = 20%nat.
Proof. done. Qed.

(** Casting the bytes of a header gives its fields back, at their widths. *)
Lemma ip_header_roundtrip h tl : ip_header_of (ip_header_bytes h ++ tl) =
  mkIpHeader (u8 (version_ihl h)) (u8 (tos h)) (u16 (tlen h)) (u16 (ih_id h))
    (u16 (flags_offset h)) (u8 (ttl h)) (u8 (protocol h)) (u16 (ih_checksum h))
    (u32 (ih_src_ip h)) (u32 (ih_dst_ip h)).
Proof.
  destruct h as [a b c d e f g k m n].
  pose proof (get16_le16 c []). pose proof (get16_le16 d []). pose proof (get16_le16 e []).
  pose proof (get16_le16 k []). pose proof (get32_le32 m []). pose proof (get32_le32 n []).
  unfold ip_header_of, ip_header_bytes; cbn in *. f_equal; done.
Qed.

(** The header split at its checksum field. *)
Lemma ip_header_split h c :
  ip_header_bytes (h <| ih_checksum := c |>) =
  take 10 (ip_header_bytes h) ++ le16 c ++ drop 12 (ip_header_bytes h).
Proof. done. Qed.

Lemma header_sum_range h : 0 <= header_sum h <= 65535.
Proof.
  unfold header_sum. pose proof (oc_sum_range (total (ip_header_bytes h)) (total_nonneg _ (ip_header_ok h))).
  lia.
Qed.

Lemma header_checksum h : checksum (ip_header_bytes h) IP_HDR_SIZE 0 = Some (header_sum h).
Proof.
  change IP_HDR_SIZE with (Z.of_nat (length (ip_header_bytes h))).
  pose proof (total_nonneg _ (ip_header_ok h)).
  apply (checksum_canonical _ _ (total (ip_header_bytes h))); [apply ip_header_ok|lia|done|].
  by rewrite checksum_loop_spec by (apply ip_header_ok || lia).
Qed.

(** The header sent verifies. *)
Lemma sent_header_verifies proto id src dst size tl :
  checksum (ip_header_bytes (sent_header proto id src dst size) ++ tl) IP_HDR_SIZE 0 = Some 0.
Proof.
  unfold sent_header. set (h := ip_hdr _ _ _ _ _).
  change IP_HDR_SIZE with
    (Z.of_nat (length (ip_header_bytes (h <| ih_checksum := header_sum h |>)))).
  rewrite checksum_app, ip_header_split.
  refine (proj2 (checksum_filled_0 (take 10 (ip_header_bytes h)) (drop 12 (ip_header_bytes h))
    (header_sum h) _ _ _ _)).
  - by exists 5%nat.
  - apply Forall_take, ip_header_ok.
  - apply Forall_drop, ip_header_ok.
  - exact (header_checksum h).
Qed.

(** The part of [ip_send] that builds the packet. *)
Lemma ip_send_build proto payload rest src dst s : (length payload <= 1480)%nat ->
  exists junk,
  ip_send proto (payload ++ rest) src dst (Z.of_nat (length payload)) s =
  (let pkt := datagram proto (ip_id s) src dst payload ++ junk in
   let n := Z.of_nat (length (datagram proto (ip_id s) src dst payload)) in
   if dst =? 0xffffffff then Ether.ether_send Arp.broadcast_mac ETHERNET_TYPE_IP pkt n
   else i ← Arp.arp_resolve dst; c ← gets arp_cache; e ← need (c !! i) "ip_send: destMAC";
        Ether.ether_send (ae_mac e) ETHERNET_TYPE_IP pkt n)
  (s <| ip_id := u16 (ip_id s + 1) |>).
Proof.
  intros Hp. unfold ip_send.
  assert (Hz : length (zero_bytes MAX_TRANSPORT_PAYLOAD_SIZE) = 1480%nat) by apply length_replicate.
  generalize dependent (zero_bytes MAX_TRANSPORT_PAYLOAD_SIZE). intros z Hz.
  exists (drop (length payload) z). do 2 mstep. cbv zeta.
  rewrite (bind_need (header_sum (ip_hdr proto (ip_id s) src dst (Z.of_nat (length payload)))))
    by apply header_checksum.
  erewrite bind_ret by (apply memmove_ok; rewrite ?length_app; lia).
  rewrite Nat2Z.id, take_app_length, blit_0, app_assoc.
  assert (Hn : IP_HDR_SIZE + Z.of_nat (length payload) =
    Z.of_nat (length (datagram proto (ip_id s) src dst payload))).
  { unfold datagram. rewrite length_app, length_ip_header. unfold IP_HDR_SIZE. lia. }
  rewrite Hn. unfold datagram, sent_header. by destruct (dst =? 0xffffffff).
Qed.

Lemma length_datagram proto id src dst payload :
  length (datagram proto id src dst payload) = (20 + length payload)%nat.
Proof. unfold datagram. by rewrite length_app, length_ip_header. Qed.

(** The frame carrying a datagram to the host with address [mac]. *)
Definition ip_frame (s : kstate) (mac : list Z) (proto src dst : Z) (payload : list Z) : list Z :=
  Ether.frame_of (MAC s) mac ETHERNET_TYPE_IP (datagram proto (ip_id s) src dst payload).

(** One frame sent, and the identification counter advanced. *)
Definition ip_tx (frame : list Z) (s s' : kstate) : Prop :=
  Ether.tx frame (s <| ip_id := u16 (ip_id s + 1) |>) s'.

Lemma ip_tx_fields f s s' : ip_tx f s s' ->
  MYIP s' = MYIP s /\ sockets s' = sockets s /\ ports s' = ports s /\ requests s' = requests s /\
  kmem s' = kmem s /\ ptable s' = ptable s /\ arp_cache s' = arp_cache s /\ ticks s' = ticks s /\
  MAC s' = MAC s /\ held s' = held s /\ Arp.next_hop s' = Arp.next_hop s /\
  length (tx_buffer (nic s')) = 1514%nat /\ EvTx f ∈ trace s'.
Proof. intros (b&pre&post&->&Hb&_). cbn. split_and!; try done. set_solver. Qed.

Lemma ether_send_datagram mac proto payload src dst junk s :
  Arp.nic_ok s -> length mac = 6%nat -> (length payload <= 1480)%nat ->
  let d := datagram proto (ip_id s) src dst payload in
  exists s', Ether.ether_send mac ETHERNET_TYPE_IP (d ++ junk) (Z.of_nat (length d))
    (s <| ip_id := u16 (ip_id s + 1) |>) = Ret tt s' /\
    ip_tx (ip_frame s mac proto src dst payload) s s'.
Proof.
  intros [Hm Hb] Hmac Hp d. assert (Hd : (length d <= 1500)%nat).
  { subst d. rewrite length_datagram. lia. }
  rewrite Ether.ether_send_prefix by done.
  destruct (Ether.ether_send_ok mac ETHERNET_TYPE_IP d (s <| ip_id := u16 (ip_id s + 1) |>))
    as (s'&Hs&Htx); [done..|]. exists s'. by split.
Qed.

Lemma ip_send_cached proto payload rest src dst i e s :
  Arp.nic_ok s -> LkArp ∉ held s -> (length payload <= 1480)%nat -> dst <> 0xffffffff ->
  find_index (Arp.found (ticks s) (Arp.next_hop s dst)) (arp_cache s) = Some i ->
  arp_cache s !! i = Some e -> length (ae_mac e) = 6%nat ->
  exists s', ip_send proto (payload ++ rest) src dst (Z.of_nat (length payload)) s = Ret tt s' /\
    ip_tx (ip_frame s (ae_mac e) proto src dst payload) s s'.
Proof.
  intros Hn Hh Hp Hd Hf He Hm.
  destruct (ip_send_build proto payload rest src dst s Hp) as [junk ->]. cbv zeta.
  rewrite (proj2 (Z.eqb_neq _ _) Hd).
  erewrite bind_ret by (by apply Arp.arp_resolve_cached). rewrite bind_gets.
  rewrite (bind_need e) by done. by apply ether_send_datagram.
Qed.

Lemma ip_send_broadcast proto payload rest src s :
  Arp.nic_ok s -> (length payload <= 1480)%nat ->
  exists s', ip_send proto (payload ++ rest) src 0xffffffff (Z.of_nat (length payload)) s = Ret tt s' /\
    ip_tx (ip_frame s Arp.broadcast_mac proto src 0xffffffff payload) s s'.
Proof.
  intros Hn Hp. destruct (ip_send_build proto payload rest src 0xffffffff s Hp) as [junk ->].
  by apply ether_send_datagram.
Qed.

(** What a receiver finds in the frame. *)
Lemma ip_frame_decodes s mac proto src dst payload : length (MAC s) = 6%nat ->
  length mac = 6%nat -> (length payload <= 1480)%nat ->
  let frame := ip_frame s mac proto src dst payload in
  let d := drop 14 frame in
  let h := ip_header_of d in
  ether_hdr_of frame = mkEtherHdr mac (MAC s) (htons ETHERNET_TYPE_IP) /\
  Z.shiftr (version_ihl h) 4 = IP_VERSION_4 /\ Z.land (version_ihl h) 15 = MINIMUM_IHL /\
  ttl h = INITIAL_TTL /\ checksum d IP_HDR_SIZE 0 = Some 0 /\
  protocol h = u8 proto /\ htons (tlen h) = 20 + Z.of_nat (length payload) /\
  htons (ih_id h) = u16 (ip_id s) /\ htonl (ih_src_ip h) = u32 src /\ htonl (ih_dst_ip h) = u32 dst /\
  take (length payload) (drop 20 d) = payload.
Proof.
  intros Hm Hmac Hp frame d h.
  assert (Hd : exists pad, d = datagram proto (ip_id s) src dst payload ++ pad).
  { subst d frame. unfold ip_frame, Ether.frame_of, Nic.padded.
    rewrite <- app_assoc, drop_app_length' by (by rewrite Ether.length_ether_hdr). eauto. }
  destruct Hd as [pad Hd]. unfold datagram in Hd. rewrite <- app_assoc in Hd.
  assert (Hh : h = ip_header_of d) by done. rewrite Hd, ip_header_roundtrip in Hh.
  split; [by apply Ether.frame_of_header|]. rewrite Hh. clear Hh h.
  cbn [version_ihl ttl protocol tlen ih_id ih_src_ip ih_dst_ip sent_header ip_hdr setf].
  split_and!; try reflexivity.
  - rewrite Hd. apply sent_header_verifies.
  - rewrite u16_small, htons_htons, u16_small by first [apply htons_range | unfold IP_HDR_SIZE; lia].
    done.
  - rewrite u16_small by apply htons_range. apply htons_htons.
  - rewrite u32_small by apply htonl_range. apply htonl_htonl.
  - rewrite u32_small by apply htonl_range. apply htonl_htonl.
  - rewrite Hd, drop_app_length' by done. apply take_app_length.
Qed.

(** The link-layer destination of a datagram when it needs no resolution. *)
Definition known_mac (s : kstate) (dst : Z) : option (list Z) :=
  if dst =? 0xffffffff then Some Arp.broadcast_mac
  else i ← find_index (Arp.found (ticks s) (Arp.next_hop s dst)) (arp_cache s);
       ae_mac <$> arp_cache s !! i.

Lemma ip_send_known proto payload rest src dst mac s :
  Arp.nic_ok s -> LkArp ∉ held s -> (length payload <= 1480)%nat ->
  known_mac s dst = Some mac -> length mac = 6%nat ->
  exists s', ip_send proto (payload ++ rest) src dst (Z.of_nat (length payload)) s = Ret tt s' /\
    ip_tx (ip_frame s mac proto src dst payload) s s'.
Proof.
  intros Hn Hh Hp Hk Hm. unfold known_mac in Hk. destruct (Z.eqb_spec dst 0xffffffff) as [->|Hd].
  - simplify_eq. by apply ip_send_broadcast.
  - destruct (find_index _ _) as [i|] eqn:Hf; [|done]. simpl in Hk.
    apply fmap_Some in Hk as (e&He&->). by apply (ip_send_cached _ _ _ _ _ i).
Qed.

(** ** Properties *)

(** [ip_send] of a payload of at most 1480 bytes to the broadcast address or
    to a host whose next hop is in the ARP cache puts exactly one frame on the
    wire, addressed to that next hop, whose IPv4 header is version 4 with five
    words, carries the protocol, total length, addresses and the current
    identification (which is then incremented), verifies under [checksum], and
    is followed by the payload. *)
Theorem ip_send_datagram proto payload rest src dst mac s :
  Arp.nic_ok s -> LkArp ∉ held s -> (length payload <= 1480)%nat ->
  known_mac s dst = Some mac -> length mac = 6%nat ->
  exists s' frame,
    ip_send proto (payload ++ rest) src dst (Z.of_nat (length payload)) s = Ret tt s' /\
    ip_tx frame s s' /\ ip_id s' = u16 (ip_id s + 1) /\
    let d := drop 14 frame in
    let h := ip_header_of d in
    ether_hdr_of frame = mkEtherHdr mac (MAC s) (htons ETHERNET_TYPE_IP) /\
    Z.shiftr (version_ihl h) 4 = IP_VERSION_4 /\ Z.land (version_ihl h) 15 = MINIMUM_IHL /\
    ttl h = INITIAL_TTL /\ checksum d IP_HDR_SIZE 0 = Some 0 /\
    protocol h = u8 proto /\ htons (tlen h) = 20 + Z.of_nat (length payload) /\
    htons (ih_id h) = u16 (ip_id s) /\ htonl (ih_src_ip h) = u32 src /\
    htonl (ih_dst_ip h) = u32 dst /\ take (length payload) (drop 20 d) = payload.
Proof.
  intros Hn Hh Hp Hk Hm. destruct (ip_send_known proto payload rest src dst mac s) as (s'&Hs&Htx);
    [done..|].
  exists s', (ip_frame s mac proto src dst payload). split_and!; [done..| |].
  - by destruct Htx as (?&?&?&->&_).
  - destruct Hn. by apply ip_frame_decodes.
Qed.

Definition demo_ip : kstate :=
  (Proc.demo_state []) <| arp_cache := [mkArpEntry 0xc0a80205 [9; 8; 7; 6; 5; 4] 5000 USED] |>.

Lemma ip_send_datagram_witness : exists s',
  ip_send IP_PROTOCOL_TCP [1; 2; 3; 4] 0xc0a80202 0xc0a80205 3 demo_ip = Ret tt s' /\
  ip_id s' = 1.
Proof.
  destruct (ip_send_datagram IP_PROTOCOL_TCP [1; 2; 3] [4] 0xc0a80202 0xc0a80205 [9; 8; 7; 6; 5; 4]
    demo_ip) as (s'&f&H1&_&H2&_);
    [split; reflexivity|apply not_elem_of_nil|simpl; lia|reflexivity|reflexivity|].
  exists s'. split; [exact H1|exact H2].
Defined.

(** sending to a host whose next hop is unknown broadcasts the ARP request
    and sleeps without sending the datagram; resumed after the entry it waits
    for was filled, [ip_send] sends the datagram, built before the wait, to the
    MAC address found in the entry. *)
Theorem ip_send_waits p pr proto payload rest src dst s i :
  curproc s = Some p -> ptable s !! p = Some pr -> held s = [] -> Arp.nic_ok s ->
  (length payload <= 1480)%nat -> dst <> 0xffffffff ->
  find_index (Arp.found (ticks s) (Arp.next_hop s dst)) (arp_cache s) = None ->
  find_index (Arp.requested (Arp.next_hop s dst)) (arp_cache s) = None ->
  Arp.arp_victim (ticks s) (arp_cache s) = Some i ->
  exists s1 k,
    ip_send proto (payload ++ rest) src dst (Z.of_nat (length payload)) s = Block s1 k /\
    EvTx (Arp.request_frame s (Arp.next_hop s dst)) ∈ trace s1 /\
    (exists p1, ptable s1 !! p = Some p1 /\ p_state p1 = SLEEPING /\ p_chan p1 = Some (ChArp i)) /\
    forall s2 e, held s2 = [LkPtable] -> Arp.nic_ok s2 -> MAC s2 = MAC s ->
      arp_cache s2 !! i = Some e -> length (ae_mac e) = 6%nat ->
      exists s3, k s2 = Ret tt s3 /\
        Ether.tx (ip_frame s (ae_mac e) proto src dst payload) (Proc.unpark p [] s2) s3.
Proof.
  intros Hc Hp Hh Hn Hl Hd Hf Hr Hv.
  destruct (ip_send_build proto payload rest src dst s Hl) as [junk ->]. cbv zeta.
  rewrite (proj2 (Z.eqb_neq _ _) Hd). set (s0 := s <| ip_id := _ |>).
  destruct (Arp.arp_resolve_request p pr dst s0 i) as (s1&k&Hk&Htx&_&Hpt&Hres); [done..|].
  unfold mbind at 1, M_bind at 1. rewrite Hk. cbn [obind].
  eexists s1, _. split_and!; [reflexivity|done|..].
  - rewrite Hpt. cbn. rewrite list_lookup_alter_eq, Hp. by eexists.
  - intros s2 e Hh2 [Hm2 Hb2] Hmac He Hme. rewrite Hres by done. cbn [obind].
    rewrite bind_gets, (bind_need e) by done.
    set (d := datagram _ _ _ _ _). assert (Hld : (length d <= 1500)%nat).
    { subst d. rewrite length_datagram. lia. }
    rewrite Ether.ether_send_prefix by done.
    destruct (Ether.ether_send_ok (ae_mac e) ETHERNET_TYPE_IP d (Proc.unpark p [] s2))
      as (s3&Hs3&Htx3); [done..|]. exists s3. split; [done|].
    change (MAC (Proc.unpark p [] s2)) with (MAC s2) in Htx3. by rewrite Hmac in Htx3.
Qed.

Lemma ip_send_waits_witness : exists s1 k,
  ip_send IP_PROTOCOL_TCP [1; 2; 3; 4] 0xc0a80202 0xc0a80206 3 demo_ip = Block s1 k /\
  EvTx (Arp.request_frame demo_ip (Arp.next_hop demo_ip 0xc0a80206)) ∈ trace s1.
Proof.
  destruct (ip_send_waits 0 (zero_proc <| p_state := RUNNING |> <| p_pid := 1 |>)
    IP_PROTOCOL_TCP [1; 2; 3] [4] 0xc0a80202 0xc0a80206 demo_ip 0) as (s1&k&H1&H2&_);
    [reflexivity|reflexivity|reflexivity|split; reflexivity|simpl; lia|lia|reflexivity|reflexivity
    |reflexivity|].
  exists s1, k. split; [exact H1|exact H2].
Defined.

End Ip.
