(* ===== verification/Icmp.v ===== *)
(** * Icmp: echo requests and replies (icmp.h, icmp.c)

    [icmp_receive] answers echo requests and records echo replies for the
    [ping] system calls.  The theorems show that the answer is the request with
    its type changed and a checksum that verifies, and that a request built by
    [icmp_send_echo_request] is well formed; the round trip through the whole
    stack is in Receive. *)
From S2P Require Import Prelude NetUtils Queue KState Kalloc Proc Nic Ether Arp Ip.
Import NetUtils.

(** ** icmp.h, icmp.c *)
Definition ICMP_TYPE_ECHOREPLY : Z := 0.
Definition ICMP_TYPE_ECHO : Z := 8.
Definition ICMP_HDR_SIZE : Z := 8.
Definition ICMP_PACKET_SIZE : Z := 64.
Definition ICMP_PAYLOAD_PATTERN : Z := 65.   (* 'A' *)

(** [icmp_hdr] with the [echo] member of the union. *)
Record icmp_hdr : Type := mkIcmpHdr {
  ic_type : Z;
  ic_code : Z;
  ic_sum : Z;
  ic_id : Z;
  ic_seq : Z;
}.
Definition icmp_hdr_bytes (h : icmp_hdr) : list Z :=
  le8 (ic_type h) ++ le8 (ic_code h) ++ le16 (ic_sum h) ++ le16 (ic_id h) ++ le16 (ic_seq h).
Definition icmp_hdr_of (b : list Z) : icmp_hdr :=
  mkIcmpHdr (get8 b 0) (get8 b 1) (get16 b 2) (get16 b 4) (get16 b 6).

Module Icmp.

(** [buffer] is a variable length array of [size] bytes: undefined for a
    [size] that is not positive. *)
Definition icmp_send_echo_reply (icmp_request_pkt : list Z) (pkt_size source_ip : Z) : M unit :=
  let size := pkt_size in
  (if size <=? 0 then fault "icmp_send_echo_reply: buffer" else mret tt) ;;
  buffer ← memmove (zero_bytes size) 0 icmp_request_pkt size "icmp_send_echo_reply: pkt";
  buffer ← mstore buffer 0 (le8 ICMP_TYPE_ECHOREPLY) "icmp_send_echo_reply: type";
  buffer ← mstore buffer 2 (le16 0) "icmp_send_echo_reply: sum";
  c ← need (checksum buffer size 0) "icmp_send_echo_reply: checksum";
  buffer ← mstore buffer 2 (le16 c) "icmp_send_echo_reply: sum";
  myip ← gets MYIP;
  Ip.ip_send IP_PROTOCOL_ICMP buffer myip source_ip size.

Definition icmp_receive (icmp_pkt : list Z) (pkt_size src_ip : Z) : M unit :=
  let icmp_header := icmp_hdr_of icmp_pkt in
  if Z.of_nat (length icmp_pkt) <? ICMP_HDR_SIZE then fault "icmp_receive: icmp_pkt" else
  if ic_type icmp_header =? ICMP_TYPE_ECHO then
    icmp_send_echo_reply icmp_pkt pkt_size src_ip
  else if ic_type icmp_header =? ICMP_TYPE_ECHOREPLY then
    modify (fun s => s <| icmp_echo_reply_received := 1 |>
      <| icmp_reply_pkt_info := mkIcmpReply pkt_size src_ip (htons (ic_seq icmp_header)) |>)
  else mret tt.

(** The 64-byte request, its checksum field still zero. *)
Definition echo_request (seq_no : Z) : list Z :=
  icmp_hdr_bytes (mkIcmpHdr ICMP_TYPE_ECHO 0 0 (htons 1) (htons (u16 seq_no)))
  ++ replicate (Z.to_nat (ICMP_PACKET_SIZE - ICMP_HDR_SIZE)) ICMP_PAYLOAD_PATTERN.

Definition icmp_send_echo_request (dst_ip seq_no : Z) : M unit :=
  let buffer := echo_request seq_no in
  c ← need (checksum buffer ICMP_PACKET_SIZE 0) "icmp_send_echo_request: checksum";
  buffer ← mstore buffer 2 (le16 c) "icmp_send_echo_request: sum";
  myip ← gets MYIP;
  Ip.ip_send IP_PROTOCOL_ICMP buffer myip dst_ip ICMP_PACKET_SIZE.

(** ** Specification *)

(** A message with its checksum field (bytes 2 and 3) filled. *)
Definition unsummed (msg : list Z) : list Z := blit msg 2 [0; 0].
Definition summed (msg : list Z) : list Z :=
  blit msg 2 (le16 (65535 - oc_sum (total (unsummed msg)))).
(** The reply to a request: its type changed, its checksum recomputed. *)
Definition reply_of (req : list Z) : list Z := summed (blit req 0 [ICMP_TYPE_ECHOREPLY]).

(** ** Lemmas *)
Lemma blit_2_shape a b c d l x y :
  blit (a :: b :: c :: d :: l) 2 [x; y] = [a; b] ++ [x; y] ++ l.
Proof. done. Qed.

Lemma unsummed_checksum msg : bytes_ok msg -> (4 <= length msg)%nat ->
  checksum (unsummed msg) (Z.of_nat (length msg)) 0 = Some (65535 - oc_sum (total (unsummed msg))).
Proof.
  intros Hb Hl. assert (Hz : bytes_ok (unsummed msg)).
  { apply bytes_ok_blit; [done|repeat constructor; lia]. }
  rewrite <- (length_blit msg 2 [0; 0]) by (simpl; lia).
  by apply (checksum_oc (unsummed msg) 0).
Qed.

Lemma summed_verifies msg : bytes_ok msg -> (4 <= length msg)%nat ->
  checksum (summed msg) (Z.of_nat (length msg)) 0 = Some 0.
Proof.
  intros Hb Hl. pose proof (unsummed_checksum msg Hb Hl) as Hc. unfold summed.
  destruct msg as [|a [|b [|c [|d l]]]]; [simpl in Hl; lia..|].
  rewrite !Forall_cons in Hb. destruct Hb as (?&?&?&?&?).
  apply (checksum_filled_0 [a; b] l); try done.
  - by exists 1%nat.
  - by rewrite !Forall_cons, Forall_nil.
Qed.

Lemma length_summed msg : (4 <= length msg)%nat -> length (summed msg) = length msg.
Proof. intros. unfold summed. by apply length_blit. Qed.

Lemma bytes_ok_summed msg : bytes_ok msg -> bytes_ok (summed msg).
Proof. intros. apply bytes_ok_blit; [done|apply le16_ok]. Qed.

Lemma blit_blit dst o a b : length a = length b -> (o + length a <= length dst)%nat ->
  blit (blit dst o a) o b = blit dst o b.
Proof.
  intros Hab Hl. unfold blit. rewrite <- Hab.
  rewrite take_app_length' by (rewrite length_take; lia). f_equal. f_equal.
  rewrite app_assoc, drop_app_length'; [done|]. rewrite length_app, length_take. lia.
Qed.

(** Filling the checksum field and sending. *)
Lemma send_summed_ok (msg : list Z) dst mac s :
  Arp.nic_ok s -> LkArp ∉ held s -> (4 <= length msg <= 1480)%nat ->
  Ip.known_mac s dst = Some mac -> length mac = 6%nat ->
  exists s', Ip.ip_send IP_PROTOCOL_ICMP (summed msg) (MYIP s) dst (Z.of_nat (length msg)) s = Ret tt s' /\
    Ip.ip_tx (Ip.ip_frame s mac IP_PROTOCOL_ICMP (MYIP s) dst (summed msg)) s s'.
Proof.
  intros Hn Hh Hl Hk Hm. rewrite <- (length_summed msg) by lia.
  destruct (Ip.ip_send_known IP_PROTOCOL_ICMP (summed msg) [] (MYIP s) dst mac s) as (s'&Hs&Htx);
    [done|done|rewrite length_summed; lia|done|done|].
  rewrite app_nil_r in Hs. eauto.
Qed.

(** The reply is built from the first [pkt_size] bytes of the request. *)
Lemma echo_reply_build req rest src s : bytes_ok req -> (4 <= length req <= 1480)%nat ->
  icmp_send_echo_reply (req ++ rest) (Z.of_nat (length req)) src s =
  Ip.ip_send IP_PROTOCOL_ICMP (reply_of req) (MYIP s) src (Z.of_nat (length req)) s.
Proof.
  intros Hb Hl. unfold icmp_send_echo_reply.
  rewrite (proj2 (Z.leb_gt _ _)) by lia. rewrite bind_mret.
  assert (Hz : length (zero_bytes (Z.of_nat (length req))) = length req)
    by (unfold zero_bytes; rewrite length_replicate; lia).
  generalize dependent (zero_bytes (Z.of_nat (length req))). intros z Hz.
  erewrite bind_ret by (apply memmove_ok; rewrite ?length_app; lia).
  rewrite Nat2Z.id, take_app_length, blit_0, drop_ge, app_nil_r by lia.
  erewrite bind_ret by (apply mstore_ok; simpl; lia).
  set (msg := blit req 0 (le8 ICMP_TYPE_ECHOREPLY)).
  assert (Hlm : length msg = length req) by (apply length_blit; simpl; lia).
  assert (Hbm : bytes_ok msg) by (apply bytes_ok_blit; [done|apply le8_ok]).
  erewrite bind_ret by (apply mstore_ok; rewrite Hlm; simpl; lia).
  change (blit msg 2 (le16 0)) with (unsummed msg). rewrite <- Hlm.
  erewrite bind_need by (by apply unsummed_checksum; [|lia]).
  erewrite bind_ret by (apply mstore_ok; unfold unsummed; rewrite length_blit; rewrite Hlm; simpl; lia).
  rewrite bind_gets. unfold unsummed at 1. by rewrite blit_blit by (rewrite ?Hlm; simpl; lia).
Qed.

Lemma echo_reply_ok req rest src mac s :
  Arp.nic_ok s -> LkArp ∉ held s -> bytes_ok req -> (4 <= length req <= 1480)%nat ->
  Ip.known_mac s src = Some mac -> length mac = 6%nat ->
  exists s', icmp_send_echo_reply (req ++ rest) (Z.of_nat (length req)) src s = Ret tt s' /\
    Ip.ip_tx (Ip.ip_frame s mac IP_PROTOCOL_ICMP (MYIP s) src (reply_of req)) s s'.
Proof.
  intros Hn Hh Hb Hl Hk Hm. rewrite echo_reply_build by (done || lia).
  assert (Hlm : length (blit req 0 [ICMP_TYPE_ECHOREPLY]) = length req)
    by (apply length_blit; simpl; lia).
  rewrite <- Hlm. apply (send_summed_ok (blit req 0 [ICMP_TYPE_ECHOREPLY])); try done. lia.
Qed.

(** Everything but the type and the checksum is copied into the reply. *)
Lemma reply_of_fields req : (8 <= length req)%nat ->
  ic_type (icmp_hdr_of (reply_of req)) = ICMP_TYPE_ECHOREPLY /\
  ic_code (icmp_hdr_of (reply_of req)) = ic_code (icmp_hdr_of req) /\
  ic_id (icmp_hdr_of (reply_of req)) = ic_id (icmp_hdr_of req) /\
  ic_seq (icmp_hdr_of (reply_of req)) = ic_seq (icmp_hdr_of req) /\
  drop 4 (reply_of req) = drop 4 req.
Proof. intros H. do 8 (destruct req as [|? req]; [simpl in H; lia|]). done. Qed.

Lemma length_reply_of req : (4 <= length req)%nat -> length (reply_of req) = length req.
Proof.
  intros. unfold reply_of. rewrite length_summed; rewrite length_blit; simpl; lia.
Qed.

Lemma reply_of_verifies req : bytes_ok req -> (4 <= length req)%nat ->
  checksum (reply_of req) (Z.of_nat (length req)) 0 = Some 0.
Proof.
  intros Hb Hl. set (msg := blit req 0 [ICMP_TYPE_ECHOREPLY]).
  assert (Hlm : length msg = length req) by (apply length_blit; simpl; lia).
  rewrite <- Hlm. apply summed_verifies; [|lia].
  apply bytes_ok_blit; [done|exact (le8_ok 0)].
Qed.

(** The request as it is sent. *)
Definition request_of (seq_no : Z) : list Z := summed (echo_request seq_no).

Lemma length_echo_request n : length (echo_request n) = 64%nat.
Proof. done. Qed.
Lemma echo_request_bytes n : bytes_ok (echo_request n).
Proof.
  apply Forall_app_2; [repeat constructor; apply u8_range|]. apply Forall_replicate.
  unfold byte_ok, ICMP_PAYLOAD_PATTERN. lia.
Qed.

Lemma echo_request_ok dst seq_no mac s :
  Arp.nic_ok s -> LkArp ∉ held s -> Ip.known_mac s dst = Some mac -> length mac = 6%nat ->
  exists s', icmp_send_echo_request dst seq_no s = Ret tt s' /\
    Ip.ip_tx (Ip.ip_frame s mac IP_PROTOCOL_ICMP (MYIP s) dst (request_of seq_no)) s s'.
Proof.
  intros Hn Hh Hk Hm. unfold icmp_send_echo_request, request_of.
  pose proof (length_echo_request seq_no) as Hl. pose proof (echo_request_bytes seq_no) as Hb.
  assert (Hu : echo_request seq_no = unsummed (echo_request seq_no)) by done.
  change ICMP_PACKET_SIZE with (Z.of_nat 64). rewrite <- Hl.
  generalize dependent (echo_request seq_no). intros msg Hl Hb Hu.
  erewrite bind_need by (rewrite Hu at 1; apply unsummed_checksum; [done|lia]).
  erewrite bind_ret by (apply mstore_ok; simpl; lia).
  rewrite bind_gets. apply (send_summed_ok msg); try done. lia.
Qed.

(** ** Properties *)

(** an echo request of 8 to 1480 bytes is answered with one datagram to its
    sender whose payload is the request with type 0: same code, identifier,
    sequence number and data, and a checksum that verifies. *)
Theorem icmp_echo_answered req rest src mac s :
  Arp.nic_ok s -> LkArp ∉ held s -> bytes_ok req -> (8 <= length req <= 1480)%nat ->
  ic_type (icmp_hdr_of req) = ICMP_TYPE_ECHO ->
  Ip.known_mac s src = Some mac -> length mac = 6%nat ->
  exists s' rep, icmp_receive (req ++ rest) (Z.of_nat (length req)) src s = Ret tt s' /\
    Ip.ip_tx (Ip.ip_frame s mac IP_PROTOCOL_ICMP (MYIP s) src rep) s s' /\
    length rep = length req /\ checksum rep (Z.of_nat (length rep)) 0 = Some 0 /\
    ic_type (icmp_hdr_of rep) = ICMP_TYPE_ECHOREPLY /\
    ic_code (icmp_hdr_of rep) = ic_code (icmp_hdr_of req) /\
    ic_id (icmp_hdr_of rep) = ic_id (icmp_hdr_of req) /\
    ic_seq (icmp_hdr_of rep) = ic_seq (icmp_hdr_of req) /\ drop 4 rep = drop 4 req.
Proof.
  intros Hn Hh Hb Hl Ht Hk Hm.
  destruct (echo_reply_ok req rest src mac s) as (s'&Hs&Htx); [done..|lia|done|done|].
  exists s', (reply_of req). unfold icmp_receive.
  rewrite (proj2 (Z.ltb_ge _ _)) by (rewrite length_app; unfold ICMP_HDR_SIZE; lia).
  assert (Ht' : ic_type (icmp_hdr_of (req ++ rest)) = ICMP_TYPE_ECHO).
  { rewrite <- Ht. destruct req; [simpl in Hl; lia|done]. }
  rewrite Ht', Z.eqb_refl. destruct (reply_of_fields req) as (?&?&?&?&?); [lia|].
  split_and!; try done.
  - apply length_reply_of. lia.
  - rewrite length_reply_of by lia. apply reply_of_verifies; [done|lia].
Qed.

Definition demo_echo : list Z := [8; 0; 1; 2; 0; 1; 0; 5; 65; 66].

Lemma icmp_echo_answered_witness : exists s' rep,
  icmp_receive (demo_echo ++ [7]) 10 0xc0a80205 Ip.demo_ip = Ret tt s' /\
  ic_type (icmp_hdr_of rep) = ICMP_TYPE_ECHOREPLY /\
  Ip.ip_tx (Ip.ip_frame Ip.demo_ip [9; 8; 7; 6; 5; 4] IP_PROTOCOL_ICMP 0xc0a80202 0xc0a80205 rep)
    Ip.demo_ip s'.
Proof.
  destruct (icmp_echo_answered demo_echo [7] 0xc0a80205 [9; 8; 7; 6; 5; 4] Ip.demo_ip)
    as (s'&rep&H1&H2&_&_&H3&_);
    [split; reflexivity|apply not_elem_of_nil|apply (bool_decide_unpack _); vm_compute; exact I
    |simpl; lia|reflexivity|reflexivity|reflexivity|].
  exists s', rep. split; [exact H1|]. split; [exact H3|exact H2].
Defined.

End Icmp.
