(* ===== verification/Tcp.v ===== *)
(** * Tcp: segments, acknowledgements and the send window (tcp.h, tcp.c, utils.c)

    The TCP header, [tcp_pack] and the functions that send, the receive path
    [tcp_receive] with its four cases (listening, waiting for the last ACK of a
    handshake, waiting for a SYN-ACK, established), and the transmission loop
    [tcp_tx].  The theorems show that what [tcp_pack] builds passes the checksum
    test of the peer, that acknowledgements keep the send window contiguous, and
    how data segments are accepted; two defects of the code are theorems too. *)
From S2P Require Import Prelude NetUtils Queue KState Kalloc Proc Nic Ether Arp Ip.
Import NetUtils.

(** [struct tcp_hdr]; multi-byte fields as stored. *)
Record tcp_hdr : Type := mkTcpHdr {
  th_src_port : Z;
  th_dst_port : Z;
  th_seq_num : Z;
  th_ack_num : Z;
  th_offset : Z;
  th_flags : Z;
  th_window_size : Z;
  th_checksum : Z;
  th_urgent_ptr : Z;
}.
#[export] Instance eta_tcp_hdr : Eta tcp_hdr :=
  fun h => mkTcpHdr (th_src_port h) (th_dst_port h) (th_seq_num h) (th_ack_num h) (th_offset h)
    (th_flags h) (th_window_size h) (th_checksum h) (th_urgent_ptr h).
Definition tcp_hdr_bytes (h : tcp_hdr) : list Z :=
  le16 (th_src_port h) ++ le16 (th_dst_port h) ++ le32 (th_seq_num h) ++ le32 (th_ack_num h)
  ++ le8 (th_offset h) ++ le8 (th_flags h) ++ le16 (th_window_size h) ++ le16 (th_checksum h)
  ++ le16 (th_urgent_ptr h).
(** The cast [(struct tcp_packet* ) tcp_segment], header part. *)
Definition tcp_hdr_of (b : list Z) : tcp_hdr :=
  mkTcpHdr (get16 b 0) (get16 b 2) (get32 b 4) (get32 b 8) (get8 b 12) (get8 b 13)
    (get16 b 14) (get16 b 16) (get16 b 18).
(** [struct tcp_mss_option]. *)
Definition tcp_mss_option_bytes (kind length mss : Z) : list Z :=
  le8 kind ++ le8 length ++ le16 mss.

Module Tcp.

(** ** utils.c *)

(** The [while] of [delay]; each iteration sleeps until the next tick. *)
Fixpoint delay_loop (fuel : nat) (ticks0 n : Z) : M unit :=
  match fuel with
  | O => fault "delay: fuel"
  | S fuel' =>
    t ← gets ticks;
    if u32 (t - ticks0) <? n then
      i ← Proc.myproc;
      i ← need i "delay: myproc()";
      p ← Proc.get_proc i;
      if p_killed p then mret tt
      else Proc.sleep ChTicks LkTicks ;; delay_loop fuel' ticks0 n
    else mret tt
  end.
Definition delay (fuel : nat) (n : Z) : M unit :=
  acquire LkTicks ;;
  ticks0 ← gets ticks;
  delay_loop fuel ticks0 n ;;
  release LkTicks.

(** ** tcp.c *)

(** The sum over the pseudo header, as both ends compute it. *)
Definition pseudo_ip_sum (myip dst_ip size : Z) : Z :=
  let sum := 0 in
  let sum := u32 (sum + (Z.land myip 0xffff + Z.land (Z.shiftr myip 16) 0xffff)) in
  let sum := u32 (sum + (Z.land dst_ip 0xffff + Z.land (Z.shiftr dst_ip 16) 0xffff)) in
  let sum := u32 (sum + htons IP_PROTOCOL_TCP) in
  u32 (sum + htons size).

Section WithStack.
Context {stk : Stack}.

(** [packet] is the memory of the caller's [struct tcp_packet]; the result is
    its new contents. *)
Definition tcp_pack (packet : list Z) (src_port dst_port dst_ip seq_num ack_num flags hdr_size : Z)
  (data : list Z) (data_size : Z) : M (list Z) :=
  let total_size := u32 (hdr_size + data_size) in
  let h := mkTcpHdr (htons src_port) (htons dst_port) (htonl seq_num) (htonl ack_num)
    (u8 (Z.shiftl (Z.shiftr hdr_size 2) 4)) flags (htons WINDOW_SIZE) 0 0 in
  packet ← mstore packet 0 (tcp_hdr_bytes h) "tcp_pack: header";
  packet ← memmove packet TCP_HEADER_MIN_SIZE data data_size "tcp_pack: data";
  myip ← gets MYIP;
  c ← need (checksum packet (s32 total_size) (pseudo_ip_sum myip dst_ip total_size))
    "tcp_pack: checksum";
  mstore packet 16 (le16 c) "tcp_pack: checksum".

Definition tcp_send (src_port dst_port dst_ip seq_num ack_num flags hdr_size : Z)
  (data : list Z) (data_size : Z) : M unit :=
  packet ← tcp_pack (uninit (Z.to_nat SIZEOF_TCP_PACKET)) src_port dst_port dst_ip seq_num ack_num
    flags hdr_size data data_size;
  let total_size := u32 (hdr_size + data_size) in
  myip ← gets MYIP;
  Ip.ip_send IP_PROTOCOL_TCP packet myip dst_ip (s32 total_size).

Definition mss_option : list Z := tcp_mss_option_bytes 2 4 (htons MSS).

Definition tcp_send_syn (i : nat) : M unit :=
  s ← get_socket i;
  tcp_send (so_port s) (dst_port (tcon s)) (dst_addr (tcon s)) INITIAL_SEQ 0 TCP_FLAG_SYN
    (TCP_HEADER_MIN_SIZE + 4) mss_option 4 ;;
  set_socket i (upd_tcon (fun t => t <| base_seq := INITIAL_SEQ + 1 |>
    <| next_seq := INITIAL_SEQ + 1 |>)).

Definition tcp_send_synack (i : nat) : M unit :=
  s ← get_socket i;
  tcp_send (so_port s) (dst_port (tcon s)) (dst_addr (tcon s)) INITIAL_SEQ
    (u32 (seq_received (tcon s) + 1)) (Z.lor TCP_FLAG_SYN TCP_FLAG_ACK)
    (TCP_HEADER_MIN_SIZE + 4) mss_option 4 ;;
  set_socket i (upd_tcon (fun t => t <| ack_sent := u32 (seq_received t + 1) |>
    <| base_seq := INITIAL_SEQ + 1 |> <| next_seq := INITIAL_SEQ + 1 |>)).

Definition tcp_send_ack (i : nat) (ack : Z) : M unit :=
  s ← get_socket i;
  tcp_send (so_port s) (dst_port (tcon s)) (dst_addr (tcon s)) (u32 (next_seq (tcon s) - 1))
    (u32 ack) TCP_FLAG_ACK TCP_HEADER_MIN_SIZE [] 0 ;;
  set_socket i (upd_tcon (fun t => t <| ack_sent := u32 ack |>)).

(** [*(struct queued_packet * ) qp]. *)
Definition deref_pkt (qp : cval) : M queued_packet :=
  match qp with
  | VPkt i j => s ← get_socket i; need (pkts (tcon s) !! j) "qp: pkts[]"
  | _ => fault "qp"
  end.

(** [while(!isqueueempty(asoc->tcon.window) && ack >= qp->seq + qp->size - 20)]. *)
Fixpoint ack_loop (fuel : nat) (i : nat) (ack : Z) : M unit :=
  match fuel with
  | O => fault "tcp_receive: fuel"
  | S fuel' =>
    a ← get_socket i;
    if Queue.isqueueempty (window (tcon a)) then mret tt
    else
      q ← need (Queue.getfront (window (tcon a))) "getfront";
      qp ← deref_pkt q;
      if u32 (qp_seq qp + qp_size qp - TCP_HEADER_MIN_SIZE) <=? ack then
        d ← need (Queue.dequeue (window (tcon a))) "dequeue";
        set_socket i (upd_tcon (fun t => t <| window := snd d |>
          <| base_seq := u32 (base_seq t + (qp_size qp - Z.shiftr (th_offset (tcp_hdr_of (qp_pkt qp))) 2)) |>)) ;;
        ack_loop fuel' i ack
      else mret tt
  end.
(** Each iteration removes one of at most [QUEUE_SIZE] elements. *)
Definition ack_fuel : nat := 11.

(** The listening case: store the request, queue it, wake the acceptor. *)
Definition receive_syn (ps : nat) (port : Z) (rx_pkt : list Z) (size dst_ip : Z) : M unit :=
  rs ← gets requests;
  let i := match find_index (fun r => negb (client_ip r =? 0)) rs with
           | Some i => i | None => MAX_PENDING_REQUESTS end in
  r ← need (rs !! i) "requests[]";
  pkt ← memmove (request_packet r) 0 rx_pkt size "request_packet";
  modify (fun s => s <| requests := <[i := mkTcpRequest dst_ip pkt]> (requests s) |>) ;;
  psoc ← get_socket ps;
  q ← need (Queue.enqueue (waitqueue psoc) (VReq i)) "enqueue";
  set_socket ps (fun s => s <| waitqueue := q |>) ;;
  if bool_decide (so_state psoc = SOCKET_WAIT) then Proc.wakeup (ChPort port) else mret tt.

(** The established case. *)
Definition receive_established (ai : nat) (port : Z) (rx_pkt : list Z) (size : Z) : M unit :=
  let header := tcp_hdr_of rx_pkt in
  asoc ← get_socket ai;
  if negb (Z.land (th_flags header) TCP_FLAG_ACK =? 0) then
    let ack := htonl (th_ack_num header) in
    if (ack <? base_seq (tcon asoc)) || (next_seq (tcon asoc) <? ack) then mret tt
    else ack_loop ack_fuel ai ack
  else
    let rx_hdr_size := Z.shiftr (th_offset header) 2 in
    if ack_sent (tcon asoc) =? htonl (th_seq_num header) then
      (if Z.of_nat (length rx_pkt) <? rx_hdr_size then fault "rx_pkt" else mret tt) ;;
      page_write (so_buffer asoc) (so_end asoc) (drop (Z.to_nat rx_hdr_size) rx_pkt)
        (size - rx_hdr_size) "asoc->buffer" ;;
      set_socket ai (fun s => s <| so_end := s32 (so_end s + (size - rx_hdr_size)) |>) ;;
      asoc ← get_socket ai;
      (if bool_decide (so_state asoc = SOCKET_WAIT) then Proc.wakeup (ChPort port) else mret tt) ;;
      set_socket ai (upd_tcon (fun t => t <| seq_received := htonl (th_seq_num header) |>)) ;;
      tcp_send_ack ai (u32 (htonl (th_seq_num header) + (size - rx_hdr_size)))
    else tcp_send_ack ai (ack_sent (tcon asoc)).

(** The segments for an active socket. *)
Definition receive_active (ai : nat) (port : Z) (rx_pkt : list Z) (size dst_ip : Z) : M unit :=
  let header := tcp_hdr_of rx_pkt in
  asoc ← get_socket ai;
  if negb (dst_addr (tcon asoc) =? dst_ip) || negb (dst_port (tcon asoc) =? htons (th_src_port header))
  then mret tt
  else if bool_decide (tc_state (tcon asoc) = TCP_SYN_SENT)
          && negb (Z.land (th_flags header) TCP_FLAG_ACK =? 0) then
    page_write (so_buffer asoc) 0 rx_pkt size "asoc->buffer" ;;
    Proc.wakeup (ChPort port)
  else if bool_decide (tc_state (tcon asoc) = TCP_ESTABLISHED) then
    receive_established ai port rx_pkt size
  else mret tt.

Definition tcp_receive (tcp_segment : list Z) (size dst_ip : Z) : M unit :=
  let rx_pkt := tcp_segment in
  let header := tcp_hdr_of rx_pkt in
  let port := htons (th_dst_port header) in
  let flags := th_flags header in
  (if Z.of_nat (length rx_pkt) <? TCP_HEADER_MIN_SIZE then fault "tcp_receive: tcp_segment" else mret tt) ;;
  myip ← gets MYIP;
  c ← need (checksum rx_pkt size (pseudo_ip_sum myip dst_ip size)) "tcp_receive: checksum";
  if negb (c =? 0) then mret tt
  else if NPORTS <=? port then mret tt
  else
    po ← get_port port;
    if po_pid po =? -1 then mret tt
    else
      let act := match active_socket po with
                 | Some ai => receive_active ai port rx_pkt size dst_ip | None => mret tt end in
      match passive_socket po with
      | None => act
      | Some ps =>
        psoc ← get_socket ps;
        full ← match tc_state (tcon psoc) with
               | TCP_LISTEN => if negb (Z.land flags TCP_FLAG_SYN =? 0)
                               then need (Queue.isqueuefull (waitqueue psoc)) "isqueuefull" else mret true
               | _ => mret true end;
        if negb full then receive_syn ps port rx_pkt size dst_ip
        else if bool_decide (tc_state (tcon psoc) = TCP_SYNACK_SENT)
                && negb (Z.land flags TCP_FLAG_ACK =? 0) then
          if negb (dst_addr (tcon psoc) =? dst_ip)
             || negb (dst_port (tcon psoc) =? htons (th_src_port header)) then mret tt
          else
            set_socket ps (upd_tcon (fun t => t <| ack_received := htonl (th_ack_num header) |>
              <| seq_received := htonl (th_seq_num header) |>)) ;;
            Proc.wakeup (ChPort port)
        else act
      end.

Definition tcp_resend (qp : cval) (dst_ip : Z) : M unit :=
  q ← deref_pkt qp;
  myip ← gets MYIP;
  Ip.ip_send IP_PROTOCOL_TCP (qp_pkt q) myip dst_ip (qp_size q).

(** The body of [if(!isqueuefull(s->tcon.window))] in [tcp_tx]: segment [i]. *)
Definition tx_segment (si : nat) (payload : list Z) (payload_size i : Z) (window_offset : nat) : M unit :=
  s ← get_socket si;
  let current_payload_size :=
    if i =? Z.quot payload_size MSS then Z.rem payload_size MSS else MSS in
  pkt ← tcp_pack (uninit (Z.to_nat SIZEOF_TCP_PACKET)) (so_port s) (dst_port (tcon s))
    (dst_addr (tcon s)) (next_seq (tcon s)) 0 0 TCP_HEADER_MIN_SIZE payload current_payload_size;
  let total_size := TCP_HEADER_MIN_SIZE + current_payload_size in
  old ← need (pkts (tcon s) !! window_offset) "pkts[window_offset]";
  stored ← memmove (qp_pkt old) 0 pkt total_size "pkts[window_offset].pkt";
  set_socket si (upd_tcon (fun t => t <| pkts :=
    <[window_offset := mkQueuedPacket (next_seq (tcon s)) total_size stored]> (pkts t) |>)) ;;
  q ← need (Queue.enqueue (window (tcon s)) (VPkt si window_offset)) "enqueue";
  set_socket si (upd_tcon (fun t => t <| window := q |>)) ;;
  myip ← gets MYIP;
  Ip.ip_send IP_PROTOCOL_TCP pkt myip (dst_addr (tcon s)) total_size ;;
  set_socket si (upd_tcon (fun t => t <| next_seq := u32 (next_seq t + current_payload_size) |>)).

(** [delay(100); qp = getfront(...); if(again && qp != 0) tcp_resend(qp, ...)]. *)
Definition resend_after_delay (fuel si : nat) (again : socket -> M bool) : M unit :=
  delay fuel 100 ;;
  s ← get_socket si;
  qp ← need (Queue.getfront (window (tcon s))) "getfront";
  b ← again s;
  if b && negb (bool_decide (qp = VInt 0)) then tcp_resend qp (dst_addr (tcon s)) else mret tt.

Fixpoint wait_while (fuel : nat) (si : nat) (again : socket -> M bool) : M unit :=
  match fuel with
  | O => fault "tcp_tx: fuel"
  | S fuel' =>
    s ← get_socket si;
    b ← again s;
    if (b : bool) then (resend_after_delay fuel' si again ;; wait_while fuel' si again) else mret tt
  end.
Definition window_full (s : socket) : M bool :=
  need (Queue.isqueuefull (window (tcon s))) "isqueuefull".
Definition unacked (s : socket) : M bool :=
  mret (negb (base_seq (tcon s) =? next_seq (tcon s))).

Fixpoint tx_loop (fuel : nat) (si : nat) (payload : list Z) (payload_size num_iter i : Z)
  (window_offset : nat) : M unit :=
  match fuel with
  | O => fault "tcp_tx: fuel"
  | S fuel' =>
    if i <? num_iter then
      s ← get_socket si;
      full ← window_full s;
      (if (full : bool) then mret tt else tx_segment si payload payload_size i window_offset) ;;
      let i := if (full : bool) then i else i + 1 in
      let window_offset := if (full : bool) then window_offset else ((window_offset + 1) mod 10)%nat in
      wait_while fuel' si window_full ;;
      (if i =? num_iter then wait_while fuel' si unacked else mret tt) ;;
      tx_loop fuel' si payload payload_size num_iter i window_offset
    else mret tt
  end.
Definition tcp_tx (fuel : nat) (si : nat) (payload : list Z) (payload_size : Z) : M unit :=
  tx_loop fuel si payload payload_size (Z.quot payload_size MSS + 1) 0 0.

(** ** Lemmas: segments *)
Lemma pseudo_ip_sum_eq a b n : 0 <= a < 2 ^ 32 -> 0 <= b < 2 ^ 32 ->
  pseudo_ip_sum a b n = a `mod` 65536 + a `div` 65536 + b `mod` 65536 + b `div` 65536 + 0x0600 + htons n.
Proof.
  intros Ha Hb. pose proof (htons_range n). unfold pseudo_ip_sum.
  rewrite !land_ffff, !Z.shiftr_div_pow2 by lia. change (htons IP_PROTOCOL_TCP) with 0x0600.
  change (2 ^ 16) with 65536.
  assert (0 <= a `div` 65536 < 65536) by zlia. assert (0 <= b `div` 65536 < 65536) by zlia.
  rewrite !(Z.mod_small (_ `div` _)) by lia.
  assert (0 <= a `mod` 65536 < 65536) by zlia. assert (0 <= b `mod` 65536 < 65536) by zlia.
  rewrite (u32_small (0 + _)), (u32_small (0 + _ + _)), (u32_small (0 + _ + _ + _)), u32_small by lia.
  lia.
Qed.
Lemma pseudo_ip_sum_range a b n : 0 <= a < 2 ^ 32 -> 0 <= b < 2 ^ 32 ->
  0 <= pseudo_ip_sum a b n < 2 ^ 20.
Proof.
  intros. rewrite pseudo_ip_sum_eq by done. pose proof (htons_range n). widths. zlia.
Qed.
Lemma pseudo_ip_sum_comm a b n : 0 <= a < 2 ^ 32 -> 0 <= b < 2 ^ 32 ->
  pseudo_ip_sum a b n = pseudo_ip_sum b a n.
Proof. intros. rewrite !pseudo_ip_sum_eq by done. lia. Qed.

Lemma length_tcp_hdr h : length (tcp_hdr_bytes h) = 20%nat.
Proof. done. Qed.
Lemma tcp_hdr_ok h : bytes_ok (tcp_hdr_bytes h).
Proof. repeat constructor; apply u8_range. Qed.
Lemma tcp_hdr_roundtrip h tl : tcp_hdr_of (tcp_hdr_bytes h ++ tl) =
  mkTcpHdr (u16 (th_src_port h)) (u16 (th_dst_port h)) (u32 (th_seq_num h)) (u32 (th_ack_num h))
    (u8 (th_offset h)) (u8 (th_flags h)) (u16 (th_window_size h)) (u16 (th_checksum h))
    (u16 (th_urgent_ptr h)).
Proof.
  destruct h as [a b c d e f g k m].
  pose proof (get16_le16 a []). pose proof (get16_le16 b []). pose proof (get32_le32 c []).
  pose proof (get32_le32 d []). pose proof (get16_le16 g []). pose proof (get16_le16 k []).
  pose proof (get16_le16 m []). unfold tcp_hdr_of, tcp_hdr_bytes; cbn in *. f_equal; done.
Qed.

Lemma tcp_hdr_fill h c tl :
  blit (tcp_hdr_bytes h ++ tl) 16 (le16 c) = tcp_hdr_bytes (h <| th_checksum := c |>) ++ tl.
Proof. by destruct h. Qed.
Lemma tcp_hdr_split h tl : tcp_hdr_bytes h ++ tl =
  take 16 (tcp_hdr_bytes h) ++ le16 (th_checksum h) ++ le16 (th_urgent_ptr h) ++ tl.
Proof. by destruct h. Qed.

(** Filling the checksum of the first [n] bytes of an object. *)
Lemma checksum_filled_prefix s pre post c (n : nat) :
  length pre = 16%nat -> bytes_ok pre -> bytes_ok post -> 0 <= s < 2 ^ 20 ->
  (18 <= n <= 18 + length post)%nat ->
  checksum (pre ++ [0; 0] ++ post) (Z.of_nat n) s = Some c ->
  0 <= c <= 65535 /\ checksum (pre ++ le16 c ++ post) (Z.of_nat n) s = Some 0.
Proof.
  intros Hp Hb1 Hb2 Hs Hn Hc. set (post1 := take (n - 18) post).
  assert (Hpost : post = post1 ++ drop (n - 18) post) by (subst post1; by rewrite take_drop).
  assert (Hl1 : length post1 = (n - 18)%nat) by (subst post1; rewrite length_take; lia).
  assert (Hn1 : forall v, length v = 2%nat -> n = length (pre ++ v ++ post1)).
  { intros v Hv. rewrite !length_app. lia. }
  assert (Happ : forall v, length v = 2%nat -> checksum (pre ++ v ++ post) (Z.of_nat n) s =
    checksum (pre ++ v ++ post1) (Z.of_nat n) s).
  { intros v Hv. rewrite Hpost at 1. rewrite !(app_assoc _ _ (drop _ _)), !app_assoc.
    rewrite (Hn1 v Hv), app_assoc. apply checksum_app. }
  rewrite Happ in Hc by done. rewrite Happ by done.
  rewrite (Hn1 [0; 0]) in Hc |- * by done.
  apply checksum_filled; try done.
  - rewrite Hp. by exists 8%nat.
  - lia.
  - by apply Forall_take.
Qed.

(** The header of a segment, its checksum given. *)
Definition seg_hdr (sp dp seq ack fl hs c : Z) : tcp_hdr :=
  mkTcpHdr (htons sp) (htons dp) (htonl seq) (htonl ack) (u8 (Z.shiftl (Z.shiftr hs 2) 4)) fl
    (htons WINDOW_SIZE) c 0.

(** [tcp_pack] builds a segment whose checksum verifies. *)
Lemma tcp_pack_ok packet sp dp ip seq ack fl (hs : nat) data rest s :
  length packet = 1480%nat -> bytes_ok packet -> bytes_ok data ->
  0 <= MYIP s < 2 ^ 32 -> 0 <= ip < 2 ^ 32 ->
  (20 <= hs <= 60)%nat -> (hs + length data <= 1480)%nat ->
  let n := Z.of_nat (hs + length data) in
  exists pkt c, tcp_pack packet sp dp ip seq ack fl (Z.of_nat hs) (data ++ rest)
      (Z.of_nat (length data)) s = Ret pkt s /\
    pkt = tcp_hdr_bytes (seg_hdr sp dp seq ack fl (Z.of_nat hs) c) ++ data ++ drop (20 + length data) packet /\
    bytes_ok pkt /\ length pkt = 1480%nat /\
    checksum pkt n (pseudo_ip_sum (MYIP s) ip n) = Some 0.
Proof.
  intros Hl Hb Hbd Hip1 Hip2 Hhs Hn n.
  set (h0 := seg_hdr sp dp seq ack fl (Z.of_nat hs) 0).
  set (tl := data ++ drop (20 + length data) packet).
  assert (Hbt : bytes_ok tl) by (apply Forall_app_2; [done|by apply Forall_drop]).
  assert (Hlt : length tl = 1460%nat) by (subst tl; rewrite length_app, length_drop; lia).
  assert (Hps : 0 <= pseudo_ip_sum (MYIP s) ip n < 2 ^ 20) by (by apply pseudo_ip_sum_range).
  assert (Hck : exists c, checksum (tcp_hdr_bytes h0 ++ tl) n (pseudo_ip_sum (MYIP s) ip n) = Some c).
  { unfold checksum. rewrite (proj2 (Z.leb_le _ _)); [eauto|].
    rewrite length_app, length_tcp_hdr. lia. }
  destruct Hck as [c Hc]. assert (Hc1 := Hc). rewrite tcp_hdr_split in Hc1.
  apply (checksum_filled_prefix (pseudo_ip_sum (MYIP s) ip n) (take 16 (tcp_hdr_bytes h0))
    ([0; 0] ++ tl) c (hs + length data)) in Hc1 as [Hcr Hc0].
  - exists (tcp_hdr_bytes (h0 <| th_checksum := c |>) ++ tl), c.
    split; [|split; [reflexivity|split; [|split]]].
    + unfold tcp_pack. rewrite u32_small by (widths; lia).
      rewrite s32_small by lia. change (mkTcpHdr _ _ _ _ _ _ _ 0 0) with h0.
      replace (Z.of_nat hs + Z.of_nat (length data)) with n by lia.
      erewrite bind_ret by (apply mstore_ok; rewrite length_tcp_hdr; lia).
      assert (Hlb : length (blit packet 0 (tcp_hdr_bytes h0)) = 1480%nat)
        by (rewrite length_blit; rewrite ?length_tcp_hdr; lia).
      erewrite bind_ret by (apply memmove_ok; unfold TCP_HEADER_MIN_SIZE;
        rewrite ?Hlb, ?length_app; lia).
      rewrite bind_gets, Nat2Z.id, take_app_length.
      assert (Hbuf : blit (blit packet 0 (tcp_hdr_bytes h0)) (Z.to_nat TCP_HEADER_MIN_SIZE) data
        = tcp_hdr_bytes h0 ++ tl).
      { unfold blit at 1. rewrite blit_0.
        rewrite take_app_length', length_tcp_hdr by done. f_equal. f_equal.
        change (Z.to_nat TCP_HEADER_MIN_SIZE) with (length (tcp_hdr_bytes h0)).
        by rewrite drop_app_add, drop_drop. }
      rewrite Hbuf, (bind_need c) by done.
      rewrite mstore_ok by (rewrite length_app, length_tcp_hdr; simpl; lia). by rewrite tcp_hdr_fill.
    + apply Forall_app_2; [apply tcp_hdr_ok|done].
    + rewrite length_app, length_tcp_hdr. lia.
    + rewrite tcp_hdr_split. exact Hc0.
  - by rewrite length_take, length_tcp_hdr.
  - apply Forall_take, tcp_hdr_ok.
  - apply Forall_app_2; [exact (le16_ok 0)|done].
  - done.
  - rewrite length_app. simpl. lia.
Qed.

(** What [tcp_pack] and [tcp_send] put on the wire: a segment with these
    arguments, valid between the two addresses. *)
Definition segment_ok (myip ip sp dp seq ack fl hs : Z) (data seg : list Z) : Prop :=
  let n := Z.of_nat (length seg) in
  n = hs + Z.of_nat (length data) /\ bytes_ok seg /\
  checksum seg n (pseudo_ip_sum myip ip n) = Some 0 /\
  htons (th_src_port (tcp_hdr_of seg)) = u16 sp /\ htons (th_dst_port (tcp_hdr_of seg)) = u16 dp /\
  htonl (th_seq_num (tcp_hdr_of seg)) = u32 seq /\ htonl (th_ack_num (tcp_hdr_of seg)) = u32 ack /\
  th_flags (tcp_hdr_of seg) = u8 fl /\ Z.shiftr (th_offset (tcp_hdr_of seg)) 2 = 4 * (hs `div` 4) /\
  take (length data) (drop 20 seg) = data.

Lemma offset_roundtrip hs : 0 <= hs <= 60 ->
  Z.shiftr (u8 (u8 (Z.shiftl (Z.shiftr hs 2) 4))) 2 = 4 * (hs `div` 4).
Proof.
  intros. rewrite u8_idemp, !Z.shiftr_div_pow2, Z.shiftl_mul_pow2 by lia. unfold u8.
  change (2 ^ 2) with 4. change (2 ^ 4) with 16. change (2 ^ 8) with 256. zlia.
Qed.

Lemma packed_segment_ok packet sp dp ip seq ack fl (hs : nat) data rest s :
  length packet = 1480%nat -> bytes_ok packet -> bytes_ok data ->
  0 <= MYIP s < 2 ^ 32 -> 0 <= ip < 2 ^ 32 ->
  (20 <= hs <= 60)%nat -> (hs + length data <= 1480)%nat ->
  exists pkt, tcp_pack packet sp dp ip seq ack fl (Z.of_nat hs) (data ++ rest)
      (Z.of_nat (length data)) s = Ret pkt s /\
    length pkt = 1480%nat /\ bytes_ok pkt /\
    segment_ok (MYIP s) ip sp dp seq ack fl (Z.of_nat hs) data (take (hs + length data) pkt).
Proof.
  intros Hl Hb Hbd Hip1 Hip2 Hhs Hn.
  destruct (tcp_pack_ok packet sp dp ip seq ack fl hs data rest s) as (pkt&c&Hp&Hpkt&Hok&Hlen&Hck);
    [done..|]. exists pkt. split_and!; [done..|].
  set (tl := data ++ drop (20 + length data) packet) in *.
  assert (Hlt : length (take (hs + length data) pkt) = (hs + length data)%nat)
    by (rewrite length_take; lia).
  assert (Hh : tcp_hdr_of (take (hs + length data) pkt) =
    tcp_hdr_of (tcp_hdr_bytes (seg_hdr sp dp seq ack fl (Z.of_nat hs) c) ++ tl)).
  { replace (hs + length data)%nat with (length (tcp_hdr_bytes (seg_hdr sp dp seq ack fl (Z.of_nat hs) c))
      + (hs + length data - 20))%nat by (rewrite length_tcp_hdr; lia).
    rewrite Hpkt, take_app_add. by rewrite !tcp_hdr_roundtrip. }
  rewrite tcp_hdr_roundtrip in Hh.
  unfold segment_ok. rewrite Hlt, Hh.
  cbn [th_src_port th_dst_port th_seq_num th_ack_num th_flags th_offset seg_hdr].
  rewrite !(u16_small (htons _)), !(u32_small (htonl _)) by first [apply htons_range | apply htonl_range].
  rewrite !htons_htons, !htonl_htonl. split_and!; try done.
  - lia.
  - by apply Forall_take.
  - rewrite <- Hlt at 2. rewrite <- (checksum_app _ (drop (hs + length data) pkt)), take_drop, Hlt.
    exact Hck.
  - apply offset_roundtrip. lia.
  - rewrite skipn_firstn_comm, Hpkt, drop_app_length' by done.
    rewrite take_take, Nat.min_l by lia. apply take_app_length.
Qed.

Lemma tcp_send_ok sp dp ip seq ack fl (hs : nat) data rest mac s :
  Arp.nic_ok s -> LkArp ∉ held s -> Ip.known_mac s ip = Some mac -> length mac = 6%nat ->
  bytes_ok data -> 0 <= MYIP s < 2 ^ 32 -> 0 <= ip < 2 ^ 32 ->
  (20 <= hs <= 60)%nat -> (hs + length data <= 1480)%nat ->
  exists s' seg, tcp_send sp dp ip seq ack fl (Z.of_nat hs) (data ++ rest) (Z.of_nat (length data)) s
      = Ret tt s' /\
    Ip.ip_tx (Ip.ip_frame s mac IP_PROTOCOL_TCP (MYIP s) ip seg) s s' /\
    segment_ok (MYIP s) ip sp dp seq ack fl (Z.of_nat hs) data seg.
Proof.
  intros Hn Hh Hk Hm Hbd Hip1 Hip2 Hhs Hsz. unfold tcp_send.
  destruct (packed_segment_ok (uninit (Z.to_nat SIZEOF_TCP_PACKET)) sp dp ip seq ack fl hs data rest s)
    as (pkt&Hp&Hlp&Hbp&Hseg); [apply length_uninit|apply uninit_bytes|done..|].
  erewrite bind_ret by exact Hp. rewrite bind_gets, u32_small, s32_small by (widths; lia).
  set (seg := take (hs + length data) pkt) in *.
  assert (Hls : length seg = (hs + length data)%nat) by (subst seg; rewrite length_take; lia).
  destruct (Ip.ip_send_known IP_PROTOCOL_TCP seg (drop (hs + length data) pkt) (MYIP s) ip mac s)
    as (s'&Hs&Htx); [done..|lia|done|done|].
  exists s', seg. split_and!; [|done..]. rewrite <- Hs. f_equal.
  - subst seg. by rewrite take_drop.
  - lia.
Qed.

(** ** The send window *)
#[local] Arguments Nat.modulo : simpl never.

(** The [n] slots of [pkts] from [first] on, as queued pointers. *)
Fixpoint slots (i first n : nat) : list cval :=
  match n with O => [] | S n' => VPkt i first :: slots i (S first mod 10) n' end.

(** The payload of a queued segment, and what the acknowledgement code relies on. *)
Definition pay (q : queued_packet) : Z := qp_size q - TCP_HEADER_MIN_SIZE.
Definition queued_ok (seq : Z) (q : queued_packet) : Prop :=
  qp_seq q = seq /\ 0 <= pay q /\ Z.shiftr (th_offset (tcp_hdr_of (qp_pkt q))) 2 = 20.

(** The slots hold consecutive segments covering the sequence numbers from
    [base] to [next]. *)
Fixpoint contig (pk : list queued_packet) (first n : nat) (base next : Z) : Prop :=
  match n with
  | O => base = next
  | S n' => exists q, pk !! first = Some q /\ queued_ok base q /\
      contig pk (S first mod 10)%nat n' (base + pay q) next
  end.

(** The send window of socket [i] is sound: [window] holds pointers to [n]
    consecutive slots, [wo] is the slot after them, and the segments there
    cover exactly [base_seq, next_seq). *)
Definition win_ok (i wo : nat) (t : tcp_connection) : Prop :=
  exists first n, (first < 10)%nat /\ (n <= 10)%nat /\ wo = ((first + n) mod 10)%nat /\
    Queue.repr (window t) (slots i first n) /\
    contig (pkts t) first n (base_seq t) (next_seq t) /\
    0 <= base_seq t /\ next_seq t < 2 ^ 32 /\ length (pkts t) = 10%nat /\
    Forall (fun q => length (qp_pkt q) = 1480%nat) (pkts t).

Lemma contig_le pk first n base next : contig pk first n base next -> base <= next.
Proof.
  revert first base. induction n as [|n IH]; simpl; intros first base; [lia|].
  intros (q&_&(_&Hp&_)&Hc). apply IH in Hc. lia.
Qed.
Lemma length_slots i first n : length (slots i first n) = n.
Proof. revert first. induction n; simpl; auto. Qed.

(** The front of the window is not fully acknowledged by [ack]. *)
Definition pending (pk : list queued_packet) (first n : nat) (ack base : Z) : Prop :=
  n = 0%nat \/ exists q, pk !! first = Some q /\ ack < base + pay q.

Definition acked (i : nat) (w : queue) (b : Z) (s : kstate) : kstate :=
  s <| sockets := alter (upd_tcon (fun t => t <| window := w |> <| base_seq := b |>)) i (sockets s) |>.

Lemma acked_acked i w b w' b' s : acked i w' b' (acked i w b s) = acked i w' b' s.
Proof. unfold acked. destruct s; cbn. by rewrite list_alter_alter. Qed.
Lemma acked_id i a s : sockets s !! i = Some a ->
  acked i (window (tcon a)) (base_seq (tcon a)) s = s.
Proof.
  intros Ha. unfold acked. rewrite (list_alter_to_insert _ _ _ a Ha), list_insert_id; [by destruct s|].
  rewrite Ha. by destruct a as [????????[]].
Qed.

Lemma ack_loop_ok i ack next n : forall fuel first s a,
  sockets s !! i = Some a -> Queue.repr (window (tcon a)) (slots i first n) ->
  contig (pkts (tcon a)) first n (base_seq (tcon a)) next ->
  0 <= base_seq (tcon a) <= ack -> next < 2 ^ 32 -> (n < fuel)%nat -> (first < 10)%nat ->
  exists w m b, ack_loop fuel i ack s = Ret tt (acked i w b s) /\
    (m <= n)%nat /\ Queue.repr w (slots i ((first + m) mod 10) (n - m)) /\
    contig (pkts (tcon a)) ((first + m) mod 10) (n - m) b next /\
    base_seq (tcon a) <= b <= ack /\
    pending (pkts (tcon a)) ((first + m) mod 10) (n - m) ack b.
Proof.
  induction n as [|n IH]; intros fuel first s a Ha Hq Hc Hb Hnx Hf Hfi;
    (destruct fuel as [|fuel]; [lia|]); cbn [ack_loop]; unfold get_socket; mrun; rewrite Ha;
    cbn [need]; mrun; rewrite (Queue.repr_empty _ _ Hq).
  - cbn [slots]. rewrite bool_decide_eq_true_2 by done. eexists _, 0%nat, _. rewrite (acked_id i a s Ha). rewrite Nat.add_0_r, Nat.mod_small by done.
    split_and!; [done|lia|done|done|lia|lia|by left].
  - cbn [slots bool_decide]. rewrite bool_decide_eq_false_2 by done.
    rewrite (Queue.repr_front _ _ Hq). cbn [slots Queue.fifo_front need]. mrun.
    unfold deref_pkt, get_socket. mrun. rewrite Ha. cbn [need]. mrun.
    destruct Hc as (q&Hqp&(Hseq&Hpay&Hoff)&Hc). rewrite Hqp. cbn [need]. mrun.
    pose proof (contig_le _ _ _ _ _ Hc) as Hle.
    replace (qp_seq q + qp_size q - TCP_HEADER_MIN_SIZE) with (base_seq (tcon a) + pay q)
      by (unfold pay; lia).
    rewrite u32_small by lia.
    destruct (Z.leb_spec (base_seq (tcon a) + pay q) ack) as [Hack|Hack].
    + destruct (Queue.repr_dequeue _ _ Hq) as (w&Hd&Hw). rewrite Hd. cbn [need]. mrun.
      cbn [snd slots Queue.fifo_dequeue fst] in *. rewrite Hoff.
      unfold set_socket. mrun.
      match goal with |- context [ack_loop fuel i ack ?x] => set (s1 := x) end.
      assert (Hs1 : s1 = acked i w (base_seq (tcon a) + pay q) s).
      { subst s1. unfold acked. rewrite !(list_alter_to_insert _ _ _ a Ha). unfold upd_tcon. cbn.
        unfold pay, TCP_HEADER_MIN_SIZE in *. by rewrite u32_small by lia. }
      destruct (IH fuel (S first mod 10)%nat s1
        (upd_tcon (fun t => t <| window := w |> <| base_seq := base_seq (tcon a) + pay q |>) a))
        as (w'&m&b&Hrun&Hm&Hw'&Hc'&Hb'&Hpend); try done.
      * rewrite Hs1. cbn. by rewrite list_lookup_alter_eq, Ha.
      * cbn. lia.
      * lia.
      * by apply Nat.mod_upper_bound.
      * exists w', (S m), b.
        replace ((first + S m) mod 10)%nat with ((S first mod 10 + m) mod 10)%nat
          by (rewrite Nat.Div0.add_mod_idemp_l; f_equal; lia).
        replace (S n - S m)%nat with (n - m)%nat by lia. cbn in Hb'.
        rewrite Hs1 in Hrun |- *. rewrite acked_acked in Hrun. split_and!; try done; lia.
    + eexists _, 0%nat, _. rewrite (acked_id i a s Ha). rewrite Nat.add_0_r, Nat.mod_small by done.
      split_and!; [done|lia|done| |lia|lia|].
      * exists q. split_and!; done.
      * right. exists q. split; [done|lia].
Qed.

Lemma ack_win_ok i wo ack s a :
  sockets s !! i = Some a -> win_ok i wo (tcon a) ->
  base_seq (tcon a) <= ack <= next_seq (tcon a) ->
  exists w b, ack_loop ack_fuel i ack s = Ret tt (acked i w b s) /\
    let t := (tcon a) <| window := w |> <| base_seq := b |> in
    win_ok i wo t /\ base_seq (tcon a) <= b <= ack /\
    (ack = next_seq (tcon a) -> b = ack /\ Queue.repr w []).
Proof.
  intros Ha (first&n&Hfi&Hn&Hwo&Hq&Hc&Hb0&Hnx&Hlp&Hsz) Hack.
  destruct (ack_loop_ok i ack (next_seq (tcon a)) n ack_fuel first s a)
    as (w&m&b&Hrun&Hm&Hw&Hc'&Hb&Hp); [done..|lia|done|unfold ack_fuel; lia|done|].
  exists w, b. split; [done|]. split_and!; [|lia|lia|].
  - exists ((first + m) mod 10)%nat, (n - m)%nat. cbn [window pkts base_seq next_seq setf].
    split_and!; try done; [by apply Nat.mod_upper_bound|lia| |lia].
    subst wo. rewrite Nat.Div0.add_mod_idemp_l. f_equal. lia.
  - intros ->. destruct (decide (n - m = 0)%nat) as [H0|Hne].
    + rewrite H0 in *. split; [exact Hc'|exact Hw].
    + exfalso. destruct Hp as [?|(q&Hq'&Hlt)]; [done|].
      destruct (n - m)%nat as [|k]; [done|]. destruct Hc' as (q'&Hq2&_&Hc2). simplify_eq.
      apply contig_le in Hc2. lia.
Qed.

Lemma mod10_shift first k n : (first < 10)%nat -> (k < n < 10)%nat ->
  ((first + k) mod 10)%nat <> ((first + n) mod 10)%nat.
Proof. intros Hf Hk E. apply (f_equal Z.of_nat) in E. rewrite !Nat2Z.inj_mod in E. zlia. Qed.

Lemma contig_insert pk wo q n : forall first base next,
  (forall k, (k < n)%nat -> ((first + k) mod 10)%nat <> wo) -> (first < 10)%nat ->
  contig pk first n base next -> contig (<[wo := q]> pk) first n base next.
Proof.
  induction n as [|n IH]; intros first base next Hne Hf; simpl; [done|].
  intros (p&Hp&Hok&Hc). exists p. split_and!; [|done|].
  - rewrite list_lookup_insert_ne; [done|]. specialize (Hne 0%nat).
    rewrite Nat.add_0_r, Nat.mod_small in Hne by done. apply not_eq_sym, Hne. lia.
  - apply IH; [|by apply Nat.mod_upper_bound|done]. intros k Hk.
    rewrite Nat.Div0.add_mod_idemp_l. specialize (Hne (S k)).
    replace (S first + k)%nat with (first + S k)%nat by lia. apply Hne. lia.
Qed.

Lemma contig_snoc pk q n : forall first base next, (first < 10)%nat ->
  contig pk first n base next -> pk !! ((first + n) mod 10)%nat = Some q -> queued_ok next q ->
  contig pk first (S n) base (next + pay q).
Proof.
  induction n as [|n IH]; intros first base next Hf.
  - simpl. intros -> Hq Hok. exists q.
    rewrite Nat.add_0_r, Nat.mod_small in Hq by done. by split_and!.
  - intros (p&Hp&Hok&Hc) Hq Hqok. exists p. split_and!; [done..|].
    apply IH; [by apply Nat.mod_upper_bound|done| |done].
    rewrite Nat.Div0.add_mod_idemp_l. by replace (S first + n)%nat with (first + S n)%nat by lia.
Qed.

Lemma slots_snoc i n : forall first, (first < 10)%nat ->
  slots i first (S n) = slots i first n ++ [VPkt i ((first + n) mod 10)].
Proof.
  induction n as [|n IH]; intros first Hf.
  - simpl slots. by rewrite Nat.add_0_r, Nat.mod_small by done.
  - change (slots i first (S (S n))) with (VPkt i first :: slots i (S first mod 10) (S n)).
    rewrite IH by (by apply Nat.mod_upper_bound). rewrite Nat.Div0.add_mod_idemp_l.
    by replace (S first + n)%nat with (first + S n)%nat by lia.
Qed.

Lemma tcp_hdr_of_app a b : (20 <= length a)%nat -> tcp_hdr_of (a ++ b) = tcp_hdr_of a.
Proof. intros Hl. do 20 (destruct a as [|? a]; [simpl in Hl; lia|]). done. Qed.

(** A peer that can be sent to without waiting for ARP. *)
Definition reaches (s : kstate) (ip : Z) (mac : list Z) : Prop :=
  Arp.nic_ok s /\ LkArp ∉ held s /\ Ip.known_mac s ip = Some mac /\ length mac = 6%nat /\
  0 <= MYIP s < 2 ^ 32 /\ 0 <= ip < 2 ^ 32.

(** Socket [i] of [s] is established with the peer, which can be reached. *)
Record link (s : kstate) (i : nat) (a : socket) (peer_ip peer_port : Z) (mac : list Z) : Prop := {
  link_socket : sockets s !! i = Some a;
  link_state : tc_state (tcon a) = TCP_ESTABLISHED;
  link_addr : dst_addr (tcon a) = peer_ip;
  link_dport : dst_port (tcon a) = peer_port;
  link_sport : 0 <= so_port a < NPORTS;
  link_port : exists po, port_at s (so_port a) = Some po /\ po_pid po <> -1 /\
    passive_socket po = None /\ active_socket po = Some i;
  link_reaches : reaches s peer_ip mac;
  link_unlocked : LkPtable ∉ held s;
}.

(** Sending leaves the connection as it was. *)
Lemma link_tx f s s0 s1 i a a' ip pt mac ss km pr :
  link s i a ip pt mac -> Ip.ip_tx f s0 s1 ->
  s0 = s <| sockets := ss |> <| kmem := km |> <| ptable := pr |> ->
  forall ss', ss' !! i = Some a' -> so_port a' = so_port a -> tc_state (tcon a') = tc_state (tcon a) ->
  dst_addr (tcon a') = dst_addr (tcon a) -> dst_port (tcon a') = dst_port (tcon a) ->
  link (s1 <| sockets := ss' |>) i a' ip pt mac.
Proof.
  intros [Hs Hst Hda Hdp Hsp Hpo (Hn&Hh&Hk&Hm&Hip1&Hip2) Hu] Htx -> ss' Ha' Hp Ht Hd1 Hd2.
  destruct Htx as (b&pre&post&->&Hb&_). destruct Hn as [Hn1 Hn2].
  constructor; rewrite ?Hp, ?Ht, ?Hd1, ?Hd2; done.
Qed.

(** The number of bytes segment [i] of a transmission carries. *)
Definition chunk (payload_size i : Z) : Z :=
  if i =? Z.quot payload_size MSS then Z.rem payload_size MSS else MSS.

(** Queueing a segment in the free slot keeps the window sound. *)
Lemma win_push si wo t q w :
  win_ok si wo t -> Queue.isqueuefull (window t) = Some false ->
  Queue.enqueue (window t) (VPkt si wo) = Some w -> queued_ok (next_seq t) q ->
  length (qp_pkt q) = 1480%nat -> next_seq t + pay q < 2 ^ 32 ->
  win_ok si (S wo mod 10)
    (t <| pkts := <[wo := q]> (pkts t) |> <| window := w |> <| next_seq := next_seq t + pay q |>).
Proof.
  intros (first&n&Hfi&Hn10&Hwo&Hq&Hc&Hb0&Hnx&Hlk&Hsz) Hfull Hw Hqok Hql Hsq.
  assert (Hnf : (n < 10)%nat).
  { rewrite (Queue.repr_full _ _ Hq) in Hfull. unfold Queue.fifo_full in Hfull.
    rewrite length_slots in Hfull. injection Hfull as Hfull. apply bool_decide_eq_false in Hfull. lia. }
  assert (Hwo10 : (wo < 10)%nat) by (subst wo; by apply Nat.mod_upper_bound).
  destruct (Queue.repr_enqueue _ _ (VPkt si wo) Hq) as (w'&Hw'&Hrw). simplify_eq.
  exists first, (S n). cbn [window pkts base_seq next_seq setf].
  split_and!; [done|lia| | | |done|lia|by rewrite length_insert|by apply Forall_insert].
  - rewrite <- Nat.add_1_l, Nat.Div0.add_mod_idemp_r. f_equal. lia.
  - rewrite slots_snoc by done. unfold Queue.fifo_enqueue, Queue.fifo_full in Hrw.
    by rewrite length_slots, bool_decide_eq_false_2 in Hrw by lia.
  - apply contig_snoc; [done| | |done].
    + apply contig_insert; [|done..]. intros k Hkn. apply mod10_shift; lia.
    + apply list_lookup_insert_eq. lia.
Qed.

Lemma win_slot si wo t : win_ok si wo t ->
  0 <= next_seq t /\ (exists w, Queue.enqueue (window t) (VPkt si wo) = Some w) /\
  exists old, pkts t !! wo = Some old /\ length (qp_pkt old) = 1480%nat.
Proof.
  intros (first&n&Hfi&Hn10&Hwo&Hq&Hc&Hb0&Hnx&Hlk&Hsz). apply contig_le in Hc. split_and!; [lia| |].
  - destruct (Queue.repr_enqueue _ _ (VPkt si wo) Hq) as (w&Hw&_). eauto.
  - destruct (lookup_lt_is_Some_2 (pkts t) wo) as [old Hold].
    { rewrite Hlk, Hwo. by apply Nat.mod_upper_bound. }
    exists old. split; [done|]. by apply (Forall_lookup_1 _ _ _ _ Hsz Hold).
Qed.

(** The segment as it is stored in the window. *)
Lemma stored_segment old pkt (n : nat) : length old = 1480%nat -> length pkt = 1480%nat ->
  (20 <= n <= 1480)%nat ->
  tcp_hdr_of (blit old 0 (take n pkt)) = tcp_hdr_of (take n pkt) /\
  length (blit old 0 (take n pkt)) = 1480%nat.
Proof.
  intros Ho Hp Hn. split.
  - rewrite blit_0. apply tcp_hdr_of_app. rewrite length_take. lia.
  - rewrite length_blit; [done|]. rewrite length_take. lia.
Qed.

(** Sending a segment on a window that is not full. *)
Lemma tx_segment_ok si payload psize i wo mac s a :
  sockets s !! si = Some a -> win_ok si wo (tcon a) ->
  Queue.isqueuefull (window (tcon a)) = Some false ->
  Arp.nic_ok s -> LkArp ∉ held s -> Ip.known_mac s (dst_addr (tcon a)) = Some mac ->
  length mac = 6%nat -> bytes_ok payload -> 0 <= MYIP s < 2 ^ 32 ->
  0 <= dst_addr (tcon a) < 2 ^ 32 -> 0 <= chunk psize i <= 1460 ->
  chunk psize i <= Z.of_nat (length payload) -> next_seq (tcon a) + chunk psize i < 2 ^ 32 ->
  exists s' a' seg, tx_segment si payload psize i wo s = Ret tt s' /\
    (forall ip pt m, link s si a ip pt m -> link s' si a' ip pt m) /\
    so_port a' = so_port a /\ MYIP s' = MYIP s /\
    sockets s' = <[si := a']> (sockets s) /\ win_ok si (S wo mod 10) (tcon a') /\
    base_seq (tcon a') = base_seq (tcon a) /\
    next_seq (tcon a') = next_seq (tcon a) + chunk psize i /\
    EvTx (Ip.ip_frame s mac IP_PROTOCOL_TCP (MYIP s) (dst_addr (tcon a)) seg) ∈ trace s' /\
    segment_ok (MYIP s) (dst_addr (tcon a)) (so_port a) (dst_port (tcon a)) (next_seq (tcon a)) 0 0
      TCP_HEADER_MIN_SIZE (take (Z.to_nat (chunk psize i)) payload) seg.
Proof.
  intros Ha Hw Hfull Hn Hh Hk Hm Hb Hip1 Hip2 Hck Hlen Hsq. unfold tx_segment.
  fold (chunk psize i). set (data := take (Z.to_nat (chunk psize i)) payload).
  assert (Hld : Z.of_nat (length data) = chunk psize i) by (subst data; rewrite length_take; lia).
  rewrite (bind_get_socket si a) by done. cbv zeta.
  destruct (packed_segment_ok (uninit (Z.to_nat SIZEOF_TCP_PACKET)) (so_port a) (dst_port (tcon a))
    (dst_addr (tcon a)) (next_seq (tcon a)) 0 0 20 data (drop (Z.to_nat (chunk psize i)) payload) s)
    as (pkt&Hp&Hlp&Hbp&Hseg); [apply length_uninit|apply uninit_bytes|by apply Forall_take|done..|lia|lia|].
  subst data. rewrite take_drop, Hld in Hp. change (Z.of_nat 20) with TCP_HEADER_MIN_SIZE in Hp.
  erewrite bind_ret by exact Hp.
  set (c := chunk psize i) in *. set (data := take (Z.to_nat c) payload) in *.
  set (seg := take (20 + length data) pkt) in *.
  destruct (win_slot _ _ _ Hw) as (Hnx0&[w Hen]&old&Hold&Holdl). rewrite (bind_need old) by done.
  replace (TCP_HEADER_MIN_SIZE + c) with (Z.of_nat (20 + length data))
    by (unfold TCP_HEADER_MIN_SIZE; lia).
  erewrite bind_ret by (apply memmove_ok; lia). rewrite Nat2Z.id. fold seg.
  rewrite bind_set_socket, (bind_need w), bind_set_socket, bind_gets by done.
  destruct (stored_segment (qp_pkt old) pkt (20 + length data)) as [Hsh Hsl]; [lia..|].
  change (Z.to_nat 0) with 0%nat. fold seg in Hsh, Hsl. set (stored := blit _ _ seg) in *.
  set (q := mkQueuedPacket (next_seq (tcon a)) (Z.of_nat (20 + length data)) stored).
  cbn [sockets setf MYIP]. rewrite list_alter_alter. set (s2 := s <| sockets := _ |> <| sockets := _ |>).
  assert (Hls : length seg = (20 + length data)%nat) by (subst seg; rewrite length_take; lia).
  destruct (Ip.ip_send_known IP_PROTOCOL_TCP seg (drop (20 + length data) pkt) (MYIP s)
    (dst_addr (tcon a)) mac s2) as (s3&Hs3&Htx); [done..|lia|done|done|].
  unfold seg in Hs3 at 1. rewrite take_drop, Hls in Hs3. erewrite bind_ret by exact Hs3.
  destruct (Ip.ip_tx_fields _ _ _ Htx) as (HMY&Hso&_&_&_&_&_&_&_&_&_&_&Htr).
  assert (Hps : pay q = c) by (unfold pay, q, TCP_HEADER_MIN_SIZE; cbn [qp_size]; lia).
  eexists _, (upd_tcon (fun t => t <| pkts := <[wo := q]> (pkts t) |> <| window := w |>
    <| next_seq := u32 (next_seq t + c) |>) a), seg.
  split; [reflexivity|]. split; [|split; [done|split; [exact HMY|split; [|split_and!; [..|exact Htr|exact Hseg]]]]].
  - intros ip pt m HL. eapply (link_tx _ s s2 _ _ a _ _ _ _ (sockets s2) (kmem s) (ptable s)); [exact HL|exact Htx|reflexivity|..];
      try done.
    cbn [sockets setf]. rewrite Hso. subst s2. cbn [sockets setf].
    by rewrite list_alter_alter, list_lookup_alter_eq, Ha.
  - cbn [sockets setf]. rewrite Hso. subst s2. cbn [sockets setf].
    rewrite list_alter_alter. apply (list_alter_to_insert _ _ _ a Ha).
  - unfold upd_tcon. cbn [tcon setf next_seq]. rewrite u32_small by lia. rewrite <- Hps.
    apply win_push; try done; [|lia]. split_and!; [done|lia|]. cbn [q qp_pkt]. rewrite Hsh.
    by destruct Hseg as (_&_&_&_&_&_&_&_&Hoff&_).
  - done.
  - cbn [tcon upd_tcon setf next_seq]. by rewrite u32_small by lia.
Qed.

(** ** Lemmas: receiving *)

Lemma tcp_send_ack_ok i ack mac s a :
  sockets s !! i = Some a -> reaches s (dst_addr (tcon a)) mac ->
  exists s1 seg, tcp_send_ack i ack s =
      Ret tt (s1 <| sockets := <[i := upd_tcon (fun t => t <| ack_sent := u32 ack |>) a]> (sockets s) |>) /\
    Ip.ip_tx (Ip.ip_frame s mac IP_PROTOCOL_TCP (MYIP s) (dst_addr (tcon a)) seg) s s1 /\
    segment_ok (MYIP s) (dst_addr (tcon a)) (so_port a) (dst_port (tcon a))
      (u32 (next_seq (tcon a) - 1)) (u32 ack) TCP_FLAG_ACK TCP_HEADER_MIN_SIZE [] seg.
Proof.
  intros Ha (Hn&Hh&Hk&Hm&Hip1&Hip2). unfold tcp_send_ack. rewrite (bind_get_socket i a) by done.
  destruct (tcp_send_ok (so_port a) (dst_port (tcon a)) (dst_addr (tcon a))
    (u32 (next_seq (tcon a) - 1)) (u32 ack) TCP_FLAG_ACK 20 [] [] mac s)
    as (s1&seg&Hs&Htx&Hseg); [done..|apply Forall_nil_2|done|done|lia|simpl; lia|].
  change TCP_HEADER_MIN_SIZE with (Z.of_nat 20). erewrite bind_ret by exact Hs.
  exists s1, seg. split_and!; [|done..]. unfold set_socket, modify. f_equal.
  destruct (Ip.ip_tx_fields _ _ _ Htx) as (_&Hso&_). rewrite Hso.
  by rewrite (list_alter_to_insert _ _ _ a Ha).
Qed.

Lemma tcp_send_syn_ok i mac s a :
  sockets s !! i = Some a -> reaches s (dst_addr (tcon a)) mac ->
  exists s1 seg, tcp_send_syn i s =
      Ret tt (s1 <| sockets := <[i := upd_tcon (fun t => t <| base_seq := 1 |> <| next_seq := 1 |>) a]>
        (sockets s) |>) /\
    Ip.ip_tx (Ip.ip_frame s mac IP_PROTOCOL_TCP (MYIP s) (dst_addr (tcon a)) seg) s s1 /\
    segment_ok (MYIP s) (dst_addr (tcon a)) (so_port a) (dst_port (tcon a)) INITIAL_SEQ 0 TCP_FLAG_SYN
      24 mss_option seg.
Proof.
  intros Ha (Hn&Hh&Hk&Hm&Hip1&Hip2). unfold tcp_send_syn. rewrite (bind_get_socket i a) by done.
  destruct (tcp_send_ok (so_port a) (dst_port (tcon a)) (dst_addr (tcon a))
    INITIAL_SEQ 0 TCP_FLAG_SYN 24 mss_option [] mac s) as (s1&seg&Hs&Htx&Hseg);
    [done..|repeat constructor; apply u8_range|done|done|lia|simpl; lia|].
  rewrite app_nil_r in Hs. change (TCP_HEADER_MIN_SIZE + 4) with (Z.of_nat 24).
  change (Z.of_nat (length mss_option)) with 4 in Hs. erewrite bind_ret by exact Hs.
  exists s1, seg. split_and!; [|done..]. unfold set_socket, modify. f_equal.
  destruct (Ip.ip_tx_fields _ _ _ Htx) as (_&Hso&_). rewrite Hso.
  by rewrite (list_alter_to_insert _ _ _ a Ha).
Qed.

Lemma reaches_tx f s s1 ip mac : reaches s ip mac -> Ip.ip_tx f s s1 -> reaches s1 ip mac.
Proof.
  intros ([Hn1 Hn2]&Hr) (b&pre&post&->&Hb&_). split; [by split|done].
Qed.

(** A data segment for an established connection: ACK flag clear, a header of
    [hs] bytes followed by [data]. *)
Definition data_segment (seg data : list Z) (hs : nat) : Prop :=
  Z.land (th_flags (tcp_hdr_of seg)) TCP_FLAG_ACK = 0 /\
  Z.shiftr (th_offset (tcp_hdr_of seg)) 2 = Z.of_nat hs /\
  length seg = (hs + length data)%nat /\ drop hs seg = data.

(** The socket after in-order data arrived. *)
Definition delivered (seq n : Z) (a : socket) : socket :=
  a <| so_end := so_end a + n |>
    <| tcon := (tcon a) <| seq_received := seq |> <| ack_sent := u32 (seq + n) |> |>.

Lemma receive_in_order ai port seg data hs mac s a pg :
  sockets s !! ai = Some a -> reaches s (dst_addr (tcon a)) mac -> LkPtable ∉ held s ->
  data_segment seg data hs ->
  ack_sent (tcon a) = htonl (th_seq_num (tcp_hdr_of seg)) ->
  mem (kmem s) !! so_buffer a = Some pg -> 0 <= so_end a ->
  so_end a + Z.of_nat (length data) <= Z.of_nat (length pg) < 2 ^ 31 ->
  exists s' seg', receive_established ai port seg (Z.of_nat (length seg)) s = Ret tt s' /\
    MYIP s' = MYIP s /\
    (forall ip pt m, link s ai a ip pt m -> link s' ai
      (delivered (ack_sent (tcon a)) (Z.of_nat (length data)) a) ip pt m) /\
    sockets s' = <[ai := delivered (ack_sent (tcon a)) (Z.of_nat (length data)) a]> (sockets s) /\
    mem (kmem s') = <[so_buffer a := blit pg (Z.to_nat (so_end a)) data]> (mem (kmem s)) /\
    ptable s' = (if bool_decide (so_state a = SOCKET_WAIT)
                 then Proc.wakeup1_proc (ChPort port) <$> ptable s else ptable s) /\
    EvTx (Ip.ip_frame s mac IP_PROTOCOL_TCP (MYIP s) (dst_addr (tcon a)) seg') ∈ trace s' /\
    segment_ok (MYIP s) (dst_addr (tcon a)) (so_port a) (dst_port (tcon a))
      (u32 (next_seq (tcon a) - 1)) (u32 (ack_sent (tcon a) + Z.of_nat (length data)))
      TCP_FLAG_ACK TCP_HEADER_MIN_SIZE [] seg'.
Proof.
  intros Ha Hr Hpt (Hf&Ho&Hl&Hd) Hseq Hpg He Hfit. unfold receive_established.
  rewrite (bind_get_socket ai a) by done. rewrite Hf, Ho, <- Hseq, Z.eqb_refl. cbn [negb Z.eqb].
  rewrite Z.eqb_refl. rewrite (proj2 (Z.ltb_ge _ _)) by lia. rewrite bind_mret.
  replace (Z.of_nat (length seg) - Z.of_nat hs) with (Z.of_nat (length data)) by lia.
  rewrite Nat2Z.id, Hd. erewrite bind_ret by (apply (page_write_ok _ _ _ _ _ pg); [done|lia..]).
  rewrite Nat2Z.id, firstn_all, bind_set_socket. cbn [sockets setf].
  set (a1 := a <| so_end := so_end a + Z.of_nat (length data) |>).
  rewrite (list_alter_to_insert _ _ _ a Ha), s32_small by lia. fold a1.
  assert (Hai : (ai < length (sockets s))%nat) by (by eapply lookup_lt_Some).
  rewrite (bind_get_socket ai a1) by (cbn [sockets setf]; by apply list_lookup_insert_eq).
  set (s1 := s <| kmem := _ |> <| sockets := _ |>).
  set (pt' := if bool_decide (so_state a = SOCKET_WAIT)
             then Proc.wakeup1_proc (ChPort port) <$> ptable s else ptable s).
  rewrite (bind_ret _ _ s1 tt (s1 <| ptable := pt' |>)).
  2:{ unfold pt'. change (so_state a1) with (so_state a). case_bool_decide.
      - exact (Proc.wakeup_ok (ChPort port) s1 Hpt).
      - done. }
  rewrite bind_set_socket. cbn [sockets setf]. set (s2 := s1 <| ptable := pt' |> <| sockets := _ |>).
  destruct (tcp_send_ack_ok ai (u32 (ack_sent (tcon a) + Z.of_nat (length data))) mac s2
    (upd_tcon (fun t => t <| seq_received := ack_sent (tcon a) |>) a1)) as (s3&seg'&Hs&Htx&Hseg).
  - subst s2 s1. cbn [sockets setf]. rewrite list_lookup_alter_eq, list_lookup_insert_eq by done. done.
  - exact Hr.
  - rewrite u32_idemp in Hs. eexists _, seg'. split; [exact Hs|].
    destruct (Ip.ip_tx_fields _ _ _ Htx) as (Hip'&_&_&_&Hk&Hp&_&_&_&_&_&_&Htr).
    assert (Hso : sockets s2 = <[ai := upd_tcon (fun t => t <| seq_received := ack_sent (tcon a) |>) a1]>
      (sockets s)).
    { subst s2 s1. cbn [sockets setf]. by rewrite (list_alter_to_insert _ _ _ a1 (list_lookup_insert_eq _ _ _ Hai)), !list_insert_insert_eq. }
    split_and!; [exact Hip'| |cbn [sockets setf]; by rewrite Hso, list_insert_insert_eq
      |cbn [kmem setf]; by rewrite Hk|cbn [ptable setf]; by rewrite Hp|exact Htr|by rewrite u32_idemp in Hseg].
    intros ip pt m HL. eapply (link_tx _ s s2 _ _ a _ _ _ _ (sockets s2) (kmem s2) pt'); [exact HL|exact Htx|reflexivity|..]; try done.
    rewrite Hso, list_insert_insert_eq. by apply list_lookup_insert_eq.
Qed.

(** A segment without flags whose header has no options. *)
Lemma segment_is_data ip myip sp dp sq ak data seg :
  segment_ok ip myip sp dp sq ak 0 TCP_HEADER_MIN_SIZE data seg -> data_segment seg data 20.
Proof.
  intros (Hsl&_&_&_&_&_&_&Hfl&Hof&Hdat). unfold TCP_HEADER_MIN_SIZE in Hsl.
  split_and!; [by rewrite Hfl|by rewrite Hof|lia|].
  rewrite take_ge in Hdat; [done|]. rewrite length_drop. lia.
Qed.

Lemma receive_out_of_order ai port seg data hs mac s a :
  sockets s !! ai = Some a -> reaches s (dst_addr (tcon a)) mac -> data_segment seg data hs ->
  ack_sent (tcon a) <> htonl (th_seq_num (tcp_hdr_of seg)) -> 0 <= ack_sent (tcon a) < 2 ^ 32 ->
  exists s' seg', receive_established ai port seg (Z.of_nat (length seg)) s = Ret tt s' /\
    sockets s' = sockets s /\ kmem s' = kmem s /\ ptable s' = ptable s /\
    EvTx (Ip.ip_frame s mac IP_PROTOCOL_TCP (MYIP s) (dst_addr (tcon a)) seg') ∈ trace s' /\
    segment_ok (MYIP s) (dst_addr (tcon a)) (so_port a) (dst_port (tcon a))
      (u32 (next_seq (tcon a) - 1)) (ack_sent (tcon a)) TCP_FLAG_ACK TCP_HEADER_MIN_SIZE [] seg'.
Proof.
  intros Ha Hr (Hf&Ho&Hl&Hd) Hseq Hack. unfold receive_established.
  rewrite (bind_get_socket ai a) by done. rewrite Hf. cbn [negb Z.eqb].
  rewrite (proj2 (Z.eqb_neq _ _) Hseq).
  destruct (tcp_send_ack_ok ai (ack_sent (tcon a)) mac s a) as (s1&seg'&Hs&Htx&Hseg); [done..|].
  rewrite (u32_small (ack_sent (tcon a))) in Hs, Hseg by done. eexists _, seg'. split; [exact Hs|].
  destruct (Ip.ip_tx_fields _ _ _ Htx) as (_&_&_&_&Hk&Hp&_&_&_&_&_&_&Htr).
  split_and!; [|done..]. cbn [sockets setf]. rewrite list_insert_id; [done|]. rewrite Ha.
  by destruct a as [????????[]].
Qed.

Lemma tcp_receive_active seg src s po ai :
  let n := Z.of_nat (length seg) in
  let port := htons (th_dst_port (tcp_hdr_of seg)) in
  (20 <= length seg)%nat -> checksum seg n (pseudo_ip_sum (MYIP s) src n) = Some 0 ->
  port < NPORTS -> port_at s port = Some po -> po_pid po <> -1 ->
  passive_socket po = None -> active_socket po = Some ai ->
  tcp_receive seg n src s = receive_active ai port seg n src s.
Proof.
  intros n port Hl Hc Hp Hpo Hpid Hps Has. unfold tcp_receive.
  rewrite (proj2 (Z.ltb_ge _ _)) by (unfold TCP_HEADER_MIN_SIZE; lia). rewrite bind_mret, bind_gets.
  fold n port. rewrite (bind_need 0) by done. cbn [negb Z.eqb].
  rewrite (proj2 (Z.leb_gt _ _)) by done. rewrite (bind_ret _ _ _ po s) by (by apply get_port_ok).
  by rewrite (proj2 (Z.eqb_neq _ _) Hpid), Hps, Has.
Qed.

(** A segment of the peer reaches [receive_established]. *)
Lemma tcp_receive_established s i a ip pt mac sq ak fl data seg :
  link s i a ip pt mac -> segment_ok ip (MYIP s) pt (so_port a) sq ak fl TCP_HEADER_MIN_SIZE data seg ->
  0 <= pt < NPORTS ->
  tcp_receive seg (Z.of_nat (length seg)) ip s =
  receive_established i (so_port a) seg (Z.of_nat (length seg)) s.
Proof.
  intros [Hs Hst Hda Hdp Hsp (po&Hpo&Hpid&Hps&Has) (_&_&_&_&Hip1&Hip2) _] Hseg Hpt.
  destruct Hseg as (Hl&_&Hck&Hsrc&Hdst&_). unfold TCP_HEADER_MIN_SIZE, NPORTS in *.
  rewrite u16_small in Hsrc, Hdst by lia.
  rewrite pseudo_ip_sum_comm in Hck by done.
  rewrite (tcp_receive_active _ _ _ po i); rewrite ?Hdst; [|first [done | unfold NPORTS; lia]..].
  unfold receive_active. rewrite (bind_get_socket i a) by done.
  rewrite Hda, Hdp, Hsrc, !Z.eqb_refl, Hst. done.
Qed.

(** An acknowledgement of everything sent empties the window. *)
Lemma receive_final_ack s i a ip pt mac sq ack wo :
  link s i a ip pt mac ->
  segment_ok ip (MYIP s) pt (so_port a) sq (next_seq (tcon a)) TCP_FLAG_ACK TCP_HEADER_MIN_SIZE [] ack ->
  win_ok i wo (tcon a) -> 0 <= pt < NPORTS ->
  exists w, tcp_receive ack (Z.of_nat (length ack)) ip s = Ret tt (acked i w (next_seq (tcon a)) s) /\
    win_ok i wo ((tcon a) <| window := w |> <| base_seq := next_seq (tcon a) |>) /\ Queue.repr w [].
Proof.
  intros HL Hseg Hw Hpt. rewrite (tcp_receive_established _ _ _ _ _ _ _ _ _ _ _ HL Hseg) by done.
  pose proof (link_socket _ _ _ _ _ _ HL) as Hs. pose proof (win_slot _ _ _ Hw) as [Hnx _].
  assert (Hle : base_seq (tcon a) <= next_seq (tcon a) < 2 ^ 32).
  { destruct Hw as (?&?&_&_&_&_&Hc&_&?&_). by apply contig_le in Hc. }
  destruct Hseg as (_&_&_&_&_&_&Hack&Hfl&_). rewrite u32_small in Hack by lia.
  destruct (ack_win_ok i wo (next_seq (tcon a)) s a) as (w&b&Hrun&Hw2&_&Hall); [done..|lia|].
  destruct Hall as [-> Hempty]; [done|]. exists w. split_and!; [|done..].
  unfold receive_established. rewrite (bind_get_socket i a) by done. rewrite Hfl, Hack.
  change (negb _) with true. cbv iota. by rewrite !(proj2 (Z.ltb_ge _ _)) by lia.
Qed.

(** The steps that move the send window of socket [si]: sending a segment on a
    window that is not full ([tcp_tx] checks), receiving an acknowledgement
    (any segment with the ACK flag), and a new call of [tcp_tx], which starts at
    slot 0 again, on a window that is empty. *)
Inductive win_step (si : nat) : kstate * nat -> kstate * nat -> Prop :=
| ws_send s s' wo a payload psize i mac :
    sockets s !! si = Some a -> Queue.isqueuefull (window (tcon a)) = Some false ->
    reaches s (dst_addr (tcon a)) mac -> bytes_ok payload ->
    0 <= chunk psize i <= 1460 -> chunk psize i <= Z.of_nat (length payload) ->
    next_seq (tcon a) + chunk psize i < 2 ^ 32 ->
    tx_segment si payload psize i wo s = Ret tt s' ->
    win_step si (s, wo) (s', (S wo mod 10)%nat)
| ws_ack s s' wo port seg size :
    Z.land (th_flags (tcp_hdr_of seg)) TCP_FLAG_ACK <> 0 ->
    receive_established si port seg size s = Ret tt s' -> win_step si (s, wo) (s', wo)
| ws_call s wo a :
    sockets s !! si = Some a -> Queue.isqueueempty (window (tcon a)) = true -> win_step si (s, wo) (s, 0%nat).

(** An empty window is sound for any next slot. *)
Lemma win_ok_restart i wo t : win_ok i wo t -> Queue.isqueueempty (window t) = true -> win_ok i 0 t.
Proof.
  intros (first&n&Hfi&Hn&Hwo&Hq&Hc&Hb0&Hnx&Hlp&Hsz) He. destruct n as [|n].
  - exists 0%nat, 0%nat. split_and!; try done; lia.
  - exfalso. by rewrite (Queue.repr_empty _ _ Hq) in He.
Qed.

(** The window of socket [si] is sound. *)
Definition window_ok (si : nat) (c : kstate * nat) : Prop :=
  exists a, sockets (fst c) !! si = Some a /\ win_ok si (snd c) (tcon a).

Lemma win_step_ok si c c' : window_ok si c -> win_step si c c' -> window_ok si c'.
Proof.
  intros (a&Ha&Hw) Hst. destruct Hst as [s s' wo a' payload psize i mac Ha' Hf Hr Hb Hc Hl Hs H
    |s s' wo port seg size Hfl H|s wo a' Ha' He]; cbn [fst snd] in *.
  - simplify_eq. destruct Hr as (Hn&Hh&Hk&Hm&Hi1&Hi2).
    destruct (tx_segment_ok si payload psize i wo mac s a) as (s1&a1&seg&H1&_&_&_&Hso&Hw1&_); try done.
    rewrite H1 in H. injection H as <-. exists a1. split; [|done]. cbn [fst]. rewrite Hso. apply list_lookup_insert_eq.
    by eapply lookup_lt_Some.
  - unfold receive_established in H. rewrite (bind_get_socket si a) in H by done.
    rewrite (proj2 (Z.eqb_neq _ _) Hfl) in H. cbn [negb] in H.
    destruct ((_ <? _) || (_ <? _)) eqn:Hr; [unfold mret, M_ret in H; simplify_eq; by exists a|].
    apply orb_false_iff in Hr as [H1%Z.ltb_ge H2%Z.ltb_ge].
    destruct (ack_win_ok si wo (htonl (th_ack_num (tcp_hdr_of seg))) s a)
      as (w&b&Hrun&Hw2&_); [done..|]. rewrite Hrun in H. injection H as <-.
    exists (upd_tcon (fun t => t <| window := w |> <| base_seq := b |>) a). split; [|exact Hw2].
    cbn. by rewrite list_lookup_alter_eq, Ha.
  - simplify_eq. exists a. split; [done|]. by eapply win_ok_restart.
Qed.

(** ** Properties *)


(** C19: from a connection whose window is sound (as [connect] and [accept] leave
    it), every sequence of segment transmissions (while sequence numbers stay
    below 2^32), acknowledgements with any acknowledgement number, and new calls
    of [tcp_tx] on an empty window, in any order, keeps it sound: the queue holds
    pointers to distinct slots of [pkts], in order, whose segments cover exactly
    the sequence numbers from [base_seq] to [next_seq], and [window_offset] is
    the slot after the last one, so no unacknowledged segment is overwritten.
    ([tcp_tx] starts at slot 0 again; it waits until [base_seq = next_seq], which
    leaves the window empty unless the last segment had no data, see
    [empty_segment_reused].) *)
Theorem tcp_window_invariant si c c' :
  window_ok si c -> rtc (win_step si) c c' -> window_ok si c'.
Proof. intros Hw Hr. induction Hr; eauto using win_step_ok. Qed.

(** an acknowledgement inside the window removes exactly the segments it
    covers: [base_seq] moves to a segment boundary at or below [ack], the first
    remaining segment, if any, ends above [ack], and acknowledging [next_seq]
    empties the window; an acknowledgement outside the window changes nothing. *)
Theorem tcp_ack_cumulative si wo port seg size s a :
  sockets s !! si = Some a -> win_ok si wo (tcon a) ->
  Z.land (th_flags (tcp_hdr_of seg)) TCP_FLAG_ACK <> 0 ->
  let ack := htonl (th_ack_num (tcp_hdr_of seg)) in
  if (ack <? base_seq (tcon a)) || (next_seq (tcon a) <? ack)
  then receive_established si port seg size s = Ret tt s
  else exists w b first n, receive_established si port seg size s = Ret tt (acked si w b s) /\
    Queue.repr w (slots si first n) /\ contig (pkts (tcon a)) first n b (next_seq (tcon a)) /\
    base_seq (tcon a) <= b <= ack /\ pending (pkts (tcon a)) first n ack b /\
    (ack = next_seq (tcon a) -> b = ack /\ n = 0%nat).
Proof.
  intros Ha Hw Hfl ack. unfold receive_established. rewrite (bind_get_socket si a) by done.
  rewrite (proj2 (Z.eqb_neq _ _) Hfl). cbn [negb]. fold ack.
  destruct (_ || _) eqn:Hr; [done|]. apply orb_false_iff in Hr as [H1%Z.ltb_ge H2%Z.ltb_ge].
  destruct Hw as (first&n&Hfi&Hn&Hwo&Hq&Hc&Hb0&Hnx&Hlp&Hsz).
  destruct (ack_loop_ok si ack (next_seq (tcon a)) n ack_fuel first s a)
    as (w&m&b&Hrun&Hm&Hw&Hc'&Hb&Hp); [done..|lia|done|unfold ack_fuel; lia|done|].
  exists w, b, ((first + m) mod 10)%nat, (n - m)%nat. split_and!; try done; [lia..|].
  intros Hall. destruct (n - m)%nat as [|k]; [split; [|done]; simpl in Hc'; lia|].
  destruct Hp as [?|(q&Hq'&Hlt)]; [done|]. destruct Hc' as (q'&Hq2&_&Hc2). simplify_eq.
  apply contig_le in Hc2. lia.
Qed.


(** segments that fail the checksum over pseudo header and segment, that are
    for a port outside the table or for a port nobody owns are dropped without
    any effect. *)
Theorem tcp_receive_drops seg size ip s c :
  (20 <= length seg)%nat -> checksum seg size (pseudo_ip_sum (MYIP s) ip size) = Some c ->
  let port := htons (th_dst_port (tcp_hdr_of seg)) in
  (c <> 0 \/ NPORTS <= port \/
   exists po, port_at s port = Some po /\
     (po_pid po = -1 \/ (active_socket po = None /\ passive_socket po = None))) ->
  tcp_receive seg size ip s = Ret tt s.
Proof.
  intros Hl Hc port Hd. unfold tcp_receive.
  rewrite (proj2 (Z.ltb_ge _ _)) by (unfold TCP_HEADER_MIN_SIZE; lia). rewrite bind_mret, bind_gets.
  fold port. rewrite (bind_need c) by done.
  destruct (Z.eqb_spec c 0) as [->|Hne]; [|done]. cbn [negb].
  destruct (Z.leb_spec NPORTS port) as [|Hp]; [done|].
  destruct Hd as [?|[?|(po&Hpo&Hpo')]]; [done|lia|].
  rewrite (bind_ret _ _ _ po s) by (by apply get_port_ok).
  destruct (Z.eqb_spec (po_pid po) (-1)) as [|Hpid]; [done|].
  destruct Hpo' as [?|[-> ->]]; done.
Qed.

(** the search for a free entry of [requests] is inverted: while no request
    is stored yet, the first SYN for a listening socket runs off the end of the
    table and writes [requests[MAX_PENDING_REQUESTS]]. *)
Theorem tcp_first_syn_overflows seg ip s po ps p :
  let n := Z.of_nat (length seg) in
  let port := htons (th_dst_port (tcp_hdr_of seg)) in
  (20 <= length seg)%nat -> checksum seg n (pseudo_ip_sum (MYIP s) ip n) = Some 0 ->
  port < NPORTS -> port_at s port = Some po -> po_pid po <> -1 -> passive_socket po = Some ps ->
  sockets s !! ps = Some p -> tc_state (tcon p) = TCP_LISTEN ->
  Z.land (th_flags (tcp_hdr_of seg)) TCP_FLAG_SYN <> 0 ->
  Queue.isqueuefull (waitqueue p) = Some false ->
  length (requests s) = MAX_PENDING_REQUESTS -> Forall (fun r => client_ip r = 0) (requests s) ->
  tcp_receive seg n ip s = Fault "requests[]".
Proof.
  intros n port Hl Hc Hp Hpo Hpid Hps Hs Hst Hfl Hq Hlen Hz. unfold tcp_receive.
  rewrite (proj2 (Z.ltb_ge _ _)) by (unfold TCP_HEADER_MIN_SIZE; lia). rewrite bind_mret, bind_gets.
  fold n port. rewrite (bind_need 0) by done. cbn [negb Z.eqb].
  rewrite (proj2 (Z.leb_gt _ _)) by done. rewrite (bind_ret _ _ _ po s) by (by apply get_port_ok).
  rewrite (proj2 (Z.eqb_neq _ _) Hpid), Hps, (bind_get_socket ps p) by done.
  rewrite Hst, (proj2 (Z.eqb_neq _ _) Hfl). cbn [negb]. rewrite (bind_need false) by done. cbn [negb].
  unfold receive_syn. rewrite bind_gets.
  rewrite (proj2 (find_index_None _ _)).
  - unfold need. by rewrite lookup_ge_None_2 by lia.
  - intros i r Hr. by rewrite (Forall_lookup_1 _ _ _ _ Hz Hr).
Qed.

(** [tcp_tx] does not advance the payload between segments: every segment
    carries the first bytes of the payload, so the second segment of a payload
    whose second [MSS] bytes differ from the first is not the data it should be. *)
Theorem tcp_second_segment_wrong si payload psize wo mac s a :
  sockets s !! si = Some a -> win_ok si wo (tcon a) ->
  Queue.isqueuefull (window (tcon a)) = Some false -> reaches s (dst_addr (tcon a)) mac ->
  bytes_ok payload -> psize = Z.of_nat (length payload) -> 2 * MSS <= psize < 2 ^ 31 ->
  next_seq (tcon a) + MSS < 2 ^ 32 ->
  take 1460 (drop 1460 payload) <> take 1460 payload ->
  exists s' seg, tx_segment si payload psize 1 wo s = Ret tt s' /\
    EvTx (Ip.ip_frame s mac IP_PROTOCOL_TCP (MYIP s) (dst_addr (tcon a)) seg) ∈ trace s' /\
    take 1460 (drop 20 seg) <> take 1460 (drop 1460 payload).
Proof.
  intros Ha Hw Hf (Hn&Hh&Hk&Hm&Hi1&Hi2) Hb Hps Hsz Hsq Hne.
  assert (Hc : chunk psize 1 = 1460).
  { unfold chunk. unfold MSS in *. assert (2 <= Z.quot psize 1460).
    { rewrite Z.quot_div_nonneg by lia. apply Z.div_le_lower_bound; lia. }
    by rewrite (proj2 (Z.eqb_neq _ _)) by lia. }
  destruct (tx_segment_ok si payload psize 1 wo mac s a) as (s'&a'&seg&Hrun&_&_&_&_&_&_&_&Htr&Hseg);
    rewrite ?Hc; try done; [unfold MSS in *; lia|].
  exists s', seg. split_and!; [done..|]. destruct Hseg as (_&_&_&_&_&_&_&_&_&Hdat).
  rewrite Hc in Hdat. change (Z.to_nat 1460) with 1460%nat in Hdat.
  rewrite length_take_le in Hdat by (unfold MSS in *; lia). rewrite Hdat. congruence.
Qed.

End WithStack.

(** ** Two connected hosts, for the witnesses *)
Definition zero_stack : Stack.
Proof.
  refine {| uninit n := replicate n 0 |}.
  - intros n. apply length_replicate.
  - intros n. apply Forall_replicate. unfold byte_ok. lia.
Defined.

Definition demo_socket (peer : Z) : socket :=
  zero_socket <| so_port := 1 |> <| so_state := SOCKET_CONNECTED |> <| so_buffer := 0x80200000 |>
    <| tcon := zero_tcon <| tc_state := TCP_ESTABLISHED |> <| dst_addr := peer |> <| dst_port := 1 |>
         <| window := Queue.initqueue zero_queue |> <| base_seq := 1 |> <| next_seq := 1 |>
         <| ack_sent := 1 |> |>.
Definition demo_host (me peer : Z) : kstate :=
  Ip.demo_ip <| MYIP := me |>
    <| arp_cache := [mkArpEntry peer [9; 8; 7; 6; 5; 4] 5000 USED] |>
    <| sockets := [demo_socket peer] |> <| ports := [zero_port; mkPort 1 (Some 0%nat) None] |>
    <| kmem := mkKmem 0x80100000 false 0 {[ 0x80200000 := zero_bytes 4096 ]} |>.

Lemma demo_window peer : win_ok 0 0 (tcon (demo_socket peer)).
Proof.
  exists 0%nat, 0%nat. split_and!; try done; try lia.
  - by apply (Queue.repr_initqueue zero_queue).
  - apply Forall_replicate. apply length_replicate.
Qed.

Lemma demo_link me peer : (me = 0xc0a80202 /\ peer = 0xc0a80205 \/ me = 0xc0a80205 /\ peer = 0xc0a80202) ->
  link (demo_host me peer) 0 (demo_socket peer) peer 1 [9; 8; 7; 6; 5; 4].
Proof.
  intros Hc. constructor; try done.
  - by eexists.
  - split_and!; destruct Hc as [[-> ->]|[-> ->]];
      first [done | apply not_elem_of_nil | split; done].
  - apply not_elem_of_nil.
Qed.


Lemma tcp_window_invariant_witness : exists s',
  rtc (win_step (stk := zero_stack) 0) (demo_host 0xc0a80202 0xc0a80205, 0%nat) (s', 1%nat) /\
  window_ok 0 (s', 1%nat).
Proof.
  destruct (tx_segment_ok (stk := zero_stack) 0 [1; 2; 3] 3 0 0 [9; 8; 7; 6; 5; 4]
    (demo_host 0xc0a80202 0xc0a80205) (demo_socket 0xc0a80205)) as (s'&a'&seg&H1&_).
  - reflexivity.
  - apply demo_window.
  - reflexivity.
  - split; reflexivity.
  - apply not_elem_of_nil.
  - reflexivity.
  - reflexivity.
  - repeat constructor; lia.
  - split; [vm_compute; discriminate|reflexivity].
  - split; [vm_compute; discriminate|reflexivity].
  - vm_compute; split; discriminate.
  - vm_compute; discriminate.
  - reflexivity.
  - assert (Hr : rtc (win_step (stk := zero_stack) 0) (demo_host 0xc0a80202 0xc0a80205, 0%nat) (s', 1%nat)).
    { eapply rtc_once, (ws_send 0 _ _ 0 (demo_socket 0xc0a80205) [1; 2; 3] 3 0 [9; 8; 7; 6; 5; 4]);
        [reflexivity|reflexivity|exact (link_reaches _ _ _ _ _ _ (demo_link 0xc0a80202 0xc0a80205
          (or_introl (conj eq_refl eq_refl))))|repeat constructor; lia|vm_compute; split; discriminate
        |vm_compute; discriminate|reflexivity|exact H1]. }
    exists s'. split; [exact Hr|].
    apply (tcp_window_invariant (stk := zero_stack) 0 (demo_host 0xc0a80202 0xc0a80205, 0%nat) (s', 1%nat));
      [|exact Hr].
    exists (demo_socket 0xc0a80205). split; [reflexivity|apply demo_window].
Defined.

(** Two calls of [tcp_tx] whose last segment has no data: the second one reuses
    slot 0 while the first segment is still queued there. *)
Example empty_segment_reused : exists s1 s2,
  tcp_tx (stk := zero_stack) 3 0 [] 0 (demo_host 0xc0a80202 0xc0a80205) = Ret tt s1 /\
  tcp_tx (stk := zero_stack) 3 0 [] 0 s1 = Ret tt s2 /\
  (fun a => let q := window (tcon a) in (front q, rear q, take 2 (A q))) <$> sockets s2 !! 0%nat = Some (0, 1, [VPkt 0 0; VPkt 0 0]).
Proof. eexists _, _. split; [vm_compute; reflexivity|]. split; [vm_compute; reflexivity|]. vm_compute. reflexivity. Qed.

(** A pure acknowledgement of sequence number 1 for port 1. *)
Definition demo_ack : list Z :=
  tcp_hdr_bytes (mkTcpHdr (htons 1) (htons 1) 0 (htonl 1) 0x50 TCP_FLAG_ACK 0 0 0).

Lemma tcp_ack_cumulative_witness : exists w b,
  receive_established (stk := zero_stack) 0 1 demo_ack 20 (demo_host 0xc0a80202 0xc0a80205) =
    Ret tt (acked 0 w b (demo_host 0xc0a80202 0xc0a80205)) /\ b = 1.
Proof.
  assert (Hfl : Z.land (th_flags (tcp_hdr_of demo_ack)) TCP_FLAG_ACK <> 0) by (vm_compute; discriminate).
  pose proof (tcp_ack_cumulative (stk := zero_stack) 0 0 1 demo_ack 20
    (demo_host 0xc0a80202 0xc0a80205) (demo_socket 0xc0a80205) eq_refl (demo_window _) Hfl) as H.
  cbv zeta in H.
  match type of H with if ?c then _ else _ => replace c with false in H by (vm_compute; reflexivity) end.
  destruct H as (w&b&_&n&H1&_&_&_&_&H2). exists w, b. split; [exact H1|].
  assert (Hack : htonl (th_ack_num (tcp_hdr_of demo_ack)) = 1) by (vm_compute; reflexivity).
  rewrite Hack in H2. exact (proj1 (H2 eq_refl)).
Defined.


Lemma tcp_receive_drops_witness :
  tcp_receive (stk := zero_stack) demo_ack 20 0xc0a80205 (demo_host 0xc0a80202 0xc0a80205)
  = Ret tt (demo_host 0xc0a80202 0xc0a80205).
Proof.
  apply (tcp_receive_drops (stk := zero_stack) demo_ack 20 0xc0a80205 (demo_host 0xc0a80202 0xc0a80205)
    19799); [simpl; lia|vm_compute; reflexivity|left; discriminate].
Defined.

(** A SYN for the listening socket on port 1. *)
Definition demo_listener : kstate :=
  (demo_host 0xc0a80202 0xc0a80205)
    <| sockets := [zero_socket <| waitqueue := Queue.initqueue zero_queue |>
                     <| tcon := zero_tcon <| tc_state := TCP_LISTEN |> |>] |>
    <| ports := [zero_port; mkPort 1 None (Some 0%nat)] |>
    <| requests := replicate MAX_PENDING_REQUESTS zero_request |>.
Definition demo_syn : list Z :=
  tcp_hdr_bytes (mkTcpHdr (htons 1) (htons 1) 0 0 0x50 TCP_FLAG_SYN 0 23639 0).

Lemma tcp_first_syn_overflows_witness :
  tcp_receive (stk := zero_stack) demo_syn 20 0xc0a80205 demo_listener = Fault "requests[]".
Proof.
  apply (tcp_first_syn_overflows (stk := zero_stack) demo_syn 0xc0a80205 demo_listener
    (mkPort 1 None (Some 0%nat)) 0 (zero_socket <| waitqueue := Queue.initqueue zero_queue |>
                     <| tcon := zero_tcon <| tc_state := TCP_LISTEN |> |>)).
  - simpl; lia.
  - vm_compute; reflexivity.
  - reflexivity.
  - reflexivity.
  - discriminate.
  - reflexivity.
  - reflexivity.
  - reflexivity.
  - vm_compute; discriminate.
  - reflexivity.
  - reflexivity.
  - repeat constructor.
Defined.

Definition demo_payload : list Z := replicate 1460 1 ++ replicate 1460 2.

Lemma tcp_second_segment_wrong_witness : exists s' seg,
  tx_segment (stk := zero_stack) 0 demo_payload 2920 1 0 (demo_host 0xc0a80202 0xc0a80205) = Ret tt s' /\
  take 1460 (drop 20 seg) <> take 1460 (drop 1460 demo_payload).
Proof.
  destruct (tcp_second_segment_wrong (stk := zero_stack) 0 demo_payload 2920 0 [9; 8; 7; 6; 5; 4]
    (demo_host 0xc0a80202 0xc0a80205) (demo_socket 0xc0a80205)) as (s'&seg&H1&_&H2).
  - reflexivity.
  - apply demo_window.
  - reflexivity.
  - exact (link_reaches _ _ _ _ _ _ (demo_link 0xc0a80202 0xc0a80205 (or_introl (conj eq_refl eq_refl)))).
  - apply Forall_app; split; apply Forall_replicate; split; [lia|reflexivity|lia|reflexivity].
  - vm_compute; reflexivity.
  - vm_compute; split; [discriminate|reflexivity].
  - reflexivity.
  - vm_compute; discriminate.
  - exists s', seg. split; [exact H1|exact H2].
Defined.

End Tcp.
