(* ===== verification/Receive.v ===== *)
(** * Receive: from the interrupt to the protocols (rtl8139.c, ether.c, ip.c)

    The upward path: [nicintr] and [rtl8139_receive] take frames from the ring,
    [ether_receive] dispatches on the type, [ip_receive] validates the header,
    learns the sender's MAC address and dispatches on the protocol.  The
    theorems connect both directions: what [ip_send] of one host puts on the
    wire reaches the right protocol of another with the same payload, and an
    echo request comes back as the reply [ping] waits for. *)
From S2P Require Import Prelude NetUtils Queue KState Kalloc Proc Nic Ether Arp Ip Icmp Tcp.
Import NetUtils.

Module Receive.

Section WithStack.
Context {stk : Stack}.

(** ** ip.c *)

(** The bytes of a C string in [b], up to its NUL. *)
Fixpoint c_string (b : list Z) : list Z :=
  match b with [] => [] | c :: b' => if c =? 0 then [] else c :: c_string b' end.

(** [rx_mac] is the memory the pointer points into. *)
Definition ip_receive (ip_dgram : list Z) (dsize : Z) (rx_mac : list Z) : M unit :=
  let h := ip_header_of ip_dgram in
  let transport_payload := drop 20 ip_dgram in
  if Z.of_nat (length ip_dgram) <? IP_HDR_SIZE then fault "ip_receive: ip_dgram" else
  if negb (Z.shiftr (version_ihl h) 4 =? IP_VERSION_4) then cprintf "Not an IPv4 packet.
"
  else if ttl h =? 0 then cprintf "Received IP packet was dead with TTL=0.
"
  else
    c ← need (checksum ip_dgram IP_HDR_SIZE 0) "ip_receive: checksum";
    if negb (c =? 0) then cprintf "Invalid checksum
"
    else
      s ← gets id;
      (if Z.land (htonl (ih_src_ip h)) (GATEWAY s) =? Z.land (MYIP s) (GATEWAY s)
       then Arp.arp_add (htonl (ih_src_ip h)) rx_mac else mret tt) ;;
      if protocol h =? IP_PROTOCOL_ICMP then
        Icmp.icmp_receive transport_payload (htons (tlen h) - IP_HDR_SIZE) (htonl (ih_src_ip h))
      else if protocol h =? IP_PROTOCOL_TCP then
        Tcp.tcp_receive transport_payload (htons (tlen h) - IP_HDR_SIZE) (htonl (ih_src_ip h))
      else
        (if dsize - IP_HDR_SIZE + 1 <=? 0 then fault "ip_receive: buf" else mret tt) ;;
        buf ← memmove (zero_bytes (dsize - IP_HDR_SIZE + 1)) 0 transport_payload (dsize - IP_HDR_SIZE)
          "ip_receive: buf";
        emit (EvPrint (chars "message = " ++ c_string buf ++ [10])).

(** ** ether.c *)
Definition ether_receive (eth_frame : list Z) (pkt_size : Z) : M unit :=
  let header := ether_hdr_of eth_frame in
  let payload := drop 14 eth_frame in
  if Z.of_nat (length eth_frame) <? ETHERNET_HDR_SIZE then fault "ether_receive: eth_frame" else
  let type := htons (eth_type header) in
  if type =? ETHERNET_TYPE_IP then ip_receive payload (pkt_size - ETHERNET_HDR_SIZE) (eth_src header)
  else if type =? ETHERNET_TYPE_ARP then Arp.arp_receive payload
  else mret tt.

(** ** rtl8139.c *)
Section WithMachine.
Context {mach : Machine}.

Definition upd_nic (f : nic_t -> nic_t) : M unit := modify (fun s => s <| nic := f (nic s) |>).

(** The new value of [cur_rx] after a packet of [rx_size] bytes. *)
Definition next_rx (cur rx_size : Z) : Z := Z.land (u32 (cur + rx_size + 4 + 3)) Nic.RX_READ_POINTER_MASK.

Definition rtl8139_receive : M Z :=
  c ← Nic.reg_read Cmd;
  let tmpCmd := u8 c in
  upd_nic (fun n => n <| cur_rx := cur_rx n `mod` Nic.RX_BUF_LEN |>) ;;
  n ← gets nic;
  let cur := cur_rx n in
  (if Z.of_nat (length (rx_ring n)) <? cur + 4 then fault "rx_ring" else mret tt) ;;
  let rx_status := get32 (rx_ring n) (Z.to_nat cur) in
  let rx_size := Z.shiftr rx_status 16 in
  let pkt_length := u32 (rx_size - 4) in
  (if negb (Nic.test tmpCmd Nic.RxBufEmpty) then
     if negb (Nic.rtl8139_packetOK rx_status rx_size pkt_length =? 0) then
       (if Nic.RX_BUF_LEN <? u32 (cur + pkt_length) then
          r ← memmove (rx_ring n) 0 (drop (Z.to_nat Nic.RX_BUF_LEN) (rx_ring n))
                (u32 (cur + pkt_length - Nic.RX_BUF_LEN)) "rx_ring wrap";
          upd_nic (fun n => n <| rx_ring := r |>)
        else mret tt) ;;
       upd_nic (fun n => n <| cur_rx := next_rx cur rx_size |>) ;;
       Nic.reg_write CurAddrPacket (u16 (next_rx cur rx_size - 0x10)) ;;
       upd_nic (fun n => n <| packets_received_good := u8 (packets_received_good n + 1) |>
         <| byte_received := u8 (byte_received n + pkt_length) |>) ;;
       ring ← gets (fun s => rx_ring (nic s));
       ether_receive (drop (Z.to_nat (cur + 4)) ring) (s32 pkt_length)
     else
       Nic.reg_write Cmd (Z.lor (Z.lor tmpCmd Nic.CmdTxEnb) Nic.CmdRxEnb) ;;
       upd_nic (fun n => n <| cur_rx := next_rx 0 rx_size |>) ;;
       Nic.reg_write CurAddrPacket (u16 (next_rx 0 rx_size - 0x10))
   else mret tt) ;;
  mret 1.

(** One turn of [while(status)] in [nicintr]; [status] shrinks to the bit
    handled, as in the code, so at most one branch runs. *)
Definition nicintr_turn (status : Z) : M Z :=
  let tx := Nic.test status Nic.TxOK in
  let status := if tx then Z.land status Nic.TxOK else status in
  (if tx then
     Nic.reg_write ISR (u16 status) ;;
     upd_nic (fun n => n <| cur_tx := u32 (cur_tx n + 1) `mod` Nic.NUM_TX_DESC |>)
   else mret tt) ;;
  let te := Nic.test status Nic.TxErr in
  let status := if te then Z.land status Nic.TxErr else status in
  (if te then Nic.reg_write ISR (u16 status) ;; Nic.rtl8139_reset else mret tt) ;;
  let rx := Nic.test status Nic.RxOK in
  let status := if rx then Z.land status Nic.RxOK else status in
  (if rx then rtl8139_receive ;; Nic.reg_write ISR (u16 status) else mret tt) ;;
  let re := Nic.test status Nic.RxErr in
  let status := if re then Z.land status Nic.RxErr else status in
  (if re then Nic.reg_write ISR (u16 status) ;; Nic.rtl8139_reset else mret tt) ;;
  v ← Nic.reg_read ISR;
  mret (u16 v).

Fixpoint nicintr_loop (fuel : nat) (status : Z) : M unit :=
  match fuel with
  | O => fault "nicintr: fuel"
  | S fuel' => if status =? 0 then mret tt else st ← nicintr_turn status; nicintr_loop fuel' st
  end.
Definition nicintr (fuel : nat) : M unit :=
  v ← Nic.reg_read ISR;
  nicintr_loop fuel (u16 v).

End WithMachine.

(** ** Specification *)

(** Whether [ip_receive] learns the sender's address. *)
Definition learns (s : kstate) (ip : Z) : bool :=
  Z.land ip (GATEWAY s) =? Z.land (MYIP s) (GATEWAY s).

(** The state after learning: the cache has the pair. *)
Definition learned (ip : Z) (mac : list Z) (s : kstate) : kstate :=
  if learns s ip then
    match find_index (Arp.found (ticks s) ip) (arp_cache s), Arp.add_slot (ticks s) ip (arp_cache s) with
    | None, Some i => Arp.added i ip mac s
    | _, _ => s
    end
  else s.

(** No lock that learning needs is held, and the cache has a place. *)
Definition can_learn (s : kstate) (ip : Z) : Prop :=
  LkArp ∉ held s /\ LkPtable ∉ held s /\
  (find_index (Arp.found (ticks s) ip) (arp_cache s) = None ->
   exists i, Arp.add_slot (ticks s) ip (arp_cache s) = Some i).

(** The protocol a datagram is handed to. *)
Definition deliver (proto : Z) (seg : list Z) (size src : Z) : M unit :=
  if proto =? IP_PROTOCOL_ICMP then Icmp.icmp_receive seg size src
  else Tcp.tcp_receive seg size src.

(** ** Lemmas *)
Lemma learn_ok ip mac s : can_learn s ip -> (6 <= length mac)%nat ->
  (if learns s ip then Arp.arp_add ip mac else mret tt) s = Ret tt (learned ip mac s).
Proof.
  intros (Ha&Hp&Hs) Hm. unfold learned. destruct (learns s ip); [|done].
  rewrite Arp.arp_add_ok by done. destruct (find_index _ _); [done|].
  destruct Hs as [i ->]; done.
Qed.

Lemma learned_fields ip mac s :
  MYIP (learned ip mac s) = MYIP s /\ NETMASK (learned ip mac s) = NETMASK s /\
  GATEWAY (learned ip mac s) = GATEWAY s /\ MAC (learned ip mac s) = MAC s /\
  nic (learned ip mac s) = nic s /\ held (learned ip mac s) = held s /\
  ticks (learned ip mac s) = ticks s /\ trace (learned ip mac s) = trace s /\
  ip_id (learned ip mac s) = ip_id s.
Proof. unfold learned. repeat case_match; done. Qed.

Lemma ether_hdr_of_bytes dst src t tl : length dst = 6%nat -> length src = 6%nat ->
  ether_hdr_of (ether_hdr_bytes (mkEtherHdr dst src (htons t)) ++ tl) = mkEtherHdr dst src (htons t).
Proof.
  intros Hd Hs. unfold ether_hdr_bytes, ether_hdr_of; cbn [eth_dst eth_src eth_type]. f_equal.
  - rewrite <- !app_assoc. by apply take_app_length'.
  - rewrite <- !app_assoc, drop_app_length' by done. by apply take_app_length'.
  - rewrite <- !app_assoc, app_assoc.
    replace 12%nat with (length (dst ++ src) + 0)%nat by (rewrite length_app; lia).
    by rewrite get16_app_r, get16_le16, u16_small by apply htons_range.
Qed.

(** The layers of a frame: link header, IP header, payload, padding. *)
Lemma ip_frame_shape s mac proto src dst payload : exists pad,
  Ip.ip_frame s mac proto src dst payload =
  ether_hdr_bytes (mkEtherHdr mac (MAC s) (htons ETHERNET_TYPE_IP)) ++
  ip_header_bytes (Ip.sent_header proto (ip_id s) src dst (Z.of_nat (length payload))) ++ payload ++ pad.
Proof.
  unfold Ip.ip_frame, Ether.frame_of, Nic.padded, Ip.datagram. rewrite <- !app_assoc. eauto.
Qed.

(** [ip_receive] of a datagram that [ip_send] built. *)
Lemma ip_receive_ok proto id src dst payload tl n mac s :
  proto = IP_PROTOCOL_ICMP \/ proto = IP_PROTOCOL_TCP -> 0 <= src < 2 ^ 32 ->
  (length payload <= 1480)%nat -> (6 <= length mac)%nat -> can_learn s src ->
  ip_receive (ip_header_bytes (Ip.sent_header proto id src dst (Z.of_nat (length payload))) ++
    payload ++ tl) n mac s =
  deliver proto (payload ++ tl) (Z.of_nat (length payload)) src (learned src mac s).
Proof.
  intros Hpr Hsrc Hp Hmac Hl. set (d := ip_header_bytes _ ++ _). unfold ip_receive.
  assert (Hd : drop 20 d = payload ++ tl) by (by apply drop_app_length').
  assert (Hlen : Z.of_nat (length d) <? IP_HDR_SIZE = false).
  { subst d. rewrite length_app, Ip.length_ip_header. apply Z.ltb_ge. unfold IP_HDR_SIZE. lia. }
  assert (Hck : checksum d IP_HDR_SIZE 0 = Some 0) by apply Ip.sent_header_verifies.
  assert (Hh : ip_header_of d = _) by apply Ip.ip_header_roundtrip.
  cbn [version_ihl tos tlen ih_id flags_offset ttl protocol ih_checksum ih_src_ip ih_dst_ip
    Ip.sent_header Ip.ip_hdr setf] in Hh.
  rewrite Hd, Hlen, Hh. clearbody d. clear Hh.
  cbn [version_ihl ttl protocol tlen ih_src_ip].
  change (negb (Z.shiftr (u8 _) 4 =? IP_VERSION_4)) with false.
  change (u8 INITIAL_TTL =? 0) with false. cbv iota.
  rewrite (bind_need 0) by done. change (negb (0 =? 0)) with false. cbv iota.
  rewrite (u32_small (htonl src)), htonl_htonl, (u32_small src) by first [apply htonl_range|lia].
  rewrite bind_gets. change (Z.land src _ =? _) with (learns s src).
  erewrite bind_ret by (by apply learn_ok).
  rewrite (u16_small (htons _)), htons_htons, u16_small by first [apply htons_range|unfold IP_HDR_SIZE; lia].
  replace (_ + Z.of_nat (length payload) - IP_HDR_SIZE) with (Z.of_nat (length payload)) by lia.
  by destruct Hpr as [->| ->].
Qed.

(** A frame that [ip_send] put on the wire, received with whatever follows it
    in memory. *)
Lemma ether_receive_ok a mac proto src dst payload : length (MAC a) = 6%nat -> length mac = 6%nat ->
  proto = IP_PROTOCOL_ICMP \/ proto = IP_PROTOCOL_TCP -> 0 <= src < 2 ^ 32 ->
  (length payload <= 1480)%nat ->
  exists pad, forall rest n s, can_learn s src ->
  ether_receive (Ip.ip_frame a mac proto src dst payload ++ rest) n s =
  deliver proto (payload ++ pad ++ rest) (Z.of_nat (length payload)) src (learned src (MAC a) s).
Proof.
  intros Ha Hm Hpr Hsrc Hp. destruct (ip_frame_shape a mac proto src dst payload) as [pad ->].
  exists pad. intros rest n s Hl. rewrite <- !app_assoc. unfold ether_receive.
  rewrite ether_hdr_of_bytes by done. cbn [eth_type eth_src].
  rewrite drop_app_length' by (by rewrite Ether.length_ether_hdr).
  rewrite (proj2 (Z.ltb_ge _ _))
    by (rewrite length_app, Ether.length_ether_hdr by done; unfold ETHERNET_HDR_SIZE; lia).
  rewrite htons_htons. change (u16 ETHERNET_TYPE_IP =? ETHERNET_TYPE_IP) with true. cbv iota.
  apply ip_receive_ok; try done. lia.
Qed.

(** After learning a neighbour's address, a datagram to it is sent to its MAC
    address at once. *)
Lemma learned_known ip mac s : can_learn s ip -> learns s ip = true ->
  find_index (Arp.found (ticks s) ip) (arp_cache s) = None ->
  Arp.arp_unique (ticks s) (arp_cache s) -> Arp.next_hop s ip = ip -> ip <> 0xffffffff ->
  length mac = 6%nat -> 0 <= ticks s -> ticks s + Arp.ARP_TTL_TICKS < 2 ^ 32 ->
  Ip.known_mac (learned ip mac s) ip = Some mac.
Proof.
  intros (_&_&Hs) Hl Hf Hu Hh Hne Hm Ht Htt. destruct (Hs Hf) as [i Hi].
  assert (Hld : learned ip mac s = Arp.added i ip mac s) by (unfold learned; by rewrite Hl, Hf, Hi).
  destruct (Arp.added_found ip mac s i (ticks s)) as (e&He&Hmac&Hfi);
    [done..|lia|unfold Arp.ARP_TTL_TICKS in *; lia|].
  unfold Ip.known_mac. rewrite (proj2 (Z.eqb_neq _ _) Hne), Hld.
  change (Arp.next_hop (Arp.added i ip mac s) ip) with (Arp.next_hop s ip). rewrite Hh.
  change (ticks (Arp.added i ip mac s)) with (ticks s). rewrite Hfi. cbn [mbind option_bind].
  rewrite He. cbn. by rewrite Hmac, firstn_all2 by lia.
Qed.

(** An echo request is answered; its answer is recorded. *)
Lemma icmp_hdr_app m tl : (8 <= length m)%nat -> icmp_hdr_of (m ++ tl) = icmp_hdr_of m.
Proof. intros H. do 8 (destruct m as [|? m]; [simpl in H; lia|]). done. Qed.

Lemma request_header seq :
  ic_type (icmp_hdr_of (Icmp.request_of seq)) = ICMP_TYPE_ECHO /\
  htons (ic_seq (icmp_hdr_of (Icmp.request_of seq))) = u16 seq.
Proof.
  unfold Icmp.request_of, Icmp.summed.
  generalize (65535 - oc_sum (total (Icmp.unsummed (Icmp.echo_request seq)))). intros c.
  split; [done|].
  transitivity (htons (u16 (htons (u16 seq)))); [f_equal; exact (get16_le16 (htons (u16 seq)) [])|].
  rewrite u16_small by apply htons_range. by rewrite htons_htons, u16_small by apply u16_range.
Qed.

Lemma length_request seq : length (Icmp.request_of seq) = 64%nat.
Proof.
  unfold Icmp.request_of. by rewrite Icmp.length_summed; rewrite Icmp.length_echo_request; [|lia].
Qed.

Lemma icmp_receive_request m tl n src s : (8 <= length m)%nat ->
  ic_type (icmp_hdr_of m) = ICMP_TYPE_ECHO ->
  Icmp.icmp_receive (m ++ tl) n src s = Icmp.icmp_send_echo_reply (m ++ tl) n src s.
Proof.
  intros Hl Ht. unfold Icmp.icmp_receive. rewrite icmp_hdr_app, Ht by done.
  by rewrite (proj2 (Z.ltb_ge _ _)) by (rewrite length_app; unfold ICMP_HDR_SIZE; lia).
Qed.

Lemma icmp_receive_reply m tl n src s : (8 <= length m)%nat ->
  ic_type (icmp_hdr_of m) = ICMP_TYPE_ECHOREPLY ->
  Icmp.icmp_receive (m ++ tl) n src s = Ret tt (s <| icmp_echo_reply_received := 1 |>
    <| icmp_reply_pkt_info := mkIcmpReply n src (htons (ic_seq (icmp_hdr_of m))) |>).
Proof.
  intros Hl Ht. unfold Icmp.icmp_receive. rewrite icmp_hdr_app, Ht by done.
  by rewrite (proj2 (Z.ltb_ge _ _)) by (rewrite length_app; unfold ICMP_HDR_SIZE; lia).
Qed.

(** The header checksum notices a changed header byte. *)
Lemma ip_header_corrupt d i x y : bytes_ok d -> checksum d IP_HDR_SIZE 0 = Some 0 ->
  (20 <= length d)%nat -> (i < 20)%nat -> d !! i = Some x -> byte_ok y -> y <> x ->
  exists c, checksum (<[i := y]> d) IP_HDR_SIZE 0 = Some c /\ c <> 0.
Proof.
  intros Hb Hc Hl Hi Hx Hy Hne. assert (Hl20 : length (take 20 d) = 20%nat) by (rewrite length_take; lia).
  assert (Hpre : forall e, length e = 20%nat ->
    checksum (e ++ drop 20 d) IP_HDR_SIZE 0 = checksum e IP_HDR_SIZE 0).
  { intros e He. change IP_HDR_SIZE with (Z.of_nat 20). rewrite <- He. apply checksum_app. }
  rewrite <- (take_drop 20 d) in Hc, Hx |- *. rewrite insert_app_l by lia.
  rewrite Hpre in Hc |- * by (by rewrite ?length_insert). rewrite lookup_app_l in Hx by lia.
  pose proof (checksum_detects (take 20 d) i x y) as Hdet. rewrite Hl20 in Hdet.
  apply Hdet; try done. by apply Forall_take.
Qed.

(** The word the controller puts before a packet. *)
Lemma ring_header ring cur len st tl :
  drop (Z.to_nat cur) ring = le32 (Z.shiftl (len + 4) 16 + st) ++ tl ->
  0 <= cur -> 60 <= len <= 1514 -> 0 <= st < 2 ^ 16 ->
  get32 ring (Z.to_nat cur) = Z.shiftl (len + 4) 16 + st /\
  Z.shiftr (Z.shiftl (len + 4) 16 + st) 16 = len + 4 /\
  cur + 4 <= Z.of_nat (length ring) /\ drop (Z.to_nat (cur + 4)) ring = tl.
Proof.
  intros Hd Hc Hl Hst. rewrite Z.shiftl_mul_pow2, Z.shiftr_div_pow2 by lia.
  rewrite Z.shiftl_mul_pow2 in Hd by lia.
  assert (Hlen : (Z.to_nat cur + 4 <= length ring)%nat).
  { apply (f_equal length) in Hd. rewrite length_drop, length_app in Hd. simpl in Hd. lia. }
  split_and!; [|zlia|lia|].
  - rewrite <- (take_drop (Z.to_nat cur) ring) at 1. rewrite Hd.
    replace (Z.to_nat cur) with (length (take (Z.to_nat cur) ring) + 0)%nat at 2
      by (rewrite length_take; lia).
    rewrite get32_app_r, get32_le32, u32_small by (widths; lia). done.
  - replace (Z.to_nat (cur + 4)) with (Z.to_nat cur + 4)%nat by lia.
    by rewrite <- drop_drop, Hd.
Qed.

Lemma packet_ok len st : 60 <= len <= 1514 -> 0 <= st < 2 ^ 16 -> Z.land st 31 = Nic.ROK ->
  Nic.rtl8139_packetOK (Z.shiftl (len + 4) 16 + st) (len + 4) len = 1.
Proof.
  intros Hl Hst Hok. set (w := _ + st).
  assert (Hw : Z.land w 31 = 1).
  { change 31 with (Z.ones 5) in *. unfold w. rewrite Z.land_ones, Z.shiftl_mul_pow2 by lia.
    rewrite Z.land_ones in Hok by lia. change Nic.ROK with 1 in Hok. zlia. }
  assert (Ht : forall m, Z.land 31 m = m -> Z.land w m = Z.land 1 m).
  { intros m Hm. by rewrite <- Hm, Z.land_assoc, Hw at 1. }
  unfold Nic.rtl8139_packetOK, Nic.test. rewrite !Ht by done. cbn.
  unfold Nic.RX_MAX_PKT_LENGTH, Nic.RX_MIN_PKT_LENGTH.
  by rewrite (proj2 (Z.ltb_ge _ _)), (proj2 (Z.ltb_ge _ _)) by lia.
Qed.

Lemma next_rx_spec cur len : 0 <= cur < 8192 -> 60 <= len <= 1514 ->
  next_rx cur (len + 4) `mod` 4 = 0 /\
  cur + 4 + len + 4 <= next_rx cur (len + 4) < cur + 4 + len + 4 + 4.
Proof.
  intros Hc Hl. unfold next_rx, Nic.RX_READ_POINTER_MASK. rewrite u32_small by (widths; lia).
  rewrite <- Z.ldiff_land. change 3 with (Z.ones 2) at 2 4 6.
  rewrite Z.ldiff_ones_r, Z.shiftl_mul_pow2, Z.shiftr_div_pow2 by lia. zlia.
Qed.

(** ** Properties *)

(** end to end: what one host hands to [ip_send] for ICMP or TCP, sent to a
    known MAC address, makes the host that gets the frame call the matching
    protocol with the same payload, its exact length and the sender's address,
    after learning the sender's MAC address, whatever link padding and stale
    memory follow the payload. *)
Theorem datagram_end_to_end proto payload rest src dst mac a :
  Arp.nic_ok a -> LkArp ∉ held a -> (length payload <= 1480)%nat ->
  Ip.known_mac a dst = Some mac -> length mac = 6%nat ->
  proto = IP_PROTOCOL_ICMP \/ proto = IP_PROTOCOL_TCP -> 0 <= src < 2 ^ 32 ->
  exists a' frame,
    Ip.ip_send proto (payload ++ rest) src dst (Z.of_nat (length payload)) a = Ret tt a' /\
    Ip.ip_tx frame a a' /\
    exists pad, forall stale n b, can_learn b src ->
      ether_receive (frame ++ stale) n b =
      deliver proto (payload ++ pad ++ stale) (Z.of_nat (length payload)) src
        (learned src (MAC a) b).
Proof.
  intros Hn Hh Hp Hk Hm Hpr Hs.
  destruct (Ip.ip_send_known proto payload rest src dst mac a) as (a'&Ha&Htx); [done..|].
  exists a', (Ip.ip_frame a mac proto src dst payload). split_and!; [done..|].
  destruct Hn. by apply ether_receive_ok.
Qed.

(** Host [b] has the address of [ip] when it answers: it is cached already, or
    the test of [ip_receive] lets it be learnt from the request (the test masks
    with the gateway's address, so that it fails for some hosts of the link, see
    [ping_unlearned_panics]) and its entry will not expire across a wrap of
    [ticks]. *)
Definition answers (b : kstate) (ip : Z) (mac : list Z) : Prop :=
  Ip.known_mac b ip = Some mac \/
  (learns b ip = true /\ find_index (Arp.found (ticks b) ip) (arp_cache b) = None /\
   Arp.arp_unique (ticks b) (arp_cache b) /\ 0 <= ticks b /\ ticks b + Arp.ARP_TTL_TICKS < 2 ^ 32).

Lemma answers_known b ip mac : can_learn b ip -> answers b ip mac -> Arp.next_hop b ip = ip -> ip <> 0xffffffff ->
  length mac = 6%nat -> Ip.known_mac (learned ip mac b) ip = Some mac.
Proof.
  intros Hc [Hk|(Hl&Hf&Hu&Ht&Htt)] Hh Hne Hm; [|by apply learned_known].
  replace (learned ip mac b) with b; [done|]. unfold Ip.known_mac in Hk. rewrite (proj2 (Z.eqb_neq _ _) Hne), Hh in Hk. unfold learned.
  destruct (learns b ip); [|done]. by destruct (find_index (Arp.found (ticks b) ip) (arp_cache b)).
Qed.

(** C3: ping, between two hosts that can resolve each other.  Let host A have
    host B's MAC address in its ARP cache; let B see A on its own link, have room
    in its ARP cache, and either know A's address already or learn it from the
    request (the test of [ip_receive], which masks with the gateway's address,
    accepts A; A has no entry yet; [ticks] is not within the lifetime of an entry
    of its wrap-around).  Then the frame of [icmp_send_echo_request(ipB, seq)] on
    A, received by B, makes B send one frame to A's MAC address; and A, in any
    state that can take an ARP entry, receiving that frame has
    [icmp_echo_reply_received] set and the reply recorded with 64 bytes, B's
    address and the sequence number of the request. *)
Theorem ping_round_trip a b mac seq stale1 stale2 n1 n2 :
  Arp.nic_ok a -> LkArp ∉ held a -> Ip.known_mac a (MYIP b) = Some mac -> length mac = 6%nat ->
  Arp.nic_ok b -> can_learn b (MYIP a) -> answers b (MYIP a) (MAC a) -> Arp.next_hop b (MYIP a) = MYIP a ->
  0 <= MYIP a < 0xffffffff -> 0 <= MYIP b < 2 ^ 32 ->
  exists a1 f1 b1 f2,
    Icmp.icmp_send_echo_request (MYIP b) seq a = Ret tt a1 /\ Ip.ip_tx f1 a a1 /\
    ether_receive (f1 ++ stale1) n1 b = Ret tt b1 /\
    Ip.ip_tx f2 (learned (MYIP a) (MAC a) b) b1 /\ eth_dst (ether_hdr_of f2) = MAC a /\
    forall a2, can_learn a2 (MYIP b) -> exists a3,
      ether_receive (f2 ++ stale2) n2 a2 = Ret tt a3 /\
      icmp_echo_reply_received a3 = 1 /\
      icmp_reply_pkt_info a3 = mkIcmpReply 64 (MYIP b) (u16 seq).
Proof.
  intros Hna Hha Hk Hm [Hmb Htb] Hcl Han Hnh Hipa Hipb.
  destruct (Icmp.echo_request_ok (MYIP b) seq mac a) as (a1&Ha1&Htx1); [done..|].
  pose proof (length_request seq) as Hlen.
  destruct (ether_receive_ok a mac IP_PROTOCOL_ICMP (MYIP a) (MYIP b) (Icmp.request_of seq))
    as [pad1 Hrx1]; [apply Hna|done|auto|lia|lia|].
  set (b0 := learned (MYIP a) (MAC a) b).
  destruct (learned_fields (MYIP a) (MAC a) b) as (Fip&_&_&Fmac&Fnic&Fh&_). fold b0 in Fip, Fmac, Fnic, Fh.
  assert (Hnb : Arp.nic_ok b0) by (split; [by rewrite Fmac|by rewrite Fnic]).
  destruct (Icmp.echo_reply_ok (Icmp.request_of seq) (pad1 ++ stale1) (MYIP a) (MAC a) b0)
    as (b1&Hb1&Htx2); [done| |apply Icmp.bytes_ok_summed, Icmp.echo_request_bytes|lia| |apply Hna|].
  { rewrite Fh. apply Hcl. }
  { apply answers_known; try done; [lia|apply Hna]. }
  set (rep := Icmp.reply_of (Icmp.request_of seq)) in *.
  assert (Hrl : length rep = 64%nat) by (subst rep; rewrite Icmp.length_reply_of; lia).
  destruct (ether_receive_ok b0 (MAC a) IP_PROTOCOL_ICMP (MYIP b0) (MYIP a) rep) as [pad2 Hrx2];
    [apply Hnb|apply Hna|auto|by rewrite Fip|lia|].
  eexists a1, _, b1, _. split_and!; [exact Ha1|exact Htx1| |exact Htx2| |].
  - rewrite Hrx1 by done. unfold deliver. rewrite Z.eqb_refl, Hlen in *.
    rewrite icmp_receive_request; [done|lia|apply request_header].
  - destruct (ip_frame_shape b0 (MAC a) IP_PROTOCOL_ICMP (MYIP b0) (MYIP a) rep) as [? ->].
    by rewrite ether_hdr_of_bytes by apply Hna || apply Hnb.
  - intros a2 Ha2. rewrite Hrx2 by (by rewrite Fip). unfold deliver. rewrite Z.eqb_refl, Hrl, Fip.
    destruct (Icmp.reply_of_fields (Icmp.request_of seq)) as (Hty&_&_&Hsq&_); [lia|].
    rewrite icmp_receive_reply by (done || lia). eexists. split_and!; [done..|].
    cbn [icmp_reply_pkt_info setf]. subst rep. by rewrite Hsq, (proj2 (request_header seq)).
Qed.

(** C35: a received datagram whose IPv4 header verified before one of its twenty
    bytes was changed in transit to another value is dropped: the kernel state
    is unchanged except for a diagnostic on the console, and neither the ARP
    cache nor a protocol sees it. *)
Theorem ip_corruption_dropped d i x y n mac s :
  bytes_ok d -> checksum d IP_HDR_SIZE 0 = Some 0 -> (20 <= length d)%nat ->
  (i < 20)%nat -> d !! i = Some x -> byte_ok y -> y <> x ->
  exists msg, ip_receive (<[i := y]> d) n mac s =
    Ret tt (s <| trace := trace s ++ [EvPrint msg] |>).
Proof.
  intros Hb Hc Hl Hi Hx Hy Hne. destruct (ip_header_corrupt d i x y) as (c&Hc'&Hc0); [done..|].
  unfold ip_receive. rewrite length_insert.
  rewrite (proj2 (Z.ltb_ge _ _)) by (unfold IP_HDR_SIZE; lia).
  destruct (negb _); [by eexists|]. destruct (_ =? 0); [by eexists|].
  rewrite (bind_need c) by done. rewrite (proj2 (Z.eqb_neq _ _) Hc0). by eexists.
Qed.

(** the sender's address is learned only if it agrees with the host's own on
    the bits of the gateway's address, not of the netmask.  A ping from another
    neighbour, with the reply's next hop not in the ARP cache, makes
    [ether_receive], which runs in the interrupt handler, wait for an ARP reply:
    with no process running this is the panic of [sleep]. *)
Theorem ping_unlearned_panics a b mac seq stale n i :
  length (MAC a) = 6%nat -> length mac = 6%nat -> 0 <= MYIP a < 0xffffffff ->
  can_learn b (MYIP a) -> learns b (MYIP a) = false ->
  curproc b = None -> Arp.nic_ok b ->
  find_index (Arp.found (ticks b) (Arp.next_hop b (MYIP a))) (arp_cache b) = None ->
  find_index (Arp.requested (Arp.next_hop b (MYIP a))) (arp_cache b) = None ->
  Arp.arp_victim (ticks b) (arp_cache b) = Some i ->
  ether_receive (Ip.ip_frame a mac IP_PROTOCOL_ICMP (MYIP a) (MYIP b) (Icmp.request_of seq) ++ stale) n b
  = Panic "sleep".
Proof.
  intros Ha Hm Hip Hcl Hl Hc Hn Hf Hr Hv. pose proof (length_request seq) as Hlen.
  destruct (ether_receive_ok a mac IP_PROTOCOL_ICMP (MYIP a) (MYIP b) (Icmp.request_of seq))
    as [pad Hrx]; [done|done|auto|lia|lia|].
  rewrite Hrx by done. unfold learned. rewrite Hl. unfold deliver. rewrite Z.eqb_refl.
  rewrite icmp_receive_request by (apply request_header || lia).
  rewrite Icmp.echo_reply_build
    by (apply Icmp.bytes_ok_summed, Icmp.echo_request_bytes || (rewrite Hlen; lia)).
  set (rep := Icmp.reply_of _).
  assert (Hrl : length rep = 64%nat) by (subst rep; rewrite Icmp.length_reply_of; lia).
  rewrite Hlen, <- Hrl, <- (app_nil_r rep) at 1.
  destruct (Ip.ip_send_build IP_PROTOCOL_ICMP rep [] (MYIP b) (MYIP a) b) as [junk ->]; [lia|].
  cbv zeta. rewrite (proj2 (Z.eqb_neq (MYIP a) 0xffffffff)) by lia.
  unfold mbind at 1, M_bind at 1. rewrite (Arp.arp_resolve_panics (MYIP a) _ i); try done. apply Hcl.
Qed.

Section Ring.
Context {mach : Machine}.

(** when the controller reports a packet and the ring holds, at the read
    pointer, a good header and a frame of 60 to 1514 bytes that ends inside the
    ring, [rtl8139_receive] counts it, moves the read pointer past header, frame
    and CRC to the next multiple of four, tells the controller, and hands
    exactly that frame and its length to [ether_receive]. *)
Theorem rx_ring_delivers s frame rest st :
  let tr := trace s ++ [EvRegRead Cmd] in
  let cur := cur_rx (nic s) `mod` Nic.RX_BUF_LEN in
  let len := Z.of_nat (length frame) in
  Nic.test (u8 (reg_in tr Cmd)) Nic.RxBufEmpty = false ->
  drop (Z.to_nat cur) (dma_in tr (rx_ring (nic s))) =
    le32 (Z.shiftl (len + 4) 16 + st) ++ frame ++ rest ->
  0 <= st < 2 ^ 16 -> Z.land st 31 = Nic.ROK -> 60 <= len <= 1514 -> cur + len <= Nic.RX_BUF_LEN ->
  let nx := next_rx cur (len + 4) in
  nx `mod` 4 = 0 /\ cur + 4 + len + 4 <= nx < cur + 4 + len + 4 + 4 /\
  rtl8139_receive s = (ether_receive (frame ++ rest) len ;; mret 1)
    (s <| nic := (nic s) <| rx_ring := dma_in tr (rx_ring (nic s)) |> <| cur_rx := nx |>
            <| packets_received_good := u8 (packets_received_good (nic s) + 1) |>
            <| byte_received := u8 (byte_received (nic s) + len) |> |>
       <| trace := tr ++ [EvRegWrite CurAddrPacket (u16 (nx - 0x10))] |>).
Proof.
  intros tr cur len Hcmd Hring Hst Hok Hlen Hcur nx.
  assert (Hc : 0 <= cur < 8192) by (apply Z.mod_pos_bound; done).
  destruct (ring_header _ _ _ _ _ Hring) as (Hg&Hsz&Hr&Hd); [lia..|].
  destruct (next_rx_spec cur len Hc Hlen) as [? ?]. split_and!; [done|lia..|].
  unfold rtl8139_receive, Nic.reg_read, Nic.reg_write, upd_nic, emit. mrun.
  cbn [rx_ring nic trace cur_rx setf]. fold tr. fold cur. rewrite Hcmd. cbv iota.
  rewrite (proj2 (Z.ltb_ge _ _)) by exact Hr. rewrite Hg, Hsz.
  replace (u32 (len + 4 - 4)) with len by (rewrite u32_small; widths; lia).
  rewrite packet_ok by done. change (negb (1 =? 0)) with true. cbn [obind negb]. cbv iota.
  rewrite (proj2 (Z.ltb_ge _ _)) by (rewrite u32_small; widths; lia). cbn [obind].
  cbn [rx_ring nic trace cur_rx packets_received_good byte_received setf]. rewrite Hd.
  replace (s32 len) with len by (unfold s32; rewrite Z.mod_small; lia).
  reflexivity.
Qed.

(** The status register as the RTL8139 documents it: a condition [m] that is set
    stays set until a 1 is written to it or the controller is reset. *)
Definition latched (m : Z) : Prop := forall tr e, Nic.test (reg_in tr ISR) m = true ->
  e <> EvRegWrite Cmd Nic.CmdReset -> (forall w, e = EvRegWrite ISR w -> Nic.test w m = false) -> Nic.test (reg_in (tr ++ [e]) ISR) m = true.

Lemma test_part status m n : Nic.test status n = false -> Z.land n m = m -> Nic.test status m = false.
Proof. unfold Nic.test. intros Ht%negb_false_iff%Z.eqb_eq Hm. by rewrite <- Hm, Z.land_assoc, Ht, Z.land_0_l. Qed.

(** A turn of the loop without a packet and without an error acknowledges at
    most the end of a transmission and reads the status again. *)
Lemma turn_quiet status s : Nic.test status 11 = false ->
  exists s', nicintr_turn status s = Ret (u16 (reg_in (trace s') ISR)) s' /\
    trace s' = trace s ++ (if Nic.test status Nic.TxOK then [EvRegWrite ISR Nic.TxOK] else []) ++ [EvRegRead ISR].
Proof.
  intros Ht. unfold nicintr_turn. destruct (Nic.test status Nic.TxOK) eqn:Htx.
  - assert (Hl : Z.land status Nic.TxOK = Nic.TxOK).
    { apply Z.bits_inj'. intros k Hk. rewrite Z.land_spec. change Nic.TxOK with (2 ^ 2). destruct (decide (k = 2)) as [->|Hne]; [|by rewrite Z.pow2_bits_false, andb_false_r by lia].
      rewrite Z.pow2_bits_true, andb_true_r by lia. unfold Nic.test in Htx. apply negb_true_iff, Z.eqb_neq in Htx. apply not_false_iff_true. intros Hb. apply Htx.
      apply Z.bits_inj'. intros j Hj. rewrite Z.land_spec, Z.bits_0. change Nic.TxOK with (2 ^ 2). destruct (decide (j = 2)) as [->|Hne]; [by rewrite Hb|by rewrite Z.pow2_bits_false, andb_false_r by lia]. }
    cbv zeta. rewrite Hl. change (Nic.test Nic.TxOK Nic.TxErr) with false. change (Nic.test Nic.TxOK Nic.RxOK) with false. change (Nic.test Nic.TxOK Nic.RxErr) with false.
    cbv zeta iota. unfold Nic.reg_read, Nic.reg_write, upd_nic, emit. mrun. eexists. split; [reflexivity|]. cbn. by rewrite <- app_assoc.
  - rewrite !(test_part status _ 11 Ht) by done. cbv zeta iota. rewrite !bind_mret. unfold Nic.reg_read, emit. mrun. eexists. by split.
Qed.

(** C40: [nicintr] can spin for ever.  It acknowledges, by writing a 1 to their
    bits, only the four conditions it handles.  On a controller whose status bits
    stay set until a 1 is written to them or the controller is reset, if another
    condition [m] (an overflow, say) is set when the interrupt is taken and no
    packet and no error is reported meanwhile - transmissions may end at any time,
    and are acknowledged - the loop never ends, whatever its bound. *)
Theorem nicintr_never_returns m fuel s :
  latched m -> Nic.test m 15 = false -> (forall tr, 0 <= reg_in tr ISR < 65536 /\ Nic.test (reg_in tr ISR) 11 = false) ->
  Nic.test (reg_in (trace s) ISR) m = true ->
  nicintr fuel s = Fault "nicintr: fuel".
Proof.
  intros Hk Hm Hq Hs. assert (Hnz : forall v, Nic.test v m = true -> v <> 0) by (intros v Hv ->; done).
  assert (Hread : forall tr, Nic.test (reg_in tr ISR) m = true -> Nic.test (reg_in (tr ++ [EvRegRead ISR]) ISR) m = true) by (intros tr H; by apply Hk).
  assert (Hl : forall fuel s, Nic.test (reg_in (trace s) ISR) m = true -> nicintr_loop fuel (reg_in (trace s) ISR) s = Fault "nicintr: fuel").
  { clear fuel s Hs. induction fuel as [|fuel IH]; intros s Hs; [done|]. cbn [nicintr_loop]. rewrite (proj2 (Z.eqb_neq _ _) (Hnz _ Hs)).
    destruct (turn_quiet (reg_in (trace s) ISR) s (proj2 (Hq _))) as (s'&E&Et). erewrite bind_ret by exact E. rewrite u16_small by apply Hq. apply IH. rewrite Et, app_assoc.
    apply Hread. destruct (Nic.test _ Nic.TxOK); [|by rewrite app_nil_r]. apply Hk; [done|done|]. intros w [= <-].
    unfold Nic.test. rewrite Z.land_comm. apply (test_part m Nic.TxOK 15 Hm). done. }
  unfold nicintr, Nic.reg_read, emit. mrun. cbn [trace setf nic]. rewrite u16_small by apply Hq.
  match goal with |- nicintr_loop _ _ ?t = _ => apply (Hl fuel t) end. by apply Hread.
Qed.

End Ring.

End WithStack.

(** ** Witnesses *)
Definition demo_peer : kstate :=
  (Proc.demo_state []) <| MYIP := 0xc0a80204 |> <| MAC := [9; 8; 7; 6; 5; 4] |>
    <| arp_cache := [zero_arp_entry; zero_arp_entry] |>.

Definition demo_pinger : kstate :=
  Ip.demo_ip <| arp_cache := [mkArpEntry 0xc0a80204 [9; 8; 7; 6; 5; 4] 5000 USED] |>.

Lemma demo_can_learn s ip : held s = [] ->
  match Arp.add_slot (ticks s) ip (arp_cache s) with Some _ => true | None => false end = true ->
  can_learn s ip.
Proof.
  intros Hh Hs. split_and!; [rewrite Hh; apply not_elem_of_nil..|]. intros _.
  destruct (Arp.add_slot _ _ _); [eauto|done].
Qed.

Lemma datagram_end_to_end_witness : exists a' frame pad,
  Ip.ip_send IP_PROTOCOL_ICMP [8; 0; 0; 0; 1; 2; 3; 4; 5] 0xc0a80202 0xc0a80204 8 demo_pinger = Ret tt a' /\
  ether_receive (stk := Tcp.zero_stack) (frame ++ [7]) 60 demo_peer =
  deliver (stk := Tcp.zero_stack) IP_PROTOCOL_ICMP ([8; 0; 0; 0; 1; 2; 3; 4] ++ pad ++ [7]) 8 0xc0a80202
    (learned 0xc0a80202 (MAC demo_pinger) demo_peer).
Proof.
  destruct (datagram_end_to_end (stk := Tcp.zero_stack) IP_PROTOCOL_ICMP [8; 0; 0; 0; 1; 2; 3; 4] [5]
    0xc0a80202 0xc0a80204 [9; 8; 7; 6; 5; 4] demo_pinger) as (a'&f&H1&_&pad&H2);
    [split; reflexivity|apply not_elem_of_nil|simpl; lia|reflexivity|reflexivity|left; reflexivity|lia|].
  exists a', f, pad. split; [exact H1|]. apply H2. apply demo_can_learn; vm_compute; reflexivity.
Defined.

Lemma ping_round_trip_witness : exists a1 b1 f2 a3,
  Icmp.icmp_send_echo_request 0xc0a80204 7 demo_pinger = Ret tt a1 /\
  Ip.ip_tx f2 (learned 0xc0a80202 (MAC demo_pinger) demo_peer) b1 /\
  ether_receive (stk := Tcp.zero_stack) (f2 ++ []) 98 demo_pinger = Ret tt a3 /\
  icmp_echo_reply_received a3 = 1.
Proof.
  destruct (ping_round_trip (stk := Tcp.zero_stack) demo_pinger demo_peer [9; 8; 7; 6; 5; 4] 7 [] [] 98 98)
    as (a1&f1&b1&f2&H1&_&_&H2&_&H3);
    [split; reflexivity|apply not_elem_of_nil|reflexivity|reflexivity|split; reflexivity
    |apply demo_can_learn; vm_compute; reflexivity| |reflexivity
    |vm_compute; split; [discriminate|reflexivity]|vm_compute; split; [discriminate|reflexivity]|].
  - right. split; [reflexivity|]. split; [reflexivity|]. split; [|split; [vm_compute; discriminate|vm_compute; reflexivity]].
    intros [|[|?]] [|[|?]] e1 e2; cbn; intros; simplify_eq; try reflexivity;
      match goal with H : Arp.active _ _ |- _ => destruct H as [H|[H _]]; discriminate H end.
  - destruct (H3 demo_pinger) as (a3&H4&H5&_); [apply demo_can_learn; vm_compute; reflexivity|].
    exists a1, b1, f2, a3. split; [exact H1|]. split; [exact H2|]. split; [exact H4|exact H5].
Defined.

(** Two hosts of 192.168.2.0/24 behind 192.168.2.1: .2 answers .4, but not .5. *)
Definition demo_odd : kstate := demo_pinger <| MYIP := 0xc0a80205 |>.
Definition demo_idle : kstate := demo_peer <| MYIP := 0xc0a80202 |> <| curproc := None |>.

Lemma ping_unlearned_panics_witness :
  ether_receive (stk := Tcp.zero_stack) (Ip.ip_frame demo_odd [9; 8; 7; 6; 5; 4] IP_PROTOCOL_ICMP
    0xc0a80205 0xc0a80202 (Icmp.request_of 1) ++ []) 98 demo_idle = Panic "sleep".
Proof.
  apply (ping_unlearned_panics (stk := Tcp.zero_stack) demo_odd demo_idle [9; 8; 7; 6; 5; 4] 1 [] 98 0);
    [reflexivity|reflexivity|vm_compute; split; [discriminate|reflexivity]
    |apply demo_can_learn; vm_compute; reflexivity|reflexivity|reflexivity|split; reflexivity
    |vm_compute; reflexivity|vm_compute; reflexivity|vm_compute; reflexivity].
Defined.

Definition demo_dgram : list Z := Ip.datagram IP_PROTOCOL_TCP 3 0xc0a80204 0xc0a80202 [1; 2].

Lemma ip_corruption_dropped_witness : exists msg,
  ip_receive (stk := Tcp.zero_stack) (<[9%nat := 1]> demo_dgram) 22 [9; 8; 7; 6; 5; 4] demo_pinger =
  Ret tt (demo_pinger <| trace := trace demo_pinger ++ [EvPrint msg] |>).
Proof.
  apply (ip_corruption_dropped (stk := Tcp.zero_stack) demo_dgram 9 6 1);
    [apply (bool_decide_unpack _); vm_compute; exact I|vm_compute; reflexivity|vm_compute; lia|lia
    |vm_compute; reflexivity|split; [lia|reflexivity]|lia].
Defined.

(** A controller with one 60-byte frame in the ring. *)
Definition demo_ring : list Z := le32 (Z.shiftl 64 16 + 1) ++ replicate 60 5 ++ [1; 2; 3; 4].
(** Its status: receive buffer overflow and the end of a transmission, each until acknowledged. *)
Definition demo_isr (tr : list event) : Z :=
  foldl (fun v e => match e with EvRegWrite ISR w => Z.ldiff v w | _ => v end) 0x14 tr.
Definition demo_machine : Machine :=
  {| port_in := fun _ _ => 0; reg_in := fun tr r => if bool_decide (r = ISR) then demo_isr tr else 0;
     dma_in := fun _ _ => demo_ring |}.

Lemma rx_ring_delivers_witness :
  next_rx 0 64 = 68 /\
  exists s1, rtl8139_receive (stk := Tcp.zero_stack) (mach := demo_machine) tiny =
    (ether_receive (stk := Tcp.zero_stack) (replicate 60 5 ++ [1; 2; 3; 4]) 60 ;; mret 1) s1.
Proof.
  destruct (rx_ring_delivers (stk := Tcp.zero_stack) (mach := demo_machine) tiny (replicate 60 5)
    [1; 2; 3; 4] 1) as (_&_&H);
    [vm_compute; reflexivity|vm_compute; reflexivity|lia|reflexivity|vm_compute; split; discriminate
    |vm_compute; discriminate|].
  split; [vm_compute; reflexivity|]. eexists. exact H.
Defined.

(** The bits of [demo_isr] are among the two it starts with. *)
Lemma demo_isr_bits tr : Z.ldiff (demo_isr tr) 0x14 = 0.
Proof.
  unfold demo_isr. assert (H : forall v, Z.ldiff v 0x14 = 0 ->
    Z.ldiff (foldl (fun v e => match e with EvRegWrite ISR w => Z.ldiff v w | _ => v end) v tr) 0x14 = 0).
  { induction tr as [|e tr IH]; intros v Hv; [done|]. cbn. apply IH. destruct e as [| |r w| | | | | | |]; try done. destruct r; try done.
    apply Z.bits_inj'. intros k Hk. pose proof (f_equal (fun x => Z.testbit x k) Hv) as Hb. cbv beta in Hb. rewrite !Z.ldiff_spec, Z.bits_0 in *. by destruct (Z.testbit v k), (Z.testbit 20 k), (Z.testbit w k). }
  by apply H.
Qed.
Lemma demo_isr_latched tr e : Nic.test (demo_isr tr) 0x10 = true -> (forall w, e = EvRegWrite ISR w -> Nic.test w 0x10 = false) ->
  Nic.test (demo_isr (tr ++ [e])) 0x10 = true.
Proof.
  unfold demo_isr. rewrite foldl_app. cbn. generalize (foldl (fun v e => match e with EvRegWrite ISR w => Z.ldiff v w | _ => v end) 0x14 tr). intros v Hv Hw.
  destruct e as [| |r w| | | | | | |]; try done. destruct r; try done. specialize (Hw w eq_refl). unfold Nic.test in *. apply negb_true_iff, Z.eqb_neq in Hv. apply negb_false_iff, Z.eqb_eq in Hw.
  apply negb_true_iff, Z.eqb_neq. intros H. apply Hv. apply Z.bits_inj'. intros k Hk. pose proof (f_equal (fun x => Z.testbit x k) H) as H1. pose proof (f_equal (fun x => Z.testbit x k) Hw) as H2.
  cbv beta in H1, H2. rewrite Z.land_spec, Z.bits_0 in *. rewrite Z.ldiff_spec in H1. by destruct (Z.testbit v k), (Z.testbit 16 k), (Z.testbit w k).
Qed.

Lemma nicintr_never_returns_witness :
  nicintr (stk := Tcp.zero_stack) (mach := demo_machine) 5 tiny = Fault "nicintr: fuel".
Proof.
  apply (nicintr_never_returns (stk := Tcp.zero_stack) (mach := demo_machine) 0x10); [|reflexivity| |vm_compute; reflexivity].
  - intros tr e H _ Hw. by apply demo_isr_latched.
  - intros tr. change (reg_in tr ISR) with (demo_isr tr). pose proof (demo_isr_bits tr) as H. assert (E : demo_isr tr = Z.land (demo_isr tr) 0x14).
    { apply Z.bits_inj'. intros k Hk. pose proof (f_equal (fun x => Z.testbit x k) H) as Hb. cbv beta in Hb. rewrite Z.ldiff_spec, Z.bits_0 in Hb. rewrite Z.land_spec.
      by destruct (Z.testbit (demo_isr tr) k), (Z.testbit 20 k). }
    split; [pose proof (Z.ldiff_le (demo_isr tr) 0x14 ltac:(lia) H); lia|]. rewrite E. unfold Nic.test. by rewrite <- Z.land_assoc, Z.land_0_r.
Defined.

End Receive.
