(* ===== verification/Socket.v ===== *)
(** * Socket: the socket table, reading, writing and closing (socket.h, socket.c)

    The part of socket.c below the file layer: the tables, allocation of
    sockets, and [socketread], [socketwrite], [socketclose], which file.c calls.
    The theorems show that the receive buffer is a byte stream (what TCP
    delivers is what [socketread] returns, once and in order), and that closing
    a socket leaves no reference to it in the port table. *)
From S2P Require Import Prelude NetUtils Queue KState Kalloc Proc Nic Ether Arp Ip Tcp.
Import NetUtils.

Module Socket.

(** ** socket.c *)

(** [for(i = 0; i < NPORTS; i++) ports[i].pid = -1;] *)
Definition portinit : M unit :=
  modify (fun s => s <| ports := (fun p => p <| po_pid := -1 |>) <$> ports s |>).

(** [None] is NULL. *)
Definition socketalloc : M (option nat) :=
  acquire LkSock ;;
  l ← gets sockets;
  match find_index (fun s => bool_decide (so_state s = SOCKET_FREE)) l with
  | Some i => set_socket i (fun s => s <| so_state := SOCKET_UNBOUND |>) ;; release LkSock ;; mret (Some i)
  | None => release LkSock ;; mret None
  end.

Definition socketfree (i : nat) : M unit :=
  acquire LkSock ;;
  set_socket i (fun s => s <| so_state := SOCKET_FREE |>) ;;
  release LkSock.

Section WithStack.
Context {stk : Stack}.

Definition socketwrite (fuel : nat) (i : nat) (payload : list Z) (payload_size : Z) : M Z :=
  s ← get_socket i;
  if negb (bool_decide (tc_state (tcon s) = TCP_ESTABLISHED)) then mret (-1)
  else Tcp.tcp_tx fuel i payload payload_size ;; mret payload_size.

End WithStack.

(** The copy at the end of [socketread]: the return value and the bytes copied
    to the caller's buffer. *)
Definition socketread_copy (i : nat) (size : Z) : M (Z * list Z) :=
  s ← get_socket i;
  let maxbytes := s32 (so_end s - so_offset s) in
  let bytes := if size <=? maxbytes then size else maxbytes in
  d ← page_read (so_buffer s) (so_offset s) bytes "socketread: buffer";
  set_socket i (fun s => s <| so_offset := s32 (so_offset s + bytes) |>) ;;
  mret (bytes, d).

Definition socketread (i : nat) (size : Z) : M (Z * list Z) :=
  s ← get_socket i;
  if negb (bool_decide (tc_state (tcon s) = TCP_ESTABLISHED)) then mret (-1, [])
  else
    (if so_offset s =? so_end s then
       set_socket i (fun s => s <| so_state := SOCKET_WAIT |>) ;;
       Proc.sleepnolock (ChPort (so_port s)) ;;
       set_socket i (fun s => s <| so_state := SOCKET_CONNECTED |>)
     else mret tt) ;;
    socketread_copy i size.

Definition socketclose (i : nat) : M unit :=
  s ← get_socket i;
  let port := so_port s in
  Kalloc.kfree (so_buffer s) ;;
  set_socket i (fun _ => zero_socket) ;;
  socketfree i ;;
  acquire LkPort ;;
  po ← get_port port;
  (if bool_decide (active_socket po = Some i) then
     set_port port (fun po => po <| active_socket := None |>) ;;
     if bool_decide (passive_socket po = None) then set_port port (fun po => po <| po_pid := -1 |>)
     else mret tt
   else if bool_decide (passive_socket po = Some i) then
     set_port port (fun po => po <| passive_socket := None |> <| po_pid := -1 |>)
   else mret tt) ;;
  release LkPort.

(** ** Specification: the bytes received and not yet read *)
Definition unread (s : kstate) (i : nat) (l : list Z) : Prop :=
  exists a pg, sockets s !! i = Some a /\ mem (kmem s) !! so_buffer a = Some pg /\
    length pg = 4096%nat /\ 0 <= so_offset a <= so_end a /\ so_end a <= 4096 /\
    l = take (Z.to_nat (so_end a - so_offset a)) (drop (Z.to_nat (so_offset a)) pg).

(** ** Lemmas *)
Lemma page_read_ok buffer off n what pg s :
  mem (kmem s) !! buffer = Some pg -> 0 <= off -> 0 <= n < 2 ^ 32 -> off + n <= Z.of_nat (length pg) ->
  page_read buffer off n what s = Ret (take (Z.to_nat n) (drop (Z.to_nat off) pg)) s.
Proof.
  intros. unfold page_read. rewrite bind_gets, (bind_need pg) by done.
  rewrite u32_small by done. by rewrite !(proj2 (Z.leb_le _ _)) by lia.
Qed.

(** Appending at [so_end] appends to the unread bytes. *)
Lemma unread_append (pg data : list Z) (o e : nat) : (o <= e)%nat -> (e + length data <= length pg)%nat ->
  take (e + length data - o) (drop o (blit pg e data)) = take (e - o) (drop o pg) ++ data.
Proof.
  intros Ho He. unfold blit. rewrite skipn_app, length_take, Nat.min_l by lia.
  replace (o - e)%nat with 0%nat by lia. rewrite drop_0, <- skipn_firstn_comm.
  replace (e + length data - o)%nat with (length (drop o (take e pg)) + length data)%nat
    by (rewrite length_drop, length_take; lia).
  rewrite take_app_add. f_equal. apply take_app_length.
Qed.

Lemma take_min {A} n (l : list A) : take (Nat.min n (length l)) l = take n l.
Proof.
  destruct (Nat.le_gt_cases n (length l)); [by rewrite Nat.min_l|].
  by rewrite Nat.min_r, firstn_all, take_ge by lia.
Qed.

Lemma socketread_copy_ok i size s l :
  unread s i l -> 0 <= size < 2 ^ 31 ->
  exists s', socketread_copy i size s =
      Ret (Z.of_nat (length (take (Z.to_nat size) l)), take (Z.to_nat size) l) s' /\
    unread s' i (drop (Z.to_nat size) l) /\ kmem s' = kmem s.
Proof.
  intros (a&pg&Ha&Hpg&Hl&Ho&He&->) Hs. unfold socketread_copy. rewrite (bind_get_socket i a) by done.
  rewrite s32_small by lia. set (k := so_end a - so_offset a) in *.
  set (bytes := if size <=? k then size else k).
  assert (Hb : bytes = Z.min size k) by (subst bytes; destruct (Z.leb_spec size k); lia).
  set (u := take (Z.to_nat k) (drop (Z.to_nat (so_offset a)) pg)).
  assert (Hu : length u = Z.to_nat k) by (subst u; rewrite length_take, length_drop; lia).
  erewrite bind_ret by (apply page_read_ok; [done|lia..]). rewrite bind_set_socket.
  assert (Hd : take (Z.to_nat bytes) (drop (Z.to_nat (so_offset a)) pg) = take (Z.to_nat size) u).
  { subst u. rewrite take_take. f_equal. lia. }
  rewrite Hd. eexists. split; [|split].
  - unfold mret, M_ret. f_equal. f_equal. rewrite length_take. lia.
  - exists (a <| so_offset := so_offset a + bytes |>), pg. cbn.
    rewrite list_lookup_alter_eq, Ha. cbn. rewrite s32_small by lia. split_and!; [done..|lia|lia|done|].
    subst u. rewrite skipn_firstn_comm, drop_drop.
    destruct (Z.le_gt_cases size k).
    + replace bytes with size by lia. f_equal; [lia|]. f_equal. lia.
    + replace (Z.to_nat (so_end a - (so_offset a + bytes))) with 0%nat by lia.
      by replace (Z.to_nat k - Z.to_nat size)%nat with 0%nat by lia.
  - done.
Qed.

Lemma socketread_ready i size s l a :
  sockets s !! i = Some a -> tc_state (tcon a) = TCP_ESTABLISHED ->
  unread s i l -> l <> [] -> 0 <= size < 2 ^ 31 ->
  exists s', socketread i size s =
      Ret (Z.of_nat (length (take (Z.to_nat size) l)), take (Z.to_nat size) l) s' /\
    unread s' i (drop (Z.to_nat size) l).
Proof.
  intros Ha Hst Hu Hl Hs. unfold socketread. rewrite (bind_get_socket i a) by done.
  rewrite bool_decide_eq_true_2 by done. cbn [negb].
  assert (Hne : so_offset a <> so_end a).
  { intros He. destruct Hu as (a'&pg&Ha'&_&_&_&_&->). simplify_eq.
    by rewrite He, Z.sub_diag in Hl. }
  rewrite (proj2 (Z.eqb_neq _ _) Hne), bind_mret.
  destruct (socketread_copy_ok i size s l) as (s'&Hr&Hu'&_); [done..|]. eauto.
Qed.

(** With nothing unread the reader waits on its port. *)
Lemma socketread_blocks i size s a p pr :
  sockets s !! i = Some a -> tc_state (tcon a) = TCP_ESTABLISHED -> so_offset a = so_end a ->
  curproc s = Some p -> ptable s !! p = Some pr -> held s = [] -> 0 <= size < 2 ^ 31 ->
  exists s1 k, socketread i size s = Block s1 k /\
    (exists a1, sockets s1 !! i = Some a1 /\ so_state a1 = SOCKET_WAIT) /\
    (exists p1, ptable s1 !! p = Some p1 /\ p_state p1 = SLEEPING /\ p_chan p1 = Some (ChPort (so_port a))) /\
    forall s2 l, held s2 = [LkPtable] -> unread s2 i l -> exists s3,
      k s2 = Ret (Z.of_nat (length (take (Z.to_nat size) l)), take (Z.to_nat size) l) s3 /\
      unread s3 i (drop (Z.to_nat size) l).
Proof.
  intros Ha Hst He Hc Hp Hh Hs. unfold socketread. rewrite (bind_get_socket i a) by done.
  rewrite bool_decide_eq_true_2 by done. cbn [negb]. rewrite He, Z.eqb_refl.
  set (s0 := s <| sockets := alter (fun s => s <| so_state := SOCKET_WAIT |>) i (sockets s) |>).
  destruct (Proc.sleepnolock_blocks p pr (ChPort (so_port a)) s0) as (k&Hk&Hres); [done..|].
  unfold mbind, M_bind, set_socket, modify. cbn [obind]. fold s0. rewrite Hk. cbn [obind].
  eexists _, _. split; [reflexivity|]. split_and!.
  - cbn. rewrite list_lookup_alter_eq, Ha. by eexists.
  - cbn. rewrite list_lookup_alter_eq, Hp. by eexists.
  - intros s2 l Hh2 Hu. rewrite Hres by done. cbn [obind].
    match goal with |- context [socketread_copy i size ?x] => set (s3 := x) end.
    destruct (socketread_copy_ok i size s3 l) as (s4&Hr&Hu4&_); [|done|eauto].
    destruct Hu as (a2&pg&Ha2&Hpg&Hrest). exists (a2 <| so_state := SOCKET_CONNECTED |>), pg.
    split; [|done]. subst s3. cbn. by rewrite list_lookup_alter_eq, Ha2.
Qed.

(** The port table after [socketclose(&sockets[i])] for a socket on [port]. *)
Definition closed_port (i : nat) (po : port) : port :=
  if bool_decide (active_socket po = Some i) then
    if bool_decide (passive_socket po = None) then mkPort (-1) None (passive_socket po)
    else mkPort (po_pid po) None (passive_socket po)
  else if bool_decide (passive_socket po = Some i) then mkPort (-1) (active_socket po) None
  else po.

Lemma socketclose_ok i s a po :
  sockets s !! i = Some a -> port_at s (so_port a) = Some po -> held s = [] ->
  Kalloc.valid_page (kmem s) (so_buffer a) ->
  socketclose i s = Ret tt ((Kalloc.kfree_result (so_buffer a) s)
    <| sockets := <[i := zero_socket]> (sockets s) |>
    <| ports := <[Z.to_nat (so_port a) := closed_port i po]> (ports s) |>).
Proof.
  intros Ha Hpo Hh Hv. unfold socketclose. rewrite (bind_get_socket i a) by done.
  erewrite bind_ret by (apply Kalloc.kfree_ok; [done|rewrite Hh; apply not_elem_of_nil]).
  rewrite bind_set_socket. unfold socketfree, set_socket, set_port, get_port, port_at in *. mrun.
  rewrite Kalloc.acquire_ok by (cbn; rewrite Hh; set_solver). mrun.
  rewrite Kalloc.release_ok by (cbn; left). mrun.
  rewrite Kalloc.acquire_ok by (cbn; rewrite Hh; cbn; set_solver). mrun.
  destruct (0 <=? so_port a) eqn:Hp; [|done]. cbn [ports setf Kalloc.kfree_result need]. rewrite Hpo.
  cbn [need]. mrun.
  assert (Hid : <[Z.to_nat (so_port a) := po]> (ports s) = ports s) by (by apply list_insert_id).
  unfold closed_port. destruct po as [pid ac pa]; cbn [active_socket passive_socket po_pid].
  rewrite !(list_alter_to_insert _ i _ _ Ha).
  case_bool_decide; [case_bool_decide|case_bool_decide]; mrun;
    rewrite Kalloc.release_ok by (cbn; left); destruct s; cbn in *; subst;
    rewrite ?list_alter_alter, ?(list_alter_to_insert _ _ _ _ Hpo), ?Hid; cbn;
    rewrite ?list_alter_to_insert with (x := zero_socket) by
      (apply list_lookup_insert_eq; by eapply lookup_lt_Some);
    by rewrite ?list_insert_insert_eq.
Qed.

(** ** Properties *)
Section Stream.
Context {stk : Stack}.

(** the receive side of a connected socket is a byte stream: a data segment
    TCP accepts appends its bytes to the unread bytes, and [socketread] returns
    (and consumes) the first [size] of them, or all of them if there are fewer.
    With nothing to read the process sleeps on its port and, resumed, returns
    what has arrived by then. *)
Theorem socket_stream s i a ip pt mac l size :
  Tcp.link s i a ip pt mac -> 0 <= pt < NPORTS -> unread s i l -> 0 <= size < 2 ^ 31 ->
  0 <= ack_sent (tcon a) < 2 ^ 32 ->
  (forall data seg, so_end a + Z.of_nat (length data) <= 4096 ->
     Tcp.segment_ok ip (MYIP s) pt (so_port a) (ack_sent (tcon a)) 0 0 TCP_HEADER_MIN_SIZE data seg ->
     exists s1, Tcp.tcp_receive seg (Z.of_nat (length seg)) ip s = Ret tt s1 /\ unread s1 i (l ++ data)) /\
  (l <> [] -> exists s1, socketread i size s =
     Ret (Z.of_nat (length (take (Z.to_nat size) l)), take (Z.to_nat size) l) s1 /\
     unread s1 i (drop (Z.to_nat size) l)) /\
  (l = [] -> forall p pr, curproc s = Some p -> ptable s !! p = Some pr -> held s = [] ->
   exists s1 k, socketread i size s = Block s1 k /\
     p_state <$> ptable s1 !! p = Some SLEEPING /\
     forall s2 l2, held s2 = [LkPtable] -> unread s2 i l2 -> exists s3,
       k s2 = Ret (Z.of_nat (length (take (Z.to_nat size) l2)), take (Z.to_nat size) l2) s3 /\
       unread s3 i (drop (Z.to_nat size) l2)).
Proof.
  intros HL Hpt Hu Hs Hack. pose proof (Tcp.link_socket _ _ _ _ _ _ HL) as Ha.
  pose proof (Tcp.link_state _ _ _ _ _ _ HL) as Hst. split_and!.
  - intros data seg Hfit Hseg. destruct Hu as (a'&pg&Ha'&Hpg&Hlp&Ho&He&->). assert (a' = a) as -> by congruence.
    rewrite (Tcp.tcp_receive_established _ _ _ _ _ _ _ _ _ _ _ HL Hseg) by done.
    destruct (Tcp.receive_in_order i (so_port a) seg data 20 mac s a pg)
      as (s1&ack&Hrx&_&_&Hso&Hmem&_); try done.
    + rewrite (Tcp.link_addr _ _ _ _ _ _ HL). apply (Tcp.link_reaches _ _ _ _ _ _ HL).
    + apply (Tcp.link_unlocked _ _ _ _ _ _ HL).
    + by eapply Tcp.segment_is_data.
    + destruct Hseg as (_&_&_&_&_&Hsn&_). by rewrite Hsn, u32_small.
    + lia.
    + lia.
    + exists s1. split; [done|].
      eexists (Tcp.delivered _ _ a), (blit pg (Z.to_nat (so_end a)) data).
      rewrite Hso, Hmem. split_and!; [apply list_lookup_insert_eq; by eapply lookup_lt_Some
        |apply lookup_insert_eq|rewrite length_blit; lia|cbn; lia..|].
      cbn. rewrite Z2Nat.inj_sub by lia. rewrite <- (unread_append pg data) by lia. f_equal. lia.
  - intros Hl. by apply (socketread_ready i size s l a).
  - intros -> p pr Hc Hp Hh.
    assert (He : so_offset a = so_end a).
    { destruct Hu as (a'&pg&Ha'&_&Hlp&Ho&He&Hnil). assert (a' = a) as -> by congruence.
      apply (f_equal length) in Hnil. rewrite length_take, length_drop in Hnil. simpl in Hnil. lia. }
    destruct (socketread_blocks i size s a p pr) as (s1&k&Hb&_&(p1&Hp1&Hst1&_)&Hk); [done..|].
    exists s1, k. split_and!; [done| |done]. by rewrite Hp1, <- Hst1.
Qed.

End Stream.

(** A connected socket with two unread bytes. *)
Definition demo_unread : kstate :=
  (Tcp.demo_host 0xc0a80202 0xc0a80205)
    <| sockets := [(Tcp.demo_socket 0xc0a80205) <| so_end := 2 |>] |>.

Lemma socket_stream_witness : exists s1,
  socketread 0 1 demo_unread = Ret (1, [0]) s1 /\ unread s1 0 [0].
Proof.
  assert (HL : Tcp.link demo_unread 0 ((Tcp.demo_socket 0xc0a80205) <| so_end := 2 |>)
    0xc0a80205 1 [9; 8; 7; 6; 5; 4]).
  { destruct (Tcp.demo_link 0xc0a80202 0xc0a80205 (or_introl (conj eq_refl eq_refl))).
    constructor; assumption || reflexivity. }
  destruct (socket_stream (stk := Tcp.zero_stack) demo_unread 0
    ((Tcp.demo_socket 0xc0a80205) <| so_end := 2 |>) 0xc0a80205 1 [9; 8; 7; 6; 5; 4] [0; 0] 1)
    as (_&H&_); [exact HL|split; [lia|reflexivity]| |split; [lia|reflexivity]|split; [vm_compute; discriminate|reflexivity]|].
  - exists ((Tcp.demo_socket 0xc0a80205) <| so_end := 2 |>), (zero_bytes 4096).
    split_and!; first [reflexivity | vm_compute; discriminate].
  - apply H. discriminate.
Defined.

(** closing a socket frees its buffer page and its table entry and removes it
    from the port table: no port refers to it any more.  Closing the listening
    socket, or the connected one when nobody listens, gives the port up;
    closing a connected socket of a port that still listens keeps it. *)
Theorem socketclose_releases i s a po l :
  sockets s !! i = Some a -> port_at s (so_port a) = Some po -> held s = [] ->
  Kalloc.repr (kmem s) l -> Kalloc.valid_page (kmem s) (so_buffer a) -> so_buffer a ∉ l ->
  (forall p po', ports s !! p = Some po' ->
     active_socket po' = Some i \/ passive_socket po' = Some i -> p = Z.to_nat (so_port a)) ->
  (active_socket po <> Some i \/ passive_socket po <> Some i) ->
  exists s', socketclose i s = Ret tt s' /\ held s' = [] /\
    sockets s' !! i = Some zero_socket /\ so_state zero_socket = SOCKET_FREE /\
    Kalloc.repr (kmem s') (so_buffer a :: l) /\
    (forall p po', ports s' !! p = Some po' ->
       active_socket po' <> Some i /\ passive_socket po' <> Some i) /\
    (po_pid <$> port_at s' (so_port a)) =
      Some (if bool_decide (passive_socket po = Some i) ||
               (bool_decide (active_socket po = Some i) && bool_decide (passive_socket po = None))
            then -1 else po_pid po).
Proof.
  intros Ha Hpo Hh Hr Hv Hnl Hrefs Hone. eexists. split; [by apply (socketclose_ok i s a po)|].
  assert (Hp : ports s !! Z.to_nat (so_port a) = Some po /\ 0 <= so_port a).
  { unfold port_at in Hpo. destruct (Z.leb_spec 0 (so_port a)); [|done]. auto. }
  destruct Hp as [Hp Hp0]. assert (Hlt := lookup_lt_Some _ _ _ Hp).
  split_and!; [done| |done|by apply Kalloc.kfree_repr| |].
  - cbn. apply list_lookup_insert_eq. by eapply lookup_lt_Some.
  - cbn. intros p po' Hq. destruct (decide (p = Z.to_nat (so_port a))) as [->|Hne].
    + rewrite list_lookup_insert_eq in Hq by done. injection Hq as <-. unfold closed_port.
      repeat case_bool_decide; cbn; naive_solver.
    + rewrite list_lookup_insert_ne in Hq by done. split; intros E; apply Hne; eauto.
  - unfold port_at. rewrite (proj2 (Z.leb_le _ _)) by done. cbn.
    rewrite list_lookup_insert_eq by done. cbn. unfold closed_port.
    repeat case_bool_decide; cbn; naive_solver.
Qed.

Lemma socketclose_releases_witness : exists s',
  socketclose 0 (Tcp.demo_host 0xc0a80202 0xc0a80205) = Ret tt s' /\
  sockets s' !! 0%nat = Some zero_socket.
Proof.
  destruct (socketclose_releases 0 (Tcp.demo_host 0xc0a80202 0xc0a80205) (Tcp.demo_socket 0xc0a80205)
    (mkPort 1 (Some 0%nat) None) []) as (s'&H1&_&H2&_).
  - reflexivity.
  - reflexivity.
  - reflexivity.
  - split_and!; [reflexivity|apply NoDup_nil_2|apply Forall_nil_2].
  - unfold Kalloc.valid_page. vm_compute. split_and!; first [reflexivity | discriminate].
  - apply not_elem_of_nil.
  - intros [|[|p]] po'; cbn; intros [= <-] [H|H]; first [discriminate H | reflexivity].
  - right. discriminate.
  - exists s'. split; [exact H1|exact H2].
Defined.

End Socket.
