(* ===== verification/File.v ===== *)
(** * File: the file table and file descriptors (file.c, pipealloc, sysfile.c)

    The file table with its reference counts, descriptor allocation, and the
    dispatch of reads, writes and closes to pipes, sockets and inodes.  Inodes
    are reached through the interface [InodeOps].  The theorems show that the
    reference counts are the numbers of open descriptors, whatever sequence of
    dup and close is run, and that the object behind a file is closed with its
    last descriptor only. *)
From S2P Require Import Prelude Queue KState Kalloc Proc Tcp Socket Pipe.

(** ** The inode layer, as file.c uses it (log.c and fs.c)

    Inodes are indices into the inode cache; [readi] returns its result and the
    bytes copied. *)
Record stat : Type := mkStat { st_type : Z; st_dev : Z; st_ino : Z; st_nlink : Z; st_size : Z }.

Class InodeOps := {
  begin_op : M unit;
  end_op : M unit;
  ilock : nat -> M unit;
  iunlock : nat -> M unit;
  iput : nat -> M unit;
  stati : nat -> M stat;
  readi : nat -> Z -> Z -> M (Z * list Z);
  writei : nat -> list Z -> Z -> Z -> M Z;
}.

Module File.

Definition get_file (i : nat) : M file := l ← gets ftable; need (l !! i) "ftable.file[]".
Definition set_file (i : nat) (f : file -> file) : M unit :=
  modify (fun s => s <| ftable := alter f i (ftable s) |>).
(** [curproc->ofile[fd] = o]. *)
Definition set_fd (p : nat) (fd : nat) (o : option nat) : M unit :=
  Proc.set_proc p (fun pr => pr <| p_ofile := <[fd := o]> (p_ofile pr) |>).
(** [myproc()], which must be a process. *)
Definition current : M nat := o ← Proc.myproc; need o "myproc()".

(** ** file.c *)
Definition filealloc : M (option nat) :=
  acquire LkFtable ;;
  l ← gets ftable;
  match find_index (fun f => f_ref f =? 0) l with
  | Some i => set_file i (fun f => f <| f_ref := 1 |>) ;; release LkFtable ;; mret (Some i)
  | None => release LkFtable ;; mret None
  end.

(** -1 when all descriptors are in use. *)
Definition fdalloc (f : nat) : M Z :=
  i ← current;
  p ← Proc.get_proc i;
  match find_index (fun o => bool_decide (o = None)) (p_ofile p) with
  | Some fd => set_fd i fd (Some f) ;; mret (Z.of_nat fd)
  | None => mret (-1)
  end.

Definition filedup (i : nat) : M nat :=
  acquire LkFtable ;;
  f ← get_file i;
  (if f_ref f <? 1 then panic "filedup" else mret tt) ;;
  set_file i (fun f => f <| f_ref := s32 (f_ref f + 1) |>) ;;
  release LkFtable ;;
  mret i.

Section WithInodes.
Context {inodes : InodeOps} {stk : Stack}.

(** What happens to the object behind a file when its last reference goes. *)
Definition close_object (ff : file) : M unit :=
  (if bool_decide (f_type ff = FD_PIPE) then Pipe.pipeclose (f_pipe ff) (f_writable ff) else mret tt) ;;
  if bool_decide (f_type ff = FD_SOCKET) then
    s ← need (f_socket ff) "ff.socket"; Socket.socketclose s
  else if bool_decide (f_type ff = FD_INODE) then
    begin_op ;; (ip ← need (f_ip ff) "ff.ip"; iput ip) ;; end_op
  else mret tt.

Definition fileclose (i : nat) : M unit :=
  acquire LkFtable ;;
  f ← get_file i;
  (if f_ref f <? 1 then panic "fileclose" else mret tt) ;;
  set_file i (fun f => f <| f_ref := f_ref f - 1 |>) ;;
  if 0 <? f_ref f - 1 then release LkFtable
  else
    ff ← get_file i;
    set_file i (fun f => f <| f_ref := 0 |> <| f_type := FD_NONE |>) ;;
    release LkFtable ;;
    close_object ff.

(** The return value and the [struct stat] filled in. *)
Definition filestat (i : nat) : M (Z * option stat) :=
  f ← get_file i;
  if bool_decide (f_type f = FD_INODE) then
    ip ← need (f_ip f) "f->ip";
    ilock ip ;;
    st ← stati ip;
    iunlock ip ;;
    mret (0, Some st)
  else mret (-1, None).

Definition fileread (fuel : nat) (i : nat) (n : Z) : M (Z * list Z) :=
  f ← get_file i;
  if negb (f_readable f) then mret (-1, [])
  else if bool_decide (f_type f = FD_PIPE) then Pipe.piperead fuel (f_pipe f) n
  else if bool_decide (f_type f = FD_SOCKET) then
    s ← need (f_socket f) "f->socket"; Socket.socketread s n
  else if bool_decide (f_type f = FD_INODE) then
    ip ← need (f_ip f) "f->ip";
    ilock ip ;;
    r ← readi ip (f_off f) n;
    (if 0 <? fst r then set_file i (fun f => f <| f_off := u32 (f_off f + fst r) |>) else mret tt) ;;
    iunlock ip ;;
    mret r
  else panic "fileread".

(** The loop over pieces of at most [max] bytes; [done] is [i] of the code. *)
Fixpoint filewrite_loop (fuel : nat) (i ip : nat) (addr : list Z) (n done : Z) : M Z :=
  match fuel with
  | O => fault "filewrite: fuel"
  | S fuel' =>
    let max := ((MAXOPBLOCKS - 1 - 1 - 2) / 2) * 512 in
    if done <? n then
      let n1 := if max <? n - done then max else n - done in
      begin_op ;;
      ilock ip ;;
      f ← get_file i;
      r ← writei ip (drop (Z.to_nat done) addr) (f_off f) n1;
      (if 0 <? r then set_file i (fun f => f <| f_off := u32 (f_off f + r) |>) else mret tt) ;;
      iunlock ip ;;
      end_op ;;
      if r <? 0 then mret done
      else if negb (r =? n1) then panic "short filewrite"
      else filewrite_loop fuel' i ip addr n (done + r)
    else mret done
  end.

Definition filewrite (fuel : nat) (i : nat) (addr : list Z) (n : Z) : M Z :=
  f ← get_file i;
  if negb (f_writable f) then mret (-1)
  else if bool_decide (f_type f = FD_PIPE) then Pipe.pipewrite fuel (f_pipe f) addr n
  else if bool_decide (f_type f = FD_SOCKET) then
    s ← need (f_socket f) "f->socket"; Socket.socketwrite fuel s addr n
  else if bool_decide (f_type f = FD_INODE) then
    ip ← need (f_ip f) "f->ip";
    i' ← filewrite_loop (S (Z.to_nat n)) i ip addr n 0;
    mret (if i' =? n then n else -1)
  else panic "filewrite".

(** ** pipe.c: pipealloc *)

(** [goto bad]. *)
Definition pipealloc_bad (f0 f1 : option nat) : M (option (nat * nat)) :=
  match f0 with Some f => fileclose f | None => mret tt end ;;
  match f1 with Some f => fileclose f | None => mret tt end ;;
  mret None.

Definition pipealloc : M (option (nat * nat)) :=
  f0 ← filealloc;
  match f0 with
  | None => pipealloc_bad None None
  | Some i0 =>
    f1 ← filealloc;
    match f1 with
    | None => pipealloc_bad (Some i0) None
    | Some i1 =>
      p ← Kalloc.kalloc;
      if p =? 0 then pipealloc_bad (Some i0) (Some i1)
      else
        modify (fun s => s <| pipes := <[p := mkPipe (uninit (Z.to_nat PIPESIZE)) 0 0 true true]> (pipes s) |>) ;;
        set_file i0 (fun f => f <| f_type := FD_PIPE |> <| f_readable := true |>
          <| f_writable := false |> <| f_pipe := p |>) ;;
        set_file i1 (fun f => f <| f_type := FD_PIPE |> <| f_readable := false |>
          <| f_writable := true |> <| f_pipe := p |>) ;;
        mret (Some (i0, i1))
    end
  end.

(** ** sysfile.c *)

(** [argfd], from the value of the argument on: the descriptor and its file. *)
Definition argfd (fd : Z) : M (option (nat * nat)) :=
  if (fd <? 0) || (NOFILE <=? fd) then mret None
  else
    i ← current;
    p ← Proc.get_proc i;
    o ← need (p_ofile p !! Z.to_nat fd) "ofile[]";
    mret (match o with Some f => Some (Z.to_nat fd, f) | None => None end).

Definition sys_dup (fd : Z) : M Z :=
  a ← argfd fd;
  match a with
  | None => mret (-1)
  | Some (_, f) =>
    fd' ← fdalloc f;
    if fd' <? 0 then mret (-1) else filedup f ;; mret fd'
  end.

Definition sys_close (fd : Z) : M Z :=
  a ← argfd fd;
  match a with
  | None => mret (-1)
  | Some (n, f) => i ← current; set_fd i n None ;; fileclose f ;; mret 0
  end.

(** [n] and the buffer have passed [argptr]. *)
Definition sys_read (fuel : nat) (fd n : Z) : M (Z * list Z) :=
  a ← argfd fd;
  match a with None => mret (-1, []) | Some (_, f) => fileread fuel f n end.
Definition sys_write (fuel : nat) (fd : Z) (addr : list Z) (n : Z) : M Z :=
  a ← argfd fd;
  match a with None => mret (-1) | Some (_, f) => filewrite fuel f addr n end.

(** The two descriptors stored at [fd[0]] and [fd[1]]. *)
Definition sys_pipe : M (Z * list Z) :=
  r ← pipealloc;
  match r with
  | None => mret (-1, [])
  | Some (rf, wf) =>
    fd0 ← fdalloc rf;
    fd1 ← (if fd0 <? 0 then mret (-1) else fdalloc wf);
    if (fd0 <? 0) || (fd1 <? 0) then
      (if 0 <=? fd0 then i ← current; set_fd i (Z.to_nat fd0) None else mret tt) ;;
      fileclose rf ;; fileclose wf ;; mret (-1, [])
    else mret (0, [fd0; fd1])
  end.

End WithInodes.

(** ** Specification: reference counts *)

(** The number of descriptors that refer to file [i], in a process and in all. *)
Definition fds (i : nat) (l : list (option nat)) : nat :=
  length (filter (fun o => o = Some i) l).
Definition refs (pt : list proc) (i : nat) : nat := sum_list ((fun p => fds i (p_ofile p)) <$> pt).

(** Every file counts its descriptors, and descriptors refer to files. *)
Definition refs_ok (s : kstate) : Prop :=
  forall i, match ftable s !! i with
            | Some f => f_ref f = Z.of_nat (refs (ptable s) i)
            | None => refs (ptable s) i = 0%nat
            end.

(** ** Lemmas: counting *)
Definition one (i : nat) (o : option nat) : nat := if decide (o = Some i) then 1 else 0.

Lemma fds_cons i o l : fds i (o :: l) = (one i o + fds i l)%nat.
Proof. unfold fds, one. rewrite filter_cons. by case_decide. Qed.

Lemma fds_insert i l k x y : l !! k = Some x ->
  (fds i (<[k := y]> l) + one i x = fds i l + one i y)%nat.
Proof.
  revert k. induction l as [|o l IH]; intros [|k]; simpl; intros Hk; simplify_eq.
  - rewrite !fds_cons. lia.
  - rewrite !fds_cons. specialize (IH k Hk). lia.
Qed.

Lemma refs_set_fd pt i p pr k x y : pt !! p = Some pr -> p_ofile pr !! k = Some x ->
  (refs (alter (fun pr => pr <| p_ofile := <[k := y]> (p_ofile pr) |>) p pt) i + one i x
   = refs pt i + one i y)%nat.
Proof.
  unfold refs. intros Hp Hx. revert p Hp. induction pt as [|q pt IH]; intros [|p]; simpl; intros Hp;
    simplify_eq.
  - cbn. pose proof (fds_insert i _ _ _ y Hx). lia.
  - specialize (IH p Hp). unfold fmap, alter in IH. lia.
Qed.

Lemma refs_lookup pt i p pr k : pt !! p = Some pr -> p_ofile pr !! k = Some (Some i) ->
  (0 < refs pt i)%nat.
Proof.
  intros Hp Hk. pose proof (refs_set_fd pt i p pr k (Some i) None Hp Hk) as H.
  unfold one in H. rewrite decide_True in H by done. rewrite decide_False in H by done. lia.
Qed.

(** ** Lemmas: the operations *)
Lemma bind_get_file {U} i f (k : file -> M U) s : ftable s !! i = Some f -> (get_file i ≫= k) s = k f s.
Proof. intros H. unfold get_file. mrun. by rewrite H. Qed.
Lemma bind_get_proc {U} i p (k : proc -> M U) s : ptable s !! i = Some p -> (Proc.get_proc i ≫= k) s = k p s.
Proof. intros H. unfold Proc.get_proc. mrun. by rewrite H. Qed.
Lemma bind_current {U} i (k : nat -> M U) s : curproc s = Some i -> (current ≫= k) s = k i s.
Proof. intros H. unfold current, Proc.myproc. mrun. by rewrite H. Qed.

(** The running process. *)
Definition running (s : kstate) (p : nat) (pr : proc) : Prop :=
  curproc s = Some p /\ ptable s !! p = Some pr /\ length (p_ofile pr) = 16%nat /\ held s = [].

Lemma bind_argfd {U} p pr fd (k : option (nat * nat) -> M U) s : running s p pr ->
  (argfd fd ≫= k) s = k (match (if (fd <? 0) || (NOFILE <=? fd) then None else p_ofile pr !! Z.to_nat fd) with
                         | Some (Some f) => Some (Z.to_nat fd, f) | _ => None end) s.
Proof.
  intros (Hc&Hp&Hl&_). unfold argfd, NOFILE. destruct (_ || _) eqn:E; [done|].
  apply orb_false_iff in E as [?%Z.ltb_ge ?%Z.leb_gt].
  destruct (lookup_lt_is_Some_2 (p_ofile pr) (Z.to_nat fd)) as [o Ho]; [lia|].
  unfold current, Proc.myproc, Proc.get_proc. mrun. rewrite Hc. cbn [need]. mrun. rewrite Hp.
  cbn [need]. mrun. by rewrite Ho.
Qed.

Lemma fdalloc_ok p pr f s : running s p pr ->
  fdalloc f s = match find_index (fun o => bool_decide (o = None)) (p_ofile pr) with
    | Some fd => Ret (Z.of_nat fd) (s <| ptable :=
        alter (fun pr => pr <| p_ofile := <[fd := Some f]> (p_ofile pr) |>) p (ptable s) |>)
    | None => Ret (-1) s
    end.
Proof.
  intros (Hc&Hp&_). unfold fdalloc. rewrite (bind_current p), (bind_get_proc p pr) by done.
  by destruct (find_index _ _).
Qed.

Lemma filedup_ok i f s : ftable s !! i = Some f -> 1 <= f_ref f -> LkFtable ∉ held s ->
  filedup i s = Ret i (s <| ftable := alter (fun f => f <| f_ref := s32 (f_ref f + 1) |>) i (ftable s) |>).
Proof.
  intros Hf Hr Hh. unfold filedup. erewrite bind_ret by (by apply Kalloc.acquire_ok).
  rewrite (bind_get_file i f) by done. rewrite (proj2 (Z.ltb_ge _ _)) by lia. rewrite bind_mret.
  unfold set_file. rewrite bind_modify. erewrite bind_ret by (apply Kalloc.release_ok; cbn; left).
  unfold mret, M_ret. by destruct s.
Qed.

Section Closing.
Context {inodes : InodeOps}.

(** [fileclose] updates the table, then closes the object if that was the last
    reference. *)
Lemma fileclose_ok i f s : ftable s !! i = Some f -> 1 <= f_ref f -> held s = [] ->
  fileclose i s =
  if 1 <? f_ref f
  then Ret tt (s <| ftable := <[i := f <| f_ref := f_ref f - 1 |>]> (ftable s) |>)
  else close_object (f <| f_ref := f_ref f - 1 |>)
         (s <| ftable := <[i := f <| f_ref := 0 |> <| f_type := FD_NONE |>]> (ftable s) |>).
Proof.
  intros Hf Hr Hh. unfold fileclose.
  erewrite bind_ret by (apply Kalloc.acquire_ok; rewrite Hh; apply not_elem_of_nil).
  rewrite (bind_get_file i f) by done. rewrite (proj2 (Z.ltb_ge (f_ref f) 1)) by lia. rewrite bind_mret.
  unfold set_file. rewrite bind_modify. cbn [ftable setf].
  rewrite (list_alter_to_insert _ _ _ f Hf).
  replace (0 <? f_ref f - 1) with (1 <? f_ref f)
    by (destruct (Z.ltb_spec 1 (f_ref f)), (Z.ltb_spec 0 (f_ref f - 1)); lia || done).
  assert (Hi := lookup_lt_Some _ _ _ Hf).
  destruct (1 <? f_ref f).
  - rewrite Kalloc.release_ok by (cbn; left). by destruct s.
  - rewrite (bind_get_file i (f <| f_ref := f_ref f - 1 |>)) by (by apply list_lookup_insert_eq).
    rewrite bind_modify. erewrite bind_ret by (apply Kalloc.release_ok; cbn; left).
    cbn [ftable setf held]. rewrite (list_alter_to_insert _ i _ (f <| f_ref := f_ref f - 1 |>))
      by (by apply list_lookup_insert_eq). rewrite list_insert_insert_eq.
    by destruct s.
Qed.

End Closing.

(** ** Properties *)

(** [dup] adds one descriptor and one reference, to the lowest free slot, and
    keeps every reference count equal to the number of descriptors referring to
    the file; with no free descriptor, or for a descriptor that is not open, it
    returns -1 and changes nothing. *)
Theorem dup_counts p pr s fd :
  running s p pr -> refs_ok s -> Forall (fun f => f_ref f < 2 ^ 31 - 1) (ftable s) ->
  0 <= fd < NOFILE ->
  match p_ofile pr !! Z.to_nat fd, find_index (fun o => bool_decide (o = None)) (p_ofile pr) with
  | Some (Some f), Some n => exists s', sys_dup fd s = Ret (Z.of_nat n) s' /\ refs_ok s' /\
      ptable s' = alter (fun pr => pr <| p_ofile := <[n := Some f]> (p_ofile pr) |>) p (ptable s)
  | _, _ => sys_dup fd s = Ret (-1) s
  end.
Proof.
  intros Hrun Hok Hmax Hfd. unfold sys_dup. rewrite (bind_argfd p pr) by done.
  rewrite (proj2 (Z.ltb_ge _ _)), (proj2 (Z.leb_gt _ _)) by lia. cbn [orb].
  destruct (p_ofile pr !! Z.to_nat fd) as [[f|]|] eqn:Hf; [|done..].
  destruct (find_index _ _) as [n|] eqn:Hn.
  2:{ by erewrite bind_ret by (rewrite (fdalloc_ok p pr), Hn by done; reflexivity). }
  destruct Hrun as (Hc&Hp&Hl&Hh).
  erewrite bind_ret by (rewrite (fdalloc_ok p pr), Hn by (by split_and!); reflexivity).
  rewrite (proj2 (Z.ltb_ge _ _)) by lia. pose proof (refs_lookup _ _ _ _ _ Hp Hf) as Hpos.
  pose proof (Hok f) as Hff. destruct (ftable s !! f) as [ff|] eqn:Hft; [|lia].
  erewrite bind_ret by (apply (filedup_ok f ff); [done|lia|cbn; rewrite Hh; apply not_elem_of_nil]).
  eexists. split; [reflexivity|]. split; [|done]. intros i. cbn [ftable ptable setf].
  apply find_index_Some in Hn as (o&Ho&Hnone%bool_decide_eq_true&_). subst o.
  pose proof (refs_set_fd _ i p pr n None (Some f) Hp Ho) as Hcnt.
  unfold one in Hcnt at 1. rewrite decide_False, Nat.add_0_r in Hcnt by done. rewrite Hcnt.
  unfold one. specialize (Hok i). destruct (decide (i = f)) as [->|Hne].
  - rewrite list_lookup_alter_eq, Hft, decide_True by done. cbn.
    pose proof (Forall_lookup_1 _ _ _ _ Hmax Hft) as Hm; cbn in Hm. rewrite s32_small by lia. rewrite Hff in *. lia.
  - rewrite list_lookup_alter_ne, decide_False by congruence. rewrite Nat.add_0_r. exact Hok.
Qed.

Section CloseProperty.
Context {inodes : InodeOps}.

(** [close] removes the descriptor and one reference in one atomic step that
    keeps every reference count equal to the number of descriptors, and then
    closes the object behind the file (pipe end, socket or inode) exactly when
    this was the last descriptor referring to it. *)
Theorem close_counts p pr s fd f :
  running s p pr -> refs_ok s -> 0 <= fd < NOFILE -> p_ofile pr !! Z.to_nat fd = Some (Some f) ->
  exists s1 ff, refs_ok s1 /\ held s1 = [] /\ ftable s !! f = Some ff /\
    ptable s1 = alter (fun pr => pr <| p_ofile := <[Z.to_nat fd := None]> (p_ofile pr) |>) p (ptable s) /\
    sys_close fd s =
      if Nat.eqb (refs (ptable s1) f) 0
      then (close_object (ff <| f_ref := 0 |>) ;; mret 0) s1 else Ret 0 s1.
Proof.
  intros Hrun Hok Hfd Hf. unfold sys_close. rewrite (bind_argfd p pr) by done.
  rewrite (proj2 (Z.ltb_ge _ _)), (proj2 (Z.leb_gt _ _)) by lia. cbn [orb]. rewrite Hf.
  destruct Hrun as (Hc&Hp&Hl&Hh). rewrite (bind_current p) by done.
  unfold set_fd, Proc.set_proc. rewrite bind_modify.
  set (s0 := s <| ptable := _ |>). pose proof (Hok f) as Hff.
  pose proof (refs_lookup _ _ _ _ _ Hp Hf) as Hpos.
  destruct (ftable s !! f) as [ff|] eqn:Hft; [|lia].
  assert (Hcnt : forall i, (refs (ptable s0) i + one i (Some f) = refs (ptable s) i)%nat).
  { intros i. pose proof (refs_set_fd _ i p pr _ (Some f) None Hp Hf) as H.
    unfold one in H at 2. rewrite decide_False, Nat.add_0_r in H by done. exact H. }
  set (ff' := if 1 <? f_ref ff then ff <| f_ref := f_ref ff - 1 |>
              else ff <| f_ref := 0 |> <| f_type := FD_NONE |>).
  set (s1 := s0 <| ftable := <[f := ff']> (ftable s) |>).
  assert (Hrc : Nat.eqb (refs (ptable s1) f) 0 = negb (1 <? f_ref ff)).
  { pose proof (Hcnt f) as H. unfold one in H. rewrite decide_True in H by done.
    change (ptable s1) with (ptable s0). destruct (Z.ltb_spec 1 (f_ref ff)); cbn [negb];
      [apply Nat.eqb_neq|apply Nat.eqb_eq]; lia. }
  exists s1, ff. split_and!; [|done..|].
  - intros i. specialize (Hok i). specialize (Hcnt i). unfold one in Hcnt. cbn [ftable s1 setf].
    change (ptable s1) with (ptable s0). destruct (decide (i = f)) as [->|Hne].
    + rewrite list_lookup_insert_eq by (by eapply lookup_lt_Some). subst ff'.
      rewrite decide_True in Hcnt by done. destruct (Z.ltb_spec 1 (f_ref ff)); cbn [f_ref setf]; lia.
    + rewrite list_lookup_insert_ne by done. rewrite decide_False, Nat.add_0_r in Hcnt by congruence.
      by rewrite Hcnt.
  - rewrite Hrc. unfold mbind at 1, M_bind at 1. rewrite (fileclose_ok f ff s0) by (done || lia).
    subst s1 ff'. destruct (Z.ltb_spec 1 (f_ref ff)); cbn [negb]; [done|].
    by replace (f_ref ff - 1) with 0 by lia.
Qed.

End CloseProperty.

(** Two descriptors for one file. *)
Definition demo_fds : kstate :=
  (Proc.demo_state []) <| ptable := [zero_proc <| p_state := RUNNING |> <| p_pid := 1 |>
      <| p_ofile := [Some 0%nat; Some 0%nat] ++ replicate 14 None |>] |>
    <| ftable := [mkFile FD_PIPE 2 true false 0x80300000 None None 0] |>.
Definition demo_proc : proc := zero_proc <| p_state := RUNNING |> <| p_pid := 1 |>
  <| p_ofile := [Some 0%nat; Some 0%nat] ++ replicate 14 None |>.

Lemma demo_running : running demo_fds 0 demo_proc.
Proof. repeat split. Qed.
Lemma demo_refs : refs_ok demo_fds.
Proof. intros [|i]; reflexivity. Qed.

Lemma dup_counts_witness : exists s', sys_dup 0 demo_fds = Ret 2 s' /\ refs_ok s'.
Proof.
  destruct (dup_counts 0 demo_proc demo_fds 0 demo_running demo_refs) as (s'&H1&H2&_).
  - repeat constructor.
  - split; [lia|reflexivity].
  - exists s'. split; [exact H1|exact H2].
Defined.

(** No inodes are involved. *)
Definition no_inodes : InodeOps :=
  {| begin_op := mret tt; end_op := mret tt; ilock _ := mret tt; iunlock _ := mret tt;
     iput _ := mret tt; stati _ := mret (mkStat 0 0 0 0 0); readi _ _ _ := mret (-1, []); writei _ _ _ _ := mret (-1) |}.

Lemma close_counts_witness : exists s1, refs_ok s1 /\ sys_close (inodes := no_inodes) 1 demo_fds = Ret 0 s1.
Proof.
  destruct (close_counts (inodes := no_inodes) 0 demo_proc demo_fds 1 0 demo_running demo_refs)
    as (s1&ff&H1&_&_&H2&H3); [split; [lia|reflexivity]|reflexivity|].
  exists s1. split; [exact H1|]. rewrite H3, H2. reflexivity.
Defined.

End File.
