(* ===== verification/Fs.v ===== *)
(** * Fs: the file system (fs.c, fs.h)

    Block allocation, the inode cache, file contents, directories and path
    names, on the buffer cache and the log.  A pointer to an inode is its index
    in [icache]; a null pointer is [None].  A [struct dinode] is 64 bytes of an
    inode block and a [struct dirent] 16 bytes of a directory's contents.  The
    functions of the device switch are a parameter ([Devices]), as drivers
    install them at boot.  The theorems on these definitions are in Trans (code
    inside a transaction), Balloc, Inode, Itrunc, Icache, Dir and Namei. *)
From S2P Require Import Prelude Printf KState Kalloc Proc Sleeplock Bio Log File.

(** ** fs.h, stat.h, param.h *)
Definition ROOTINO : Z := 1.
Definition ROOTDEV : Z := 1.
Definition NDIRECT : Z := 12.
Definition NINDIRECT : Z := 128.
Definition MAXFILE : Z := NDIRECT + NINDIRECT.
Definition IPB : Z := 8.
Definition BPB : Z := BSIZE * 8.
Definition DIRSIZ : nat := 14.
Definition SIZEOF_DINODE : Z := 64.
Definition SIZEOF_DIRENT : Z := 16.
Definition T_DIR : Z := 1.
Definition T_FILE : Z := 2.
Definition T_DEV : Z := 3.
Definition NDEV : Z := 10.
Definition NINODE : nat := 50.

Definition IBLOCK (i : Z) (sb : superblock) : Z := u32 (i `div` IPB + sb_inodestart sb).
Definition BBLOCK (b : Z) (sb : superblock) : Z := u32 (b `div` BPB + sb_bmapstart sb).

(** [short] *)
Definition s16 (z : Z) : Z := (z + 2 ^ 15) `mod` 2 ^ 16 - 2 ^ 15.

(** The device switch: [None] is a null function pointer. *)
Class Devices := {
  dev_read : Z -> option (nat -> Z -> M (Z * list Z));
  dev_write : Z -> option (nat -> list Z -> Z -> M Z);
}.

Module Fs.
Import Sleeplock Bio Log.

(** The sleep-lock of inode [ip]. *)
Definition ilk (ip : nat) : nat := (NBUF + ip)%nat.

Definition get_sb : M superblock := gets (fun s => KState.sb (fs s)).
Definition get_inode (ip : nat) : M inode := l ← gets (fun s => icache (fs s)); need (l !! ip) "icache.inode[]".
(** [ip->field = ...], where [ip] points into the cache. *)
Definition set_inode (ip : nat) (g : inode -> inode) : M unit :=
  upd_fs (fun f => f <| icache := alter g ip (icache f) |>).
(** Stores to [bp->data]. *)
Definition upd_data (i : nat) (g : list Z -> list Z) : M unit :=
  set_buf i (fun b => b <| b_data := g (b_data b) |>).

(** ** Bits of a bitmap block and words of an indirect block *)
Definition bit_at (data : list Z) (bi : Z) : option bool :=
  byte ← data !! Z.to_nat (bi `div` 8); Some (negb (Z.land byte (Z.shiftl 1 (bi `mod` 8)) =? 0)).
Definition set_bit (bi : Z) (data : list Z) : list Z :=
  alter (fun byte => Z.lor byte (Z.shiftl 1 (bi `mod` 8))) (Z.to_nat (bi `div` 8)) data.
Definition clear_bit (bi : Z) (data : list Z) : list Z :=
  alter (fun byte => Z.land byte (Z.lnot (Z.shiftl 1 (bi `mod` 8)))) (Z.to_nat (bi `div` 8)) data.

(** ** struct dinode *)
Definition dinode_bytes (ip : inode) : list Z :=
  le16 (i_type ip) ++ le16 (i_major ip) ++ le16 (i_minor ip) ++ le16 (i_nlink ip) ++ le32 (i_size ip)
  ++ concat (le32 <$> i_addrs ip).
(** The fields of [ip] read from the dinode at offset [o]. *)
Definition load_dinode (d : list Z) (o : nat) (ip : inode) : inode :=
  ip <| i_type := s16 (get16 d o) |> <| i_major := s16 (get16 d (o + 2)) |>
     <| i_minor := s16 (get16 d (o + 4)) |> <| i_nlink := s16 (get16 d (o + 6)) |>
     <| i_size := get32 d (o + 8) |>
     <| i_addrs := (fun k => get32 d (o + 12 + 4 * k)) <$> seq 0 13 |>.
(** The offset of [dip] in its block. *)
Definition dinode_off (inum : Z) : nat := Z.to_nat (inum `mod` IPB * SIZEOF_DINODE).

Section Code.
Context (fuel : nat) {devs : Devices}.

(** ** Blocks *)
Definition bzero (dev bno : Z) : M unit :=
  bp ← bread fuel dev bno;
  upd_data bp (fun _ => zero_bytes BSIZE) ;;
  log_write bp ;;
  brelse bp.

(** The inner loop of [balloc]: the first clear bit of a bitmap block. *)
Fixpoint balloc_scan (n : nat) (data : list Z) (b bi size : Z) : option (option Z) :=
  match n with
  | O => None
  | S k =>
    if (bi <? BPB) && (b + bi <? size) then
      used ← bit_at data bi;
      if (used : bool) then balloc_scan k data b (bi + 1) size else Some (Some bi)
    else Some None
  end.

Fixpoint balloc_loop (n : nat) (dev b : Z) : M Z :=
  match n with
  | O => fault "balloc: fuel"
  | S k =>
    sb ← get_sb;
    if b <? sb_size sb then
      bp ← bread fuel dev (BBLOCK b sb);
      buf ← get_buf bp;
      o ← need (balloc_scan (S (Z.to_nat BPB)) (b_data buf) b 0 (sb_size sb)) "balloc: bp->data";
      match o with
      | Some bi =>
        upd_data bp (set_bit bi) ;;
        log_write bp ;;
        brelse bp ;;
        bzero dev (b + bi) ;;
        mret (b + bi)
      | None => brelse bp ;; balloc_loop k dev (b + BPB)
      end
    else panic "balloc: out of blocks"
  end.
Definition balloc (dev : Z) : M Z :=
  sb ← get_sb; balloc_loop (S (S (Z.to_nat (sb_size sb `div` BPB)))) dev 0.

Definition bfree (dev b : Z) : M unit :=
  sb ← get_sb;
  bp ← bread fuel dev (BBLOCK b sb);
  let bi := b `mod` BPB in
  buf ← get_buf bp;
  used ← need (bit_at (b_data buf) bi) "bfree: bp->data";
  if negb used then panic "freeing free block" else
  upd_data bp (clear_bit bi) ;;
  log_write bp ;;
  brelse bp.

(** ** Inodes *)
Definition iget (dev inum : Z) : M nat :=
  acquire LkIcache ;;
  l ← gets (fun s => icache (fs s));
  match find_index (fun ip => (0 <? i_ref ip) && (i_dev ip =? dev) && (i_inum ip =? inum)) l with
  | Some ip =>
    set_inode ip (fun i => i <| i_ref := s32 (i_ref i + 1) |>) ;;
    release LkIcache ;;
    mret ip
  | None =>
    match find_index (fun ip => i_ref ip =? 0) l with
    | None => panic "iget: no inodes"
    | Some ip =>
      set_inode ip (fun i => i <| i_dev := dev |> <| i_inum := inum |> <| i_ref := 1 |> <| i_valid := false |>) ;;
      release LkIcache ;;
      mret ip
    end
  end.

Definition show_int (z : Z) : list Z := default [] (Printf.printint (s32 z) 10 true).

Definition iinit (dev : Z) : M unit :=
  mfor (seq 0 NINODE) (fun i => initsleeplock (ilk i)) ;;
  s ← readsb fuel dev;
  upd_fs (fun f => f <| KState.sb := s |>) ;;
  emit (EvPrint (chars "sb: size " ++ show_int (sb_size s) ++ chars " nblocks " ++ show_int (sb_nblocks s)
    ++ chars " ninodes " ++ show_int (sb_ninodes s) ++ chars " nlog " ++ show_int (sb_nlog s)
    ++ chars " logstart " ++ show_int (sb_logstart s) ++ chars " inodestart " ++ show_int (sb_inodestart s)
    ++ chars " bmap start " ++ show_int (sb_bmapstart s) ++ [10])).

(** [for(inum = ...; inum < sb.ninodes; inum++)], [n] turns at most. *)
Fixpoint ialloc_loop (n : nat) (dev type inum : Z) : M nat :=
  match n with
  | O => fault "ialloc: fuel"
  | S k =>
    sb ← get_sb;
    if inum <? sb_ninodes sb then
      bp ← bread fuel dev (IBLOCK inum sb);
      buf ← get_buf bp;
      if get16 (b_data buf) (dinode_off inum) =? 0 then
        upd_data bp (fun d => blit d (dinode_off inum) (le16 type ++ zero_bytes (SIZEOF_DINODE - 2))) ;;
        log_write bp ;;
        brelse bp ;;
        iget dev inum
      else brelse bp ;; ialloc_loop k dev type (inum + 1)
    else panic "ialloc: no inodes"
  end.
Definition ialloc (dev type : Z) : M nat :=
  sb ← get_sb; ialloc_loop (S (Z.to_nat (sb_ninodes sb))) dev type 1.

Definition iupdate (ip : nat) : M unit :=
  i ← get_inode ip;
  sb ← get_sb;
  bp ← bread fuel (i_dev i) (IBLOCK (i_inum i) sb);
  i ← get_inode ip;
  upd_data bp (fun d => blit d (dinode_off (i_inum i)) (dinode_bytes i)) ;;
  log_write bp ;;
  brelse bp.

Definition idup (ip : nat) : M nat :=
  acquire LkIcache ;;
  set_inode ip (fun i => i <| i_ref := s32 (i_ref i + 1) |>) ;;
  release LkIcache ;;
  mret ip.

Definition ilock (o : option nat) : M unit :=
  match o with
  | None => panic "ilock"
  | Some ip =>
    i ← get_inode ip;
    if i_ref i <? 1 then panic "ilock" else
    acquiresleep fuel (ilk ip) ;;
    i ← get_inode ip;
    if i_valid i then mret tt else
    sb ← get_sb;
    bp ← bread fuel (i_dev i) (IBLOCK (i_inum i) sb);
    buf ← get_buf bp;
    set_inode ip (load_dinode (b_data buf) (dinode_off (i_inum i))) ;;
    brelse bp ;;
    set_inode ip (fun i => i <| i_valid := true |>) ;;
    i ← get_inode ip;
    if i_type i =? 0 then panic "ilock: no type" else mret tt
  end.

Definition iunlock (o : option nat) : M unit :=
  match o with
  | None => panic "iunlock"
  | Some ip =>
    h ← holdingsleep (ilk ip);
    i ← get_inode ip;
    if negb h || (i_ref i <? 1) then panic "iunlock" else
    releasesleep (ilk ip)
  end.

(** ** Inode content *)
Definition set_addr (ip : nat) (k : nat) (addr : Z) : M unit :=
  set_inode ip (fun i => i <| i_addrs := <[k := addr]> (i_addrs i) |>).

Definition bmap (ip : nat) (bn : Z) : M Z :=
  i ← get_inode ip;
  if bn <? NDIRECT then
    addr ← need (i_addrs i !! Z.to_nat bn) "ip->addrs";
    if addr =? 0 then addr ← balloc (i_dev i); set_addr ip (Z.to_nat bn) addr ;; mret addr
    else mret addr
  else
    let bn := bn - NDIRECT in
    if bn <? NINDIRECT then
      addr ← need (i_addrs i !! Z.to_nat NDIRECT) "ip->addrs";
      addr ← (if addr =? 0 then addr ← balloc (i_dev i); set_addr ip (Z.to_nat NDIRECT) addr ;; mret addr
              else mret addr);
      bp ← bread fuel (i_dev i) addr;
      buf ← get_buf bp;
      let addr := get32 (b_data buf) (4 * Z.to_nat bn) in
      addr ← (if addr =? 0 then
                addr ← balloc (i_dev i);
                upd_data bp (fun d => blit d (4 * Z.to_nat bn) (le32 addr)) ;;
                log_write bp ;;
                mret addr
              else mret addr);
      brelse bp ;;
      mret addr
    else panic "bmap: out of range".

Definition itrunc (ip : nat) : M unit :=
  mfor (seq 0 (Z.to_nat NDIRECT)) (fun k =>
    i ← get_inode ip;
    addr ← need (i_addrs i !! k) "ip->addrs";
    if addr =? 0 then mret tt else bfree (i_dev i) addr ;; set_addr ip k 0) ;;
  i ← get_inode ip;
  addr ← need (i_addrs i !! Z.to_nat NDIRECT) "ip->addrs";
  (if addr =? 0 then mret tt else
     bp ← bread fuel (i_dev i) addr;
     mfor (seq 0 (Z.to_nat NINDIRECT)) (fun j =>
       buf ← get_buf bp;
       let a := get32 (b_data buf) (4 * j) in
       if a =? 0 then mret tt else bfree (i_dev i) a) ;;
     brelse bp ;;
     bfree (i_dev i) addr ;;
     set_addr ip (Z.to_nat NDIRECT) 0) ;;
  set_inode ip (fun i => i <| i_size := 0 |>) ;;
  iupdate ip.

Definition iput (ip : nat) : M unit :=
  acquiresleep fuel (ilk ip) ;;
  i ← get_inode ip;
  (if i_valid i && (i_nlink i =? 0) then
     acquire LkIcache ;;
     i ← get_inode ip;
     let r := i_ref i in
     release LkIcache ;;
     if r =? 1 then
       itrunc ip ;;
       set_inode ip (fun i => i <| i_type := 0 |>) ;;
       iupdate ip ;;
       set_inode ip (fun i => i <| i_valid := false |>)
     else mret tt
   else mret tt) ;;
  releasesleep (ilk ip) ;;
  acquire LkIcache ;;
  set_inode ip (fun i => i <| i_ref := i_ref i - 1 |>) ;;
  release LkIcache.

Definition iunlockput (ip : nat) : M unit := iunlock (Some ip) ;; iput ip.

Definition stati (ip : nat) : M stat :=
  i ← get_inode ip; mret (mkStat (i_type i) (i_dev i) (i_inum i) (i_nlink i) (i_size i)).

(** [min(n - tot, BSIZE - off%BSIZE)] *)
Definition piece (left off : Z) : Z := Z.min left (BSIZE - off `mod` BSIZE).

(** What is read of [left] bytes at [off]. *)
Fixpoint readi_loop (k : nat) (ip : nat) (off left : Z) : M (list Z) :=
  match k with
  | O => fault "readi: fuel"
  | S k =>
    if 0 <? left then
      i ← get_inode ip;
      addr ← bmap ip (off `div` BSIZE);
      bp ← bread fuel (i_dev i) addr;
      buf ← get_buf bp;
      let m := piece left off in
      got ← memmove (zero_bytes m) 0 (drop (Z.to_nat (off `mod` BSIZE)) (b_data buf)) m "readi: dst";
      brelse bp ;;
      rest ← readi_loop k ip (u32 (off + m)) (left - m);
      mret (got ++ rest)
    else mret []
  end.
Definition loop_fuel (n : Z) : nat := S (S (S (Z.to_nat (n `div` BSIZE)))).

Definition readi (ip : nat) (off n : Z) : M (Z * list Z) :=
  i ← get_inode ip;
  if i_type i =? T_DEV then
    if (i_major i <? 0) || (NDEV <=? i_major i) then mret (-1, []) else
    match dev_read (i_major i) with
    | None => mret (-1, [])
    | Some read => read ip n
    end
  else
    let n := u32 n in
    if (i_size i <? off) || (u32 (off + n) <? off) then mret (-1, []) else
    let n := if i_size i <? u32 (off + n) then u32 (i_size i - off) else n in
    bytes ← readi_loop (loop_fuel n) ip off n;
    mret (s32 n, bytes).

(** The offset after the loop. *)
Fixpoint writei_loop (k : nat) (ip : nat) (src : list Z) (off left : Z) : M Z :=
  match k with
  | O => fault "writei: fuel"
  | S k =>
    if 0 <? left then
      i ← get_inode ip;
      addr ← bmap ip (off `div` BSIZE);
      bp ← bread fuel (i_dev i) addr;
      buf ← get_buf bp;
      let m := piece left off in
      d ← memmove (b_data buf) (off `mod` BSIZE) src m "writei: bp->data";
      upd_data bp (fun _ => d) ;;
      log_write bp ;;
      brelse bp ;;
      writei_loop k ip (drop (Z.to_nat m) src) (u32 (off + m)) (left - m)
    else mret off
  end.

Definition writei (ip : nat) (src : list Z) (off n : Z) : M Z :=
  i ← get_inode ip;
  if i_type i =? T_DEV then
    if (i_major i <? 0) || (NDEV <=? i_major i) then mret (-1) else
    match dev_write (i_major i) with
    | None => mret (-1)
    | Some write => write ip src n
    end
  else
    let n := u32 n in
    if (i_size i <? off) || (u32 (off + n) <? off) then mret (-1) else
    if MAXFILE * BSIZE <? u32 (off + n) then mret (-1) else
    off' ← writei_loop (loop_fuel n) ip src off n;
    i ← get_inode ip;
    (if (0 <? n) && (i_size i <? off') then
       set_inode ip (fun i => i <| i_size := off' |>) ;; iupdate ip
     else mret tt) ;;
    mret (s32 n).

(** ** Directories *)

(** [strncmp(p, q, n)] of string.c on two character arrays. *)
Fixpoint strncmp (n : nat) (p q : list Z) : option Z :=
  match n with
  | O => Some 0
  | S n =>
    match p, q with
    | c :: p, d :: q => if negb (c =? 0) && (c =? d) then strncmp n p q else Some (c - d)
    | _, _ => None
    end
  end.
Definition namecmp (s t : list Z) : option Z := strncmp DIRSIZ s t.

(** [strncpy(s, t, n)] of string.c: the new contents of [s]. *)
Fixpoint strncpy (n : nat) (t : list Z) : option (list Z) :=
  match n with
  | O => Some []
  | S n =>
    match t with
    | [] => None
    | c :: t => if c =? 0 then Some (replicate (S n) 0) else r ← strncpy n t; Some (c :: r)
    end
  end.

Definition de_inum (de : list Z) : Z := get16 de 0.
Definition de_name (de : list Z) : list Z := drop 2 de.

(** The inode found and the offset of its entry. *)
Fixpoint dirlookup_loop (k : nat) (dp : nat) (name : list Z) (off : Z) : M (option (nat * Z)) :=
  match k with
  | O => fault "dirlookup: fuel"
  | S k =>
    d ← get_inode dp;
    if off <? i_size d then
      '(n, de) ← readi dp off SIZEOF_DIRENT;
      if negb (n =? SIZEOF_DIRENT) then panic "dirlookup read" else
      if de_inum de =? 0 then dirlookup_loop k dp name (u32 (off + SIZEOF_DIRENT)) else
      c ← need (namecmp name (de_name de)) "namecmp";
      if c =? 0 then ip ← iget (i_dev d) (de_inum de); mret (Some (ip, off))
      else dirlookup_loop k dp name (u32 (off + SIZEOF_DIRENT))
    else mret None
  end.
Definition dir_fuel (d : inode) : nat := S (S (Z.to_nat (i_size d `div` SIZEOF_DIRENT))).

Definition dirlookup (dp : nat) (name : list Z) : M (option (nat * Z)) :=
  d ← get_inode dp;
  if negb (i_type d =? T_DIR) then panic "dirlookup not DIR" else
  dirlookup_loop (dir_fuel d) dp name 0.

(** The offset of the first empty entry, or of the end. *)
Fixpoint empty_dirent (k : nat) (dp : nat) (off : Z) : M Z :=
  match k with
  | O => fault "dirlink: fuel"
  | S k =>
    d ← get_inode dp;
    if off <? i_size d then
      '(n, de) ← readi dp off SIZEOF_DIRENT;
      if negb (n =? SIZEOF_DIRENT) then panic "dirlink read" else
      if de_inum de =? 0 then mret off else empty_dirent k dp (off + SIZEOF_DIRENT)
    else mret off
  end.

Definition dirlink (dp : nat) (name : list Z) (inum : Z) : M Z :=
  o ← dirlookup dp name;
  match o with
  | Some (ip, _) => iput ip ;; mret (-1)
  | None =>
    d ← get_inode dp;
    off ← empty_dirent (dir_fuel d) dp 0;
    nm ← need (strncpy DIRSIZ name) "dirlink: name";
    n ← writei dp (le16 inum ++ nm) off SIZEOF_DIRENT;
    if negb (n =? SIZEOF_DIRENT) then panic "dirlink" else mret 0
  end.

(** ** Paths: a C string is the list of its characters *)
Definition SLASH : Z := 47.
Fixpoint skip_slashes (path : list Z) : list Z :=
  match path with c :: p => if c =? SLASH then skip_slashes p else path | [] => [] end.
(** The element at the start of [path] and the rest. *)
Fixpoint span_elem (path : list Z) : list Z * list Z :=
  match path with
  | c :: p => if c =? SLASH then ([], path) else let '(e, r) := span_elem p in (c :: e, r)
  | [] => ([], [])
  end.
(** The rest of the path and the new contents of [name]. *)
Definition skipelem (path name : list Z) : option (list Z * list Z) :=
  match skip_slashes path with
  | [] => None
  | path =>
    let '(s, path) := span_elem path in
    let name :=
      if (DIRSIZ <=? length s)%nat then blit name 0 (take DIRSIZ s)
      else blit name 0 (s ++ [0]) in
    Some (skip_slashes path, name)
  end.

Fixpoint namex_loop (k : nat) (ip : nat) (path : list Z) (nameiparent : bool) (name : list Z) :
    M (option nat * list Z) :=
  match k with
  | O => fault "namex: fuel"
  | S k =>
    match skipelem path name with
    | None => if nameiparent then iput ip ;; mret (None, name) else mret (Some ip, name)
    | Some (path, name) =>
      ilock (Some ip) ;;
      i ← get_inode ip;
      if negb (i_type i =? T_DIR) then iunlockput ip ;; mret (None, name)
      else if nameiparent && bool_decide (path = []) then iunlock (Some ip) ;; mret (Some ip, name)
      else
        next ← dirlookup ip name;
        match next with
        | None => iunlockput ip ;; mret (None, name)
        | Some (next, _) => iunlockput ip ;; namex_loop k next path nameiparent name
        end
    end
  end.

Definition namex (path : list Z) (nameiparent : bool) (name : list Z) : M (option nat * list Z) :=
  ip ← (if bool_decide (head path = Some SLASH) then iget ROOTDEV ROOTINO
        else p ← File.current; p ← Proc.get_proc p; cwd ← need (p_cwd p) "myproc()->cwd"; idup cwd);
  namex_loop (S (length path)) ip path nameiparent name.

Definition namei `{Stack} (path : list Z) : M (option nat) :=
  r ← namex path false (uninit DIRSIZ); mret (fst r).
Definition nameiparent (path name : list Z) : M (option nat * list Z) := namex path true name.

(** ** What file.c and sysfile.c use of the inode layer *)
#[export] Instance fs_inodes : InodeOps := {|
  File.begin_op := begin_op fuel;
  File.end_op := end_op fuel;
  File.ilock ip := ilock (Some ip);
  File.iunlock ip := iunlock (Some ip);
  File.iput := iput;
  File.stati := stati;
  File.readi := readi;
  File.writei := writei;
|}.

End Code.

End Fs.
