(* ===== verification/Trans.v ===== *)
(** * Trans: file-system code inside a transaction

    The functions of fs.c run between [begin_op] and [end_op], on the buffer
    cache.  This file has the state they see ([view]: the contents of every
    block, the buffers held, the blocks logged, the inode cache) and the triple
    [wp] in which the theorems on fs.c are proved: the code runs to completion,
    without writing the disk, from one view to another.  The rules for [bread],
    [brelse] and [log_write] come from Bio and Log. *)
From S2P Require Import Prelude KState Kalloc Proc Sleeplock Bio Log Fs.

Record view : Type := mkView {
  v_held : list (nat * Z);     (* the buffers held and their blocks, the last one taken first *)
  v_disk : list (list Z);      (* what a reader of each block sees *)
  v_logged : list Z;           (* the blocks recorded in the transaction *)
  v_inodes : list inode;
  v_locked : list nat;         (* the inodes locked by the process *)
}.
#[export] Instance eta_view : Eta view :=
  fun v => mkView (v_held v) (v_disk v) (v_logged v) (v_inodes v) (v_locked v).

Module Trans.
Import Sleeplock Bio Log Fs.

(** Reduce accesses to the fields of updated views and states. *)
Ltac fields :=
  cbn [v_held v_disk v_logged v_inodes v_locked bufs sleeplocks lru memdisk log KState.sb icache
       with_buf freed marked setf fmap list_fmap fst snd].

Lemma alter_insert_at {T} (g : T -> T) k x (l : list T) : (k < length l)%nat -> alter g k (<[k := x]> l) = <[k := g x]> l.
Proof. intros Hk. by rewrite (list_alter_to_insert _ _ _ x), list_insert_insert_eq by (by apply list_lookup_insert_eq). Qed.

Lemma filter_ne_notin (x : nat) (l : list nat) : x ∉ l -> filter (fun y => y <> x) l = l.
Proof.
  induction l as [|y l IH]; [done|]. rewrite not_elem_of_cons. intros [Hne Hl]. rewrite filter_cons_True by congruence.
  by rewrite IH.
Qed.

(** The blocks recorded once [bn] is. *)
Definition log_add (bn : Z) (bl : list Z) : list Z := if decide (bn ∈ bl) then bl else bl ++ [bn].

Section Trans.
Context (pid : Z) (fuel : nat) (l0 : log_t) (sb0 : superblock).
Abbreviation mine := (mkSleeplock true pid).

(** The state of the storage stack [f], seen as [v]. *)
Record rep_on (m : list (list Z)) (D : gmap Z (list Z)) (f : fs_t) (v : view) : Prop := {
  rp_cache : cache_ok pid f (v_held v).*1 m D;
  rp_bufs : length (bufs f) = NBUF;
  rp_recorded : recorded m D (log f) (v_logged v);
  rp_geometry : geometry m (log f);
  rp_log : same_log l0 (log f);
  rp_length : length (v_disk v) = length m;
  rp_disk : forall a, content m D (Z.of_nat a) = v_disk v !! a;
  rp_nodup : NoDup (v_held v).*1;
  rp_held : forall i bn, (i, bn) ∈ v_held v -> exists b, bufs f !! i = Some b /\ b_blockno b = bn;
  rp_inodes : icache f = v_inodes v;
  rp_sb : KState.sb f = sb0;
  rp_ilocks : forall ip, (ip < NINODE)%nat -> exists sl, sleeplocks f !! ilk ip = Some sl /\
    if decide (ip ∈ v_locked v) then sl = mine else sl_locked sl = false;
}.
Definition rep (f : fs_t) (v : view) : Prop := exists m D, rep_on m D f v.

(** [m], run by the process with no spinlock held in a state seen as [v],
    returns a value and a view in [Q], with no disk write. *)
Definition wp {T} (m : M T) (v : view) (Q : T -> view -> Prop) : Prop :=
  forall f, rep f v -> exists a f' v', runs pid m [] f a [] [] f' /\ rep f' v' /\ Q a v'.

(** ** Structural rules *)
Lemma wp_ret {T} (a : T) v (Q : T -> view -> Prop) : Q a v -> wp (mret a) v Q.
Proof. intros HQ f Hf. exists a, f, v. split_and!; [apply runs_ret|done|done]. Qed.

Lemma wp_bind {T U} (m : M T) (k : T -> M U) v Q :
  wp m v (fun a v' => wp (k a) v' Q) -> wp (m ≫= k) v Q.
Proof.
  intros Hm f Hf. destruct (Hm f Hf) as (a&f1&v1&R1&Hf1&Hk).
  destruct (Hk f1 Hf1) as (b&f2&v2&R2&Hf2&HQ). exists b, f2, v2. split_and!; [|done..].
  by eapply runs_seq.
Qed.

Lemma wp_mono {T} (m : M T) v (Q Q' : T -> view -> Prop) :
  wp m v Q -> (forall a v', Q a v' -> Q' a v') -> wp m v Q'.
Proof. intros Hm HQ f Hf. destruct (Hm f Hf) as (a&f'&v'&?&?&?). exists a, f', v'. auto. Qed.

Lemma wp_seq {T U} (m : M T) (k : T -> M U) v (R : T -> view -> Prop) Q :
  wp m v R -> (forall a v', R a v' -> wp (k a) v' Q) -> wp (m ≫= k) v Q.
Proof. intros Hm Hk. apply wp_bind. by eapply wp_mono. Qed.

(** The rules below are for an operation and what follows it; this is one alone. *)
Lemma wp_alone {T} (m : M T) v Q : wp (m ≫= mret) v Q -> wp m v Q.
Proof.
  intros Hm f Hf. destruct (Hm f Hf) as (a&f'&v'&R&Hf'&HQ). exists a, f', v'. split_and!; [|done..].
  intros s Hs Hfs. destruct (R s Hs Hfs) as (s'&E&Hs'). exists s'. split; [|done].
  unfold mbind, M_bind in E. by destruct (m s).
Qed.

(** A loop with an invariant. *)
Lemma wp_mfor {T} (l : list T) (body : T -> M unit) (I : list T -> view -> Prop) v Q :
  I [] v -> (forall done x rest v', l = done ++ x :: rest -> I done v' -> wp (body x) v' (fun _ => I (done ++ [x]))) ->
  (forall v', I l v' -> Q tt v') -> wp (mfor l body) v Q.
Proof.
  intros H0 Hs HQ. assert (Hgen : forall rest done v', l = done ++ rest -> I done v' -> wp (mfor rest body) v' Q).
  { induction rest as [|x rest IH]; intros done' v' El Hi; cbn [mfor].
    - rewrite app_nil_r in El. subst done'. apply wp_ret. by apply HQ.
    - eapply wp_seq; [by eapply Hs|]. intros u v'' Hi'. cbv beta in Hi'. apply (IH (done' ++ [x])); [|done].
      by rewrite <- app_assoc. }
  by apply (Hgen l []).
Qed.

Lemma wp_need {T U} (o : option T) a msg (k : T -> M U) v Q :
  o = Some a -> wp (k a) v Q -> wp (need o msg ≫= k) v Q.
Proof. intros -> Hk. apply wp_bind. by apply wp_ret. Qed.

(** A computation that only reads the storage stack. *)
Lemma wp_read {T U} (g : fs_t -> T) a (k : T -> M U) v Q :
  (forall f, rep f v -> g f = a) -> wp (k a) v Q -> wp (gets (fun s => g (fs s)) ≫= k) v Q.
Proof.
  intros Hg Hk f Hf. destruct (Hk f Hf) as (b&f'&v'&R&Hf'&HQ). exists b, f', v'. split_and!; [|done..].
  apply (runs_gets pid g). by rewrite Hg.
Qed.

(** The recorded blocks are distinct. *)
Lemma wp_nodup {T} (m : M T) v Q : (NoDup (v_logged v) -> wp m v Q) -> wp m v Q.
Proof. intros Hm f Hf. apply Hm; [|done]. destruct Hf as (m'&D&Hr). apply (rp_recorded _ _ _ _ Hr). Qed.

Lemma wp_get_sb {U} (k : superblock -> M U) v Q : wp (k sb0) v Q -> wp (get_sb ≫= k) v Q.
Proof. apply (wp_read KState.sb). intros f (m&D&Hr). apply Hr. Qed.

Lemma wp_get_inode {U} (k : inode -> M U) v ip i Q : v_inodes v !! ip = Some i ->
  wp (k i) v Q -> wp (get_inode ip ≫= k) v Q.
Proof.
  intros Hi Hk. apply wp_bind. apply (wp_read icache (v_inodes v)).
  - intros f (m&D&Hr). apply Hr.
  - rewrite Hi. by apply wp_ret.
Qed.

(** ** Changes of the inode cache *)
Lemma cache_ok_frame f f' H m D : bufs f' = bufs f -> lru f' = lru f -> memdisk f' = memdisk f ->
  (length (bufs f) <= length (sleeplocks f'))%nat ->
  (forall i, (i < length (bufs f))%nat -> sleeplocks f' !! i = sleeplocks f !! i) ->
  cache_ok pid f H m D -> cache_ok pid f' H m D.
Proof.
  intros Eb El Em Hl Es [Hdk Hlru Hlk Hhd Hrg Hun Hco Hdi Hdo]. split; rewrite ?Eb, ?El, ?Em; try done.
  intros i b sl Hb Hs. apply Hhd; [done|]. rewrite <- Es; [done|]. by eapply lookup_lt_Some.
Qed.

Lemma wp_set_inode ip g v Q :
  Q tt (v <| v_inodes := alter g ip (v_inodes v) |>) -> wp (set_inode ip g) v Q.
Proof.
  intros HQ f (m&D&Hr). exists tt. eexists _, _. split_and!; [apply runs_upd| |exact HQ].
  exists m, D. pose proof (ck_locks _ _ _ _ _ (rp_cache _ _ _ _ Hr)).
  split; try apply Hr; [by apply (cache_ok_frame f), Hr|]. cbn. by rewrite (rp_inodes _ _ _ _ Hr).
Qed.

(** ** Buffers *)
Lemma rep_buf m D f v i bn : rep_on m D f v -> (i, bn) ∈ v_held v ->
  exists b, bufs f !! i = Some b /\ b_blockno b = bn /\ 0 <= bn < Z.of_nat (length m) /\
    v_disk v !! Z.to_nat bn = Some (b_data b) /\ i ∈ (v_held v).*1.
Proof.
  intros Hr Hh. destruct (rp_held _ _ _ _ Hr i bn Hh) as (b&Hb&<-).
  assert (Hi : i ∈ (v_held v).*1) by (apply list_elem_of_fmap; by exists (i, b_blockno b)).
  destruct (held_buf pid f _ m D i (rp_cache _ _ _ _ Hr) Hi) as (b'&Hb'&_&_&Hv&Hdev). simplify_eq.
  pose proof (rp_cache _ _ _ _ Hr) as Hck. destruct (b_dirty b) eqn:Hd.
  - destruct (ck_dirty _ _ _ _ _ Hck i b Hb Hd) as (_&_&HD).
    assert (Hin : b_blockno b ∈ v_logged v) by (apply (rc_dom _ _ _ _ (rp_recorded _ _ _ _ Hr)); eauto).
    pose proof (rc_homes _ _ _ _ (rp_recorded _ _ _ _ Hr)) as Hhm. rewrite Forall_forall in Hhm.
    specialize (Hhm _ Hin) as [Hrg _]. exists b. split_and!; try done; try lia.
    rewrite <- (rp_disk _ _ _ _ Hr), Z2Nat.id by lia. unfold content. by rewrite HD.
  - destruct (ck_coherent _ _ _ _ _ Hck i b Hb Hdev Hv Hd) as [Hp Hm].
    pose proof (lookup_lt_Some _ _ _ Hm). exists b. split_and!; try done; try lia.
    rewrite <- (rp_disk _ _ _ _ Hr), Z2Nat.id by lia. unfold content.
    destruct (D !! b_blockno b) as [d|] eqn:HD; [|done].
    destruct (ck_dom _ _ _ _ _ Hck _ _ HD) as (j&c&Hj&Hjd&Hjb).
    destruct (ck_dirty _ _ _ _ _ Hck j c Hj Hjd) as (Hcd&_&_).
    assert (i = j) as -> by (by eapply (ck_unique _ _ _ _ _ Hck)). congruence.
Qed.

(** Reading a block takes a buffer. *)
Lemma wp_bread v bn Q : 0 <= bn < Z.of_nat (length (v_disk v)) -> bn ∉ (v_held v).*2 ->
  (length (v_held v) + length (v_logged v) < NBUF)%nat ->
  (forall i, i ∉ (v_held v).*1 -> Q i (v <| v_held := (i, bn) :: v_held v |>)) ->
  wp (bread (S fuel) 1 bn) v Q.
Proof.
  intros Hbn Hnh Hroom HQ f (m&D&Hr). pose proof (rp_length _ _ _ _ Hr) as Hlen.
  pose proof (recorded_size _ _ _ _ (rp_recorded _ _ _ _ Hr)) as Hsz.
  destruct (bread_ok pid fuel f (v_held v).*1 m D bn) as (i&b&Hrun&Hck&Hi&Hb&Hc).
  - apply Hr.
  - lia.
  - left. eapply spare_count; [apply Hr|]. rewrite length_fmap, (rp_bufs _ _ _ _ Hr). lia.
  - intros i b ([i' bn']&->&Hin)%list_elem_of_fmap Hb <-. cbn in Hb.
    destruct (rp_held _ _ _ _ Hr i' bn' Hin) as (b'&Hb'&E). simplify_eq.
    apply Hnh, list_elem_of_fmap. by exists (i', b_blockno b).
  - eexists i, _, _. split_and!; [exact Hrun| |by apply HQ]. exists m, D.
    pose proof (ck_range _ _ _ _ _ Hck i ltac:(by left)) as Hil. cbn in Hil. rewrite length_insert in Hil.
    split; try apply Hr; try exact Hck; fields.
    + rewrite length_insert. apply Hr.
    + constructor; [done|apply Hr].
    + intros j bn' [E|Hin]%elem_of_cons.
      * simplify_eq. exists b. by rewrite list_lookup_insert_eq.
      * destruct (rp_held _ _ _ _ Hr j bn' Hin) as (c&Hj&E). exists c. split; [|done].
        rewrite list_lookup_insert_ne; [done|]. intros ->. apply Hi, list_elem_of_fmap. by exists (j, bn').
    + intros ip Hip. destruct (rp_ilocks _ _ _ _ Hr ip Hip) as (sl&Hsl&E). exists sl. split; [|done].
      rewrite list_lookup_insert_ne; [done|]. unfold ilk. pose proof (rp_bufs _ _ _ _ Hr). lia.
Qed.

Lemma wp_get_buf {U} (k : buf -> M U) v i bn d Q : (i, bn) ∈ v_held v ->
  v_disk v !! Z.to_nat bn = Some d ->
  (forall b, b_data b = d -> b_blockno b = bn -> wp (k b) v Q) -> wp (get_buf i ≫= k) v Q.
Proof.
  intros Hh Hd Hk f Hf. pose proof Hf as (m&D&Hr). destruct (rep_buf m D f v i bn Hr Hh) as (b&Hb&E&_&Hd'&_).
  simplify_eq. destruct (Hk b eq_refl eq_refl f Hf) as (a&f'&v'&R&Hf'&HQ). exists a, f', v'.
  split_and!; [|done..]. eapply runs_seq; [by apply runs_get_buf|exact R].
Qed.

(** Releasing the last buffer taken. *)
Lemma wp_brelse v i bn H Q : v_held v = (i, bn) :: H -> Q tt (v <| v_held := H |>) ->
  wp (brelse i) v Q.
Proof.
  intros Hh HQ f (m&D&Hr). destruct (rp_held _ _ _ _ Hr i bn) as (b&Hb&_); [rewrite Hh; by left|].
  pose proof (rp_cache _ _ _ _ Hr) as Hck. pose proof (rp_nodup _ _ _ _ Hr) as Hnd. rewrite Hh in Hck, Hnd.
  apply NoDup_cons in Hnd as [Hni Hnd].
  destruct (brelse_ok pid f H.*1 m D i b Hck Hni Hb) as [Hrun Hck'].
  exists tt. eexists _, _. split_and!; [exact Hrun| |exact HQ]. exists m, D.
  split; try apply Hr; try done; fields.
  - rewrite length_insert. apply Hr.
  - intros j bn' Hin. destruct (rp_held _ _ _ _ Hr j bn') as (c&Hj&E); [rewrite Hh; by right|].
    exists c. split; [|done]. rewrite list_lookup_insert_ne; [done|]. intros ->.
    apply Hni, list_elem_of_fmap. by exists (j, bn').
  - intros ip Hip. destruct (rp_ilocks _ _ _ _ Hr ip Hip) as (sl&Hsl&E). exists sl. split; [|done].
    rewrite list_lookup_insert_ne; [done|]. unfold ilk. pose proof (rp_bufs _ _ _ _ Hr).
    pose proof (lookup_lt_Some _ _ _ Hb). lia.
Qed.

(** Changing a held buffer and logging it. *)
Lemma runs_log_write f i b g l : bufs f !! i = Some b -> log f = l -> l_size l = 30 ->
  0 < l_outstanding l -> lh_n l < 29 ->
  runs pid (upd_data i g ;; log_write i) [] f tt [] []
    ((marked f i b (g (b_data b))) <| log := record_block (b_blockno b) l |>).
Proof.
  intros Hb Hl Hsz Hout Hn. pose proof (lookup_lt_Some _ _ _ Hb).
  eapply runs_seq; [by apply runs_set_buf|]. unfold log_write. apply runs_get_log. cbn [log setf].
  rewrite Hl, Hsz. unfold LOGSIZE, MAXOPBLOCKS. rewrite !(proj2 (Z.leb_gt _ _)) by lia. cbn [orb].
  rewrite (proj2 (Z.ltb_ge _ _)) by lia. eapply runs_seq; [apply runs_acquire; set_solver|].
  eapply runs_seq; [apply runs_get_buf; by apply list_lookup_insert_eq|].
  apply runs_get_log. cbn [log setf b_blockno]. rewrite Hl.
  eapply runs_seq; [apply runs_set_log|]. cbn [log setf]. rewrite Hl.
  eapply runs_seq; [apply runs_set_buf; by apply list_lookup_insert_eq|]. cbn [bufs setf].
  rewrite list_insert_insert_eq. apply runs_release.
Qed.

(** Where the file system may write: outside the log. *)
Definition home (v : view) (bn : Z) : Prop :=
  0 <= bn < Z.of_nat (length (v_disk v)) /\ ~ (l_start l0 <= bn <= l_start l0 + 29).
Definition log_update (bn : Z) (d : list Z) (v : view) : view :=
  v <| v_disk := <[Z.to_nat bn := d]> (v_disk v) |> <| v_logged := log_add bn (v_logged v) |>.
(** The running transaction, with room for [n] more blocks. *)
Definition room (n : nat) (v : view) : Prop :=
  l_size l0 = 30 /\ 0 < l_outstanding l0 /\ (length (v_logged v) + n <= 29)%nat.

Lemma room_mono n k v v' : room n v -> (length (v_logged v') + k <= length (v_logged v) + n)%nat -> room k v'.
Proof. intros (Hs&Ho&Hl) Hk. split_and!; [done..|lia]. Qed.
Lemma length_log_add bn bl : (length bl <= length (log_add bn bl) <= S (length bl))%nat.
Proof. unfold log_add. case_decide; [lia|]. rewrite length_app. simpl. lia. Qed.

Lemma rep_log_update m D f v i bn b d : rep_on m D f v -> bufs f !! i = Some b -> b_blockno b = bn ->
  i ∈ (v_held v).*1 -> home v bn -> (length (v_logged v) < 29)%nat ->
  rep_on m (<[bn := d]> D) ((marked f i b d) <| log := record_block bn (log f) |>) (log_update bn d v).
Proof.
  intros Hr Hb Hbn Hi [Hrg Hno] Hl. pose proof (rp_length _ _ _ _ Hr) as Hlen.
  pose proof (rp_log _ _ _ _ Hr) as (E1&E2&E3&E4&E5). pose proof (rp_geometry _ _ _ _ Hr) as Hg.
  pose proof (cache_ok_marked pid f _ m D i b d (rp_cache _ _ _ _ Hr) Hi Hb) as Hck. rewrite Hbn in Hck.
  pose proof (recorded_block m D (log f) (v_logged v) bn d (rp_recorded _ _ _ _ Hr) Hg Hl) as Hrc.
  split; try apply Hr; unfold log_update; fields.
  - eapply cache_ok_frame; [..|exact Hck]; try done. fields. apply (ck_locks _ _ _ _ _ Hck).
  - rewrite length_insert. apply Hr.
  - apply Hrc; [lia|by rewrite E1].
  - rewrite length_insert. apply Hr.
  - intros a. apply content_insert; [done|lia|apply Hr].
  - intros j bn' Hin. destruct (rp_held _ _ _ _ Hr j bn' Hin) as (c&Hj&Hc).
    destruct (decide (i = j)) as [<-|Hne].
    + rewrite list_lookup_insert_eq by (by eapply lookup_lt_Some). eexists. split; [done|]. cbn. congruence.
    + rewrite list_lookup_insert_ne by done. eauto.
Qed.

Lemma wp_log_update {U} (k : M U) v i bn g d Q : (i, bn) ∈ v_held v ->
  v_disk v !! Z.to_nat bn = Some d -> home v bn -> room 1 v ->
  wp k (log_update bn (g d) v) Q -> wp (upd_data i g ;; log_write i ;; k) v Q.
Proof.
  intros Hh Hd Hho (Hsz&Hout&Hl) Hk f (m&D&Hr).
  destruct (rep_buf m D f v i bn Hr Hh) as (b&Hb&E&_&Hd'&Hi). simplify_eq.
  pose proof (rp_log _ _ _ _ Hr) as (E1&E2&E3&E4&E5).
  pose proof (rep_log_update m D f v i _ b (g (b_data b)) Hr Hb eq_refl Hi Hho ltac:(lia)) as Hr'.
  destruct (Hk _ (ex_intro _ m (ex_intro _ _ Hr'))) as (a&f2&v2&R2&Hf2&HQ).
  exists a, f2, v2. split_and!; [|done..].
  pose proof (runs_log_write f i b g (log f) Hb eq_refl) as R1.
  rewrite E2, E3, (rc_n _ _ _ _ (rp_recorded _ _ _ _ Hr)) in R1. specialize (R1 Hsz Hout ltac:(lia)).
  intros s Hs Hfs. destruct (runs_seq pid _ _ _ _ _ _ _ _ _ _ _ R1 R2 s Hs Hfs) as (s'&Es&Hrest).
  exists s'. split; [|done]. by rewrite <- Es.
Qed.

(** ** Inode locks *)
Lemma rep_ilock m D f v ip sl (locked : list nat) : rep_on m D f v -> (ip < NINODE)%nat ->
  (forall jp, jp <> ip -> jp ∈ locked <-> jp ∈ v_locked v) ->
  (if decide (ip ∈ locked) then sl = mine else sl_locked sl = false) ->
  rep_on m D (sl_at f (ilk ip) sl) (v <| v_locked := locked |>).
Proof.
  intros Hr Hip Hne Hsl. pose proof (rp_bufs _ _ _ _ Hr). pose proof (ck_locks _ _ _ _ _ (rp_cache _ _ _ _ Hr)).
  assert (Hlt : (ilk ip < length (sleeplocks f))%nat).
  { destruct (rp_ilocks _ _ _ _ Hr ip Hip) as (s&Hs&_). by eapply lookup_lt_Some. }
  split; try apply Hr; unfold sl_at; fields.
  - eapply cache_ok_frame; [..|apply Hr]; try done; fields; [by rewrite length_insert|].
    intros i Hi. apply list_lookup_insert_ne. unfold ilk. lia.
  - intros jp Hjp. destruct (rp_ilocks _ _ _ _ Hr jp Hjp) as (s&Hs&E). destruct (decide (jp = ip)) as [->|Hj].
    + exists sl. by rewrite list_lookup_insert_eq.
    + exists s. rewrite list_lookup_insert_ne by (unfold ilk; lia). split; [done|].
      destruct (decide (jp ∈ locked)) as [Hin|Hin], (decide (jp ∈ v_locked v)) as [Hin'|Hin']; try done;
        exfalso; naive_solver.
Qed.

Lemma wp_acquiresleep v ip Q : (ip < NINODE)%nat -> ip ∉ v_locked v ->
  Q tt (v <| v_locked := ip :: v_locked v |>) -> wp (acquiresleep (S fuel) (ilk ip)) v Q.
Proof.
  intros Hip Hn HQ f (m&D&Hr). destruct (rp_ilocks _ _ _ _ Hr ip Hip) as (sl&Hsl&E).
  rewrite decide_False in E by done. eexists tt, _, _. split_and!; [|exists m, D|exact HQ].
  - apply runs_acquiresleep with sl; [set_solver|done|done].
  - apply rep_ilock; try done; [intros jp Hj; rewrite elem_of_cons; naive_solver|].
    by rewrite decide_True by left.
Qed.

Lemma wp_releasesleep v ip Q : (ip < NINODE)%nat ->
  Q tt (v <| v_locked := filter (fun jp => jp <> ip) (v_locked v) |>) -> wp (releasesleep (ilk ip)) v Q.
Proof.
  intros Hip HQ f (m&D&Hr). eexists tt, _, _. split_and!; [|exists m, D|exact HQ].
  - apply runs_releasesleep; set_solver.
  - apply rep_ilock; try done; [intros jp Hj; rewrite list_elem_of_filter; naive_solver|].
    rewrite decide_False; [done|]. rewrite list_elem_of_filter. naive_solver.
Qed.

Lemma wp_holdingsleep v ip (Q : bool -> view -> Prop) : (ip < NINODE)%nat -> ip ∈ v_locked v ->
  Q true v -> wp (holdingsleep (ilk ip)) v Q.
Proof.
  intros Hip Hin HQ f (m&D&Hr). destruct (rp_ilocks _ _ _ _ Hr ip Hip) as (sl&Hsl&E).
  rewrite decide_True in E by done. subst sl. exists true, f, v. split_and!; [|by exists m, D|done].
  apply runs_holdingsleep; [set_solver|done].
Qed.

(** ** The inode cache *)
Lemma rep_icache m D f v ic : rep_on m D f v ->
  rep_on m D (f <| icache := ic |>) (v <| v_inodes := ic |>).
Proof.
  intros Hr. pose proof (ck_locks _ _ _ _ _ (rp_cache _ _ _ _ Hr)).
  split; try apply Hr; fields; [by apply (cache_ok_frame f), Hr|done].
Qed.

(** The entry [iget] returns and the cache it leaves. *)
Definition iget_entry (dev inum : Z) (l : list inode) : option (nat * list inode) :=
  match find_index (fun ip => (0 <? i_ref ip) && (i_dev ip =? dev) && (i_inum ip =? inum)) l with
  | Some ip => Some (ip, alter (fun i => i <| i_ref := s32 (i_ref i + 1) |>) ip l)
  | None =>
    ip ← find_index (fun ip => i_ref ip =? 0) l;
    Some (ip, alter (fun i => i <| i_dev := dev |> <| i_inum := inum |> <| i_ref := 1 |> <| i_valid := false |>) ip l)
  end.

Lemma wp_iget v dev inum ip l (Q : nat -> view -> Prop) : iget_entry dev inum (v_inodes v) = Some (ip, l) ->
  Q ip (v <| v_inodes := l |>) -> wp (iget dev inum) v Q.
Proof.
  intros He HQ f (m&D&Hr). exists ip, (f <| icache := l |>). eexists. split_and!; [|exists m, D; by apply rep_icache|exact HQ].
  unfold iget. eapply runs_seq; [apply runs_acquire; set_solver|]. apply (runs_gets pid icache).
  unfold iget_entry in He. rewrite (rp_inodes _ _ _ _ Hr). destruct (find_index _ _) as [i|].
  - simplify_eq. eapply runs_seq; [apply runs_upd|]. eapply runs_seq; [apply runs_release|].
    rewrite <- (rp_inodes _ _ _ _ Hr). apply runs_ret.
  - destruct (find_index _ _) as [i|]; [|done]. cbn in He. simplify_eq. eapply runs_seq; [apply runs_upd|].
    eapply runs_seq; [apply runs_release|]. rewrite <- (rp_inodes _ _ _ _ Hr). apply runs_ret.
Qed.

(** A field changed under the lock of the cache. *)
Lemma wp_icache_set {T} v ip g (a : T) (Q : T -> view -> Prop) :
  Q a (v <| v_inodes := alter g ip (v_inodes v) |>) ->
  wp (acquire LkIcache ;; set_inode ip g ;; release LkIcache ;; mret a) v Q.
Proof.
  intros HQ f (m&D&Hr). exists a. eexists _, _. split_and!; [|exists m, D; by apply rep_icache|exact HQ].
  eapply runs_seq; [apply runs_acquire; set_solver|]. eapply runs_seq; [apply runs_upd|].
  rewrite <- (rp_inodes _ _ _ _ Hr). eapply runs_seq; [apply runs_release|apply runs_ret].
Qed.

Lemma wp_icache_put v ip g (Q : unit -> view -> Prop) :
  Q tt (v <| v_inodes := alter g ip (v_inodes v) |>) -> wp (acquire LkIcache ;; set_inode ip g ;; release LkIcache) v Q.
Proof.
  intros HQ f (m&D&Hr). exists tt. eexists _, _. split_and!; [|exists m, D; by apply rep_icache|exact HQ].
  eapply runs_seq; [apply runs_acquire; set_solver|]. eapply runs_seq; [apply runs_upd|].
  rewrite <- (rp_inodes _ _ _ _ Hr). apply runs_release.
Qed.

Lemma wp_icache_ref {U} (k : Z -> M U) v ip i Q : v_inodes v !! ip = Some i -> wp (k (i_ref i)) v Q ->
  wp (acquire LkIcache ;; i ← get_inode ip; release LkIcache ;; k (i_ref i)) v Q.
Proof.
  intros Hi Hk f (m&D&Hr). destruct (Hk f (ex_intro _ m (ex_intro _ D Hr))) as (a&f'&v'&R&Hf'&HQ).
  exists a, f', v'. split_and!; [|done..]. eapply runs_seq; [apply runs_acquire; set_solver|].
  eapply runs_seq; [apply (runs_gets pid icache); rewrite (rp_inodes _ _ _ _ Hr), Hi; apply runs_ret|].
  eapply runs_seq; [apply runs_release|done].
Qed.

(** ** Panics *)
Definition panics {T} (m : M T) (v : view) (msg : string) : Prop :=
  forall f s, rep f v -> ready pid [] s -> fs s = f -> m s = Panic msg.

Lemma panics_panic {T} v msg : panics (panic msg : M T) v msg.
Proof. done. Qed.

Lemma panics_bind {T U} (m : M T) (k : T -> M U) v msg :
  wp m v (fun a v' => panics (k a) v' msg) -> panics (m ≫= k) v msg.
Proof.
  intros Hm f s Hf Hs Hfs. destruct (Hm f Hf) as (a&f1&v1&R&Hf1&Hk).
  destruct (R s Hs Hfs) as (s1&E&Hs1&E1). erewrite bind_ret by exact E.
  apply (Hk f1); [done|done|]. by rewrite E1.
Qed.

Lemma panics_iget v dev inum : iget_entry dev inum (v_inodes v) = None -> panics (iget dev inum) v "iget: no inodes".
Proof.
  intros He f s (m&D&Hr) Hs Hfs. unfold iget_entry in He. unfold iget.
  destruct (runs_acquire pid LkIcache [] f ltac:(set_solver) s Hs Hfs) as (s1&E&Hs1&E1).
  erewrite bind_ret by exact E. rewrite bind_gets. replace (fs s1) with f by (by rewrite E1). rewrite (rp_inodes _ _ _ _ Hr). destruct (find_index _ _); [done|].
  by destruct (find_index _ _).
Qed.

End Trans.

End Trans.
