(* ===== verification/Balloc.v ===== *)
(** * Balloc: the block allocator of the file system (fs.c)

    A bitmap on the disk has one bit per block.  The theorems show that
    [balloc] returns the first free block, zeroed and marked in use, with no
    other block changed, that it panics exactly when no block is free, and that
    [bfree] undoes it and panics on a block that is free. *)
From S2P Require Import Prelude KState Kalloc Proc Sleeplock Bio Log Fs Trans.

Module Balloc.
Import Sleeplock Bio Log Fs Trans.

(** ** Bits *)
Lemma land_bit x k : 0 <= k -> negb (Z.land x (Z.shiftl 1 k) =? 0) = Z.testbit x k.
Proof.
  intros Hk. rewrite Z.shiftl_1_l. destruct (Z.testbit x k) eqn:E.
  - apply negb_true_iff, Z.eqb_neq. intros H0. assert (H : Z.testbit (Z.land x (2 ^ k)) k = true)
      by (by rewrite Z.land_spec, E, Z.pow2_bits_true).
    by rewrite H0, Z.bits_0 in H.
  - apply negb_false_iff, Z.eqb_eq, Z.bits_inj'. intros n Hn.
    rewrite Z.land_spec, Z.bits_0, Z.pow2_bits_eqb by lia. destruct (Z.eqb_spec k n) as [<-|]; [by rewrite E|].
    apply andb_false_r.
Qed.

Lemma bit_at_eq d bi : 0 <= bi -> bit_at d bi = (fun byte => Z.testbit byte (bi `mod` 8)) <$> d !! Z.to_nat (bi `div` 8).
Proof.
  intros Hb. unfold bit_at. destruct (d !! _) as [x|]; cbn; [|done].
  by rewrite land_bit by (apply Z.mod_pos_bound; lia).
Qed.

(** The bits after a change of bit [bi] of a byte. *)
Lemma bit_at_alter g d bi bj (c : bool) : 0 <= bi -> 0 <= bj ->
  (forall x k, 0 <= k -> Z.testbit (g x) k = if decide (k = bi `mod` 8) then c else Z.testbit x k) ->
  bit_at (alter g (Z.to_nat (bi `div` 8)) d) bj = if decide (bi = bj) then (fun _ => c) <$> bit_at d bj else bit_at d bj.
Proof.
  intros Hbi Hbj Hg. rewrite !bit_at_eq by done. destruct (decide (bi `div` 8 = bj `div` 8)) as [E|E].
  - rewrite E, list_lookup_alter_eq. destruct (d !! _) as [x|]; cbn; [|by case_decide].
    rewrite Hg by (apply Z.mod_pos_bound; lia). destruct (decide (bi = bj)) as [->|Hne]; [by rewrite decide_True|].
    rewrite decide_False; [done|]. intros E2. apply Hne.
    rewrite (Z_div_mod_eq_full bi 8), (Z_div_mod_eq_full bj 8). congruence.
  - rewrite list_lookup_alter_ne.
    + rewrite decide_False; [done|]. by intros ->.
    + intros E2. apply E. apply Z2Nat.inj; [apply Z.div_pos; lia..|done].
Qed.

Lemma bit_at_set d bi bj : 0 <= bi -> 0 <= bj ->
  bit_at (set_bit bi d) bj = if decide (bi = bj) then (fun _ => true) <$> bit_at d bj else bit_at d bj.
Proof.
  intros Hbi Hbj. apply bit_at_alter; [done..|]. intros x k Hk.
  rewrite Z.lor_spec, Z.shiftl_1_l, Z.pow2_bits_eqb by (apply Z.mod_pos_bound; lia).
  destruct (decide (k = bi `mod` 8)) as [->|]; [by rewrite Z.eqb_refl, orb_true_r|].
  by rewrite (proj2 (Z.eqb_neq _ _)), orb_false_r.
Qed.

Lemma bit_at_clear d bi bj : 0 <= bi -> 0 <= bj ->
  bit_at (clear_bit bi d) bj = if decide (bi = bj) then (fun _ => false) <$> bit_at d bj else bit_at d bj.
Proof.
  intros Hbi Hbj. apply bit_at_alter; [done..|]. intros x k Hk.
  rewrite Z.land_spec, Z.lnot_spec, Z.shiftl_1_l, Z.pow2_bits_eqb by (done || (apply Z.mod_pos_bound; lia)).
  destruct (decide (k = bi `mod` 8)) as [->|]; [by rewrite Z.eqb_refl, andb_false_r|].
  by rewrite (proj2 (Z.eqb_neq _ _)), andb_true_r.
Qed.

Lemma bit_at_some d bi : 0 <= bi < BPB -> length d = 512%nat -> is_Some (bit_at d bi).
Proof.
  intros Hb Hl. rewrite bit_at_eq by lia. unfold BPB, BSIZE in Hb.
  destruct (lookup_lt_is_Some_2 d (Z.to_nat (bi `div` 8))) as [x ->]; [zlia|by eexists].
Qed.

(** The inner loop of [balloc]. *)
Lemma balloc_scan_ok n d b bi size : length d = 512%nat -> 0 <= bi <= BPB -> BPB - bi < Z.of_nat n ->
  exists o, balloc_scan n d b bi size = Some o /\
    match o with
    | Some bj => bi <= bj < BPB /\ b + bj < size /\ bit_at d bj = Some false /\
        forall bk, bi <= bk < bj -> bit_at d bk = Some true
    | None => forall bk, bi <= bk < BPB -> b + bk < size -> bit_at d bk = Some true
    end.
Proof.
  intros Hd. revert bi. induction n as [|n IH]; intros bi Hbi Hn; [lia|]. cbn [balloc_scan].
  destruct (Z.ltb_spec bi BPB); cbn [andb]; [|exists None; split; [done|intros; lia]].
  destruct (Z.ltb_spec (b + bi) size); [|exists None; split; [done|intros; lia]].
  destruct (bit_at_some d bi ltac:(lia) Hd) as [u Hu]. rewrite Hu. cbn [mbind option_bind]. destruct u.
  - destruct (IH (bi + 1)) as (o&->&Ho); [lia|lia|]. exists o. split; [done|]. destruct o as [bj|].
    + destruct Ho as (?&?&?&Ho). split_and!; [lia|lia|done|done|]. intros bk Hk.
      destruct (decide (bk = bi)) as [->|]; [done|]. apply Ho. lia.
    + intros bk Hk ?. destruct (decide (bk = bi)) as [->|]; [done|]. apply Ho; lia.
  - exists (Some bi). split_and!; try done; intros; lia.
Qed.

Section Balloc.
Context (pid : Z) (fuel : nat) (l0 : log_t) (sb0 : superblock).
Abbreviation wp := (Trans.wp pid l0 sb0).
Abbreviation home := (Trans.home l0).
Abbreviation room := (Trans.room l0).

(** ** The layout of the disk *)
Definition datastart : Z := sb_bmapstart sb0 + sb_size sb0 `div` BPB + 1.

(** As mkfs makes it: boot block, superblock, log, inodes, bitmap, data. *)
Record layout : Prop := {
  ly_log : 1 < l_start l0;
  ly_ninodes : 0 <= sb_ninodes sb0;
  ly_inodes : l_start l0 + 30 <= sb_inodestart sb0;
  ly_bmap : sb_inodestart sb0 + sb_ninodes sb0 `div` IPB < sb_bmapstart sb0;
  ly_data : datastart <= sb_size sb0;
  ly_size : sb_size sb0 < 2 ^ 31 - BPB;
}.

Definition blk (v : view) (bn : Z) : list Z := default [] (v_disk v !! Z.to_nat bn).
Definition bit_of (v : view) (b : Z) : option bool := bit_at (blk v (BBLOCK b sb0)) (b `mod` BPB).
Definition in_use (v : view) (b : Z) : Prop := bit_of v b = Some true.
Definition free (v : view) (b : Z) : Prop := bit_of v b = Some false.

Record fs_ok (v : view) : Prop := {
  fo_size : sb_size sb0 <= Z.of_nat (length (v_disk v));
  fo_blocks : forall bn d, v_disk v !! bn = Some d -> length d = 512%nat;
  fo_meta : forall b, 0 <= b < datastart -> in_use v b;
}.

(** What callers of the allocator hold: at most one data block. *)
Definition held_ok (v : view) : Prop :=
  (length (v_held v) <= 1)%nat /\ Forall (fun bn => datastart <= bn /\ in_use v bn) (v_held v).*2.

Context (Hly : layout).

Lemma BBLOCK_eq b : 0 <= b < sb_size sb0 -> BBLOCK b sb0 = sb_bmapstart sb0 + b `div` BPB.
Proof.
  intros Hb. destruct Hly as [H1 H2 H3 H4 H5 H6]. unfold datastart in *. unfold BBLOCK.
  pose proof (Z.div_pos (sb_ninodes sb0) IPB H2 ltac:(unfold IPB; lia)).
  rewrite u32_small; [lia|]. unfold BPB, BSIZE in *. zlia.
Qed.

Lemma BBLOCK_range b : 0 <= b < sb_size sb0 -> sb_bmapstart sb0 <= BBLOCK b sb0 < datastart.
Proof. intros Hb. rewrite BBLOCK_eq by done. unfold datastart, BPB, BSIZE. zlia. Qed.

Lemma bitmap_start : l_start l0 + 30 < sb_bmapstart sb0.
Proof.
  destruct Hly as [H1 H2 H3 H4 H5 H6]. pose proof (Z.div_pos (sb_ninodes sb0) IPB H2 ltac:(unfold IPB; lia)). lia.
Qed.

Lemma data_start : sb_bmapstart sb0 < datastart /\ l_start l0 + 31 < datastart.
Proof.
  pose proof bitmap_start. destruct Hly as [H1 H2 H3 H4 H5 H6]. unfold datastart, BPB, BSIZE in *. zlia.
Qed.

Lemma home_bitmap v b : fs_ok v -> 0 <= b < sb_size sb0 -> home v (BBLOCK b sb0).
Proof.
  intros Hfo Hb. pose proof (BBLOCK_range b Hb). pose proof bitmap_start. pose proof (fo_size v Hfo).
  destruct Hly. split; lia.
Qed.

Lemma home_data v b : fs_ok v -> datastart <= b < sb_size sb0 -> home v b.
Proof.
  intros Hfo Hb. pose proof data_start. pose proof (fo_size v Hfo).
  destruct Hly. split; lia.
Qed.

Lemma blk_lookup v b : 0 <= b < Z.of_nat (length (v_disk v)) -> v_disk v !! Z.to_nat b = Some (blk v b).
Proof. intros Hb. unfold blk. destruct (lookup_lt_is_Some_2 (v_disk v) (Z.to_nat b)) as [d ->]; [lia|done]. Qed.

Lemma length_blk v b : fs_ok v -> 0 <= b < Z.of_nat (length (v_disk v)) -> length (blk v b) = 512%nat.
Proof. intros Hfo Hb. eapply fo_blocks; [done|]. by apply blk_lookup. Qed.

Lemma blk_update v bn d b : 0 <= bn < Z.of_nat (length (v_disk v)) -> 0 <= b ->
  blk (log_update bn d v) b = if decide (b = bn) then d else blk v b.
Proof.
  intros Hbn Hb. unfold blk, log_update. fields. case_decide as E.
  - subst. by rewrite list_lookup_insert_eq by lia.
  - by rewrite list_lookup_insert_ne by lia.
Qed.

Lemma bit_some v b : fs_ok v -> 0 <= b < sb_size sb0 -> in_use v b \/ free v b.
Proof.
  intros Hfo Hb. destruct (bit_at_some (blk v (BBLOCK b sb0)) (b `mod` BPB)) as [[] Hu]; auto.
  - apply Z.mod_pos_bound. done.
  - apply length_blk; [done|]. apply home_bitmap; done.
Qed.

Lemma free_data v b : fs_ok v -> 0 <= b < sb_size sb0 -> free v b -> datastart <= b.
Proof.
  intros Hfo Hb Hf. destruct (Z.lt_ge_cases b datastart) as [Hlt|]; [|done].
  pose proof (fo_meta v Hfo b ltac:(lia)) as Hu. unfold in_use, free in *. congruence.
Qed.

(** The two blocks [b] and [c] have the same bit only if they are equal. *)
Lemma bit_inj b c : 0 <= b < sb_size sb0 -> 0 <= c < sb_size sb0 ->
  BBLOCK b sb0 = BBLOCK c sb0 -> b `mod` BPB = c `mod` BPB -> b = c.
Proof.
  intros Hb Hc. rewrite !BBLOCK_eq by done. intros E1 E2.
  rewrite (Z_div_mod_eq_full b BPB), (Z_div_mod_eq_full c BPB), E2. f_equal. f_equal. lia.
Qed.

(** A bitmap block changed in one bit. *)
Lemma bit_of_update v b c g (u : bool) : fs_ok v -> 0 <= b < sb_size sb0 -> 0 <= c < sb_size sb0 ->
  (forall d bj, 0 <= bj -> bit_at (g d) bj = if decide (b `mod` BPB = bj) then (fun _ => u) <$> bit_at d bj else bit_at d bj) ->
  bit_of (log_update (BBLOCK b sb0) (g (blk v (BBLOCK b sb0))) v) c = if decide (c = b) then Some u else bit_of v c.
Proof.
  intros Hfo Hb Hc Hg. unfold bit_of. pose proof (BBLOCK_range c Hc). pose proof bitmap_start.
  rewrite blk_update; [|apply home_bitmap; done|destruct Hly; lia].
  assert (Hm : 0 <= c `mod` BPB) by (apply Z.mod_pos_bound; done).
  case_decide as E; [|rewrite decide_False by congruence; done].
  rewrite Hg by done. rewrite <- E. case_decide as E2.
  - assert (c = b) as -> by (by apply bit_inj). rewrite decide_True by done.
    destruct (bit_at_some (blk v (BBLOCK b sb0)) (b `mod` BPB)) as [x ->]; [apply Z.mod_pos_bound; done| |done].
    apply length_blk; [done|]. by apply home_bitmap.
  - rewrite decide_False by (intros ->; done). done.
Qed.

Lemma bit_of_data v bn d c : 0 <= bn < Z.of_nat (length (v_disk v)) -> datastart <= bn ->
  0 <= c < sb_size sb0 -> bit_of (log_update bn d v) c = bit_of v c.
Proof.
  intros Hbn Hd Hc. pose proof (BBLOCK_range c Hc). pose proof bitmap_start. unfold bit_of.
  rewrite blk_update by (done || (destruct Hly; lia)). by rewrite decide_False by lia.
Qed.

(** Updates keep the file system well formed. *)
Lemma fs_ok_update v bn d : fs_ok v -> length d = 512%nat ->
  (forall b, 0 <= b < datastart -> in_use (log_update bn d v) b) -> fs_ok (log_update bn d v).
Proof.
  intros [Hs Hb Hm] Hd Hu. split; [|intros n e|done]; unfold log_update; fields.
  - by rewrite length_insert.
  - intros [(_&->&_)|[_ He]]%list_lookup_insert_Some; [done|by eapply Hb].
Qed.

Lemma fs_ok_data v bn d : fs_ok v -> length d = 512%nat -> datastart <= bn < sb_size sb0 ->
  fs_ok (log_update bn d v).
Proof.
  intros Hfo Hd Hbn. apply fs_ok_update; [done..|]. intros b Hb. unfold in_use.
  rewrite bit_of_data; [by apply fo_meta|by apply home_data|lia|destruct Hly; lia].
Qed.

Lemma length_set_bit bi d : length (set_bit bi d) = length d.
Proof. apply length_alter. Qed.
Lemma length_clear_bit bi d : length (clear_bit bi d) = length d.
Proof. apply length_alter. Qed.

(** ** [balloc] *)

(** The state after block [b] is allocated. *)
Definition mark (b : Z) (v : view) : view :=
  log_update (BBLOCK b sb0) (set_bit (b `mod` BPB) (blk v (BBLOCK b sb0))) v.
Definition alloc (b : Z) (v : view) : view := log_update b (zero_bytes BSIZE) (mark b v).

Lemma bit_of_mark v b c : fs_ok v -> 0 <= b < sb_size sb0 -> 0 <= c < sb_size sb0 ->
  bit_of (mark b v) c = if decide (c = b) then Some true else bit_of v c.
Proof.
  intros Hfo Hb Hc. unfold mark. apply (bit_of_update v b c (set_bit (b `mod` BPB))); [done..|].
  intros d bj Hbj. apply bit_at_set; [apply Z.mod_pos_bound; done|done].
Qed.

Lemma fs_ok_mark v b : fs_ok v -> 0 <= b < sb_size sb0 -> fs_ok (mark b v).
Proof.
  intros Hfo Hb. apply fs_ok_update; [done| |].
  - rewrite length_set_bit. apply length_blk; [done|by apply home_bitmap].
  - intros c Hc. unfold in_use. change (log_update _ _ v) with (mark b v). rewrite bit_of_mark; [|done..|destruct Hly; lia].
    case_decide; [done|by apply fo_meta].
Qed.

Lemma wp_bzero v bn Q : home v bn -> bn ∉ (v_held v).*2 -> (length (v_held v) <= 1)%nat -> room 1 v ->
  Q tt (log_update bn (zero_bytes BSIZE) v) -> wp (bzero (S fuel) 1 bn) v Q.
Proof.
  intros Hh Hn H1 Hr HQ. pose proof Hr as (_&_&Hroom). unfold bzero. apply wp_bind. apply wp_bread; [apply Hh|done|unfold NBUF; lia|].
  intros i Hi. eapply (wp_log_update _ _ _ _ _ i bn); [by left|apply blk_lookup; apply Hh|done|done|].
  eapply wp_brelse; [done|]. by destruct v.
Qed.

Lemma wp_balloc_loop n v b Q : fs_ok v -> held_ok v -> room 2 v ->
  0 <= b -> b `mod` BPB = 0 -> sb_size sb0 < b + BPB * Z.of_nat n ->
  (forall c, 0 <= c < b -> c < sb_size sb0 -> in_use v c) ->
  (exists c, 0 <= c < sb_size sb0 /\ free v c) ->
  (forall c, datastart <= c < sb_size sb0 -> free v c -> (forall c', 0 <= c' < c -> in_use v c') -> Q c (alloc c v)) ->
  wp (balloc_loop (S fuel) n 1 b) v Q.
Proof.
  intros Hfo [Hh1 Hh] Hr Hb0 Hbm Hn Hlow Hex HQ. revert b Hb0 Hbm Hn Hlow.
  induction n as [|n IH]; intros b Hb0 Hbm Hn Hlow.
  { destruct Hex as (c&Hc&Hf). pose proof (Hlow c ltac:(lia) ltac:(lia)). unfold in_use, free in *. congruence. }
  pose proof Hr as (_&_&Hroom). cbn [balloc_loop]. apply wp_get_sb. destruct (Z.ltb_spec b (sb_size sb0)) as [Hlt|Hge].
  2:{ destruct Hex as (c&Hc&Hf). pose proof (Hlow c ltac:(lia) ltac:(lia)). unfold in_use, free in *. congruence. }
  pose proof (home_bitmap v b Hfo ltac:(lia)) as Hho. pose proof (BBLOCK_range b ltac:(lia)) as Hrg.
  assert (Hbb : forall c, b <= c < b + BPB -> c < sb_size sb0 ->
    bit_of v c = bit_at (blk v (BBLOCK b sb0)) (c - b) /\ c `mod` BPB = c - b /\ BBLOCK c sb0 = BBLOCK b sb0).
  { intros c Hc Hcs. unfold bit_of. assert (c `mod` BPB = c - b /\ c `div` BPB = b `div` BPB) as [-> E].
    { unfold BPB, BSIZE in *. zlia. }
    by rewrite !BBLOCK_eq, E by lia. }
  apply wp_bind. apply wp_bread; [apply Hho| |unfold NBUF; lia|].
  { intros Hin. rewrite Forall_forall in Hh. destruct (Hh _ Hin). lia. }
  intros i Hi. eapply (wp_get_buf _ _ _ _ _ i (BBLOCK b sb0)); [by left|apply blk_lookup, Hho|].
  intros buf Hd _. rewrite Hd.
  destruct (balloc_scan_ok (S (Z.to_nat BPB)) (blk v (BBLOCK b sb0)) b 0 (sb_size sb0)) as (o&Ho&Hres);
    [by apply length_blk, Hho|done|lia|].
  eapply wp_need; [exact Ho|]. destruct o as [bi|].
  - destruct Hres as (Hbi&Hbs&Hbit&Hprev). destruct (Hbb (b + bi)) as (Hof&Hmod&Hblk); [lia|lia|].
    replace (b + bi - b) with bi in Hof, Hmod by lia. rewrite Hbit in Hof.
    assert (Hda : datastart <= b + bi) by (eapply free_data; [done| |exact Hof]; lia).
    eapply (wp_log_update _ _ _ _ _ i (BBLOCK b sb0)); [by left|apply blk_lookup, Hho|done|apply (room_mono _ _ _ _ _ Hr); fields; lia|].
    rewrite <- Hmod, <- Hblk.
    apply wp_bind. eapply wp_brelse; [done|]. unfold log_update at 1. fields. apply wp_bind.
    pose proof (fs_ok_mark v (b + bi) Hfo ltac:(lia)) as Hfm.
    replace (v <| v_held := _ |> <| v_disk := _ |> <| v_logged := _ |> <| v_held := _ |>) with (mark (b + bi) v)
      by (by destruct v).
    rewrite Hmod. apply wp_bzero; [by apply home_data| |done| |].
    + intros Hin. rewrite Forall_forall in Hh. destruct (Hh _ Hin) as [_ Hu]. unfold in_use in Hu. congruence.
    + apply (room_mono _ _ _ _ _ Hr). pose proof (length_log_add (BBLOCK (b + bi) sb0) (v_logged v)).
      unfold mark, log_update. fields. lia.
    + apply wp_ret. apply HQ; [lia|done|]. intros c' Hc'. destruct (Z.lt_ge_cases c' b) as [|Hge]; [apply Hlow; lia|].
      destruct (Hbb c') as (Hof'&_); [lia|lia|]. unfold in_use. rewrite Hof'. apply Hprev. lia.
  - apply wp_bind. eapply wp_brelse; [done|].
    replace (v <| v_held := _ |> <| v_held := _ |>) with v by (by destruct v).
    apply IH; [unfold BPB, BSIZE in *; lia| |lia|].
    + rewrite Z.add_mod, Hbm, Z.mod_same by done. done.
    + intros c Hc Hcs. destruct (Z.lt_ge_cases c b) as [|Hge]; [apply Hlow; lia|].
      destruct (Hbb c) as (Hof'&_); [lia|lia|]. unfold in_use. rewrite Hof'. apply Hres; lia.
Qed.

Lemma balloc_fuel : sb_size sb0 < 0 + BPB * Z.of_nat (S (S (Z.to_nat (sb_size sb0 `div` BPB)))).
Proof. pose proof data_start. destruct Hly. unfold BPB, BSIZE in *. zlia. Qed.

Lemma wp_balloc v Q : fs_ok v -> held_ok v -> room 2 v -> (exists c, 0 <= c < sb_size sb0 /\ free v c) ->
  (forall c, datastart <= c < sb_size sb0 -> free v c -> (forall c', 0 <= c' < c -> in_use v c') -> Q c (alloc c v)) ->
  wp (balloc (S fuel) 1) v Q.
Proof.
  intros Hfo Hh Hr Hex HQ. unfold balloc. apply wp_get_sb.
  apply wp_balloc_loop; try done; [apply balloc_fuel|intros; lia].
Qed.

(** The allocated block is in use and zero; no other data block changes. *)
Lemma bit_of_alloc v b c : fs_ok v -> datastart <= b < sb_size sb0 -> 0 <= c < sb_size sb0 ->
  bit_of (alloc b v) c = if decide (c = b) then Some true else bit_of v c.
Proof.
  intros Hfo Hb Hc. pose proof data_start. assert (0 < l_start l0) by (destruct Hly; lia). unfold alloc.
  rewrite bit_of_data; [apply bit_of_mark; [done|lia|done]| |lia|done].
  apply (home_data (mark b v)); [apply fs_ok_mark; [done|lia]|done].
Qed.

Lemma fs_ok_alloc v b : fs_ok v -> datastart <= b < sb_size sb0 -> fs_ok (alloc b v).
Proof.
  intros Hfo Hb. pose proof data_start. assert (0 < l_start l0) by (destruct Hly; lia).
  apply fs_ok_data; [apply fs_ok_mark; [done|lia]|vm_compute; reflexivity|done].
Qed.

Lemma blk_alloc v b c : fs_ok v -> datastart <= b < sb_size sb0 -> datastart <= c ->
  blk (alloc b v) c = if decide (c = b) then zero_bytes BSIZE else blk v c.
Proof.
  intros Hfo Hb Hc. pose proof data_start. assert (0 < l_start l0) by (destruct Hly; lia).
  assert (Hb' : 0 <= b < sb_size sb0) by lia. pose proof (BBLOCK_range b Hb').
  unfold alloc. rewrite blk_update; [|apply (home_data (mark b v)); [by apply fs_ok_mark|done]|lia].
  case_decide; [done|]. unfold mark. rewrite blk_update; [|by apply home_bitmap|lia].
  by rewrite decide_False by lia.
Qed.

(** No block is free. *)
Lemma balloc_loop_panics n v b : fs_ok v -> held_ok v -> (length (v_logged v) <= 28)%nat ->
  0 <= b < sb_size sb0 + BPB -> sb_size sb0 + BPB <= b + BPB * Z.of_nat n ->
  (forall c, 0 <= c < sb_size sb0 -> in_use v c) -> b `mod` BPB = 0 ->
  panics pid l0 sb0 (balloc_loop (S fuel) n 1 b) v "balloc: out of blocks".
Proof.
  intros Hfo [Hh1 Hh] Hr Hb0 Hn Hall Hbm. revert b Hb0 Hn Hbm.
  induction n as [|n IH]; intros b Hb0 Hn Hbm; [lia|]. cbn [balloc_loop].
  apply panics_bind, wp_alone, wp_get_sb, wp_ret.
  destruct (Z.ltb_spec b (sb_size sb0)) as [Hlt|Hge]; [|apply panics_panic].
  pose proof (home_bitmap v b Hfo ltac:(lia)) as Hho. pose proof (BBLOCK_range b ltac:(lia)) as Hrg.
  apply panics_bind. apply wp_bread; [apply Hho| |unfold NBUF; lia|].
  { intros Hin. rewrite Forall_forall in Hh. destruct (Hh _ Hin). lia. }
  intros i Hi. apply panics_bind, wp_alone.
  eapply (wp_get_buf _ _ _ _ _ i (BBLOCK b sb0)); [by left|apply blk_lookup, Hho|].
  intros buf Hd _. apply wp_ret. rewrite Hd.
  destruct (balloc_scan_ok (S (Z.to_nat BPB)) (blk v (BBLOCK b sb0)) b 0 (sb_size sb0)) as (o&Ho&Hres);
    [by apply length_blk, Hho|done|lia|].
  apply panics_bind, wp_alone. eapply wp_need; [exact Ho|]. apply wp_ret. destruct o as [bi|].
  - destruct Hres as (Hbi&Hbs&Hbit&_). exfalso. specialize (Hall (b + bi) ltac:(lia)).
    unfold in_use, bit_of in Hall. rewrite BBLOCK_eq in Hall by lia. rewrite BBLOCK_eq in Hbit by lia.
    replace ((b + bi) `div` BPB) with (b `div` BPB) in Hall by (unfold BPB, BSIZE in *; zlia).
    replace ((b + bi) `mod` BPB) with bi in Hall by (unfold BPB, BSIZE in *; zlia). congruence.
  - apply panics_bind. eapply wp_brelse; [done|].
    replace (v <| v_held := _ |> <| v_held := _ |>) with v by (by destruct v).
    apply IH; [unfold BPB, BSIZE in *; lia|lia|]. rewrite Z.add_mod, Hbm, Z.mod_same by done. done.
Qed.

(** ** [bfree] *)
Definition unmark (b : Z) (v : view) : view :=
  log_update (BBLOCK b sb0) (clear_bit (b `mod` BPB) (blk v (BBLOCK b sb0))) v.

Lemma bit_of_unmark v b c : fs_ok v -> 0 <= b < sb_size sb0 -> 0 <= c < sb_size sb0 ->
  bit_of (unmark b v) c = if decide (c = b) then Some false else bit_of v c.
Proof.
  intros Hfo Hb Hc. unfold unmark. apply (bit_of_update v b c (clear_bit (b `mod` BPB))); [done..|].
  intros d bj Hbj. apply bit_at_clear; [apply Z.mod_pos_bound; done|done].
Qed.

Lemma fs_ok_unmark v b : fs_ok v -> datastart <= b < sb_size sb0 -> fs_ok (unmark b v).
Proof.
  intros Hfo Hb. pose proof data_start. assert (0 < l_start l0) by (destruct Hly; lia).
  apply fs_ok_update; [done| |].
  - rewrite length_clear_bit. apply length_blk; [done|apply home_bitmap; [done|lia]].
  - intros c Hc. unfold in_use. change (log_update _ _ v) with (unmark b v).
    rewrite bit_of_unmark by (done || lia). rewrite decide_False by lia. by apply fo_meta.
Qed.

Lemma blk_unmark v b c : fs_ok v -> 0 <= b < sb_size sb0 -> datastart <= c -> blk (unmark b v) c = blk v c.
Proof.
  intros Hfo Hb Hc. pose proof data_start. assert (0 < l_start l0) by (destruct Hly; lia).
  pose proof (BBLOCK_range b Hb). unfold unmark. rewrite blk_update; [|by apply home_bitmap|lia].
  by rewrite decide_False by lia.
Qed.

(** [bfree] up to its test. *)
Lemma bfree_test v b : fs_ok v -> held_ok v -> (length (v_logged v) <= 28)%nat -> 0 <= b < sb_size sb0 ->
  home v (BBLOCK b sb0) /\ BBLOCK b sb0 ∉ (v_held v).*2 /\ (length (v_held v) + length (v_logged v) < NBUF)%nat.
Proof.
  intros Hfo [Hh1 Hh] Hr Hb. pose proof (BBLOCK_range b Hb). split_and!; [by apply home_bitmap| |unfold NBUF; lia].
  intros Hin. rewrite Forall_forall in Hh. destruct (Hh _ Hin). lia.
Qed.

Lemma wp_bfree v b Q : fs_ok v -> held_ok v -> room 1 v -> 0 <= b < sb_size sb0 -> in_use v b ->
  Q tt (unmark b v) -> wp (bfree (S fuel) 1 b) v Q.
Proof.
  intros Hfo Hh Hr Hb Hu HQ. pose proof Hr as (_&_&Hroom).
  destruct (bfree_test v b Hfo Hh ltac:(lia) Hb) as (Hho&Hn&Hlt). unfold bfree. apply wp_get_sb.
  apply wp_bind. apply wp_bread; [apply Hho|done|done|]. intros i Hi.
  eapply (wp_get_buf _ _ _ _ _ i (BBLOCK b sb0)); [by left|apply blk_lookup, Hho|].
  intros buf Hd _. rewrite Hd. eapply wp_need; [exact Hu|]. cbn [negb].
  eapply (wp_log_update _ _ _ _ _ i (BBLOCK b sb0)); [by left|apply blk_lookup, Hho|done|done|].
  eapply wp_brelse; [done|]. by destruct v.
Qed.

Lemma bfree_panics v b : fs_ok v -> held_ok v -> (length (v_logged v) <= 28)%nat -> 0 <= b < sb_size sb0 -> free v b ->
  panics pid l0 sb0 (bfree (S fuel) 1 b) v "freeing free block".
Proof.
  intros Hfo Hh Hr Hb Hu. destruct (bfree_test v b Hfo Hh Hr Hb) as (Hho&Hn&Hlt). unfold bfree.
  apply panics_bind, wp_alone, wp_get_sb, wp_ret.
  apply panics_bind. apply wp_bread; [apply Hho|done|done|]. intros i Hi.
  apply panics_bind, wp_alone. eapply (wp_get_buf _ _ _ _ _ i (BBLOCK b sb0)); [by left|apply blk_lookup, Hho|].
  intros buf Hd _. apply wp_ret. rewrite Hd. apply panics_bind, wp_alone. eapply wp_need; [exact Hu|].
  apply wp_ret, panics_panic.
Qed.

(** ** Theorems *)

(** [balloc], in a transaction with room for two blocks, takes the first
    free block of the bitmap, which is a data block; afterwards this block is
    in use and zero, every other block has the bit and, if it is a data block,
    the contents it had, and the layout invariant holds again.  When no block
    is free it panics. *)
Theorem balloc_allocates f v s :
  rep pid l0 sb0 f v -> fs_ok v -> held_ok v -> room 2 v -> ready pid [] s -> fs s = f ->
  (exists b f' v', runs pid (balloc (S fuel) 1) [] f b [] [] f' /\ rep pid l0 sb0 f' v' /\ fs_ok v' /\
     datastart <= b < sb_size sb0 /\ free v b /\ (forall c, 0 <= c < b -> in_use v c) /\
     (forall c, 0 <= c < sb_size sb0 -> in_use v' c <-> c = b \/ in_use v c) /\
     (forall c, datastart <= c -> blk v' c = if decide (c = b) then zero_bytes BSIZE else blk v c)) \/
  ((forall c, 0 <= c < sb_size sb0 -> in_use v c) /\ balloc (S fuel) 1 s = Panic "balloc: out of blocks").
Proof.
  intros Hrep Hfo Hh Hr Hs Hfs. pose proof data_start. assert (0 < l_start l0) by (destruct Hly; lia).
  destruct (decide (Exists (fun c => bit_of v c = Some false) (seqZ 0 (sb_size sb0)))) as [He|He].
  - left. apply Exists_exists in He as (c&Hc%elem_of_seqZ&Hf).
    destruct (wp_balloc v (fun b v' => v' = alloc b v /\ datastart <= b < sb_size sb0 /\ free v b /\
      forall c, 0 <= c < b -> in_use v c) Hfo Hh Hr) with f as (b&f'&v'&R&Hf'&->&Hb&Hfb&Hlow); [|done|done|].
    { exists c. split; [lia|done]. }
    exists b, f', (alloc b v). split_and!; try done; try lia; [by apply fs_ok_alloc| |].
    + intros d Hd. unfold in_use. rewrite bit_of_alloc by done. case_decide; naive_solver.
    + intros d Hd. by apply blk_alloc.
  - right. assert (Hall : forall c, 0 <= c < sb_size sb0 -> in_use v c).
    { intros c Hc. destruct (bit_some v c Hfo Hc) as [|Hf]; [done|]. exfalso. apply He, Exists_exists.
      exists c. split; [apply elem_of_seqZ; lia|done]. }
    split; [done|]. pose proof Hr as (_&_&Hroom). pose proof (ly_data Hly). unfold balloc.
    assert (Hp : panics pid l0 sb0 (sb ← get_sb; balloc_loop (S fuel) (S (S (Z.to_nat (sb_size sb `div` BPB)))) 1 0)
      v "balloc: out of blocks").
    { apply panics_bind, wp_alone, wp_get_sb, wp_ret. apply balloc_loop_panics; try done; [lia|unfold BPB, BSIZE; lia|].
      unfold BPB, BSIZE. zlia. }
    by apply (Hp f).
Qed.

(** [bfree] of a data block in use clears its bit and changes no other bit
    and no data block, so that the block can be allocated again; of a free
    block it is the panic "freeing free block". *)
Theorem bfree_frees f v s b :
  rep pid l0 sb0 f v -> fs_ok v -> held_ok v -> room 1 v -> ready pid [] s -> fs s = f ->
  datastart <= b < sb_size sb0 ->
  (in_use v b /\ exists f' v', runs pid (bfree (S fuel) 1 b) [] f tt [] [] f' /\ rep pid l0 sb0 f' v' /\ fs_ok v' /\
     (forall c, 0 <= c < sb_size sb0 -> in_use v' c <-> c <> b /\ in_use v c) /\
     (forall c, datastart <= c -> blk v' c = blk v c)) \/
  (free v b /\ bfree (S fuel) 1 b s = Panic "freeing free block").
Proof.
  intros Hrep Hfo Hh Hr Hs Hfs Hb. pose proof data_start. assert (0 < l_start l0) by (destruct Hly; lia).
  destruct (bit_some v b Hfo ltac:(lia)) as [Hu|Hf].
  - left. split; [done|].
    destruct (wp_bfree v b (fun _ v' => v' = unmark b v) Hfo Hh Hr) with f as ([]&f'&v'&R&Hf'&->); try done; [lia|].
    exists f', (unmark b v). split_and!; try done; [by apply fs_ok_unmark| |].
    + intros c Hc. unfold in_use. rewrite bit_of_unmark by (done || lia). case_decide; naive_solver.
    + intros c Hc. apply blk_unmark; [done|lia|done].
  - right. split; [done|]. pose proof Hr as (_&_&Hroom). apply (bfree_panics v b) with f; try done; lia.
Qed.

End Balloc.

End Balloc.
