(* ===== verification/Inode.v ===== *)
(** * Inode: file contents (fs.c: bmap, readi, writei, itrunc, iupdate)

    A file is a tree of blocks: twelve direct ones and an indirect block.
    [slot] gives the block at each place of the tree, place 140 being the
    indirect block itself; [inode_ok] is the invariant of the tree (its blocks
    are data blocks in use, each at one place, with none missing below the
    size) and [fbyte] a byte of the file.  The theorems show that [readi]
    returns the bytes of the file, that [writei] changes exactly the bytes
    written, growing the file and its inode on the disk, and that [itrunc]
    frees exactly the blocks of the file. *)
From S2P Require Import Prelude KState Kalloc Proc Sleeplock Bio Log Fs Trans Balloc.

Module Inode.
Import Sleeplock Bio Log Fs Trans Balloc.

Section Inode.
Context (pid : Z) (fuel : nat) (l0 : log_t) (sb0 : superblock) {devs : Devices}.
Abbreviation wp := (Trans.wp pid l0 sb0).
Abbreviation home := (Trans.home l0).
Abbreviation room := (Trans.room l0).
Abbreviation datastart := (Balloc.datastart sb0).
Abbreviation layout := (Balloc.layout l0 sb0).
Abbreviation in_use := (Balloc.in_use sb0).
Abbreviation free := (Balloc.free sb0).
Abbreviation fs_ok := (Balloc.fs_ok sb0).
Abbreviation alloc := (Balloc.alloc sb0).
Abbreviation held_ok := (Balloc.held_ok sb0).

(** ** The blocks of a file *)
Definition naddr (i : inode) (k : nat) : Z := default 0 (i_addrs i !! k).
Definition slot (v : view) (i : inode) (n : Z) : Z :=
  if n <? NDIRECT then naddr i (Z.to_nat n)
  else if n =? MAXFILE then naddr i 12
  else if naddr i 12 =? 0 then 0 else get32 (blk v (naddr i 12)) (4 * Z.to_nat (n - NDIRECT)).

Record inode_ok (v : view) (i : inode) : Prop := {
  io_addrs : length (i_addrs i) = 13%nat;
  io_dev : i_dev i = 1;
  io_size : 0 <= i_size i <= MAXFILE * BSIZE;
  io_slots : forall n, 0 <= n <= MAXFILE -> slot v i n <> 0 ->
    datastart <= slot v i n < sb_size sb0 /\ in_use v (slot v i n);
  io_inj : forall n m, 0 <= n <= MAXFILE -> 0 <= m <= MAXFILE -> slot v i n <> 0 ->
    slot v i n = slot v i m -> n = m;
  io_full : forall n, 0 <= n -> n * BSIZE < i_size i -> slot v i n <> 0;
}.

(** Byte [off] of the file. *)
Definition fbyte (v : view) (i : inode) (off : Z) : option Z :=
  blk v (slot v i (off `div` BSIZE)) !! Z.to_nat (off `mod` BSIZE).

(** At least [k] blocks are free. *)
Definition avail (k : nat) (v : view) : Prop :=
  exists l, NoDup l /\ (k <= length l)%nat /\ Forall (fun c => 0 <= c < sb_size sb0 /\ free v c) l.

Context (Hly : layout).

Lemma slot_direct v i n : 0 <= n < NDIRECT -> slot v i n = naddr i (Z.to_nat n).
Proof. intros Hn. unfold slot. by rewrite (proj2 (Z.ltb_lt _ _)) by lia. Qed.
Lemma slot_indirect v i : slot v i MAXFILE = naddr i 12.
Proof. done. Qed.
Lemma slot_entry v i n : NDIRECT <= n < MAXFILE -> slot v i n =
  if naddr i 12 =? 0 then 0 else get32 (blk v (naddr i 12)) (4 * Z.to_nat (n - NDIRECT)).
Proof.
  intros Hn. unfold slot. by rewrite (proj2 (Z.ltb_ge _ _)), (proj2 (Z.eqb_neq _ _)) by lia.
Qed.

(** The tree depends on the addresses and on the indirect block only. *)
Lemma slot_frame v v' i i' n : i_addrs i' = i_addrs i ->
  (naddr i 12 <> 0 -> blk v' (naddr i 12) = blk v (naddr i 12)) -> slot v' i' n = slot v i n.
Proof.
  intros Ea Eb. unfold slot, naddr in *. rewrite Ea. destruct (n <? NDIRECT); [done|].
  destruct (n =? MAXFILE); [done|]. destruct (Z.eqb_spec (default 0 (i_addrs i !! 12%nat)) 0); [done|].
  by rewrite Eb.
Qed.

Lemma data_pos : 0 < datastart.
Proof. pose proof (data_start l0 sb0 Hly). destruct Hly. lia. Qed.

Lemma slot_home v i n : fs_ok v -> inode_ok v i -> 0 <= n <= MAXFILE -> slot v i n <> 0 -> home v (slot v i n).
Proof. intros Hfo Hio Hn Hs. apply (home_data l0 sb0); [done..|]. by apply io_slots. Qed.

(** ** Free blocks *)
Lemma length_filter_ne (c : Z) l : NoDup l -> (length l <= S (length (filter (fun x => x <> c) l)))%nat.
Proof.
  induction 1 as [|x l Hx Hnd IH]; [simpl; lia|]. rewrite filter_cons. case_decide as E; simpl; [lia|].
  subst c. clear IH Hnd. apply le_n_S. induction l as [|y l IH]; [done|].
  apply not_elem_of_cons in Hx as [Hxy Hx]. rewrite filter_cons, decide_True by done. simpl. apply le_n_S. by apply IH.
Qed.

Lemma avail_alloc k v c : fs_ok v -> datastart <= c < sb_size sb0 -> avail (S k) v -> avail k (alloc c v).
Proof.
  intros Hfo Hc (l&Hnd&Hk&Hl). exists (filter (fun x => x <> c) l). split_and!.
  - by apply NoDup_filter.
  - pose proof (length_filter_ne c l Hnd). lia.
  - apply Forall_forall. intros x [Hxc Hx]%list_elem_of_filter. rewrite Forall_forall in Hl.
    destruct (Hl x Hx) as [Hxr Hxf]. split; [done|]. unfold Balloc.free in *.
    rewrite (bit_of_alloc l0) by done. by rewrite decide_False.
Qed.

Lemma avail_exists k v : avail (S k) v -> exists c, 0 <= c < sb_size sb0 /\ free v c.
Proof.
  intros ([|c l]&_&Hk&Hl); [simpl in Hk; lia|]. apply Forall_cons in Hl as [Hc _]. by exists c.
Qed.

Lemma avail_bits k v v' : (forall c, 0 <= c < sb_size sb0 -> bit_of sb0 v' c = bit_of sb0 v c) -> avail k v -> avail k v'.
Proof.
  intros Hb (l&Hnd&Hk&Hl). exists l. split_and!; [done..|]. eapply Forall_impl; [done|].
  intros c [Hc Hf]. split; [done|]. unfold Balloc.free in *. by rewrite Hb.
Qed.

Lemma get32_zero n o : get32 (zero_bytes n) o = 0.
Proof.
  assert (E : forall k, get8 (zero_bytes n) k = 0).
  { intros k. unfold get8, zero_bytes. generalize (Z.to_nat n). intros j. revert k. induction j as [|j IH]; intros [|k]; simpl; auto. }
  unfold get32, get16. by rewrite !E.
Qed.

(** ** [bmap] *)

(** Place [n] of a tree keeps its block, or it was empty and now it is not used
    or has a block that was free. *)
Definition kept (v : view) (i : inode) (v' : view) (i' : inode) (n : Z) : Prop :=
  if decide (slot v i n = 0) then slot v' i' n = 0 \/ free v (slot v' i' n) else slot v' i' n = slot v i n.

Lemma kept_same v i v' i' n : slot v' i' n = slot v i n -> kept v i v' i' n.
Proof. intros E. unfold kept. case_decide; [left; congruence|done]. Qed.

(** Block [n] of the file of inode [ip] is [a] after [bmap], which has
    allocated [q] blocks and logged at most [g]. *)
Record bmapped (ip : nat) (v : view) (i : inode) (n a : Z) (v' : view) (i' : inode) (q g : nat) : Prop := {
  bm_fs : fs_ok v';
  bm_inode : inode_ok v' i';
  bm_inodes : v_inodes v' = <[ip := i']> (v_inodes v);
  bm_fields : i' = i <| i_addrs := i_addrs i' |>;
  bm_slot : slot v' i' n = a;
  bm_nonzero : a <> 0;
  bm_others : forall m, 0 <= m < MAXFILE -> m <> n -> slot v' i' m = slot v i m;
  bm_blk : forall b, datastart <= b < sb_size sb0 -> in_use v b -> b <> slot v i MAXFILE -> blk v' b = blk v b;
  bm_meta : forall b, 0 <= b < sb_bmapstart sb0 -> blk v' b = blk v b;
  bm_new : slot v i n = 0 -> free v a /\ blk v' a = zero_bytes BSIZE;
  bm_old : slot v i n <> 0 -> a = slot v i n;
  bm_use : forall b, 0 <= b < sb_size sb0 -> in_use v b -> in_use v' b;
  bm_taken : forall b, 0 <= b < sb_size sb0 -> in_use v' b -> in_use v b \/ b = a \/ b = slot v' i' MAXFILE;
  bm_logged : (length (v_logged v') <= length (v_logged v) + g)%nat;
  bm_frame : v_held v' = v_held v /\ v_locked v' = v_locked v /\ length (v_disk v') = length (v_disk v);
  bm_avail : forall k, avail (q + k) v -> avail k v';
  bm_indirect : kept v i v' i' MAXFILE;
}.

#[local] Arguments bm_fs {ip v i n a v' i' q g}.
#[local] Arguments bm_inode {ip v i n a v' i' q g}.
#[local] Arguments bm_inodes {ip v i n a v' i' q g}.
#[local] Arguments bm_fields {ip v i n a v' i' q g}.
#[local] Arguments bm_slot {ip v i n a v' i' q g}.
#[local] Arguments bm_nonzero {ip v i n a v' i' q g}.
#[local] Arguments bm_others {ip v i n a v' i' q g}.
#[local] Arguments bm_blk {ip v i n a v' i' q g}.
#[local] Arguments bm_meta {ip v i n a v' i' q g}.
#[local] Arguments bm_new {ip v i n a v' i' q g}.
#[local] Arguments bm_old {ip v i n a v' i' q g}.
#[local] Arguments bm_use {ip v i n a v' i' q g}.
#[local] Arguments bm_taken {ip v i n a v' i' q g}.
#[local] Arguments bm_logged {ip v i n a v' i' q g}.
#[local] Arguments bm_frame {ip v i n a v' i' q g}.
#[local] Arguments bm_avail {ip v i n a v' i' q g}.
#[local] Arguments bm_indirect {ip v i n a v' i' q g}.

(** Nothing to allocate. *)
Lemma bmapped_old ip v i n : fs_ok v -> inode_ok v i -> v_inodes v !! ip = Some i ->
  slot v i n <> 0 -> bmapped ip v i n (slot v i n) v i 0 0.
Proof.
  intros Hfo Hio Hi Hs. split; try done; try tauto; try lia.
  - by rewrite list_insert_id.
  - by destruct i.
  - by apply kept_same.
Qed.

Lemma in_use_not_free v b : in_use v b -> free v b -> False.
Proof. unfold Balloc.in_use, Balloc.free. congruence. Qed.

(** The indirect block first, then an entry of it. *)
Lemma bmapped_trans ip v i x v1 i1 qa ga n a v2 i2 qb gb :
  fs_ok v -> inode_ok v i -> 0 <= n < MAXFILE ->
  bmapped ip v i MAXFILE x v1 i1 qa ga -> bmapped ip v1 i1 n a v2 i2 qb gb ->
  slot v2 i2 MAXFILE = x -> bmapped ip v i n a v2 i2 (qa + qb) (ga + gb).
Proof.
  intros Hfo Hio Hn A B Hx. pose proof (bm_slot A) as Hx1. pose proof data_pos.
  assert (Hsn : slot v1 i1 n = slot v i n) by (apply (bm_others A); [done|lia]).
  assert (Hbx : forall b, in_use v b -> b <> slot v i MAXFILE -> b <> slot v1 i1 MAXFILE).
  { intros b Hb Hne ->. rewrite Hx1 in Hb, Hne. destruct (decide (slot v i MAXFILE = 0)) as [E|E].
    - destruct (bm_new A E) as [Hf _]. by eapply in_use_not_free.
    - apply Hne. by apply (bm_old A). }
  split; try (exact (bm_fs B) || exact (bm_inode B) || exact (bm_slot B) || exact (bm_nonzero B)).
  - rewrite (bm_inodes B), (bm_inodes A). apply list_insert_insert_eq.
  - rewrite (bm_fields B) at 1. rewrite (bm_fields A). by destruct i.
  - intros m Hm Hne. rewrite (bm_others B) by done. apply (bm_others A); [done|lia].
  - intros b Hb Hu Hne. rewrite (bm_blk B); [by apply (bm_blk A)|done|apply (bm_use A); [lia|done]|by apply Hbx].
  - intros b Hb. rewrite (bm_meta B) by done. by apply (bm_meta A).
  - intros E. rewrite <- Hsn in E. destruct (bm_new B E) as [Hf Hz]. split; [|done].
    pose proof (bm_slot B) as Ha. destruct (io_slots _ _ (bm_inode B) n) as [Hr _]; [lia|by rewrite Ha; apply (bm_nonzero B)|].
    rewrite Ha in Hr. destruct (bit_some l0 sb0 Hly v a Hfo) as [Hu|]; [lia| |done]. exfalso.
    eapply in_use_not_free; [apply (bm_use A); [|exact Hu]|done]. lia.
  - intros E. rewrite <- Hsn. apply (bm_old B). by rewrite Hsn.
  - intros b Hb Hu. apply (bm_use B); [done|]. by apply (bm_use A).
  - intros b Hb [Hu|[->| ->]]%(bm_taken B); [|tauto..|done].
    destruct (bm_taken A b Hb Hu) as [?|[->| ->]]; [tauto|right; right; congruence..].
  - pose proof (bm_logged A). pose proof (bm_logged B). lia.
  - destruct (bm_frame A) as (?&?&?), (bm_frame B) as (?&?&?). split_and!; congruence.
  - intros k Hk. apply (bm_avail B), (bm_avail A). by rewrite Nat.add_assoc.
  - unfold kept. case_decide as E; rewrite Hx; [right; by apply (bm_new A)|by apply (bm_old A)].
Qed.

(** A direct block or the indirect block allocated. *)
Definition with_addr (ip k : nat) (c : Z) (v : view) : view :=
  (alloc c v) <| v_inodes := alter (fun i => i <| i_addrs := <[k := c]> (i_addrs i) |>) ip (v_inodes v) |>.

Lemma naddr_insert i k c j : (k < length (i_addrs i))%nat ->
  naddr (i <| i_addrs := <[k := c]> (i_addrs i) |>) j = if decide (j = k) then c else naddr i j.
Proof.
  intros Hk. unfold naddr. cbn [i_addrs setf]. case_decide as E.
  - subst. by rewrite list_lookup_insert_eq.
  - by rewrite list_lookup_insert_ne.
Qed.

(** The place of address [k]. *)
Definition place (k : nat) : Z := if decide (k = 12%nat) then MAXFILE else Z.of_nat k.

Lemma slot_place v i k : (k <= 12)%nat -> slot v i (place k) = naddr i k.
Proof.
  intros Hk. unfold place. case_decide as E; [by subst|]. rewrite slot_direct by (unfold NDIRECT; lia). by rewrite Nat2Z.id.
Qed.

(** The tree after address [k], which was missing, is set to a new block. *)
Lemma slot_with_addr v i c k n : fs_ok v -> inode_ok v i -> (k <= 12)%nat -> naddr i k = 0 ->
  datastart <= c < sb_size sb0 -> free v c -> 0 <= n <= MAXFILE ->
  slot (alloc c v) (i <| i_addrs := <[k := c]> (i_addrs i) |>) n = if decide (n = place k) then c else slot v i n.
Proof.
  intros Hfo Hio Hk H0 Hc Hf Hn. pose proof (io_addrs _ _ Hio) as Hl.
  set (i' := i <| i_addrs := _ |>). assert (Hna : forall j, naddr i' j = if decide (j = k) then c else naddr i j)
    by (intros j; apply naddr_insert; lia).
  case_decide as E; [subst n; rewrite slot_place by done; by rewrite Hna, decide_True|].
  unfold place in E. destruct (Z.lt_ge_cases n NDIRECT).
  - rewrite !slot_direct by lia. rewrite Hna. rewrite decide_False; [done|].
    intros <-. case_decide; unfold NDIRECT in *; lia.
  - destruct (decide (n = MAXFILE)) as [->|Hne].
    + rewrite !slot_indirect, Hna. rewrite decide_False; [done|]. intros <-. by rewrite decide_True in E.
    + rewrite !slot_entry by lia. rewrite Hna. destruct (decide (12%nat = k)) as [<-|].
      * rewrite (proj2 (Z.eqb_neq c 0)), H0 by (pose proof data_pos; lia). rewrite Z.eqb_refl.
        rewrite (blk_alloc l0) by (done || lia). rewrite decide_True by done. apply get32_zero.
      * destruct (Z.eqb_spec (naddr i 12) 0) as [|Hz]; [done|]. destruct (io_slots _ _ Hio MAXFILE) as [Hr Hu]; [done|done|].
        rewrite slot_indirect in Hr, Hu. rewrite (blk_alloc l0) by (done || lia).
        rewrite decide_False; [done|]. intros E2. unfold Balloc.in_use, Balloc.free in *. congruence.
Qed.

(** A tree that gained block [c] at place [n]. *)
Lemma inode_ok_grow v i v' i' n c : inode_ok v i -> length (i_addrs i') = 13%nat ->
  i' = i <| i_addrs := i_addrs i' |> ->
  (forall m, 0 <= m <= MAXFILE -> slot v' i' m = if decide (m = n) then c else slot v i m) ->
  slot v i n = 0 -> datastart <= c < sb_size sb0 -> free v c -> in_use v' c ->
  (forall b, 0 <= b < sb_size sb0 -> in_use v b -> in_use v' b) -> inode_ok v' i'.
Proof.
  intros [Ha Hd Hz Hs Hi Hf] Ha' Ei Hsl H0 Hc Hfc Huc Huse. pose proof data_pos.
  assert (Hnc : forall m, 0 <= m <= MAXFILE -> slot v i m <> 0 -> slot v i m <> c).
  { intros m Hm Hnz E. destruct (Hs m Hm Hnz) as [_ Hu]. rewrite E in Hu. by eapply in_use_not_free. }
  assert (Edev : i_dev i' = i_dev i) by (by rewrite Ei). assert (Esz : i_size i' = i_size i) by (by rewrite Ei).
  clear Ei. split; rewrite ?Edev, ?Esz; try done.
  - intros m Hm. rewrite Hsl by done. case_decide; [done|]. intros Hnz. destruct (Hs m Hm Hnz) as [Hr Hu].
    split; [done|]. apply Huse; [lia|done].
  - intros m k Hm Hk. rewrite !Hsl by done. repeat case_decide; subst; try done.
    + intros _ E. exfalso. by apply (Hnc k Hk); [intros E0; lia|].
    + intros Hnz E. exfalso. by apply (Hnc m).
    + by apply Hi.
  - intros m Hm Hlt. destruct (decide (m <= MAXFILE)).
    + rewrite Hsl by lia. case_decide; [lia|]. by apply Hf.
    + exfalso. unfold MAXFILE, NDIRECT, NINDIRECT, BSIZE in *. lia.
Qed.

Lemma logged_alloc c v : (length (v_logged (alloc c v)) <= length (v_logged v) + 2)%nat.
Proof.
  unfold Balloc.alloc, mark, log_update. fields.
  pose proof (length_log_add (BBLOCK c sb0) (v_logged v)).
  pose proof (length_log_add c (log_add (BBLOCK c sb0) (v_logged v))). lia.
Qed.

Lemma in_use_alloc v c b : fs_ok v -> datastart <= c < sb_size sb0 -> 0 <= b < sb_size sb0 ->
  in_use (alloc c v) b <-> in_use v b \/ b = c.
Proof.
  intros Hfo Hc Hb. unfold Balloc.in_use. rewrite (bit_of_alloc l0) by done. case_decide; naive_solver.
Qed.

(** Blocks other than the bitmap and [c] keep their contents. *)
Lemma blk_alloc_meta v c b : fs_ok v -> datastart <= c < sb_size sb0 -> 0 <= b < sb_bmapstart sb0 ->
  blk (alloc c v) b = blk v b.
Proof.
  intros Hfo Hc Hb. pose proof (data_start l0 sb0 Hly). pose proof data_pos.
  pose proof (BBLOCK_range l0 sb0 Hly c ltac:(lia)). unfold Balloc.alloc, mark.
  rewrite blk_update; [|apply (home_data l0 sb0); [done|apply (fs_ok_mark l0); [done..|lia]|done]|lia].
  rewrite decide_False by lia. rewrite blk_update; [by rewrite decide_False by lia| |lia].
  apply (home_bitmap l0 sb0); [done..|lia].
Qed.

Lemma length_disk_alloc v c : length (v_disk (alloc c v)) = length (v_disk v).
Proof. unfold Balloc.alloc, mark, log_update. fields. by rewrite !length_insert. Qed.

Lemma alloc_addr_ok ip v i k c : fs_ok v -> inode_ok v i -> v_inodes v !! ip = Some i -> (k <= 12)%nat ->
  naddr i k = 0 -> datastart <= c < sb_size sb0 -> free v c ->
  bmapped ip v i (place k) c (with_addr ip k c v) (i <| i_addrs := <[k := c]> (i_addrs i) |>) 1 2.
Proof.
  intros Hfo Hio Hi Hk H0 Hc Hf. pose proof data_pos as Hp. set (i' := i <| i_addrs := _ |>).
  assert (Hpl : 0 <= place k <= MAXFILE) by (unfold place, MAXFILE, NDIRECT, NINDIRECT; case_decide; lia).
  assert (Hsl : forall n, 0 <= n <= MAXFILE -> slot (with_addr ip k c v) i' n = if decide (n = place k) then c else slot v i n).
  { intros n Hn. apply (slot_with_addr v i c k n); done. }
  assert (Hul : forall b, 0 <= b < sb_size sb0 -> in_use (with_addr ip k c v) b <-> in_use v b \/ b = c)
    by (intros b Hb; by apply in_use_alloc).
  assert (Hbl : forall b, datastart <= b -> blk (with_addr ip k c v) b = if decide (b = c) then zero_bytes BSIZE else blk v b)
    by (intros b Hb; by apply (blk_alloc l0)).
  split; try done.
  - pose proof (fs_ok_alloc l0 sb0 Hly v c Hfo Hc) as [? ? ?]. by split.
  - apply (inode_ok_grow v i _ _ (place k) c); try done.
    + unfold i'. cbn. rewrite length_insert. apply Hio.
    + by rewrite slot_place.
    + apply Hul; [lia|by right].
    + intros b Hb Hu. apply Hul; [done|by left].
  - exact (list_alter_to_insert (fun i => i <| i_addrs := <[k := c]> (i_addrs i) |>) ip _ i Hi).
  - by rewrite Hsl, decide_True.
  - lia.
  - intros m Hm Hne. rewrite Hsl by lia. by rewrite decide_False.
  - intros b Hb Hu _. rewrite Hbl by lia. rewrite decide_False; [done|]. intros ->. by eapply in_use_not_free.
  - intros b Hb. by apply blk_alloc_meta.
  - intros _. split; [done|]. rewrite Hbl by lia. by rewrite decide_True.
  - by rewrite slot_place.
  - intros b Hb Hu. apply Hul; [done|by left].
  - intros b Hb [?| ->]%Hul; [tauto..|done].
  - apply logged_alloc.
  - unfold with_addr. fields. split_and!; [done..|apply length_disk_alloc].
  - intros j Hj. by apply (avail_alloc j v c).
  - unfold kept. rewrite Hsl by done. destruct (decide (MAXFILE = place k)) as [E|E]; [|by case_decide; [left|]].
    rewrite E, slot_place, H0 by done. by right.
Qed.

(** An entry of the indirect block [x] set to a new block. *)
Definition with_entry (x c : Z) (j : nat) (v : view) : view :=
  log_update x (blit (blk (alloc c v) x) (4 * j) (le32 c)) (alloc c v).

Lemma blk_with_entry v x c j b : fs_ok v -> datastart <= c < sb_size sb0 -> datastart <= x < sb_size sb0 ->
  c <> x -> 0 <= b ->
  blk (with_entry x c j v) b = if decide (b = x) then blit (blk v x) (4 * j) (le32 c) else blk (alloc c v) b.
Proof.
  intros Hfo Hc Hx Hne Hb. unfold with_entry. rewrite blk_update; [|apply (home_data l0 sb0); [done| |done]|done].
  - case_decide; [|done]. rewrite (blk_alloc l0) by (done || lia). by rewrite decide_False.
  - by apply (fs_ok_alloc l0).
Qed.

Lemma in_use_with_entry v x c j b : fs_ok v -> datastart <= c < sb_size sb0 -> datastart <= x < sb_size sb0 ->
  0 <= b < sb_size sb0 -> bit_of sb0 (with_entry x c j v) b = bit_of sb0 (alloc c v) b.
Proof.
  intros Hfo Hc Hx Hb. unfold with_entry. apply (bit_of_data l0); [done| |lia|done].
  apply (home_data l0 sb0); [done|by apply (fs_ok_alloc l0)|done].
Qed.

Lemma slot_with_entry v i c n m : fs_ok v -> inode_ok v i -> NDIRECT <= n < MAXFILE -> naddr i 12 <> 0 ->
  datastart <= c < sb_size sb0 -> free v c -> 0 <= m <= MAXFILE ->
  slot (with_entry (naddr i 12) c (Z.to_nat (n - NDIRECT)) v) i m = if decide (m = n) then c else slot v i m.
Proof.
  intros Hfo Hio Hn Hx Hc Hf Hm. pose proof data_pos as Hp. unfold MAXFILE, NDIRECT, NINDIRECT in *.
  destruct (io_slots _ _ Hio MAXFILE ltac:(done) Hx) as [Hxr Hxu]. rewrite slot_indirect in Hxr, Hxu.
  assert (Hcx : c <> naddr i 12) by (intros ->; by eapply in_use_not_free).
  assert (Hlb : length (blk v (naddr i 12)) = 512%nat).
  { apply (length_blk sb0); [done|]. by apply (home_data l0 sb0). }
  destruct (decide (m < 12)).
  { rewrite !slot_direct by (unfold NDIRECT; lia). by rewrite decide_False by lia. }
  destruct (decide (m = MAXFILE)) as [->|Hmm]; [by rewrite decide_False by (unfold MAXFILE, NDIRECT, NINDIRECT; lia)|].
  unfold MAXFILE, NDIRECT, NINDIRECT in Hmm.
  rewrite !slot_entry by (unfold MAXFILE, NDIRECT, NINDIRECT; lia). rewrite (proj2 (Z.eqb_neq _ _)) by done.
  rewrite blk_with_entry by (done || lia). rewrite decide_True by done. unfold NDIRECT. case_decide as E.
  - subst m. rewrite get32_blit_eq by lia. apply u32_small. destruct Hly. unfold BPB, BSIZE in *. lia.
  - rewrite get32_blit_ne; [done| |]; change (length (le32 c)) with 4%nat; lia.
Qed.

Lemma entry_ok ip v i n c : fs_ok v -> inode_ok v i -> v_inodes v !! ip = Some i -> NDIRECT <= n < MAXFILE ->
  naddr i 12 <> 0 -> slot v i n = 0 -> datastart <= c < sb_size sb0 -> free v c ->
  bmapped ip v i n c (with_entry (naddr i 12) c (Z.to_nat (n - NDIRECT)) v) i 1 3.
Proof.
  intros Hfo Hio Hi Hn Hx H0 Hc Hf. pose proof data_pos as Hp. set (x := naddr i 12) in *.
  destruct (io_slots _ _ Hio MAXFILE ltac:(done) Hx) as [Hxr Hxu]. rewrite slot_indirect in Hxr, Hxu. fold x in Hxr, Hxu.
  assert (Hcx : c <> x) by (intros ->; by eapply in_use_not_free).
  pose proof (fs_ok_alloc l0 sb0 Hly v c Hfo Hc) as Hfa.
  set (v' := with_entry x c _ v).
  assert (Hsl : forall m, 0 <= m <= MAXFILE -> slot v' i m = if decide (m = n) then c else slot v i m)
    by (intros m Hm; by apply slot_with_entry).
  assert (Hul : forall b, 0 <= b < sb_size sb0 -> in_use v' b <-> in_use v b \/ b = c).
  { intros b Hb. unfold v', Balloc.in_use. rewrite in_use_with_entry by done. by apply in_use_alloc. }
  assert (Hbl : forall b, datastart <= b -> b <> x -> blk v' b = if decide (b = c) then zero_bytes BSIZE else blk v b).
  { intros b Hb Hbx. unfold v'. rewrite blk_with_entry by (done || lia). rewrite decide_False by done. by apply (blk_alloc l0). }
  assert (Hn' : 0 <= n <= MAXFILE) by (unfold NDIRECT in *; lia).
  assert (Hlb : length (blk (alloc c v) x) = 512%nat) by (apply (length_blk sb0); [done|by apply (home_data l0 sb0)]).
  split; try done.
  - apply (fs_ok_data l0 sb0); [done|done| |done]. rewrite length_blit; [done|]. rewrite Hlb.
    change (length (le32 c)) with 4%nat. unfold MAXFILE, NDIRECT, NINDIRECT in *. lia.
  - apply (inode_ok_grow v i _ _ n c); try done; [apply Hio|by destruct i| |].
    + apply Hul; [lia|by right].
    + intros b Hb Hu. apply Hul; [done|by left].
  - rewrite list_insert_id by done. done.
  - by destruct i.
  - by rewrite Hsl, decide_True.
  - lia.
  - intros m Hm Hne. rewrite Hsl by lia. by rewrite decide_False.
  - intros b Hb Hu Hne. rewrite Hbl by (done || lia). rewrite decide_False; [done|]. intros ->. by eapply in_use_not_free.
  - intros b Hb. pose proof (data_start l0 sb0 Hly). unfold v'. rewrite blk_with_entry by (done || lia).
    rewrite decide_False by lia. by apply blk_alloc_meta.
  - intros _. split; [done|]. rewrite Hbl by (done || lia). by rewrite decide_True.
  - intros b Hb Hu. apply Hul; [done|by left].
  - intros b Hb [?| ->]%Hul; [tauto..|done].
  - unfold v', with_entry, log_update. fields. pose proof (logged_alloc c v).
    pose proof (length_log_add x (v_logged (alloc c v))). lia.
  - unfold v', with_entry, log_update. fields. rewrite length_insert. split_and!; [done..|apply length_disk_alloc].
  - intros k Hk. apply (avail_bits k (alloc c v)); [intros b Hb; by apply in_use_with_entry|]. by apply (avail_alloc k v c).
  - by apply kept_same.
Qed.

(** ** [bmap], run *)
Lemma addr_lookup i k : length (i_addrs i) = 13%nat -> (k <= 12)%nat -> i_addrs i !! k = Some (naddr i k).
Proof.
  intros Hl Hk. unfold naddr. destruct (lookup_lt_is_Some_2 (i_addrs i) k) as [a ->]; [lia|done].
Qed.

Lemma held_nil v : v_held v = [] -> held_ok v.
Proof. intros E. unfold Balloc.held_ok. rewrite E. split; [simpl; lia|constructor]. Qed.

(** Address [k], allocated if it is missing. *)
Lemma wp_addr ip v i k Q : fs_ok v -> inode_ok v i -> v_inodes v !! ip = Some i -> held_ok v -> (k <= 12)%nat ->
  (naddr i k = 0 -> room 2 v /\ avail 1 v) ->
  (forall a v' i' q g, bmapped ip v i (place k) a v' i' q g -> (q <= 1)%nat -> (g <= 2)%nat ->
     (naddr i k <> 0 -> v' = v /\ i' = i /\ g = 0%nat) -> Q a v') ->
  wp (if naddr i k =? 0 then addr ← balloc (S fuel) (i_dev i); set_addr ip k addr ;; mret addr else mret (naddr i k)) v Q.
Proof.
  intros Hfo Hio Hi Hh Hk Hal HQ. destruct (Z.eqb_spec (naddr i k) 0) as [E|E].
  - destruct (Hal E) as [Hr Hav]. rewrite (io_dev _ _ Hio). apply wp_bind.
    apply (wp_balloc pid fuel l0 sb0 Hly); [done|done|done|by apply (avail_exists 0)|].
    intros c Hc Hf _. apply wp_bind. apply wp_set_inode. apply wp_ret.
    apply (HQ c (with_addr ip k c v) (i <| i_addrs := <[k := c]> (i_addrs i) |>) 1%nat 2%nat); [by apply alloc_addr_ok|lia|lia|done].
  - apply wp_ret. apply (HQ _ v i 0%nat 0%nat); [|lia|lia|done]. rewrite <- (slot_place v) by done.
    apply bmapped_old; try done. by rewrite slot_place.
Qed.

(** The rest of [bmap] for a block of the indirect part. *)
Definition bmap_entry (dev x : Z) (bn : Z) : M Z :=
  bp ← bread (S fuel) dev x;
  buf ← get_buf bp;
  let addr := get32 (b_data buf) (4 * Z.to_nat bn) in
  addr ← (if addr =? 0 then
            addr ← balloc (S fuel) dev;
            upd_data bp (fun d => blit d (4 * Z.to_nat bn) (le32 addr)) ;;
            log_write bp ;;
            mret addr
          else mret addr);
  brelse bp ;;
  mret addr.

Lemma wp_entry ip v i n Q : fs_ok v -> inode_ok v i -> v_inodes v !! ip = Some i -> v_held v = [] ->
  NDIRECT <= n < MAXFILE -> naddr i 12 <> 0 -> (length (v_logged v) <= 29)%nat ->
  (slot v i n = 0 -> room 3 v /\ avail 1 v) ->
  (forall a v' q g, bmapped ip v i n a v' i q g -> (q <= 1)%nat -> (g <= 3)%nat ->
     (slot v i n <> 0 -> v' = v /\ g = 0%nat) -> Q a v') ->
  wp (bmap_entry 1 (naddr i 12) (n - NDIRECT)) v Q.
Proof.
  intros Hfo Hio Hi Hh Hn Hx Hlog Hal HQ. unfold bmap_entry. set (x := naddr i 12) in *.
  destruct (io_slots _ _ Hio MAXFILE ltac:(done) Hx) as [Hxr Hxu]. rewrite slot_indirect in Hxr, Hxu. fold x in Hxr, Hxu.
  pose proof (home_data l0 sb0 Hly v x Hfo Hxr) as Hho.
  assert (Hsl : slot v i n = get32 (blk v x) (4 * Z.to_nat (n - NDIRECT))).
  { rewrite slot_entry by done. fold x. by rewrite (proj2 (Z.eqb_neq _ _)). }
  apply wp_bind. apply wp_bread; [apply Hho|rewrite Hh; apply not_elem_of_nil|rewrite Hh; cbn [length]; unfold NBUF; lia|].
  intros bp Hbp. set (v1 := v <| v_held := _ |>). assert (Hd1 : v_disk v1 !! Z.to_nat x = Some (blk v x)) by exact (blk_lookup v x (proj1 Hho)).
  eapply (wp_get_buf _ _ _ _ _ bp x); [by left|exact Hd1|]. intros buf Hd _. rewrite Hd, <- Hsl.
  destruct (Z.eqb_spec (slot v i n) 0) as [E|E].
  - destruct (Hal E) as [Hr Hav]. apply wp_bind.
    assert (Hh1 : held_ok v1).
    { unfold v1, Balloc.held_ok. fields. rewrite Hh. split; [simpl; lia|]. apply Forall_singleton. split; [apply Hxr|done]. }
    assert (Hfo1 : fs_ok v1) by (destruct Hfo; by split).
    apply wp_bind. apply (wp_balloc pid fuel l0 sb0 Hly); [done|done|apply (room_mono _ _ _ _ _ Hr); unfold v1; fields; lia
      |by apply (avail_exists 0) in Hav|].
    intros c Hc Hf _. change (free v c) in Hf.
    assert (Hcx : c <> x) by (intros ->; by eapply in_use_not_free).
    eapply (wp_log_update _ _ _ _ _ bp x); [by left| | | |].
    + apply (blk_lookup (alloc c v1)), (home_data l0 sb0 Hly); [by apply (fs_ok_alloc l0)|done].
    + apply (home_data l0 sb0 Hly); [by apply (fs_ok_alloc l0)|done].
    + apply (room_mono _ _ _ _ _ Hr). pose proof (logged_alloc c v1) as H. change (v_logged v1) with (v_logged v) in H. lia.
    + apply wp_ret. apply wp_bind. eapply wp_brelse; [done|]. rewrite Hh. apply wp_ret.
      replace (_ <| v_held := [] |>) with (with_entry x c (Z.to_nat (n - NDIRECT)) v).
      * apply (HQ c _ 1%nat 3%nat); [by apply entry_ok|lia|lia|done].
      * destruct v. cbn in Hh. subst. done.
  - apply wp_bind, wp_ret, wp_bind. eapply wp_brelse; [done|].
    replace (v1 <| v_held := _ |>) with v by (by destruct v). apply wp_ret.
    apply (HQ _ v 0%nat 0%nat); [by apply bmapped_old|lia|lia|done].
Qed.

Lemma wp_bmap ip v i n Q : fs_ok v -> inode_ok v i -> v_inodes v !! ip = Some i -> v_held v = [] ->
  0 <= n < MAXFILE -> (length (v_logged v) <= 29)%nat ->
  (slot v i n = 0 -> room 5 v /\ avail 2 v) ->
  (forall a v' i' q g, bmapped ip v i n a v' i' q g -> (q <= 2)%nat -> (g <= 5)%nat ->
     (slot v i n <> 0 -> v' = v /\ i' = i) -> Q a v') ->
  wp (bmap (S fuel) ip n) v Q.
Proof.
  intros Hfo Hio Hi Hh Hn Hlog Hal HQ. pose proof (io_addrs _ _ Hio) as Hla. unfold bmap.
  apply (wp_get_inode _ _ _ _ _ ip i); [done|]. destruct (Z.ltb_spec n NDIRECT) as [Hd|Hd].
  - assert (Hk : (Z.to_nat n <= 12)%nat) by (unfold NDIRECT in Hd; lia).
    eapply wp_need; [by apply addr_lookup|].
    assert (Hpl : place (Z.to_nat n) = n).
    { unfold place. rewrite decide_False by (unfold NDIRECT in Hd; lia). lia. }
    apply (wp_addr ip v i); try done; [by apply held_nil| |].
    + intros E. rewrite <- (slot_place v), Hpl in E by done. destruct (Hal E) as [Hr Hav]. split.
      * apply (room_mono _ _ _ _ _ Hr). lia.
      * destruct Hav as (l&?&?&?). exists l. split_and!; [done|lia|done].
    + intros a v' i' q g Hb Hq Hg Hsame. rewrite Hpl in Hb. apply (HQ a v' i' q g); [done|lia|lia|].
      intros E. destruct Hsame as (?&?&?); [|done]. by rewrite <- (slot_place v), Hpl.
  - rewrite (proj2 (Z.ltb_lt _ _)) by (unfold MAXFILE, NDIRECT, NINDIRECT in *; lia).
    change (Z.to_nat NDIRECT) with 12%nat. eapply wp_need; [by apply addr_lookup|].
    apply wp_bind. apply (wp_addr ip v i 12); try done; [by apply held_nil| |].
    + intros E. destruct Hal as [Hr Hav]; [rewrite slot_entry by lia; by rewrite E|]. split.
      * apply (room_mono _ _ _ _ _ Hr). lia.
      * destruct Hav as (l&?&?&?). exists l. split_and!; [done|lia|done].
    + change (place 12) with MAXFILE. intros x v1 i1 qa ga A Hqa Hga Hsame.
      pose proof (bm_slot A) as Hx. rewrite slot_indirect in Hx. pose proof (bm_nonzero A) as Hx0.
      assert (Hs1 : slot v1 i1 n = slot v i n) by (apply (bm_others A); lia).
      assert (Hi1 : v_inodes v1 !! ip = Some i1).
      { rewrite (bm_inodes A). apply list_lookup_insert_eq. by eapply lookup_lt_Some. }
      destruct (bm_frame A) as (Hh1&_&_). pose proof (bm_logged A) as Hl1.
      rewrite (io_dev _ _ Hio), <- Hx. apply (wp_entry ip v1 i1); try apply A; try done.
      * by rewrite Hh1.
      * lia.
      * by rewrite Hx.
      * destruct (decide (naddr i 12 = 0)) as [E|E]; [|destruct (Hsame E) as (->&_&_); done].
        destruct Hal as [(_&_&Hr) _]; [rewrite slot_entry by lia; by rewrite E|]. lia.
      * intros E. rewrite Hs1 in E. destruct (Hal E) as [Hr Hav]. split.
        -- apply (room_mono _ _ _ _ _ Hr). lia.
        -- apply (bm_avail A). destruct Hav as (l&?&?&?). exists l. split_and!; [done|lia|done].
      * intros a v2 q g B Hq Hg Hsame2. apply (HQ a v2 i1 (qa + q)%nat (ga + g)%nat); [|lia|lia|].
        -- apply (bmapped_trans ip v i x v1 i1); try done.
        -- intros E. destruct Hsame2 as [-> _]; [by rewrite Hs1|]. destruct Hsame as (->&->&_); [|done].
           intros E0. apply E. rewrite slot_entry by lia. by rewrite E0.
Qed.

(** ** [readi] *)

(** The [n] bytes of the file at [off]. *)
Definition slice (v : view) (i : inode) (off : Z) (n : nat) : list Z :=
  (fun j => default 0 (fbyte v i (off + Z.of_nat j))) <$> seq 0 n.

Lemma slice_app v i off n m : slice v i off (n + m) = slice v i off n ++ slice v i (off + Z.of_nat n) m.
Proof.
  unfold slice. rewrite seq_app, fmap_app. f_equal.
  replace (seq (0 + n) m) with (Nat.add n <$> seq 0 m) by (rewrite fmap_add_seq; f_equal; lia).
  rewrite <- list_fmap_compose.
  apply list_fmap_ext. intros ? j _. cbn. by replace (off + Z.of_nat (n + j)) with (off + Z.of_nat n + Z.of_nat j) by lia.
Qed.

Lemma piece_range left off : 0 < left -> 0 < piece left off <= left /\ piece left off + off `mod` BSIZE <= BSIZE.
Proof. intros Hl. unfold piece, BSIZE. pose proof (Z.mod_pos_bound off 512 ltac:(lia)). lia. Qed.

(** The rest of a file after a piece of it. *)
Lemma piece_next left off : 0 <= off -> 0 < left ->
  let m := piece left off in m = left \/ (off + m) `mod` BSIZE = 0 /\ m = BSIZE - off `mod` BSIZE.
Proof. intros Ho Hl. cbv zeta. unfold piece, BSIZE. zlia. Qed.

(** A piece of one block. *)
Lemma slice_piece v i off m d : 0 <= off -> 0 <= m -> m + off `mod` BSIZE <= BSIZE ->
  blk v (slot v i (off `div` BSIZE)) = d -> length d = 512%nat ->
  slice v i off (Z.to_nat m) = take (Z.to_nat m) (drop (Z.to_nat (off `mod` BSIZE)) d).
Proof.
  intros Ho Hm Hb Hd Hl. unfold BSIZE in *. pose proof (Z.mod_pos_bound off 512 ltac:(lia)).
  apply list_eq. intros j. unfold slice. rewrite list_lookup_fmap.
  destruct (decide (j < Z.to_nat m)%nat) as [Hj|Hj].
  - rewrite lookup_seq_lt, lookup_take_lt, lookup_drop by done. cbn. unfold fbyte, BSIZE.
    replace ((off + Z.of_nat j) `div` 512) with (off `div` 512) by zlia. rewrite Hd.
    replace (Z.to_nat ((off + Z.of_nat j) `mod` 512)) with (Z.to_nat (off `mod` 512) + j)%nat by zlia.
    destruct (lookup_lt_is_Some_2 d (Z.to_nat (off `mod` 512) + j)) as [b ->]; [lia|done].
  - rewrite lookup_seq_ge, lookup_take_ge by lia. done.
Qed.

Lemma wp_readi_loop ip v i k off left Q : fs_ok v -> inode_ok v i -> v_inodes v !! ip = Some i -> v_held v = [] ->
  (length (v_logged v) <= 29)%nat -> 0 <= off -> 0 <= left -> off + left <= i_size i ->
  (0 < left -> off `mod` BSIZE + left <= BSIZE * (Z.of_nat k - 1)) -> (0 < k)%nat ->
  Q (slice v i off (Z.to_nat left)) v -> wp (readi_loop (S fuel) k ip off left) v Q.
Proof.
  intros Hfo Hio Hi Hh Hlog. revert off left Q.
  induction k as [|k IH]; intros off left Q Ho Hl Hsz Hk Hk0 HQ; [lia|]. cbn [readi_loop].
  destruct (Z.ltb_spec 0 left) as [Hpos|Hz]; [|replace left with 0 in HQ by lia; by apply wp_ret].
  specialize (Hk Hpos). pose proof (io_size _ _ Hio) as Hs. destruct (piece_range left off Hpos) as [Hm Hmb].
  pose proof (piece_next left off Ho Hpos) as Hnext. cbv zeta in Hnext. set (m := piece left off) in *.
  assert (Hn : 0 <= off `div` BSIZE < MAXFILE).
  { unfold MAXFILE, NDIRECT, NINDIRECT, BSIZE in *. zlia. }
  assert (Hnz : slot v i (off `div` BSIZE) <> 0).
  { apply (io_full _ _ Hio); [lia|]. unfold BSIZE in *. zlia. }
  destruct (io_slots _ _ Hio (off `div` BSIZE) ltac:(lia) Hnz) as [Hr _]. set (a := slot v i (off `div` BSIZE)) in *.
  pose proof (home_data l0 sb0 Hly v a Hfo Hr) as [Hhr _].
  pose proof (length_blk sb0 v a Hfo Hhr) as Hlb.
  apply (wp_get_inode _ _ _ _ _ ip i); [done|]. apply wp_bind. apply (wp_bmap ip v i); try done.
  intros a' v' i' q g B _ _ Hsame. destruct (Hsame Hnz) as [-> ->]. rewrite (bm_old B Hnz). fold a.
  rewrite (io_dev _ _ Hio). apply wp_bind. apply wp_bread; [done|rewrite Hh; apply not_elem_of_nil|rewrite Hh; cbn [length]; unfold NBUF; lia|].
  intros bp Hbp. eapply (wp_get_buf _ _ _ _ _ bp a); [by left|exact (blk_lookup v a Hhr)|]. intros buf Hd _. rewrite Hd.
  pose proof (Z.mod_pos_bound off BSIZE ltac:(done)). unfold MAXFILE, NDIRECT, NINDIRECT, BSIZE in *.
  unfold memmove. rewrite (u32_small m) by lia. rewrite (proj2 (Z.leb_le 0 0)) by lia.
  rewrite (proj2 (Z.leb_le m _)) by (rewrite length_drop; lia).
  rewrite (proj2 (Z.leb_le (0 + m) _)) by (unfold zero_bytes; rewrite length_replicate; lia). cbn [andb].
  apply wp_bind, wp_ret, wp_bind. eapply wp_brelse; [done|].
  replace (v <| v_held := _ |> <| v_held := _ |>) with v by (by destruct v).
  rewrite (u32_small (off + m)) by lia. apply wp_bind. apply IH; [lia|lia|lia| |lia|].
  - intros Hl'. destruct Hnext as [E|[E E']]; [lia|]. rewrite E. lia.
  - apply wp_ret. replace (Z.to_nat left) with (Z.to_nat m + Z.to_nat (left - m))%nat in HQ by lia.
    rewrite slice_app, Z2Nat.id in HQ by lia.
    rewrite (slice_piece v i off m (blk v a)) in HQ by (done || lia).
    replace (blit _ _ _) with (take (Z.to_nat m) (drop (Z.to_nat (off `mod` 512)) (blk v a))); [done|].
    unfold blit. cbn [Z.to_nat take app Nat.add]. rewrite (drop_ge (zero_bytes m)), app_nil_r; [done|].
    unfold zero_bytes. rewrite length_replicate, length_take, length_drop. lia.
Qed.

Lemma wp_readi ip v i off n Q : fs_ok v -> inode_ok v i -> v_inodes v !! ip = Some i -> v_held v = [] ->
  (length (v_logged v) <= 29)%nat -> i_type i <> T_DEV -> 0 <= off <= i_size i -> 0 <= n < 2 ^ 31 ->
  (let k := Z.min n (i_size i - off) in Q (k, slice v i off (Z.to_nat k)) v) ->
  wp (readi (S fuel) ip off n) v Q.
Proof.
  intros Hfo Hio Hi Hh Hlog Hty Ho Hn HQ. cbv zeta in HQ. unfold readi. apply (wp_get_inode _ _ _ _ _ ip i); [done|].
  rewrite (proj2 (Z.eqb_neq _ _)) by done. pose proof (io_size _ _ Hio) as Hs.
  assert (Hmx : MAXFILE * BSIZE = 71680) by done. rewrite (u32_small n) by lia. rewrite (u32_small (off + n)) by lia.
  rewrite (proj2 (Z.ltb_ge _ _)) by lia. rewrite (proj2 (Z.ltb_ge _ _)) by lia. cbn [orb].
  replace (if i_size i <? off + n then u32 (i_size i - off) else n) with (Z.min n (i_size i - off)).
  - set (k := Z.min _ _) in *. apply wp_bind. apply (wp_readi_loop ip v i); try done; try lia.
    + intros _. unfold loop_fuel, BSIZE. zlia.
    + unfold loop_fuel. lia.
    + apply wp_ret. rewrite s32_small by lia. done.
  - destruct (Z.ltb_spec (i_size i) (off + n)); [rewrite u32_small by lia; lia|lia].
Qed.

(** ** [writei] *)

(** The bytes [src] written at [off]: [q] blocks allocated at most, [g] logged. *)
Record written (ip : nat) (v : view) (i : inode) (off : Z) (src : list Z) (v' : view) (i' : inode) (q g : nat) : Prop := {
  wr_fs : fs_ok v';
  wr_inode : inode_ok v' i';
  wr_inodes : v_inodes v' = <[ip := i']> (v_inodes v);
  wr_fields : i' = i <| i_addrs := i_addrs i' |>;
  wr_kept : forall n, 0 <= n <= MAXFILE -> kept v i v' i' n;
  wr_covered : src <> [] -> forall n, off `div` BSIZE <= n -> n * BSIZE < off + Z.of_nat (length src) -> slot v' i' n <> 0;
  wr_same : (forall n, off `div` BSIZE <= n < MAXFILE -> n * BSIZE < off + Z.of_nat (length src) -> slot v i n <> 0) -> i' = i;
  wr_bytes : forall o, 0 <= o < MAXFILE * BSIZE ->
    if decide (off <= o < off + Z.of_nat (length src)) then fbyte v' i' o = src !! Z.to_nat (o - off)
    else slot v i (o `div` BSIZE) <> 0 -> fbyte v' i' o = fbyte v i o;
  wr_blk : forall b, datastart <= b < sb_size sb0 -> in_use v b ->
    (forall n, 0 <= n <= MAXFILE -> slot v i n <> b) -> blk v' b = blk v b;
  wr_meta : forall b, 0 <= b < sb_bmapstart sb0 -> blk v' b = blk v b;
  wr_use : forall b, 0 <= b < sb_size sb0 -> in_use v b -> in_use v' b;
  wr_taken : forall b, 0 <= b < sb_size sb0 -> in_use v' b ->
    in_use v b \/ exists n, 0 <= n <= MAXFILE /\ slot v' i' n = b;
  wr_logged : (length (v_logged v') <= length (v_logged v) + g)%nat;
  wr_frame : v_held v' = v_held v /\ v_locked v' = v_locked v /\ length (v_disk v') = length (v_disk v);
  wr_avail : forall k, avail (q + k) v -> avail k v';
}.
#[local] Arguments wr_fs {ip v i off src v' i' q g}.
#[local] Arguments wr_inode {ip v i off src v' i' q g}.
#[local] Arguments wr_inodes {ip v i off src v' i' q g}.
#[local] Arguments wr_fields {ip v i off src v' i' q g}.
#[local] Arguments wr_kept {ip v i off src v' i' q g}.
#[local] Arguments wr_covered {ip v i off src v' i' q g}.
#[local] Arguments wr_same {ip v i off src v' i' q g}.
#[local] Arguments wr_bytes {ip v i off src v' i' q g}.
#[local] Arguments wr_blk {ip v i off src v' i' q g}.
#[local] Arguments wr_meta {ip v i off src v' i' q g}.
#[local] Arguments wr_use {ip v i off src v' i' q g}.
#[local] Arguments wr_taken {ip v i off src v' i' q g}.
#[local] Arguments wr_logged {ip v i off src v' i' q g}.
#[local] Arguments wr_frame {ip v i off src v' i' q g}.
#[local] Arguments wr_avail {ip v i off src v' i' q g}.

Lemma written_nil ip v i off : fs_ok v -> inode_ok v i -> v_inodes v !! ip = Some i -> written ip v i off [] v i 0 0.
Proof.
  intros Hfo Hio Hi. split; try done; try (by left); try lia.
  - by rewrite list_insert_id.
  - by destruct i.
  - intros n _. by apply kept_same.
  - intros o Ho. rewrite decide_False by (simpl; lia). done.
Qed.

Lemma kept_trans v i v1 i1 v2 i2 n : fs_ok v -> inode_ok v1 i1 -> inode_ok v2 i2 -> 0 <= n <= MAXFILE ->
  (forall b, 0 <= b < sb_size sb0 -> in_use v b -> in_use v1 b) ->
  kept v i v1 i1 n -> kept v1 i1 v2 i2 n -> kept v i v2 i2 n.
Proof.
  intros Hfo Hio1 Hio2 Hn Huse. unfold kept. pose proof data_pos as Hp. destruct (decide (slot v i n = 0)) as [E|E].
  - intros Hk1. destruct (decide (slot v1 i1 n = 0)) as [E1|E1].
    + intros [?|Hf]; [by left|]. destruct (decide (slot v2 i2 n = 0)) as [|E2]; [by left|right].
      destruct (io_slots _ _ Hio2 n Hn E2) as [Hr _].
      destruct (bit_some l0 sb0 Hly v (slot v2 i2 n) Hfo) as [Hu|]; [lia| |done]. exfalso.
      eapply in_use_not_free; [apply Huse; [|exact Hu]|exact Hf]. lia.
    + intros ->. destruct Hk1; [done|by right].
  - intros E1. rewrite decide_False by congruence. congruence.
Qed.

(** A block of the file before is no new block of it. *)
Lemma kept_foreign v i v' i' b : (forall n, 0 <= n <= MAXFILE -> kept v i v' i' n) -> in_use v b -> b <> 0 ->
  (forall n, 0 <= n <= MAXFILE -> slot v i n <> b) -> forall n, 0 <= n <= MAXFILE -> slot v' i' n <> b.
Proof.
  intros Hk Hu Hb Hne n Hn E. specialize (Hk n Hn). unfold kept in Hk. case_decide.
  - destruct Hk as [|Hf]; [congruence|]. rewrite E in Hf. by eapply in_use_not_free.
  - apply (Hne n Hn). congruence.
Qed.

Lemma written_app ip v i off s1 v1 i1 q1 g1 s2 v2 i2 q2 g2 : fs_ok v -> 0 <= off ->
  off + Z.of_nat (length s1) <= MAXFILE * BSIZE ->
  written ip v i off s1 v1 i1 q1 g1 -> written ip v1 i1 (off + Z.of_nat (length s1)) s2 v2 i2 q2 g2 ->
  written ip v i off (s1 ++ s2) v2 i2 (q1 + q2) (g1 + g2).
Proof.
  intros Hfo Ho Hmax A B. pose proof data_pos as Hp.
  assert (Hk1 : forall n, 0 <= n <= MAXFILE -> slot v i n <> 0 -> slot v1 i1 n = slot v i n).
  { intros n Hn Hnz. pose proof (wr_kept A n Hn) as Hk. unfold kept in Hk. by rewrite decide_False in Hk. }
  assert (Hk2 : forall n, 0 <= n <= MAXFILE -> slot v1 i1 n <> 0 -> slot v2 i2 n = slot v1 i1 n).
  { intros n Hn Hnz. pose proof (wr_kept B n Hn) as Hk. unfold kept in Hk. by rewrite decide_False in Hk. }
  assert (Hdiv : forall o, 0 <= o < MAXFILE * BSIZE -> 0 <= o `div` BSIZE <= MAXFILE).
  { intros o Hoo. unfold MAXFILE, NDIRECT, NINDIRECT, BSIZE in *. zlia. }
  split; try (exact (wr_fs B) || exact (wr_inode B)).
  - rewrite (wr_inodes B), (wr_inodes A). apply list_insert_insert_eq.
  - rewrite (wr_fields B) at 1. rewrite (wr_fields A). by destruct i.
  - intros n Hn. eapply kept_trans; [done|apply (wr_inode A)|apply (wr_inode B)|done|apply (wr_use A)|by apply (wr_kept A)|by apply (wr_kept B)].
  - intros Hne n Hn Hlt. rewrite length_app in Hlt. destruct s1 as [|b s1].
    { rewrite Z.add_0_r in B. by apply (wr_covered B). }
    destruct (decide (n * BSIZE < off + Z.of_nat (length (b :: s1)))) as [Hl|Hl].
    + pose proof (wr_covered A ltac:(done) n Hn Hl) as Hnz. rewrite Hk2; [done| |done].
      assert (0 <= off `div` BSIZE) by (apply Z.div_pos; [done|unfold BSIZE; lia]).
      unfold MAXFILE, NDIRECT, NINDIRECT, BSIZE in *. lia.
    + apply (wr_covered B); [intros ->; simpl in *; lia| |lia]. unfold BSIZE in *. zlia.
  - intros Hall. rewrite length_app in Hall. assert (Hi1 : i1 = i).
    { apply (wr_same A). intros n H1 H2. apply Hall; lia. }
    rewrite <- Hi1. apply (wr_same B). intros n H1 H2.
    assert (0 <= (off + Z.of_nat (length s1)) `div` BSIZE) by (apply Z.div_pos; [lia|unfold BSIZE; lia]).
    assert (Hnz : slot v i n <> 0) by (apply Hall; [unfold BSIZE in *; zlia|lia]). rewrite Hk1; [done|lia|done].
  - intros o Hoo. pose proof (wr_bytes A o Hoo) as HA. pose proof (wr_bytes B o Hoo) as HB. rewrite length_app.
    destruct (decide (off <= o < off + Z.of_nat (length s1))) as [H1|H1].
    + rewrite decide_True by lia. rewrite decide_False in HB by lia. rewrite HB.
      * rewrite HA. symmetry. apply lookup_app_l. lia.
      * apply (wr_covered A); [intros ->; simpl in *; lia|apply Z.div_le_mono; [done|lia]|]. unfold BSIZE. zlia.
    + destruct (decide (off + Z.of_nat (length s1) <= o < off + Z.of_nat (length s1) + Z.of_nat (length s2))) as [H2|H2].
      * rewrite decide_True by lia. rewrite HB, lookup_app_r by lia. f_equal. lia.
      * rewrite decide_False by lia. intros Hnz. rewrite HB, HA; [done|done|]. rewrite Hk1; [done|by apply Hdiv|done].
  - intros b Hb Hu Hne. rewrite (wr_blk B); [by apply (wr_blk A)|done|apply (wr_use A); [lia|done]|].
    apply (kept_foreign v i); [apply (wr_kept A)|done|lia|done].
  - intros b Hb. rewrite (wr_meta B) by done. by apply (wr_meta A).
  - intros b Hb Hu. apply (wr_use B); [done|]. by apply (wr_use A).
  - intros b Hb [Hu|?]%(wr_taken B); [|by right|done].
    destruct (wr_taken A b Hb Hu) as [?|(n&Hn&E)]; [by left|]. destruct (decide (b = 0)) as [->|Hb0].
    + left. apply (fo_meta _ _ Hfo). lia.
    + right. exists n. split; [done|]. rewrite Hk2; [done|done|lia].
  - pose proof (wr_logged A). pose proof (wr_logged B). lia.
  - destruct (wr_frame A) as (?&?&?), (wr_frame B) as (?&?&?). split_and!; congruence.
  - intros k Hk. apply (wr_avail B), (wr_avail A). by rewrite Nat.add_assoc.
Qed.

Lemma inode_ok_same v i v' : inode_ok v i -> (forall n, slot v' i n = slot v i n) ->
  (forall b, 0 <= b < sb_size sb0 -> in_use v b -> in_use v' b) -> inode_ok v' i.
Proof.
  intros [Ha Hd Hz Hs Hi Hf] Hsl Huse. pose proof data_pos. split; try done.
  - intros n Hn Hnz. rewrite Hsl in *. destruct (Hs n Hn Hnz) as [Hr Hu]. split; [done|]. apply Huse; [lia|done].
  - intros n m. rewrite !Hsl. apply Hi.
  - intros n. rewrite Hsl. apply Hf.
Qed.

(** [src] stored in the block that [bmap] returned. *)
Lemma written_piece ip v i off src a v1 i1 q g : fs_ok v -> inode_ok v i -> 0 <= off < MAXFILE * BSIZE ->
  off `mod` BSIZE + Z.of_nat (length src) <= BSIZE -> bmapped ip v i (off `div` BSIZE) a v1 i1 q g ->
  src <> [] -> (slot v i (off `div` BSIZE) <> 0 -> i1 = i) ->
  written ip v i off src (log_update a (blit (blk v1 a) (Z.to_nat (off `mod` BSIZE)) src) v1) i1 q (S g).
Proof.
  intros Hfo Hio Ho Hsrc B Hne0 Hsame. pose proof data_pos as Hp. set (n := off `div` BSIZE) in *.
  assert (Hn : 0 <= n < MAXFILE) by (unfold n; unfold MAXFILE, NDIRECT, NINDIRECT, BSIZE in *; zlia).
  pose proof (bm_slot B) as Ha. pose proof (bm_nonzero B) as Ha0. pose proof (bm_fs B) as Hf1. pose proof (bm_inode B) as Hi1.
  destruct (io_slots _ _ Hi1 n ltac:(lia) ltac:(congruence)) as [Har Hau]. rewrite Ha in Har, Hau.
  assert (Hinj : forall m, 0 <= m <= MAXFILE -> m <> n -> slot v1 i1 m <> a).
  { intros m Hm Hne E. apply Hne. symmetry. apply (io_inj _ _ Hi1); [lia|done|congruence|congruence]. }
  pose proof (home_data l0 sb0 Hly v1 a Hf1 Har) as [Hhr _]. pose proof (length_blk sb0 v1 a Hf1 Hhr) as Hlb.
  pose proof (Z.mod_pos_bound off BSIZE ltac:(done)) as Hmod.
  set (d := blit _ _ src). assert (Hfit : (Z.to_nat (off `mod` BSIZE) + length src <= length (blk v1 a))%nat)
    by (unfold BSIZE in *; lia).
  assert (Hld : length d = 512%nat) by (unfold d; rewrite length_blit; done).
  set (v2 := log_update a d v1).
  assert (Hbl : forall b, 0 <= b -> blk v2 b = if decide (b = a) then d else blk v1 b) by (intros b Hb; by apply blk_update).
  assert (Hbit : forall b, 0 <= b < sb_size sb0 -> bit_of sb0 v2 b = bit_of sb0 v1 b)
    by (intros b Hb; apply (bit_of_data l0); [done|done|lia|done]).
  assert (Hsl : forall m, slot v2 i1 m = slot v1 i1 m).
  { intros m. apply slot_frame; [done|]. intros Hx. destruct (io_slots _ _ Hi1 MAXFILE ltac:(done) Hx) as [Hxr _].
    rewrite slot_indirect in Hxr. rewrite Hbl by lia. rewrite decide_False; [done|].
    rewrite <- (slot_indirect v1). apply Hinj; [done|lia]. }
  assert (Hold : forall m, 0 <= m < MAXFILE -> slot v i m <> 0 -> blk v1 (slot v i m) = blk v (slot v i m)).
  { intros m Hm Hnz. destruct (io_slots _ _ Hio m ltac:(lia) Hnz) as [Hr Hu]. apply (bm_blk B); [done|done|].
    intros E. pose proof (io_inj _ _ Hio m MAXFILE ltac:(lia) ltac:(done) Hnz E). lia. }
  split.
  - by apply (fs_ok_data l0).
  - apply (inode_ok_same v1); [done|done|]. intros b Hb. unfold Balloc.in_use. by rewrite Hbit.
  - unfold v2, log_update. fields. apply (bm_inodes B).
  - apply (bm_fields B).
  - intros m Hm. unfold kept. rewrite Hsl. destruct (decide (m = n)) as [->|Hne].
    + rewrite Ha. case_decide as E; [right; by apply (bm_new B)|by apply (bm_old B)].
    + destruct (decide (m = MAXFILE)) as [->|]; [apply (bm_indirect B)|].
      rewrite (bm_others B) by lia. case_decide; [by left|done].
  - intros _ m H1 H2. rewrite Hsl. assert (m = n) as ->; [|congruence]. unfold n, BSIZE in *. zlia.
  - intros Hall. apply Hsame, Hall; [lia|]. destruct src; [done|]. simpl. unfold n, BSIZE in *. zlia.
  - intros o Hoo. unfold fbyte. rewrite !Hsl. assert (Hom : 0 <= o `div` BSIZE < MAXFILE)
      by (unfold MAXFILE, NDIRECT, NINDIRECT, BSIZE in *; zlia).
    destruct (decide (o `div` BSIZE = n)) as [En|En].
    + assert (Hba : blk v2 a = d) by (rewrite Hbl by lia; by rewrite decide_True).
      rewrite En, Ha, Hba. unfold d. rewrite lookup_blit by done.
      destruct (decide (off <= o < off + Z.of_nat (length src))) as [Hin|Hout].
      * rewrite decide_True by (unfold n, BSIZE in *; zlia). f_equal. unfold n, BSIZE in *. zlia.
      * intros Hnz. rewrite decide_False by (unfold n, BSIZE in *; zlia). rewrite (bm_old B Hnz). by rewrite Hold by lia.
    + rewrite decide_False by (unfold n, BSIZE in *; zlia). intros Hnz. rewrite (bm_others B) by lia.
      destruct (io_slots _ _ Hio (o `div` BSIZE) ltac:(lia) Hnz) as [Hr _]. rewrite Hbl by lia. rewrite decide_False.
      * by rewrite Hold by lia.
      * rewrite <- (bm_others B) by lia. apply Hinj; [lia|done].
  - intros b Hb Hu Hne. rewrite Hbl by lia. rewrite decide_False.
    + apply (bm_blk B); [done|done|]. intros ->. by apply (Hne MAXFILE).
    + intros ->. destruct (decide (slot v i n = 0)) as [E|E].
      * destruct (bm_new B E) as [Hf _]. by eapply in_use_not_free.
      * apply (Hne n); [lia|]. symmetry. by apply (bm_old B).
  - intros b Hb. pose proof (data_start l0 sb0 Hly). rewrite Hbl by lia. rewrite decide_False by lia. by apply (bm_meta B).
  - intros b Hb Hu. unfold Balloc.in_use. rewrite Hbit by done. by apply (bm_use B).
  - intros b Hb Hu. unfold Balloc.in_use in Hu. rewrite Hbit in Hu by done.
    destruct (bm_taken B b Hb Hu) as [?|[->| ->]]; [by left|right; exists n; split; [lia|by rewrite Hsl]|].
    right. exists MAXFILE. split; [done|by rewrite Hsl].
  - unfold v2, log_update. fields. pose proof (bm_logged B). pose proof (length_log_add a (v_logged v1)). lia.
  - unfold v2, log_update. fields. rewrite length_insert. apply (bm_frame B).
  - intros k Hk. apply (avail_bits k v1); [done|]. by apply (bm_avail B).
Qed.

Lemma avail_le k j v : avail k v -> (j <= k)%nat -> avail j v.
Proof. intros (l&?&?&?) Hj. exists l. split_and!; [done|lia|done]. Qed.

(** One turn of the loop of [writei]. *)
Lemma wp_write_piece {U} ip v i src off m (K : M U) Q :
  fs_ok v -> inode_ok v i -> v_inodes v !! ip = Some i -> v_held v = [] ->
  0 <= off < MAXFILE * BSIZE -> 0 < m <= Z.of_nat (length src) -> m + off `mod` BSIZE <= BSIZE ->
  room 6 v -> avail 2 v ->
  (forall v' i' q g, written ip v i off (take (Z.to_nat m) src) v' i' q g -> (q <= 2)%nat -> (g <= 6)%nat -> wp K v' Q) ->
  wp (i ← get_inode ip; addr ← bmap (S fuel) ip (off `div` BSIZE); bp ← bread (S fuel) (i_dev i) addr;
      buf ← get_buf bp; d ← memmove (b_data buf) (off `mod` BSIZE) src m "writei: bp->data";
      upd_data bp (fun _ => d) ;; log_write bp ;; brelse bp ;; K) v Q.
Proof.
  intros Hfo Hio Hi Hh Ho Hm Hmb Hroom Hav HQ. pose proof Hroom as (_&_&Hr29).
  pose proof (Z.mod_pos_bound off BSIZE ltac:(done)) as Hmod.
  assert (Hn : 0 <= off `div` BSIZE < MAXFILE) by (unfold MAXFILE, NDIRECT, NINDIRECT, BSIZE in *; zlia).
  apply (wp_get_inode _ _ _ _ _ ip i); [done|]. apply wp_bind. apply (wp_bmap ip v i); try done; [lia| |].
  { intros _. split; [apply (room_mono _ _ _ _ _ Hroom); lia|done]. }
  intros a v1 i1 q g B Hq Hg Hsame. pose proof (bm_slot B) as Ha. pose proof (bm_nonzero B) as Ha0.
  pose proof (bm_fs B) as Hf1. pose proof (bm_inode B) as Hi1. destruct (bm_frame B) as (Hh1&_&_).
  destruct (io_slots _ _ Hi1 (off `div` BSIZE) ltac:(lia) ltac:(congruence)) as [Har Hau]. rewrite Ha in Har, Hau.
  pose proof (home_data l0 sb0 Hly v1 a Hf1 Har) as Hho. pose proof (length_blk sb0 v1 a Hf1 (proj1 Hho)) as Hlb.
  pose proof (bm_logged B) as Hlg. rewrite (io_dev _ _ Hio). apply wp_bind.
  apply wp_bread; [apply Hho|rewrite Hh1, Hh; apply not_elem_of_nil|rewrite Hh1, Hh; cbn [length]; unfold NBUF; lia|].
  intros bp Hbp. eapply (wp_get_buf _ _ _ _ _ bp a); [by left|exact (blk_lookup v1 a (proj1 Hho))|]. intros buf Hd _. rewrite Hd.
  unfold memmove. rewrite (u32_small m) by (unfold BSIZE in *; lia).
  change (blk (v1 <| v_held := _ |>) a) with (blk v1 a). unfold BSIZE in *.
  rewrite (proj2 (Z.leb_le 0 _)), (proj2 (Z.leb_le m _)), (proj2 (Z.leb_le _ (Z.of_nat (length (blk v1 a))))) by lia.
  cbn [andb]. apply wp_bind, wp_ret.
  eapply (wp_log_update _ _ _ _ _ bp a); [by left|exact (blk_lookup v1 a (proj1 Hho))|done|apply (room_mono _ _ _ _ _ Hroom); fields; lia|].
  apply wp_bind. eapply wp_brelse; [done|]. rewrite Hh1, Hh. set (src1 := take (Z.to_nat m) src).
  assert (Hs1 : length src1 = Z.to_nat m) by (unfold src1; rewrite length_take; lia).
  replace (_ <| v_held := [] |>) with (log_update a (blit (blk v1 a) (Z.to_nat (off `mod` 512)) src1) v1)
    by (rewrite Hh in Hh1; destruct v1; cbn in Hh1; by subst).
  apply (HQ _ i1 q (S g)); [|lia|lia].
  apply (written_piece ip v i off src1 a v1 i1 q g); try done; [unfold BSIZE; lia|by destruct src1; [simpl in *; lia|]|naive_solver].
Qed.

Lemma wp_writei_loop nb : forall ip v i k src off left Q,
  fs_ok v -> inode_ok v i -> v_inodes v !! ip = Some i -> v_held v = [] ->
  0 <= off -> 0 <= left <= Z.of_nat (length src) -> off + left <= MAXFILE * BSIZE ->
  (0 < left -> off `mod` BSIZE + left <= BSIZE * Z.of_nat nb) -> (nb < k)%nat ->
  room (6 * nb) v -> avail (2 * nb) v ->
  (forall v' i' q g, written ip v i off (take (Z.to_nat left) src) v' i' q g -> (g <= 6 * nb)%nat -> Q (off + left) v') ->
  wp (writei_loop (S fuel) k ip src off left) v Q.
Proof.
  induction nb as [|nb IH]; intros ip v i [|k] src off left Q Hfo Hio Hi Hh Ho Hl Hmax Hblk Hk Hroom Hav HQ; try lia.
  all: cbn [writei_loop]; destruct (Z.ltb_spec 0 left) as [Hpos|Hz];
    [|replace left with 0 in * by lia; rewrite Z.add_0_r in HQ; apply wp_ret; apply (HQ v i 0%nat 0%nat); [by apply written_nil|lia]].
  { specialize (Hblk Hpos). pose proof (Z.mod_pos_bound off BSIZE ltac:(done)). unfold BSIZE in *. lia. }
  specialize (Hblk Hpos). destruct (piece_range left off Hpos) as [Hm Hmb].
  pose proof (piece_next left off Ho Hpos) as Hnext. cbv zeta in Hnext. set (m := piece left off) in *.
  apply (wp_write_piece ip v i); try done; try lia.
  { apply (room_mono _ _ _ _ _ Hroom). lia. }
  { apply (avail_le (2 * S nb)); [done|lia]. }
  intros v2 i2 q g W1 Hq Hg. set (src1 := take (Z.to_nat m) src) in *.
  assert (Hs1 : length src1 = Z.to_nat m) by (unfold src1; rewrite length_take; lia).
  rewrite (u32_small (off + m)) by (unfold MAXFILE, NDIRECT, NINDIRECT, BSIZE in *; lia).
  apply (IH ip v2 i2); try apply W1; try lia.
  - rewrite (wr_inodes W1). apply list_lookup_insert_eq. by eapply lookup_lt_Some.
  - destruct (wr_frame W1) as (->&_&_). done.
  - rewrite length_drop. lia.
  - apply (room_mono _ _ _ _ _ Hroom). pose proof (wr_logged W1). lia.
  - apply (avail_le (2 * S nb)); [done|lia].
  - intros v3 i3 q3 g3 W2 Hg3. replace (off + m + (left - m)) with (off + left) by lia.
    apply (HQ v3 i3 (q + q3)%nat (g + g3)%nat); [|lia].
    replace (take (Z.to_nat left) src) with (src1 ++ take (Z.to_nat (left - m)) (drop (Z.to_nat m) src)).
    + apply (written_app ip v i off src1 v2 i2 q g); try done; [rewrite Hs1; lia|].
      replace (off + Z.of_nat (length src1)) with (off + m) by lia. done.
    + unfold src1. rewrite take_take_drop. f_equal. lia.
Qed.

(** ** Inodes on the disk *)

(** The number of an inode that is in use. *)
Definition inum_ok (i : inode) : Prop := 0 < i_inum i < sb_ninodes sb0.
(** The fields of [i] are those on the disk. *)
Definition synced (v : view) (i : inode) : Prop :=
  load_dinode (blk v (IBLOCK (i_inum i) sb0)) (dinode_off (i_inum i)) i = i.
Definition store_inode (i : inode) (v : view) : view :=
  let b := IBLOCK (i_inum i) sb0 in log_update b (blit (blk v b) (dinode_off (i_inum i)) (dinode_bytes i)) v.

Lemma IBLOCK_range i : inum_ok i -> sb_inodestart sb0 <= IBLOCK (i_inum i) sb0 < sb_bmapstart sb0.
Proof.
  intros Hn. destruct Hly as [H1 H2 H3 H4 H5 H6]. unfold Balloc.datastart, inum_ok, IBLOCK, IPB, BPB, BSIZE in *.
  rewrite u32_small; zlia.
Qed.

Lemma IBLOCK_home v i : fs_ok v -> inum_ok i -> home v (IBLOCK (i_inum i) sb0).
Proof.
  intros Hfo Hn. pose proof (IBLOCK_range i Hn). pose proof (data_start l0 sb0 Hly). pose proof (fo_size _ _ Hfo).
  destruct Hly. split; lia.
Qed.

Lemma length_words l : length (concat (le32 <$> l)) = (4 * length l)%nat.
Proof. induction l as [|x l IH]; [done|]. cbn [fmap list_fmap concat]. rewrite length_app, IH. simpl. lia. Qed.

Lemma length_dinode_bytes i : length (i_addrs i) = 13%nat -> length (dinode_bytes i) = 64%nat.
Proof. intros H. unfold dinode_bytes. rewrite !length_app, length_words, H. done. Qed.

Lemma get32_words l k : get32 (concat (le32 <$> l)) (4 * k) = u32 (default 0 (l !! k)).
Proof.
  revert k. induction l as [|x l IH]; intros [|k]; cbn [fmap list_fmap concat lookup list_lookup default from_option id].
  - done.
  - unfold get32, get16, get8. by rewrite !nth_overflow by (simpl; lia).
  - by rewrite Nat.mul_0_r, get32_le32.
  - replace (4 * S k)%nat with (length (le32 x) + 4 * k)%nat by (simpl; lia). rewrite get32_app_r. apply IH.
Qed.

Lemma get8_blit_in d o src k : (o + length src <= length d)%nat -> (k < length src)%nat ->
  get8 (blit d o src) (o + k) = get8 src k.
Proof.
  intros Hl Hk. unfold get8. rewrite !nth_lookup, lookup_blit by done. rewrite decide_True by lia. do 2 f_equal. lia.
Qed.

(** The half-word fields fit. *)
Definition fields_ok (i : inode) : Prop :=
  Forall (fun z => - 2 ^ 15 <= z < 2 ^ 15) [i_type i; i_major i; i_minor i; i_nlink i].

Lemma s16_u16 z : - 2 ^ 15 <= z < 2 ^ 15 -> s16 (u16 z) = z.
Proof. intros Hz. unfold s16, u16. zlia. Qed.

Lemma addrs_range v i k : inode_ok v i -> (k < 13)%nat -> 0 <= naddr i k < 2 ^ 32.
Proof.
  intros Hio Hk. pose proof data_pos. rewrite <- (slot_place v) by lia.
  destruct (decide (slot v i (place k) = 0)) as [->|Hnz]; [lia|].
  destruct (io_slots _ _ Hio (place k)) as [Hr _]; [|done|destruct Hly; unfold BPB, BSIZE in *; lia].
  unfold place, MAXFILE, NDIRECT, NINDIRECT. case_decide; lia.
Qed.

Lemma get16_blit_in d o src k : (o + length src <= length d)%nat -> (k + 2 <= length src)%nat ->
  get16 (blit d o src) (o + k) = get16 src k.
Proof. intros Hl Hk. unfold get16. rewrite <- Nat.add_succ_r, !get8_blit_in by lia. done. Qed.
Lemma get32_blit_in d o src k : (o + length src <= length d)%nat -> (k + 4 <= length src)%nat ->
  get32 (blit d o src) (o + k) = get32 src k.
Proof. intros Hl Hk. unfold get32. rewrite <- !Nat.add_succ_r, !get16_blit_in by lia. done. Qed.

Lemma dinode_words i k : get32 (dinode_bytes i) (12 + 4 * k) = u32 (naddr i k).
Proof.
  unfold dinode_bytes, naddr. rewrite <- get32_words. rewrite !app_assoc.
  set (h := (((le16 _ ++ _) ++ _) ++ _) ++ le32 _). change (12 + 4 * k)%nat with (length h + 4 * k)%nat. apply get32_app_r.
Qed.

(** A dinode reads back as it was written. *)
Lemma load_dinode_bytes i d o : length (i_addrs i) = 13%nat -> (forall k, (k < 13)%nat -> 0 <= naddr i k < 2 ^ 32) -> fields_ok i -> 0 <= i_size i < 2 ^ 32 ->
  (o + 64 <= length d)%nat -> load_dinode (blit d o (dinode_bytes i)) o i = i.
Proof.
  intros Hla Hra Hf Hsz Ho. pose proof (length_dinode_bytes i Hla) as Hl.
  apply Forall_cons in Hf as [Ht Hf]. apply Forall_cons in Hf as [Hma Hf]. apply Forall_cons in Hf as [Hmi Hf].
  apply Forall_cons in Hf as [Hnl _]. unfold load_dinode.
  replace (get16 (blit d o (dinode_bytes i)) o) with (get16 (blit d o (dinode_bytes i)) (o + 0)) by (f_equal; lia).
  rewrite !get16_blit_in, get32_blit_in by (rewrite Hl; lia).
  replace (get16 (dinode_bytes i) 0) with (u16 (i_type i)) by exact (eq_sym (get16_le16 (i_type i) [])).
  replace (get16 (dinode_bytes i) 2) with (u16 (i_major i)) by exact (eq_sym (get16_le16 (i_major i) [])).
  replace (get16 (dinode_bytes i) 4) with (u16 (i_minor i)) by exact (eq_sym (get16_le16 (i_minor i) [])).
  replace (get16 (dinode_bytes i) 6) with (u16 (i_nlink i)) by exact (eq_sym (get16_le16 (i_nlink i) [])).
  replace (get32 (dinode_bytes i) 8) with (u32 (i_size i)) by exact (eq_sym (get32_le32 (i_size i) [])).
  rewrite !s16_u16 by done. rewrite u32_small by done.
  replace ((fun k => get32 (blit d o (dinode_bytes i)) (o + 12 + 4 * k)) <$> seq 0 13) with (i_addrs i); [by destruct i|].
  apply list_eq. intros k. rewrite list_lookup_fmap. destruct (decide (k < 13)%nat).
  - rewrite lookup_seq_lt by done. cbn [fmap option_fmap option_map]. rewrite addr_lookup by lia.
    replace (o + 12 + 4 * (0 + k))%nat with (o + (12 + 4 * k))%nat by lia.
    rewrite get32_blit_in by (rewrite Hl; lia). rewrite dinode_words, u32_small; [done|]. by apply Hra.
  - rewrite lookup_seq_ge by lia. apply lookup_ge_None_2. lia.
Qed.

(** What [iupdate] stores is what [ilock] loads. *)
Lemma dinode_round_trip v i d o : inode_ok v i -> fields_ok i -> (o + 64 <= length d)%nat ->
  load_dinode (blit d o (dinode_bytes i)) o i = i.
Proof.
  intros Hio Hf Ho. apply load_dinode_bytes; try done; [apply Hio|intros k Hk; by eapply addrs_range|].
  pose proof (io_size _ _ Hio). unfold MAXFILE, NDIRECT, NINDIRECT, BSIZE in *. lia.
Qed.

(** ** [iupdate] *)
Lemma wp_iupdate ip v i Q : fs_ok v -> v_inodes v !! ip = Some i -> i_dev i = 1 -> inum_ok i -> v_held v = [] ->
  room 1 v -> Q tt (store_inode i v) -> wp (iupdate (S fuel) ip) v Q.
Proof.
  intros Hfo Hi Hd Hn Hh Hr HQ. pose proof (IBLOCK_home v i Hfo Hn) as Hho. pose proof Hr as (_&_&Hl).
  unfold iupdate. apply (wp_get_inode _ _ _ _ _ ip i); [done|]. apply wp_get_sb. rewrite Hd. apply wp_bind.
  apply wp_bread; [apply Hho|rewrite Hh; apply not_elem_of_nil|rewrite Hh; cbn [length]; unfold NBUF; lia|].
  intros bp Hbp. apply (wp_get_inode _ _ _ _ _ ip i); [done|].
  eapply (wp_log_update _ _ _ _ _ bp); [by left|exact (blk_lookup v _ (proj1 Hho))|done|done|].
  eapply wp_brelse; [done|]. replace (_ <| v_held := v_held v |>) with (store_inode i v) by (by destruct v). done.
Qed.

(** Storing an inode changes its 64 bytes only. *)
Lemma blk_store_inode v i b : fs_ok v -> inum_ok i -> 0 <= b -> b <> IBLOCK (i_inum i) sb0 ->
  blk (store_inode i v) b = blk v b.
Proof.
  intros Hfo Hn Hb Hne. unfold store_inode. rewrite blk_update; [by rewrite decide_False|by apply IBLOCK_home|done].
Qed.

Lemma dinode_fits i : (dinode_off (i_inum i) + 64 <= 512)%nat.
Proof. unfold dinode_off, IPB, SIZEOF_DINODE. zlia. Qed.

Lemma bit_store_inode v i b : fs_ok v -> inum_ok i -> 0 <= b < sb_size sb0 ->
  bit_of sb0 (store_inode i v) b = bit_of sb0 v b.
Proof.
  intros Hfo Hn Hb. pose proof (IBLOCK_range i Hn). pose proof (BBLOCK_range l0 sb0 Hly b Hb).
  pose proof (bitmap_start l0 sb0 Hly). unfold bit_of. rewrite blk_store_inode; [done|done|done| |lia].
  destruct Hly. lia.
Qed.

Lemma fs_ok_store_inode v i : fs_ok v -> inum_ok i -> length (i_addrs i) = 13%nat -> fs_ok (store_inode i v).
Proof.
  intros Hfo Hn Hl. pose proof (dinode_fits i). pose proof (IBLOCK_home v i Hfo Hn) as Hho. pose proof (data_start l0 sb0 Hly).
  pose proof (length_blk sb0 v _ Hfo (proj1 Hho)) as Hlb. apply (fs_ok_update sb0); [done| |].
  - rewrite length_blit; [done|]. by rewrite length_dinode_bytes, Hlb.
  - intros b Hb. change (log_update _ _ v) with (store_inode i v). unfold Balloc.in_use.
    rewrite bit_store_inode; [by apply (fo_meta _ _ Hfo)|done|done|destruct Hly; lia].
Qed.

Lemma synced_store_inode v i v0 : fs_ok v -> inum_ok i -> inode_ok v0 i -> fields_ok i -> synced (store_inode i v) i.
Proof.
  intros Hfo Hn Hio Hf. pose proof (IBLOCK_home v i Hfo Hn) as Hho. unfold synced, store_inode.
  rewrite blk_update by (apply Hho). rewrite decide_True by done. apply (dinode_round_trip v0); [done|done|].
  rewrite (length_blk sb0 v _ Hfo (proj1 Hho)). apply dinode_fits.
Qed.

(** Two inodes have disjoint places. *)
Lemma load_dinode_blit d o o' src j : (o' + 64 <= o \/ o + length src <= o')%nat -> (o + length src <= length d)%nat ->
  load_dinode (blit d o src) o' j = load_dinode d o' j.
Proof.
  intros Ho Hl. assert (E16 : forall k, (k + 2 <= 64)%nat -> get16 (blit d o src) (o' + k) = get16 d (o' + k)).
  { intros k Hk. unfold get16. rewrite !get8_blit_ne by lia. done. }
  unfold load_dinode. rewrite !E16, (get32_blit_ne _ _ _ (o' + 8)) by lia.
  replace (get16 (blit d o src) o') with (get16 d o') by (specialize (E16 0%nat ltac:(lia)); by rewrite Nat.add_0_r in E16).
  assert (Ea : (fun k => get32 (blit d o src) (o' + 12 + 4 * k)) <$> seq 0 13 = (fun k => get32 d (o' + 12 + 4 * k)) <$> seq 0 13).
  { apply list_fmap_ext. intros ? k Hk. apply lookup_seq in Hk as [-> Hk]. apply get32_blit_ne; lia. }
  by rewrite Ea.
Qed.

Lemma load_store_other v i j : fs_ok v -> inum_ok i -> inum_ok j -> i_inum j <> i_inum i -> length (i_addrs i) = 13%nat ->
  load_dinode (blk (store_inode i v) (IBLOCK (i_inum j) sb0)) (dinode_off (i_inum j)) j =
  load_dinode (blk v (IBLOCK (i_inum j) sb0)) (dinode_off (i_inum j)) j.
Proof.
  intros Hfo Hi Hj Hne Hl. pose proof (IBLOCK_home v i Hfo Hi) as Hho. pose proof (IBLOCK_range j Hj) as Hjr.
  pose proof (length_blk sb0 v _ Hfo (proj1 Hho)) as Hlb. pose proof (dinode_fits i).
  unfold store_inode. rewrite blk_update; [|apply Hho|destruct Hly; lia]. case_decide as E; [|done]. rewrite E.
  apply load_dinode_blit; rewrite length_dinode_bytes by done; [|by rewrite Hlb].
  pose proof (IBLOCK_range i Hi). unfold IBLOCK in E. destruct Hly as [H1 H2 H3 H4 H5 H6].
  unfold inum_ok, Balloc.datastart, dinode_off, IPB, SIZEOF_DINODE, BPB, BSIZE in *.
  rewrite !u32_small in E by zlia. zlia.
Qed.

(** ** [writei], run *)

(** [src] written at [off] of the file of inode [ip], which becomes [i']. *)
Record wrote_file (ip : nat) (v : view) (i : inode) (off : Z) (src : list Z) (v' : view) (i' : inode) (g : nat) : Prop := {
  wf_fs : fs_ok v';
  wf_inode : inode_ok v' i';
  wf_inodes : v_inodes v' = <[ip := i']> (v_inodes v);
  wf_size : i_size i' = Z.max (i_size i) (off + Z.of_nat (length src));
  wf_fields : i' = i <| i_addrs := i_addrs i' |> <| i_size := i_size i' |>;
  wf_synced : synced v' i';
  wf_bytes : forall o, 0 <= o < i_size i' -> fbyte v' i' o =
    if decide (off <= o < off + Z.of_nat (length src)) then src !! Z.to_nat (o - off) else fbyte v i o;
  wf_kept : forall n, 0 <= n <= MAXFILE -> kept v i v' i' n;
  wf_blk : forall b, datastart <= b < sb_size sb0 -> in_use v b ->
    (forall n, 0 <= n <= MAXFILE -> slot v i n <> b) -> blk v' b = blk v b;
  wf_dinodes : forall j, inum_ok j -> i_inum j <> i_inum i ->
    load_dinode (blk v' (IBLOCK (i_inum j) sb0)) (dinode_off (i_inum j)) j =
    load_dinode (blk v (IBLOCK (i_inum j) sb0)) (dinode_off (i_inum j)) j;
  wf_use : forall b, 0 <= b < sb_size sb0 -> in_use v b -> in_use v' b;
  wf_taken : forall b, 0 <= b < sb_size sb0 -> in_use v' b ->
    in_use v b \/ exists n, 0 <= n <= MAXFILE /\ slot v' i' n = b;
  wf_logged : (length (v_logged v') <= length (v_logged v) + g)%nat;
  wf_frame : v_held v' = v_held v /\ v_locked v' = v_locked v /\ length (v_disk v') = length (v_disk v);
}.

Lemma synced_meta v v' i : synced v i -> inum_ok i -> (forall b, 0 <= b < sb_bmapstart sb0 -> blk v' b = blk v b) -> synced v' i.
Proof.
  intros Hs Hn Hm. pose proof (IBLOCK_range i Hn). unfold synced. rewrite Hm; [done|]. destruct Hly. lia.
Qed.

(** Inside the old size nothing but the bytes changes. *)
Lemma wrote_inside ip v i off src v' i' q g : fs_ok v -> inode_ok v i -> synced v i -> inum_ok i -> 0 <= off ->
  off + Z.of_nat (length src) <= i_size i -> written ip v i off src v' i' q g -> wrote_file ip v i off src v' i' g.
Proof.
  intros Hfo Hio Hsy Hn Ho Hin W. pose proof (io_size _ _ Hio) as Hs.
  assert (Ei : i' = i).
  { apply (wr_same W). intros n H1 H2. apply (io_full _ _ Hio); [|lia].
    assert (0 <= off `div` BSIZE) by (apply Z.div_pos; [done|unfold BSIZE; lia]). lia. }
  subst i'. split; try (exact (wr_fs W) || exact (wr_inode W) || exact (wr_inodes W) || exact (wr_kept W) || exact (wr_blk W)
    || exact (wr_use W) || exact (wr_taken W) || exact (wr_logged W) || exact (wr_frame W)).
  - lia.
  - by destruct i.
  - by apply (synced_meta v), W.
  - intros o Hoo. pose proof (wr_bytes W o ltac:(lia)) as Hb. case_decide; [done|]. apply Hb, (io_full _ _ Hio).
    + apply Z.div_pos; [lia|unfold BSIZE; lia].
    + unfold BSIZE. zlia.
  - intros j Hj Hne. pose proof (IBLOCK_range j Hj). rewrite (wr_meta W); [done|]. destruct Hly. lia.
Qed.

(** The view once the size is [n] and the inode is stored. *)
Definition resize (ip : nat) (i : inode) (v : view) : view :=
  store_inode i (v <| v_inodes := <[ip := i]> (v_inodes v) |>).

(** Past the old size the file grows. *)
Lemma wrote_past ip v i off src v1 i1 q g : fs_ok v -> inode_ok v i -> fields_ok i -> inum_ok i ->
  0 <= off <= i_size i -> i_size i < off + Z.of_nat (length src) <= MAXFILE * BSIZE -> written ip v i off src v1 i1 q g ->
  let i' := i1 <| i_size := off + Z.of_nat (length src) |> in wrote_file ip v i off src (resize ip i' v1) i' (S g).
Proof.
  intros Hfo Hio Hfi Hn Ho Hin W i'. pose proof (io_size _ _ Hio) as Hs. pose proof (wr_inode W) as Hio1. pose proof (wr_fs W) as Hf1.
  assert (Hn' : inum_ok i') by (unfold inum_ok, i'; rewrite (wr_fields W); done).
  assert (Hfi' : fields_ok i') by (unfold fields_ok, i'; rewrite (wr_fields W); done).
  set (v1' := v1 <| v_inodes := <[ip := i']> (v_inodes v1) |>). assert (Hf1' : fs_ok v1') by (destruct Hf1; by split).
  assert (Hio' : inode_ok v1' i').
  { destruct Hio1 as [H1 H2 H3 H4 H5 H6]. split; try done; [cbn; lia|]. intros n Hn0 Hlt. cbn in Hlt.
    destruct (decide (n * BSIZE < i_size i)) as [Hl|Hl].
    - pose proof (io_full _ _ Hio n Hn0 Hl) as Hnz. assert (Hm : 0 <= n <= MAXFILE) by (unfold BSIZE in *; lia).
      pose proof (wr_kept W n Hm) as Hk. unfold kept in Hk. rewrite decide_False in Hk by done.
      change (slot v1' i' n) with (slot v1 i1 n). congruence.
    - apply (wr_covered W); [intros ->; simpl in *; lia| |done]. unfold BSIZE in *. zlia. }
  assert (Hbl : forall b, datastart <= b -> blk (resize ip i' v1) b = blk v1 b).
  { intros b Hb. pose proof data_pos. pose proof (IBLOCK_range i' Hn'). pose proof (data_start l0 sb0 Hly).
    unfold resize. rewrite blk_store_inode by (done || lia). done. }
  assert (Hsl : forall n, slot (resize ip i' v1) i' n = slot v1 i1 n).
  { intros n. apply slot_frame; [done|]. intros Hx. apply Hbl. by apply (io_slots _ _ Hio1 MAXFILE). }
  assert (Hbit : forall b, 0 <= b < sb_size sb0 -> bit_of sb0 (resize ip i' v1) b = bit_of sb0 v1 b)
    by (intros b Hb; by apply (bit_store_inode v1')).
  split.
  - apply fs_ok_store_inode; [done|done|apply Hio'].
  - apply (inode_ok_same v1'); [done|intros n; apply Hsl|]. intros b Hb. unfold Balloc.in_use. by rewrite Hbit.
  - unfold resize, store_inode, log_update. fields. rewrite (wr_inodes W). apply list_insert_insert_eq.
  - cbn. lia.
  - unfold i'. rewrite (wr_fields W). by destruct i.
  - by apply (synced_store_inode v1' i' v1').
  - intros o Hoo. cbn in Hoo. pose proof (wr_bytes W o ltac:(lia)) as Hb. assert (Hd : 0 <= o `div` BSIZE <= MAXFILE)
      by (unfold MAXFILE, NDIRECT, NINDIRECT, BSIZE in *; zlia).
    assert (Hnz : slot v1 i1 (o `div` BSIZE) <> 0).
    { apply (io_full _ _ Hio'); [lia|]. cbn. unfold BSIZE. zlia. }
    replace (fbyte (resize ip i' v1) i' o) with (fbyte v1 i1 o).
    + case_decide; [done|]. apply Hb. apply (io_full _ _ Hio); [lia|]. unfold BSIZE. zlia.
    + unfold fbyte. rewrite Hsl, Hbl; [done|]. by apply (io_slots _ _ Hio1).
  - intros n Hm. pose proof (wr_kept W n Hm) as Hk. unfold kept in *. by rewrite Hsl.
  - intros b Hb Hu Hne. rewrite Hbl by lia. by apply (wr_blk W).
  - intros j Hj Hne. assert (Ej : i_inum i' = i_inum i) by (unfold i'; by rewrite (wr_fields W)).
    unfold resize. rewrite load_store_other; [|done|done|done|by rewrite Ej|apply Hio'].
    pose proof (IBLOCK_range j Hj). change (blk (v1 <| v_inodes := _ |>)) with (blk v1). rewrite (wr_meta W); [done|]. destruct Hly. lia.
  - intros b Hb Hu. unfold Balloc.in_use. rewrite Hbit by done. by apply (wr_use W).
  - intros b Hb Hu. unfold Balloc.in_use in Hu. rewrite Hbit in Hu by done.
    destruct (wr_taken W b Hb Hu) as [?|(n&Hm&E)]; [by left|right]. exists n. by rewrite Hsl.
  - unfold resize, store_inode, log_update. fields. pose proof (wr_logged W).
    pose proof (length_log_add (IBLOCK (i_inum i') sb0) (v_logged v1)). lia.
  - unfold resize, store_inode, log_update. fields. rewrite length_insert. apply (wr_frame W).
Qed.

(** The number of blocks that [n] bytes at [off] touch. *)
Definition touched (off n : Z) : nat := Z.to_nat ((off `mod` BSIZE + n + BSIZE - 1) `div` BSIZE).

Lemma touched_bounds off n : 0 <= n -> off `mod` BSIZE + n <= BSIZE * Z.of_nat (touched off n) /\ (touched off n < loop_fuel n)%nat.
Proof. intros Hn. unfold touched, loop_fuel, BSIZE. zlia. Qed.

Lemma wp_writei ip v i src off n Q : fs_ok v -> inode_ok v i -> fields_ok i -> inum_ok i -> synced v i ->
  v_inodes v !! ip = Some i -> v_held v = [] -> i_type i <> T_DEV ->
  0 <= off <= i_size i -> 0 <= n <= Z.of_nat (length src) -> off + n <= MAXFILE * BSIZE ->
  room (6 * touched off n + 1) v -> avail (2 * touched off n) v ->
  (forall v' i', wrote_file ip v i off (take (Z.to_nat n) src) v' i' (6 * touched off n + 1) -> Q n v') ->
  wp (writei (S fuel) ip src off n) v Q.
Proof.
  intros Hfo Hio Hfi Hn Hsy Hi Hh Hty Ho Hl Hmax Hroom Hav HQ. unfold writei.
  apply (wp_get_inode _ _ _ _ _ ip i); [done|]. rewrite (proj2 (Z.eqb_neq _ _)) by done.
  pose proof (io_size _ _ Hio) as Hs. assert (Hmx : MAXFILE * BSIZE = 71680) by done.
  rewrite (u32_small n), (u32_small (off + n)) by lia.
  rewrite !(proj2 (Z.ltb_ge _ _)) by lia. cbn [orb]. destruct (touched_bounds off n ltac:(lia)) as [Ht1 Ht2].
  apply wp_bind. apply (wp_writei_loop (touched off n) ip v i); try done; try lia.
  { apply (room_mono _ _ _ _ _ Hroom). lia. }
  intros v1 i1 q g W Hg. set (src1 := take (Z.to_nat n) src) in *.
  assert (Hs1 : Z.of_nat (length src1) = n) by (unfold src1; rewrite length_take; lia).
  assert (Hlt : (ip < length (v_inodes v))%nat) by (by eapply lookup_lt_Some).
  assert (Hi1 : v_inodes v1 !! ip = Some i1) by (rewrite (wr_inodes W); by apply list_lookup_insert_eq).
  apply (wp_get_inode _ _ _ _ _ ip i1); [done|]. replace (i_size i1) with (i_size i) by (by rewrite (wr_fields W)).
  rewrite s32_small by lia. apply wp_bind. destruct (Z.ltb_spec 0 n) as [Hpos|Hz], (Z.ltb_spec (i_size i) (off + n)) as [Hgt|Hle]; cbn [andb].
  2,3,4: apply wp_ret, wp_ret; apply (HQ v1 i1);
    pose proof (wrote_inside ip v i off src1 v1 i1 q g Hfo Hio Hsy Hn ltac:(lia) ltac:(lia) W) as [];
    split; try done; lia.
  set (i' := i1 <| i_size := off + Z.of_nat (length src1) |>).
  pose proof (wrote_past ip v i off src1 v1 i1 q g Hfo Hio Hfi Hn Ho ltac:(lia) W) as Hw. cbv zeta in Hw. fold i' in Hw.
  apply wp_bind, wp_set_inode. erewrite list_alter_to_insert by exact Hi1. rewrite <- Hs1. fold i'.
  pose proof (wr_logged W). apply (wp_iupdate ip _ i').
  - destruct (wr_fs W); by split.
  - fields. rewrite (wr_inodes W), list_insert_insert_eq. by apply list_lookup_insert_eq.
  - apply (wr_inode W).
  - unfold inum_ok, i'. by rewrite (wr_fields W).
  - fields. by destruct (wr_frame W) as (->&_&_).
  - apply (room_mono _ _ _ _ _ Hroom). fields. lia.
  - apply wp_ret. rewrite Hs1. apply (HQ (resize ip i' v1) i'). destruct Hw. split; try done. lia.
Qed.

(** ** Theorems on reading and writing *)

(** C28: [readi] of a file that is not a device returns the bytes of the file at
    the offset, as many as asked for or up to the end, whatever blocks and
    indirect block they are in, and changes nothing; it returns -1 when the
    offset is past the end. *)
Theorem readi_reads f v ip i off n :
  rep pid l0 sb0 f v -> fs_ok v -> inode_ok v i -> v_inodes v !! ip = Some i -> v_held v = [] ->
  (length (v_logged v) <= 29)%nat -> i_type i <> T_DEV -> 0 <= off -> 0 <= n < 2 ^ 31 ->
  exists f' r bytes, runs pid (readi (S fuel) ip off n) [] f (r, bytes) [] [] f' /\ rep pid l0 sb0 f' v /\
    if decide (off <= i_size i) then r = Z.min n (i_size i - off) /\ Z.of_nat (length bytes) = r /\
      forall k, 0 <= k < r -> bytes !! Z.to_nat k = fbyte v i (off + k)
    else r = -1 /\ bytes = [].
Proof.
  intros Hrep Hfo Hio Hi Hh Hl Hty Ho Hn. pose proof (io_size _ _ Hio) as Hs. case_decide as Hle.
  - destruct (wp_readi ip v i off n (fun r v' => v' = v /\ r = (Z.min n (i_size i - off), slice v i off (Z.to_nat (Z.min n (i_size i - off))))))
      with f as ([r bytes]&f'&v'&R&Hf'&->&E); try done.
    exists f', r, bytes. simplify_eq. split_and!; [done|done|done| |].
    + unfold slice. rewrite length_fmap, length_seq. lia.
    + intros k Hk. unfold slice. rewrite list_lookup_fmap, lookup_seq_lt by lia. cbn. rewrite Z2Nat.id by lia.
      assert (Hd : 0 <= (off + k) `div` BSIZE <= MAXFILE) by (unfold MAXFILE, NDIRECT, NINDIRECT, BSIZE in *; zlia).
      unfold fbyte. destruct (io_slots _ _ Hio ((off + k) `div` BSIZE) Hd) as [Hr _].
      { apply (io_full _ _ Hio); [lia|]. unfold BSIZE. zlia. }
      pose proof (home_data l0 sb0 Hly v _ Hfo Hr) as [Hhr _]. pose proof (length_blk sb0 v _ Hfo Hhr) as Hlb.
      destruct (lookup_lt_is_Some_2 (blk v (slot v i ((off + k) `div` BSIZE))) (Z.to_nat ((off + k) `mod` BSIZE))) as [b ->];
        [rewrite Hlb; unfold BSIZE; zlia|done].
  - assert (Hw : wp (readi (S fuel) ip off n) v (fun r v' => v' = v /\ r = (-1, []))).
    { unfold readi. apply (wp_get_inode _ _ _ _ _ ip i); [done|]. rewrite (proj2 (Z.eqb_neq _ _)) by done.
      rewrite (proj2 (Z.ltb_lt _ _)) by lia. by apply wp_ret. }
    destruct (Hw f Hrep) as (r&f'&v'&R&Hf'&->&->). by exists f', (-1), [].
Qed.

(** C12: [writei] within the file or at its end, with log space and free blocks
    for the blocks it touches, changes exactly the bytes written: the file then
    holds them at the offset and every other byte as before, its size is the
    larger of the old one and the end of the write, the inode on the disk says
    so, the blocks of other files and other inodes on the disk are unchanged,
    and no block outside the file becomes used. *)
Theorem writei_writes f v ip i src off n :
  rep pid l0 sb0 f v -> fs_ok v -> inode_ok v i -> fields_ok i -> inum_ok i -> synced v i ->
  v_inodes v !! ip = Some i -> v_held v = [] -> i_type i <> T_DEV ->
  0 <= off <= i_size i -> 0 <= n <= Z.of_nat (length src) -> off + n <= MAXFILE * BSIZE ->
  room (6 * touched off n + 1) v -> avail (2 * touched off n) v ->
  exists f' v' i', runs pid (writei (S fuel) ip src off n) [] f n [] [] f' /\ rep pid l0 sb0 f' v' /\
    wrote_file ip v i off (take (Z.to_nat n) src) v' i' (6 * touched off n + 1).
Proof.
  intros Hrep Hfo Hio Hfi Hn Hsy Hi Hh Hty Ho Hl Hmax Hroom Hav.
  destruct (wp_writei ip v i src off n (fun r v' => r = n /\ exists i', wrote_file ip v i off (take (Z.to_nat n) src) v' i' (6 * touched off n + 1)))
    with f as (r&f'&v'&R&Hf'&->&i'&Hw); try done; [eauto|]. by exists f', v', i'.
Qed.

(** what [writei] stored is what [readi] then returns. *)
Theorem writei_readi f v ip i src off :
  rep pid l0 sb0 f v -> fs_ok v -> inode_ok v i -> fields_ok i -> inum_ok i -> synced v i ->
  v_inodes v !! ip = Some i -> v_held v = [] -> i_type i <> T_DEV -> 0 <= off <= i_size i ->
  let n := Z.of_nat (length src) in off + n <= MAXFILE * BSIZE ->
  room (6 * touched off n + 1) v -> avail (2 * touched off n) v ->
  exists f', runs pid (writei (S fuel) ip src off n ≫= fun _ => readi (S fuel) ip off n) [] f (n, src) [] [] f'.
Proof.
  intros Hrep Hfo Hio Hfi Hn Hsy Hi Hh Hty Ho n Hmax Hroom Hav.
  assert (Hw : wp (writei (S fuel) ip src off n ≫= fun _ => readi (S fuel) ip off n) v (fun r _ => r = (n, src))).
  { apply wp_bind. apply (wp_writei ip v i); try done; [lia|]. intros v' i' W.
    replace (take (Z.to_nat n) src) with src in W by (unfold n; by rewrite Nat2Z.id, firstn_all).
    pose proof (wf_size _ _ _ _ _ _ _ _ W) as Hsz. destruct (wf_frame _ _ _ _ _ _ _ _ W) as (Hh'&_&_).
    pose proof Hroom as (_&_&H29). pose proof (wf_logged _ _ _ _ _ _ _ _ W) as Hlg.
    assert (Hmx : MAXFILE * BSIZE = 71680) by done. fold n in Hsz.
    apply (wp_readi ip v' i'); try apply W.
    - rewrite (wf_inodes _ _ _ _ _ _ _ _ W). apply list_lookup_insert_eq. by eapply lookup_lt_Some.
    - by rewrite Hh'.
    - lia.
    - by rewrite (wf_fields _ _ _ _ _ _ _ _ W).
    - lia.
    - lia.
    - cbv zeta. replace (Z.min n (i_size i' - off)) with n by lia. f_equal. apply list_eq. intros k. unfold slice.
      rewrite list_lookup_fmap. destruct (decide (k < length src)%nat).
      + rewrite lookup_seq_lt by lia. cbn. rewrite (wf_bytes _ _ _ _ _ _ _ _ W) by lia. rewrite decide_True by lia.
        replace (Z.to_nat (off + Z.of_nat k - off)) with k by lia. destruct (lookup_lt_is_Some_2 src k) as [b ->]; [done|done].
      + rewrite lookup_seq_ge by lia. symmetry. apply lookup_ge_None_2. lia. }
  destruct (Hw f Hrep) as (r&f'&v'&R&_&->). by exists f'.
Qed.

End Inode.

End Inode.
