(* ===== verification/Itrunc.v ===== *)
(** * Itrunc: freeing the contents of a file, and reference counts (fs.c)

    [itrunc] frees the blocks of a file one by one, [iput] truncates and frees
    an inode whose last reference goes when it has no links.  The theorems show
    that exactly the blocks of the file become free, that the inode on the disk
    is free afterwards. *)
From S2P Require Import Prelude KState Kalloc Proc Sleeplock Bio Log Fs Trans Balloc Inode.

Module Itrunc.
Import Sleeplock Bio Log Fs Trans Balloc Inode.

Section Itrunc.
Context (pid : Z) (fuel : nat) (l0 : log_t) (sb0 : superblock) {devs : Devices}.
Abbreviation wp := (Trans.wp pid l0 sb0).
Abbreviation room := (Trans.room l0).
Abbreviation datastart := (Balloc.datastart sb0).
Abbreviation layout := (Balloc.layout l0 sb0).
Abbreviation in_use := (Balloc.in_use sb0).
Abbreviation fs_ok := (Balloc.fs_ok sb0).
Abbreviation inode_ok := (Inode.inode_ok sb0).
Abbreviation inum_ok := (Inode.inum_ok sb0).
Abbreviation synced := (Inode.synced sb0).
Context (Hly : layout).

(** The number of bitmap blocks. *)
Definition nbitmap : nat := Z.to_nat (sb_size sb0 `div` BPB + 1).

(** The view after the blocks at the places [P] of the tree of [i] are freed. *)
Record cut (v : view) (i : inode) (P : Z -> Prop) (v' : view) : Prop := {
  ct_fs : fs_ok v';
  ct_use : forall b, datastart <= b < sb_size sb0 -> in_use v' b <->
    in_use v b /\ forall n, 0 <= n <= MAXFILE -> P n -> slot v i n <> b;
  ct_blk : forall b, datastart <= b -> blk v' b = blk v b;
  ct_meta : forall b, 0 <= b < sb_bmapstart sb0 -> blk v' b = blk v b;
  ct_logged : forall b, b ∈ v_logged v' -> b ∈ v_logged v \/ sb_bmapstart sb0 <= b < datastart;
  ct_frame : v_locked v' = v_locked v /\ length (v_disk v') = length (v_disk v);
}.
#[local] Arguments ct_fs {v i P v'}.
#[local] Arguments ct_use {v i P v'}.
#[local] Arguments ct_blk {v i P v'}.
#[local] Arguments ct_meta {v i P v'}.
#[local] Arguments ct_logged {v i P v'}.
#[local] Arguments ct_frame {v i P v'}.

(** Nothing freed yet; the same places; other fields of the view. *)
Lemma cut_refl v i : fs_ok v -> cut v i (fun _ => False) v.
Proof. intros Hfo. split; try done; [naive_solver|by left]. Qed.

Lemma cut_iff v i P P' v' : (forall n, 0 <= n <= MAXFILE -> slot v i n <> 0 -> P n <-> P' n) -> cut v i P v' -> cut v i P' v'.
Proof.
  intros HP [H1 H2 H3 H4 H5 H6]. pose proof (data_pos l0 sb0 Hly) as Hp. split; try done. intros b Hb. rewrite H2 by done.
  split; (intros [Hu Hn]; split; [done|]; intros n Hm HPn E; apply (Hn n Hm); [|done]; apply HP; [done|lia|done]).
Qed.

Lemma cut_inodes v i P v' h l : cut v i P v' -> cut v i P (v' <| v_held := h |> <| v_inodes := l |>).
Proof. intros [[Hf1 Hf2 Hf3] H2 H3 H4 H5 H6]. by split. Qed.

Lemma cut_from_lock v i L v' : cut (v <| v_locked := L |>) i (fun _ => True) v' -> v_locked v' = L ->
  cut v i (fun _ => True) (v' <| v_locked := v_locked v |>).
Proof. intros [[Hf1 Hf2 Hf3] H2 H3 H4 H5 [H6 H7]] EL. by split. Qed.

Lemma in_bitmap b : 0 <= b < sb_size sb0 -> sb_bmapstart sb0 <= BBLOCK b sb0 < datastart.
Proof. apply (BBLOCK_range l0 sb0 Hly). Qed.

(** One more place freed. *)
Lemma cut_free v i P n v' : fs_ok v -> inode_ok v i -> 0 <= n <= MAXFILE -> slot v i n <> 0 -> ~ P n -> cut v i P v' ->
  in_use v' (slot v i n) /\ cut v i (fun m => P m \/ m = n) (unmark sb0 (slot v i n) v').
Proof.
  intros Hfo Hio Hn Hnz HP C. pose proof (data_pos l0 sb0 Hly) as Hp. pose proof (data_start l0 sb0 Hly) as Hds.
  destruct (io_slots _ _ _ Hio n Hn Hnz) as [Hr Hu]. set (b := slot v i n) in *.
  assert (Hub : in_use v' b).
  { apply (ct_use C); [done|]. split; [done|]. intros m Hm HPm E. apply HP. replace n with m; [done|].
    symmetry. by apply (io_inj _ _ _ Hio). }
  split; [done|]. assert (Hb0 : 0 <= b < sb_size sb0) by lia. split.
  - by apply (fs_ok_unmark l0); [|apply (ct_fs C)|].
  - intros c Hc. unfold Balloc.in_use at 1. rewrite (bit_of_unmark l0) by (apply (ct_fs C) || lia || done).
    case_decide as E.
    + split; [done|]. intros [_ Hne]. exfalso. apply (Hne n Hn); [by right|done].
    + change (in_use v' c <-> in_use v c /\ (forall m, 0 <= m <= MAXFILE -> P m \/ m = n -> slot v i m <> c)).
      rewrite (ct_use C) by done. split; intros [Hu' Hne]; split; try done; intros m Hm.
      * intros [HPm| ->]; [by apply Hne|by intros <-].
      * intros HPm. apply Hne; [done|by left].
  - intros c Hc. rewrite (blk_unmark l0) by (apply (ct_fs C) || lia || done). by apply (ct_blk C).
  - intros c Hc. unfold unmark. pose proof (in_bitmap b Hb0). rewrite blk_update;
      [|by apply (home_bitmap l0 sb0 Hly v'); [apply (ct_fs C)|]|lia]. rewrite decide_False by lia. by apply (ct_meta C).
  - intros c Hc. unfold unmark, log_update in Hc. cbn [v_logged setf] in Hc. pose proof (in_bitmap b Hb0).
    assert (c ∈ v_logged v' \/ c = BBLOCK b sb0) as [Hin| ->]; [|by apply (ct_logged C)|by right].
    unfold log_add in Hc. case_decide; [by left|]. apply elem_of_app in Hc as [|?%list_elem_of_singleton]; tauto.
  - unfold unmark, log_update. fields. rewrite length_insert. apply (ct_frame C).
Qed.

(** The log has room for the bitmap blocks. *)
Lemma cut_room v i P v' k : NoDup (v_logged v') -> cut v i P v' -> room (nbitmap + k) v -> room k v'.
Proof.
  intros Hnd C Hr. apply (room_mono _ _ _ _ _ Hr).
  assert (Hle : (length (v_logged v') <= length (v_logged v ++ seqZ (sb_bmapstart sb0) (Z.of_nat nbitmap)))%nat).
  { apply submseteq_length, NoDup_submseteq; [done|]. intros b Hb. apply elem_of_app.
    destruct (ct_logged C b Hb) as [|Hr']; [by left|right]. apply elem_of_seqZ. unfold Balloc.datastart, nbitmap in *.
    pose proof (data_start l0 sb0 Hly). destruct Hly. unfold BPB, BSIZE in *. zlia. }
  rewrite length_app, length_seqZ, Nat2Z.id in Hle. lia.
Qed.

(** One call of [bfree] in [itrunc]. *)
Lemma wp_cut v i P n v' Q : fs_ok v -> inode_ok v i -> 0 <= n <= MAXFILE -> slot v i n <> 0 -> ~ P n -> cut v i P v' ->
  held_ok sb0 v' -> room (nbitmap + 1) v ->
  (forall v'', cut v i (fun m => P m \/ m = n) v'' -> v_inodes v'' = v_inodes v' -> v_held v'' = v_held v' -> Q tt v'') ->
  wp (bfree (S fuel) 1 (slot v i n)) v' Q.
Proof.
  intros Hfo Hio Hn Hnz HP C Hh Hr HQ. pose proof (data_pos l0 sb0 Hly) as Hp. apply wp_nodup. intros Hnd.
  destruct (cut_free v i P n v' Hfo Hio Hn Hnz HP C) as [Hu C']. destruct (io_slots _ _ _ Hio n Hn Hnz) as [Hrg _].
  apply (wp_bfree pid fuel l0 sb0 Hly); [apply (ct_fs C)|done|by apply (cut_room v i P)|lia|done|]. by apply HQ.
Qed.

(** ** The direct blocks *)
Definition zeroed (k : nat) (i : inode) : inode := i <| i_addrs := replicate k 0 ++ drop k (i_addrs i) |>.

Lemma zeroed_lookup k i : length (i_addrs i) = 13%nat -> (k <= 12)%nat -> i_addrs (zeroed k i) !! k = Some (naddr i k).
Proof.
  intros Hl Hk. unfold zeroed. cbn [i_addrs setf]. rewrite lookup_app_r by (rewrite length_replicate; lia).
  rewrite length_replicate, Nat.sub_diag, lookup_drop, Nat.add_0_r. by apply addr_lookup.
Qed.

Lemma zeroed_insert k i : length (i_addrs i) = 13%nat -> (k <= 12)%nat ->
  <[k := 0]> (i_addrs (zeroed k i)) = i_addrs (zeroed (S k) i).
Proof.
  intros Hl Hk. unfold zeroed. cbn [i_addrs setf]. rewrite insert_app_r_alt by (rewrite length_replicate; lia).
  rewrite length_replicate, Nat.sub_diag, (drop_S (i_addrs i) (naddr i k) k) by (by apply addr_lookup). cbn [insert list_insert].
  by rewrite (cons_middle 0), app_assoc, <- replicate_S_end.
Qed.

Lemma zeroed_skip k i : length (i_addrs i) = 13%nat -> (k <= 12)%nat -> naddr i k = 0 -> zeroed (S k) i = zeroed k i.
Proof.
  intros Hl Hk H0. pose proof (zeroed_insert k i Hl Hk) as E. rewrite list_insert_id in E; [|by rewrite zeroed_lookup, H0].
  unfold zeroed in *. cbn [i_addrs setf] in E. by rewrite E.
Qed.

(** The first [k] addresses are freed and zero. *)
Definition direct_cut (v : view) (ip : nat) (i : inode) (k : nat) (v' : view) : Prop :=
  cut v i (fun n => n < Z.of_nat k) v' /\ v_inodes v' = <[ip := zeroed k i]> (v_inodes v) /\ v_held v' = [].

Lemma wp_direct v ip i Q : fs_ok v -> inode_ok v i -> v_inodes v !! ip = Some i -> v_held v = [] -> room (nbitmap + 1) v ->
  (forall v', direct_cut v ip i 12 v' -> Q tt v') ->
  wp (mfor (seq 0 (Z.to_nat NDIRECT)) (fun k =>
    i ← get_inode ip; addr ← need (i_addrs i !! k) "ip->addrs";
    if addr =? 0 then mret tt else bfree (S fuel) (i_dev i) addr ;; set_addr ip k 0)) v Q.
Proof.
  intros Hfo Hio Hi Hh Hr HQ. pose proof (io_addrs _ _ _ Hio) as Hl. pose proof (lookup_lt_Some _ _ _ Hi) as Hlt.
  apply (wp_mfor pid l0 sb0 _ _ (fun done v' => direct_cut v ip i (length done) v')).
  - split_and!; [|by rewrite list_insert_id by (by destruct i)|done].
    eapply cut_iff; [|by apply cut_refl]. intros n Hn _. simpl. lia.
  - intros done k rest v' El (C&Ein&Hh'). set (j := length done) in *.
    assert (Hk : (seq 0 12 !! j = Some k)%nat) by (change (Z.to_nat NDIRECT) with 12%nat in El; rewrite El; by apply list_lookup_middle).
    apply lookup_seq in Hk as [-> Hj]. cbn [Nat.add].
    replace (length (done ++ [j])) with (S j) by (rewrite length_app; simpl; lia).
    assert (Hi' : v_inodes v' !! ip = Some (zeroed j i)) by (rewrite Ein; by apply list_lookup_insert_eq).
    apply (wp_get_inode _ _ _ _ _ ip (zeroed j i)); [done|].
    eapply wp_need; [apply zeroed_lookup; [done|lia]|].
    assert (Hsl : slot v i (Z.of_nat j) = naddr i j) by (rewrite slot_direct by (unfold NDIRECT; lia); by rewrite Nat2Z.id).
    destruct (Z.eqb_spec (naddr i j) 0) as [E|E].
    + apply wp_ret. split_and!; [|by rewrite zeroed_skip by (done || lia)|done].
      eapply cut_iff; [|exact C]. cbv beta. intros n Hn Hnz. split; [lia|]. intros Hlt'. destruct (decide (n = Z.of_nat j)) as [->|]; [congruence|lia].
    + cbn [i_dev zeroed setf]. rewrite (io_dev _ _ _ Hio), <- Hsl. apply wp_bind.
      apply (wp_cut v i (fun n => n < Z.of_nat j) (Z.of_nat j) v'); try done; [unfold MAXFILE, NDIRECT, NINDIRECT; lia|by rewrite Hsl|lia|by apply held_nil|].
      intros v'' C' Ein' Hh''. apply wp_set_inode. split_and!; [| |by fields; rewrite Hh''].
      * eapply cut_iff; [|apply (cut_inodes _ _ _ _ (v_held v'')); exact C']. cbv beta. lia.
      * fields. rewrite Ein', (list_alter_to_insert _ _ _ _ Hi'), Ein, list_insert_insert_eq. f_equal.
        cbv beta. by rewrite (zeroed_insert j i Hl ltac:(lia)).
  - intros v' Hd. apply HQ. by rewrite length_seq in Hd.
Qed.

(** ** The indirect block *)
Lemma wp_entries v i v' bp h Q : fs_ok v -> inode_ok v i -> naddr i 12 <> 0 -> room (nbitmap + 1) v ->
  cut v i (fun n => n < NDIRECT) v' -> v_held v' = [(bp, naddr i 12)] -> v_inodes v' = h ->
  (forall v'', cut v i (fun n => n < MAXFILE) v'' -> v_inodes v'' = h -> v_held v'' = v_held v' -> Q tt v'') ->
  wp (mfor (seq 0 (Z.to_nat NINDIRECT)) (fun j =>
    buf ← get_buf bp; let a := get32 (b_data buf) (4 * j) in if a =? 0 then mret tt else bfree (S fuel) 1 a)) v' Q.
Proof.
  intros Hfo Hio Hx Hr C Hh Hin HQ. set (x := naddr i 12) in *.
  destruct (io_slots _ _ _ Hio MAXFILE ltac:(done) Hx) as [Hxr Hxu]. rewrite slot_indirect in Hxr, Hxu. fold x in Hxr, Hxu.
  apply (wp_mfor pid l0 sb0 _ _ (fun done v'' => cut v i (fun n => n < NDIRECT + Z.of_nat (length done)) v'' /\
    v_inodes v'' = h /\ v_held v'' = v_held v')).
  - split_and!; [|done..]. eapply cut_iff; [|exact C]. cbv beta. simpl. lia.
  - intros done j rest v'' El (C''&Hin''&Hh''). set (k := length done) in *.
    assert (Hk : (seq 0 128 !! k = Some j)%nat) by (change (Z.to_nat NINDIRECT) with 128%nat in El; rewrite El; by apply list_lookup_middle).
    apply lookup_seq in Hk as [-> Hj]. cbn [Nat.add].
    replace (length (done ++ [k])) with (S k) by (rewrite length_app; simpl; lia).
    pose proof (home_data l0 sb0 Hly v'' x (ct_fs C'') Hxr) as [Hhr _].
    eapply (wp_get_buf _ _ _ _ _ bp x); [rewrite Hh'', Hh; by left|exact (blk_lookup v'' x Hhr)|]. intros buf Hd _. rewrite Hd.
    rewrite (ct_blk C'' x) by lia. set (n := NDIRECT + Z.of_nat k).
    assert (Hn : NDIRECT <= n < MAXFILE) by (unfold n, MAXFILE, NDIRECT, NINDIRECT; lia).
    assert (Hsl : slot v i n = get32 (blk v x) (4 * k)).
    { rewrite slot_entry by done. fold x. rewrite (proj2 (Z.eqb_neq x 0)) by done. do 2 f_equal. unfold n. lia. }
    rewrite <- Hsl. destruct (Z.eqb_spec (slot v i n) 0) as [E|E].
    + apply wp_ret. split_and!; [|done..]. eapply cut_iff; [|exact C'']. cbv beta. intros m Hm Hnz. split; [lia|].
      intros Hlt. destruct (decide (m = n)) as [->|]; [done|unfold n in *; lia].
    + apply (wp_cut v i (fun m => m < n) n v''); try done; [unfold MAXFILE, NDIRECT, NINDIRECT in *; lia|lia| |].
      * unfold held_ok. rewrite Hh'', Hh. split; [simpl; lia|]. apply Forall_singleton. cbn. split; [lia|].
        apply (ct_use C''); [done|]. split; [done|]. intros m Hm Hlt Es.
        assert (m = MAXFILE) by (apply (io_inj _ _ _ Hio); [done|done|rewrite Es; done|rewrite Es; done]). lia.
      * intros v3 C3 Hin3 Hh3. split_and!; [|congruence..]. eapply cut_iff; [|exact C3]. cbv beta. unfold n. lia.
  - intros v'' (C''&Hin''&Hh''). apply HQ; [|done..]. eapply cut_iff; [|exact C'']. cbv beta. rewrite length_seq.
    unfold MAXFILE, NDIRECT, NINDIRECT. intros n _ _. done.
Qed.

(** ** [itrunc] *)
Definition emptied (i : inode) : inode := i <| i_addrs := replicate 13 0 |> <| i_size := 0 |>.

(** All places freed, the inode in memory not stored yet. *)
Lemma wp_indirect v ip i v1 Q : fs_ok v -> inode_ok v i -> v_inodes v !! ip = Some i -> room (nbitmap + 1) v ->
  direct_cut v ip i 12 v1 ->
  (forall v', cut v i (fun _ => True) v' -> v_inodes v' = <[ip := zeroed 13 i]> (v_inodes v) -> v_held v' = [] -> Q tt v') ->
  wp (if naddr i 12 =? 0 then mret tt else
      bp ← bread (S fuel) (i_dev i) (naddr i 12);
      mfor (seq 0 (Z.to_nat NINDIRECT)) (fun j =>
        buf ← get_buf bp; let a := get32 (b_data buf) (4 * j) in if a =? 0 then mret tt else bfree (S fuel) (i_dev i) a) ;;
      brelse bp ;; bfree (S fuel) (i_dev i) (naddr i 12) ;; set_addr ip (Z.to_nat NDIRECT) 0) v1 Q.
Proof.
  intros Hfo Hio Hi Hr (C&Hin&Hh) HQ. pose proof (io_addrs _ _ _ Hio) as Hl. pose proof (lookup_lt_Some _ _ _ Hi) as Hlt.
  destruct (Z.eqb_spec (naddr i 12) 0) as [E|E].
  - apply wp_ret. apply HQ; [|by rewrite zeroed_skip by (done || lia)|done]. eapply cut_iff; [|exact C]. cbv beta.
    intros n Hn Hnz. split; [done|]. intros _. destruct (Z.lt_ge_cases n NDIRECT); [done|]. exfalso. apply Hnz.
    destruct (decide (n = MAXFILE)) as [->|]; [done|]. rewrite slot_entry by lia. by rewrite E.
  - destruct (io_slots _ _ _ Hio MAXFILE ltac:(done) E) as [Hxr Hxu]. rewrite slot_indirect in Hxr, Hxu.
    set (x := naddr i 12) in *. rewrite (io_dev _ _ _ Hio). apply wp_nodup. intros Hnd.
    pose proof (cut_room v i _ v1 1 Hnd C Hr) as (_&_&H29). pose proof (home_data l0 sb0 Hly v1 x (ct_fs C) Hxr) as [Hhr _].
    apply wp_bind. apply wp_bread; [done|rewrite Hh; apply not_elem_of_nil|rewrite Hh; cbn [length]; unfold NBUF; lia|].
    intros bp Hbp. rewrite Hh. apply wp_bind.
    apply (wp_entries v i _ bp (v_inodes v1)); try done; [by apply (cut_inodes v i _ v1 [(bp, x)] (v_inodes v1)) in C|].
    intros v2 C2 Hin2 Hh2. apply wp_bind. eapply wp_brelse; [exact Hh2|].
    apply (cut_inodes v i _ v2 [] (v_inodes v2)) in C2. set (v3 := v2 <| v_held := [] |>).
    assert (C3 : cut v i (fun n => n < MAXFILE) v3) by (by destruct v2). apply wp_bind.
    change x with (slot v i MAXFILE). apply (wp_cut v i (fun n => n < MAXFILE) MAXFILE v3); try done; [by apply held_nil|].
    intros v4 C4 Hin4 Hh4. apply wp_set_inode. change (v_inodes v3) with (v_inodes v2) in Hin4.
    assert (Hi4 : v_inodes v4 !! ip = Some (zeroed 12 i)) by (rewrite Hin4, Hin2, Hin; by apply list_lookup_insert_eq).
    apply HQ; [| |by fields; rewrite Hh4].
    + eapply cut_iff; [|apply (cut_inodes _ _ _ _ (v_held v4)); exact C4]. cbv beta. intros n Hn _. split; [done|]. lia.
    + fields. rewrite (list_alter_to_insert _ _ _ _ Hi4), Hin4, Hin2, Hin, list_insert_insert_eq. f_equal. cbv beta.
      change (Z.to_nat NDIRECT) with 12%nat. by rewrite (zeroed_insert 12 i Hl ltac:(lia)).
Qed.

Lemma emptied_zeroed i : length (i_addrs i) = 13%nat -> (zeroed 13 i) <| i_size := 0 |> = emptied i.
Proof. intros Hl. unfold zeroed, emptied. rewrite drop_ge, app_nil_r by lia. done. Qed.

Lemma wp_itrunc v ip i k Q : fs_ok v -> inode_ok v i -> inum_ok i -> v_inodes v !! ip = Some i -> v_held v = [] ->
  room (nbitmap + S k) v ->
  (forall v', cut v i (fun _ => True) v' -> v_inodes v' = <[ip := emptied i]> (v_inodes v) -> v_held v' = [] ->
     room (S k) v' -> Q tt (store_inode sb0 (emptied i) v')) ->
  wp (itrunc (S fuel) ip) v Q.
Proof.
  intros Hfo Hio Hn Hi Hh Hrk HQ. pose proof (io_addrs _ _ _ Hio) as Hl. pose proof (lookup_lt_Some _ _ _ Hi) as Hlt.
  assert (Hr : room (nbitmap + 1) v) by (apply (room_mono _ _ _ _ _ Hrk); lia). unfold itrunc. apply wp_bind. apply (wp_direct v ip i); try done. intros v1 D1. pose proof D1 as (C1&Hin1&Hh1).
  assert (Hi1 : v_inodes v1 !! ip = Some (zeroed 12 i)) by (rewrite Hin1; by apply list_lookup_insert_eq).
  apply (wp_get_inode _ _ _ _ _ ip (zeroed 12 i)); [done|].
  eapply wp_need; [apply (zeroed_lookup 12 i Hl); lia|]. cbn [i_dev zeroed setf]. apply wp_bind.
  apply (wp_indirect v ip i v1); try done. intros v2 C2 Hin2 Hh2. apply wp_bind, wp_set_inode.
  assert (Hi2 : v_inodes v2 !! ip = Some (zeroed 13 i)) by (rewrite Hin2; by apply list_lookup_insert_eq).
  rewrite (list_alter_to_insert _ _ _ _ Hi2), Hin2, list_insert_insert_eq. cbv beta. rewrite emptied_zeroed by done.
  apply wp_nodup. intros Hnd. set (v3 := v2 <| v_inodes := _ |>) in *.
  assert (C3 : cut v i (fun _ => True) v3) by (apply (cut_inodes _ _ _ _ (v_held v2) (<[ip := emptied i]> (v_inodes v))) in C2; by destruct v2).
  pose proof (cut_room v i _ v3 (S k) Hnd C3 Hrk) as Hr3.
  assert (Hr1 : room 1 v3) by (apply (room_mono _ _ _ _ _ Hr3); lia).
  apply (wp_iupdate pid fuel l0 sb0 Hly ip v3 (emptied i)); try done; [apply (ct_fs C3)|by apply list_lookup_insert_eq|apply Hio|].
  by apply HQ.
Qed.

(** ** The freed inode on the disk *)
Lemma fs_ok_disk v v' : v_disk v' = v_disk v -> fs_ok v -> fs_ok v'.
Proof. intros E [H1 H2 H3]. split; unfold Balloc.in_use, Balloc.bit_of, blk; rewrite E; done. Qed.
Lemma inode_ok_disk v v' i : v_disk v' = v_disk v -> inode_ok v i -> inode_ok v' i.
Proof.
  intros E [H1 H2 H3 H4 H5 H6].
  split; try done; unfold Balloc.in_use, Balloc.bit_of, slot, blk in *; rewrite ?E; done.
Qed.

(** An inode with no blocks. *)
Definition blank (i : inode) : Prop := i_addrs i = replicate 13 0 /\ i_size i = 0.

Lemma slot_blank v i n : blank i -> 0 <= n <= MAXFILE -> slot v i n = 0.
Proof.
  intros [Ha _] Hn. assert (H0 : forall k, naddr i k = 0).
  { intros k. unfold naddr. rewrite Ha. destruct (decide (k < 13)%nat).
    - by rewrite lookup_replicate_2.
    - rewrite lookup_ge_None_2; [done|]. rewrite length_replicate. lia. }
  unfold slot. rewrite !H0. by repeat case_match.
Qed.

Lemma blank_ok v i : i_dev i = 1 -> blank i -> inode_ok v i.
Proof.
  intros Hd Hb. destruct Hb as [Ha Hs] eqn:E. clear E. split.
  - by rewrite Ha.
  - done.
  - rewrite Hs. unfold MAXFILE, NDIRECT, NINDIRECT, BSIZE. lia.
  - intros n Hn Hnz. exfalso. by apply Hnz, slot_blank.
  - intros n m Hn _ Hnz. exfalso. by apply Hnz, slot_blank.
  - intros n Hn. rewrite Hs. unfold BSIZE. lia.
Qed.

(** The inode in the cache once it is freed. *)
Definition dropped (i : inode) : inode := i <| i_addrs := replicate 13 0 |> <| i_size := 0 |> <| i_type := 0 |>.

Record freed_file (ip : nat) (v : view) (i : inode) (v' : view) : Prop := {
  ff_fs : fs_ok v';
  ff_use : forall b, datastart <= b < sb_size sb0 ->
    in_use v' b <-> in_use v b /\ forall n, 0 <= n <= MAXFILE -> slot v i n <> b;
  ff_blk : forall b, datastart <= b < sb_size sb0 -> blk v' b = blk v b;
  ff_dinode : load_dinode (blk v' (IBLOCK (i_inum i) sb0)) (dinode_off (i_inum i)) i = dropped i;
  ff_dinodes : forall j, inum_ok j -> i_inum j <> i_inum i ->
    load_dinode (blk v' (IBLOCK (i_inum j) sb0)) (dinode_off (i_inum j)) j =
    load_dinode (blk v (IBLOCK (i_inum j) sb0)) (dinode_off (i_inum j)) j;
  ff_inodes : v_inodes v' = <[ip := (dropped i) <| i_valid := false |> <| i_ref := 0 |>]> (v_inodes v);
  ff_frame : v_held v' = [] /\ v_locked v' = v_locked v;
}.

Lemma in_use_store v i b : fs_ok v -> inum_ok i -> 0 <= b < sb_size sb0 -> in_use (store_inode sb0 i v) b <-> in_use v b.
Proof. intros Hfo Hn Hb. unfold Balloc.in_use. by rewrite (bit_store_inode l0 sb0 Hly). Qed.

Lemma load_dinode_of d o i i' : i_dev i' = i_dev i -> i_inum i' = i_inum i -> i_ref i' = i_ref i -> i_valid i' = i_valid i ->
  load_dinode d o i = load_dinode d o i'.
Proof. intros E1 E2 E3 E4. destruct i, i'. cbn in *. by subst. Qed.

(** Two stores of the inode after its blocks are freed. *)
Lemma freed_file_intro ip v i v' v'' : inode_ok v i -> inum_ok i -> fields_ok i -> cut v i (fun _ => True) v' ->
  v_disk v'' = v_disk (store_inode sb0 (dropped i) (store_inode sb0 (emptied i) v')) ->
  v_inodes v'' = <[ip := (dropped i) <| i_valid := false |> <| i_ref := 0 |>]> (v_inodes v) ->
  v_held v'' = [] -> v_locked v'' = v_locked v -> freed_file ip v i v''.
Proof.
  intros Hio Hn Hf C Ed Ei Hh Hl. pose proof (ct_fs C) as Hfo'. pose proof (data_start l0 sb0 Hly) as Hds. pose proof (data_pos l0 sb0 Hly).
  set (w := store_inode sb0 (emptied i) v') in *. assert (Hne : inum_ok (emptied i)) by done.
  assert (Hnd : inum_ok (dropped i)) by done.
  assert (Hw : fs_ok w) by (by apply (fs_ok_store_inode l0 sb0 Hly)).
  assert (Hw2 : fs_ok (store_inode sb0 (dropped i) w)) by (by apply (fs_ok_store_inode l0 sb0 Hly)).
  pose proof (IBLOCK_range l0 sb0 Hly i Hn) as Hib.
  assert (Eb : forall b, blk v'' b = blk (store_inode sb0 (dropped i) w) b) by (intros b; unfold blk; by rewrite Ed).
  split; try done.
  - by eapply fs_ok_disk.
  - intros b Hb. unfold Balloc.in_use at 1, Balloc.bit_of. rewrite Eb.
    change (in_use (store_inode sb0 (dropped i) w) b <-> in_use v b /\ forall n, 0 <= n <= MAXFILE -> slot v i n <> b).
    rewrite in_use_store by (done || lia). unfold w.
    rewrite in_use_store by (done || lia). rewrite (ct_use C) by done. naive_solver.
  - intros b Hb. rewrite Eb. assert (b <> IBLOCK (i_inum i) sb0) by lia.
    rewrite (blk_store_inode l0 sb0 Hly) by (done || lia). unfold w. rewrite (blk_store_inode l0 sb0 Hly) by (done || lia). apply (ct_blk C). lia.
  - rewrite Eb, (load_dinode_of _ _ i (dropped i)) by done. apply (synced_store_inode l0 sb0 Hly w (dropped i) v); try done.
    + by apply blank_ok; [apply Hio|].
    + unfold fields_ok in *. rewrite !Forall_cons in *. cbn. naive_solver lia.
  - intros j Hj Hne'. rewrite Eb. rewrite !(load_store_other l0 sb0 Hly) by done. unfold w.
    rewrite !(load_store_other l0 sb0 Hly) by done. pose proof (IBLOCK_range l0 sb0 Hly j Hj). rewrite (ct_meta C); [done|].
    destruct Hly. lia.
Qed.

(** ** [iput] *)

(** The last reference to a file with no links. *)
Lemma wp_iput_last v ip i Q : fs_ok v -> inode_ok v i -> inum_ok i -> fields_ok i -> v_inodes v !! ip = Some i ->
  (ip < NINODE)%nat -> ip ∉ v_locked v -> v_held v = [] -> room (nbitmap + 2) v ->
  i_valid i = true -> i_nlink i = 0 -> i_ref i = 1 ->
  (forall v', freed_file ip v i v' -> Q tt v') -> wp (iput (S fuel) ip) v Q.
Proof.
  intros Hfo Hio Hn Hf Hi Hip Hlk Hh Hr Hv Hnl Href HQ. pose proof (lookup_lt_Some _ _ _ Hi) as Hlt.
  unfold iput. apply wp_bind, wp_acquiresleep; [done..|]. set (vl := v <| v_locked := _ |>).
  apply (wp_get_inode _ _ _ _ _ ip i); [done|]. rewrite Hv, Hnl. cbn [andb Z.eqb]. apply wp_bind.
  apply (wp_icache_ref _ _ _ (fun r => if r =? 1 then _ else _) vl ip i); [done|]. rewrite Href. cbn [Z.eqb Pos.eqb].
  apply wp_bind. apply (wp_itrunc vl ip i 1); try done.
  { by eapply fs_ok_disk; [|exact Hfo]. } { by eapply inode_ok_disk; [|exact Hio]. }
  intros v1 C Hin1 Hh1 Hr1. pose proof (cut_from_lock v i _ v1 C (proj1 (ct_frame C))) as C'.
  pose proof (ct_fs C) as Hfo1. set (w := store_inode sb0 (emptied i) v1). pose proof (length_log_add (IBLOCK (i_inum i) sb0) (v_logged v1)).
  apply wp_bind, wp_set_inode. change (v_inodes w) with (v_inodes v1). rewrite Hin1, alter_insert_at by done.
  set (v2 := w <| v_inodes := _ |>). apply wp_bind.
  assert (Hfo2 : fs_ok v2) by (eapply fs_ok_disk; [|by apply (fs_ok_store_inode l0 sb0 Hly v1 (emptied i))]; done).
  apply (wp_iupdate pid fuel l0 sb0 Hly ip v2 (dropped i)); try done; [by apply list_lookup_insert_eq|apply Hio| |].
  { apply (room_mono _ _ _ _ _ Hr1). cbn. lia. }
  apply wp_set_inode. change (v_inodes (store_inode _ _ v2)) with (<[ip := dropped i]> (v_inodes v)). rewrite alter_insert_at by done.
  apply wp_bind, wp_releasesleep; [done|]. apply wp_icache_put. cbn [v_inodes setf]. rewrite alter_insert_at by done.
  apply HQ. apply (freed_file_intro ip v i _ _ Hio Hn Hf C'); fields; try done.
  - cbn. by rewrite Href.
  - destruct C as [_ _ _ _ _ [El _]]. change (v_locked (store_inode _ _ v2)) with (v_locked v1). rewrite El.
    change (v_locked vl) with (ip :: v_locked v). by rewrite filter_cons_False, filter_ne_notin by naive_solver.
Qed.

(** Any other reference: only the count changes. *)
Lemma wp_iput_other v ip i Q : v_inodes v !! ip = Some i -> (ip < NINODE)%nat -> ip ∉ v_locked v ->
  (i_valid i = false \/ i_nlink i <> 0 \/ i_ref i <> 1) ->
  Q tt (v <| v_inodes := <[ip := i <| i_ref := i_ref i - 1 |>]> (v_inodes v) |>) -> wp (iput (S fuel) ip) v Q.
Proof.
  intros Hi Hip Hlk Hc HQ. unfold iput. apply wp_bind, wp_acquiresleep; [done..|]. set (vl := v <| v_locked := _ |>).
  apply (wp_get_inode _ _ _ _ _ ip i); [done|].
  assert (Hend : wp (releasesleep (ilk ip) ;; acquire LkIcache ;;
    set_inode ip (fun i => i <| i_ref := i_ref i - 1 |>) ;; release LkIcache) vl Q).
  { apply wp_bind, wp_releasesleep; [done|]. apply wp_icache_put. cbn [v_inodes v_locked setf].
    change (v_inodes vl) with (v_inodes v). rewrite (list_alter_to_insert _ _ _ _ Hi).
    change (v_locked vl) with (ip :: v_locked v). rewrite filter_cons_False, filter_ne_notin by naive_solver. by destruct v. }
  apply wp_bind. destruct (i_valid i); [|by apply wp_ret]. destruct (Z.eqb_spec (i_nlink i) 0); [|by apply wp_ret].
  cbn [andb]. apply (wp_icache_ref _ _ _ (fun r => if r =? 1 then _ else _) vl ip i); [done|].
  rewrite (proj2 (Z.eqb_neq _ _)) by naive_solver. by apply wp_ret.
Qed.

(** ** Theorems *)

(** C22: [iput] of the last reference to an inode with no links frees the file:
    exactly the data blocks of its tree of blocks become free and no data block
    changes, the inode on the disk becomes free (type 0, size 0, no blocks) and
    every other inode on the disk stays, its entry of the cache is free, and the
    lock of the inode is released. *)
Theorem iput_frees f v ip i :
  rep pid l0 sb0 f v -> fs_ok v -> inode_ok v i -> inum_ok i -> fields_ok i -> v_inodes v !! ip = Some i ->
  (ip < NINODE)%nat -> ip ∉ v_locked v -> v_held v = [] -> room (nbitmap + 2) v ->
  i_valid i = true -> i_nlink i = 0 -> i_ref i = 1 ->
  exists f' v', runs pid (iput (S fuel) ip) [] f tt [] [] f' /\ rep pid l0 sb0 f' v' /\ freed_file ip v i v'.
Proof.
  intros Hrep Hfo Hio Hn Hf Hi Hip Hlk Hh Hr Hv Hnl Href.
  destruct (wp_iput_last v ip i (fun _ v' => freed_file ip v i v')) with f as (u&f'&v'&R&Hf'&HQ); try done.
  destruct u. by exists f', v'.
Qed.

End Itrunc.

End Itrunc.
