(* ===== verification/Icache.v ===== *)
(** * Icache: the cache of inodes, and allocating an inode (fs.c)

    [iget] finds or makes the entry of an inode, [ilock] reads it from the disk,
    [ialloc] takes the first free inode of the disk.  The theorems show that an
    inode never has two entries, that [ilock] loads what [iupdate] stored, and
    that [ialloc] writes the first free dinode and no other. *)
From S2P Require Import Prelude KState Kalloc Proc Sleeplock Bio Log Fs Trans Balloc Inode Itrunc.

Module Icache.
Import Sleeplock Bio Log Fs Trans Balloc Inode Itrunc.

(** ** [iget] on the list of entries *)
Definition names (dev inum : Z) (i : inode) : Prop := 0 < i_ref i /\ i_dev i = dev /\ i_inum i = inum.

(** At most one entry per inode, and counts that are not negative. *)
Record unique (l : list inode) : Prop := {
  un_ref : Forall (fun i => 0 <= i_ref i) l;
  un_name : forall a b i j, l !! a = Some i -> l !! b = Some j -> 0 < i_ref i -> names (i_dev i) (i_inum i) j -> a = b;
}.

Lemma match_names dev inum i : (0 <? i_ref i) && (i_dev i =? dev) && (i_inum i =? inum) = true <-> names dev inum i.
Proof. unfold names. rewrite !andb_true_iff, Z.ltb_lt, !Z.eqb_eq. tauto. Qed.

(** Entry [a] replaced by one that names an inode no other entry names. *)
Lemma unique_insert l a i : unique l -> 0 < i_ref i ->
  (forall b j, l !! b = Some j -> b <> a -> ~ names (i_dev i) (i_inum i) j) -> unique (<[a := i]> l).
Proof.
  intros [Hr Hn] Hi Hfr. split; [by apply Forall_insert; [|lia]|].
  intros b c x y [(->&<-&Hb)|(Hb&Hx)]%list_lookup_insert_Some [(->&<-&Hc)|(Hc&Hy)]%list_lookup_insert_Some Hx0 Hnm; try done.
  - exfalso. by apply (Hfr c y).
  - exfalso. apply (Hfr b x Hx); [done|]. destruct Hnm as (_&E1&E2). by rewrite E1, E2.
  - by apply (Hn b c x y).
Qed.

(** An entry that names the same inode. *)
Lemma unique_rename l a i j : unique l -> l !! a = Some i -> i_dev j = i_dev i -> i_inum j = i_inum i -> i_ref j = i_ref i ->
  unique (<[a := j]> l).
Proof.
  intros Hu Hi E1 E2 E3. pose proof (un_ref _ Hu) as Hr. rewrite Forall_lookup in Hr.
  split; [apply Forall_insert; [apply Hu|]; rewrite E3; by eapply Hr|].
  assert (Hget : forall b x, <[a := j]> l !! b = Some x ->
    exists y, l !! b = Some y /\ i_dev x = i_dev y /\ i_inum x = i_inum y /\ i_ref x = i_ref y).
  { intros b x [(->&<-&Hb)|(Hb&Hx)]%list_lookup_insert_Some; [by exists i|by exists x]. }
  intros b c x y (x'&Hx&F1&F2&F3)%Hget (y'&Hy&G1&G2&G3)%Hget Hp (Hq&F4&F5).
  apply (un_name _ Hu b c x' y' Hx Hy); [lia|]. unfold names. split_and!; congruence.
Qed.

(** The entry given up by its last holder. *)
Lemma unique_drop l a i : unique l -> l !! a = Some i -> unique (<[a := i <| i_ref := 0 |>]> l).
Proof.
  intros Hu Hi. split; [by apply Forall_insert; [apply Hu|cbn; lia]|].
  intros b c x y [(->&<-&Hb)|(Hb&Hx)]%list_lookup_insert_Some [(->&<-&Hc)|(Hc&Hy)]%list_lookup_insert_Some Hx0 Hnm; try done.
  - by destruct Hnm.
  - by apply (un_name _ Hu b c x y).
Qed.

(** What [iget] does to the cache. *)
Definition got (dev inum : Z) (l : list inode) (ip : nat) (l' : list inode) : Prop :=
  exists i, l' = <[ip := i]> l /\ (ip < length l)%nat /\ names dev inum i /\
    match l !! ip with
    | Some j => if decide (names dev inum j) then i = j <| i_ref := i_ref j + 1 |> else i_ref j = 0 /\ i_ref i = 1 /\ i_valid i = false
    | None => False
    end.

Lemma iget_entry_ok dev inum l : unique l -> Forall (fun i => i_ref i < 2 ^ 31 - 1) l ->
  match iget_entry dev inum l with
  | Some (ip, l') => unique l' /\ got dev inum l ip l'
  | None => Forall (fun i => 0 < i_ref i /\ ~ names dev inum i) l
  end.
Proof.
  intros Hu Hm. rewrite Forall_lookup in Hm. pose proof (un_ref _ Hu) as Hp. rewrite Forall_lookup in Hp.
  unfold iget_entry. destruct (find_index _ _) as [ip|] eqn:E1.
  - apply find_index_Some in E1 as (i&Hi&Hn%match_names&_). rewrite (list_alter_to_insert _ _ _ _ Hi).
    specialize (Hm _ _ Hi). rewrite (s32_small (i_ref i + 1)) by (destruct Hn; lia). split.
    + apply unique_insert; [done|cbn; destruct Hn; lia|]. intros b j Hj Hne Hnj. apply Hne. symmetry.
      by apply (un_name _ Hu ip b i j Hi Hj); [apply Hn|].
    + eexists. split_and!; [done|by eapply lookup_lt_Some|cbn; destruct Hn as (?&?&?); unfold names; cbn; lia|].
      rewrite Hi. by rewrite decide_True.
  - assert (Hno : forall b j, l !! b = Some j -> ~ names dev inum j).
    { intros b j Hj Hn%match_names. rewrite find_index_None in E1. by rewrite (E1 b j Hj) in Hn. }
    destruct (find_index (fun ip => i_ref ip =? 0) l) as [ip|] eqn:E2; cbn [mbind option_bind].
    + apply find_index_Some in E2 as (i&Hi&H0%Z.eqb_eq&_). rewrite (list_alter_to_insert _ _ _ _ Hi). split.
      * apply unique_insert; [done|done|]. intros b j Hj _. by apply (Hno b).
      * eexists. split_and!; [done|by eapply lookup_lt_Some|done|]. rewrite Hi. by rewrite decide_False by (by eapply Hno).
    + apply Forall_lookup. intros b j Hj. split; [|by apply (Hno b)]. rewrite find_index_None in E2.
      specialize (E2 b j Hj). apply Z.eqb_neq in E2. specialize (Hp b j Hj). cbv beta in Hp. lia.
Qed.

(** Looking up an inode whose entry has just been given up. *)
Lemma iget_again l ip i : unique l -> Forall (fun i => i_ref i < 2 ^ 31 - 1) l -> l !! ip = Some i -> i_ref i = 1 ->
  let l1 := <[ip := i <| i_ref := 0 |>]> l in
  exists jp j, iget_entry (i_dev i) (i_inum i) l1 = Some (jp, <[jp := j]> l1) /\ unique (<[jp := j]> l1) /\
    (jp < length l1)%nat /\ names (i_dev i) (i_inum i) j /\ i_ref j = 1 /\ i_valid j = false.
Proof.
  intros Hu Hm Hi Href l1. pose proof (lookup_lt_Some _ _ _ Hi) as Hlt.
  assert (H1 : l1 !! ip = Some (i <| i_ref := 0 |>)) by (by apply list_lookup_insert_eq).
  pose proof (iget_entry_ok (i_dev i) (i_inum i) l1 (unique_drop _ _ _ Hu Hi)) as Hok.
  destruct (iget_entry _ _ l1) as [[jp l']|] eqn:E; specialize (Hok ltac:(by apply Forall_insert)).
  - destruct Hok as [Hu' (j&->&Hlj&Hnj&Hc)]. exists jp, j. split_and!; try done.
    all: destruct (l1 !! jp) as [k|] eqn:Hk; [|done]; destruct (decide (names _ _ k)) as [Hnk|]; [|by destruct Hc as (?&?&?)].
    all: exfalso; unfold l1 in Hk; apply list_lookup_insert_Some in Hk as [(->&<-&_)|(Hne&Hk)]; [by destruct Hnk|].
    all: apply Hne; apply (un_name _ Hu ip jp i k Hi Hk); [lia|done].
  - exfalso. rewrite Forall_lookup in Hok. destruct (Hok _ _ H1) as [H0 _]. cbn in H0. lia.
Qed.

Section Icache.
Context (pid : Z) (fuel : nat) (l0 : log_t) (sb0 : superblock) {devs : Devices}.
Abbreviation wp := (Trans.wp pid l0 sb0).
Abbreviation room := (Trans.room l0).
Abbreviation datastart := (Balloc.datastart sb0).
Abbreviation layout := (Balloc.layout l0 sb0).
Abbreviation in_use := (Balloc.in_use sb0).
Abbreviation fs_ok := (Balloc.fs_ok sb0).
Abbreviation inum_ok := (Inode.inum_ok sb0).
Context (Hly : layout).

(** ** [ilock] *)

(** The inode [ilock] reads from the disk. *)
Definition loaded (v : view) (i : inode) : inode :=
  (load_dinode (blk v (IBLOCK (i_inum i) sb0)) (dinode_off (i_inum i)) i) <| i_valid := true |>.

Lemma wp_ilock_load v ip i Q : fs_ok v -> v_inodes v !! ip = Some i -> (ip < NINODE)%nat -> ip ∉ v_locked v -> v_held v = [] ->
  (length (v_logged v) <= 29)%nat -> 0 < i_ref i -> i_valid i = false -> i_dev i = 1 -> inum_ok i ->
  i_type (loaded v i) <> 0 -> Q tt (v <| v_locked := ip :: v_locked v |> <| v_inodes := <[ip := loaded v i]> (v_inodes v) |>) ->
  wp (ilock (S fuel) (Some ip)) v Q.
Proof.
  intros Hfo Hi Hip Hlk Hh Hlg Href Hv Hd Hn Hty HQ. pose proof (lookup_lt_Some _ _ _ Hi) as Hlt.
  pose proof (IBLOCK_home l0 sb0 Hly v i Hfo Hn) as Hho.
  unfold ilock. apply (wp_get_inode _ _ _ _ _ ip i); [done|]. rewrite (proj2 (Z.ltb_ge _ _)) by lia.
  apply wp_bind, wp_acquiresleep; [done..|]. apply (wp_get_inode _ _ _ _ _ ip i); [done|]. rewrite Hv, Hd. apply wp_get_sb.
  apply wp_bind, wp_bread; [apply Hho|cbn; rewrite Hh; apply not_elem_of_nil|cbn; rewrite Hh; cbn [length]; unfold NBUF; lia|].
  intros bp _. eapply (wp_get_buf _ _ _ _ _ bp (IBLOCK (i_inum i) sb0)); [by left|exact (blk_lookup v _ (proj1 Hho))|].
  intros buf Hb _. rewrite Hb. apply wp_bind, wp_set_inode. apply wp_bind. eapply wp_brelse; [done|].
  apply wp_bind, wp_set_inode. cbn [v_inodes setf]. rewrite (list_alter_to_insert _ _ _ _ Hi), alter_insert_at by done.
  eapply (wp_get_inode _ _ _ _ _ ip (loaded v i)); [by apply list_lookup_insert_eq|].
  rewrite (proj2 (Z.eqb_neq _ _)) by done. apply wp_ret. by destruct v.
Qed.

Lemma load_dinode_valid d o i j : i_dev i = i_dev j -> i_inum i = i_inum j -> i_ref i = i_ref j ->
  (load_dinode d o i) <| i_valid := true |> = (load_dinode d o j) <| i_valid := true |>.
Proof. intros E1 E2 E3. destruct i, j. cbn in *. by subst. Qed.

(** ** [ialloc] *)

(** The type of inode [inum] on the disk. *)
Definition dtype (v : view) (inum : Z) : Z := get16 (blk v (IBLOCK inum sb0)) (dinode_off inum).
(** The inode [ialloc] writes. *)
Definition fresh (type inum : Z) : inode := zero_inode <| i_dev := 1 |> <| i_inum := inum |> <| i_type := type |>.

Lemma fresh_bytes type inum : dinode_bytes (fresh type inum) = le16 type ++ zero_bytes (SIZEOF_DINODE - 2).
Proof. done. Qed.

Lemma wp_ialloc_loop n type inum k v ip l Q : fs_ok v -> 1 <= inum <= k -> k < sb_ninodes sb0 -> k - inum < Z.of_nat n ->
  dtype v k = 0 -> (forall j, inum <= j < k -> dtype v j <> 0) -> v_held v = [] -> room 1 v ->
  iget_entry 1 k (v_inodes v) = Some (ip, l) ->
  Q ip ((store_inode sb0 (fresh type k) v) <| v_inodes := l |>) -> wp (ialloc_loop (S fuel) n 1 type inum) v Q.
Proof.
  intros Hfo Hi Hk Hn H0 Hlo Hh Hr He HQ. pose proof Hr as (_&_&H29).
  revert inum Hi Hn Hlo. induction n as [|n IH]; intros inum Hi Hn Hlo; [lia|]. cbn [ialloc_loop].
  apply wp_get_sb. rewrite (proj2 (Z.ltb_lt _ _)) by lia.
  pose proof (IBLOCK_home l0 sb0 Hly v (fresh type inum) Hfo) as Hho. cbn [i_inum fresh setf] in Hho.
  specialize (Hho ltac:(unfold Inode.inum_ok; cbn; lia)).
  apply wp_bind, wp_bread; [apply Hho|rewrite Hh; apply not_elem_of_nil|rewrite Hh; cbn [length]; unfold NBUF; lia|].
  intros bp _. eapply (wp_get_buf _ _ _ _ _ bp (IBLOCK inum sb0)); [by left|exact (blk_lookup v _ (proj1 Hho))|].
  intros buf Hb _. rewrite Hb. fold (dtype v inum). destruct (Z.eqb_spec (dtype v inum) 0) as [Ez|Ez].
  - assert (inum = k) as -> by (destruct (decide (inum = k)); [done|exfalso; apply (Hlo inum); [lia|done]]).
    eapply (wp_log_update _ _ _ _ _ bp); [by left|exact (blk_lookup v _ (proj1 Hho))|done|done|]. rewrite <- (fresh_bytes type k).
    apply wp_bind. eapply wp_brelse; [done|]. eapply wp_iget; [exact He|]. by destruct v.
  - apply wp_bind. eapply wp_brelse; [done|]. replace (_ <| v_held := v_held v |>) with v by (by destruct v).
    assert (inum <> k) by (by intros ->). apply IH; [lia|lia|]. intros j Hj. apply Hlo. lia.
Qed.

(** ** Theorems *)

(** [ialloc] takes the first free inode of the disk, [k]: its dinode gets
    the type asked for with size 0 and no blocks, every other dinode and every
    data block stays, no block changes from free to used or back, and the entry
    of the cache returned names [k]. *)
Theorem ialloc_takes f v type k :
  rep pid l0 sb0 f v -> fs_ok v -> v_held v = [] -> room 1 v -> 0 < type < 2 ^ 15 ->
  unique (v_inodes v) -> Forall (fun i => i_ref i < 2 ^ 31 - 1) (v_inodes v) -> Exists (fun i => i_ref i = 0) (v_inodes v) ->
  1 <= k < sb_ninodes sb0 -> dtype v k = 0 -> (forall j, 1 <= j < k -> dtype v j <> 0) ->
  exists ip f' v', runs pid (ialloc (S fuel) 1 type) [] f ip [] [] f' /\ rep pid l0 sb0 f' v' /\ fs_ok v' /\
    load_dinode (blk v' (IBLOCK k sb0)) (dinode_off k) (fresh type k) = fresh type k /\
    (forall j, inum_ok j -> i_inum j <> k ->
       load_dinode (blk v' (IBLOCK (i_inum j) sb0)) (dinode_off (i_inum j)) j =
       load_dinode (blk v (IBLOCK (i_inum j) sb0)) (dinode_off (i_inum j)) j) /\
    (forall b, datastart <= b < sb_size sb0 -> blk v' b = blk v b /\ (in_use v' b <-> in_use v b)) /\
    unique (v_inodes v') /\ got 1 k (v_inodes v) ip (v_inodes v').
Proof.
  intros Hrep Hfo Hh Hr Hty Hu Hm Hfree Hk H0 Hlo. pose proof (iget_entry_ok 1 k _ Hu Hm) as Hok.
  assert (Hn : inum_ok (fresh type k)) by (unfold Inode.inum_ok; cbn; lia).
  pose proof (IBLOCK_range l0 sb0 Hly _ Hn) as Hib. pose proof (data_start l0 sb0 Hly). pose proof (data_pos l0 sb0 Hly).
  destruct (iget_entry 1 k (v_inodes v)) as [[ip l']|] eqn:E.
  2:{ exfalso. apply Exists_exists in Hfree as (i&Hin&Hz). rewrite Forall_forall in Hok. destruct (Hok i Hin). lia. }
  set (v' := (store_inode sb0 (fresh type k) v) <| v_inodes := l' |>).
  assert (W : wp (ialloc (S fuel) 1 type) v (fun a w => a = ip /\ w = v')).
  { apply wp_get_sb. eapply wp_ialloc_loop with (k := k); try done; lia. }
  destruct (W f Hrep) as (a&f'&w&R&Hf'&->&->). exists ip, f', v'. split_and!; try done; try apply Hok.
  - eapply fs_ok_disk; [|by apply (fs_ok_store_inode l0 sb0 Hly v (fresh type k))]. done.
  - apply (synced_store_inode l0 sb0 Hly v (fresh type k) v); try done; [by apply blank_ok|].
    unfold fields_ok. cbn [i_type i_major i_minor i_nlink fresh setf zero_inode]. repeat constructor; lia.
  - intros j Hj Hne. by apply (load_store_other l0 sb0 Hly v (fresh type k) j).
  - intros b Hb. split; [|by apply (in_use_store l0 sb0 Hly v (fresh type k)); [..|lia]].
    apply (blk_store_inode l0 sb0 Hly v (fresh type k)); [done|done|lia|lia].
Qed.

(** an inode stored by [iupdate], dropped by its last [iput] and looked up
    again is read back from the disk by [ilock] with the fields it had, in a
    cache entry that is then valid, referenced once and locked. *)
Theorem inode_reloaded f v ip i :
  rep pid l0 sb0 f v -> fs_ok v -> inode_ok sb0 v i -> fields_ok i -> inum_ok i -> v_held v = [] -> room 1 v ->
  v_inodes v !! ip = Some i -> i_type i <> 0 -> i_nlink i <> 0 -> i_ref i = 1 ->
  length (v_inodes v) = NINODE -> v_locked v = [] -> unique (v_inodes v) ->
  Forall (fun i => i_ref i < 2 ^ 31 - 1) (v_inodes v) ->
  exists jp f' v', runs pid (iupdate (S fuel) ip ;; iput (S fuel) ip ;;
      jp ← iget 1 (i_inum i); ilock (S fuel) (Some jp) ;; mret jp) [] f jp [] [] f' /\ rep pid l0 sb0 f' v' /\
    v_inodes v' !! jp = Some (i <| i_valid := true |>) /\ v_locked v' = [jp] /\ unique (v_inodes v').
Proof.
  intros Hrep Hfo Hio Hf Hn Hh Hr Hi Hty Hnl Href Hlen Hlk Hu Hm. pose proof Hr as (_&_&H29).
  pose proof (lookup_lt_Some _ _ _ Hi) as Hlt. pose proof (io_dev _ _ _ Hio) as Hd.
  set (v1 := store_inode sb0 i v). pose proof (length_log_add (IBLOCK (i_inum i) sb0) (v_logged v)).
  set (l1 := <[ip := i <| i_ref := 0 |>]> (v_inodes v)).
  destruct (iget_again (v_inodes v) ip i Hu Hm Hi Href) as (jp&i'&Eg&Hu2&Hj&Hi'). rewrite Hd in Eg. fold l1 in Eg.
  destruct Hi' as ((_&Hd'&Hn')&Hr'&Hv').
  assert (El : loaded v1 i' = i <| i_valid := true |>).
  { pose proof (synced_store_inode l0 sb0 Hly v i v Hfo Hn Hio Hf) as Hs. unfold synced, loaded in *. fold v1 in Hs.
    rewrite Hn', (load_dinode_valid _ _ i' i) by congruence. by rewrite Hs. }
  assert (W : wp (iupdate (S fuel) ip ;; iput (S fuel) ip ;; jp ← iget 1 (i_inum i); ilock (S fuel) (Some jp) ;; mret jp) v
    (fun a v' => a = jp /\ v_inodes v' = <[jp := i <| i_valid := true |>]> (<[jp := i']> l1) /\ v_locked v' = [jp])).
  { apply wp_bind. apply (wp_iupdate pid fuel l0 sb0 Hly ip v i); try done.
    apply wp_bind. apply (wp_iput_other _ _ _ _ v1 ip i); [done|lia|change (v_locked v1) with (v_locked v); rewrite Hlk; apply not_elem_of_nil|tauto|].
    rewrite Href. apply wp_bind. apply (wp_iget _ _ _ _ _ _ jp (<[jp := i']> l1)); [done|].
    apply wp_bind. apply (wp_ilock_load _ jp i'); try done; rewrite ?El; try done; try lia.
    - eapply fs_ok_disk; [|by apply (fs_ok_store_inode l0 sb0 Hly v i); [| |apply Hio]]. done.
    - by apply list_lookup_insert_eq.
    - unfold l1 in Hj. rewrite length_insert in Hj. lia.
    - fields. change (v_locked v1) with (v_locked v). rewrite Hlk. apply not_elem_of_nil.
    - cbn. lia.
    - unfold Inode.inum_ok. by rewrite Hn'.
    - change (loaded _ i') with (loaded v1 i'). by rewrite El.
    - apply wp_ret. change (loaded _ i') with (loaded v1 i'). rewrite El. split_and!; [done|done|]. change (jp :: v_locked v = [jp]). by rewrite Hlk. }
  destruct (W f Hrep) as (a&f'&v'&R&Hf'&->&Ein&Elk). exists jp, f', v'. split_and!; [done|done| |done|].
  - rewrite Ein. by apply list_lookup_insert_eq; rewrite length_insert.
  - rewrite Ein, list_insert_insert_eq. rewrite <- (list_insert_insert_eq l1 jp _ i').
    apply unique_rename with i'; [done|by apply list_lookup_insert_eq|by rewrite Hd'|by rewrite Hn'|by rewrite Hr'].
Qed.

(** C29: [iget] keeps the cache free of two entries for one inode.  It returns
    the entry that names the inode with its count up by one, or takes a free
    entry, marked not read, with the other entries unchanged; it panics only
    when the inode is not cached and no entry is free. *)
Theorem iget_unique f v dev inum :
  rep pid l0 sb0 f v -> unique (v_inodes v) -> Forall (fun i => i_ref i < 2 ^ 31 - 1) (v_inodes v) ->
  (exists ip f' l', runs pid (iget dev inum) [] f ip [] [] f' /\ rep pid l0 sb0 f' (v <| v_inodes := l' |>) /\
     unique l' /\ got dev inum (v_inodes v) ip l') \/
  (Forall (fun i => 0 < i_ref i /\ ~ names dev inum i) (v_inodes v) /\
   panics pid l0 sb0 (iget dev inum) v "iget: no inodes").
Proof.
  intros Hrep Hu Hm. pose proof (iget_entry_ok dev inum _ Hu Hm) as Hok.
  destruct (iget_entry dev inum (v_inodes v)) as [[ip l']|] eqn:E.
  - left. destruct Hok as [Hu' Hg].
    destruct (wp_iget pid l0 sb0 v dev inum ip l' (fun a v' => a = ip /\ v' = v <| v_inodes := l' |>) E) with f
      as (a&f'&v'&R&Hf'&->&->); [done|done|]. by exists ip, f', l'.
  - right. split; [done|]. by apply panics_iget.
Qed.

End Icache.

End Icache.
