(* ===== verification/Namei.v ===== *)
(** * Namei: resolving path names (fs.c)

    [namex] walks a path from the root, one directory at a time: it locks the
    inode it is at, looks the next element up, gives the inode up and goes on
    with the one found.  The theorem shows that the inode it ends at is the one
    the directories on the disk map the elements of the path to, for [namei] and
    for [nameiparent], whatever the cache of inodes held before, and that every
    reference and lock taken on the way is given back. *)
From S2P Require Import Prelude KState Kalloc Proc Sleeplock Bio Log Fs Trans Balloc Inode Itrunc Icache Dir.

Module Namei.
Import Sleeplock Bio Log Fs Trans Balloc Inode Itrunc Icache Dir.

(** ** One reference that moves through the cache *)
Definition nfree (l : list inode) : Z := Z.of_nat (length (filter (fun i => i_ref i = 0) l)).
Definition is0 (z : Z) : Z := if z =? 0 then 1 else 0.

Lemma nfree_insert l k i j : l !! k = Some i -> nfree (<[k := j]> l) + is0 (i_ref i) = nfree l + is0 (i_ref j).
Proof.
  intros Hi. pose proof (lookup_lt_Some _ _ _ Hi) as Hlt. unfold nfree, is0.
  pose proof (f_equal nfree (take_drop_middle l k i Hi)) as E. unfold nfree in E.
  rewrite insert_take_drop by done. rewrite filter_app, length_app, filter_cons in E |- *. rewrite <- E.
  destruct (Z.eqb_spec (i_ref i) 0), (Z.eqb_spec (i_ref j) 0); repeat case_decide; try done; simpl; lia.
Qed.

Lemma nfree_exists l : 0 < nfree l -> Exists (fun i => i_ref i = 0) l.
Proof.
  unfold nfree. intros Hn. destruct (filter _ l) as [|i l'] eqn:E; [simpl in Hn; lia|]. apply Exists_exists. exists i.
  assert (Hin : i ∈ filter (fun i => i_ref i = 0) l) by (rewrite E; by left). apply list_elem_of_filter in Hin. tauto.
Qed.

Section Cache.
Context (C : inode -> Prop) (C_ref : forall i r, C i -> C (i <| i_ref := r |>)).

(** The cache while one reference, to entry [o] if any, is in hand: entries that
    are valid hold what is on the disk, and two entries are free or will be. *)
Definition last_ref (l : list inode) (o : option nat) : Z :=
  match o with Some k => match l !! k with Some i => is0 (i_ref i - 1) | None => 0 end | None => 0 end.
Record hand (l : list inode) (o : option nat) : Prop := {
  hd_len : length l = NINODE;
  hd_unique : unique l;
  hd_bound : forall k i, l !! k = Some i -> i_ref i + (if decide (o = Some k) then 0 else 1) < 2 ^ 31 - 1;
  hd_free : 2 <= nfree l + last_ref l o;
  hd_valid : forall k i, l !! k = Some i -> 0 < i_ref i -> i_valid i = true -> C i;
}.
#[local] Arguments hd_len {l o}.
#[local] Arguments hd_unique {l o}.
#[local] Arguments hd_bound {l o}.
#[local] Arguments hd_free {l o}.
#[local] Arguments hd_valid {l o}.

Lemma unique_ref l k i r : unique l -> l !! k = Some i -> 0 <= r -> (0 < r -> 0 < i_ref i) -> unique (<[k := i <| i_ref := r |>]> l).
Proof.
  intros Hu Hi Hr0 Hr. split; [by apply Forall_insert; [apply Hu|]|].
  intros b c x y [(->&<-&Hb)|(Hb&Hx)]%list_lookup_insert_Some [(->&<-&Hc)|(Hc&Hy)]%list_lookup_insert_Some Hx0 Hnm; try done.
  - cbn in *. by apply (un_name _ Hu b c i y); [done|done|apply Hr|].
  - destruct Hnm as (Hq&E1&E2). cbn in *. apply (un_name _ Hu b c x i); [done|done|done|]. unfold names. split_and!; [by apply Hr|done|done].
  - by apply (un_name _ Hu b c x y).
Qed.

(** The cache always has room for one more. *)
Lemma hand_iget l o dev inum : hand l o -> exists jp l', iget_entry dev inum l = Some (jp, l') /\ unique l' /\ got dev inum l jp l'.
Proof.
  intros H. assert (Hm : Forall (fun i => i_ref i < 2 ^ 31 - 1) l).
  { apply Forall_lookup. intros k i Hi. pose proof (hd_bound H k i Hi). case_decide; lia. }
  pose proof (iget_entry_ok dev inum l (hd_unique H) Hm) as Hok. destruct (iget_entry dev inum l) as [[jp l']|]; [by exists jp, l'|].
  exfalso. pose proof (hd_free H) as Hf. assert (Hp : 0 < nfree l).
  { unfold last_ref, is0 in Hf. repeat case_match; lia. }
  apply nfree_exists, Exists_exists in Hp as (i&Hi&H0). rewrite Forall_forall in Hok. destruct (Hok i Hi). lia.
Qed.

(** An entry of [got] that is valid agrees with the disk. *)
Lemma got_valid l o dev inum jp j l' : hand l o -> l' = <[jp := j]> l -> got dev inum l jp l' ->
  forall k i, l' !! k = Some i -> 0 < i_ref i -> i_valid i = true -> C i.
Proof.
  intros H -> (a&Ea&Hlt&Hn&Hm) k i Hk Hr Hv. rewrite Ea in Hk.
  apply list_lookup_insert_Some in Hk as [(->&<-&_)|(Hne&Hk)]; [|by apply (hd_valid H k)].
  destruct (l !! k) as [b|] eqn:Eb; [|done]. case_decide as Hb; [|naive_solver congruence].
  subst a. apply C_ref. apply (hd_valid H k b Eb); [apply Hb|done].
Qed.

(** Taking the reference. *)
Lemma hand_take l dev inum jp l' : hand l None -> unique l' -> got dev inum l jp l' ->
  hand l' (Some jp) /\ exists j, l' !! jp = Some j /\ names dev inum j.
Proof.
  intros H Hu Hg. pose proof Hg as (j&Ej&Hlt&Hn&Hm). pose proof (got_valid l None dev inum jp j l' H Ej Hg) as Hval. subst l'.
  destruct (l !! jp) as [b|] eqn:Eb; [|done]. pose proof (nfree_insert l jp b j Eb) as Hnf. pose proof (hd_free H) as Hfr.
  pose proof (hd_bound H jp b Eb) as Hbd. rewrite decide_False in Hbd by done. cbn [last_ref] in Hfr.
  assert (Hj : i_ref j < 2 ^ 31 - 1 /\ 2 <= nfree (<[jp := j]> l) + is0 (i_ref j - 1)).
  { case_decide as Hb; [destruct Hb; subst j|destruct Hm as (E0&E1&_)]; unfold is0 in *; cbn in *; repeat case_match; lia. }
  split; [|exists j; by rewrite list_lookup_insert_eq]. split; try done.
  - by rewrite length_insert, (hd_len H).
  - intros k i [(->&<-&_)|(Hne&Hk)]%list_lookup_insert_Some; [rewrite decide_True by done; lia|].
    rewrite decide_False by congruence. pose proof (hd_bound H k i Hk). by rewrite decide_False in H0 by done.
  - cbn [last_ref]. rewrite list_lookup_insert_eq by done. apply Hj.
Qed.

(** Giving it back. *)
Lemma hand_drop l ip i : hand l (Some ip) -> l !! ip = Some i -> 0 < i_ref i -> hand (<[ip := i <| i_ref := i_ref i - 1 |>]> l) None.
Proof.
  intros H Hi Hr. pose proof (nfree_insert l ip i (i <| i_ref := i_ref i - 1 |>) Hi) as Hnf. pose proof (hd_free H) as Hfr.
  cbn [last_ref] in Hfr. rewrite Hi in Hfr. split.
  - by rewrite length_insert, (hd_len H).
  - apply unique_ref; [apply H|done|lia|lia].
  - intros k j [(->&<-&_)|(Hne&Hk)]%list_lookup_insert_Some; rewrite decide_False by done.
    + pose proof (hd_bound H k i Hi) as Hb. rewrite decide_True in Hb by done. cbn. lia.
    + pose proof (hd_bound H k j Hk) as Hb. by rewrite decide_False in Hb by congruence.
  - cbn [last_ref]. unfold is0 in *. cbn in *. repeat case_match; lia.
  - intros k j [(->&<-&_)|(Hne&Hk)]%list_lookup_insert_Some Hj Hv; [|by apply (hd_valid H k)].
    apply C_ref, (hd_valid H k i Hi Hr Hv).
Qed.

(** Reading the entry in hand from the disk. *)
Lemma hand_load l ip i j : hand l (Some ip) -> l !! ip = Some i -> i_dev j = i_dev i -> i_inum j = i_inum i -> i_ref j = i_ref i ->
  C j -> hand (<[ip := j]> l) (Some ip).
Proof.
  intros H Hi E1 E2 E3 Hj. pose proof (lookup_lt_Some _ _ _ Hi). pose proof (nfree_insert l ip i j Hi) as Hnf.
  pose proof (hd_free H) as Hfr. cbn [last_ref] in Hfr. rewrite Hi in Hfr. split.
  - by rewrite length_insert, (hd_len H).
  - apply (unique_rename l ip i j); try done. apply H.
  - intros k a [(->&<-&_)|(Hne&Hk)]%list_lookup_insert_Some; [rewrite E3; by apply (hd_bound H)|by apply (hd_bound H)].
  - cbn [last_ref]. rewrite list_lookup_insert_eq by done. rewrite E3 in *. lia.
  - intros k a [(->&<-&_)|(Hne&Hk)]%list_lookup_insert_Some Ha Hv; [done|by apply (hd_valid H k)].
Qed.

(** Exchanging it for another: the next inode is taken before the last is given up. *)
Lemma hand_next l ip i inum jp l' : hand l (Some ip) -> l !! ip = Some i -> 0 < i_ref i -> unique l' -> got 1 inum l jp l' ->
  exists i' , l' !! ip = Some i' /\ 0 < i_ref i' /\ i_valid i' = i_valid i /\ i_nlink i' = i_nlink i /\
    let l2 := <[ip := i' <| i_ref := i_ref i' - 1 |>]> l' in
    hand l2 (Some jp) /\ exists j, l2 !! jp = Some j /\ names 1 inum j.
Proof.
  intros H Hi Hr Hu Hg. pose proof Hg as (a&Ea&Hlt&Hn&Hm). pose proof (got_valid l _ 1 inum jp a l' H Ea Hg) as Hval. subst l'.
  pose proof (lookup_lt_Some _ _ _ Hi) as Hil. destruct (decide (jp = ip)) as [->|Hne].
  - rewrite Hi in Hm. case_decide as Hni; [|lia]. exists a. rewrite list_lookup_insert_eq by done. subst a. split_and!; try done; [cbn; lia|].
    cbv zeta. rewrite list_insert_insert_eq. set (a := i <| i_ref := i_ref i + 1 |>) in *.
    assert (Er : a <| i_ref := i_ref a - 1 |> = i) by (unfold a; cbn [i_ref setf]; rewrite Z.add_simpl_r; by destruct i).
    rewrite Er, list_insert_id by done. split; [done|]. by exists i.
  - exists i. rewrite list_lookup_insert_ne by done. split_and!; try done. cbv zeta.
    destruct (l !! jp) as [b|] eqn:Eb; [|done]. pose proof (nfree_insert l jp b a Eb) as Hnf.
    assert (Hi1 : <[jp := a]> l !! ip = Some i) by (by rewrite list_lookup_insert_ne).
    pose proof (nfree_insert _ ip i (i <| i_ref := i_ref i - 1 |>) Hi1) as Hnf2.
    pose proof (hd_free H) as Hfr. cbn [last_ref] in Hfr. rewrite Hi in Hfr.
    pose proof (hd_bound H jp b Eb) as Hbd. rewrite decide_False in Hbd by congruence.
    split; [split|exists a; by rewrite list_lookup_insert_ne, list_lookup_insert_eq].
    + by rewrite !length_insert, (hd_len H).
    + apply unique_ref; [done|done|lia|lia].
    + intros k c [(->&<-&_)|(Hkn&[(->&<-&_)|(Hkj&Hk)]%list_lookup_insert_Some)]%list_lookup_insert_Some.
      * rewrite decide_False by congruence. pose proof (hd_bound H k i Hi) as Hb. rewrite decide_True in Hb by done. cbn. lia.
      * rewrite decide_True by done. case_decide as Hb; [subst a; cbn; lia|destruct Hm as (?&->&_); lia].
      * rewrite decide_False by congruence. pose proof (hd_bound H k c Hk) as Hb. by rewrite decide_False in Hb by congruence.
    + cbn [last_ref]. rewrite list_lookup_insert_ne, list_lookup_insert_eq by done.
      case_decide as Hb; [destruct Hb; subst a|destruct Hm as (E0&E1&_)]; unfold is0 in *; cbn in *; repeat case_match; lia.
    + intros k c [(->&<-&_)|(Hkn&Hk)]%list_lookup_insert_Some Hc Hv; [|by apply (Hval k)]. apply C_ref, (hd_valid H k i Hi Hr Hv).
Qed.

End Cache.

Section Namei.
Context (pid : Z) (fuel : nat) (l0 : log_t) (sb0 : superblock) {devs : Devices}.
Abbreviation wp := (Trans.wp pid l0 sb0).
Abbreviation layout := (Balloc.layout l0 sb0).
Abbreviation fs_ok := (Balloc.fs_ok sb0).
Abbreviation inode_ok := (Inode.inode_ok sb0).
Context (Hly : layout).

(** ** The tree of directories on the disk *)
Definition node (v : view) (n : Z) : inode :=
  load_dinode (blk v (IBLOCK n sb0)) (dinode_off n) (zero_inode <| i_dev := 1 |> <| i_inum := n |>).
Definition dir_map (v : view) (n : Z) (nm : list Z) : option Z := dmap (entries v (node v n)) nm.

(** A set of inodes that have links, closed under the entries of directories. *)
Record tree (v : view) (N : Z -> Prop) : Prop := {
  tr_inum : forall n, N n -> 0 < n < sb_ninodes sb0;
  tr_inode : forall n, N n -> inode_ok v (node v n);
  tr_used : forall n, N n -> i_type (node v n) <> 0 /\ i_nlink (node v n) <> 0;
  tr_dir : forall n, N n -> i_type (node v n) = T_DIR -> i_size (node v n) `mod` SIZEOF_DIRENT = 0;
  tr_closed : forall n nm m, N n -> i_type (node v n) = T_DIR -> dir_map v n nm = Some m -> N m;
}.
#[local] Arguments tr_inum {v N}.
#[local] Arguments tr_inode {v N}.
#[local] Arguments tr_used {v N}.
#[local] Arguments tr_dir {v N}.
#[local] Arguments tr_closed {v N}.

(** The inode the elements [es] lead to from [n], or the one before the last. *)
Fixpoint resolve (v : view) (parent : bool) (n : Z) (es : list (list Z)) : option Z :=
  match es with
  | [] => if parent then None else Some n
  | e :: es =>
    if i_type (node v n) =? T_DIR then
      if parent && bool_decide (es = []) then Some n
      else m ← dir_map v n (take DIRSIZ e); resolve v parent m es
    else None
  end.

(** A valid entry of the cache holds what is on the disk. *)
Definition coherent (v : view) (i : inode) : Prop := i_dev i = 1 -> synced sb0 v i.
Abbreviation hand v := (Namei.hand (coherent v)).

Lemma coherent_ref v i r : coherent v i -> coherent v (i <| i_ref := r |>).
Proof.
  intros Hc Hd. specialize (Hc Hd). unfold synced in *.
  transitivity ((load_dinode (blk v (IBLOCK (i_inum i) sb0)) (dinode_off (i_inum i)) i) <| i_ref := r |>); [done|by rewrite Hc].
Qed.

(** Entry [i] of the cache, read. *)
Definition cached (v : view) (n : Z) (i : inode) : inode := (node v n) <| i_ref := i_ref i |> <| i_valid := true |>.

Lemma cached_valid v n i : coherent v i -> names 1 n i -> i_valid i = true -> i = cached v n i.
Proof.
  intros Hc (Hr&Hd&Hn) Hv. specialize (Hc Hd). unfold synced in Hc. rewrite Hn in Hc. rewrite <- Hc at 1. unfold cached, node.
  destruct i. cbn in *. by subst.
Qed.

Lemma cached_loaded v n i : names 1 n i -> loaded sb0 v i = cached v n i.
Proof. intros (Hr&Hd&Hn). unfold loaded, cached, node. destruct i. cbn in *. by subst. Qed.

Lemma cached_fields v n i : let c := cached v n i in
  i_dev c = 1 /\ i_inum c = n /\ i_ref c = i_ref i /\ i_valid c = true /\ i_type c = i_type (node v n) /\
  i_nlink c = i_nlink (node v n) /\ i_size c = i_size (node v n) /\ i_addrs c = i_addrs (node v n).
Proof.
  assert (H : i_dev (node v n) = 1 /\ i_inum (node v n) = n) by (unfold node; generalize (blk v (IBLOCK n sb0)); done).
  unfold cached. revert H. generalize (node v n). intros [] [Hd Hn]. cbn in *. by split_and!.
Qed.

Lemma cached_coherent v n i : coherent v (cached v n i).
Proof.
  intros _. unfold synced. destruct (cached_fields v n i) as (_&->&_). unfold cached, node.
  generalize (blk v (IBLOCK n sb0)) (dinode_off n). intros d o. unfold load_dinode.
  generalize (s16 (get16 d o)) (s16 (get16 d (o + 2))) (s16 (get16 d (o + 4))) (s16 (get16 d (o + 6))) (get32 d (o + 8))
    ((fun k => get32 d (o + 12 + 4 * k)) <$> seq 0 13). intros. by vm_compute.
Qed.

Lemma inode_ok_same_fields v v' i i' : v_disk v' = v_disk v -> i_addrs i' = i_addrs i -> i_dev i' = i_dev i -> i_size i' = i_size i ->
  inode_ok v i -> inode_ok v' i'.
Proof.
  intros E Ea Ed Es [H1 H2 H3 H4 H5 H6]. split; unfold in_use, bit_of, slot, naddr, blk in *; rewrite ?E, ?Ea, ?Ed, ?Es; done.
Qed.

Lemma entries_same v v' i i' : v_disk v' = v_disk v -> i_addrs i' = i_addrs i -> i_size i' = i_size i -> entries v' i' = entries v i.
Proof.
  intros E Ea Es. unfold entries, nents. rewrite Es. apply list_fmap_ext. intros k x _. unfold entry, slice, fbyte, slot, naddr, blk.
  by rewrite E, Ea.
Qed.

(** ** Locking and giving up the entry in hand *)
Lemma wp_ilock_valid v ip i Q : v_inodes v !! ip = Some i -> (ip < NINODE)%nat -> ip ∉ v_locked v -> 0 < i_ref i -> i_valid i = true ->
  Q tt (v <| v_locked := ip :: v_locked v |>) -> wp (ilock (S fuel) (Some ip)) v Q.
Proof.
  intros Hi Hip Hlk Hr Hv HQ. unfold ilock. apply (wp_get_inode _ _ _ _ _ ip i); [done|]. rewrite (proj2 (Z.ltb_ge _ _)) by lia.
  apply wp_bind, wp_acquiresleep; [done..|]. apply (wp_get_inode _ _ _ _ _ ip i); [done|]. rewrite Hv. by apply wp_ret.
Qed.

Lemma wp_iunlock v ip i Q : v_inodes v !! ip = Some i -> (ip < NINODE)%nat -> v_locked v = [ip] -> 0 < i_ref i ->
  Q tt (v <| v_locked := [] |>) -> wp (iunlock (Some ip)) v Q.
Proof.
  intros Hi Hip Hlk Hr HQ. unfold iunlock. apply wp_bind, wp_holdingsleep; [done|rewrite Hlk; by left|].
  apply (wp_get_inode _ _ _ _ _ ip i); [done|]. rewrite (proj2 (Z.ltb_ge _ _)) by lia. cbn [negb orb].
  apply wp_releasesleep; [done|]. rewrite Hlk, filter_cons_False by naive_solver. done.
Qed.

Lemma wp_iunlockput v ip i Q : v_inodes v !! ip = Some i -> (ip < NINODE)%nat -> v_locked v = [ip] -> 0 < i_ref i -> i_nlink i <> 0 ->
  Q tt (v <| v_locked := [] |> <| v_inodes := <[ip := i <| i_ref := i_ref i - 1 |>]> (v_inodes v) |>) ->
  wp (iunlockput (S fuel) ip) v Q.
Proof.
  intros Hi Hip Hlk Hr Hnl HQ. unfold iunlockput. apply wp_bind. apply (wp_iunlock v ip i); try done.
  apply (wp_iput_other pid fuel l0 sb0 _ ip i); [done|done|apply not_elem_of_nil|tauto|done].
Qed.

(** ** The walk *)
Section Walk.
Context (v : view) (N : Z -> Prop) (Hfo : fs_ok v) (Ht : tree v N).
Context (Hlg : (length (v_logged v) <= 29)%nat) (Hhe : v_held v = []) (Hlk : v_locked v = []).

(** The view with other inodes in the cache, and with [ip] locked. *)
Definition at_cache (l : list inode) : view := v <| v_inodes := l |>.
Definition at_locked (ip : nat) (l : list inode) : view := v <| v_locked := [ip] |> <| v_inodes := l |>.

Lemma wp_ilock_hand l ip i n Q : hand v l (Some ip) -> l !! ip = Some i -> names 1 n i -> N n ->
  (let l1 := <[ip := cached v n i]> l in hand v l1 (Some ip) -> Q tt (at_locked ip l1)) ->
  wp (ilock (S fuel) (Some ip)) (at_cache l) Q.
Proof.
  intros Hh Hi Hn HN HQ. cbv zeta in HQ. pose proof (lookup_lt_Some _ _ _ Hi) as Hlt. rewrite (hd_len _ _ _ Hh) in Hlt.
  assert (Hld : hand v (<[ip := cached v n i]> l) (Some ip)).
  { destruct Hn as (?&Hd&Hm), (cached_fields v n i) as (F1&F2&F3&_). apply (hand_load _ _ ip i); try congruence. apply cached_coherent. }
  specialize (HQ Hld). destruct (i_valid i) eqn:Hv.
  - apply (wp_ilock_valid _ ip i); try done; [change (ip ∉ v_locked v); rewrite Hlk; apply not_elem_of_nil|apply Hn|].
    pose proof (cached_valid v n i (hd_valid _ _ _ Hh ip i Hi (proj1 Hn) Hv) Hn Hv) as E. rewrite <- E, list_insert_id in HQ by done.
    unfold at_cache, at_locked in *. cbn [v_locked setf]. rewrite Hlk. by destruct v.
  - assert (El : loaded sb0 (at_cache l) i = cached v n i) by (rewrite <- (cached_loaded v n i) by done; done).
    destruct (cached_fields v n i) as (_&_&_&_&Ety&_).
    destruct Hn as (Hr&Hd&Hm). apply (wp_ilock_load pid fuel l0 sb0 Hly _ ip i); try done; rewrite ?El.
    + by apply (fs_ok_disk sb0 v).
    + change (ip ∉ v_locked v). rewrite Hlk. apply not_elem_of_nil.
    + unfold inum_ok. rewrite Hm. by apply (tr_inum Ht).
    + rewrite Ety. apply (tr_used Ht n HN).
    + unfold at_cache, at_locked in *. cbn [v_locked setf]. rewrite Hlk. by destruct v.
Qed.

(** The directory just locked. *)
Lemma cached_dir l ip n i : N n -> i_type (node v n) = T_DIR -> is_dir sb0 (at_locked ip l) (cached v n i) /\
  entries (at_locked ip l) (cached v n i) = entries v (node v n).
Proof.
  intros HN Hty. destruct (cached_fields v n i) as (F1&F2&F3&F4&F5&F6&F7&F8). pose proof (tr_inode Ht n HN) as Hio.
  pose proof (io_dev _ _ _ Hio) as Hd. pose proof (tr_dir Ht n HN Hty) as Hs. revert F1 F2 F3 F4 F5 F6 F7 F8 Hio Hd Hs Hty.
  generalize (cached v n i) (node v n). intros c d F1 F2 F3 F4 F5 F6 F7 F8 Hio Hd Hs Hty. split.
  - split; [apply (inode_ok_same_fields v _ d); (done || congruence)|congruence|congruence].
  - by apply entries_same.
Qed.

(** [dirlookup] in it: a reference to the inode the name stands for. *)
Lemma wp_lookup_hand l ip n i name Q : N n -> i_type (node v n) = T_DIR -> readable DIRSIZ name ->
  hand v l (Some ip) -> l !! ip = Some (cached v n i) ->
  match dir_map v n (cname DIRSIZ name) with
  | None => Q None (at_locked ip l)
  | Some m => forall jp l' off, unique l' -> got 1 m l jp l' -> Q (Some (jp, off)) (at_locked ip l')
  end -> wp (dirlookup (S fuel) ip name) (at_locked ip l) Q.
Proof.
  intros HN Hty Hrd Hh Hi HQ. destruct (cached_dir l ip n i HN Hty) as [Hd He]. revert Hi Hd He. generalize (cached v n i). intros c Hi Hd He.
  apply (wp_dirlookup pid fuel l0 sb0 Hly _ ip c); try done; [by apply (fs_ok_disk sb0 v)|]. unfold looked. rewrite drop_0.
  unfold dir_map, dmap in HQ. rewrite <- He in HQ. destruct (find_index _ _) as [k|] eqn:Hk; [|done]. cbn [mbind option_bind] in HQ.
  apply find_index_Some in Hk as (e&Hek&_). rewrite Hek in HQ. cbn [mbind option_bind] in HQ.
  pose proof (lookup_lt_Some _ _ _ Hek) as Hlt. rewrite length_entries in Hlt. rewrite entries_lookup in Hek by done.
  injection Hek as <-. cbn [Nat.add]. destruct (hand_iget _ l (Some ip) 1 (de_inum (entry (at_locked ip l) c k)) Hh) as (jp&l'&Eg&Hu&Hg).
  exists jp, l'. split; [done|]. by apply HQ.
Qed.

(** Where a walk that should end at [o] ends: with one reference to this inode
    in hand, or none, and for a parent with the last element in [name]. *)
Definition ends (parent : bool) (o : option Z) (es : list (list Z)) (len : nat) (res : option nat * list Z) (l : list inode) : Prop :=
  match o with
  | Some m => exists jp j, res.1 = Some jp /\ hand v l (Some jp) /\ l !! jp = Some j /\ names 1 m j
  | None => res.1 = None /\ hand v l None
  end /\ length res.2 = len /\
  forall e, parent = true -> o <> None -> last es = Some e -> cname DIRSIZ res.2 = take DIRSIZ e.

Lemma unlocked ip l l' : (at_locked ip l) <| v_locked := [] |> <| v_inodes := l' |> = at_cache l'.
Proof. unfold at_locked, at_cache. destruct v. cbn in *. by subst. Qed.

Lemma unlocked_only ip l : (at_locked ip l) <| v_locked := [] |> = at_cache l.
Proof. unfold at_locked, at_cache. destruct v. cbn in *. by subst. Qed.

(** Giving up the directory just locked. *)
Lemma wp_quit l ip n i (name : list Z) parent es Q : N n -> hand v l (Some ip) -> l !! ip = Some (cached v n i) -> 0 < i_ref i ->
  (forall l', ends parent None es (length name) (None, name) l' -> Q (None, name) (at_cache l')) ->
  wp (iunlockput (S fuel) ip ;; mret (None : option nat, name)) (at_locked ip l) Q.
Proof.
  intros HN Hh Hi Hr HQ. pose proof (lookup_lt_Some _ _ _ Hi) as Hlt. rewrite (hd_len _ _ _ Hh) in Hlt.
  destruct (cached_fields v n i) as (_&_&F3&_&_&F6&_&_). destruct (tr_used Ht n HN) as [_ Hnl]. rewrite <- F6 in Hnl. rewrite <- F3 in Hr.
  revert Hi Hnl Hr. generalize (cached v n i). intros c Hi Hnl Hr.
  apply wp_bind. apply (wp_iunlockput _ ip c); try done. apply wp_ret.
  change (v_inodes (at_locked ip l)) with l. rewrite unlocked. apply HQ. split_and!; try done.
  by apply (hand_drop _ (coherent_ref v)).
Qed.

Lemma wp_namex_loop k l ip i n path parent name Q : hand v l (Some ip) -> l !! ip = Some i -> names 1 n i -> N n ->
  0 ∉ path -> (DIRSIZ <= length name)%nat -> (length path < k)%nat ->
  (forall res l', ends parent (resolve v parent n (elems path)) (elems path) (length name) res l' -> Q res (at_cache l')) ->
  wp (namex_loop (S fuel) k ip path parent name) (at_cache l) Q.
Proof.
  revert l ip i n path name. induction k as [|k IH]; intros l ip i n path name Hh Hi Hn HN H0 Hl Hk HQ; [lia|]. cbn [namex_loop].
  pose proof (lookup_lt_Some _ _ _ Hi) as Hlt. rewrite (hd_len _ _ _ Hh) in Hlt.
  pose proof (skipelem_ok path name H0 Hl) as Hsk. destruct (elems path) as [|e es] eqn:Ees.
  - rewrite Hsk. destruct parent; [|apply wp_ret, HQ; split; [by exists ip, i|by split]].
    apply wp_bind. apply (wp_iput_other pid fuel l0 sb0 _ ip i); try done.
    + change (ip ∉ v_locked v). rewrite Hlk. apply not_elem_of_nil.
    + destruct (i_valid i) eqn:Hv; [|by left]. right. left.
      pose proof (cached_valid v n i (hd_valid _ _ _ Hh ip i Hi (proj1 Hn) Hv) Hn Hv) as E.
      destruct (cached_fields v n i) as (_&_&_&_&_&F6&_&_). rewrite <- E in F6. rewrite F6. apply (tr_used Ht n HN).
    + apply wp_ret. change (v_inodes (at_cache l)) with l. apply (HQ (None, name)). split; [|by split].
      split; [done|]. apply (hand_drop _ (coherent_ref v)); [done|done|apply Hn].
  - destruct Hsk as (rest&name'&Esk&Hs1&Hs2&Hs3&Hs4&Hs5&Hs6&Hs7). rewrite Esk. rewrite Ees in Hs1, Hs2. cbn [tail] in Hs1, Hs2.
    apply wp_bind. apply (wp_ilock_hand l ip i n); try done. cbv zeta. set (l1 := <[ip := cached v n i]> l). intros Hh1.
    assert (Hi1 : l1 !! ip = Some (cached v n i)) by (apply list_lookup_insert_eq; by eapply lookup_lt_Some).
    apply (wp_get_inode _ _ _ _ _ ip (cached v n i)); [done|].
    destruct (cached_fields v n i) as (_&_&F3&_&F5&F6&_&_). rewrite F5. cbn [resolve] in HQ.
    destruct (Z.eqb_spec (i_type (node v n)) T_DIR) as [Hty|Hty]; cbn [negb].
    2:{ apply (wp_quit l1 ip n i name' parent (e :: es)); try done; [apply Hn|]. intros l' He. apply HQ. by rewrite <- Hs7. }
    replace (bool_decide (rest = [])) with (bool_decide (es = [])) by (apply bool_decide_ext; symmetry; apply Hs2).
    destruct (parent && bool_decide (es = [])) eqn:Hst.
    + apply andb_true_iff in Hst as [-> Hes%bool_decide_eq_true]. subst es. apply wp_bind.
      apply (wp_iunlock _ ip (cached v n i)); [done|done|done|rewrite F3; apply Hn|]. rewrite unlocked_only. apply wp_ret, HQ.
      split; [exists ip, (cached v n i)|split]; [|done|by intros e' _ _ [= <-]].
      split_and!; try done. destruct Hn as (?&?&?), (cached_fields v n i) as (G1&G2&_). unfold names. by rewrite F3.
    + apply wp_bind. rewrite <- Hs6 in HQ. apply (wp_lookup_hand l1 ip n i name'); try done.
      { apply readable_length. by rewrite Hs7. }
      destruct (dir_map v n (cname DIRSIZ name')) as [m|] eqn:Em; cbn [mbind option_bind] in HQ.
      2:{ apply (wp_quit l1 ip n i name' parent (e :: es)); try done; [apply Hn|]. intros l' He. apply HQ. by rewrite <- Hs7. }
      intros jp l' off Hu Hg. cbv beta iota.
      destruct (hand_next _ (coherent_ref v) l1 ip _ m jp l' Hh1 Hi1 ltac:(rewrite F3; apply Hn) Hu Hg) as (i'&Hi'&Hr'&_&Hnl'&Hh2&j&Hj&Hnj).
      destruct (tr_used Ht n HN) as [_ Hnl]. rewrite <- F6, <- Hnl' in Hnl. apply wp_bind.
      apply (wp_iunlockput _ ip i'); try done. change (v_inodes (at_locked ip l')) with l'. rewrite unlocked.
      apply (IH _ jp j m rest name'); try done; [by eapply (tr_closed Ht)|by rewrite Hs7|lia|].
      intros res l2 (He1&He2&He3). apply HQ. rewrite Hs1 in He1, He3. split; [done|]. split; [congruence|].
      intros e' Hp Hne Hla. apply He3; [done|done|]. rewrite Hp in Hst. cbn [andb] in Hst. apply bool_decide_eq_false in Hst.
      destruct es; [done|]. done.
Qed.

End Walk.

(** ** Theorem *)

(** C11: [namex] of an absolute path returns the inode that the directories on
    the disk lead to from the root, element by element, each cut to 14
    characters: for [namei] the inode of the whole path, for [nameiparent] the
    directory before the last element with this element in [name]; null when
    an element is missing or is not a directory.  The cache then holds one more
    reference, to the inode returned, or none, no inode is locked, no block is
    changed, and the cache still agrees with the disk. *)
Theorem namex_resolves f v N path parent name :
  rep pid l0 sb0 f v -> fs_ok v -> tree v N -> N ROOTINO -> (length (v_logged v) <= 29)%nat -> v_held v = [] -> v_locked v = [] ->
  hand v (v_inodes v) None -> head path = Some SLASH -> 0 ∉ path -> (DIRSIZ <= length name)%nat ->
  exists f' res l', runs pid (namex (S fuel) path parent name) [] f res [] [] f' /\ rep pid l0 sb0 f' (v <| v_inodes := l' |>) /\
    ends v parent (resolve v parent ROOTINO (elems path)) (elems path) (length name) res l'.
Proof.
  intros Hrep Hfo Ht HN Hlg Hhe Hlk Hh Hhd H0 Hl.
  destruct (hand_iget _ _ None ROOTDEV ROOTINO Hh) as (ip&l&Eg&Hu&Hg).
  destruct (hand_take _ (coherent_ref v) _ _ _ _ _ Hh Hu Hg) as (Hh1&i&Hi&Hn).
  assert (W : wp (namex (S fuel) path parent name) v (fun res w => exists l', w = v <| v_inodes := l' |> /\
    ends v parent (resolve v parent ROOTINO (elems path)) (elems path) (length name) res l')).
  { unfold namex. rewrite bool_decide_true by done. apply wp_bind. eapply wp_iget; [exact Eg|].
    apply (wp_namex_loop v N Hfo Ht Hlg Hhe Hlk _ l ip i ROOTINO); try done; [lia|]. intros res l' He. by exists l'. }
  destruct (W f Hrep) as (res&f'&w&R&Hf'&l'&->&He). by exists f', res, l'.
Qed.

End Namei.

End Namei.
