(* ===== verification/Sysfile.v ===== *)
(** * Sysfile: system calls on paths (sysfile.c)

    link, unlink, open, mkdir, mknod and chdir, from the values of their
    arguments on; paths are the strings [argstr] finds.  [create] is their
    common part.  [Syscall] fetches the arguments. *)
From S2P Require Import Prelude Queue KState Kalloc Proc Sleeplock Bio Log File Fs.

(** ** fcntl.h *)
Definition O_RDONLY : Z := 0x000.
Definition O_WRONLY : Z := 0x001.
Definition O_RDWR : Z := 0x002.
Definition O_CREATE : Z := 0x200.

Module Sysfile.
Import Sleeplock Bio Log Fs.

(** [omode & flag] *)
Definition flag (omode bit : Z) : bool := negb (Z.land omode bit =? 0).

Section Code.
Context (fuel : nat) {devs : Devices} {stk : Stack}.

Definition DOT : list Z := [46; 0].
Definition DOTDOT : list Z := [46; 46; 0].

(** [goto bad] of [sys_link]. *)
Definition link_bad (ip : nat) : M Z :=
  ilock fuel (Some ip) ;;
  set_inode ip (fun i => i <| i_nlink := s16 (i_nlink i - 1) |>) ;;
  iupdate fuel ip ;;
  iunlockput fuel ip ;;
  end_op fuel ;;
  mret (-1).

Definition sys_link (old new : list Z) : M Z :=
  begin_op fuel ;;
  o ← namei fuel old;
  match o with
  | None => end_op fuel ;; mret (-1)
  | Some ip =>
    ilock fuel (Some ip) ;;
    i ← get_inode ip;
    if i_type i =? T_DIR then iunlockput fuel ip ;; end_op fuel ;; mret (-1) else
    set_inode ip (fun i => i <| i_nlink := s16 (i_nlink i + 1) |>) ;;
    iupdate fuel ip ;;
    iunlock (Some ip) ;;
    '(o, name) ← nameiparent fuel new (uninit DIRSIZ);
    match o with
    | None => link_bad ip
    | Some dp =>
      ilock fuel (Some dp) ;;
      d ← get_inode dp; i ← get_inode ip;
      r ← (if negb (i_dev d =? i_dev i) then mret (-1) else dirlink fuel dp name (i_inum i));
      if r <? 0 then iunlockput fuel dp ;; link_bad ip else
      iunlockput fuel dp ;;
      iput fuel ip ;;
      end_op fuel ;;
      mret 0
    end
  end.

(** [for(off=2*sizeof(de); off<dp->size; off+=sizeof(de))] *)
Fixpoint isdirempty_loop (k : nat) (dp : nat) (off : Z) : M bool :=
  match k with
  | O => fault "isdirempty: fuel"
  | S k =>
    d ← get_inode dp;
    if off <? i_size d then
      '(n, de) ← readi fuel dp off SIZEOF_DIRENT;
      if negb (n =? SIZEOF_DIRENT) then panic "isdirempty: readi" else
      if negb (de_inum de =? 0) then mret false else isdirempty_loop k dp (off + SIZEOF_DIRENT)
    else mret true
  end.
Definition isdirempty (dp : nat) : M bool :=
  d ← get_inode dp; isdirempty_loop (dir_fuel d) dp (2 * SIZEOF_DIRENT).

(** [goto bad] of [sys_unlink]. *)
Definition unlink_bad (dp : nat) : M Z := iunlockput fuel dp ;; end_op fuel ;; mret (-1).

Definition sys_unlink (path : list Z) : M Z :=
  begin_op fuel ;;
  '(o, name) ← nameiparent fuel path (uninit DIRSIZ);
  match o with
  | None => end_op fuel ;; mret (-1)
  | Some dp =>
    ilock fuel (Some dp) ;;
    c1 ← need (namecmp name DOT) "namecmp";
    c2 ← need (namecmp name DOTDOT) "namecmp";
    if (c1 =? 0) || (c2 =? 0) then unlink_bad dp else
    r ← dirlookup fuel dp name;
    match r with
    | None => unlink_bad dp
    | Some (ip, off) =>
      ilock fuel (Some ip) ;;
      i ← get_inode ip;
      if i_nlink i <? 1 then panic "unlink: nlink < 1" else
      e ← (if i_type i =? T_DIR then isdirempty ip else mret true);
      if negb e then iunlockput fuel ip ;; unlink_bad dp else
      n ← writei fuel dp (zero_bytes SIZEOF_DIRENT) off SIZEOF_DIRENT;
      if negb (n =? SIZEOF_DIRENT) then panic "unlink: writei" else
      i ← get_inode ip;
      (if i_type i =? T_DIR then
         set_inode dp (fun d => d <| i_nlink := s16 (i_nlink d - 1) |>) ;; iupdate fuel dp
       else mret tt) ;;
      iunlockput fuel dp ;;
      set_inode ip (fun i => i <| i_nlink := s16 (i_nlink i - 1) |>) ;;
      iupdate fuel ip ;;
      iunlockput fuel ip ;;
      end_op fuel ;;
      mret 0
    end
  end.

(** The inode is returned locked. *)
Definition create (path : list Z) (type major minor : Z) : M (option nat) :=
  '(o, name) ← nameiparent fuel path (uninit DIRSIZ);
  match o with
  | None => mret None
  | Some dp =>
    ilock fuel (Some dp) ;;
    r ← dirlookup fuel dp name;
    match r with
    | Some (ip, _) =>
      iunlockput fuel dp ;;
      ilock fuel (Some ip) ;;
      i ← get_inode ip;
      if (type =? T_FILE) && (i_type i =? T_FILE) then mret (Some ip) else
      iunlockput fuel ip ;; mret None
    | None =>
      d ← get_inode dp;
      ip ← ialloc fuel (i_dev d) type;
      ilock fuel (Some ip) ;;
      set_inode ip (fun i => i <| i_major := s16 major |> <| i_minor := s16 minor |> <| i_nlink := 1 |>) ;;
      iupdate fuel ip ;;
      (if type =? T_DIR then
         set_inode dp (fun d => d <| i_nlink := s16 (i_nlink d + 1) |>) ;;
         iupdate fuel dp ;;
         i ← get_inode ip;
         r ← dirlink fuel ip DOT (i_inum i);
         r ← (if r <? 0 then mret r else d ← get_inode dp; dirlink fuel ip DOTDOT (i_inum d));
         if r <? 0 then panic "create dots" else mret tt
       else mret tt) ;;
      i ← get_inode ip;
      r ← dirlink fuel dp name (i_inum i);
      if r <? 0 then panic "create: dirlink" else
      iunlockput fuel dp ;;
      mret (Some ip)
    end
  end.

(** The file opened, from the locked inode on. *)
Definition open_file (ip : nat) (omode : Z) : M Z :=
  o ← File.filealloc;
  fd ← match o with Some f => File.fdalloc f | None => mret (-1) end;
  if fd <? 0 then
    match o with Some f => @File.fileclose (fs_inodes fuel) f | None => mret tt end ;;
    iunlockput fuel ip ;; end_op fuel ;; mret (-1)
  else
  f ← need o "f";
  iunlock (Some ip) ;;
  end_op fuel ;;
  File.set_file f (fun f => f <| f_type := FD_INODE |> <| f_ip := Some ip |> <| f_off := 0 |>
    <| f_readable := negb (flag omode O_WRONLY) |>
    <| f_writable := flag omode O_WRONLY || flag omode O_RDWR |>) ;;
  mret fd.

Definition sys_open (path : list Z) (omode : Z) : M Z :=
  begin_op fuel ;;
  if flag omode O_CREATE then
    o ← create path T_FILE 0 0;
    match o with
    | None => end_op fuel ;; mret (-1)
    | Some ip => open_file ip omode
    end
  else
    o ← namei fuel path;
    match o with
    | None => end_op fuel ;; mret (-1)
    | Some ip =>
      ilock fuel (Some ip) ;;
      i ← get_inode ip;
      if (i_type i =? T_DIR) && negb (omode =? O_RDONLY) then iunlockput fuel ip ;; end_op fuel ;; mret (-1)
      else open_file ip omode
    end.

(** The end of [mkdir] and [mknod]. *)
Definition made (o : option nat) : M Z :=
  match o with
  | None => end_op fuel ;; mret (-1)
  | Some ip => iunlockput fuel ip ;; end_op fuel ;; mret 0
  end.

(** The end of [chdir], from the inode of the path on. *)
Definition enter_dir (curproc : nat) (o : option nat) : M Z :=
  match o with
  | None => end_op fuel ;; mret (-1)
  | Some ip =>
    ilock fuel (Some ip) ;;
    i ← get_inode ip;
    if negb (i_type i =? T_DIR) then iunlockput fuel ip ;; end_op fuel ;; mret (-1) else
    iunlock (Some ip) ;;
    pr ← Proc.get_proc curproc;
    (cwd ← need (p_cwd pr) "curproc->cwd"; iput fuel cwd) ;;
    end_op fuel ;;
    Proc.set_proc curproc (fun pr => pr <| p_cwd := Some ip |>) ;;
    mret 0
  end.

End Code.

End Sysfile.
