(* ===== verification/FsDemo.v ===== *)
(** * FsDemo: a small file system

    A disk of 70 blocks laid out as mkfs does it, with a root directory, a file
    and a file whose last link is gone, all three in the cache of inodes, in a
    transaction that has logged nothing yet.  The invariants of Trans, Balloc and
    Inode are checked on it by evaluation, and the theorems on the file system
    are applied to it. *)
From S2P Require Import Prelude KState Kalloc Proc Sleeplock Bio Log Fs Trans Balloc Inode Itrunc Icache Dir Namei.

Module FsDemo.
Import Sleeplock Bio Log Fs Trans Balloc Inode Itrunc Icache Dir Namei.

(** ** Checking the invariants *)
Lemma boot_rep pid m l sb ic : geometry m l -> lh_n l = 0 -> length (lh_block l) = 30%nat ->
  rep pid l sb ((boot m) <| log := l |> <| KState.sb := sb |> <| icache := ic |>) (mkView [] m [] ic []).
Proof.
  intros Hg Hn Hl. exists m, ∅. split; cbn [v_held v_disk v_logged v_inodes v_locked log KState.sb icache bufs sleeplocks setf boot]; try done.
  - eapply cache_ok_frame; [..|apply (boot_cache pid m)]; try done. vm_compute. lia.
  - split; [done|by exists (lh_block l)|done| |constructor|constructor]. intros b. rewrite lookup_empty. split; [set_solver|by intros [? ?]].
  - intros a. unfold content. rewrite lookup_empty, Nat2Z.id. done.
  - constructor.
  - intros i bn Hin. by apply not_elem_of_nil in Hin.
  - intros ip Hip. exists (mkSleeplock false 0). split; [|by rewrite decide_False by apply not_elem_of_nil].
    apply lookup_replicate. unfold ilk, NBUF, NINODE in *. split; [done|lia].
Qed.

Section Check.
Context (sb0 : superblock).

Definition usedb (v : view) (b : Z) : bool := match bit_of sb0 v b with Some true => true | _ => false end.

Lemma usedb_ok v b : usedb v b = true -> in_use sb0 v b.
Proof. unfold usedb, in_use. by destruct (bit_of sb0 v b) as [[]|]. Qed.

Lemma check_range (P : Z -> bool) a n k : forallb P (seqZ a n) = true -> a <= k < a + n -> P k = true.
Proof. intros H Hk. rewrite forallb_forall in H. apply H. apply list_elem_of_In, elem_of_seqZ. lia. Qed.

Definition fs_okb (v : view) : bool :=
  (sb_size sb0 <=? Z.of_nat (length (v_disk v))) && forallb (fun d => Nat.eqb (length d) 512) (v_disk v) &&
  forallb (usedb v) (seqZ 0 (datastart sb0)).

Lemma fs_okb_ok v : fs_okb v = true -> fs_ok sb0 v.
Proof.
  unfold fs_okb. rewrite !andb_true_iff, Z.leb_le, !forallb_forall. intros [[Hs Hb] Hm]. split; [done| |].
  - intros bn d Hd. apply Nat.eqb_eq, Hb, list_elem_of_In. by eapply list_elem_of_lookup_2.
  - intros b Hbr. apply usedb_ok, Hm, list_elem_of_In, elem_of_seqZ. lia.
Qed.

Definition inode_okb (v : view) (i : inode) : bool :=
  Nat.eqb (length (i_addrs i)) 13 && (i_dev i =? 1) && (0 <=? i_size i) && (i_size i <=? MAXFILE * BSIZE) &&
  forallb (fun n => let a := slot v i n in (a =? 0) ||
    ((datastart sb0 <=? a) && (a <? sb_size sb0) && usedb v a &&
     forallb (fun m => negb (a =? slot v i m) || (n =? m)) (seqZ 0 (MAXFILE + 1)))) (seqZ 0 (MAXFILE + 1)) &&
  forallb (fun n => negb (n * BSIZE <? i_size i) || negb (slot v i n =? 0)) (seqZ 0 MAXFILE).

Lemma inode_okb_ok v i : inode_okb v i = true -> inode_ok sb0 v i.
Proof.
  unfold inode_okb. rewrite !andb_true_iff, Nat.eqb_eq, Z.eqb_eq, !Z.leb_le. intros [[[[[Hl Hd] H0] Hs] Ht] Hf].
  assert (Hn : forall n, 0 <= n <= MAXFILE -> slot v i n <> 0 -> datastart sb0 <= slot v i n < sb_size sb0 /\
    in_use sb0 v (slot v i n) /\ forall m, 0 <= m <= MAXFILE -> slot v i n = slot v i m -> n = m).
  { intros n Hn Hnz. apply (check_range _ _ _ n) in Ht; [|lia]. cbv zeta beta in Ht.
    rewrite orb_true_iff, Z.eqb_eq, !andb_true_iff, Z.leb_le, Z.ltb_lt in Ht. destruct Ht as [|[[[? ?] Hu] Hi]]; [done|].
    split_and!; [done|done|by apply usedb_ok|]. intros m Hm E. apply (check_range _ _ _ m) in Hi; [|lia].
    rewrite orb_true_iff, negb_true_iff, Z.eqb_neq, Z.eqb_eq in Hi. by destruct Hi. }
  split; try done.
  - intros n Hr Hnz. by destruct (Hn n Hr Hnz) as (?&?&_).
  - intros n m Hr Hm Hnz E. destruct (Hn n Hr Hnz) as (_&_&Hi). by apply Hi.
  - intros n Hr Hlt. apply (check_range _ _ _ n) in Hf; [|unfold BSIZE in *; lia].
    rewrite orb_true_iff, !negb_true_iff, Z.ltb_ge, Z.eqb_neq in Hf. destruct Hf; [lia|done].
Qed.

Definition freeb (v : view) (b : Z) : bool := match bit_of sb0 v b with Some false => true | _ => false end.

Lemma avail_mono k k' v : avail sb0 k v -> (k' <= k)%nat -> avail sb0 k' v.
Proof. intros (l&Hnd&Hl&Hf) Hk. exists l. split_and!; [done|lia|done]. Qed.

Lemma availb_ok k v a n : 0 <= a -> a + n <= sb_size sb0 -> forallb (freeb v) (seqZ a n) = true -> (k <= Z.to_nat n)%nat -> avail sb0 k v.
Proof.
  intros Ha Hs Hf Hk. exists (seqZ a n). split_and!; [apply NoDup_seqZ|by rewrite length_seqZ|].
  apply Forall_forall. intros c [Hc Hc']%elem_of_seqZ. split; [lia|]. apply (check_range _ _ _ c) in Hf; [|lia].
  unfold freeb, free in *. by destruct (bit_of sb0 v c) as [[]|].
Qed.

Definition uniqueb (l : list inode) : bool :=
  forallb (fun i => 0 <=? i_ref i) l &&
  forallb (fun a => forallb (fun b => match l !! a, l !! b with
    | Some i, Some j => negb ((0 <? i_ref i) && (0 <? i_ref j) && (i_dev j =? i_dev i) && (i_inum j =? i_inum i)) || Nat.eqb a b
    | _, _ => true
    end) (seq 0 (length l))) (seq 0 (length l)).

Lemma uniqueb_ok l : uniqueb l = true -> unique l.
Proof.
  unfold uniqueb. rewrite andb_true_iff, !forallb_forall. intros [Hr Hn]. split.
  - apply Forall_forall. intros i Hi. apply Z.leb_le, Hr. by apply list_elem_of_In.
  - intros a b i j Hi Hj Hp (Hq&E1&E2).
    specialize (Hn a ltac:(apply in_seq; pose proof (lookup_lt_Some _ _ _ Hi); lia)). rewrite forallb_forall in Hn.
    specialize (Hn b ltac:(apply in_seq; pose proof (lookup_lt_Some _ _ _ Hj); lia)). rewrite Hi, Hj, E1, E2, !Z.eqb_refl in Hn.
    rewrite !(proj2 (Z.ltb_lt _ _)) in Hn by done. by apply Nat.eqb_eq.
Qed.

End Check.

(** ** The disk *)
Definition pad (l : list Z) : list Z := l ++ replicate (512 - length l) 0.
Definition sb70 : superblock := mkSuperblock 70 34 16 30 2 32 35.
Definition log70 : log_t := mkLog 2 30 1 false 1 0 (replicate 30 0).

Definition root70 : inode := mkInode 1 1 1 true T_DIR 0 0 1 32 (36 :: replicate 12 0).
Definition file70 : inode := mkInode 1 2 1 true T_FILE 0 0 1 5 (37 :: replicate 12 0).
Definition gone70 : inode := mkInode 1 3 1 true T_FILE 0 0 0 600 ([38; 39] ++ replicate 10 0 ++ [40]).

Definition disk70 : list (list Z) :=
  replicate 32 (replicate 512 0) ++
  [pad (replicate 64 0 ++ dinode_bytes root70 ++ dinode_bytes file70 ++ dinode_bytes gone70);
   pad []; pad [];
   pad [255; 255; 255; 255; 255; 3];
   pad (le16 1 ++ [46] ++ replicate 13 0 ++ le16 2 ++ [104; 105] ++ replicate 12 0);
   pad (chars "hello"); pad (replicate 512 7); pad (replicate 88 7); pad (le32 41); pad []]
  ++ replicate 28 (replicate 512 0).

Definition inodes70 : list inode := [root70; file70; gone70] ++ replicate 47 zero_inode.
Definition view70 : view := mkView [] disk70 [] inodes70 [].
Definition fs70 : fs_t := (boot disk70) <| log := log70 |> <| KState.sb := sb70 |> <| icache := inodes70 |>.
#[local] Instance no_devices : Devices := {| dev_read _ := None; dev_write _ := None |}.

Lemma rep70 : rep 1 log70 sb70 fs70 view70.
Proof. apply boot_rep; [|done|done]. vm_compute. by split_and!. Qed.
Lemma layout70 : layout log70 sb70.
Proof. split; vm_compute; done. Qed.
Lemma fs_ok70 : fs_ok sb70 view70.
Proof. apply fs_okb_ok. by vm_compute. Qed.
Lemma root_ok70 : inode_ok sb70 view70 root70.
Proof. apply inode_okb_ok. by vm_compute. Qed.
Lemma file_ok70 : inode_ok sb70 view70 file70.
Proof. apply inode_okb_ok. by vm_compute. Qed.
Lemma gone_ok70 : inode_ok sb70 view70 gone70.
Proof. apply inode_okb_ok. by vm_compute. Qed.
Lemma avail70 : avail sb70 8 view70.
Proof. apply (availb_ok _ _ _ 42 28); [done|done|by vm_compute|by vm_compute; lia]. Qed.
Lemma room70 n : (n <= 29)%nat -> room log70 n view70.
Proof. intros Hn. split_and!; [done|done|]. cbn. lia. Qed.
Lemma fields70 i : i ∈ [root70; file70; gone70] -> fields_ok i.
Proof. rewrite !elem_of_cons, elem_of_nil. intros [->|[->|[->|[]]]]; repeat constructor; done. Qed.
Lemma unique70 : unique inodes70.
Proof. apply uniqueb_ok. by vm_compute. Qed.
Lemma small70 : Forall (fun i => i_ref i < 2 ^ 31 - 1) inodes70.
Proof. repeat constructor. Qed.
Definition state70 : kstate := (Proc.demo_state []) <| fs := fs70 |>.
Lemma ready70 : ready 1 [] state70.
Proof. split; [done|]. eexists 0%nat, _. by split_and!. Qed.

(** The directories. *)
Lemma root_dir70 : is_dir sb70 view70 root70.
Proof. split; [apply root_ok70|done|done]. Qed.

Lemma node70 n : n = 1 \/ n = 2 -> node sb70 view70 n = (if decide (n = 1) then root70 else file70) <| i_ref := 0 |> <| i_valid := false |>.
Proof. intros [->| ->]; by vm_compute. Qed.

Lemma dmap_in es nm m : dmap es nm = Some m -> m ∈ de_inum <$> es.
Proof.
  unfold dmap. destruct (find_index _ es) as [k|]; [|done]. cbn [mbind option_bind]. destruct (es !! k) as [e|] eqn:He; [|done].
  intros [= <-]. apply list_elem_of_fmap. exists e. split; [done|]. by eapply list_elem_of_lookup_2.
Qed.

Lemma dir_map_in sb v n nm m : dir_map sb v n nm = Some m -> m ∈ de_inum <$> entries v (node sb v n).
Proof. apply dmap_in. Qed.

Lemma node_ok70 n : inode_ok sb70 view70 ((if decide (n = 1) then root70 else file70) <| i_ref := 0 |> <| i_valid := false |>).
Proof.
  case_decide; [apply (inode_ok_same_fields _ view70 _ root70)|apply (inode_ok_same_fields _ view70 _ file70)]; try reflexivity.
  - apply root_ok70.
  - apply file_ok70.
Qed.

Lemma names70 : de_inum <$> entries view70 (node sb70 view70 1) = [1; 2].
Proof. by vm_compute. Qed.

Lemma closed70 n nm m : n = 1 \/ n = 2 -> i_type (node sb70 view70 n) = T_DIR -> dir_map sb70 view70 n nm = Some m -> m = 1 \/ m = 2.
Proof.
  intros Hn Hty Hm. rewrite node70 in Hty by done. case_decide as E; [|discriminate Hty]. subst n. clear Hty.
  apply dir_map_in in Hm. rewrite names70 in Hm. apply elem_of_cons in Hm as [->|Hm]; [by left|].
  apply list_elem_of_singleton in Hm as ->. by right.
Qed.

Lemma tree70 : tree sb70 view70 (fun n => n = 1 \/ n = 2).
Proof.
  split.
  - cbn. lia.
  - intros n Hn. rewrite node70 by done. by apply node_ok70.
  - intros n Hn. rewrite node70 by done. by case_decide.
  - intros n Hn. rewrite node70 by done. by case_decide.
  - intros n nm m Hn Hty Hm. by apply (closed70 n nm).
Qed.

Lemma hand70 : hand (coherent sb70 view70) inodes70 None.
Proof.
  split.
  - done.
  - apply unique70.
  - intros k i Hk. pose proof small70 as Hs. assert (Hb : Forall (fun i => i_ref i < 2) inodes70) by repeat constructor.
    rewrite Forall_lookup in Hb. specialize (Hb k i Hk). cbv beta in Hb. case_decide; lia.
  - by vm_compute.
  - assert (Hc : Forall (fun i => 0 < i_ref i -> i_valid i = true -> coherent sb70 view70 i) inodes70).
    { repeat constructor; intros Hr Hv; try discriminate Hr; by vm_compute. }
    intros k i Hk. rewrite Forall_lookup in Hc. by apply (Hc k i Hk).
Qed.

(** ** Witnesses *)
Lemma skipelem_splits_witness : exists rest name', skipelem (chars "//usr/bin") (replicate 14 0) = Some (rest, name') /\
  skipped (chars "//usr/bin") (replicate 14 0) (chars "usr") rest name'.
Proof. apply (skipelem_splits (chars "//usr/bin") (replicate 14 0)); [vm_compute; set_solver|done]. Defined.

Lemma dirlookup_finds_witness : exists f' res l', runs 1 (dirlookup 1 0%nat [104; 105; 0]) [] fs70 res [] [] f' /\
  rep 1 log70 sb70 f' (view70 <| v_inodes := l' |>) /\ exists ip, res = Some (ip, 16).
Proof.
  destruct (dirlookup_finds 1 0 log70 sb70 layout70 fs70 view70 0%nat root70 [104; 105; 0]) as (f'&res&l'&R&Hr&ip&k&->&_&_&Hk);
    [apply rep70|apply fs_ok70|apply root_dir70|done|done|cbn; lia|cbn; lia|apply unique70|apply small70
    |apply Exists_exists; exists zero_inode; split; [set_solver|done]|].
  exists f', (Some (ip, 16 * Z.of_nat k)), l'. split_and!; [done|done|]. exists ip. vm_compute in Hk. by injection Hk as <-.
Defined.

Lemma dirlink_adds_witness : exists f' v' d', runs 1 (dirlink 1 0%nat [104; 111; 0] 2) [] fs70 0 [] [] f' /\
  rep 1 log70 sb70 f' v' /\ linked sb70 0%nat view70 root70 [104; 111] 2 v' d'.
Proof.
  apply (dirlink_adds 1 0 log70 sb70 layout70 fs70 view70 0%nat root70 [104; 111; 0] 2);
    [apply rep70|apply fs_ok70|apply root_dir70|apply fields70; set_solver|by vm_compute|by vm_compute|done|done|by apply room70; lia
    |apply (avail_mono _ _ _ _ avail70); lia|cbn; lia|lia|by vm_compute|by vm_compute].
Defined.

Lemma namex_resolves_witness : exists f' res l', runs 1 (namex 1 (chars "/./hi") false (replicate 14 0)) [] fs70 res [] [] f' /\
  rep 1 log70 sb70 f' (view70 <| v_inodes := l' |>) /\ exists jp j, res.1 = Some jp /\ l' !! jp = Some j /\ names 1 2 j.
Proof.
  destruct (namex_resolves 1 0 log70 sb70 layout70 fs70 view70 (fun n => n = 1 \/ n = 2) (chars "/./hi") false (replicate 14 0))
    as (f'&res&l'&R&Hr&He&_);
    [apply rep70|apply fs_ok70|apply tree70|by left|cbn; lia|done|done|apply hand70|done|vm_compute; set_solver|done|].
  replace (resolve _ _ _ _ _) with (Some 2) in He by (symmetry; by vm_compute). destruct He as (jp&j&E&_&Hj&Hn).
  exists f', res, l'. split_and!; [done|done|]. by exists jp, j.
Defined.
Lemma balloc_allocates_witness :
  (exists b f' v', runs 1 (balloc 1 1) [] fs70 b [] [] f' /\ rep 1 log70 sb70 f' v' /\ fs_ok sb70 v' /\
     datastart sb70 <= b < 70 /\ free sb70 view70 b /\ (forall c, 0 <= c < b -> in_use sb70 view70 c) /\
     (forall c, 0 <= c < 70 -> in_use sb70 v' c <-> c = b \/ in_use sb70 view70 c) /\
     (forall c, datastart sb70 <= c -> blk v' c = if decide (c = b) then zero_bytes BSIZE else blk view70 c)) \/
  ((forall c, 0 <= c < 70 -> in_use sb70 view70 c) /\ balloc 1 1 state70 = Panic "balloc: out of blocks").
Proof.
  apply (balloc_allocates 1 0 log70 sb70 layout70 fs70 view70 state70);
    [apply rep70|apply fs_ok70|by apply held_nil|by apply room70; lia|apply ready70|done].
Defined.

Lemma bfree_frees_witness :
  (in_use sb70 view70 41 /\ exists f' v', runs 1 (bfree 1 1 41) [] fs70 tt [] [] f' /\ rep 1 log70 sb70 f' v' /\ fs_ok sb70 v' /\
     (forall c, 0 <= c < 70 -> in_use sb70 v' c <-> c <> 41 /\ in_use sb70 view70 c) /\
     (forall c, datastart sb70 <= c -> blk v' c = blk view70 c)) \/
  (free sb70 view70 41 /\ bfree 1 1 41 state70 = Panic "freeing free block").
Proof.
  apply (bfree_frees 1 0 log70 sb70 layout70 fs70 view70 state70 41);
    [apply rep70|apply fs_ok70|by apply held_nil|by apply room70; lia|apply ready70|done|by vm_compute].
Defined.

Lemma readi_reads_witness : exists f' r bytes, runs 1 (readi 1 1%nat 1 10) [] fs70 (r, bytes) [] [] f' /\ r = 4.
Proof.
  destruct (readi_reads 1 0 log70 sb70 layout70 fs70 view70 1%nat file70 1 10) as (f'&r&bytes&R&_&Hr&_);
    [apply rep70|apply fs_ok70|apply file_ok70|done|done|cbn; lia|done|lia|lia|]. by exists f', r, bytes.
Defined.

Lemma writei_writes_witness : exists f' v' i', runs 1 (writei 1 1%nat (replicate 600 9) 3 600) [] fs70 600 [] [] f' /\
  rep 1 log70 sb70 f' v' /\ i_size i' = 603.
Proof.
  destruct (writei_writes 1 0 log70 sb70 layout70 fs70 view70 1%nat file70 (replicate 600 9) 3 600) as (f'&v'&i'&R&Hr&W);
    [apply rep70|apply fs_ok70|apply file_ok70|apply fields70; set_solver|by vm_compute|by vm_compute|done|done|done
    |cbn; lia|rewrite length_replicate; lia|by vm_compute|by apply room70; vm_compute; lia|apply (avail_mono _ _ _ _ avail70); vm_compute; lia|].
  exists f', v', i'. split_and!; [done|done|by rewrite (wf_size _ _ _ _ _ _ _ _ _ W)].
Defined.

Lemma writei_readi_witness : exists f', runs 1 (writei 1 1%nat [1; 2; 3] 4 3 ≫= fun _ => readi 1 1%nat 4 3) [] fs70 (3, [1; 2; 3]) [] [] f'.
Proof.
  apply (writei_readi 1 0 log70 sb70 layout70 fs70 view70 1%nat file70 [1; 2; 3] 4);
    [apply rep70|apply fs_ok70|apply file_ok70|apply fields70; set_solver|by vm_compute|by vm_compute|done|done|done
    |cbn; lia|by vm_compute|by apply room70; vm_compute; lia|apply (avail_mono _ _ _ _ avail70); vm_compute; lia].
Defined.

Lemma iput_frees_witness : exists f' v', runs 1 (iput 1 2%nat) [] fs70 tt [] [] f' /\ rep 1 log70 sb70 f' v' /\
  freed_file sb70 2%nat view70 gone70 v'.
Proof.
  apply (iput_frees 1 0 log70 sb70 layout70 fs70 view70 2%nat gone70);
    [apply rep70|apply fs_ok70|apply gone_ok70|by vm_compute|apply fields70; set_solver|done|unfold NINODE; lia
    |apply not_elem_of_nil|done|by apply room70; vm_compute; lia|done|done|done].
Defined.

Lemma iget_unique_witness :
  (exists ip f' l', runs 1 (iget 1 2) [] fs70 ip [] [] f' /\ rep 1 log70 sb70 f' (view70 <| v_inodes := l' |>) /\
     unique l' /\ got 1 2 inodes70 ip l') \/
  (Forall (fun i => 0 < i_ref i /\ ~ names 1 2 i) inodes70 /\ panics 1 log70 sb70 (iget 1 2) view70 "iget: no inodes").
Proof. apply (iget_unique 1 log70 sb70 fs70 view70 1 2); [apply rep70|apply unique70|apply small70]. Defined.

Lemma inode_reloaded_witness : exists jp f' v', runs 1 (iupdate 1 1%nat ;; iput 1 1%nat ;;
      jp ← iget 1 2; ilock 1 (Some jp) ;; mret jp) [] fs70 jp [] [] f' /\ rep 1 log70 sb70 f' v' /\
    v_inodes v' !! jp = Some file70 /\ v_locked v' = [jp] /\ unique (v_inodes v').
Proof.
  apply (inode_reloaded 1 0 log70 sb70 layout70 fs70 view70 1%nat file70);
    [apply rep70|apply fs_ok70|apply file_ok70|apply fields70; set_solver|by vm_compute|done|by apply room70; lia|done|done|done|done
    |done|done|apply unique70|apply small70].
Defined.

Lemma ialloc_takes_witness : exists ip f' v', runs 1 (ialloc 1 1 T_FILE) [] fs70 ip [] [] f' /\ rep 1 log70 sb70 f' v' /\
  got 1 4 inodes70 ip (v_inodes v').
Proof.
  destruct (ialloc_takes 1 0 log70 sb70 layout70 fs70 view70 T_FILE 4) as (ip&f'&v'&R&Hr&_&_&_&_&_&Hg);
    [apply rep70|apply fs_ok70|done|by apply room70; lia|by vm_compute|apply unique70|apply small70
    |apply Exists_exists; exists zero_inode; split; [set_solver|done]|by vm_compute|by vm_compute| |by exists ip, f', v'].
  intros j Hj. assert (j = 1 \/ j = 2 \/ j = 3) as [->|[->| ->]] by lia; by vm_compute.
Defined.

End FsDemo.
