(* ===== verification/Vm.v ===== *)
(** * Vm: page tables (vm.c, mmu.h)

    Page directories and page tables are pages of the allocator ([mem] of
    [kmem]), read and written as 32-bit words; a pointer to a page-table entry
    is the page and the index.  [word], [table] and [pte] are what the hardware
    looks up.  The theorems show what [walkpgdir], [mappages], [allocuvm],
    [deallocuvm], [clearpteu] and [copyout] do to the translation of every
    address, and that they stay inside the pages they own.  Segmentation and
    the control registers are not modelled; the address [data] of the kernel's
    data comes from the linker. *)
From S2P Require Import Prelude Queue KState Kalloc Proc File.

Module Vm.

(** ** mmu.h *)
Definition NPDENTRIES : Z := 1024.
Definition PDX (va : Z) : Z := Z.land (Z.shiftr va 22) 0x3FF.
Definition PTX (va : Z) : Z := Z.land (Z.shiftr va 12) 0x3FF.
Definition PGADDR (d t o : Z) : Z := u32 (Z.lor (Z.lor (Z.shiftl d 22) (Z.shiftl t 12)) o).
Definition PTE_P : Z := 0x001.
Definition PTE_W : Z := 0x002.
Definition PTE_U : Z := 0x004.
Definition PTE_ADDR (pte : Z) : Z := Z.land pte (Z.lnot 0xFFF).
Definition PTE_FLAGS (pte : Z) : Z := Z.land pte 0xFFF.
Definition EXTMEM : Z := 0x100000.
Definition DEVSPACE : Z := 0xFE000000.
Definition KERNLINK : Z := KERNBASE + EXTMEM.

(** [e & bit]. *)
Definition has (e bit : Z) : bool := negb (Z.land e bit =? 0).

(** ** Words of pages *)
Definition load_word (p i : Z) : M Z :=
  m ← gets (fun s => mem (kmem s));
  pg ← need (m !! p) "page table";
  if (0 <=? i) && (4 * i + 4 <=? Z.of_nat (length pg)) then mret (get32 pg (Z.to_nat (4 * i)))
  else fault "page table index".
Definition store_word (p i v : Z) : M unit :=
  m ← gets (fun s => mem (kmem s));
  pg ← need (m !! p) "page table";
  if (0 <=? i) && (4 * i + 4 <=? Z.of_nat (length pg)) then
    modify (fun s => s <| kmem := (kmem s)
      <| mem := <[p := blit pg (Z.to_nat (4 * i)) (le32 v)]> (mem (kmem s)) |> |>)
  else fault "page table index".
(** [memset(p, 0, PGSIZE)] *)
Definition zero_page (p : Z) : M unit :=
  page_write p 0 (zero_bytes PGSIZE) PGSIZE "memset".

(** ** vm.c *)

(** The address of the entry for [va]: its page and index. *)
Definition walkpgdir (pgdir va : Z) (alloc : bool) : M (option (Z * Z)) :=
  pde ← load_word pgdir (PDX va);
  if has pde PTE_P then mret (Some (P2V (PTE_ADDR pde), PTX va))
  else if negb alloc then mret None else
  pgtab ← Kalloc.kalloc;
  if pgtab =? 0 then mret None else
  zero_page pgtab ;;
  store_word pgdir (PDX va) (Z.lor (Z.lor (Z.lor (V2P pgtab) PTE_P) PTE_W) PTE_U) ;;
  mret (Some (pgtab, PTX va)).

(** [for(;;)] of [mappages]; the range has at most [fuel] pages. *)
Fixpoint mappages_loop (fuel : nat) (pgdir a last pa perm : Z) : M Z :=
  match fuel with
  | O => fault "mappages: fuel"
  | S k =>
    r ← walkpgdir pgdir a true;
    match r with
    | None => mret (-1)
    | Some (t, i) =>
      e ← load_word t i;
      if has e PTE_P then panic "remap" else
      store_word t i (Z.lor (Z.lor pa perm) PTE_P) ;;
      if a =? last then mret 0
      else mappages_loop k pgdir (u32 (a + PGSIZE)) last (u32 (pa + PGSIZE)) perm
    end
  end.
Definition mappages (pgdir va size pa perm : Z) : M Z :=
  let a := PGROUNDDOWN va in
  let last := PGROUNDDOWN (u32 (va + size - 1)) in
  mappages_loop (S (Z.to_nat (u32 (last - a) `div` PGSIZE))) pgdir a last pa perm.

(** One turn frees the page at [a] or skips to the next directory entry. *)
Fixpoint deallocuvm_loop (fuel : nat) (pgdir a oldsz : Z) : M unit :=
  match fuel with
  | O => fault "deallocuvm: fuel"
  | S k =>
    if a <? oldsz then
      r ← walkpgdir pgdir a false;
      match r with
      | None => deallocuvm_loop k pgdir (u32 (u32 (PGADDR (PDX a + 1) 0 0 - PGSIZE) + PGSIZE)) oldsz
      | Some (t, i) =>
        e ← load_word t i;
        (if has e PTE_P then
           let pa := PTE_ADDR e in
           if pa =? 0 then panic "kfree" else
           Kalloc.kfree (P2V pa) ;; store_word t i 0
         else mret tt) ;;
        deallocuvm_loop k pgdir (u32 (a + PGSIZE)) oldsz
      end
    else mret tt
  end.
Definition deallocuvm (pgdir oldsz newsz : Z) : M Z :=
  if oldsz <=? newsz then mret oldsz else
  deallocuvm_loop (S (Z.to_nat (oldsz `div` PGSIZE + 1))) pgdir (PGROUNDUP newsz) oldsz ;;
  mret newsz.

Fixpoint allocuvm_loop (fuel : nat) (pgdir a newsz oldsz : Z) : M Z :=
  match fuel with
  | O => fault "allocuvm: fuel"
  | S k =>
    if a <? newsz then
      m ← Kalloc.kalloc;
      if m =? 0 then
        cprintf "allocuvm out of memory
" ;; deallocuvm pgdir newsz oldsz ;; mret 0
      else
        zero_page m ;;
        r ← mappages pgdir a PGSIZE (V2P m) (Z.lor PTE_W PTE_U);
        if r <? 0 then
          cprintf "allocuvm out of memory (2)
" ;; deallocuvm pgdir newsz oldsz ;; Kalloc.kfree m ;; mret 0
        else allocuvm_loop k pgdir (u32 (a + PGSIZE)) newsz oldsz
    else mret newsz
  end.
Definition allocuvm (pgdir oldsz newsz : Z) : M Z :=
  if KERNBASE <=? newsz then mret 0 else
  if newsz <? oldsz then mret oldsz else
  allocuvm_loop (S (Z.to_nat ((newsz - oldsz) `div` PGSIZE + 1))) pgdir (PGROUNDUP oldsz) newsz oldsz.

(** [for(i = 0; i < NPDENTRIES; i++)] of [freevm]. *)
Definition free_tables (pgdir : Z) : M unit :=
  mfor (seqZ 0 NPDENTRIES) (fun i =>
    e ← load_word pgdir i;
    if has e PTE_P then Kalloc.kfree (P2V (PTE_ADDR e)) else mret tt).
Definition freevm (pgdir : Z) : M unit :=
  if pgdir =? 0 then panic "freevm: no pgdir" else
  deallocuvm pgdir KERNBASE 0 ;;
  free_tables pgdir ;;
  Kalloc.kfree pgdir.

(** [struct kmap]: virtual start, physical start and end, permissions. *)
Record kmap_t : Type := mkKmap { k_virt : Z; k_start : Z; k_end : Z; k_perm : Z }.
Definition kmap (data : Z) : list kmap_t :=
  [ mkKmap KERNBASE 0 EXTMEM PTE_W;
    mkKmap KERNLINK (V2P KERNLINK) (V2P data) 0;
    mkKmap data (V2P data) PHYSTOP PTE_W;
    mkKmap DEVSPACE DEVSPACE 0 PTE_W ].

Fixpoint setupkvm_loop (ks : list kmap_t) (pgdir : Z) : M Z :=
  match ks with
  | [] => mret pgdir
  | k :: ks =>
    r ← mappages pgdir (k_virt k) (u32 (k_end k - k_start k)) (k_start k) (k_perm k);
    if r <? 0 then freevm pgdir ;; mret 0 else setupkvm_loop ks pgdir
  end.
Definition setupkvm (data : Z) : M Z :=
  pgdir ← Kalloc.kalloc;
  if pgdir =? 0 then mret 0 else
  zero_page pgdir ;;
  if DEVSPACE <? P2V PHYSTOP then panic "PHYSTOP too high" else
  setupkvm_loop (kmap data) pgdir.

Definition inituvm (pgdir : Z) (init : list Z) (sz : Z) : M unit :=
  if PGSIZE <=? sz then panic "inituvm: more than a page" else
  m ← Kalloc.kalloc;
  zero_page m ;;
  mappages pgdir 0 PGSIZE (V2P m) (Z.lor PTE_W PTE_U) ;;
  page_write m 0 init sz "inituvm".

(** [readi(ip, P2V(pa), offset+i, n)] stores what it reads at the page. *)
Fixpoint loaduvm_loop `{InodeOps} (fuel : nat) (pgdir addr : Z) (ip : nat) (offset sz i : Z) : M Z :=
  match fuel with
  | O => fault "loaduvm: fuel"
  | S k =>
    if i <? sz then
      r ← walkpgdir pgdir (u32 (addr + i)) false;
      match r with
      | None => panic "loaduvm: address should exist"
      | Some (t, j) =>
        e ← load_word t j;
        let n := if sz - i <? PGSIZE then sz - i else PGSIZE in
        '(got, bytes) ← readi ip (u32 (offset + i)) n;
        page_write (P2V (PTE_ADDR e)) 0 bytes (Z.of_nat (length bytes)) "loaduvm" ;;
        if negb (got =? n) then mret (-1) else loaduvm_loop k pgdir addr ip offset sz (u32 (i + PGSIZE))
      end
    else mret 0
  end.
Definition loaduvm `{InodeOps} (pgdir addr : Z) (ip : nat) (offset sz : Z) : M Z :=
  if negb (addr `mod` PGSIZE =? 0) then panic "loaduvm: addr must be page aligned" else
  loaduvm_loop (S (Z.to_nat (sz `div` PGSIZE + 1))) pgdir addr ip offset sz 0.

Definition clearpteu (pgdir uva : Z) : M unit :=
  r ← walkpgdir pgdir uva false;
  match r with
  | None => panic "clearpteu"
  | Some (t, i) => e ← load_word t i; store_word t i (Z.land e (Z.lnot PTE_U))
  end.

Fixpoint copyuvm_loop (fuel : nat) (pgdir d i sz : Z) : M Z :=
  match fuel with
  | O => fault "copyuvm: fuel"
  | S k =>
    if i <? sz then
      r ← walkpgdir pgdir i false;
      match r with
      | None => panic "copyuvm: pte should exist"
      | Some (t, j) =>
        e ← load_word t j;
        if negb (has e PTE_P) then panic "copyuvm: page not present" else
        m ← Kalloc.kalloc;
        if m =? 0 then freevm d ;; mret 0 else
        bytes ← page_read (P2V (PTE_ADDR e)) 0 PGSIZE "copyuvm";
        page_write m 0 bytes PGSIZE "copyuvm" ;;
        r ← mappages d i PGSIZE (V2P m) (PTE_FLAGS e);
        if r <? 0 then Kalloc.kfree m ;; freevm d ;; mret 0
        else copyuvm_loop k pgdir d (u32 (i + PGSIZE)) sz
      end
    else mret d
  end.
Definition copyuvm (data pgdir sz : Z) : M Z :=
  d ← setupkvm data;
  if d =? 0 then mret 0 else copyuvm_loop (S (Z.to_nat (sz `div` PGSIZE + 1))) pgdir d 0 sz.

(** The kernel address of the page of [uva]; 0 if users may not use it.  The
    entry is dereferenced without a test for a null pointer. *)
Definition uva2ka (pgdir uva : Z) : M Z :=
  r ← walkpgdir pgdir uva false;
  match r with
  | None => fault "uva2ka: null pte"
  | Some (t, i) =>
    e ← load_word t i;
    if negb (has e PTE_P) then mret 0 else
    if negb (has e PTE_U) then mret 0 else
    mret (P2V (PTE_ADDR e))
  end.

(** [p] is the buffer, [len] bytes of it are copied; each turn finishes a page. *)
Fixpoint copyout_loop (fuel : nat) (pgdir va : Z) (p : list Z) (len : Z) : M Z :=
  match fuel with
  | O => fault "copyout: fuel"
  | S k =>
    if 0 <? len then
      let va0 := PGROUNDDOWN va in
      pa0 ← uva2ka pgdir va0;
      if pa0 =? 0 then mret (-1) else
      let n := PGSIZE - (va - va0) in
      let n := if len <? n then len else n in
      page_write pa0 (va - va0) p n "copyout" ;;
      copyout_loop k pgdir (u32 (va0 + PGSIZE)) (drop (Z.to_nat n) p) (len - n)
    else mret 0
  end.
Definition copyout (pgdir va : Z) (p : list Z) (len : Z) : M Z :=
  copyout_loop (S (S (Z.to_nat (len `div` PGSIZE + 1)))) pgdir va p len.

(** ** What the hardware looks up *)
Abbreviation pages := (gmap Z (list Z)).

Definition word (pm : pages) (p i : Z) : Z :=
  match pm !! p with Some pg => get32 pg (Z.to_nat (4 * i)) | None => 0 end.
(** The page table of directory entry [i]. *)
Definition table (pm : pages) (d i : Z) : option Z :=
  if has (word pm d i) PTE_P then Some (P2V (PTE_ADDR (word pm d i))) else None.
(** The entry for [va], 0 when there is no page table. *)
Definition pte (pm : pages) (d va : Z) : Z :=
  match table pm d (PDX va) with Some t => word pm t (PTX va) | None => 0 end.

Definition is_page (pm : pages) (p : Z) : Prop := exists pg, pm !! p = Some pg /\ length pg = 4096%nat.

(** The directory [d] and its page tables are distinct pages, none of them in
    [fr] (the free pages). *)
Record space (pm : pages) (d : Z) (fr : list Z) : Prop := {
  sp_dir : is_page pm d;
  sp_dir_free : d ∉ fr;
  sp_table : forall i t, 0 <= i < 1024 -> table pm d i = Some t -> is_page pm t /\ t <> d /\ t ∉ fr;
  sp_inj : forall i j t, 0 <= i < 1024 -> 0 <= j < 1024 ->
    table pm d i = Some t -> table pm d j = Some t -> i = j;
  sp_free : Forall (is_page pm) fr;
}.

(** [pm] with the word [i] of page [p] set to [v]. *)
Definition set_word (pm : pages) (p i v : Z) : pages :=
  match pm !! p with Some pg => <[p := blit pg (Z.to_nat (4 * i)) (le32 v)]> pm | None => pm end.

(** ** Indices *)
Lemma land_3ff z : Z.land z 0x3FF = z `mod` 1024.
Proof. change 0x3FF with (Z.ones 10). by rewrite Z.land_ones. Qed.
Lemma PDX_eq va : PDX va = (va `div` 4194304) `mod` 1024.
Proof. unfold PDX. by rewrite land_3ff, Z.shiftr_div_pow2. Qed.
Lemma PTX_eq va : PTX va = (va `div` 4096) `mod` 1024.
Proof. unfold PTX. by rewrite land_3ff, Z.shiftr_div_pow2. Qed.
Lemma PDX_range va : 0 <= PDX va < 1024.
Proof. rewrite PDX_eq. apply Z.mod_pos_bound. lia. Qed.
Lemma PTX_range va : 0 <= PTX va < 1024.
Proof. rewrite PTX_eq. apply Z.mod_pos_bound. lia. Qed.

(** The two indices name the page of an address. *)
Lemma same_page a b : 0 <= a < 2 ^ 32 -> 0 <= b < 2 ^ 32 ->
  PDX a = PDX b -> PTX a = PTX b -> a `div` 4096 = b `div` 4096.
Proof. rewrite !PDX_eq, !PTX_eq. intros. zlia. Qed.

Lemma PGROUNDDOWN_eq a : PGROUNDDOWN a = a `div` 4096 * 4096.
Proof.
  unfold PGROUNDDOWN, PGSIZE. change (4096 - 1) with (Z.ones 12).
  rewrite <- Z.ldiff_land, Z.ldiff_ones_r, Z.shiftl_mul_pow2, Z.shiftr_div_pow2 by lia. done.
Qed.
Lemma PTE_ADDR_eq a : PTE_ADDR a = a `div` 4096 * 4096.
Proof. apply PGROUNDDOWN_eq. Qed.

(** ** Words of pages *)
Lemma is_page_set pm p i v q : is_page pm q -> 0 <= i < 1024 -> is_page (set_word pm p i v) q.
Proof.
  intros Hq Hi. unfold set_word. destruct (pm !! p) as [pg|] eqn:E; [|done].
  destruct Hq as (pg' & Hq & Hl). destruct (decide (p = q)) as [->|].
  - simplify_eq. eexists. rewrite lookup_insert_eq. split; [done|]. rewrite length_blit; [done|].
    change (length (le32 v)) with 4%nat. lia.
  - exists pg'. by rewrite lookup_insert_ne.
Qed.

Lemma word_set pm p i v q j : is_page pm p -> 0 <= i < 1024 -> 0 <= j < 1024 ->
  word (set_word pm p i v) q j = if decide (p = q /\ i = j) then u32 v else word pm q j.
Proof.
  intros (pg & Hp & Hl) Hi Hj. unfold word, set_word. rewrite Hp. destruct (decide (p = q)) as [<-|Hne].
  - rewrite lookup_insert_eq, Hp. destruct (decide (i = j)) as [<-|].
    + rewrite decide_True by done. apply get32_blit_eq. lia.
    + rewrite decide_False by naive_solver. apply get32_blit_ne; change (length (le32 v)) with 4%nat; lia.
  - rewrite lookup_insert_ne, decide_False by naive_solver. done.
Qed.

Lemma set_word_other pm p i v q : q <> p -> set_word pm p i v !! q = pm !! q.
Proof. intros. unfold set_word. destruct (pm !! p); [by rewrite lookup_insert_ne|done]. Qed.

Lemma load_word_ok p i s : is_page (mem (kmem s)) p -> 0 <= i < 1024 ->
  load_word p i s = Ret (word (mem (kmem s)) p i) s.
Proof.
  intros (pg & Hp & Hl) Hi. unfold load_word, word. rewrite bind_gets, (bind_need pg) by done.
  rewrite Hp, (proj2 (andb_true_iff (0 <=? i) _)) by lia. done.
Qed.

(** The state with other page contents. *)
Definition with_pages (s : kstate) (pm : pages) : kstate := s <| kmem := (kmem s) <| mem := pm |> |>.

Lemma store_word_ok p i v s : is_page (mem (kmem s)) p -> 0 <= i < 1024 ->
  store_word p i v s = Ret tt (with_pages s (set_word (mem (kmem s)) p i v)).
Proof.
  intros (pg & Hp & Hl) Hi. unfold store_word, set_word, with_pages. rewrite bind_gets, (bind_need pg) by done.
  rewrite Hp, (proj2 (andb_true_iff (0 <=? i) _)) by lia. done.
Qed.

Lemma zero_page_ok p s : is_page (mem (kmem s)) p ->
  zero_page p s = Ret tt (with_pages s (<[p := zero_bytes PGSIZE]> (mem (kmem s)))).
Proof.
  intros (pg & Hp & Hl). unfold zero_page.
  rewrite (page_write_ok p 0 (zero_bytes PGSIZE) PGSIZE _ pg) by (done || (unfold PGSIZE; simpl; lia)).
  assert (E : blit pg (Z.to_nat 0) (take (Z.to_nat PGSIZE) (zero_bytes PGSIZE)) = zero_bytes PGSIZE).
  { rewrite blit_0, firstn_all2 by (vm_compute; lia). rewrite drop_ge by (rewrite Hl; vm_compute; lia).
    apply app_nil_r. }
  by rewrite E.
Qed.

Lemma word_zero pm p j : 0 <= j < 1024 -> word (<[p := zero_bytes PGSIZE]> pm) p j = 0.
Proof.
  intros Hj. unfold word. rewrite lookup_insert_eq. unfold get32, get16, get8, zero_bytes.
  assert (H : forall k, nth k (replicate (Z.to_nat PGSIZE) 0) 0 = 0).
  { intros k. rewrite nth_lookup. destruct (replicate (Z.to_nat PGSIZE) 0 !! k) eqn:E; [|done].
    by apply lookup_replicate in E as [-> _]. }
  by rewrite !H.
Qed.

(** ** The page directory under stores *)
Lemma table_ext pm pm' d i : word pm' d i = word pm d i -> table pm' d i = table pm d i.
Proof. intros E. unfold table. by rewrite E. Qed.

Lemma table_set_word pm p i v d j : p <> d -> table (set_word pm p i v) d j = table pm d j.
Proof. intros Hp. apply table_ext. unfold word. by rewrite set_word_other. Qed.

(** A store to an entry of a page table changes the translation of one page. *)
Lemma set_pte pm d fr va t v :
  space pm d fr -> 0 <= va < 2 ^ 32 -> table pm d (PDX va) = Some t -> 0 <= v < 2 ^ 32 ->
  let pm' := set_word pm t (PTX va) v in
  space pm' d fr /\ (forall i, 0 <= i < 1024 -> table pm' d i = table pm d i) /\
  forall va', 0 <= va' < 2 ^ 32 ->
    pte pm' d va' = if decide (va' `div` 4096 = va `div` 4096) then v else pte pm d va'.
Proof.
  intros [Hd Hdf Ht Hinj Hfr] Hva Htab Hv pm'. pose proof (PDX_range va). pose proof (PTX_range va).
  destruct (Ht (PDX va) t ltac:(done) Htab) as (Hpt & Hne & Hnf).
  assert (Htabs : forall i, 0 <= i < 1024 -> table pm' d i = table pm d i).
  { intros i Hi. apply table_ext. unfold pm'. rewrite word_set by done. rewrite decide_False by naive_solver. done. }
  assert (Hpg : forall q, is_page pm q -> is_page pm' q) by (intros; by apply is_page_set).
  split_and!.
  - split; [by apply Hpg|done| | |].
    + intros i t' Hi Hi'. rewrite Htabs in Hi' by done. destruct (Ht i t' Hi Hi') as (?&?&?). auto.
    + intros i j t' Hi Hj H1 H2. rewrite Htabs in H1, H2 by done. by eapply Hinj.
    + eapply Forall_impl; [exact Hfr|auto].
  - done.
  - intros va' Hva'. unfold pte. pose proof (PDX_range va'). pose proof (PTX_range va'). rewrite Htabs by done.
    destruct (table pm d (PDX va')) as [t'|] eqn:E'.
    + unfold pm'. rewrite word_set by done. destruct (decide (va' `div` 4096 = va `div` 4096)) as [Hs|Hs].
      * assert (PDX va' = PDX va /\ PTX va' = PTX va) as [Ed Et].
        { rewrite !PDX_eq, !PTX_eq. split; [|by rewrite Hs].
          change 4194304 with (4096 * 1024). by rewrite <- !Zdiv_Zdiv, Hs by lia. }
        rewrite decide_True by (rewrite Ed in E'; split; congruence). by rewrite u32_small.
      * rewrite decide_False; [done|]. intros [<- Ep]. apply Hs. apply same_page; [done..| |done].
        by eapply Hinj.
    + rewrite decide_False; [done|]. intros Hs. assert (PDX va' = PDX va) as Ed.
      { rewrite !PDX_eq. change 4194304 with (4096 * 1024). by rewrite <- !Zdiv_Zdiv, Hs by lia. }
      rewrite Ed in E'. congruence.
Qed.

Lemma has_P e : has e PTE_P = negb (e `mod` 2 =? 0).
Proof. unfold has. change PTE_P with (Z.ones 1). by rewrite Z.land_ones. Qed.

(** The entry [V2P(t) | P | W | U] of a page-aligned table. *)
Definition pde_of (t : Z) : Z := Z.lor (Z.lor (Z.lor (V2P t) PTE_P) PTE_W) PTE_U.

Lemma land_aligned a k : 0 <= k < 4096 -> Z.land (a * 4096) k = 0.
Proof.
  intros Hk. apply Z.bits_inj'. intros n Hn. rewrite Z.land_spec, Z.bits_0.
  change 4096 with (2 ^ 12). destruct (decide (n < 12)).
  - by rewrite Z.mul_pow2_bits_low.
  - rewrite (testbit_above k 12 n) by (change (2 ^ 12) with 4096; lia). apply andb_false_r.
Qed.

Lemma lor_aligned a k : 0 <= k < 4096 -> Z.lor (a * 4096) k = a * 4096 + k.
Proof. intros. by rewrite lor_add by (by apply land_aligned). Qed.

Lemma pde_of_eq t : t `mod` 4096 = 0 -> KERNBASE <= t < 2 ^ 32 -> pde_of t = t - KERNBASE + 7.
Proof.
  intros Ha Hr. unfold pde_of, V2P, PTE_P, PTE_W, PTE_U. rewrite u32_small by (unfold KERNBASE in *; lia).
  rewrite <- !Z.lor_assoc. change (Z.lor 1 (Z.lor 2 4)) with 7.
  assert (E : t - KERNBASE = (t - KERNBASE) `div` 4096 * 4096) by (unfold KERNBASE; zlia).
  rewrite E, lor_aligned by lia. lia.
Qed.

Lemma pde_of_table t : t `mod` 4096 = 0 -> KERNBASE <= t < 2 ^ 32 ->
  has (pde_of t) PTE_P = true /\ P2V (PTE_ADDR (pde_of t)) = t /\ 0 <= pde_of t < 2 ^ 32.
Proof.
  intros Ha Hr. rewrite pde_of_eq by done. unfold KERNBASE in *. split_and!.
  - rewrite has_P. apply negb_true_iff, Z.eqb_neq. zlia.
  - rewrite PTE_ADDR_eq. unfold P2V, KERNBASE. rewrite u32_small; zlia.
  - lia.
  - lia.
Qed.

(** A new page table translates nothing. *)
Lemma add_table pm d fr va t :
  space pm d (t :: fr) -> table pm d (PDX va) = None -> t `mod` 4096 = 0 -> KERNBASE <= t < 2 ^ 32 ->
  t ∉ fr ->
  let pm' := set_word (<[t := zero_bytes PGSIZE]> pm) d (PDX va) (pde_of t) in
  space pm' d fr /\ table pm' d (PDX va) = Some t /\
  (forall i, 0 <= i < 1024 -> i <> PDX va -> table pm' d i = table pm d i) /\
  forall va', 0 <= va' < 2 ^ 32 -> pte pm' d va' = pte pm d va'.
Proof.
  intros [Hd Hdf Ht Hinj Hfr] Htab Ha Hr Hnf pm'. pose proof (PDX_range va).
  destruct (pde_of_table t Ha Hr) as (Hp & Hv & Hrange).
  apply not_elem_of_cons in Hdf as [Hdt Hdf]. apply Forall_cons in Hfr as [Hpt Hfr].
  set (pm0 := <[t := zero_bytes PGSIZE]> pm) in *.
  assert (Hpg0 : forall q, is_page pm q -> is_page pm0 q).
  { intros q (pg & Hq & Hl). destruct (decide (t = q)) as [<-|]; unfold pm0.
    - exists (zero_bytes PGSIZE). by rewrite lookup_insert_eq.
    - exists pg. by rewrite lookup_insert_ne. }
  assert (Hpg : forall q, is_page pm q -> is_page pm' q) by (intros; apply is_page_set; auto).
  assert (Hw : forall q i, 0 <= i < 1024 -> q <> t -> word pm0 q i = word pm q i).
  { intros q i Hi Hq. unfold word, pm0. by rewrite lookup_insert_ne. }
  assert (Hnew : table pm' d (PDX va) = Some t).
  { unfold table, pm'. rewrite word_set by auto. rewrite decide_True by done. rewrite u32_small by done. by rewrite Hp, Hv. }
  assert (Hold : forall i, 0 <= i < 1024 -> i <> PDX va -> table pm' d i = table pm d i).
  { intros i Hi Hne. apply table_ext. unfold pm'. rewrite word_set by auto. rewrite decide_False by naive_solver. auto. }
  assert (Hnott : forall i t', 0 <= i < 1024 -> table pm d i = Some t' -> t' <> t).
  { intros i t' Hi Hi'. destruct (Ht i t' Hi Hi') as (_ & _ & Hn). by apply not_elem_of_cons in Hn as [? _]. }
  split_and!; [|done|done|].
  - split; [auto|done| | |].
    + intros i t' Hi Hi'. destruct (decide (i = PDX va)) as [->|Hne].
      * rewrite Hnew in Hi'. simplify_eq. auto.
      * rewrite Hold in Hi' by done. destruct (Ht i t' Hi Hi') as (?&?&Hn).
        apply not_elem_of_cons in Hn as [_ ?]. auto.
    + intros i j t' Hi Hj H1 H2. destruct (decide (i = PDX va)) as [->|], (decide (j = PDX va)) as [->|]; [done|..].
      * rewrite Hnew in H1. rewrite Hold in H2 by done. simplify_eq. by destruct (Hnott _ _ Hj H2).
      * rewrite Hnew in H2. rewrite Hold in H1 by done. simplify_eq. by destruct (Hnott _ _ Hi H1).
      * rewrite Hold in H1, H2 by done. by eapply Hinj.
    + eapply Forall_impl; [exact Hfr|auto].
  - intros va' Hva'. unfold pte. pose proof (PDX_range va'). pose proof (PTX_range va').
    destruct (decide (PDX va' = PDX va)) as [->|Hne].
    + rewrite Hnew, Htab. unfold pm'. rewrite word_set by auto. rewrite decide_False by naive_solver.
      by apply word_zero.
    + rewrite Hold by done. destruct (table pm d (PDX va')) as [t'|] eqn:E; [|done].
      unfold pm'. rewrite word_set by auto. destruct (Ht (PDX va') t' ltac:(done) E) as (_ & Hne' & _).
      rewrite decide_False by naive_solver. apply Hw; [done|]. by apply (Hnott (PDX va')).
Qed.

(** ** The state of an address space *)

(** The directory [d] is well formed, and [fr] are the free pages. *)
Record owns (s : kstate) (d : Z) (fr : list Z) : Prop := {
  ow_space : space (mem (kmem s)) d fr;
  ow_free : Kalloc.repr (kmem s) fr;
  ow_lock : LkKmem ∉ held s;
}.

(** [q] is a page the paging code does not touch: not free, not the directory,
    not a page table. *)
Definition private (s : kstate) (d : Z) (fr : list Z) (q : Z) : Prop :=
  q ∉ fr /\ q <> d /\ forall i, 0 <= i < 1024 -> table (mem (kmem s)) d i <> Some q.

(** The page tables of [d], the frames of its pages below [KERNBASE], and all the
    pages an operation on [d] must account for. *)
Definition is_table (s : kstate) (d x : Z) : Prop := exists i, 0 <= i < 1024 /\ table (mem (kmem s)) d i = Some x.
Definition is_frame (s : kstate) (d x : Z) : Prop :=
  exists va, 0 <= va < KERNBASE /\ has (pte (mem (kmem s)) d va) PTE_P = true /\ x = P2V (PTE_ADDR (pte (mem (kmem s)) d va)).
Definition accounted (s : kstate) (d : Z) (fr : list Z) (x : Z) : Prop := x ∈ fr \/ is_table s d x \/ is_frame s d x.

(** [s'] is [s] after paging operations on [d] that took pages from the free
    list only, each to be a page table. *)
Record evolves (d : Z) (s : kstate) (fr : list Z) (s' : kstate) (fr' : list Z) : Prop := {
  ev_owns : owns s' d fr';
  ev_free : fr' `suffix_of` fr;
  ev_private : forall q, private s d fr q -> mem (kmem s') !! q = mem (kmem s) !! q /\ private s' d fr' q;
  ev_state : s' = s <| kmem := kmem s' |>;
  ev_end : end_ (kmem s') = end_ (kmem s);
  ev_saves : (forall x, x ∈ fr -> x ∈ fr' \/ is_table s' d x) /\ (forall x, is_table s d x -> is_table s' d x);
}.

Lemma evolves_refl d s fr : owns s d fr -> evolves d s fr s fr.
Proof. intros. split; [done..|by destruct s|done|auto]. Qed.

Lemma evolves_trans d s0 f0 s1 f1 s2 f2 :
  evolves d s0 f0 s1 f1 -> evolves d s1 f1 s2 f2 -> evolves d s0 f0 s2 f2.
Proof.
  intros [H1 H2 H3 H4 H5 H6] [G1 G2 G3 G4 G5 G6]. split; [done|by etrans| | |congruence|naive_solver].
  - intros q Hq. destruct (H3 q Hq) as [E Hq']. destruct (G3 q Hq') as [F Hq'']. by rewrite F, E.
  - rewrite G4, H4. done.
Qed.

Lemma chain_ext m m' hd l : (forall x, x ∈ l -> m' !! x = m !! x) -> Kalloc.chain m hd l -> Kalloc.chain m' hd l.
Proof.
  revert hd. induction l as [|x l IH]; intros hd Hm; [done|]. intros (-> & Hx & pg & Hpg & Hc).
  split_and!; [done..|]. exists pg. split; [rewrite Hm by set_solver; done|].
  apply IH; [|done]. intros y Hy. apply Hm. set_solver.
Qed.

Lemma repr_ext k k' l : freelist k' = freelist k -> end_ k' = end_ k ->
  (forall x, x ∈ l -> mem k' !! x = mem k !! x) -> Kalloc.repr k l -> Kalloc.repr k' l.
Proof.
  intros Hf He Hm (Hc & Hn & Hv). split_and!; [rewrite Hf; by eapply chain_ext|done|].
  unfold Kalloc.valid_page in *. by rewrite He.
Qed.

(** A store to an entry keeps the rest of the state. *)
Lemma set_pte_owns s d fr va t v :
  owns s d fr -> 0 <= va < 2 ^ 32 -> table (mem (kmem s)) d (PDX va) = Some t -> 0 <= v < 2 ^ 32 ->
  let s' := with_pages s (set_word (mem (kmem s)) t (PTX va) v) in
  evolves d s fr s' fr /\
  forall va', 0 <= va' < 2 ^ 32 ->
    pte (mem (kmem s')) d va' = if decide (va' `div` 4096 = va `div` 4096) then v else pte (mem (kmem s)) d va'.
Proof.
  intros [Hsp Hfree Hlock] Hva Ht Hv s'. pose proof (PDX_range va) as Hi.
  destruct (sp_table _ _ _ Hsp _ _ Hi Ht) as (_ & Htd & Htf).
  destruct (set_pte _ d fr va t v Hsp Hva Ht Hv) as (Hsp' & Htabs & Hpte). split; [|exact Hpte].
  split; [split; [exact Hsp'| |exact Hlock]|done| |done|done|].
  3:{ split; [auto|]. intros x (i & Hi' & Hx). exists i. split; [done|]. cbn. by rewrite Htabs. }
  - eapply repr_ext; [..|exact Hfree]; [done|done|]. intros x Hx. cbn. apply set_word_other. naive_solver.
  - intros q (Hq1 & Hq2 & Hq3). split.
    + cbn. apply set_word_other. intros ->. by eapply Hq3.
    + split_and!; [done..|]. intros i Hi'. cbn. rewrite Htabs by done. by apply Hq3.
Qed.

(** ** [walkpgdir] *)
Lemma walk_present s d fr va alloc t :
  owns s d fr -> table (mem (kmem s)) d (PDX va) = Some t ->
  walkpgdir d va alloc s = Ret (Some (t, PTX va)) s.
Proof.
  intros [Hsp _ _] Ht. unfold walkpgdir.
  erewrite bind_ret by (apply load_word_ok; [apply Hsp|apply PDX_range]).
  unfold table in Ht. destruct (has _ PTE_P); [|done]. by simplify_eq.
Qed.

Lemma walk_absent s d fr va :
  owns s d fr -> table (mem (kmem s)) d (PDX va) = None -> walkpgdir d va false s = Ret None s.
Proof.
  intros [Hsp _ _] Ht. unfold walkpgdir.
  erewrite bind_ret by (apply load_word_ok; [apply Hsp|apply PDX_range]).
  unfold table in Ht. by destruct (has _ PTE_P).
Qed.

(** The page [t] just taken from the free list becomes the table of [va]. *)
Lemma install_table s s1 d fr va t :
  owns s d (t :: fr) -> 0 <= va < 2 ^ 32 -> table (mem (kmem s)) d (PDX va) = None ->
  Kalloc.repr (kmem s1) fr -> s1 = s <| kmem := (kmem s) <| freelist := freelist (kmem s1) |> |> ->
  exists s', (zero_page t ;; store_word d (PDX va) (pde_of t) ;; mret (Some (t, PTX va))) s1 =
      Ret (Some (t, PTX va)) s' /\ evolves d s (t :: fr) s' fr /\
    (forall va', 0 <= va' < 2 ^ 32 -> pte (mem (kmem s')) d va' = pte (mem (kmem s)) d va') /\
    table (mem (kmem s')) d (PDX va) = Some t.
Proof.
  intros [Hsp Hfree Hlock] Hva Ht Hr1 Es1. pose proof (PDX_range va) as Hi.
  assert (Hm : mem (kmem s1) = mem (kmem s)) by (by rewrite Es1).
  destruct Hfree as (_ & Hnd & Hval). apply NoDup_cons in Hnd as [Htfr Hnd]. apply Forall_cons in Hval as [Hvt _].
  pose proof (Kalloc.valid_page_le _ _ Hvt) as Htr. destruct Hvt as (Hta & _ & Htk).
  destruct (add_table (mem (kmem s)) d fr va t) as (Hsp' & Hnew & Hold & Hpte); [done|done|done|lia|done|].
  assert (Hpt : is_page (mem (kmem s)) t) by (pose proof (sp_free _ _ _ Hsp) as H; by inversion H).
  pose proof (sp_dir_free _ _ _ Hsp) as Hdf. apply not_elem_of_cons in Hdf as [Hdt Hdf].
  erewrite bind_ret by (apply zero_page_ok; by rewrite Hm). rewrite Hm.
  set (pm0 := <[t := zero_bytes PGSIZE]> (mem (kmem s))) in *.
  erewrite bind_ret.
  2:{ apply store_word_ok; [|done]. cbn. destruct (sp_dir _ _ _ Hsp) as (pg & Hd & Hl). exists pg.
      unfold pm0. by rewrite lookup_insert_ne. }
  change (mem (kmem (with_pages s1 pm0))) with pm0. set (pm' := set_word pm0 d (PDX va) (pde_of t)) in *.
  assert (Hout : forall q, q <> d -> q <> t -> pm' !! q = mem (kmem s) !! q).
  { intros q Hqd Hqt. unfold pm'. rewrite set_word_other by done. unfold pm0. by rewrite lookup_insert_ne. }
  eexists. split; [done|]. cbn [kmem setf mem with_pages]. split_and!; [|exact Hpte|exact Hnew].
  split; [split; [exact Hsp'| |by rewrite Es1]|by exists [t]| | |by rewrite Es1|].
  4:{ split; [intros x [->|Hx]%elem_of_cons; [right; by exists (PDX va)|by left]|]. intros x (i & Hi' & Hx). exists i. split; [done|]. cbn.
      rewrite Hold; [done|done|]. intros ->. congruence. }
  - eapply repr_ext; [..|exact Hr1]; [done|done|]. intros x Hx. cbn. rewrite Hm. apply Hout; set_solver.
  - intros q (Hq1 & Hq2 & Hq3). apply not_elem_of_cons in Hq1 as [Hqt Hqf]. split; [by apply Hout|].
    split_and!; [done..|]. intros i Hi'. cbn. destruct (decide (i = PDX va)) as [->|].
    + rewrite Hnew. naive_solver.
    + rewrite Hold by done. by apply Hq3.
  - by rewrite Es1.
Qed.

Lemma walk_alloc s d fr va :
  owns s d fr -> 0 <= va < 2 ^ 32 ->
  exists r s' fr', walkpgdir d va true s = Ret r s' /\ evolves d s fr s' fr' /\
    (length fr <= S (length fr'))%nat /\
    (forall va', 0 <= va' < 2 ^ 32 -> pte (mem (kmem s')) d va' = pte (mem (kmem s)) d va') /\
    ((r = None /\ fr = [] /\ fr' = []) \/
     exists t, r = Some (t, PTX va) /\ table (mem (kmem s')) d (PDX va) = Some t).
Proof.
  intros Hown Hva. pose proof Hown as [Hsp Hfree Hlock]. pose proof (PDX_range va) as Hi.
  destruct (table (mem (kmem s)) d (PDX va)) as [t|] eqn:Ht.
  { exists (Some (t, PTX va)), s, fr. split_and!; [by eapply walk_present|by apply evolves_refl|lia|done|eauto]. }
  pose proof Ht as Hnone. unfold walkpgdir. erewrite bind_ret by (apply load_word_ok; [apply Hsp|done]).
  unfold table in Ht. destruct (has _ PTE_P) eqn:Hh; [done|]. cbn [negb].
  destruct (Kalloc.kalloc_ok s fr Hfree Hlock) as (s1 & E1 & Hr1 & Es1). erewrite bind_ret by exact E1.
  destruct fr as [|t fr].
  - exists None, s1, []. assert (Hm : mem (kmem s1) = mem (kmem s)) by (by rewrite Es1).
    split_and!; [done| |simpl; lia|by rewrite Hm|by left]. split; [split; [by rewrite Hm|done|by rewrite Es1]|done| | |by rewrite Es1|].
    3:{ split; [auto|]. intros x Hx. unfold is_table. by rewrite Hm. }
    + intros q Hq. unfold private. by rewrite Hm.
    + by rewrite Es1.
  - change (default 0 (head (t :: fr))) with t. cbn [tail] in Hr1.
    destruct (install_table s s1 d fr va t Hown Hva Hnone Hr1 Es1) as (s' & E & Hev & Hpte & Hnew).
    destruct Hfree as (_ & _ & Hval). apply Forall_cons in Hval as [Hvt%Kalloc.valid_page_le _].
    rewrite (proj2 (Z.eqb_neq t 0)) by lia. exists (Some (t, PTX va)), s', fr. split_and!; [exact E|done|simpl; lia|done|eauto].
Qed.

(** ** [mappages] *)

(** The entry for physical page [pa]. *)
Definition entry (pa perm : Z) : Z := Z.lor (Z.lor pa perm) PTE_P.

Lemma lor_flags perm : 0 <= perm < 4096 -> 0 <= Z.lor perm PTE_P < 4096.
Proof.
  intros Hp. split; [apply Z.lor_nonneg; unfold PTE_P; lia|].
  destruct (decide (Z.lor perm PTE_P = 0)) as [->|]; [lia|].
  apply (Z.log2_lt_pow2 _ 12).
  - assert (0 <= Z.lor perm PTE_P) by (apply Z.lor_nonneg; unfold PTE_P; lia). lia.
  - rewrite Z.log2_lor by (unfold PTE_P; lia). apply Z.max_lub_lt; [|done].
    destruct (decide (perm = 0)) as [->|]; [done|]. apply Z.log2_lt_pow2; lia.
Qed.

Lemma entry_eq k perm : 0 <= perm < 4096 -> entry (k * 4096) perm = k * 4096 + Z.lor perm PTE_P.
Proof. intros Hp. unfold entry. rewrite <- Z.lor_assoc. apply lor_aligned. by apply lor_flags. Qed.

Lemma entry_range k perm : 0 <= perm < 4096 -> 0 <= k < 2 ^ 20 -> 0 <= entry (k * 4096) perm < 2 ^ 32.
Proof. intros Hp Hk. rewrite entry_eq by done. pose proof (lor_flags perm Hp). lia. Qed.

Lemma entry_addr k perm : 0 <= perm < 4096 -> PTE_ADDR (entry (k * 4096) perm) = k * 4096.
Proof. intros Hp. rewrite entry_eq, PTE_ADDR_eq by done. pose proof (lor_flags perm Hp). zlia. Qed.

Lemma entry_has_P k perm : has (entry (k * 4096) perm) PTE_P = true.
Proof.
  unfold has, entry. apply negb_true_iff, Z.eqb_neq. intros E. apply (f_equal (fun z => Z.testbit z 0)) in E.
  rewrite Z.land_spec, Z.lor_spec in E. change (Z.testbit PTE_P 0) with true in E.
  rewrite orb_true_r in E. done.
Qed.

Lemma load_pte s d fr va t :
  owns s d fr -> table (mem (kmem s)) d (PDX va) = Some t ->
  load_word t (PTX va) s = Ret (pte (mem (kmem s)) d va) s.
Proof.
  intros [Hsp _ _] Ht. destruct (sp_table _ _ _ Hsp _ _ (PDX_range va) Ht) as (Hp & _).
  rewrite load_word_ok by (done || apply PTX_range). unfold pte. by rewrite Ht.
Qed.

Lemma store_pte_ok s d fr va t v :
  owns s d fr -> table (mem (kmem s)) d (PDX va) = Some t ->
  store_word t (PTX va) v s = Ret tt (with_pages s (set_word (mem (kmem s)) t (PTX va) v)).
Proof.
  intros [Hsp _ _] Ht. destruct (sp_table _ _ _ Hsp _ _ (PDX_range va) Ht) as (Hp & _).
  apply store_word_ok; [done|apply PTX_range].
Qed.

(** The entries after [m] pages from page number [k] are mapped to the
    physical pages from number [f]. *)
Definition mapped (s s' : kstate) (d k : Z) (m : nat) (f perm : Z) : Prop :=
  forall va, 0 <= va < 2 ^ 32 ->
    pte (mem (kmem s')) d va =
      if decide (k <= va `div` 4096 < k + Z.of_nat m)
      then entry ((f + (va `div` 4096 - k)) * 4096) perm else pte (mem (kmem s)) d va.

Lemma mapped_cons s s1 s2 d k m f perm :
  mapped s s1 d k 1 f perm -> mapped s1 s2 d (k + 1) m (f + 1) perm -> mapped s s2 d k (S m) f perm.
Proof.
  intros H1 H2 va Hva. rewrite H2, H1 by done. repeat case_decide; try lia; try done.
  - f_equal. f_equal. lia.
Qed.

Lemma mappages_loop_ok n fuel s d fr k f perm :
  owns s d fr -> 0 <= k -> k + Z.of_nat n < 2 ^ 20 -> 0 <= f -> f + Z.of_nat n < 2 ^ 20 -> 0 <= perm < 4096 ->
  (n < fuel)%nat ->
  (forall va, 0 <= va < 2 ^ 32 -> k <= va `div` 4096 <= k + Z.of_nat n -> has (pte (mem (kmem s)) d va) PTE_P = false) ->
  exists r m s' fr',
    mappages_loop fuel d (k * 4096) ((k + Z.of_nat n) * 4096) (f * 4096) perm s = Ret r s' /\
    evolves d s fr s' fr' /\ (length fr <= length fr' + m)%nat /\ mapped s s' d k m f perm /\
    ((r = 0 /\ m = S n) \/ (r = -1 /\ (m <= n)%nat /\ fr' = [])).
Proof.
  revert fuel s fr k f. induction n as [|n IH]; intros [|fuel] s fr k f Hown Hk Hkn Hf Hfn Hp Hfuel Hfree; try lia.
  all: cbn [mappages_loop]; destruct (walk_alloc s d fr (k * 4096) Hown) as (r & s1 & fr1 & E1 & Hev1 & Hc1 & Hpte1 & Hr);
    [lia|]; erewrite bind_ret by exact E1.
  all: assert (Hsame : mapped s s1 d k 0 f perm)
    by (intros va Hva; rewrite decide_False by lia; by apply Hpte1).
  all: destruct Hr as [(-> & -> & ->)|(t & -> & Ht)];
    [exists (-1), 0%nat, s1, []; split_and!; [done|done|simpl; lia|done|right; split_and!; [done|lia|done]]|].
  all: pose proof (ev_owns _ _ _ _ _ Hev1) as Hown1.
  all: erewrite bind_ret by (by eapply load_pte); rewrite Hpte1 by lia; rewrite Hfree by (rewrite ?Z.div_mul; lia).
  all: erewrite bind_ret by (by eapply store_pte_ok).
  all: destruct (set_pte_owns s1 d fr1 (k * 4096) t (entry (f * 4096) perm)) as (Hev2 & Hpte2);
    [done|lia|done|apply entry_range; lia|]; change (Z.lor (Z.lor (f * 4096) perm) PTE_P) with (entry (f * 4096) perm);
    set (s2 := with_pages s1 _) in *; clearbody s2.
  all: assert (Hmap : mapped s s2 d k 1 f perm)
    by (intros va Hva; rewrite Hpte2, Z.div_mul, Hpte1 by lia; repeat case_decide; first [lia|done|f_equal; lia]).
  - rewrite Z.add_0_r, Z.eqb_refl. exists 0, 1%nat, s2, fr1. split_and!; [done|by eapply evolves_trans|lia|done|by left].
  - rewrite (proj2 (Z.eqb_neq _ _)) by lia. unfold PGSIZE. rewrite !u32_small by lia.
    replace (k * 4096 + 4096) with ((k + 1) * 4096) by lia. replace (f * 4096 + 4096) with ((f + 1) * 4096) by lia.
    replace ((k + Z.of_nat (S n)) * 4096) with ((k + 1 + Z.of_nat n) * 4096) by lia.
    destruct (IH fuel s2 fr1 (k + 1) (f + 1)) as (r & m & s3 & fr3 & E3 & Hev3 & Hc3 & Hmap3 & Hr3); try lia; [apply Hev2| |].
    + intros va Hva Hr. rewrite Hmap by done. rewrite decide_False by lia. apply Hfree; lia.
    + exists r, (S m), s3, fr3. split_and!; [exact E3|by do 2 (eapply evolves_trans; [done|])|lia|by eapply mapped_cons|].
      destruct Hr3 as [[-> ->]|(-> & ? & ->)]; [by left|right; split_and!; [done|lia|done]].
Qed.

(** ** User memory *)
Definition frame (e : Z) : Z := P2V (PTE_ADDR e).
Definition user (e : Z) : bool := has e PTE_P && has e PTE_U.

(** The byte a user program reads at [va]. *)
Definition ubyte (s : kstate) (d va : Z) : option Z :=
  let e := pte (mem (kmem s)) d va in
  if user e then pg ← mem (kmem s) !! frame e; pg !! Z.to_nat (va `mod` 4096) else None.

(** The pages below [KERNBASE] have frames of their own: allocated pages the
    paging code does not touch, different for different pages.  Above
    [KERNBASE] nothing is open to users. *)
Record frames_ok (s : kstate) (d : Z) (fr : list Z) : Prop := {
  fo_page : forall va, 0 <= va < KERNBASE -> has (pte (mem (kmem s)) d va) PTE_P = true ->
    is_page (mem (kmem s)) (frame (pte (mem (kmem s)) d va)) /\
    private s d fr (frame (pte (mem (kmem s)) d va)) /\
    Kalloc.valid_page (kmem s) (frame (pte (mem (kmem s)) d va)) /\ PTE_ADDR (pte (mem (kmem s)) d va) <> 0;
  fo_inj : forall va va', 0 <= va < KERNBASE -> 0 <= va' < KERNBASE ->
    has (pte (mem (kmem s)) d va) PTE_P = true -> has (pte (mem (kmem s)) d va') PTE_P = true ->
    frame (pte (mem (kmem s)) d va) = frame (pte (mem (kmem s)) d va') -> va `div` 4096 = va' `div` 4096;
  fo_kern : forall va, KERNBASE <= va < 2 ^ 32 -> user (pte (mem (kmem s)) d va) = false;
}.

Lemma user_low s d fr va : frames_ok s d fr -> 0 <= va < 2 ^ 32 -> user (pte (mem (kmem s)) d va) = true ->
  0 <= va < KERNBASE /\ has (pte (mem (kmem s)) d va) PTE_P = true.
Proof.
  intros Hfo Hva Hu. split; [|by apply andb_true_iff in Hu as [? _]].
  destruct (decide (va < KERNBASE)); [lia|]. rewrite (fo_kern _ _ _ Hfo) in Hu; [done|lia].
Qed.

Lemma pte_page s d va va' : va `div` 4096 = va' `div` 4096 -> pte (mem (kmem s)) d va = pte (mem (kmem s)) d va'.
Proof.
  intros E. unfold pte. assert (PDX va = PDX va' /\ PTX va = PTX va') as [-> ->]; [|done].
  rewrite !PDX_eq, !PTX_eq, E. split; [|done]. change 4194304 with (4096 * 1024). by rewrite <- !Zdiv_Zdiv, E by lia.
Qed.

(** Storing into a private page changes no translation. *)
Lemma private_store s d fr q pg :
  owns s d fr -> private s d fr q -> is_page (mem (kmem s)) q -> length pg = 4096%nat ->
  let s' := with_pages s (<[q := pg]> (mem (kmem s))) in
  owns s' d fr /\ (forall va, pte (mem (kmem s')) d va = pte (mem (kmem s)) d va) /\
  (forall p, is_page (mem (kmem s)) p -> is_page (mem (kmem s')) p) /\ (forall p, private s d fr p -> private s' d fr p).
Proof.
  intros [Hsp Hfree Hlock] (Hqf & Hqd & Hqt) Hq Hl s'.
  assert (Hw : forall p i, p <> q -> word (mem (kmem s')) p i = word (mem (kmem s)) p i).
  { intros p i Hp. unfold word. cbn. by rewrite lookup_insert_ne. }
  assert (Htab : forall i, table (mem (kmem s')) d i = table (mem (kmem s)) d i).
  { intros i. apply table_ext, Hw. done. }
  assert (Hpg : forall p, is_page (mem (kmem s)) p -> is_page (mem (kmem s')) p).
  { intros p (pg' & Hp & Hl'). cbn. destruct (decide (q = p)) as [<-|]; [exists pg|exists pg'].
    - by rewrite lookup_insert_eq.
    - by rewrite lookup_insert_ne. }
  split_and!; [| |done|].
  - split; [|eapply repr_ext; [..|exact Hfree]; [done|done|]|done].
    + destruct Hsp as [H1 H2 H3 H4 H5]. split; [auto|done| | |eapply Forall_impl; [exact H5|auto]].
      * intros i t Hi Ht. rewrite Htab in Ht. destruct (H3 i t Hi Ht) as (?&?&?). auto.
      * intros i j t Hi Hj Ht1 Ht2. rewrite Htab in Ht1, Ht2. by eapply H4.
    + intros x Hx. cbn. apply lookup_insert_ne. naive_solver.
  - intros va. unfold pte. rewrite Htab. destruct (table (mem (kmem s)) d (PDX va)) as [t|] eqn:Et; [|done].
    apply Hw. intros ->. by apply (Hqt (PDX va) (PDX_range va)).
  - intros p (H1 & H2 & H3). split_and!; [done..|]. intros i Hi. rewrite Htab. by apply H3.
Qed.

(** [s'] is [s] with the user bytes [l] stored at [va]. *)
Record wrote (s : kstate) (d : Z) (fr : list Z) (va : Z) (l : list Z) (s' : kstate) : Prop := {
  wr_owns : owns s' d fr;
  wr_frames : frames_ok s' d fr;
  wr_pte : forall va', pte (mem (kmem s')) d va' = pte (mem (kmem s)) d va';
  wr_bytes : forall va', 0 <= va' < 2 ^ 32 -> ubyte s' d va' =
    if decide (va <= va' < va + Z.of_nat (length l)) then l !! Z.to_nat (va' - va) else ubyte s d va';
}.

Lemma wrote_nil s d fr va : owns s d fr -> frames_ok s d fr -> wrote s d fr va [] s.
Proof. intros. split; [done..|]. intros va' Hva'. rewrite decide_False by (simpl; lia). done. Qed.

Lemma wrote_app s d fr va l1 s1 l2 s2 :
  wrote s d fr va l1 s1 -> wrote s1 d fr (va + Z.of_nat (length l1)) l2 s2 -> wrote s d fr va (l1 ++ l2) s2.
Proof.
  intros [A1 A2 A3 A4] [B1 B2 B3 B4]. split; [done|done|intros; by rewrite B3, A3|].
  intros va' Hva'. rewrite B4, A4, length_app by done. repeat case_decide; try lia; try done.
  - rewrite lookup_app_r by lia. f_equal. lia.
  - rewrite lookup_app_l by lia. done.
Qed.

(** One page of [copyout]. *)
Lemma write_page s d fr va l :
  owns s d fr -> frames_ok s d fr -> 0 <= va < 2 ^ 32 -> user (pte (mem (kmem s)) d va) = true ->
  va `mod` 4096 + Z.of_nat (length l) <= 4096 ->
  exists s', page_write (frame (pte (mem (kmem s)) d va)) (va `mod` 4096) l (Z.of_nat (length l)) "copyout" s = Ret tt s' /\
    wrote s d fr va l s'.
Proof.
  intros Hown Hfo Hva Hu Hlen. pose proof (Z.mod_pos_bound va 4096 ltac:(lia)) as Hoff.
  destruct (user_low _ _ _ _ Hfo Hva Hu) as [Hlow Hpres].
  destruct (fo_page _ _ _ Hfo va Hlow Hpres) as ((pg & Hq & Hl) & Hpriv & _).
  set (q := frame (pte (mem (kmem s)) d va)) in *. eexists. split.
  { apply (page_write_ok q (va `mod` 4096) l _ _ pg); [done|lia|lia|lia|lia]. }
  rewrite firstn_all2 by lia.
  set (pg' := blit pg (Z.to_nat (va `mod` 4096)) l).
  assert (Hl' : length pg' = 4096%nat) by (unfold pg'; rewrite length_blit; lia).
  change (s <| kmem := _ |>) with (with_pages s (<[q := pg']> (mem (kmem s)))).
  destruct (private_store s d fr q pg' Hown Hpriv ltac:(by exists pg) Hl') as (Hown' & Hpte & Hpg & Hpr).
  set (s' := with_pages s _) in *. split; [done| |done|].
  - split.
    + intros va' Hva'. rewrite !Hpte. intros Hu'. destruct (fo_page _ _ _ Hfo va' Hva' Hu') as (?&?&?&?). auto.
    + intros va1 va2 H1 H2. rewrite !Hpte. by eapply (fo_inj _ _ _ Hfo).
    + intros va' Hva'. rewrite Hpte. by apply (fo_kern _ _ _ Hfo).
  - intros va' Hva'. unfold ubyte. rewrite Hpte.
    destruct (user (pte (mem (kmem s)) d va')) eqn:Hu'.
    + cbn [kmem s' with_pages setf mem]. destruct (decide (frame (pte (mem (kmem s)) d va') = q)) as [Eq|Ne].
      * destruct (user_low _ _ _ _ Hfo Hva' Hu') as [Hlow' Hpres'].
        assert (Hsame : va' `div` 4096 = va `div` 4096) by (by eapply (fo_inj _ _ _ Hfo)).
        rewrite Eq, lookup_insert_eq, Hq. cbn [mbind option_bind]. unfold pg'.
        rewrite lookup_blit by lia. pose proof (Z.mod_pos_bound va' 4096 ltac:(lia)).
        pose proof (Z.div_mod va 4096 ltac:(lia)). pose proof (Z.div_mod va' 4096 ltac:(lia)).
        repeat case_decide; try lia; [f_equal; lia|done].
      * rewrite lookup_insert_ne by done. rewrite decide_False; [done|]. intros Hin. apply Ne. unfold q. f_equal.
        apply pte_page. zlia.
    + rewrite decide_False; [done|]. intros Hin. assert (Hs : va' `div` 4096 = va `div` 4096) by zlia.
      rewrite (pte_page s d va' va Hs) in Hu'. congruence.
Qed.

(** ** [copyout] *)
Lemma uva2ka_present s d fr va t :
  owns s d fr -> table (mem (kmem s)) d (PDX va) = Some t ->
  uva2ka d va s = Ret (if user (pte (mem (kmem s)) d va) then frame (pte (mem (kmem s)) d va) else 0) s.
Proof.
  intros Hown Ht. unfold uva2ka. erewrite bind_ret by (by eapply walk_present).
  cbv beta iota. erewrite bind_ret by (by eapply load_pte). unfold user.
  by destruct (has _ PTE_P), (has _ PTE_U).
Qed.

Lemma user_table s d va : user (pte (mem (kmem s)) d va) = true ->
  exists t, table (mem (kmem s)) d (PDX va) = Some t.
Proof. unfold pte. destruct (table _ _ _) as [t|]; [eauto|done]. Qed.

Lemma rounddown_page va : 0 <= va -> PGROUNDDOWN va `div` 4096 = va `div` 4096 /\ va - PGROUNDDOWN va = va `mod` 4096.
Proof. intros. rewrite PGROUNDDOWN_eq. zlia. Qed.

Lemma copyout_loop_ok fuel s d fr va p len :
  owns s d fr -> frames_ok s d fr -> 0 <= va -> 0 <= len <= Z.of_nat (length p) -> va + len < 2 ^ 32 ->
  va `mod` 4096 + len <= 4096 * (Z.of_nat fuel - 1) ->
  (forall va', va <= va' < va + len -> user (pte (mem (kmem s)) d va') = true) ->
  exists s', copyout_loop fuel d va p len s = Ret 0 s' /\ wrote s d fr va (take (Z.to_nat len) p) s'.
Proof.
  revert s va p len. induction fuel as [|fuel IH]; intros s va p len Hown Hfo Hva Hlen Hend Hfuel Hu.
  { pose proof (Z.mod_pos_bound va 4096 ltac:(lia)). lia. }
  cbn [copyout_loop]. destruct (Z.ltb_spec 0 len) as [Hpos|Hz].
  2:{ assert (len = 0) as -> by lia. exists s. split; [done|]. by apply wrote_nil. }
  pose proof (Z.mod_pos_bound va 4096 ltac:(lia)) as Hoff. destruct (rounddown_page va Hva) as [Hpage Hofs].
  assert (Huva : user (pte (mem (kmem s)) d va) = true) by (apply Hu; lia).
  assert (Hpp : pte (mem (kmem s)) d (PGROUNDDOWN va) = pte (mem (kmem s)) d va) by (by apply pte_page).
  destruct (user_table s d (PGROUNDDOWN va)) as [t Ht]; [by rewrite Hpp|].
  destruct (user_low _ _ _ va Hfo ltac:(lia) Huva) as [Hlow Hpres].
  destruct (fo_page _ _ _ Hfo va Hlow Hpres) as (_ & _ & Hvp%Kalloc.valid_page_le & _).
  erewrite bind_ret by (by eapply uva2ka_present). rewrite Hpp, Huva, (proj2 (Z.eqb_neq _ 0)) by lia.
  rewrite Hofs. unfold PGSIZE. set (n := if len <? _ then _ else _).
  assert (Hn : 0 < n <= len /\ va `mod` 4096 + n <= 4096 /\ (n < len -> va `mod` 4096 + n = 4096)).
  { unfold n. destruct (Z.ltb_spec len (4096 - va `mod` 4096)); lia. }
  clearbody n. destruct (write_page s d fr va (take (Z.to_nat n) p)) as (s1 & E1 & Hw1);
    [done|done|lia|done|rewrite length_take; lia|]. rewrite length_take, Nat.min_l, Z2Nat.id in E1 by lia.
  assert (E1' : page_write (frame (pte (mem (kmem s)) d va)) (va `mod` 4096) p n "copyout" s = Ret tt s1).
  { rewrite <- E1. unfold page_write. rewrite !bind_gets. destruct (mem (kmem s) !! _); [|done]. cbn [need].
    rewrite !bind_mret. unfold memmove. rewrite !u32_small by lia. rewrite length_take, take_take, !Nat.min_l by lia.
    rewrite Z2Nat.id by lia. rewrite !(proj2 (Z.leb_le n _)) by lia. done. }
  erewrite bind_ret by exact E1'. rewrite PGROUNDDOWN_eq.
  destruct (decide (n = len)) as [->|Hne].
  - exists s1. split; [|done]. rewrite Z.sub_diag. destruct fuel; [lia|]. done.
  - assert (Hva' : va `div` 4096 * 4096 + 4096 = va + n) by zlia. rewrite Hva', u32_small by lia.
    destruct (IH s1 (va + n) (drop (Z.to_nat n) p) (len - n)) as (s2 & E2 & Hw2); [apply Hw1|apply Hw1|lia| |lia| | |].
    + rewrite length_drop. lia.
    + rewrite <- Hva'. rewrite Z.mul_comm in Hva'. clear - Hn Hfuel Hne Hlen. zlia.
    + intros va' Hin. rewrite (wr_pte _ _ _ _ _ _ Hw1). apply Hu. lia.
    + exists s2. split; [done|]. replace (take (Z.to_nat len) p)
        with (take (Z.to_nat n) p ++ take (Z.to_nat (len - n)) (drop (Z.to_nat n) p)).
      * eapply wrote_app; [done|]. rewrite length_take, Nat.min_l, Z2Nat.id by lia. done.
      * rewrite take_take_drop. f_equal. lia.
Qed.

(** ** Freeing user pages *)
Lemma has_0 b : has 0 b = false.
Proof. unfold has. by rewrite Z.land_0_l. Qed.

Lemma length_free_page n : length (Kalloc.free_page_bytes n) = 4096%nat.
Proof.
  unfold Kalloc.free_page_bytes. rewrite length_blit.
  - rewrite length_replicate. vm_compute. reflexivity.
  - rewrite length_replicate. change (length (le32 n)) with 4%nat. apply Nat2Z.inj_le. vm_compute. discriminate.
Qed.

(** Freeing a page that is not mapped changes no translation. *)
Lemma free_private s d fr q :
  owns s d fr -> private s d fr q -> is_page (mem (kmem s)) q -> Kalloc.valid_page (kmem s) q ->
  let s' := Kalloc.kfree_result q s in
  Kalloc.kfree q s = Ret tt s' /\ owns s' d (q :: fr) /\
  (forall va, pte (mem (kmem s')) d va = pte (mem (kmem s)) d va) /\
  (forall i, table (mem (kmem s')) d i = table (mem (kmem s)) d i) /\
  (forall p, private s d fr p -> p <> q -> mem (kmem s') !! p = mem (kmem s) !! p /\ private s' d (q :: fr) p).
Proof.
  intros Hown Hpriv Hpg Hval s'. pose proof Hown as [_ Hfree Hlock]. pose proof Hpriv as (Hqf & Hqd & Hqt).
  split; [by apply Kalloc.kfree_ok|].
  destruct (private_store s d fr q _ Hown Hpriv Hpg (length_free_page (freelist (kmem s)))) as ([Hsp1 _ _] & Hpte1 & Hpg1 & Hpr1).
  assert (Htab : forall i, table (mem (kmem s')) d i = table (mem (kmem s)) d i).
  { intros i. apply table_ext. unfold word. cbn. by rewrite lookup_insert_ne. }
  split_and!; [|exact Hpte1|exact Htab|].
  - split; [|by apply Kalloc.kfree_repr|done]. destruct Hsp1 as [H1 H2 H3 H4 H5].
    split; [done|by apply not_elem_of_cons| |done|].
    + intros i t' Hi Ht'. destruct (H3 i t' Hi Ht') as (? & ? & ?). split_and!; [done..|].
      apply not_elem_of_cons. split; [|done]. intros ->. apply (Hpr1 q Hpriv) in Ht'; done.
    + constructor; [|done]. eexists. cbn. rewrite lookup_insert_eq. split; [done|]. apply length_free_page.
  - intros p Hp Hne. split; [cbn; by rewrite lookup_insert_ne|]. destruct (Hpr1 p Hp) as (G1 & G2 & G3).
    split_and!; [by apply not_elem_of_cons|done|exact G3].
Qed.

(** [kfree(P2V(pa)); *pte = 0;] for the page of [va]. *)
Lemma free_frame s d fr va t :
  owns s d fr -> frames_ok s d fr -> 0 <= va < KERNBASE -> table (mem (kmem s)) d (PDX va) = Some t ->
  has (pte (mem (kmem s)) d va) PTE_P = true ->
  let q := frame (pte (mem (kmem s)) d va) in
  exists s', (Kalloc.kfree q ;; store_word t (PTX va) 0) s = Ret tt s' /\
    owns s' d (q :: fr) /\
    (forall va', 0 <= va' < 2 ^ 32 -> pte (mem (kmem s')) d va' =
       if decide (va' `div` 4096 = va `div` 4096) then 0 else pte (mem (kmem s)) d va') /\
    (forall p, private s d fr p -> p <> q -> mem (kmem s') !! p = mem (kmem s) !! p /\ private s' d (q :: fr) p) /\
    s' = s <| kmem := kmem s' |> /\ end_ (kmem s') = end_ (kmem s) /\
    (forall i, table (mem (kmem s')) d i = table (mem (kmem s)) d i).
Proof.
  intros Hown Hfo Hva Ht Hp q.
  destruct (fo_page _ _ _ Hfo va Hva Hp) as (Hpg & Hpriv & Hval & _). fold q in Hpg, Hpriv, Hval.
  destruct (free_private s d fr q Hown Hpriv Hpg Hval) as (E & Hown1 & Hpte1 & Htab1 & Hpr1).
  erewrite bind_ret by exact E. erewrite store_pte_ok by (done || (rewrite Htab1; exact Ht)).
  eexists. split; [done|].
  destruct (set_pte_owns _ d (q :: fr) va t 0 Hown1) as (Hev & Hpte2);
    [unfold KERNBASE in *; lia|by rewrite Htab1|lia|].
  split_and!; [apply Hev| | |done|done|].
  3:{ intros i. rewrite <- Htab1. apply table_set_word. destruct (sp_table _ _ _ (ow_space _ _ _ Hown) _ _ (PDX_range va) Ht). naive_solver. }
  - intros va' Hva'. rewrite Hpte2 by done. case_decide; [done|]. apply Hpte1.
  - intros p Hp1 Hp2. destruct (Hpr1 p Hp1 Hp2) as [E1 Hp3].
    destruct (ev_private _ _ _ _ _ Hev p Hp3) as [E2 Hp4]. split; [by rewrite E2|done].
Qed.

(** [s'] is [s] with the pages [k <= . < j] unmapped and their frames freed. *)
Record shrunk (s : kstate) (d : Z) (fr : list Z) (k j : Z) (s' : kstate) (fr' : list Z) : Prop := {
  sh_owns : owns s' d fr';
  sh_frames : frames_ok s' d fr';
  sh_pte : forall va, 0 <= va < 2 ^ 32 -> pte (mem (kmem s')) d va =
    if decide (k <= va `div` 4096 < j /\ has (pte (mem (kmem s)) d va) PTE_P = true) then 0
    else pte (mem (kmem s)) d va;
  sh_free : exists freed, fr' = freed ++ fr /\ forall x, x ∈ freed <->
    exists va, 0 <= va < KERNBASE /\ k <= va `div` 4096 < j /\
      has (pte (mem (kmem s)) d va) PTE_P = true /\ x = frame (pte (mem (kmem s)) d va);
  sh_private : forall q, private s d fr q ->
    (forall va, 0 <= va < KERNBASE -> k <= va `div` 4096 < j -> has (pte (mem (kmem s)) d va) PTE_P = true ->
       q <> frame (pte (mem (kmem s)) d va)) ->
    mem (kmem s') !! q = mem (kmem s) !! q /\ private s' d fr' q;
  sh_state : s' = s <| kmem := kmem s' |>;
  sh_end : end_ (kmem s') = end_ (kmem s);
  sh_table : forall i, table (mem (kmem s')) d i = table (mem (kmem s)) d i;
}.

Lemma shrunk_none s d fr k j : owns s d fr -> frames_ok s d fr ->
  (forall va, 0 <= va < 2 ^ 32 -> k <= va `div` 4096 < j -> has (pte (mem (kmem s)) d va) PTE_P = false) ->
  shrunk s d fr k j s fr.
Proof.
  intros Hown Hfo Hnone. split; [done|done| | |done|by destruct s|done|done].
  - intros va Hva. rewrite decide_False; [done|]. intros [Hr Hp]. by rewrite Hnone in Hp.
  - exists []. split; [done|]. intros x. split; [set_solver|]. intros (va & Hva & Hr & Hp & _).
    rewrite Hnone in Hp; [done|unfold KERNBASE in *; lia|done].
Qed.

Lemma shrunk_trans s d fr k j i s1 f1 s2 f2 :
  frames_ok s d fr -> k <= j <= i -> shrunk s d fr k j s1 f1 -> shrunk s1 d f1 j i s2 f2 -> shrunk s d fr k i s2 f2.
Proof.
  intros Hfo Hkj [A1 A2 A3 (l1 & -> & A4) A5 A6 A7 A8] [B1 B2 B3 (l2 & -> & B4) B5 B6 B7 B8].
  assert (Hlow : forall va, 0 <= va < KERNBASE -> 0 <= va < 2 ^ 32) by (unfold KERNBASE; intros; lia).
  assert (Hsame : forall va, 0 <= va < 2 ^ 32 -> j <= va `div` 4096 < i -> pte (mem (kmem s1)) d va = pte (mem (kmem s)) d va).
  { intros va Hva Hr. rewrite A3 by done. rewrite decide_False; [done|lia]. }
  split; [done|done| | | |by rewrite B6, A6|congruence|congruence].
  - intros va Hva. rewrite B3, A3 by done.
    destruct (decide (k <= va `div` 4096 < j /\ _)) as [[H1 Hp]|H1].
    + rewrite (decide_True (P := k <= _ < i /\ _)) by (split; [lia|done]). by case_decide.
    + destruct (decide (j <= _ < i /\ _)) as [[H2 Hp]|H2].
      * by rewrite decide_True by (split; [lia|done]).
      * rewrite decide_False; [done|]. intros [Hr Hp].
        destruct (decide (va `div` 4096 < j)); [apply H1|apply H2]; (split; [lia|done]).
  - exists (l2 ++ l1). split; [by rewrite app_assoc|]. intros x. rewrite elem_of_app, B4, A4. split.
    + intros [(va & Hva & Hr & Hp & ->)|(va & Hva & Hr & Hp & ->)]; exists va; [rewrite Hsame in * by auto|];
        (split_and!; [lia..|done|done]).
    + intros (va & Hva & Hr & Hp & ->). destruct (decide (va `div` 4096 < j)); [right|left]; exists va;
        rewrite ?Hsame by (auto || lia); (split_and!; [lia..|done|done]).
  - intros q Hq Hne. destruct (A5 q Hq) as [E1 Hq1]; [intros; apply Hne; lia || done|].
    destruct (B5 q Hq1) as [E2 Hq2]; [|by rewrite E2, E1].
    intros va Hva Hr Hp. rewrite Hsame in * by auto. apply Hne; [done|lia|done].
Qed.

Lemma free_frame_shrinks s d fr k t :
  owns s d fr -> frames_ok s d fr -> 0 <= k -> k * 4096 < KERNBASE ->
  table (mem (kmem s)) d (PDX (k * 4096)) = Some t -> has (pte (mem (kmem s)) d (k * 4096)) PTE_P = true ->
  exists s', (Kalloc.kfree (frame (pte (mem (kmem s)) d (k * 4096))) ;; store_word t (PTX (k * 4096)) 0) s = Ret tt s' /\
    shrunk s d fr k (k + 1) s' (frame (pte (mem (kmem s)) d (k * 4096)) :: fr).
Proof.
  intros Hown Hfo Hk Hkb Ht Hp.
  destruct (free_frame s d fr (k * 4096) t Hown Hfo ltac:(lia) Ht Hp) as (s' & E & Hown' & Hpte & Hpriv & Hs & He & Htb).
  exists s'. split; [exact E|]. set (q := frame (pte (mem (kmem s)) d (k * 4096))) in *.
  assert (Hkk : forall va, va `div` 4096 = k -> pte (mem (kmem s)) d va = pte (mem (kmem s)) d (k * 4096)).
  { intros va Hva. apply pte_page. by rewrite Z.div_mul. }
  rewrite Z.div_mul in Hpte by lia.
  assert (Hpres : forall va, 0 <= va < KERNBASE -> has (pte (mem (kmem s')) d va) PTE_P = true ->
    pte (mem (kmem s')) d va = pte (mem (kmem s)) d va /\ va `div` 4096 <> k).
  { intros va Hva. rewrite Hpte by (unfold KERNBASE in *; lia). case_decide; [by rewrite has_0|done]. }
  assert (Hq : forall va, 0 <= va < KERNBASE -> has (pte (mem (kmem s)) d va) PTE_P = true -> va `div` 4096 <> k ->
    frame (pte (mem (kmem s)) d va) <> q).
  { intros va Hva Hpv Hne Hf. apply Hne. rewrite <- (Z.div_mul k 4096) by lia.
    by eapply (fo_inj _ _ _ Hfo va (k * 4096)); [done|lia|..]. }
  split; [done| | | | |done|done|done].
  - split.
    + intros va Hva Hpv. destruct (Hpres va Hva Hpv) as [Epte Hne]. rewrite Epte in *.
      destruct (fo_page _ _ _ Hfo va Hva Hpv) as ((pg & Hpg & Hl) & Hpr & Hval & Ha).
      destruct (Hpriv _ Hpr (Hq va Hva Hpv Hne)) as [Em Hpr']. split_and!; [exists pg; by rewrite Em|done| |done].
      unfold Kalloc.valid_page in *. by rewrite He.
    + intros va va' Hva Hva' H1 H2. destruct (Hpres va Hva H1) as [E1 _], (Hpres va' Hva' H2) as [E2 _].
      rewrite E1, E2 in *. by apply (fo_inj _ _ _ Hfo).
    + intros va Hva. rewrite Hpte by (unfold KERNBASE in *; lia).
      rewrite decide_False by (unfold KERNBASE in *; zlia). by apply (fo_kern _ _ _ Hfo).
  - intros va Hva. rewrite Hpte by done. destruct (decide (va `div` 4096 = k)) as [Ek|Ek].
    + rewrite decide_True; [done|]. split; [lia|by rewrite Hkk].
    + rewrite decide_False by lia. done.
  - exists [q]. split; [done|]. intros x. rewrite list_elem_of_singleton. split.
    + intros ->. exists (k * 4096). rewrite Z.div_mul by lia. split_and!; [lia..|done|done].
    + intros (va & Hva & Hr & Hpv & ->). unfold q. by rewrite Hkk by lia.
  - intros p Hpp Hne. apply Hpriv; [done|]. unfold q. apply Hne; [lia|rewrite Z.div_mul; lia|done].
Qed.

(** The body of the loop of [deallocuvm] for a page with a table. *)
Lemma dealloc_page s d fr k t :
  owns s d fr -> frames_ok s d fr -> 0 <= k -> k * 4096 < KERNBASE ->
  table (mem (kmem s)) d (PDX (k * 4096)) = Some t ->
  let e := pte (mem (kmem s)) d (k * 4096) in
  exists s' fr', (if has e PTE_P
     then if PTE_ADDR e =? 0 then panic "kfree" else Kalloc.kfree (P2V (PTE_ADDR e)) ;; store_word t (PTX (k * 4096)) 0
     else mret tt) s = Ret tt s' /\ shrunk s d fr k (k + 1) s' fr'.
Proof.
  intros Hown Hfo Hk Hkb Ht e. unfold e. clear e. destruct (has (pte _ _ _) PTE_P) eqn:Hp.
  - destruct (fo_page _ _ _ Hfo (k * 4096)) as (_ & _ & _ & Ha); [lia|done|].
    rewrite (proj2 (Z.eqb_neq _ _) Ha). destruct (free_frame_shrinks s d fr k t) as (s1 & E & Hsh); [done..|]. eauto.
  - exists s, fr. split; [done|]. apply shrunk_none; [done..|]. intros va Hva Hr.
    rewrite (pte_page s d va (k * 4096)); [done|]. rewrite Z.div_mul; lia.
Qed.

(** Where the loop goes on when the directory has no table. *)
Lemma skip_eq k : 0 <= k -> k * 4096 < KERNBASE ->
  u32 (u32 (PGADDR (PDX (k * 4096) + 1) 0 0 - PGSIZE) + PGSIZE) = (k `div` 1024 + 1) * 1024 * 4096.
Proof.
  intros Hk Hkb. unfold KERNBASE in Hkb. assert (E : PDX (k * 4096) = k `div` 1024) by (rewrite PDX_eq; zlia).
  unfold PGADDR, PGSIZE. rewrite Z.shiftl_0_l, !Z.lor_0_r, E, Z.shiftl_mul_pow2 by lia.
  change (2 ^ 22) with 4194304. rewrite (u32_small (_ * 4194304)), !u32_small by zlia. lia.
Qed.

Lemma skip_none s d k va : 0 <= k -> 0 <= va < 2 ^ 32 -> table (mem (kmem s)) d (PDX (k * 4096)) = None ->
  k <= va `div` 4096 < (k `div` 1024 + 1) * 1024 -> pte (mem (kmem s)) d va = 0.
Proof.
  intros Hk Hva Ht Hr. unfold pte. replace (PDX va) with (PDX (k * 4096)); [by rewrite Ht|].
  rewrite !PDX_eq. zlia.
Qed.

Lemma deallocuvm_loop_ok fuel s d fr k oldsz :
  owns s d fr -> frames_ok s d fr -> 0 <= k -> oldsz <= KERNBASE ->
  let j := Z.max k ((oldsz + 4095) `div` 4096) in
  j - k < Z.of_nat fuel ->
  exists s' fr', deallocuvm_loop fuel d (k * 4096) oldsz s = Ret tt s' /\ shrunk s d fr k j s' fr'.
Proof.
  revert s fr k. induction fuel as [|fuel IH]; intros s fr k Hown Hfo Hk Hold j Hfuel; [lia|].
  unfold KERNBASE in Hold. cbn [deallocuvm_loop]. destruct (Z.ltb_spec (k * 4096) oldsz) as [Hlt|Hge].
  2:{ assert (j = k) as -> by (unfold j; zlia). exists s, fr. split; [done|]. apply shrunk_none; [done..|lia]. }
  assert (Hj : k < j /\ j = (oldsz + 4095) `div` 4096) by (unfold j; zlia). destruct Hj as [Hkj Hj].
  destruct (table (mem (kmem s)) d (PDX (k * 4096))) as [t|] eqn:Ht.
  - erewrite bind_ret by (by eapply walk_present). cbv beta iota. erewrite bind_ret by (by eapply load_pte).
    destruct (dealloc_page s d fr k t) as (s1 & fr1 & E1 & Hsh1); [done|done|done|unfold KERNBASE; lia|done|].
    erewrite bind_ret by exact E1.
    unfold PGSIZE. rewrite u32_small by lia. replace (k * 4096 + 4096) with ((k + 1) * 4096) by lia.
    destruct (IH s1 fr1 (k + 1)) as (s2 & fr2 & E2 & Hsh2); [apply Hsh1|apply Hsh1|lia|done|lia|].
    exists s2, fr2. split; [done|]. rewrite Z.max_r in Hsh2 by lia. rewrite <- Hj in Hsh2.
    eapply (shrunk_trans s d fr k (k + 1) j); [done|lia|done..].
  - erewrite bind_ret by (by eapply walk_absent). cbv beta iota. rewrite skip_eq by (unfold KERNBASE; lia).
    set (k' := (k `div` 1024 + 1) * 1024). assert (Hk' : k < k') by (unfold k'; zlia).
    assert (Hnone : forall i, i <= k' -> shrunk s d fr k i s fr).
    { intros i Hi. apply shrunk_none; [done..|]. intros va Hva Hr. rewrite (skip_none s d k) by (done || unfold k' in *; lia).
      apply has_0. }
    destruct (decide (k' <= j)).
    + destruct (IH s fr k') as (s2 & fr2 & E2 & Hsh2); [done|done|lia|done|lia|]. exists s2, fr2. split; [done|].
      rewrite <- Hj, Z.max_r in Hsh2 by lia. eapply (shrunk_trans s d fr k k' j); [done|lia|by apply Hnone|done].
    + exists s, fr. split; [|apply Hnone; lia]. destruct fuel; [lia|]. cbn [deallocuvm_loop].
      by rewrite (proj2 (Z.ltb_ge _ _)) by zlia.
Qed.

(** ** Growing *)

(** [m] is a page of its own: not free, not used for paging, mapped nowhere. *)
Record spare (s : kstate) (d : Z) (fr : list Z) (m : Z) : Prop := {
  spare_page : is_page (mem (kmem s)) m;
  spare_private : private s d fr m;
  spare_valid : Kalloc.valid_page (kmem s) m;
  spare_pa : V2P m <> 0;
  spare_unmapped : forall va, 0 <= va < KERNBASE -> has (pte (mem (kmem s)) d va) PTE_P = true ->
    frame (pte (mem (kmem s)) d va) <> m;
}.

(** Operations that keep the mapped pages and their contents. *)
Record keeps (s : kstate) (d : Z) (fr : list Z) (s' : kstate) (fr' : list Z) : Prop := {
  ke_owns : owns s' d fr';
  ke_frames : frames_ok s' d fr';
  ke_pte : forall va, 0 <= va < 2 ^ 32 -> pte (mem (kmem s')) d va = pte (mem (kmem s)) d va;
  ke_bytes : forall va, 0 <= va < 2 ^ 32 -> ubyte s' d va = ubyte s d va;
}.

Lemma keeps_intro s d fr s' fr' :
  owns s' d fr' -> frames_ok s d fr -> end_ (kmem s') = end_ (kmem s) ->
  (forall va, 0 <= va < 2 ^ 32 -> pte (mem (kmem s')) d va = pte (mem (kmem s)) d va) ->
  (forall va, 0 <= va < KERNBASE -> has (pte (mem (kmem s)) d va) PTE_P = true ->
     let q := frame (pte (mem (kmem s)) d va) in mem (kmem s') !! q = mem (kmem s) !! q /\ private s' d fr' q) ->
  keeps s d fr s' fr'.
Proof.
  intros Hown Hfo He Hpte Hq. assert (Hlow : forall va, 0 <= va < KERNBASE -> 0 <= va < 2 ^ 32) by (unfold KERNBASE; intros; lia).
  split; [done| |done|].
  - split.
    + intros va Hva. rewrite Hpte by auto. intros Hp. destruct (Hq va Hva Hp) as [E Hpr].
      destruct (fo_page _ _ _ Hfo va Hva Hp) as ((pg & Hpg & Hl) & _ & Hval & Ha).
      split_and!; [exists pg; by rewrite E|done| |done]. unfold Kalloc.valid_page in *. by rewrite He.
    + intros va va' Hva Hva'. rewrite !Hpte by auto. by apply (fo_inj _ _ _ Hfo).
    + intros va Hva. rewrite Hpte by (unfold KERNBASE in *; lia). by apply (fo_kern _ _ _ Hfo).
  - intros va Hva. unfold ubyte. rewrite Hpte by done. destruct (user _) eqn:Hu; [|done].
    destruct (user_low _ _ _ _ Hfo Hva Hu) as [Hl Hp]. by destruct (Hq va Hl Hp) as [-> _].
Qed.

(** [kalloc] takes a spare page from the free list. *)
Lemma kalloc_spare s d m fr :
  owns s d (m :: fr) -> frames_ok s d (m :: fr) -> V2P m <> 0 ->
  exists s', Kalloc.kalloc s = Ret m s' /\ m <> 0 /\ keeps s d (m :: fr) s' fr /\ spare s' d fr m /\
    (forall q, private s d (m :: fr) q -> mem (kmem s') !! q = mem (kmem s) !! q /\ private s' d fr q) /\
    s' = s <| kmem := kmem s' |> /\ end_ (kmem s') = end_ (kmem s).
Proof.
  intros [Hsp Hfree Hlock] Hfo Hpa. destruct (Kalloc.kalloc_ok s _ Hfree Hlock) as (s' & E & Hr & Es).
  cbn [tail] in Hr. change (default 0 (head (m :: fr))) with m in E.
  destruct Hfree as (_ & Hnd & Hval). apply NoDup_cons in Hnd as [Hmf _]. apply Forall_cons in Hval as [Hvm _].
  assert (Hm : mem (kmem s') = mem (kmem s)) by (by rewrite Es).
  assert (He : end_ (kmem s') = end_ (kmem s)) by (by rewrite Es).
  assert (Hpr : forall q, private s d (m :: fr) q -> mem (kmem s') !! q = mem (kmem s) !! q /\ private s' d fr q).
  { intros q (H1 & H2 & H3). unfold private. rewrite Hm. apply not_elem_of_cons in H1 as [_ H1]. done. }
  pose proof Hsp as [H1 H2 H3 H4 H5]. apply not_elem_of_cons in H2 as [Hdm Hdf].
  apply Forall_cons in H5 as [Hpm H5].
  assert (Hown' : owns s' d fr).
  { split; [rewrite Hm; split; [done..| |done|done]|done|by rewrite Es].
    intros i t Hi Ht. destruct (H3 i t Hi Ht) as (?&?&Hn). apply not_elem_of_cons in Hn as [_ ?]. done. }
  pose proof (Kalloc.valid_page_le _ _ Hvm). exists s'. split_and!; [done|lia| | |done|by rewrite Es|done].
  - apply keeps_intro; [done|done|done|by rewrite Hm|]. intros va Hva Hp q. apply Hpr.
    by apply (fo_page _ _ _ Hfo va Hva Hp).
  - split; [by rewrite Hm| |unfold Kalloc.valid_page in *; by rewrite He|done|].
    + split_and!; [done|done|]. rewrite Hm. intros i Hi Ht. destruct (H3 i m Hi Ht) as (_ & _ & Hn). set_solver.
    + rewrite Hm. intros va Hva Hp Hf. destruct (fo_page _ _ _ Hfo va Hva Hp) as (_ & (Hn & _) & _). set_solver.
Qed.

Lemma zero_spare s d fr m :
  owns s d fr -> frames_ok s d fr -> spare s d fr m ->
  let s' := with_pages s (<[m := zero_bytes PGSIZE]> (mem (kmem s))) in
  zero_page m s = Ret tt s' /\ keeps s d fr s' fr /\ spare s' d fr m /\
  (forall q, private s d fr q -> q <> m -> mem (kmem s') !! q = mem (kmem s) !! q /\ private s' d fr q).
Proof.
  intros Hown Hfo [Hpg Hpr Hval Hpa Hun] s'. split; [by apply zero_page_ok|].
  destruct (private_store s d fr m (zero_bytes PGSIZE) Hown Hpr Hpg) as (Hown' & Hpte & Hpgs & Hprs);
    [vm_compute; reflexivity|].
  assert (Hq : forall q, private s d fr q -> q <> m -> mem (kmem s') !! q = mem (kmem s) !! q /\ private s' d fr q).
  { intros q Hq Hne. split; [cbn; by rewrite lookup_insert_ne|by apply Hprs]. }
  split_and!; [|split|done].
  - apply keeps_intro; [done|done|done|auto|]. intros va Hva Hp q. apply Hq; [|by apply Hun].
    by apply (fo_page _ _ _ Hfo va Hva Hp).
  - by apply Hpgs.
  - by apply Hprs.
  - done.
  - done.
  - intros va Hva. rewrite Hpte. by apply Hun.
Qed.

(** [s'] is [s] with new zero pages at the page numbers [k <= . < j]. *)
Record grown (s : kstate) (d : Z) (fr : list Z) (k j : Z) (s' : kstate) (fr' : list Z) : Prop := {
  gr_owns : owns s' d fr';
  gr_frames : frames_ok s' d fr';
  gr_pte : forall va, 0 <= va < 2 ^ 32 -> ~ (k <= va `div` 4096 < j) ->
    pte (mem (kmem s')) d va = pte (mem (kmem s)) d va;
  gr_bytes : forall va, 0 <= va < 2 ^ 32 ->
    ubyte s' d va = if decide (k <= va `div` 4096 < j) then Some 0 else ubyte s d va;
  gr_count : Z.of_nat (length fr) <= Z.of_nat (length fr') + 2 * (j - k);
  gr_end : end_ (kmem s') = end_ (kmem s);
  gr_saves : forall x, accounted s d fr x -> accounted s' d fr' x;
}.

Lemma user_perm f : user (entry (f * 4096) (Z.lor PTE_W PTE_U)) = true.
Proof.
  unfold user. rewrite entry_has_P. cbn [andb]. unfold has, entry. apply negb_true_iff, Z.eqb_neq. intros E.
  apply (f_equal (fun z => Z.testbit z 2)) in E. rewrite Z.land_spec, !Z.lor_spec in E.
  change (Z.testbit PTE_U 2) with true in E. rewrite !orb_true_r in E. done.
Qed.

Lemma zero_page_byte j : (j < 4096)%nat -> zero_bytes PGSIZE !! j = Some 0.
Proof.
  intros Hj. unfold zero_bytes. apply lookup_replicate_2. apply Nat2Z.inj_lt.
  change (Z.of_nat (Z.to_nat PGSIZE)) with 4096. lia.
Qed.

(** Page tables and the pages of other addresses stay accounted for. *)
Lemma evolves_saves s d fr s' fr' k x : evolves d s fr s' fr' ->
  (forall va, 0 <= va < KERNBASE -> va `div` 4096 = k -> has (pte (mem (kmem s)) d va) PTE_P = false) ->
  (forall va, 0 <= va < 2 ^ 32 -> va `div` 4096 <> k -> pte (mem (kmem s')) d va = pte (mem (kmem s)) d va) ->
  accounted s d fr x -> accounted s' d fr' x.
Proof.
  intros Hev Hnp Hout Hx. pose proof (ev_saves _ _ _ _ _ Hev) as [Hf Ht]. destruct Hx as [Hx|[Hx|(va & Hva & Hp & Hx)]].
  - destruct (Hf x Hx); [by left|by right; left].
  - right; left. auto.
  - right; right. exists va. rewrite Hout; [done|unfold KERNBASE in *; lia|]. intros E. by rewrite Hnp in Hp.
Qed.

(** A spare zero page becomes the page [k]. *)
Lemma map_spare_ok s d fr m k s' fr' :
  frames_ok s d fr -> spare s d fr m -> mem (kmem s) !! m = Some (zero_bytes PGSIZE) ->
  0 <= k -> k * 4096 < KERNBASE -> has (pte (mem (kmem s)) d (k * 4096)) PTE_P = false ->
  evolves d s fr s' fr' -> (length fr <= length fr' + 1)%nat ->
  mapped s s' d k 1 (V2P m `div` 4096) (Z.lor PTE_W PTE_U) ->
  grown s d fr k (k + 1) s' fr'.
Proof.
  intros Hfo [Hpg Hpr Hval Hpa Hun] Hz Hk Hkb Hnp Hev Hcount Hmap. set (f := V2P m `div` 4096) in *.
  assert (Hlow : forall va, 0 <= va < KERNBASE -> 0 <= va < 2 ^ 32) by (unfold KERNBASE; intros; lia).
  assert (Hf : P2V (f * 4096) = m /\ f * 4096 <> 0).
  { destruct Hval as (Hal & _ & Hr). unfold f, P2V, V2P, KERNBASE, PHYSTOP, PGSIZE in *.
    rewrite u32_small in * by zlia. split; zlia. }
  destruct Hf as [Hfm Hf0].
  assert (Hin : forall va, 0 <= va < 2 ^ 32 -> va `div` 4096 = k ->
    pte (mem (kmem s')) d va = entry (f * 4096) (Z.lor PTE_W PTE_U)).
  { intros va Hva E. rewrite Hmap by done. rewrite decide_True by lia. do 2 f_equal. lia. }
  assert (Hout : forall va, 0 <= va < 2 ^ 32 -> va `div` 4096 <> k -> pte (mem (kmem s')) d va = pte (mem (kmem s)) d va).
  { intros va Hva E. rewrite Hmap by done. rewrite decide_False by lia. done. }
  assert (Haddr : PTE_ADDR (entry (f * 4096) (Z.lor PTE_W PTE_U)) = f * 4096) by (by apply entry_addr).
  assert (Hfr : frame (entry (f * 4096) (Z.lor PTE_W PTE_U)) = m) by (unfold frame; by rewrite Haddr).
  destruct (ev_private _ _ _ _ _ Hev m Hpr) as [Em Hpr'].
  assert (Hnpk : forall va, 0 <= va < KERNBASE -> va `div` 4096 = k -> has (pte (mem (kmem s)) d va) PTE_P = false).
  { intros va Hva E. rewrite (pte_page s d va (k * 4096)); [done|]. rewrite Z.div_mul; lia. }
  split; [apply Hev| | | |lia|apply Hev|intros x; by apply (evolves_saves s d fr s' fr' k)].
  - split.
    + intros va Hva. destruct (decide (va `div` 4096 = k)) as [E|E].
      * rewrite Hin, Haddr, Hfr by auto. intros _. split_and!; [|done| |done].
        -- exists (zero_bytes PGSIZE). rewrite Em. split; [done|vm_compute; reflexivity].
        -- unfold Kalloc.valid_page in *. by rewrite (ev_end _ _ _ _ _ Hev).
      * rewrite Hout by auto. intros Hp. destruct (fo_page _ _ _ Hfo va Hva Hp) as ((pg & Hq & Hl) & Hq2 & Hq3 & Hq4).
        destruct (ev_private _ _ _ _ _ Hev _ Hq2) as [Eq Hq']. split_and!; [exists pg; by rewrite Eq|done| |done].
        unfold Kalloc.valid_page in *. by rewrite (ev_end _ _ _ _ _ Hev).
    + intros va va' Hva Hva'. destruct (decide (va `div` 4096 = k)) as [E|E], (decide (va' `div` 4096 = k)) as [E'|E'].
      * lia.
      * rewrite (Hin va), (Hout va'), Hfr by auto. intros _ H2 H3. by destruct (Hun va' Hva' H2).
      * rewrite (Hout va), (Hin va'), Hfr by auto. intros H1 _ H3. by destruct (Hun va Hva H1).
      * rewrite !Hout by auto. by apply (fo_inj _ _ _ Hfo).
    + intros va Hva. rewrite Hout by (unfold KERNBASE in *; zlia). by apply (fo_kern _ _ _ Hfo).
  - intros va Hva Hr. apply Hout; [done|lia].
  - intros va Hva. unfold ubyte. destruct (decide (va `div` 4096 = k)) as [E|E].
    + rewrite decide_True by lia. rewrite Hin, user_perm, Hfr, Em, Hz by done. cbn [mbind option_bind].
      pose proof (Z.mod_pos_bound va 4096 ltac:(lia)). apply zero_page_byte. lia.
    + rewrite decide_False, Hout by lia. destruct (user _) eqn:Hu; [|done].
      destruct (user_low _ _ _ _ Hfo Hva Hu) as [Hl Hp]. destruct (fo_page _ _ _ Hfo va Hl Hp) as (_ & Hq2 & _).
      by destruct (ev_private _ _ _ _ _ Hev _ Hq2) as [-> _].
Qed.

(** Out of memory: nothing changes and the page is still spare. *)
Lemma map_spare_fails s d fr m k f perm s' fr' :
  frames_ok s d fr -> spare s d fr m -> evolves d s fr s' fr' -> mapped s s' d k 0 f perm ->
  keeps s d fr s' fr' /\ spare s' d fr' m.
Proof.
  intros Hfo [Hpg Hpr Hval Hpa Hun] Hev Hmap.
  assert (Hpte : forall va, 0 <= va < 2 ^ 32 -> pte (mem (kmem s')) d va = pte (mem (kmem s)) d va).
  { intros va Hva. rewrite Hmap by done. rewrite decide_False by lia. done. }
  destruct (ev_private _ _ _ _ _ Hev m Hpr) as [Em Hpr']. split.
  - apply keeps_intro; [apply Hev|done|apply Hev|done|]. intros va Hva Hp q.
    apply (ev_private _ _ _ _ _ Hev). by apply (fo_page _ _ _ Hfo va Hva Hp).
  - split; [|done|unfold Kalloc.valid_page in *; by rewrite (ev_end _ _ _ _ _ Hev)|done|].
    + destruct Hpg as (pg & Hq & Hl). exists pg. by rewrite Em.
    + intros va Hva. rewrite Hpte by (unfold KERNBASE in *; lia). by apply Hun.
Qed.

Lemma keeps_trans s d f0 s1 f1 s2 f2 : keeps s d f0 s1 f1 -> keeps s1 d f1 s2 f2 -> keeps s d f0 s2 f2.
Proof. intros [A1 A2 A3 A4] [B1 B2 B3 B4]. split; [done..| |]; intros va Hva; [by rewrite B3, A3|by rewrite B4, A4]. Qed.

Lemma keeps_grown s d fr s1 f1 k j s2 f2 :
  keeps s d fr s1 f1 -> end_ (kmem s1) = end_ (kmem s) -> grown s1 d f1 k j s2 f2 ->
  Z.of_nat (length fr) <= Z.of_nat (length f2) + 2 * (j - k) ->
  (forall x, accounted s d fr x -> accounted s2 d f2 x) -> grown s d fr k j s2 f2.
Proof.
  intros [A1 A2 A3 A4] He [B1 B2 B3 B4 B5 B6 B7] Hc Hs. split; [done|done| | |done|congruence|done].
  - intros va Hva Hr. by rewrite B3, A3.
  - intros va Hva. by rewrite B4, A4.
Qed.

Lemma grown_trans s d fr k j i s1 f1 s2 f2 :
  k <= j <= i -> grown s d fr k j s1 f1 -> grown s1 d f1 j i s2 f2 -> grown s d fr k i s2 f2.
Proof.
  intros Hkj [A1 A2 A3 A4 A5 A6 A7] [B1 B2 B3 B4 B5 B6 B7]. split; [done|done| | |lia|congruence|auto].
  - intros va Hva Hr. rewrite B3, A3 by lia. done.
  - intros va Hva. rewrite B4, A4 by done. repeat case_decide; (done || lia).
Qed.

Lemma grown_refl s d fr k : owns s d fr -> frames_ok s d fr -> grown s d fr k k s fr.
Proof. intros. split; [done..| |lia|done|done]. intros va Hva. by rewrite decide_False by lia. Qed.

(** [mappages] of one page. *)
Lemma mappages_one s d fr k f perm :
  owns s d fr -> 0 <= k -> k * 4096 < KERNBASE -> 0 <= f < 2 ^ 20 -> 0 <= perm < 4096 ->
  has (pte (mem (kmem s)) d (k * 4096)) PTE_P = false ->
  exists r m s' fr', mappages d (k * 4096) PGSIZE (f * 4096) perm s = Ret r s' /\
    evolves d s fr s' fr' /\ (length fr <= length fr' + m)%nat /\ mapped s s' d k m f perm /\
    ((r = 0 /\ m = 1%nat) \/ (r = -1 /\ m = 0%nat /\ fr' = [])).
Proof.
  intros Hown Hk Hkb Hf Hp Hnp. unfold KERNBASE in Hkb. unfold mappages. rewrite !PGROUNDDOWN_eq, Z.div_mul by lia.
  assert (E : u32 (k * 4096 + PGSIZE - 1) `div` 4096 * 4096 = (k + Z.of_nat 0) * 4096).
  { unfold PGSIZE. rewrite u32_small by lia. zlia. }
  rewrite E. destruct (mappages_loop_ok 0 (S (Z.to_nat (u32 ((k + Z.of_nat 0) * 4096 - k * 4096) `div` PGSIZE))) s d fr k f perm)
    as (r & m & s' & fr' & Er & Hev & Hc & Hmap & Hr); [done|lia|lia|lia|lia|done|lia| |].
  - intros va Hva Hr. rewrite (pte_page s d va (k * 4096)); [done|]. rewrite Z.div_mul; lia.
  - exists r, m, s', fr'. split_and!; [exact Er|done|lia|done|].
    destruct Hr as [[-> ->]|(-> & Hm & ->)]; [by left|right; split_and!; [done|lia|done]].
Qed.

(** One turn of the loop of [allocuvm]. *)
Lemma grow_page s d fr m k :
  owns s d (m :: fr) -> frames_ok s d (m :: fr) -> KERNBASE < end_ (kmem s) ->
  0 <= k -> k * 4096 < KERNBASE -> has (pte (mem (kmem s)) d (k * 4096)) PTE_P = false ->
  exists s1 s2 r s3 fr3, Kalloc.kalloc s = Ret m s1 /\ m <> 0 /\ zero_page m s1 = Ret tt s2 /\
    mappages d (k * 4096) PGSIZE (V2P m) (Z.lor PTE_W PTE_U) s2 = Ret r s3 /\
    ((r = 0 /\ grown s d (m :: fr) k (k + 1) s3 fr3) \/
     (r = -1 /\ fr = [] /\ fr3 = [] /\ keeps s d (m :: fr) s3 [] /\ spare s3 d [] m /\
      end_ (kmem s3) = end_ (kmem s) /\ forall x, accounted s d (m :: fr) x -> x = m \/ accounted s3 d [] x)).
Proof.
  intros Hown Hfo Hend Hk Hkb Hnp. pose proof (ow_free _ _ _ Hown) as (_ & _ & Hval).
  apply Forall_cons in Hval as [(Hal & Hge & Hr) _]. unfold KERNBASE, PHYSTOP, PGSIZE in Hal, Hge, Hr, Hend.
  assert (Hv : V2P m = m - 0x80000000) by (unfold V2P, KERNBASE; rewrite u32_small; lia).
  destruct (kalloc_spare s d m fr Hown Hfo) as (s1 & E1 & Hm0 & Hk1 & Hsp1 & _ & _ & He1); [lia|].
  destruct (zero_spare s1 d fr m (ke_owns _ _ _ _ _ Hk1) (ke_frames _ _ _ _ _ Hk1) Hsp1) as (E2 & Hk2 & Hsp2 & _).
  set (s2 := with_pages s1 _) in *. pose proof (keeps_trans _ _ _ _ _ _ _ Hk1 Hk2) as Hk12.
  assert (Hacc : forall x, accounted s d (m :: fr) x -> x = m \/ accounted s2 d fr x).
  { assert (Hmd : m <> d) by (pose proof (sp_dir_free _ _ _ (ow_space _ _ _ Hown)); set_solver).
    assert (Hm1 : mem (kmem s1) = mem (kmem s)).
    { destruct (Kalloc.kalloc_ok s _ (ow_free _ _ _ Hown) (ow_lock _ _ _ Hown)) as (s1' & E1' & _ & Es). replace s1 with s1' by congruence. by rewrite Es. }
    intros x [[->|Hx]%elem_of_cons|[(i & Hi & Hx)|(va & Hva & Hp & Hx)]]; [by left|by right; left| |]; right; right.
    - left. exists i. split; [done|]. rewrite <- Hx, <- Hm1. apply table_ext. unfold word. cbn. by rewrite lookup_insert_ne.
    - right. exists va. by rewrite (ke_pte _ _ _ _ _ Hk12) by (unfold KERNBASE in *; lia). }
  assert (He2 : end_ (kmem s2) = end_ (kmem s)) by exact He1.
  assert (Hz : mem (kmem s2) !! m = Some (zero_bytes PGSIZE)) by apply lookup_insert_eq. clearbody s2.
  assert (Hnp2 : has (pte (mem (kmem s2)) d (k * 4096)) PTE_P = false).
  { rewrite (ke_pte _ _ _ _ _ Hk12) by (unfold KERNBASE in *; lia). done. }
  destruct (mappages_one s2 d fr k (V2P m `div` 4096) (Z.lor PTE_W PTE_U)) as (r & c & s3 & fr3 & E3 & Hev & Hc & Hmap & Hr3);
    [apply Hk2|done|done|rewrite Hv; zlia|done|done|].
  replace (V2P m `div` 4096 * 4096) with (V2P m) in E3 by (rewrite Hv; zlia).
  exists s1, s2, r, s3, fr3. split_and!; [done..|].
  destruct Hr3 as [[-> ->]|(-> & -> & ->)].
  - left. split; [done|]. assert (Hg : grown s2 d fr k (k + 1) s3 fr3) by (by eapply map_spare_ok; [apply Hk2|..]).
    eapply keeps_grown; [exact Hk12|done|exact Hg|simpl; lia|]. intros x Hx. destruct (Hacc x Hx) as [->|Hx']; [|by apply (gr_saves _ _ _ _ _ _ _ Hg)].
    right; right. exists (k * 4096). assert (Hk32 : 0 <= k * 4096 < 2 ^ 32) by (unfold KERNBASE in *; lia).
    rewrite Hmap by done. rewrite Z.div_mul, decide_True, Z.sub_diag, Z.add_0_r by lia. rewrite entry_has_P. split; [lia|]. split; [done|].
    rewrite entry_addr by (rewrite ?Hv; (done || zlia)). unfold P2V. rewrite Hv. unfold KERNBASE. rewrite u32_small; zlia.
  - right. destruct (map_spare_fails s2 d fr m k _ _ s3 [] (ke_frames _ _ _ _ _ Hk2) Hsp2 Hev Hmap) as [Hk3 Hsp3].
    split_and!; [done|destruct fr; [done|simpl in Hc; lia]|done|by eapply keeps_trans|done|by rewrite (ev_end _ _ _ _ _ Hev)|].
    intros x Hx. destruct (Hacc x Hx) as [->|Hx']; [by left|right]. apply (evolves_saves s2 d fr s3 [] (-1) x Hev); [intros; zlia| |done].
    intros va Hva _. by apply Hk3.
Qed.

Lemma roundup_page sz : 0 <= sz <= KERNBASE -> PGROUNDUP sz = (sz + 4095) `div` 4096 * 4096.
Proof. intros. apply Kalloc.PGROUNDUP_eq; unfold KERNBASE in *; lia. Qed.

Lemma shrunk_ubyte s d fr k j s' fr' :
  frames_ok s d fr -> shrunk s d fr k j s' fr' ->
  forall va, 0 <= va < 2 ^ 32 -> ubyte s' d va = if decide (k <= va `div` 4096 < j) then None else ubyte s d va.
Proof.
  intros Hfo Hsh va Hva. unfold ubyte. rewrite (sh_pte _ _ _ _ _ _ _ Hsh) by done.
  destruct (decide (k <= va `div` 4096 < j)) as [Hr|Hr].
  - destruct (has (pte (mem (kmem s)) d va) PTE_P) eqn:Hp.
    + rewrite decide_True by done. done.
    + rewrite decide_False by naive_solver. unfold user. by rewrite Hp.
  - rewrite decide_False by naive_solver. destruct (user _) eqn:Hu; [|done].
    destruct (user_low _ _ _ _ Hfo Hva Hu) as [Hl Hp]. destruct (fo_page _ _ _ Hfo va Hl Hp) as (_ & Hpr & _).
    destruct (sh_private _ _ _ _ _ _ _ Hsh _ Hpr) as [-> _]; [|done].
    intros va' Hva' Hr' Hp' Hf. apply Hr. by rewrite (fo_inj _ _ _ Hfo va va' Hl Hva' Hp Hp' Hf).
Qed.

Lemma deallocuvm_ok s d fr oldsz newsz :
  owns s d fr -> frames_ok s d fr -> 0 <= newsz < oldsz -> oldsz <= KERNBASE ->
  exists s' fr', deallocuvm d oldsz newsz s = Ret newsz s' /\
    shrunk s d fr ((newsz + 4095) `div` 4096)
      (Z.max ((newsz + 4095) `div` 4096) ((oldsz + 4095) `div` 4096)) s' fr'.
Proof.
  intros Hown Hfo Hsz Hkb. unfold deallocuvm. rewrite (proj2 (Z.leb_gt _ _)) by lia.
  rewrite roundup_page by lia.
  destruct (deallocuvm_loop_ok (S (Z.to_nat (oldsz `div` PGSIZE + 1))) s d fr ((newsz + 4095) `div` 4096) oldsz)
    as (s' & fr' & E & Hsh); [done|done|zlia|done|unfold PGSIZE; zlia|].
  exists s', fr'. split; [|done]. by erewrite bind_ret by exact E.
Qed.

(** The pages [k <= . < j] are gone, the others are as in [s]. *)
Definition unmapped (s : kstate) (d k j : Z) (s' : kstate) : Prop := forall va, 0 <= va < 2 ^ 32 ->
  ubyte s' d va = (if decide (k <= va `div` 4096 < j) then None else ubyte s d va) /\
  (has (pte (mem (kmem s')) d va) PTE_P = true <-> has (pte (mem (kmem s)) d va) PTE_P = true /\ ~ (k <= va `div` 4096 < j)).

Lemma shrunk_unmapped s d fr k j s' fr' : frames_ok s d fr -> shrunk s d fr k j s' fr' -> unmapped s d k j s'.
Proof.
  intros Hfo Hsh va Hva. split; [by eapply shrunk_ubyte|]. rewrite (sh_pte _ _ _ _ _ _ _ Hsh) by done.
  case_decide as Hc; [rewrite has_0; naive_solver|]. split; [|by intros [? _]]. intros Hp. split; [done|]. intros Hr. by apply Hc.
Qed.

(** Every entry that is still present is the old one, and no page is lost. *)
Definition undone (s : kstate) (d : Z) (fr : list Z) (s' : kstate) (fr' : list Z) : Prop :=
  (forall va, 0 <= va < 2 ^ 32 -> has (pte (mem (kmem s')) d va) PTE_P = true -> pte (mem (kmem s')) d va = pte (mem (kmem s)) d va) /\
  (forall x, accounted s d fr x -> accounted s' d fr' x).

Lemma shrunk_undone s d fr k j s' fr' : shrunk s d fr k j s' fr' -> undone s d fr s' fr'.
Proof.
  intros Hsh. destruct (sh_free _ _ _ _ _ _ _ Hsh) as (freed & -> & Hfreed). split.
  - intros va Hva. rewrite (sh_pte _ _ _ _ _ _ _ Hsh) by done. case_decide; [by rewrite has_0|done].
  - intros x [Hx|[(i & Hi & Hx)|(va & Hva & Hp & Hx)]]; [left; set_solver|right; left; exists i; by rewrite (sh_table _ _ _ _ _ _ _ Hsh)|].
    destruct (decide (k <= va `div` 4096 < j)) as [Hr|Hr]; [left; apply elem_of_app; left; apply Hfreed; by exists va|].
    right; right. exists va. rewrite (sh_pte _ _ _ _ _ _ _ Hsh) by (unfold KERNBASE in *; lia). rewrite decide_False by (by intros [? _]). done.
Qed.

(** The failure path of [allocuvm]: the pages mapped so far are freed again. *)
Lemma undo_growth s d fr newsz oldsz :
  owns s d fr -> frames_ok s d fr -> 0 <= oldsz < newsz -> newsz < KERNBASE ->
  exists s' fr', (cprintf "allocuvm out of memory
" ;; deallocuvm d newsz oldsz ;; mret 0) s = Ret 0 s' /\ owns s' d fr' /\ frames_ok s' d fr' /\
    unmapped s d ((oldsz + 4095) `div` 4096) ((newsz + 4095) `div` 4096) s' /\ undone s d fr s' fr'.
Proof.
  intros Hown Hfo Hsz Hkb. set (s1 := s <| trace := trace s ++ [EvPrint (chars "allocuvm out of memory
")] |>).
  destruct (deallocuvm_ok s1 d fr newsz oldsz) as (s' & fr' & E & Hsh); [by destruct Hown|by destruct Hfo|lia|lia|].
  exists s', fr'. split; [|split_and!; [apply Hsh|apply Hsh| |exact (shrunk_undone _ _ _ _ _ _ _ Hsh)]].
  - change ((cprintf _ ;; ?m) s) with (m s1). by erewrite bind_ret by exact E.
  - rewrite Z.max_r in Hsh by zlia. by apply (shrunk_unmapped s1 d fr _ _ s' fr'); [destruct Hfo|].
Qed.

Lemma undo_growth_page s d m newsz oldsz :
  owns s d [] -> frames_ok s d [] -> spare s d [] m -> 0 <= oldsz < newsz -> newsz < KERNBASE ->
  exists s' fr', (cprintf "allocuvm out of memory (2)
" ;; deallocuvm d newsz oldsz ;; Kalloc.kfree m ;; mret 0) s = Ret 0 s' /\ owns s' d fr' /\ frames_ok s' d fr' /\
    unmapped s d ((oldsz + 4095) `div` 4096) ((newsz + 4095) `div` 4096) s' /\ undone s d [] s' fr' /\ m ∈ fr'.
Proof.
  intros Hown Hfo [Hpg Hpr Hval Hpa Hun] Hsz Hkb. set (s1 := s <| trace := trace s ++ [EvPrint (chars "allocuvm out of memory (2)
")] |>).
  destruct (deallocuvm_ok s1 d [] newsz oldsz) as (s2 & fr2 & E & Hsh); [by destruct Hown|by destruct Hfo|lia|lia|].
  destruct (sh_private _ _ _ _ _ _ _ Hsh m Hpr) as [Em Hpr2]; [intros; by apply not_eq_sym, Hun|].
  destruct (free_private s2 d fr2 m) as (E3 & Hown3 & Hpte3 & Htab3 & Hpr3); [apply Hsh|done| | |].
  { destruct Hpg as (pg & Hq & Hl). exists pg. by rewrite Em. }
  { unfold Kalloc.valid_page in *. by rewrite (sh_end _ _ _ _ _ _ _ Hsh). }
  assert (Hun2 : forall va, 0 <= va < KERNBASE -> has (pte (mem (kmem s2)) d va) PTE_P = true ->
    frame (pte (mem (kmem s2)) d va) <> m).
  { intros va Hva. rewrite (sh_pte _ _ _ _ _ _ _ Hsh) by (unfold KERNBASE in *; lia).
    case_decide; [by rewrite has_0|]. by apply Hun. }
  pose proof (sh_frames _ _ _ _ _ _ _ Hsh) as Hfo2.
  assert (Hk : keeps s2 d fr2 (Kalloc.kfree_result m s2) (m :: fr2)).
  { apply keeps_intro; [done|done|done|auto|]. intros va Hva Hp q. apply Hpr3; [|by apply Hun2].
    by apply (fo_page _ _ _ Hfo2 va Hva Hp). }
  destruct (shrunk_undone _ _ _ _ _ _ _ Hsh) as [Hu1 Hu2].
  eexists _, (m :: fr2). split; [|split_and!; [apply Hk|apply Hk| | |left]].
  3:{ split; [intros va Hva; rewrite Hpte3; by apply Hu1|]. intros x Hx. destruct (Hu2 x Hx) as [Hf|[(i & Hi & Ht)|(va & Hva & Hp & Ef)]].
      - left. by right.
      - right; left. exists i. by rewrite Htab3.
      - right; right. exists va. by rewrite Hpte3. }
  - change ((cprintf _ ;; ?m) s) with (m s1). erewrite bind_ret by exact E. by erewrite bind_ret by exact E3.
  - rewrite Z.max_r in Hsh by zlia. intros va Hva. rewrite (ke_bytes _ _ _ _ _ Hk), (ke_pte _ _ _ _ _ Hk) by done.
    by apply (shrunk_unmapped s1 d [] _ _ s2 fr2); [destruct Hfo|..].
Qed.

Lemma allocuvm_loop_ok fuel s d fr k oldsz newsz :
  owns s d fr -> frames_ok s d fr -> KERNBASE < end_ (kmem s) -> 0 <= oldsz -> newsz < KERNBASE ->
  (oldsz + 4095) `div` 4096 <= k ->
  let j := Z.max k ((newsz + 4095) `div` 4096) in
  j - k < Z.of_nat fuel ->
  (forall va, 0 <= va < 2 ^ 32 -> k <= va `div` 4096 < j -> has (pte (mem (kmem s)) d va) PTE_P = false) ->
  exists r s' fr', allocuvm_loop fuel d (k * 4096) newsz oldsz s = Ret r s' /\ owns s' d fr' /\ frames_ok s' d fr' /\
    ((r = newsz /\ grown s d fr k j s' fr') \/
     (r = 0 /\ Z.of_nat (length fr) < 2 * (j - k) /\ unmapped s d ((oldsz + 4095) `div` 4096) j s' /\ undone s d fr s' fr')).
Proof.
  revert s fr k. induction fuel as [|fuel IH]; intros s fr k Hown Hfo Hend Hold Hnew Hk j Hfuel Hnp; [lia|].
  assert (0 <= k) by zlia. cbn [allocuvm_loop]. destruct (Z.ltb_spec (k * 4096) newsz) as [Hlt|Hge].
  2:{ assert (j = k) as Ej by (unfold j; zlia). exists newsz, s, fr. split_and!; [done..|]. left. split; [done|].
      rewrite Ej. by apply grown_refl. }
  assert (Hj : k < j /\ j = (newsz + 4095) `div` 4096) by (unfold j; zlia). destruct Hj as [Hkj Hj].
  assert (Hsz : 0 <= oldsz < newsz) by zlia.
  destruct fr as [|m fr].
  { destruct (Kalloc.kalloc_ok s [] (ow_free _ _ _ Hown) (ow_lock _ _ _ Hown)) as (s1 & E1 & Hr1 & Es1).
    assert (Hm : mem (kmem s1) = mem (kmem s)) by (by rewrite Es1).
    assert (Hk1 : keeps s d [] s1 []).
    { apply keeps_intro; [split; [by rewrite Hm; apply Hown|done|rewrite Es1; apply Hown]|done|by rewrite Es1|by rewrite Hm|].
      intros va Hva Hp q. rewrite Hm. split; [done|]. unfold private. rewrite Hm. by apply (fo_page _ _ _ Hfo va Hva Hp). }
    destruct (undo_growth s1 d [] newsz oldsz) as (s2 & fr2 & E2 & Ho2 & Hf2 & Hb2 & Hu2 & Ha2); [apply Hk1|apply Hk1|done|done|].
    exists 0, s2, fr2. split_and!; [by erewrite bind_ret by exact E1|done|done|]. right. split_and!; [done|simpl; lia| |].
    2:{ split; [intros va Hva Hp; by rewrite Hu2, (ke_pte _ _ _ _ _ Hk1)|]. intros x Hx. apply Ha2. unfold accounted, is_table, is_frame in *. by rewrite Hm. }
    rewrite Hj. intros va Hva. destruct (Hb2 va Hva) as [-> H2]. rewrite (ke_bytes _ _ _ _ _ Hk1), (ke_pte _ _ _ _ _ Hk1) in * by done. done. }
  destruct (grow_page s d fr m k) as (s1 & s2 & r & s3 & fr3 & E1 & Hm0 & E2 & E3 & Hr);
    [done|done|done|done|unfold KERNBASE in *; lia|apply Hnp; [unfold KERNBASE in *; lia|rewrite Z.div_mul; lia]|].
  erewrite bind_ret by exact E1. rewrite (proj2 (Z.eqb_neq m 0) Hm0). erewrite bind_ret by exact E2.
  erewrite bind_ret by exact E3. destruct Hr as [[-> Hg]|(-> & -> & -> & Hk3 & Hsp3 & He3 & Ha3)].
  - change (0 <? 0) with false. cbv iota. unfold PGSIZE. rewrite u32_small by (unfold KERNBASE in *; lia).
    replace (k * 4096 + 4096) with ((k + 1) * 4096) by lia.
    destruct (IH s3 fr3 (k + 1)) as (r & s4 & fr4 & E4 & Ho4 & Hf4 & Hr4);
      [apply Hg|apply Hg|by rewrite (gr_end _ _ _ _ _ _ _ Hg)|done|done|lia|lia| |].
    { intros va Hva Hr. rewrite (gr_pte _ _ _ _ _ _ _ Hg) by (done || lia). apply Hnp; [done|lia]. }
    exists r, s4, fr4. split_and!; [done..|]. rewrite <- Hj in Hr4. rewrite Z.max_r in Hr4 by lia.
    destruct Hr4 as [[-> Hg4]|(-> & Hc4 & Hb4 & Hu4 & Ha4)].
    + left. split; [done|]. by eapply (grown_trans s d _ k (k + 1) j); [lia|..].
    + right. split_and!; [done|pose proof (gr_count _ _ _ _ _ _ _ Hg); lia| |].
      2:{ split; [|intros x Hx; by apply Ha4, (gr_saves _ _ _ _ _ _ _ Hg)]. intros va Hva Hp. destruct (Hb4 va Hva) as [_ H4].
          rewrite Hu4, (gr_pte _ _ _ _ _ _ _ Hg) by (done || (apply H4 in Hp as [_ Hr]; lia)). done. }
      intros va Hva. destruct (Hb4 va Hva) as [-> H4]. split.
      * rewrite (gr_bytes _ _ _ _ _ _ _ Hg) by done. repeat case_decide; (done || lia).
      * rewrite H4. destruct (decide (k <= va `div` 4096 < k + 1)) as [Hr|Hr]; [split; intros [_ H5]; lia|].
        by rewrite (gr_pte _ _ _ _ _ _ _ Hg) by done.
  - destruct (undo_growth_page s3 d m newsz oldsz) as (s4 & fr4 & E4 & Ho4 & Hf4 & Hb4 & [Hu4 Ha4] & Hm4); [apply Hk3|apply Hk3|done|done|done|].
    exists 0, s4, fr4. split_and!; [exact E4|done|done|]. right. split_and!; [done|simpl; lia| |].
    2:{ split; [intros va Hva Hp; by rewrite Hu4, (ke_pte _ _ _ _ _ Hk3)|]. intros x Hx. destruct (Ha3 x Hx) as [->|Hx']; [by left|auto]. }
    rewrite Hj. intros va Hva. destruct (Hb4 va Hva) as [-> H4]. rewrite (ke_bytes _ _ _ _ _ Hk3), (ke_pte _ _ _ _ _ Hk3) in * by done. done.
Qed.

Lemma allocuvm_full s d fr oldsz newsz :
  owns s d fr -> frames_ok s d fr -> KERNBASE < end_ (kmem s) -> 0 <= oldsz <= newsz -> newsz < KERNBASE ->
  let k := (oldsz + 4095) `div` 4096 in
  let j := (newsz + 4095) `div` 4096 in
  (forall va, 0 <= va < 2 ^ 32 -> k <= va `div` 4096 < j -> has (pte (mem (kmem s)) d va) PTE_P = false) ->
  exists r s' fr', allocuvm d oldsz newsz s = Ret r s' /\ owns s' d fr' /\ frames_ok s' d fr' /\
    ((r = newsz /\ grown s d fr k j s' fr') \/
     (r = 0 /\ Z.of_nat (length fr) < 2 * (j - k) /\ unmapped s d k j s' /\ undone s d fr s' fr')).
Proof.
  intros Hown Hfo Hend Hsz Hkb k j Hnp. unfold allocuvm. rewrite (proj2 (Z.leb_gt _ _)) by lia.
  rewrite (proj2 (Z.ltb_ge _ _)), roundup_page by lia. fold k.
  assert (Hkj : Z.max k j = j) by (unfold k, j; zlia).
  destruct (allocuvm_loop_ok (S (Z.to_nat ((newsz - oldsz) `div` PGSIZE + 1))) s d fr k oldsz newsz)
    as (r & s' & fr' & E & Ho & Hf & Hr); [done|done|done|lia|done|done| | |].
  - unfold k, PGSIZE. zlia.
  - fold j. rewrite Hkj. exact Hnp.
  - fold j in Hr. rewrite Hkj in Hr. by exists r, s', fr'.
Qed.

(** A frame in use is not free. *)
Lemma frame_not_free s d fr va x : frames_ok s d fr -> 0 <= va < KERNBASE -> has (pte (mem (kmem s)) d va) PTE_P = true ->
  x = frame (pte (mem (kmem s)) d va) -> x ∈ fr -> False.
Proof. intros Hfo Hva Hp -> Hx. by destruct (fo_page _ _ _ Hfo va Hva Hp) as (_ & (Hn & _) & _). Qed.

Lemma allocuvm_ok s d fr oldsz newsz :
  owns s d fr -> frames_ok s d fr -> KERNBASE < end_ (kmem s) -> 0 <= oldsz <= newsz -> newsz < KERNBASE ->
  let k := (oldsz + 4095) `div` 4096 in
  let j := (newsz + 4095) `div` 4096 in
  (forall va, 0 <= va < 2 ^ 32 -> k <= va `div` 4096 < j -> has (pte (mem (kmem s)) d va) PTE_P = false) ->
  exists r s' fr', allocuvm d oldsz newsz s = Ret r s' /\ owns s' d fr' /\ frames_ok s' d fr' /\
    (2 * (j - k) <= Z.of_nat (length fr) -> r = newsz) /\
    ((r = newsz /\ (forall va, 0 <= va < 2 ^ 32 ->
        ubyte s' d va = if decide (k <= va `div` 4096 < j) then Some 0 else ubyte s d va) /\
      forall x, x ∈ fr -> x ∈ fr' \/ is_table s' d x \/
        exists va, k <= va `div` 4096 < j /\ has (pte (mem (kmem s')) d va) PTE_P = true /\ x = frame (pte (mem (kmem s')) d va)) \/
     (r = 0 /\ (forall va, 0 <= va < 2 ^ 32 -> ubyte s' d va = ubyte s d va) /\
      forall x, x ∈ fr -> x ∈ fr' \/ is_table s' d x)).
Proof.
  intros Hown Hfo Hend Hsz Hkb k j Hnp.
  destruct (allocuvm_full s d fr oldsz newsz) as (r & s' & fr' & E & Ho & Hf & Hr); [done..|]. fold k j in Hr.
  exists r, s', fr'. split_and!; [done..| |].
  - intros Hc. destruct Hr as [[-> _]|(_ & Hlt & _)]; [done|lia].
  - destruct Hr as [[-> Hg]|(-> & _ & Hb & Hu & Ha)]; [left|right]; (split; [done|]); (split; [|intros x Hx]).
    + apply Hg.
    + destruct (gr_saves _ _ _ _ _ _ _ Hg x (or_introl Hx)) as [Hf'|[Ht|(va & Hva & Hp & Ef)]]; [by left|by right; left|right; right].
      exists va. split; [|done]. destruct (decide (k <= va `div` 4096 < j)) as [Hr|Hr]; [done|exfalso].
      rewrite (gr_pte _ _ _ _ _ _ _ Hg) in Hp, Ef by (unfold KERNBASE in *; (done || lia)). by apply (frame_not_free s d fr va x).
    + intros va Hva. destruct (Hb va Hva) as [-> _]. case_decide as Hin; [|done]. unfold ubyte, user. by rewrite (Hnp va Hva Hin).
    + destruct (Ha x (or_introl Hx)) as [Hf'|[Ht|(va & Hva & Hp & Ef)]]; [by left|by right|exfalso].
      rewrite (Hu va) in Ef, Hp by (unfold KERNBASE in *; (done || lia)). by apply (frame_not_free s d fr va x).
Qed.

(** An empty directory. *)
Lemma zero_directory pm d i : pm !! d = Some (zero_bytes PGSIZE) -> 0 <= i < 1024 -> table pm d i = None.
Proof.
  intros Hd Hi. unfold table. replace (word pm d i) with 0; [by rewrite has_0|].
  rewrite <- (word_zero pm d i Hi). unfold word. by rewrite lookup_insert_eq, Hd.
Qed.

Lemma empty_directory s d fr :
  mem (kmem s) !! d = Some (zero_bytes PGSIZE) -> d ∉ fr -> Forall (is_page (mem (kmem s))) fr ->
  Kalloc.repr (kmem s) fr -> LkKmem ∉ held s ->
  owns s d fr /\ frames_ok s d fr /\ forall va, pte (mem (kmem s)) d va = 0.
Proof.
  intros Hd Hdf Hpg Hr Hl.
  assert (Hw : forall i, 0 <= i < 1024 -> table (mem (kmem s)) d i = None).
  { intros i Hi. by apply zero_directory. }
  assert (Hpte : forall va, pte (mem (kmem s)) d va = 0).
  { intros va. unfold pte. by rewrite Hw by apply PDX_range. }
  split_and!; [split; [split|done..]|split|done].
  - exists (zero_bytes PGSIZE). split; [done|vm_compute; reflexivity].
  - done.
  - intros i t Hi Ht. by rewrite Hw in Ht.
  - intros i j t Hi Hj Ht. by rewrite Hw in Ht.
  - done.
  - intros va Hva. by rewrite Hpte, has_0.
  - intros va va' Hva Hva'. by rewrite Hpte, has_0.
  - intros va Hva. rewrite Hpte. done.
Qed.

(** ** Theorems *)

(** [mappages] maps the pages of its range one after the other to
    consecutive physical pages with the permissions given, and changes the
    translation of no other address; it takes pages from the free list only,
    for new page tables, and fails with -1 exactly after the free list ran
    out, the first pages then being mapped. *)
Theorem mappages_maps s d fr va size f perm :
  owns s d fr -> 0 <= va -> 0 < size -> va + size <= 2 ^ 32 -> 0 <= perm < 4096 ->
  let k := va `div` 4096 in
  let n := (va + size - 1) `div` 4096 - k in
  0 <= f -> f + n < 2 ^ 20 ->
  (forall a, 0 <= a < 2 ^ 32 -> k <= a `div` 4096 <= k + n -> has (pte (mem (kmem s)) d a) PTE_P = false) ->
  exists r m s' fr', mappages d va size (f * 4096) perm s = Ret r s' /\ evolves d s fr s' fr' /\
    mapped s s' d k m f perm /\
    ((r = 0 /\ Z.of_nat m = n + 1) \/ (r = -1 /\ Z.of_nat m <= n /\ fr' = [])).
Proof.
  intros Hown Hva Hsz Hend Hperm k n Hf Hfn Hnp. unfold mappages. rewrite !PGROUNDDOWN_eq, (u32_small (va + size - 1)) by lia. fold k.
  assert (Hn : 0 <= n) by (unfold n, k; zlia).
  replace ((va + size - 1) `div` 4096 * 4096) with ((k + Z.of_nat (Z.to_nat n)) * 4096) by (unfold n, k; zlia).
  destruct (mappages_loop_ok (Z.to_nat n) (S (Z.to_nat (u32 ((k + Z.of_nat (Z.to_nat n)) * 4096 - k * 4096) `div` PGSIZE)))
    s d fr k f perm) as (r & m & s' & fr' & E & Hev & _ & Hmap & Hr);
    [done|unfold k; zlia|unfold n, k; zlia|lia|lia|done|unfold n, k, PGSIZE; zlia| |].
  - intros a Ha Hr. apply Hnp; [done|lia].
  - exists r, m, s', fr'. split_and!; [exact E|done|done|].
    destruct Hr as [[-> ->]|(-> & Hm & ->)]; [left|right]; split_and!; (done || lia).
Qed.

(** C14: [allocuvm] gives the process zero-filled pages for the sizes between
    the old and the new one and changes no byte below, or fails with 0 and
    leaves user memory exactly as it was; with two free pages for each new page
    it does not fail.  No page is lost: every page that was free is free again,
    is now a page table of the directory, or, after success only, is the frame of
    one of the new pages - so on failure every frame taken is freed again. *)
Theorem allocuvm_grows s d fr oldsz newsz :
  owns s d fr -> frames_ok s d fr -> KERNBASE < end_ (kmem s) -> 0 <= oldsz <= newsz -> newsz < KERNBASE ->
  let k := (oldsz + 4095) `div` 4096 in
  let j := (newsz + 4095) `div` 4096 in
  (forall va, 0 <= va < 2 ^ 32 -> k <= va `div` 4096 < j -> has (pte (mem (kmem s)) d va) PTE_P = false) ->
  exists r s' fr', allocuvm d oldsz newsz s = Ret r s' /\ owns s' d fr' /\ frames_ok s' d fr' /\
    (2 * (j - k) <= Z.of_nat (length fr) -> r = newsz) /\
    ((r = newsz /\ (forall va, 0 <= va < 2 ^ 32 ->
        ubyte s' d va = if decide (k <= va `div` 4096 < j) then Some 0 else ubyte s d va) /\
      forall x, x ∈ fr -> x ∈ fr' \/ is_table s' d x \/
        exists va, k <= va `div` 4096 < j /\ has (pte (mem (kmem s')) d va) PTE_P = true /\ x = frame (pte (mem (kmem s')) d va)) \/
     (r = 0 /\ (forall va, 0 <= va < 2 ^ 32 -> ubyte s' d va = ubyte s d va) /\
      forall x, x ∈ fr -> x ∈ fr' \/ is_table s' d x)).
Proof. apply allocuvm_ok. Qed.

(** [deallocuvm] takes away exactly the pages between the new size and
    the old one, also where whole page tables are missing, and frees exactly
    their frames; every other byte of user memory stays. *)
Theorem deallocuvm_frees s d fr oldsz newsz :
  owns s d fr -> frames_ok s d fr -> 0 <= newsz < oldsz -> oldsz <= KERNBASE ->
  let k := (newsz + 4095) `div` 4096 in
  let j := Z.max k ((oldsz + 4095) `div` 4096) in
  exists s' freed, deallocuvm d oldsz newsz s = Ret newsz s' /\ owns s' d (freed ++ fr) /\
    frames_ok s' d (freed ++ fr) /\
    (forall va, 0 <= va < 2 ^ 32 -> ubyte s' d va = if decide (k <= va `div` 4096 < j) then None else ubyte s d va) /\
    (forall x, x ∈ freed <-> exists va, 0 <= va < KERNBASE /\ k <= va `div` 4096 < j /\
       has (pte (mem (kmem s)) d va) PTE_P = true /\ x = frame (pte (mem (kmem s)) d va)).
Proof.
  intros Hown Hfo Hsz Hkb k j. destruct (deallocuvm_ok s d fr oldsz newsz) as (s' & fr' & E & Hsh); [done..|].
  pose proof (shrunk_ubyte _ _ _ _ _ _ _ Hfo Hsh) as Hb. destruct Hsh as [Ho Hf _ (freed & -> & Hfreed) _ _ _ _].
  by exists s', freed.
Qed.

Lemma copyout_ok s d fr va p len :
  owns s d fr -> frames_ok s d fr -> 0 <= va -> 0 <= len <= Z.of_nat (length p) -> va + len < 2 ^ 32 ->
  (forall va', va <= va' < va + len -> user (pte (mem (kmem s)) d va') = true) ->
  exists s', copyout d va p len s = Ret 0 s' /\ wrote s d fr va (take (Z.to_nat len) p) s'.
Proof.
  intros Hown Hfo Hva Hlen Hend Hu.
  destruct (copyout_loop_ok (S (S (Z.to_nat (len `div` PGSIZE + 1)))) s d fr va p len) as (s' & E & Hw);
    [done..|unfold PGSIZE; zlia|done|]. by exists s'.
Qed.

(** [copyout] stores the bytes at the user address, across page
    boundaries, and changes no other byte of user memory, when every page of
    the range is open to users. *)
Theorem copyout_writes s d fr va p len :
  owns s d fr -> frames_ok s d fr -> 0 <= va -> 0 <= len <= Z.of_nat (length p) -> va + len < 2 ^ 32 ->
  (forall va', va <= va' < va + len -> user (pte (mem (kmem s)) d va') = true) ->
  exists s', copyout d va p len s = Ret 0 s' /\ owns s' d fr /\ frames_ok s' d fr /\
    forall va', 0 <= va' < 2 ^ 32 -> ubyte s' d va' =
      if decide (va <= va' < va + len) then p !! Z.to_nat (va' - va) else ubyte s d va'.
Proof.
  intros Hown Hfo Hva Hlen Hend Hu. destruct (copyout_ok s d fr va p len) as (s' & E & Hw); [done..|].
  exists s'. split_and!; [exact E|apply Hw|apply Hw|]. intros va' Hva'.
  rewrite (wr_bytes _ _ _ _ _ _ Hw), length_take by done. rewrite Nat.min_l, Z2Nat.id by lia.
  case_decide; [|done]. by rewrite lookup_take_lt by lia.
Qed.

(** [copyout] to an address whose directory entry is empty dereferences
    the null pointer [walkpgdir] returns, instead of failing with -1. *)
Theorem copyout_null_pte s d fr va p len :
  owns s d fr -> 0 <= va -> 0 < len -> table (mem (kmem s)) d (PDX (PGROUNDDOWN va)) = None ->
  copyout d va p len s = Fault "uva2ka: null pte".
Proof.
  intros Hown Hva Hlen Ht. unfold copyout. cbn [copyout_loop]. rewrite (proj2 (Z.ltb_lt 0 len)) by done.
  assert (E : uva2ka d (PGROUNDDOWN va) s = Fault "uva2ka: null pte").
  { unfold uva2ka. by erewrite bind_ret by (by eapply walk_absent). }
  unfold mbind at 1, M_bind at 1. by rewrite E.
Qed.

(** [clearpteu] closes one page to users and no other. *)
Theorem clearpteu_closes s d fr va t :
  owns s d fr -> 0 <= va < 2 ^ 32 -> table (mem (kmem s)) d (PDX va) = Some t ->
  0 <= pte (mem (kmem s)) d va < 2 ^ 32 ->
  exists s', clearpteu d va s = Ret tt s' /\ evolves d s fr s' fr /\
    (forall a, 0 <= a < 2 ^ 32 -> a `div` 4096 = va `div` 4096 -> ubyte s' d a = None) /\
    (forall a, 0 <= a < 2 ^ 32 -> a `div` 4096 <> va `div` 4096 -> pte (mem (kmem s')) d a = pte (mem (kmem s)) d a).
Proof.
  intros Hown Hva Ht Hr. unfold clearpteu. erewrite bind_ret by (by eapply walk_present). cbv beta iota.
  erewrite bind_ret by (by eapply load_pte). erewrite store_pte_ok by done. eexists. split; [done|].
  set (v := Z.land _ _). assert (Hv : 0 <= v < 2 ^ 32).
  { unfold v. rewrite <- Z.ldiff_land. split; [apply Z.ldiff_nonneg; lia|].
    pose proof (ldiff_le_l (pte (mem (kmem s)) d va) PTE_U). unfold PTE_U in *. lia. }
  destruct (set_pte_owns s d fr va t v Hown Hva Ht Hv) as (Hev & Hpte). split_and!; [done| |].
  - intros a Ha Hs. unfold ubyte. rewrite Hpte by done. rewrite decide_True by done.
    replace (user v) with false; [done|]. symmetry. unfold user. apply andb_false_iff. right.
    unfold has, v. rewrite <- Z.land_assoc, (Z.land_comm (Z.lnot PTE_U)), Z.land_lnot_diag, Z.land_0_r. done.
  - intros a Ha Hs. rewrite Hpte by done. by rewrite decide_False.
Qed.

(** ** Witnesses: an empty directory and four free pages *)
Definition demo_dir : Z := 0x80400000.
Definition demo_free : list Z := [0x80401000; 0x80402000; 0x80403000; 0x80404000].
Definition demo_vm : kstate :=
  tiny <| kmem := mkKmem 0x80100000 false 0x80401000
    {[ demo_dir := zero_bytes PGSIZE;
       0x80401000 := Kalloc.free_page_bytes 0x80402000; 0x80402000 := Kalloc.free_page_bytes 0x80403000;
       0x80403000 := Kalloc.free_page_bytes 0x80404000; 0x80404000 := Kalloc.free_page_bytes 0 ]} |>.

Lemma demo_vm_ok : owns demo_vm demo_dir demo_free /\ frames_ok demo_vm demo_dir demo_free /\
  forall va, pte (mem (kmem demo_vm)) demo_dir va = 0.
Proof.
  apply empty_directory.
  - reflexivity.
  - unfold demo_dir, demo_free. rewrite !not_elem_of_cons. split_and!; [done..|]. apply not_elem_of_nil.
  - repeat constructor; (eexists; split; [reflexivity|apply length_free_page]).
  - split; [|split].
    + cbn [Kalloc.chain]. split_and!; [done|done|]. eexists. split; [reflexivity|].
      split_and!; [by rewrite Kalloc.free_page_next|done|]. eexists. split; [reflexivity|].
      split_and!; [by rewrite Kalloc.free_page_next|done|]. eexists. split; [reflexivity|].
      split_and!; [by rewrite Kalloc.free_page_next|done|]. eexists. split; [reflexivity|].
      by rewrite Kalloc.free_page_next.
    + by apply (bool_decide_unpack _).
    + unfold demo_free, Kalloc.valid_page. cbn. unfold PGSIZE, KERNBASE, PHYSTOP.
      repeat (apply Forall_cons; split); [split_and!; [reflexivity|lia..]..|]. by apply Forall_nil.
  - apply not_elem_of_nil.
Qed.

(** The same with one user page. *)
Definition demo_user : kstate :=
  match allocuvm demo_dir 0 4096 demo_vm with Ret _ s => s | _ => demo_vm end.

Lemma demo_user_ok : exists fr, owns demo_user demo_dir fr /\ frames_ok demo_user demo_dir fr /\
  forall va, 0 <= va < 4096 -> ubyte demo_user demo_dir va = Some 0.
Proof.
  destruct demo_vm_ok as (Ho & Hf & Hp).
  destruct (allocuvm_ok demo_vm demo_dir demo_free 0 4096) as (r & s' & fr' & E & Ho' & Hf' & Hr & Hb);
    [done|done|reflexivity|lia|reflexivity|intros; by rewrite Hp, has_0|].
  exists fr'. unfold demo_user. rewrite E. split_and!; [done..|]. intros va Hva.
  specialize (Hr ltac:(vm_compute; discriminate)). subst r. destruct Hb as [(_ & Hb & _)|[? _]]; [|done].
  rewrite Hb by lia. rewrite decide_True by zlia. done.
Qed.

Lemma mappages_maps_witness :
  exists r m s' fr', mappages demo_dir 0x1234 0x2000 (5 * 4096) PTE_W demo_vm = Ret r s' /\
    evolves demo_dir demo_vm demo_free s' fr' /\ mapped demo_vm s' demo_dir 1 m 5 PTE_W /\
    ((r = 0 /\ Z.of_nat m = 2 + 1) \/ (r = -1 /\ Z.of_nat m <= 2 /\ fr' = [])).
Proof.
  destruct demo_vm_ok as (Ho & _ & Hp).
  apply (mappages_maps demo_vm demo_dir demo_free 0x1234 0x2000 5 PTE_W);
    [exact Ho|lia|lia|lia|unfold PTE_W; lia|lia|vm_compute; reflexivity|intros; by rewrite Hp, has_0].
Defined.

Lemma allocuvm_grows_witness :
  exists r s' fr', allocuvm demo_dir 0 8192 demo_vm = Ret r s' /\ owns s' demo_dir fr' /\ frames_ok s' demo_dir fr' /\
    (2 * (2 - 0) <= 4 -> r = 8192).
Proof.
  destruct demo_vm_ok as (Ho & Hf & Hp).
  destruct (allocuvm_grows demo_vm demo_dir demo_free 0 8192) as (r & s' & fr' & E & Ho' & Hf' & Hr & _);
    [exact Ho|exact Hf|reflexivity|lia|reflexivity|intros; by rewrite Hp, has_0|].
  exists r, s', fr'. split_and!; [exact E|exact Ho'|exact Hf'|exact Hr].
Defined.

Lemma deallocuvm_frees_witness :
  exists s', deallocuvm demo_dir 4096 0 demo_user = Ret 0 s' /\ ubyte s' demo_dir 17 = None.
Proof.
  destruct demo_user_ok as (fr & Ho & Hf & _).
  destruct (deallocuvm_frees demo_user demo_dir fr 4096 0) as (s' & freed & E & _ & _ & Hb & _);
    [exact Ho|exact Hf|lia|vm_compute; discriminate|].
  exists s'. split; [exact E|]. rewrite Hb by lia. reflexivity.
Defined.

Lemma copyout_writes_witness :
  exists s', copyout demo_dir 100 [1; 2; 3] 3 demo_user = Ret 0 s' /\ ubyte s' demo_dir 101 = Some 2.
Proof.
  destruct demo_user_ok as (fr & Ho & Hf & Hz).
  destruct (copyout_writes demo_user demo_dir fr 100 [1; 2; 3] 3) as (s' & E & _ & _ & Hb);
    [exact Ho|exact Hf|lia|simpl; lia|lia| |].
  - intros va Hva. specialize (Hz va ltac:(lia)). unfold ubyte in Hz. by destruct (user _).
  - exists s'. split; [exact E|]. rewrite Hb by lia. reflexivity.
Defined.

Lemma copyout_null_pte_witness : copyout demo_dir 0x400000 [1] 1 demo_vm = Fault "uva2ka: null pte".
Proof.
  destruct demo_vm_ok as (Ho & _ & _).
  apply (copyout_null_pte demo_vm demo_dir demo_free 0x400000 [1] 1); [exact Ho|lia|lia|vm_compute; reflexivity].
Defined.

Lemma clearpteu_closes_witness :
  exists s', clearpteu demo_dir 0 demo_user = Ret tt s' /\ ubyte s' demo_dir 17 = None.
Proof.
  destruct demo_user_ok as (fr & Ho & _ & _).
  destruct (clearpteu_closes demo_user demo_dir fr 0 0x80402000) as (s' & E & _ & Hb & _);
    [exact Ho|lia|vm_compute; reflexivity|vm_compute; split; [discriminate|reflexivity]|].
  exists s'. split; [exact E|]. apply Hb; [lia|reflexivity].
Defined.

End Vm.
