(* ===== verification/Space.v ===== *)
(** * Space: whole address spaces (vm.c)

    What [freevm] gives back, on top of the operations of [Vm] on one page
    directory: every frame, page table and the directory itself, and nothing
    else. *)
From S2P Require Import Prelude Queue KState Kalloc Proc File Vm.

Create HintDb confined.

Module Space.
Import Vm.

(** ** What paging code may change *)

(** The computation changes the pages of the allocator, prints, and nothing
    else, and does not give up the CPU. *)
Definition confined {T} (m : M T) : Prop := forall s,
  match m s with
  | Ret _ s' => s' = s <| kmem := kmem s' |> <| trace := trace s' |> /\ end_ (kmem s') = end_ (kmem s)
  | Block _ _ => False
  | _ => True
  end.

Lemma confined_ret {T} (a : T) : confined (mret a).
Proof. intros []. done. Qed.
Lemma confined_bind {T U} (m : M T) (f : T -> M U) : confined m -> (forall a, confined (f a)) -> confined (m ≫= f).
Proof.
  intros Hm Hf s. unfold mbind, M_bind. specialize (Hm s). destruct (m s) as [a s'|msg|w|s' k]; cbn [obind]; try done.
  specialize (Hf a s'). destruct (f a s') as [b s2|msg|w|s2 k]; try done.
  destruct Hm as [Hm1 Hm2], Hf as [Hf1 Hf2]. split; [rewrite Hf1, Hm1; done|congruence].
Qed.
Lemma confined_panic {T} msg : confined (panic msg : M T).
Proof. done. Qed.
Lemma confined_fault {T} msg : confined (fault msg : M T).
Proof. done. Qed.
Lemma confined_gets {T} (g : kstate -> T) : confined (gets g).
Proof. intros []. done. Qed.
Lemma confined_need {T} (o : option T) msg : confined (need o msg).
Proof. destruct o; [apply confined_ret|done]. Qed.
Lemma confined_mfor {T} (l : list T) body : (forall x, confined (body x)) -> confined (mfor l body).
Proof. intros Hb. induction l as [|x l IH]; [apply confined_ret|]. by apply confined_bind. Qed.
Lemma confined_modify f : (forall s, f s = s <| kmem := kmem (f s) |> <| trace := trace (f s) |> /\ end_ (kmem (f s)) = end_ (kmem s)) -> confined (modify f).
Proof. intros Hf s. apply Hf. Qed.

#[export] Hint Resolve confined_ret confined_panic confined_fault confined_gets confined_need : confined.
Ltac confined1 :=
  match goal with
  | |- confined (mbind _ _) => apply confined_bind; [|intro]
  | |- confined (let _ := _ in _) => cbv zeta
  | |- confined (if ?b then _ else _) => destruct b
  | |- confined (match ?x with _ => _ end) => destruct x
  | |- confined (modify _) => apply confined_modify; intros []; done
  | |- confined (mfor _ _) => apply confined_mfor; intro
  | |- _ => solve [auto with confined nocore]
  end.
Ltac confine := repeat confined1.

Ltac locked :=
  match goal with
  | |- context [acquire ?l ?s] =>
    let E := fresh in destruct (Kalloc.acquire_cases l s) as [E|E]; rewrite E; mrun; [|done]
  | |- context [release ?l ?s] =>
    let E := fresh in destruct (Kalloc.release_cases l s) as [E|E]; rewrite E; mrun; [|done]
  end.
Lemma confined_kalloc : confined Kalloc.kalloc.
Proof.
  intros s. unfold Kalloc.kalloc, need. mrun.
  destruct (use_lock (kmem s)); mrun; try locked;
    (match goal with |- context [if negb ?b then _ else _] => destruct b; cbn [negb]; mrun end);
    (try match goal with |- context [?m !! ?k] => destruct (m !! k); mrun; [|done] end); try locked; by destruct s.
Qed.
Lemma confined_kfree p : confined (Kalloc.kfree p).
Proof.
  intros s. unfold Kalloc.kfree. mrun. destruct (_ || _); [done|]. destruct (use_lock (kmem s)); mrun; repeat locked; by destruct s.
Qed.
Lemma confined_cprintf m : confined (cprintf m).
Proof. unfold cprintf, emit. confine. Qed.
Lemma confined_page_write p o src n w : confined (page_write p o src n w).
Proof. unfold page_write, memmove. confine. Qed.
Lemma confined_page_read p o n w : confined (page_read p o n w).
Proof. unfold page_read. confine. Qed.
Lemma confined_load_word p k : confined (load_word p k).
Proof. unfold load_word. confine. Qed.
Lemma confined_store_word p k x : confined (store_word p k x).
Proof. unfold store_word. confine. Qed.
#[export] Hint Resolve confined_kalloc confined_kfree confined_cprintf confined_page_write confined_page_read
  confined_load_word confined_store_word : confined.
Lemma confined_walkpgdir d va al : confined (walkpgdir d va al).
Proof. unfold walkpgdir, zero_page. confine. Qed.
#[export] Hint Resolve confined_walkpgdir : confined.
Lemma confined_mappages d va n pa perm : confined (mappages d va n pa perm).
Proof.
  assert (Hl : forall k a last pa, confined (mappages_loop k d a last pa perm)).
  { intros k. induction k; intros; cbn [mappages_loop]; confine. }
  apply Hl.
Qed.
Lemma confined_deallocuvm d a b : confined (deallocuvm d a b).
Proof.
  assert (Hl : forall k c, confined (deallocuvm_loop k d c a)) by (intros k; induction k; intros; cbn [deallocuvm_loop]; confine).
  unfold deallocuvm. confine.
Qed.
#[export] Hint Resolve confined_mappages confined_deallocuvm : confined.
Lemma confined_allocuvm d a b : confined (allocuvm d a b).
Proof.
  assert (Hl : forall k c, confined (allocuvm_loop k d c b a)) by (intros k; induction k; intros; cbn [allocuvm_loop]; unfold zero_page; confine).
  unfold allocuvm. confine.
Qed.
Lemma confined_freevm d : confined (freevm d).
Proof. unfold freevm, free_tables. confine. Qed.
#[export] Hint Resolve confined_allocuvm confined_freevm : confined.
Lemma confined_setupkvm data : confined (setupkvm data).
Proof.
  assert (Hs : forall ks p, confined (setupkvm_loop ks p)) by (intros ks; induction ks; intros; cbn [setupkvm_loop]; confine).
  unfold setupkvm, zero_page. confine.
Qed.
#[export] Hint Resolve confined_setupkvm : confined.
Lemma confined_copyuvm data d sz : confined (copyuvm data d sz).
Proof.
  assert (Hl : forall k p c, confined (copyuvm_loop k d p c sz)) by (intros k; induction k; intros; cbn [copyuvm_loop]; confine).
  unfold copyuvm. confine.
Qed.
Lemma confined_clearpteu d va : confined (clearpteu d va).
Proof. unfold clearpteu. confine. Qed.
Lemma confined_copyout d va p len : confined (copyout d va p len).
Proof.
  assert (Hl : forall k va p len, confined (copyout_loop k d va p len)).
  { intros k. induction k; intros; cbn [copyout_loop]; unfold uva2ka; confine. }
  apply Hl.
Qed.
#[export] Hint Resolve confined_copyuvm confined_clearpteu confined_copyout : confined.

(** How a result is used. *)
Lemma confined_at {T} (m : M T) s a s' : confined m -> m s = Ret a s' ->
  s' = s <| kmem := kmem s' |> <| trace := trace s' |> /\ end_ (kmem s') = end_ (kmem s).
Proof. intros Hm E. specialize (Hm s). by rewrite E in Hm. Qed.

(** ** Freeing *)

(** The pages used for paging are pages of the allocator. *)
Definition tables_ok (s : kstate) (d : Z) : Prop :=
  Kalloc.valid_page (kmem s) d /\
  forall i t, 0 <= i < 1024 -> table (mem (kmem s)) d i = Some t -> Kalloc.valid_page (kmem s) t.

(** [s'] is [s] with the pages of [P] freed. *)
Record freed (s : kstate) (fr : list Z) (P : Z -> Prop) (s' : kstate) (fr' : list Z) : Prop := {
  fd_repr : Kalloc.repr (kmem s') fr';
  fd_free : forall x, x ∈ fr' <-> x ∈ fr \/ P x;
  fd_mem : forall q, q ∉ fr' -> mem (kmem s') !! q = mem (kmem s) !! q;
  fd_page : Forall (is_page (mem (kmem s'))) fr';
  fd_state : s' = s <| kmem := kmem s' |>;
  fd_end : end_ (kmem s') = end_ (kmem s);
}.

Lemma freed_nothing s fr (P : Z -> Prop) : Kalloc.repr (kmem s) fr -> Forall (is_page (mem (kmem s))) fr -> (forall x, ~ P x) -> freed s fr P s fr.
Proof. intros Hr Hf HP. split; [done| |done|done|by destruct s|done]. intros x. specialize (HP x). tauto. Qed.

Lemma freed_trans s fr P s1 f1 Q s2 f2 :
  freed s fr P s1 f1 -> freed s1 f1 Q s2 f2 -> freed s fr (fun x => P x \/ Q x) s2 f2.
Proof.
  intros [A1 A2 A3 A4 A5 A6] [B1 B2 B3 B4 B5 B6]. split; [done| | |done|by rewrite B5, A5|congruence].
  - intros x. rewrite B2, A2. tauto.
  - intros q Hq. rewrite B3 by done. apply A3. rewrite B2 in Hq. tauto.
Qed.

Lemma freed_ext s fr (P Q : Z -> Prop) s' fr' : (forall x, P x <-> Q x) -> freed s fr P s' fr' -> freed s fr Q s' fr'.
Proof. intros HPQ [A1 A2 A3 A4 A5 A6]. split; [done| |done..]. intros x. by rewrite A2, HPQ. Qed.

Lemma kfree_freed s fr q : Kalloc.repr (kmem s) fr -> Forall (is_page (mem (kmem s))) fr -> LkKmem ∉ held s -> Kalloc.valid_page (kmem s) q -> q ∉ fr ->
  let s' := Kalloc.kfree_result q s in Kalloc.kfree q s = Ret tt s' /\ freed s fr (eq q) s' (q :: fr).
Proof.
  intros Hr Hf Hl Hv Hq s'. split; [by apply Kalloc.kfree_ok|]. split; [by apply Kalloc.kfree_repr| | | |done|done].
  - intros x. set_solver.
  - intros p Hp. apply not_elem_of_cons in Hp as [Hp _]. cbn. by rewrite lookup_insert_ne.
  - constructor; [eexists; cbn; rewrite lookup_insert_eq; split; [done|apply length_free_page]|].
    rewrite Forall_forall in *. intros p Hp. destruct (Hf p Hp) as (pg&Hpg&Hlen). exists pg. cbn.
    rewrite lookup_insert_ne; [done|]. by intros ->.
Qed.

(** [for(i = 0; i < NPDENTRIES; i++)]: the page tables not freed yet are those
    of [ks]. *)
Lemma free_tables_loop ks s d fr :
  Kalloc.repr (kmem s) fr -> Forall (is_page (mem (kmem s))) fr -> LkKmem ∉ held s -> is_page (mem (kmem s)) d -> d ∉ fr -> NoDup ks ->
  (forall i, i ∈ ks -> 0 <= i < 1024) ->
  (forall i t, i ∈ ks -> table (mem (kmem s)) d i = Some t -> Kalloc.valid_page (kmem s) t /\ t <> d /\ t ∉ fr) ->
  (forall i j t, i ∈ ks -> j ∈ ks -> table (mem (kmem s)) d i = Some t -> table (mem (kmem s)) d j = Some t -> i = j) ->
  exists s' fr', mfor ks (fun i => e ← load_word d i; if has e PTE_P then Kalloc.kfree (P2V (PTE_ADDR e)) else mret tt) s = Ret tt s' /\
    freed s fr (fun x => exists i, i ∈ ks /\ table (mem (kmem s)) d i = Some x) s' fr' /\ d ∉ fr'.
Proof.
  revert s fr. induction ks as [|i ks IH]; intros s fr Hr Hf Hl Hd Hdf Hnd Hrg Htab Hinj.
  { exists s, fr. split_and!; [done| |done]. apply freed_nothing; [done..|]. intros x (i&Hi&_). set_solver. }
  apply NoDup_cons in Hnd as [Hni Hnd]. cbn [mfor].
  assert (Hcase : exists s1 f1, (e ← load_word d i; if has e PTE_P then Kalloc.kfree (P2V (PTE_ADDR e)) else mret tt) s = Ret tt s1 /\
    freed s fr (fun x => table (mem (kmem s)) d i = Some x) s1 f1).
  { erewrite bind_ret by (apply load_word_ok; [done|apply Hrg; set_solver]). unfold table. case_match eqn:Hp.
    - set (t := P2V _). destruct (Htab i t) as (Hv&Htd&Htf); [set_solver|unfold table; by rewrite Hp|].
      destruct (kfree_freed s fr t Hr Hf Hl Hv Htf) as [E Hfd]. eexists _, _. split; [exact E|]. eapply freed_ext; [|exact Hfd].
      intros x. cbn. naive_solver.
    - exists s, fr. split; [done|]. by apply freed_nothing. }
  destruct Hcase as (s1&f1&E1&Hfd1). erewrite bind_ret by exact E1.
  assert (Hdf1 : d ∉ f1). { rewrite (fd_free _ _ _ _ _ Hfd1). intros [?|Ht]; [done|]. destruct (Htab i d ltac:(set_solver) Ht) as (_&?&_). done. }
  assert (Htb : forall j, table (mem (kmem s1)) d j = table (mem (kmem s)) d j).
  { intros j. apply table_ext. unfold word. by rewrite (fd_mem _ _ _ _ _ Hfd1). }
  destruct (IH s1 f1) as (s2&f2&E2&Hfd2&Hdf2); [apply Hfd1|apply Hfd1|rewrite (fd_state _ _ _ _ _ Hfd1); done|destruct Hd as (pg&?&?); exists pg; by rewrite (fd_mem _ _ _ _ _ Hfd1)|done|done|set_solver| | |].
  - intros j t Hj Ht. rewrite Htb in Ht. destruct (Htab j t ltac:(set_solver) Ht) as (Hv&Htd&Htf). split_and!; [|done|].
    + unfold Kalloc.valid_page in *. by rewrite (fd_end _ _ _ _ _ Hfd1).
    + rewrite (fd_free _ _ _ _ _ Hfd1). intros [?|Ht']; [done|]. apply Hni. by rewrite (Hinj i j t) by set_solver.
  - intros j j' t Hj Hj'. rewrite !Htb. apply Hinj; set_solver.
  - exists s2, f2. split_and!; [done| |done]. eapply freed_ext; [|by eapply freed_trans]. intros x. cbn. setoid_rewrite Htb. set_solver.
Qed.

Lemma free_tables_ok s d fr : owns s d fr -> tables_ok s d ->
  exists s' fr', free_tables d s = Ret tt s' /\
    freed s fr (fun x => exists i, 0 <= i < 1024 /\ table (mem (kmem s)) d i = Some x) s' fr' /\ d ∉ fr'.
Proof.
  intros [[H1 H2 H3 H4 H5] Hfree Hlock] [Hvd Hvt].
  assert (Hin : forall i, i ∈ seqZ 0 NPDENTRIES <-> 0 <= i < 1024) by (intros; rewrite elem_of_seqZ; unfold NPDENTRIES; lia).
  destruct (free_tables_loop (seqZ 0 NPDENTRIES) s d fr) as (s'&fr'&E&Hfd&Hd); [done..|apply NoDup_seqZ|by intros i ?%Hin| | |].
  - intros i t Hi%Hin Ht. destruct (H3 i t Hi Ht) as (_&?&?). split_and!; [by eapply Hvt|done|done].
  - intros i j t Hi%Hin Hj%Hin. by apply H4.
  - exists s', fr'. split_and!; [exact E| |done]. eapply freed_ext; [|exact Hfd]. intros x. cbn. by setoid_rewrite Hin.
Qed.

(** The pages of the address space [d]. *)
Definition belongs (s : kstate) (d x : Z) : Prop :=
  x = d \/ (exists i, 0 <= i < 1024 /\ table (mem (kmem s)) d i = Some x) \/
  (exists va, 0 <= va < KERNBASE /\ has (pte (mem (kmem s)) d va) PTE_P = true /\ x = frame (pte (mem (kmem s)) d va)).

Lemma freevm_ok s d fr : owns s d fr -> frames_ok s d fr -> tables_ok s d ->
  exists s' fr', freevm d s = Ret tt s' /\ freed s fr (belongs s d) s' fr'.
Proof.
  intros Hown Hfo [Hvd Hvt]. pose proof (Kalloc.valid_page_le _ _ Hvd). unfold freevm. rewrite (proj2 (Z.eqb_neq d 0)) by lia.
  destruct (deallocuvm_ok s d fr KERNBASE 0) as (s1&f1&E1&Hsh); [done|done|unfold KERNBASE; lia|lia|].
  erewrite bind_ret by exact E1. destruct Hsh as [Ho1 Hf1 _ (fs&->&Hfs) Hpr Hs1 He1 Ht1].
  destruct (free_tables_ok s1 d (fs ++ fr)) as (s2&f2&E2&Hfd2&Hd2); [done| |].
  { unfold tables_ok, Kalloc.valid_page in *. rewrite He1. split; [done|]. intros i t. rewrite Ht1. apply Hvt. }
  erewrite bind_ret by exact E2. destruct (kfree_freed s2 f2 d) as [E3 Hfd3]; [apply Hfd2|apply Hfd2| | |done|].
  { rewrite (fd_state _ _ _ _ _ Hfd2). apply (ow_lock _ _ _ Ho1). }
  { unfold Kalloc.valid_page in *. by rewrite (fd_end _ _ _ _ _ Hfd2), He1. }
  rewrite E3. eexists _, _. split; [done|]. pose proof (freed_trans _ _ _ _ _ _ _ _ Hfd2 Hfd3) as [A1 A2 A3 A4 A5 A6].
  split; [done| | |done|by rewrite A5, Hs1|congruence].
  - intros x. rewrite A2, elem_of_app, Hfs. unfold belongs. setoid_rewrite Ht1. split.
    + intros [[(va&Hva&Hr&Hp&Hx)|?]|[?|<-]]; [|tauto..]. right. right. right. by exists va.
    + intros [?|[->|[?|(va&Hva&Hp&Hx)]]]; [tauto..|]. left. left. exists va. split_and!; [lia..| | |done|done]; unfold KERNBASE in *; zlia.
  - intros q Hq. rewrite A3 by done. rewrite A2, elem_of_app, Hfs in Hq. apply Hpr.
    + split_and!; [tauto|intros ->; tauto|]. intros i Hi Ht. apply Hq. right. left. exists i. by rewrite Ht1.
    + intros va Hva Hr Hp ->. apply Hq. left. left. by exists va.
Qed.

(** Freeing a page outside the address space leaves the address space alone. *)
Lemma free_outside s d fr q : owns s d fr -> frames_ok s d fr -> tables_ok s d ->
  q ∉ fr -> is_page (mem (kmem s)) q -> Kalloc.valid_page (kmem s) q -> ~ belongs s d q ->
  let s' := Kalloc.kfree_result q s in
  Kalloc.kfree q s = Ret tt s' /\ owns s' d (q :: fr) /\ frames_ok s' d (q :: fr) /\ tables_ok s' d /\
  freed s fr (eq q) s' (q :: fr) /\ forall x, belongs s' d x <-> belongs s d x.
Proof.
  intros Hown Hfo [Hvd Hvt] Hqf Hq Hv Hb s'.
  assert (Hpr : private s d fr q). { split_and!; [done|intros ->; apply Hb; by left|]. intros i Hi Ht. apply Hb. right. left. by exists i. }
  destruct (free_private s d fr q Hown Hpr Hq Hv) as (E&Ho'&Hpte&Htab&Hpriv). fold s' in E, Ho', Hpte, Htab, Hpriv.
  destruct (kfree_freed s fr q) as [_ Hfd]; [apply Hown|apply Hown|apply Hown|done|done|]. fold s' in Hfd.
  split_and!; [done|done| | |done|].
  - eapply ke_frames. apply keeps_intro with (fr := fr); [done|done|done|auto|]. intros va Hva Hp. cbv zeta. apply Hpriv.
    + by apply (fo_page _ _ _ Hfo).
    + intros <-. apply Hb. right. right. by exists va.
  - split; [done|]. intros i t. rewrite Htab. apply Hvt.
  - intros x. unfold belongs. setoid_rewrite Htab. by setoid_rewrite Hpte.
Qed.

(** [freevm] frees every page of the address space, its frames, page tables
    and the directory, and nothing else: no page leaks, and the pages that are
    neither free nor part of it keep their contents. *)
Theorem freevm_frees s d fr : owns s d fr -> frames_ok s d fr -> tables_ok s d ->
  exists s' fr', freevm d s = Ret tt s' /\ Kalloc.repr (kmem s') fr' /\
    (forall x, x ∈ fr' <-> x ∈ fr \/ belongs s d x) /\
    (forall q, q ∉ fr' -> mem (kmem s') !! q = mem (kmem s) !! q).
Proof.
  intros Hown Hfo Hto. destruct (freevm_ok s d fr Hown Hfo Hto) as (s'&fr'&E&[H1 H2 H3 _ _ _]). by exists s', fr'.
Qed.

End Space.
