(* ===== verification/Life.v ===== *)
(** * Life: the life of a process (proc.c)

    userinit, fork, exit, wait, growproc.  The initial program and the address
    of the kernel's data, which the linker provides, are parameters.  Their
    theorems are in [Family] (parents are alive), [Reap] (exit and wait) and
    [Grow] (growproc). *)
From S2P Require Import Prelude Queue KState Kalloc Proc Sleeplock Bio Log Pipe Socket File Fs Vm.

(** ** mmu.h *)
Definition SEG_UCODE : Z := 3.
Definition SEG_UDATA : Z := 4.
Definition DPL_USER : Z := 3.
Definition FL_IF : Z := 0x200.

Module Life.
Import Sleeplock Bio Log Fs.

(** [safestrcpy(s, t, n + 1)] of string.c: what is stored at [s]. *)
Fixpoint name_copy (n : nat) (t : list Z) : option (list Z) :=
  match n with
  | O => Some [0]
  | S n =>
    match t with
    | [] => None
    | c :: t => if c =? 0 then Some [0; 0] else r ← name_copy n t; Some (c :: r)
    end
  end.
(** [safestrcpy(p->name, t, sizeof(p->name))] *)
Definition set_name (i : nat) (t : list Z) : M unit :=
  c ← need (name_copy 15 t) "safestrcpy";
  Proc.set_proc i (fun p => p <| p_name := blit (p_name p) 0 c |>).

(** The checks of [switchuvm]; the segment and page-table registers it loads
    are not in the model. *)
Definition switchuvm (i : nat) : M unit :=
  p ← Proc.get_proc i;
  if p_kstack p =? 0 then panic "switchuvm: no kstack" else
  if p_pgdir p =? 0 then panic "switchuvm: no pgdir" else mret tt.

Section Code.
Context (fuel : nat) {devs : Devices} {stk : Stack} (data : Z) (initcode : list Z).

Definition userinit : M unit :=
  o ← Proc.allocproc;
  modify (fun s => s <| initproc := o |>) ;;
  p ← need o "userinit: p";
  pgdir ← Vm.setupkvm data;
  Proc.set_proc p (fun pr => pr <| p_pgdir := pgdir |>) ;;
  if pgdir =? 0 then panic "userinit: out of memory?" else
  Vm.inituvm pgdir initcode (Z.of_nat (length initcode)) ;;
  Proc.set_proc p (fun pr => pr <| p_sz := PGSIZE |>
    <| p_tf := zero_tf <| tf_cs := Z.lor (Z.shiftl SEG_UCODE 3) DPL_USER |>
      <| tf_ds := Z.lor (Z.shiftl SEG_UDATA 3) DPL_USER |> <| tf_es := Z.lor (Z.shiftl SEG_UDATA 3) DPL_USER |>
      <| tf_ss := Z.lor (Z.shiftl SEG_UDATA 3) DPL_USER |> <| tf_eflags := FL_IF |>
      <| tf_esp := PGSIZE |> <| tf_eip := 0 |> |>) ;;
  set_name p (chars "initcode" ++ [0]) ;;
  cwd ← namei fuel [SLASH];
  Proc.set_proc p (fun pr => pr <| p_cwd := cwd |>) ;;
  acquire LkPtable ;;
  Proc.set_proc p (fun pr => pr <| p_state := RUNNABLE |>) ;;
  release LkPtable.

Definition growproc (n : Z) : M Z :=
  i ← File.current;
  p ← Proc.get_proc i;
  let sz := p_sz p in
  r ← (if 0 <? n then
         sz ← Vm.allocuvm (p_pgdir p) sz (u32 (sz + n)); mret (sz, sz =? 0)
       else if n <? 0 then
         sz ← Vm.deallocuvm (p_pgdir p) sz (u32 (sz + n)); mret (sz, sz =? 0)
       else mret (sz, false));
  let '(sz, failed) := r in
  if (failed : bool) then mret (-1) else
  Proc.set_proc i (fun p => p <| p_sz := sz |>) ;;
  switchuvm i ;;
  mret 0.

(** [for(i = 0; i < NOFILE; i++) if(curproc->ofile[i]) np->ofile[i] = filedup(curproc->ofile[i])] *)
Definition dup_files (i np : nat) : M unit :=
  mfor (seq 0 (Z.to_nat NOFILE)) (fun k =>
    p ← Proc.get_proc i;
    o ← need (p_ofile p !! k) "curproc->ofile[]";
    match o with
    | Some f => f ← File.filedup f; File.set_fd np k (Some f)
    | None => mret tt
    end).

Definition fork : M Z :=
  i ← File.current;
  o ← Proc.allocproc;
  match o with
  | None => mret (-1)
  | Some np =>
    p ← Proc.get_proc i;
    pgdir ← Vm.copyuvm data (p_pgdir p) (p_sz p);
    Proc.set_proc np (fun q => q <| p_pgdir := pgdir |>) ;;
    if pgdir =? 0 then
      q ← Proc.get_proc np;
      Kalloc.kfree (p_kstack q) ;;
      Proc.set_proc np (fun q => q <| p_kstack := 0 |> <| p_state := UNUSED |>) ;;
      mret (-1)
    else
    Proc.set_proc np (fun q => q <| p_sz := p_sz p |> <| p_parent := Some i |>
      <| p_tf := (p_tf p) <| tf_eax := 0 |> |>) ;;
    dup_files i np ;;
    (cwd ← need (p_cwd p) "curproc->cwd"; cwd ← idup cwd;
     Proc.set_proc np (fun q => q <| p_cwd := Some cwd |>)) ;;
    set_name np (p_name p) ;;
    q ← Proc.get_proc np;
    let pid := p_pid q in
    acquire LkPtable ;;
    Proc.set_proc np (fun q => q <| p_state := RUNNABLE |>) ;;
    release LkPtable ;;
    mret pid
  end.

(** Closing the files of the process. *)
Definition close_files (i : nat) : M unit :=
  mfor (seq 0 (Z.to_nat NOFILE)) (fun fd =>
    p ← Proc.get_proc i;
    o ← need (p_ofile p !! fd) "curproc->ofile[]";
    match o with
    | Some f => @File.fileclose (fs_inodes fuel) f ;; File.set_fd i fd None
    | None => mret tt
    end).

(** [wakeup1] of a pointer to a process; nobody sleeps on a null pointer. *)
Definition wakeup1_of (o : option nat) : M unit :=
  match o with Some i => Proc.wakeup1 (ChProc i) | None => mret tt end.

(** Pass the children of [i] to init. *)
Definition abandon (i : nat) : M unit :=
  l ← gets ptable;
  mfor (seq 0 (length l)) (fun k =>
    p ← Proc.get_proc k;
    if bool_decide (p_parent p = Some i) then
      init ← gets initproc;
      Proc.set_proc k (fun p => p <| p_parent := init |>) ;;
      if bool_decide (p_state p = ZOMBIE) then wakeup1_of init else mret tt
    else mret tt).

(** From the acquisition of [ptable.lock] on. *)
Definition exit_table (i : nat) : M unit :=
  acquire LkPtable ;;
  p ← Proc.get_proc i;
  wakeup1_of (p_parent p) ;;
  abandon i ;;
  Proc.set_proc i (fun p => p <| p_state := ZOMBIE |>) ;;
  Proc.sched ;;
  panic "zombie exit".

Definition exit : M unit :=
  i ← File.current;
  init ← gets initproc;
  if bool_decide (init = Some i) then panic "init exiting" else
  close_files i ;;
  begin_op fuel ;;
  p ← Proc.get_proc i;
  (cwd ← need (p_cwd p) "curproc->cwd"; iput fuel cwd) ;;
  end_op fuel ;;
  Proc.set_proc i (fun p => p <| p_cwd := None |>) ;;
  exit_table i.

(** A zombie child found. *)
Definition reap (k : nat) : M Z :=
  p ← Proc.get_proc k;
  let pid := p_pid p in
  Kalloc.kfree (p_kstack p) ;;
  Proc.set_proc k (fun p => p <| p_kstack := 0 |>) ;;
  Vm.freevm (p_pgdir p) ;;
  Proc.set_proc k (fun p => p <| p_pid := 0 |> <| p_parent := None |> <| p_name := <[0%nat := 0]> (p_name p) |>
    <| p_killed := false |> <| p_state := UNUSED |>) ;;
  release LkPtable ;;
  mret pid.

Definition child_of (i : nat) (p : proc) : bool := bool_decide (p_parent p = Some i).

(** [for(;;)] of [wait], [turns] sleeps at most. *)
Fixpoint wait_loop (turns : nat) (i : nat) : M Z :=
  match turns with
  | O => fault "wait: fuel"
  | S turns =>
    l ← gets ptable;
    match find_index (fun p => child_of i p && bool_decide (p_state p = ZOMBIE)) l with
    | Some k => reap k
    | None =>
      p ← Proc.get_proc i;
      if negb (existsb (child_of i) l) || p_killed p then release LkPtable ;; mret (-1) else
      Proc.sleep (ChProc i) LkPtable ;;
      wait_loop turns i
    end
  end.
Definition wait : M Z := i ← File.current; acquire LkPtable ;; wait_loop fuel i.

End Code.

End Life.
