(* ===== verification/Reap.v ===== *)
(** * Reap: exit and wait (proc.c)

    The end of a process: what [exit] leaves in the process table, whom it
    wakes, and that [wait] takes the dead child out of the table and returns
    every page it had to the allocator. *)
From S2P Require Import Prelude Queue KState Kalloc Proc Sleeplock Bio Log Pipe Socket File Fs Vm Space Life.

Module Reap.
Import Vm Space Life.

(** ** [exit] *)

(** The new entry of a process when [i], child of [par], leaves: children go to
    [init], the parent is woken, and init too when a zombie is passed on. *)
Definition adopt (i init : nat) (p : proc) : proc :=
  if bool_decide (p_parent p = Some i) then p <| p_parent := Some init |> else p.
Definition orphan_zombie (i : nat) (l : list proc) : bool :=
  existsb (fun p => bool_decide (p_parent p = Some i) && bool_decide (p_state p = ZOMBIE)) l.
Definition wake_of (o : option nat) (p : proc) : proc :=
  match o with Some j => Proc.wakeup1_proc (ChProc j) p | None => p end.
Definition left_by (i init : nat) (par : option nat) (l : list proc) : list proc :=
  alter (fun p => p <| p_state := ZOMBIE |>) i
    (wake_of (if orphan_zombie i l then Some init else None) <$> (adopt i init <$> (wake_of par <$> l))).

Lemma wake_of_parent o p : p_parent (wake_of o p) = p_parent p.
Proof. destruct o; cbn; [|done]. unfold Proc.wakeup1_proc. by case_match. Qed.
Lemma wake_of_zombie o p : p_state (wake_of o p) = ZOMBIE <-> p_state p = ZOMBIE.
Proof.
  destruct o; cbn; [|done]. unfold Proc.wakeup1_proc. case_bool_decide as Hs; cbn; [|done]. case_bool_decide; cbn; [|done]. by rewrite Hs.
Qed.
Lemma wake_of_adopt o i init p : wake_of o (adopt i init p) = adopt i init (wake_of o p).
Proof. unfold adopt. rewrite wake_of_parent. destruct o; cbn; [|done]. unfold Proc.wakeup1_proc. repeat (case_bool_decide; cbn in *; try done). Qed.
Lemma wake_of_twice o p : wake_of o (wake_of o p) = wake_of o p.
Proof. destruct o; cbn; [|done]. unfold Proc.wakeup1_proc. repeat (case_bool_decide; cbn in *; try done). Qed.

Lemma wakeup1_of_ok o s : wakeup1_of o s = Ret tt (s <| ptable := wake_of o <$> ptable s |>).
Proof. destruct o; cbn [wakeup1_of]; [done|]. rewrite list_fmap_id. by destruct s. Qed.

(** The loop over the table: the entries before [n] are done, and init has been
    woken if one of them was a zombie. *)
Definition woken (i init n : nat) (l : list proc) : option nat := if orphan_zombie i (take n l) then Some init else None.
Definition passed (i init n : nat) (l : list proc) : list proc :=
  imap (fun j p => wake_of (woken i init n l) (if (j <? n)%nat then adopt i init p else p)) l.

Lemma lookup_passed i init n l j :
  passed i init n l !! j = (fun p => wake_of (woken i init n l) (if (j <? n)%nat then adopt i init p else p)) <$> l !! j.
Proof. apply list_lookup_imap. Qed.

Lemma orphan_step i n l p : l !! n = Some p ->
  orphan_zombie i (take (S n) l) = orphan_zombie i (take n l) || (bool_decide (p_parent p = Some i) && bool_decide (p_state p = ZOMBIE)).
Proof. intros Hp. unfold orphan_zombie. rewrite (take_S_r _ _ p), existsb_app by done. cbn. by rewrite orb_false_r. Qed.

Lemma passed_0 i init l : passed i init 0 l = l.
Proof. apply list_eq. intros j. rewrite lookup_passed. by destruct (l !! j). Qed.

Lemma passed_same i init n l p : l !! n = Some p -> p_parent p <> Some i -> passed i init (S n) l = passed i init n l.
Proof.
  intros Hp Hpar. apply list_eq. intros j. rewrite !lookup_passed. unfold woken. rewrite (orphan_step i n l p) by done.
  rewrite (bool_decide_eq_false_2 (p_parent p = _)) by done. cbn [andb]. rewrite orb_false_r.
  destruct (decide (j = n)) as [->|].
  - rewrite Hp. cbn. f_equal. f_equal. unfold adopt. rewrite (bool_decide_eq_false_2 (p_parent p = _)) by done. by repeat case_match.
  - by replace (j <? S n)%nat with (j <? n)%nat by (apply eq_bool_prop_intro; rewrite !Is_true_true, !Nat.ltb_lt; lia).
Qed.

Lemma passed_child i init n l p : l !! n = Some p -> p_parent p = Some i ->
  passed i init (S n) l =
    (if bool_decide (p_state p = ZOMBIE) then fmap (wake_of (Some init)) else id)
      (alter (fun p => p <| p_parent := Some init |>) n (passed i init n l)).
Proof.
  intros Hp Hpar. set (L := alter _ _ _).
  assert (HL : forall j, L !! j = (fun p => wake_of (woken i init n l) (if (j <? S n)%nat then adopt i init p else p)) <$> l !! j).
  { intros j. unfold L. destruct (decide (n = j)) as [<-|].
    - rewrite list_lookup_alter_eq, lookup_passed, Hp. cbn [fmap option_fmap option_map]. f_equal.
      rewrite Nat.ltb_irrefl, (proj2 (Nat.ltb_lt n (S n))) by lia. rewrite wake_of_adopt. unfold adopt. by rewrite wake_of_parent, Hpar, bool_decide_eq_true_2.
    - rewrite list_lookup_alter_ne, lookup_passed by done.
      by replace (j <? S n)%nat with (j <? n)%nat by (apply eq_bool_prop_intro; rewrite !Is_true_true, !Nat.ltb_lt; lia). }
  apply list_eq. intros j. rewrite lookup_passed. unfold woken at 1. rewrite (orphan_step i n l p), Hpar by done.
  rewrite (bool_decide_eq_true_2 (Some i = _)) by done. cbn [andb]. case_bool_decide.
  - rewrite orb_true_r, list_lookup_fmap, HL. destruct (l !! j) as [q|]; [|done]. cbn [fmap option_fmap option_map]. f_equal.
    unfold woken. destruct (orphan_zombie i (take n l)); [|done]. by rewrite wake_of_twice.
  - rewrite orb_false_r. unfold id. rewrite HL. done.
Qed.

Lemma abandon_ok i init s : initproc s = Some init ->
  abandon i s = Ret tt (s <| ptable := passed i init (length (ptable s)) (ptable s) |>).
Proof.
  intros Hi. unfold abandon. rewrite bind_gets. set (l := ptable s).
  assert (Hg : forall m n s', (n + m)%nat = length l -> s' = s <| ptable := passed i init n l |> ->
    mfor (seq n m) (fun k => p ← Proc.get_proc k;
      if bool_decide (p_parent p = Some i) then init ← gets initproc; Proc.set_proc k (fun p => p <| p_parent := init |>) ;;
        if bool_decide (p_state p = ZOMBIE) then wakeup1_of init else mret tt else mret tt) s'
    = Ret tt (s <| ptable := passed i init (length l) l |>)).
  { induction m as [|m IH]; intros n s' Hn ->; [assert (n = length l) as -> by lia; done|]. cbn [seq mfor].
    destruct (lookup_lt_is_Some_2 l n) as [p Hp]; [lia|]. set (w := wake_of (woken i init n l) p).
    erewrite bind_ret; [apply (IH (S n)); [lia|reflexivity]|].
    erewrite bind_ret. 2:{ apply Proc.get_proc_ok. cbn. rewrite lookup_passed, Hp, Nat.ltb_irrefl. reflexivity. }
    rewrite wake_of_parent, (bool_decide_ext _ _ (wake_of_zombie _ p)). case_bool_decide as Hpar.
    - rewrite bind_gets. cbn [initproc setf]. rewrite Hi. rewrite (passed_child i init n l p) by done.
      rewrite Proc.bind_set_proc. case_bool_decide; [rewrite wakeup1_of_ok|]; done.
    - rewrite (passed_same i init n l p) by done. done. }
  apply Hg; [done|]. rewrite passed_0. by destruct s.
Qed.

Lemma orphan_wake o i l : orphan_zombie i (wake_of o <$> l) = orphan_zombie i l.
Proof.
  unfold orphan_zombie. induction l as [|p l IH]; [done|]. cbn [fmap list_fmap existsb]. rewrite IH, wake_of_parent. f_equal. f_equal.
  apply bool_decide_ext, wake_of_zombie.
Qed.

Lemma passed_all i init l : passed i init (length l) l = wake_of (if orphan_zombie i l then Some init else None) <$> (adopt i init <$> l).
Proof.
  apply list_eq. intros j. rewrite lookup_passed, !list_lookup_fmap. unfold woken. rewrite firstn_all.
  destruct (l !! j) as [p|] eqn:Hp; [|done]. cbn [fmap option_fmap option_map]. by rewrite (proj2 (Nat.ltb_lt j _)) by (by eapply lookup_lt_Some).
Qed.

(** The last part of [exit]: one atomic segment under [ptable.lock]. *)
Lemma exit_table_ok i p init s :
  curproc s = Some i -> ptable s !! i = Some p -> initproc s = Some init -> held s = [] ->
  exists s', exit_table i s = Block s' (fun _ => Panic "zombie exit") /\
    s' = s <| held := [LkPtable] |> <| ptable := left_by i init (p_parent p) (ptable s) |>.
Proof.
  intros Hc Hp Hi Hh. unfold exit_table. erewrite bind_ret by (apply Kalloc.acquire_ok; rewrite Hh; apply not_elem_of_nil). rewrite Hh.
  set (s1 := s <| held := [LkPtable] |>). erewrite bind_ret by (by apply (Proc.get_proc_ok i p s1)).
  erewrite bind_ret by apply wakeup1_of_ok. erewrite bind_ret by (by apply (abandon_ok i init)).
  rewrite Proc.bind_set_proc. set (s2 := _ <| ptable := alter _ _ _ |>).
  assert (E2 : s2 = s <| held := [LkPtable] |> <| ptable := left_by i init (p_parent p) (ptable s) |>).
  { unfold s2, left_by. cbn [ptable setf]. rewrite passed_all, orphan_wake. done. }
  exists s2. split; [|exact E2]. unfold mbind, M_bind.
  assert (Hl : exists q, ptable s2 !! i = Some q /\ p_state q = ZOMBIE).
  { rewrite E2. cbn. unfold left_by. rewrite list_lookup_alter_eq, !list_lookup_fmap, Hp. by eexists. }
  destruct Hl as (q&Hq&Hz). rewrite (Proc.sched_ok i q) by (done || (rewrite Hz; discriminate)). done.
Qed.

(** ** [wait] *)

(** The entry of a process that has been waited for. *)
Definition reaped (p : proc) : proc :=
  p <| p_kstack := 0 |> <| p_pid := 0 |> <| p_parent := None |> <| p_name := <[0%nat := 0]> (p_name p) |>
    <| p_killed := false |> <| p_state := UNUSED |>.

(** The memory of a process: its page tables and its kernel stack. *)
Record body (s : kstate) (fr : list Z) (p : proc) : Prop := {
  bd_owns : owns s (p_pgdir p) fr;
  bd_frames : frames_ok s (p_pgdir p) fr;
  bd_tables : tables_ok s (p_pgdir p);
  bd_stack : is_page (mem (kmem s)) (p_kstack p) /\ Kalloc.valid_page (kmem s) (p_kstack p) /\
    p_kstack p ∉ fr /\ ~ belongs s (p_pgdir p) (p_kstack p);
}.

Lemma belongs_ext s s' d x : mem (kmem s') = mem (kmem s) -> belongs s' d x <-> belongs s d x.
Proof. intros E. unfold belongs. by rewrite E. Qed.

Lemma owns_ext s s' d fr : kmem s' = kmem s -> LkKmem ∉ held s' -> owns s d fr -> owns s' d fr.
Proof. intros E Hl [H1 H2 H3]. split; by rewrite ?E. Qed.
Lemma frames_ext s s' d fr : kmem s' = kmem s -> frames_ok s d fr -> frames_ok s' d fr.
Proof. intros E [H1 H2 H3]. split; unfold private in *; rewrite ?E; assumption. Qed.
Lemma tables_ext s s' d : kmem s' = kmem s -> tables_ok s d -> tables_ok s' d.
Proof. intros E. unfold tables_ok. by rewrite E. Qed.
Lemma body_ext s s' fr p : kmem s' = kmem s -> LkKmem ∉ held s' -> body s fr p -> body s' fr p.
Proof.
  intros E Hl [H1 H2 H3 (H4&H5&H6&H7)].
  split; [by eapply owns_ext|by eapply frames_ext|by eapply tables_ext|]. rewrite E. split_and!; [done..|].
  by rewrite (belongs_ext s s') by (by rewrite E).
Qed.

Lemma reap_ok k p fr s : ptable s !! k = Some p -> held s = [LkPtable] -> body s fr p ->
  exists s' fr', reap k s = Ret (p_pid p) s' /\ held s' = [] /\ ptable s' = alter reaped k (ptable s) /\ curproc s' = curproc s /\
    freed s fr (fun x => x = p_kstack p \/ belongs s (p_pgdir p) x) (s' <| held := held s |> <| ptable := ptable s |>) fr'.
Proof.
  intros Hk Hh [Ho Hf Ht (Hpg&Hv&Hnf&Hnb)]. unfold reap. erewrite bind_ret by (by apply Proc.get_proc_ok). cbv zeta.
  destruct (free_outside s (p_pgdir p) fr (p_kstack p)) as (E1&Ho1&Hf1&Ht1&Hfd1&Hb1); [done..|].
  erewrite bind_ret by exact E1. set (s1 := Kalloc.kfree_result (p_kstack p) s) in *. rewrite Proc.bind_set_proc.
  set (s2 := s1 <| ptable := _ |>). destruct (freevm_ok s2 (p_pgdir p) (p_kstack p :: fr)) as (s3&f3&E3&Hfd3).
  { apply (owns_ext s1); [done|apply Ho1|done]. }
  { by apply (frames_ext s1). }
  { by apply (tables_ext s1). }
  erewrite bind_ret by exact E3. rewrite Proc.bind_set_proc.
  pose proof (fd_state _ _ _ _ _ Hfd3) as Es3. erewrite bind_ret by (apply Kalloc.release_ok; rewrite Es3; cbn; rewrite Hh; left).
  eexists _, f3. split_and!; [done| | | |].
  - rewrite Es3. cbn. by rewrite Hh.
  - rewrite Es3. cbn. by rewrite list_alter_alter.
  - by rewrite Es3.
  - eapply (freed_ext _ _ (fun x => p_kstack p = x \/ belongs s2 (p_pgdir p) x)).
    { intros x. rewrite (belongs_ext s1 s2), Hb1 by done. naive_solver. }
    destruct Hfd3 as [A1 A2 A3 A4 A5 A6], Hfd1 as [B1 B2 B3 B4 B5 B6].
    split; [exact A1|intros x; rewrite A2, B2; tauto| |exact A4| |exact A6].
    + intros q Hq. cbn. rewrite A3 by done. apply B3. intros Hq'. apply Hq, A2. by left.
    + rewrite Es3. by destruct s.
Qed.

(** ** Theorems *)

(** Whom the exit of [i], a child of [par], wakes: a process in [wait] that is
    its parent, and init when it gets a zombie. *)
Definition roused (i init : nat) (par : option nat) (l : list proc) (q : proc) : Prop :=
  p_state q = SLEEPING /\
  (p_chan q = ChProc <$> par /\ par <> None \/ p_chan q = Some (ChProc init) /\ orphan_zombie i l = true).
#[export] Instance roused_dec i init par l q : Decision (roused i init par l q).
Proof. unfold roused. apply _. Defined.

Lemma wake_of_state o q :
  p_state (wake_of o q) = if decide (p_state q = SLEEPING /\ p_chan q = ChProc <$> o /\ o <> None) then RUNNABLE else p_state q.
Proof.
  destruct o as [j|]; cbn [wake_of fmap option_fmap option_map]; [|by rewrite decide_False by naive_solver].
  unfold Proc.wakeup1_proc. repeat case_bool_decide; cbn; case_decide; try done; naive_solver.
Qed.
Lemma wake_of_same o q : p_pid (wake_of o q) = p_pid q /\ p_chan (wake_of o q) = p_chan q.
Proof. destruct o; cbn; [|done]. unfold Proc.wakeup1_proc. by case_match. Qed.
Lemma adopt_same i init q : p_pid (adopt i init q) = p_pid q /\ p_chan (adopt i init q) = p_chan q /\ p_state (adopt i init q) = p_state q /\
  p_parent (adopt i init q) = if decide (p_parent q = Some i) then Some init else p_parent q.
Proof. unfold adopt. case_bool_decide; case_decide; done. Qed.

Lemma left_state i init par l j q : l !! j = Some q -> exists q', left_by i init par l !! j = Some q' /\
  p_parent q' = (if decide (p_parent q = Some i) then Some init else p_parent q) /\ p_pid q' = p_pid q /\ p_chan q' = p_chan q /\
  p_state q' = if decide (j = i) then ZOMBIE else if decide (roused i init par l q) then RUNNABLE else p_state q.
Proof.
  intros Hq. unfold left_by. set (o := if orphan_zombie i l then Some init else None).
  set (q' := wake_of o (adopt i init (wake_of par q))).
  assert (Hq' : p_parent q' = (if decide (p_parent q = Some i) then Some init else p_parent q) /\ p_pid q' = p_pid q /\ p_chan q' = p_chan q).
  { unfold q'. destruct (wake_of_same o (adopt i init (wake_of par q))) as [-> ->]. destruct (adopt_same i init (wake_of par q)) as (E1&E2&_&E3).
    destruct (wake_of_same par q) as [E4 E5]. rewrite wake_of_parent, E1, E2, E3, E4, E5, wake_of_parent. done. }
  destruct (decide (j = i)) as [->|Hne].
  - rewrite list_lookup_alter_eq, !list_lookup_fmap, Hq. eexists. split; [done|]. destruct Hq' as (?&?&?). by split_and!.
  - rewrite list_lookup_alter_ne, !list_lookup_fmap, Hq by done. eexists. split; [done|]. destruct Hq' as (?&?&?). split_and!; [done..|]. 
    unfold q'. rewrite wake_of_state. destruct (adopt_same i init (wake_of par q)) as (_&->&->&_).
    destruct (wake_of_same par q) as [_ ->]. rewrite wake_of_state. clearbody q'. unfold o. clear o.
    assert (Hr : roused i init par l q <-> p_state q = SLEEPING /\ (p_chan q = ChProc <$> par /\ par <> None \/
      p_chan q = ChProc <$> (if orphan_zombie i l then Some init else None) /\ (if orphan_zombie i l then Some init else None) <> None)).
    { unfold roused. destruct (orphan_zombie i l); cbn; naive_solver. }
    generalize dependent (if orphan_zombie i l then Some init else None). intros o Hr.
    destruct (decide (p_state q = SLEEPING /\ p_chan q = ChProc <$> par /\ par <> None)) as [(A1&A2&A3)|A].
    + rewrite decide_False by (by intros [? _]). rewrite decide_True; [done|]. apply Hr. tauto.
    + destruct (decide (p_state q = SLEEPING /\ p_chan q = ChProc <$> o /\ o <> None)) as [B|B].
      * rewrite decide_True; [done|]. apply Hr. tauto.
      * rewrite decide_False; [done|]. rewrite Hr. tauto.
Qed.

(** the end of [exit] is one atomic segment: when the process gives up the
    CPU for the last time it is a ZOMBIE, each of its children has init as its
    parent, its parent is runnable if it was sleeping in [wait], init is
    runnable if it was sleeping in [wait] and has inherited a zombie, and
    nobody else has changed state.  Were it ever scheduled again the kernel
    would stop. *)
Theorem exit_hands_over i p init s :
  curproc s = Some i -> ptable s !! i = Some p -> initproc s = Some init -> held s = [] ->
  exists s', exit_table i s = Block s' (fun _ => Panic "zombie exit") /\ held s' = [LkPtable] /\
    length (ptable s') = length (ptable s) /\
    forall j q, ptable s !! j = Some q -> exists q', ptable s' !! j = Some q' /\
      p_parent q' = (if decide (p_parent q = Some i) then Some init else p_parent q) /\ p_pid q' = p_pid q /\ p_chan q' = p_chan q /\
      p_state q' = if decide (j = i) then ZOMBIE else
        if decide (roused i init (p_parent p) (ptable s) q) then RUNNABLE else p_state q.
Proof.
  intros Hc Hp Hi Hh. destruct (exit_table_ok i p init s Hc Hp Hi Hh) as (s'&E&->). eexists. split_and!; [exact E|done| |].
  - cbn. unfold left_by. by rewrite length_alter, !length_fmap.
  - intros j q Hq. by apply left_state.
Qed.

(** C23: [wait] returns the pid of the first child that is a zombie, takes it
    out of the table, and gives all its memory back: the free pages are now
    those of before, the kernel stack of the child, its page directory, page
    tables and frames; every other page keeps its contents. *)
Theorem wait_reaps fuel i k p fr s :
  curproc s = Some i -> held s = [] -> ptable s !! k = Some p -> p_parent p = Some i -> p_state p = ZOMBIE ->
  (forall j q, (j < k)%nat -> ptable s !! j = Some q -> p_parent q = Some i -> p_state q <> ZOMBIE) -> body s fr p ->
  exists s' fr', wait (S fuel) s = Ret (p_pid p) s' /\ held s' = [] /\ curproc s' = Some i /\
    ptable s' = alter reaped k (ptable s) /\ Kalloc.repr (kmem s') fr' /\
    (forall x, x ∈ fr' <-> x ∈ fr \/ x = p_kstack p \/ belongs s (p_pgdir p) x) /\
    (forall q, q ∉ fr' -> mem (kmem s') !! q = mem (kmem s) !! q).
Proof.
  intros Hc Hh Hk Hpar Hz Hfirst Hb. unfold wait. rewrite (File.bind_current i) by done.
  erewrite bind_ret by (apply Kalloc.acquire_ok; rewrite Hh; apply not_elem_of_nil). rewrite Hh.
  set (s1 := s <| held := [LkPtable] |>). cbn [wait_loop]. rewrite bind_gets.
  assert (Hf : find_index (fun p => child_of i p && bool_decide (p_state p = ZOMBIE)) (ptable s1) = Some k).
  { apply (find_index_first _ _ k p); [done|unfold child_of; by rewrite !bool_decide_eq_true_2|]. intros j q Hj Hq.
    unfold child_of. case_bool_decide; [|done]. apply bool_decide_eq_false. by eapply Hfirst. }
  rewrite Hf. destruct (reap_ok k p fr s1) as (s'&fr'&E&H1&H2&H3&Hfd); [done|done| |].
  { apply (body_ext s); [done|cbn; set_solver|done]. }
  exists s', fr'. destruct Hfd as [A1 A2 A3 _ _ _]. split_and!; [done|done|by rewrite H3|done|done| |done].
  intros x. rewrite A2. by rewrite (belongs_ext s s1).
Qed.

(** ** Witnesses *)

(** Init and the parent wait, process 2 exits and leaves a zombie. *)
Definition demo_exit : kstate :=
  tiny <| ptable := [ zero_proc <| p_state := SLEEPING |> <| p_pid := 1 |> <| p_chan := Some (ChProc 0) |>;
      zero_proc <| p_state := SLEEPING |> <| p_pid := 2 |> <| p_parent := Some 0%nat |> <| p_chan := Some (ChProc 1) |>;
      zero_proc <| p_state := RUNNING |> <| p_pid := 3 |> <| p_parent := Some 1%nat |>;
      zero_proc <| p_state := ZOMBIE |> <| p_pid := 4 |> <| p_parent := Some 2%nat |> ] |>
    <| curproc := Some 2%nat |> <| initproc := Some 0%nat |> <| held := [] |>.

Lemma exit_hands_over_witness :
  exists s', exit_table 2 demo_exit = Block s' (fun _ => Panic "zombie exit") /\
    p_state <$> ptable s' = [RUNNABLE; RUNNABLE; ZOMBIE; ZOMBIE] /\ p_parent <$> ptable s' = [None; Some 0; Some 1; Some 0]%nat.
Proof.
  destruct (exit_hands_over 2 (zero_proc <| p_state := RUNNING |> <| p_pid := 3 |> <| p_parent := Some 1%nat |>) 0 demo_exit)
    as (s'&E&_&Hl&H); [reflexivity..|]. exists s'. split; [exact E|].
  destruct (H 0%nat _ eq_refl) as (q0&E0&P0&_&_&S0), (H 1%nat _ eq_refl) as (q1&E1&P1&_&_&S1).
  destruct (H 2%nat _ eq_refl) as (q2&E2&P2&_&_&S2), (H 3%nat _ eq_refl) as (q3&E3&P3&_&_&S3).
  destruct (ptable s') as [|? [|? [|? [|? [|? ?]]]]]; try discriminate Hl. cbn in E0, E1, E2, E3. simplify_eq. cbn.
  rewrite S0, S1, S2, S3, P0, P1, P2, P3. split; vm_compute; reflexivity.
Defined.

(** A zombie with an empty address space and a kernel stack. *)
Definition demo_zombie : proc :=
  zero_proc <| p_state := ZOMBIE |> <| p_pid := 7 |> <| p_parent := Some 0%nat |> <| p_pgdir := demo_dir |> <| p_kstack := 0x80401000 |>.
Definition demo_wait : kstate :=
  match Kalloc.kalloc demo_vm with Ret _ s => s | _ => demo_vm end
    <| ptable := [zero_proc <| p_state := RUNNING |> <| p_pid := 1 |>; demo_zombie] |> <| curproc := Some 0%nat |>.

Lemma demo_wait_body : body demo_wait [0x80402000; 0x80403000; 0x80404000] demo_zombie.
Proof.
  destruct demo_vm_ok as (Ho&Hf&Hp).
  destruct (kalloc_spare demo_vm demo_dir 0x80401000 [0x80402000; 0x80403000; 0x80404000]) as (s'&E&_&[K1 K2 K3 _]&[S1 S2 S3 _ S5]&_&_&He); [done..|].
  assert (Ek : kmem demo_wait = kmem s') by (unfold demo_wait; by rewrite E).
  assert (Hnone : forall i, 0 <= i < 1024 -> table (mem (kmem s')) demo_dir i = None) by
    (intros i Hi; apply zero_directory; [|done]; transitivity (match Kalloc.kalloc demo_vm with Ret _ s => mem (kmem s) !! demo_dir | _ => None end);
      [by rewrite E|vm_compute; reflexivity]).
  split.
  - apply (owns_ext s'); [done| |done]. unfold demo_wait. rewrite E. exact (ow_lock _ _ _ K1).
  - by apply (frames_ext s').
  - apply (tables_ext s'); [done|]. split.
    { unfold Kalloc.valid_page. rewrite He. split_and!; [reflexivity|vm_compute; discriminate..|vm_compute; reflexivity]. }
    intros i t Hi Ht. by rewrite Hnone in Ht.
  - rewrite Ek. split_and!; [done|done|apply S2|]. rewrite (belongs_ext s' demo_wait) by (by rewrite Ek).
    intros [?|[(i&Hi&Ht)|(va&Hva&Hpr&Hx)]]; [discriminate|by rewrite Hnone in Ht|]. by apply (S5 va Hva Hpr).
Qed.

Lemma wait_reaps_witness : exists s' fr', wait 1 demo_wait = Ret 7 s' /\ ptable s' = alter reaped 1%nat (ptable demo_wait) /\
  Kalloc.repr (kmem s') fr' /\ 0x80401000 ∈ fr' /\ demo_dir ∈ fr'.
Proof.
  destruct (wait_reaps 0 0 1 demo_zombie [0x80402000; 0x80403000; 0x80404000] demo_wait) as (s'&fr'&E&_&_&H2&H3&H4&_);
    [reflexivity..| |exact demo_wait_body|].
  - intros [|j] q Hj Hq; [|lia]. vm_compute in Hq. by simplify_eq.
  - exists s', fr'. split_and!; [exact E|exact H2|exact H3|apply H4; right; left; reflexivity|apply H4; right; right; left; reflexivity].
Defined.

End Reap.
