(* ===== verification/Grow.v ===== *)
(** * Grow: the size of a process (proc.c)

    What growproc does to the memory of the running process: it grows by zero
    bytes, or shrinks and gives the pages back, or fails and changes nothing a
    user program can see; and the two requests it mishandles. *)
From S2P Require Import Prelude Queue KState Kalloc Proc Sleeplock Bio Log Pipe Socket File Fs Vm Space Life.

Module Grow.
Import Vm Space Life.

(** The user pages are those up to the size of the process. *)
Record image (s : kstate) (fr : list Z) (d sz : Z) : Prop := {
  im_owns : owns s d fr;
  im_frames : frames_ok s d fr;
  im_end : KERNBASE < end_ (kmem s);
  im_size : 0 <= sz < KERNBASE;
  im_present : forall va, 0 <= va < KERNBASE ->
    has (pte (mem (kmem s)) d va) PTE_P = true <-> va `div` 4096 < (sz + 4095) `div` 4096;
}.

(** The running process. *)
Record running (s : kstate) (i : nat) (p : proc) : Prop := {
  ru_cur : curproc s = Some i;
  ru_proc : ptable s !! i = Some p;
  ru_stack : p_kstack p <> 0;
  ru_dir : p_pgdir p <> 0;
}.

(** The end of [growproc]. *)
Lemma resize_ok i p s sz : running s i p ->
  (Proc.set_proc i (fun p => p <| p_sz := sz |>) ;; switchuvm i ;; mret 0) s =
    Ret 0 (s <| ptable := alter (fun p => p <| p_sz := sz |>) i (ptable s) |>).
Proof.
  intros [H1 H2 H3 H4]. rewrite Proc.bind_set_proc. unfold switchuvm.
  erewrite bind_ret; [done|]. erewrite bind_ret by (apply (Proc.get_proc_ok i (p <| p_sz := sz |>)); cbn; by rewrite list_lookup_alter_eq, H2).
  cbn. by rewrite !(proj2 (Z.eqb_neq _ 0)).
Qed.

Lemma grown_image s fr d sz n s' fr' : image s fr d sz -> 0 <= n -> sz + n < KERNBASE ->
  grown s d fr ((sz + 4095) `div` 4096) ((sz + n + 4095) `div` 4096) s' fr' -> image s' fr' d (sz + n).
Proof.
  intros [H1 H2 H3 H4 H5] Hn Hk [G1 G2 G3 G4 _ G6 _]. split; [done|done|by rewrite G6|lia|]. intros va Hva.
  assert (Hva' : 0 <= va < 2 ^ 32) by (unfold KERNBASE in *; lia).
  destruct (decide ((sz + 4095) `div` 4096 <= va `div` 4096 < (sz + n + 4095) `div` 4096)) as [Hr|Hr].
  - split; [lia|]. intros _. specialize (G4 va Hva'). rewrite decide_True in G4 by done. unfold ubyte, user in G4.
    by destruct (has _ PTE_P).
  - rewrite G3, H5 by done. split; [|lia]. intros ?. zlia.
Qed.

Lemma unmapped_image s fr d sz sz' s' fr' : image s fr d sz -> owns s' d fr' -> frames_ok s' d fr' -> end_ (kmem s') = end_ (kmem s) ->
  0 <= sz' < KERNBASE -> forall k j, (sz' + 4095) `div` 4096 = Z.min k ((sz + 4095) `div` 4096) -> (sz + 4095) `div` 4096 <= j -> unmapped s d k j s' ->
  image s' fr' d sz'.
Proof.
  intros [H1 H2 H3 H4 H5] Ho Hf He Hs k j Ek Hj Hu. split; [done|done|by rewrite He|done|]. intros va Hva.
  destruct (Hu va) as [_ ->]; [unfold KERNBASE in *; lia|]. rewrite H5 by done. lia.
Qed.

(** [s'] is [s] with other pages. *)
Lemma confined_running {T} (m : M T) s a s' i p : confined m -> m s = Ret a s' -> running s i p ->
  running s' i p /\ ptable s' = ptable s /\ end_ (kmem s') = end_ (kmem s).
Proof. intros Hm E [H1 H2 H3 H4]. destruct (confined_at m s a s' Hm E) as [-> ?]. done. Qed.

Section Growproc.
Context (i : nat) (p : proc) (fr : list Z) (s : kstate) (n : Z).
Hypothesis Hrun : running s i p.
Hypothesis Him : image s fr (p_pgdir p) (p_sz p).
Hypothesis Hn : - 2 ^ 31 <= n < 2 ^ 31.

Abbreviation d := (p_pgdir p).
Abbreviation sz := (p_sz p).
Abbreviation old_end := ((sz + 4095) `div` 4096).
Abbreviation new_end := ((sz + n + 4095) `div` 4096).

Lemma growproc_up : 0 < n -> sz + n < KERNBASE ->
  exists r s' fr', growproc n s = Ret r s' /\ (2 * (new_end - old_end) <= Z.of_nat (length fr) -> r = 0) /\
    ((r = 0 /\ image s' fr' d (sz + n) /\ ptable s' = alter (fun p => p <| p_sz := sz + n |>) i (ptable s) /\
      forall va, 0 <= va < 2 ^ 32 -> ubyte s' d va = if decide (old_end <= va `div` 4096 < new_end) then Some 0 else ubyte s d va) \/
     (r = -1 /\ image s' fr' d sz /\ ptable s' = ptable s /\ forall va, 0 <= va < 2 ^ 32 -> ubyte s' d va = ubyte s d va)).
Proof.
  intros Hpos Hk. pose proof (im_size _ _ _ _ Him). unfold growproc. rewrite (File.bind_current i) by apply Hrun.
  erewrite bind_ret by (apply Proc.get_proc_ok, Hrun). cbv zeta. rewrite (proj2 (Z.ltb_lt 0 n)), u32_small by (unfold KERNBASE in *; lia).
  destruct (allocuvm_full s d fr sz (sz + n)) as (r&s1&fr1&E&Ho&Hf&Hr); [apply Him..|lia|done| |].
  { intros va Hva Hr. apply not_true_iff_false. rewrite (im_present _ _ _ _ Him); [lia|unfold KERNBASE in *; zlia]. }
  assert (Hnp : forall va, 0 <= va < 2 ^ 32 -> old_end <= va `div` 4096 < new_end -> ubyte s d va = None).
  { intros va Hva Hr'. unfold ubyte, user. destruct (has _ PTE_P) eqn:Hp; [|done]. apply (im_present _ _ _ _ Him) in Hp; [lia|unfold KERNBASE in *; zlia]. }
  destruct (confined_running _ _ _ _ i p (confined_allocuvm _ _ _) E Hrun) as (Hrun1&Hpt1&He1).
  erewrite bind_ret by (erewrite bind_ret by exact E; reflexivity). destruct Hr as [[-> Hg]|(-> & Hc & Hu & _)].
  - rewrite (proj2 (Z.eqb_neq _ 0)) by lia. rewrite (resize_ok i p) by done. eexists 0, _, fr1. split_and!; [done|done|left]. split_and!; [done| | |].
    + destruct (grown_image s fr d sz n s1 fr1 Him) as [I1 I2 I3 I4 I5]; [lia|done|done|]. by split; [destruct I1|destruct I2|..].
    + cbn. by rewrite Hpt1.
    + apply Hg.
  - exists (-1), s1, fr1. split_and!; [done|lia|right]. split_and!; [done| |done|].
    + eapply (unmapped_image s fr d sz sz s1 fr1 Him Ho Hf He1 ltac:(lia) old_end (Z.max old_end new_end)); [lia|lia|].
      rewrite Z.max_r by zlia. exact Hu.
    + intros va Hva. destruct (Hu va Hva) as [-> _]. case_decide; [|done]. symmetry. by apply Hnp.
Qed.

Lemma growproc_down : n < 0 -> 0 <= sz + n ->
  exists s' fr', growproc n s = Ret (if sz + n =? 0 then -1 else 0) s' /\ image s' fr' d (sz + n) /\
    ptable s' = (if sz + n =? 0 then ptable s else alter (fun p => p <| p_sz := sz + n |>) i (ptable s)) /\
    forall va, 0 <= va < 2 ^ 32 -> ubyte s' d va = if decide (new_end <= va `div` 4096 < old_end) then None else ubyte s d va.
Proof.
  intros Hneg Hk. pose proof (im_size _ _ _ _ Him). unfold growproc. rewrite (File.bind_current i) by apply Hrun.
  erewrite bind_ret by (apply Proc.get_proc_ok, Hrun). cbv zeta. rewrite (proj2 (Z.ltb_ge 0 n)), (proj2 (Z.ltb_lt n 0)), u32_small by (unfold KERNBASE in *; lia).
  destruct (deallocuvm_ok s d fr sz (sz + n)) as (s1&fr1&E&Hsh); [apply Him..|lia|lia|].
  destruct (confined_running _ _ _ _ i p (confined_deallocuvm _ _ _) E Hrun) as (Hrun1&Hpt1&He1).
  assert (Hge : new_end <= old_end) by zlia. rewrite Z.max_r in Hsh by done.
  assert (Him1 : image s1 fr1 d (sz + n)).
  { eapply (unmapped_image s fr d sz (sz + n) s1 fr1 Him); [apply Hsh|apply Hsh|done|lia| | |eapply shrunk_unmapped; [apply Him|exact Hsh]]; lia. }
  erewrite bind_ret by (erewrite bind_ret by exact E; reflexivity). destruct (sz + n =? 0).
  - exists s1, fr1. split_and!; [done|done|done|]. eapply shrunk_ubyte; [apply Him|done].
  - rewrite (resize_ok i p) by done. eexists _, fr1. split_and!; [done| |cbn; by rewrite Hpt1|].
    + destruct Him1 as [I1 I2 I3 I4 I5]. by split; [destruct I1|destruct I2|..].
    + exact (shrunk_ubyte s d fr _ _ s1 fr1 (im_frames _ _ _ _ Him) Hsh).
Qed.

End Growproc.

(** [growproc] grows the process by zero bytes or shrinks it and takes the
    pages beyond the new size away; every other byte stays, and the pages are
    again those up to the size.  When memory runs out while it grows it returns
    -1, and neither the size nor any user byte has changed. *)
Theorem growproc_resizes i p fr s n :
  running s i p -> image s fr (p_pgdir p) (p_sz p) -> - 2 ^ 31 <= n < 2 ^ 31 -> 0 < p_sz p + n < KERNBASE ->
  let old_end := (p_sz p + 4095) `div` 4096 in let new_end := (p_sz p + n + 4095) `div` 4096 in
  exists r s' fr', growproc n s = Ret r s' /\ (2 * (new_end - old_end) <= Z.of_nat (length fr) -> r = 0) /\
    ((r = 0 /\ image s' fr' (p_pgdir p) (p_sz p + n) /\
      ptable s' = alter (fun p' => p' <| p_sz := p_sz p + n |>) i (ptable s) /\
      forall va, 0 <= va < 2 ^ 32 -> ubyte s' (p_pgdir p) va =
        if decide (old_end <= va `div` 4096 < new_end) then Some 0 else
        if decide (new_end <= va `div` 4096 < old_end) then None else ubyte s (p_pgdir p) va) \/
     (r = -1 /\ image s' fr' (p_pgdir p) (p_sz p) /\ ptable s' = ptable s /\
      forall va, 0 <= va < 2 ^ 32 -> ubyte s' (p_pgdir p) va = ubyte s (p_pgdir p) va)).
Proof.
  intros Hrun Him Hn Hsz old_end new_end. destruct (Z.lt_total n 0) as [Hlt|[->|Hgt]].
  - destruct (growproc_down i p fr s n) as (s'&fr'&E&Hi&Ht&Hb); [done..|lia|]. rewrite (proj2 (Z.eqb_neq _ 0)) in E, Ht by lia.
    exists 0, s', fr'. split_and!; [done|done|left]. split_and!; [done..|]. intros va Hva. rewrite Hb by done.
    fold old_end new_end. assert (new_end <= old_end) by (unfold old_end, new_end; zlia).
    by rewrite (decide_False (P := old_end <= _ < new_end)) by lia.
  - exists 0. eexists _, fr. unfold growproc. rewrite (File.bind_current i) by apply Hrun.
    erewrite bind_ret by (apply Proc.get_proc_ok, Hrun). cbv zeta. cbn [Z.ltb Z.compare]. rewrite bind_mret. cbv iota. rewrite (resize_ok i p) by done.
    split_and!; [done|done|left]. rewrite Z.add_0_r. split_and!; [done| |done|].
    + destruct Him as [I1 I2 I3 I4 I5]. by split; [destruct I1|destruct I2|..].
    + intros va Hva. unfold old_end, new_end. rewrite Z.add_0_r, !decide_False by lia. done.
  - destruct (growproc_up i p fr s n) as (r&s'&fr'&E&Hr&Hc); [done..|lia|]. exists r, s', fr'. split_and!; [done|done|].
    destruct Hc as [(->&Hi&Ht&Hb)|?]; [left|by right]. split_and!; [done..|]. intros va Hva. rewrite Hb by done.
    fold old_end new_end. destruct (decide (old_end <= _ < new_end)); [done|]. rewrite decide_False; [done|]. unfold old_end, new_end. zlia.
Qed.

(** Shrinking to nothing takes all the memory away, yet returns -1 and leaves
    the size as it was. *)
Theorem growproc_to_zero i p fr s : running s i p -> image s fr (p_pgdir p) (p_sz p) -> 0 < p_sz p ->
  exists s' fr', growproc (- p_sz p) s = Ret (-1) s' /\ ptable s' = ptable s /\ image s' fr' (p_pgdir p) 0.
Proof.
  intros Hrun Him Hsz. pose proof (im_size _ _ _ _ Him). destruct (growproc_down i p fr s (- p_sz p)) as (s'&fr'&E&Hi&Ht&_); [done|done|lia|lia|].
  rewrite Z.add_opp_diag_r in *. by exists s', fr'.
Qed.

(** Shrinking by more than the size wraps around: it reports success and does
    nothing. *)
Theorem growproc_wraps i p fr s n : running s i p -> image s fr (p_pgdir p) (p_sz p) -> 0 < p_sz p ->
  - 2 ^ 31 <= n -> p_sz p + n < 0 ->
  exists s', growproc n s = Ret 0 s' /\ kmem s' = kmem s /\ ptable s' = alter (fun p' => p' <| p_sz := p_sz p |>) i (ptable s).
Proof.
  intros Hrun Him Hsz Hn Hneg. pose proof (im_size _ _ _ _ Him). unfold growproc. rewrite (File.bind_current i) by apply Hrun.
  erewrite bind_ret by (apply Proc.get_proc_ok, Hrun). cbv zeta. rewrite (proj2 (Z.ltb_ge 0 n)), (proj2 (Z.ltb_lt n 0)) by lia.
  unfold deallocuvm. assert (Hu : u32 (p_sz p + n) = p_sz p + n + 2 ^ 32) by (unfold KERNBASE in *; symmetry; apply Z.mod_unique with (-1); lia).
  rewrite (proj2 (Z.leb_le _ _)) by (unfold KERNBASE in *; lia). erewrite bind_ret by (rewrite bind_mret; reflexivity).
  rewrite (proj2 (Z.eqb_neq _ 0)) by lia.
  rewrite (resize_ok i p) by done. by eexists.
Qed.

(** ** Witnesses: a process of one page *)
Definition demo_proc : proc := zero_proc <| p_state := RUNNING |> <| p_pid := 1 |> <| p_pgdir := demo_dir |> <| p_kstack := 0x80500000 |> <| p_sz := 4096 |>.
Definition with_demo (s : kstate) : kstate := s <| ptable := [demo_proc] |> <| curproc := Some 0%nat |>.
Definition demo_grow : kstate := with_demo demo_user.

Lemma with_demo_same s : kmem (with_demo s) = kmem s /\ held (with_demo s) = held s.
Proof. done. Qed.
Lemma ubyte_user s d va b : ubyte s d va = Some b -> user (pte (mem (kmem s)) d va) = true.
Proof. unfold ubyte. by destruct (user _). Qed.

Lemma demo_grow_running : running demo_grow 0 demo_proc.
Proof. split; (reflexivity || discriminate). Qed.

Lemma demo_image : exists fr, image demo_grow fr demo_dir 4096.
Proof.
  destruct demo_vm_ok as (Ho & Hf & Hp).
  destruct (allocuvm_full demo_vm demo_dir demo_free 0 4096) as (r & s' & fr' & E & Ho' & Hf' & Hr);
    [done|done|reflexivity|lia|reflexivity|intros; by rewrite Hp, has_0|].
  assert (Eu : demo_user = s') by (unfold demo_user; by rewrite E).
  assert (Ek : kmem demo_grow = kmem s') by (unfold demo_grow; by rewrite Eu).
  assert (Eh : held demo_grow = held s') by (unfold demo_grow; by rewrite Eu).
  destruct Hr as [[_ Hg]|(_ & Hlt & _)]; [|exfalso; revert Hlt; clear; change (length demo_free) with 4%nat; zlia].
  assert (Hi : image s' fr' demo_dir (0 + 4096)).
  { apply (grown_image demo_vm demo_free demo_dir 0 4096); [|lia|reflexivity|exact Hg]. split; [done|done|reflexivity|unfold KERNBASE; lia|].
    intros va Hva. rewrite Hp, has_0. split; [done|]. intros H. vm_compute ((0 + 4095) `div` 4096) in H. zlia. }
  exists fr'. destruct Hi as [[I1 I2 I3] [J1 J2 J3] I4 I5 I6]. split; [split|split| | |]; unfold private in *; rewrite ?Ek, ?Eh; assumption.
Qed.

Lemma demo_stack va : 4096 - PGSIZE <= va < 4096 -> user (pte (mem (kmem demo_grow)) demo_dir va) = true.
Proof.
  unfold PGSIZE. intros Hva. destruct demo_user_ok as (fr&_&_&Hb). unfold demo_grow. destruct (with_demo_same demo_user) as [-> _].
  apply (ubyte_user demo_user demo_dir va 0), Hb. lia.
Qed.

Lemma growproc_resizes_witness : exists r s', growproc 100 demo_grow = Ret r s' /\ (r = 0 \/ r = -1).
Proof.
  destruct demo_image as [fr Hi].
  destruct (growproc_resizes 0 demo_proc fr demo_grow 100) as (r&s'&fr'&E&_&H); [exact demo_grow_running|exact Hi|lia|cbn; unfold KERNBASE; lia|].
  exists r, s'. split; [exact E|]. destruct H as [[H _]|[H _]]; [left|right]; exact H.
Defined.

Lemma growproc_to_zero_witness : exists s', growproc (-4096) demo_grow = Ret (-1) s' /\ ptable s' = ptable demo_grow.
Proof.
  destruct demo_image as [fr Hi].
  destruct (growproc_to_zero 0 demo_proc fr demo_grow demo_grow_running Hi) as (s'&fr'&E&H&_); [reflexivity|]. exists s'. split; [exact E|exact H].
Defined.

Lemma growproc_wraps_witness : exists s', growproc (-5000) demo_grow = Ret 0 s' /\ kmem s' = kmem demo_grow.
Proof.
  destruct demo_image as [fr Hi].
  destruct (growproc_wraps 0 demo_proc fr demo_grow (-5000) demo_grow_running Hi) as (s'&E&H&_); [reflexivity|lia|reflexivity|]. exists s'. split; [exact E|exact H].
Defined.

End Grow.
