(* ===== verification/Usermem.v ===== *)
(** * Usermem: user memory and system call arguments (syscall.c)

    The kernel runs on the page table of the process: a load or store at a user
    address goes through it, and one that finds no page is a fault.  [fetchint],
    [fetchstr], [argint], [argptr] and [argstr] return [None] for -1.  The
    theorems show that a process whose pages are those up to its size can never
    make them fault, that what passes their checks lies inside the process, and
    what they read. *)
From S2P Require Import Prelude Queue KState Kalloc Proc Sleeplock Bio Log Pipe Socket File Fs Vm Space Life Grow.

Module Usermem.
Import Vm Space Grow.

(** ** Loads and stores *)

(** The byte the kernel reads at [va]: pages closed to users are open to it. *)
Definition kbyte (pm : pages) (d va : Z) : option Z :=
  let e := pte pm d va in
  if has e PTE_P then pg ← pm !! frame e; pg !! Z.to_nat (va `mod` 4096) else None.

Definition this_proc : M proc := i ← File.current; Proc.get_proc i.

Definition load_byte (va : Z) : M Z :=
  p ← this_proc;
  pm ← gets (fun s => mem (kmem s));
  need (kbyte pm (p_pgdir p) va) "page fault".
Fixpoint load_bytes (n : nat) (va : Z) : M (list Z) :=
  match n with
  | O => mret []
  | S n => b ← load_byte va; l ← load_bytes n (u32 (va + 1)); mret (b :: l)
  end.

Definition store_byte (va b : Z) : M unit :=
  p ← this_proc;
  pm ← gets (fun s => mem (kmem s));
  let e := pte pm (p_pgdir p) va in
  if has e PTE_P && has e PTE_W then
    pg ← need (pm !! frame e) "page fault";
    if (Z.to_nat (va `mod` 4096) <? length pg)%nat then
      modify (fun s => s <| kmem := (kmem s) <| mem := <[frame e := <[Z.to_nat (va `mod` 4096) := b]> pg]> pm |> |>)
    else fault "page fault"
  else fault "page fault".
Fixpoint store_bytes (va : Z) (l : list Z) : M unit :=
  match l with
  | [] => mret tt
  | b :: l => store_byte va b ;; store_bytes (u32 (va + 1)) l
  end.

(** ** syscall.c *)
Definition fetchint (addr : Z) : M (option Z) :=
  curproc ← this_proc;
  if (p_sz curproc <=? addr) || (p_sz curproc <? u32 (addr + 4)) then mret None else
  l ← load_bytes 4 addr;
  mret (Some (s32 (get32 l 0))).

(** [for(s = *pp; s < ep; s++)]: the bytes before the NUL. *)
Fixpoint fetchstr_loop (n : nat) (s ep : Z) : M (option (list Z)) :=
  match n with
  | O => mret None
  | S n =>
    if s <? ep then
      c ← load_byte s;
      if c =? 0 then mret (Some []) else
      r ← fetchstr_loop n (u32 (s + 1)) ep;
      mret (cons c <$> r)
    else mret None
  end.
Definition fetchstr (addr : Z) : M (option (list Z)) :=
  curproc ← this_proc;
  if p_sz curproc <=? addr then mret None else
  fetchstr_loop (Z.to_nat (p_sz curproc - addr)) addr (p_sz curproc).

Definition argint (n : Z) : M (option Z) :=
  p ← this_proc; fetchint (u32 (tf_esp (p_tf p) + 4 + 4 * n)).

(** The address. *)
Definition argptr (n size : Z) : M (option Z) :=
  curproc ← this_proc;
  o ← argint n;
  match o with
  | None => mret None
  | Some i =>
    if (size <? 0) || (p_sz curproc <=? u32 i) || (p_sz curproc <? u32 (u32 i + size)) then mret None else
    mret (Some (u32 i))
  end.

Definition argstr (n : Z) : M (option (list Z)) :=
  o ← argint n;
  match o with None => mret None | Some addr => fetchstr (u32 addr) end.

(** ** Loads inside the process *)
Section Image.
Context (s : kstate) (i : nat) (p : proc) (fr : list Z).
Hypothesis Hrun : running s i p.
Hypothesis Him : image s fr (p_pgdir p) (p_sz p).

Abbreviation byte := (kbyte (mem (kmem s)) (p_pgdir p)).

Lemma bind_this_proc {U} (k : proc -> M U) : (this_proc ≫= k) s = k p s.
Proof. erewrite bind_ret; [done|]. unfold this_proc. rewrite (File.bind_current i) by apply Hrun. apply Proc.get_proc_ok, Hrun. Qed.

Lemma byte_mapped va : 0 <= va < p_sz p -> exists b, byte va = Some b.
Proof.
  intros Hva. pose proof (im_size _ _ _ _ Him). assert (Hl : 0 <= va < KERNBASE) by lia.
  assert (Hp : has (pte (mem (kmem s)) (p_pgdir p) va) PTE_P = true) by (apply (im_present _ _ _ _ Him); [done|zlia]).
  destruct (fo_page _ _ _ (im_frames _ _ _ _ Him) va Hl Hp) as ((pg&Hpg&Hlen)&_). unfold kbyte. rewrite Hp, Hpg. cbn.
  apply lookup_lt_is_Some_2. rewrite Hlen. zlia.
Qed.

Lemma load_byte_ok va b : byte va = Some b -> load_byte va s = Ret b s.
Proof. intros Hb. unfold load_byte. rewrite bind_this_proc, bind_gets. by rewrite Hb. Qed.

(** The bytes at [va]. *)
Definition spells (va : Z) (l : list Z) : Prop := forall k b, l !! k = Some b -> byte (va + Z.of_nat k) = Some b.

Lemma spells_cons va b l : byte va = Some b -> spells (va + 1) l -> spells va (b :: l).
Proof.
  intros Hb Hl [|k] c Hc; cbn in Hc; [simplify_eq; by rewrite Z.add_0_r|]. apply Hl in Hc. rewrite <- Hc. f_equal. lia.
Qed.

Lemma load_bytes_ok n va : 0 <= va -> va + Z.of_nat n <= p_sz p ->
  exists l, load_bytes n va s = Ret l s /\ length l = n /\ spells va l.
Proof.
  revert va. induction n as [|n IH]; intros va Hva Hn; cbn [load_bytes]; [exists []; split_and!; [done..|]; by intros k b ?|].
  pose proof (im_size _ _ _ _ Him). unfold KERNBASE in *. destruct (byte_mapped va) as [b Hb]; [lia|]. destruct (IH (va + 1)) as (l&E&Hl&Hs); [lia..|].
  exists (b :: l). erewrite bind_ret by (by apply load_byte_ok). rewrite u32_small by lia. erewrite bind_ret by exact E.
  split_and!; [done|cbn; lia|by apply spells_cons].
Qed.

Lemma fetchint_ok addr : 0 <= addr < 2 ^ 32 ->
  (p_sz p < addr + 4 /\ fetchint addr s = Ret None s) \/
  (addr + 4 <= p_sz p /\ exists l, length l = 4%nat /\ spells addr l /\ fetchint addr s = Ret (Some (s32 (get32 l 0))) s).
Proof.
  intros Ha. pose proof (im_size _ _ _ _ Him). unfold KERNBASE in *. unfold fetchint. rewrite bind_this_proc.
  destruct (Z.leb_spec (p_sz p) addr) as [Hle|Hgt]; [left; split; [lia|done]|]. cbn [orb]. rewrite u32_small by lia.
  destruct (Z.ltb_spec (p_sz p) (addr + 4)) as [Hlt|Hge]; [left; split; [lia|done]|]. right. split; [done|].
  destruct (load_bytes_ok 4 addr) as (l&E&Hl&Hs); [lia|lia|]. exists l. split_and!; [done..|]. by erewrite bind_ret by exact E.
Qed.

(** A string of the process: no NUL before its end, one at its end. *)
Record string_at (addr : Z) (t : list Z) : Prop := {
  st_bytes : spells addr t;
  st_nonzero : Forall (fun b => b <> 0) t;
  st_end : byte (addr + Z.of_nat (length t)) = Some 0;
  st_inside : 0 <= addr /\ addr + Z.of_nat (length t) < p_sz p;
}.

Lemma fetchstr_loop_ok n addr : 0 <= addr <= p_sz p -> n = Z.to_nat (p_sz p - addr) ->
  exists r, fetchstr_loop n addr (p_sz p) s = Ret r s /\
    match r with Some t => string_at addr t | None => forall a, addr <= a < p_sz p -> byte a <> Some 0 end.
Proof.
  pose proof (im_size _ _ _ _ Him). unfold KERNBASE in *. revert addr. induction n as [|n IH]; intros addr Ha Hn.
  { exists None. split; [done|]. intros a Hr. lia. }
  cbn [fetchstr_loop]. rewrite (proj2 (Z.ltb_lt addr _)) by lia. destruct (byte_mapped addr) as [c Hc]; [lia|].
  erewrite bind_ret by (by apply load_byte_ok). destruct (Z.eqb_spec c 0) as [->|Hc0].
  - exists (Some []). split; [done|]. split; [by intros k b ?|done|cbn; by rewrite Z.add_0_r|cbn; lia].
  - rewrite u32_small by lia. destruct (IH (addr + 1)) as (r&E&Hr); [lia|lia|]. erewrite bind_ret by exact E. exists (cons c <$> r). split; [done|].
    destruct r as [t|]; cbn.
    + destruct Hr as [H1 H2 H3 H4]. split; [by apply spells_cons|by constructor| |cbn; lia].
      rewrite <- H3. f_equal. cbn. lia.
    + intros a Hr'. destruct (decide (a = addr)) as [->|]; [congruence|]. apply Hr. lia.
Qed.

Lemma fetchstr_ok addr : 0 <= addr < 2 ^ 32 ->
  exists r, fetchstr addr s = Ret r s /\
    match r with Some t => string_at addr t | None => forall a, addr <= a < p_sz p -> byte a <> Some 0 end.
Proof.
  intros Ha. unfold fetchstr. rewrite bind_this_proc. destruct (Z.leb_spec (p_sz p) addr) as [Hle|Hgt].
  - exists None. split; [done|]. intros a Hr. lia.
  - by apply fetchstr_loop_ok; [lia|].
Qed.

(** The address of argument [n]. *)
Definition arg_addr (n : Z) : Z := u32 (tf_esp (p_tf p) + 4 + 4 * n).

Lemma argint_ok n :
  (p_sz p < arg_addr n + 4 /\ argint n s = Ret None s) \/
  (arg_addr n + 4 <= p_sz p /\ exists l, length l = 4%nat /\ spells (arg_addr n) l /\ argint n s = Ret (Some (s32 (get32 l 0))) s).
Proof. unfold argint. rewrite bind_this_proc. apply fetchint_ok. apply Z.mod_pos_bound. lia. Qed.

End Image.

(** ** Stores inside the process *)
Definition writable (s : kstate) (d va : Z) (n : Z) : Prop :=
  forall a, va <= a < va + n -> has (pte (mem (kmem s)) d a) PTE_W = true.

Lemma same_frame s d fr va va' : frames_ok s d fr -> 0 <= va < KERNBASE -> 0 <= va' < KERNBASE ->
  has (pte (mem (kmem s)) d va) PTE_P = true -> has (pte (mem (kmem s)) d va') PTE_P = true ->
  frame (pte (mem (kmem s)) d va) = frame (pte (mem (kmem s)) d va') -> va `mod` 4096 = va' `mod` 4096 -> va = va'.
Proof. intros Hf H1 H2 H3 H4 Hfr Hm. pose proof (fo_inj _ _ _ Hf va va' H1 H2 H3 H4 Hfr). zlia. Qed.

(** [s'] is [s] with the bytes [l] at [va], as the kernel sees the process. *)
Record stored (s : kstate) (i : nat) (p : proc) (fr : list Z) (va : Z) (l : list Z) (s' : kstate) : Prop := {
  so_running : running s' i p;
  so_image : image s' fr (p_pgdir p) (p_sz p);
  so_pte : forall a, pte (mem (kmem s')) (p_pgdir p) a = pte (mem (kmem s)) (p_pgdir p) a;
  so_bytes : forall a, 0 <= a < KERNBASE -> kbyte (mem (kmem s')) (p_pgdir p) a =
    if decide (va <= a < va + Z.of_nat (length l)) then l !! Z.to_nat (a - va) else kbyte (mem (kmem s)) (p_pgdir p) a;
  so_state : s' = s <| kmem := kmem s' |>;
}.

Lemma stored_nil s i p fr va : running s i p -> image s fr (p_pgdir p) (p_sz p) -> stored s i p fr va [] s.
Proof. intros Hr Hi. split; [done|done|done| |by destruct s]. intros a Ha. rewrite decide_False; [done|]. cbn. lia. Qed.

Lemma stored_cons s i p fr va b s1 l s2 : stored s i p fr va [b] s1 -> stored s1 i p fr (va + 1) l s2 -> stored s i p fr va (b :: l) s2.
Proof.
  intros [A1 A2 A3 A4 A5] [B1 B2 B3 B4 B5]. split; [done|done|by intros; rewrite B3, A3| |by rewrite B5, A5].
  intros a Ha. rewrite B4, A4 by done. cbn [length]. destruct (decide (a = va)) as [->|Hne].
  - rewrite decide_False by lia. rewrite !decide_True by lia. by rewrite Z.sub_diag.
  - destruct (decide (va + 1 <= a < va + 1 + Z.of_nat (length l))) as [Hr|Hr].
    + rewrite decide_True by lia. replace (Z.to_nat (a - va)) with (S (Z.to_nat (a - (va + 1)))) by lia. done.
    + by rewrite !decide_False by lia.
Qed.

Lemma store_byte_ok s i p fr va b : running s i p -> image s fr (p_pgdir p) (p_sz p) -> 0 <= va < p_sz p -> writable s (p_pgdir p) va 1 ->
  exists s', store_byte va b s = Ret tt s' /\ stored s i p fr va [b] s'.
Proof.
  intros Hrun Him Hva Hw. pose proof (im_size _ _ _ _ Him). assert (Hl : 0 <= va < KERNBASE) by lia. set (d := p_pgdir p) in *.
  assert (Hp : has (pte (mem (kmem s)) d va) PTE_P = true) by (apply (im_present _ _ _ _ Him); [done|zlia]).
  destruct (fo_page _ _ _ (im_frames _ _ _ _ Him) va Hl Hp) as ((pg&Hpg&Hlen)&Hpriv&Hval&_).
  assert (Hoff : (Z.to_nat (va `mod` 4096) < length pg)%nat) by (rewrite Hlen; zlia).
  unfold store_byte. rewrite (bind_this_proc s i p) by done. rewrite bind_gets. fold d. cbv zeta. rewrite Hp, (Hw va) by lia. cbn [andb].
  rewrite (bind_need pg) by done. rewrite (proj2 (Nat.ltb_lt _ _)) by done. eexists. split; [done|].
  set (q := frame (pte (mem (kmem s)) d va)) in *. set (pg' := <[_ := b]> pg).
  destruct (private_store s d fr q pg' (im_owns _ _ _ _ Him) Hpriv) as (Ho&Hpte&Hpgs&Hprs); [by exists pg|unfold pg'; by rewrite length_insert|].
  set (s' := with_pages s (<[q := pg']> (mem (kmem s)))) in *. change (s <| kmem := _ |>) with s'.
  split; [destruct Hrun; by split| |done| |done]; fold d.
  - destruct Him as [I1 [J1 J2 J3] I3 I4 I5]. split; [done| |done|done|by setoid_rewrite Hpte].
    split; setoid_rewrite Hpte; [|done..].
    intros a Ha Hpa. destruct (J1 a Ha Hpa) as (?&?&?&?). split_and!; [by apply Hpgs|by apply Hprs|done|done].
  - intros a Ha. unfold kbyte. rewrite Hpte. cbn [length]. destruct (has (pte (mem (kmem s)) d a) PTE_P) eqn:Hpa.
    2:{ rewrite decide_False; [done|]. intros Hr. assert (a = va) as -> by lia. congruence. }
    destruct (decide (frame (pte (mem (kmem s)) d a) = q)) as [Hq|Hq].
    + rewrite Hq. cbn. rewrite lookup_insert_eq. cbn. rewrite Hpg. cbn. destruct (decide (a = va)) as [->|Hne].
      * rewrite decide_True by lia. unfold pg'. rewrite Z.sub_diag. by apply list_lookup_insert_eq.
      * rewrite decide_False by lia. unfold pg'. rewrite list_lookup_insert_ne; [done|]. intros E.
        apply Hne. symmetry. apply (same_frame s d fr va a (im_frames _ _ _ _ Him) Hl Ha Hp Hpa (eq_sym Hq)). zlia.
    + cbn. rewrite lookup_insert_ne by done. rewrite decide_False; [done|]. intros Hr. assert (a = va) as -> by lia. done.
Qed.

Lemma store_bytes_ok l s i p fr va : running s i p -> image s fr (p_pgdir p) (p_sz p) -> 0 <= va -> va + Z.of_nat (length l) <= p_sz p ->
  writable s (p_pgdir p) va (Z.of_nat (length l)) -> exists s', store_bytes va l s = Ret tt s' /\ stored s i p fr va l s'.
Proof.
  revert s va. induction l as [|b l IH]; intros s va Hrun Him Hva Hl Hw; [exists s; split; [done|by apply stored_nil]|].
  cbn [length] in *. cbn [store_bytes]. pose proof (im_size _ _ _ _ Him). unfold KERNBASE in *.
  destruct (store_byte_ok s i p fr va b) as (s1&E1&Hs1); [done|done|lia|intros a Ha; apply Hw; lia|].
  erewrite bind_ret by exact E1. rewrite u32_small by lia.
  destruct (IH s1 (va + 1)) as (s2&E2&Hs2); [apply Hs1|apply Hs1|lia|lia| |].
  { intros a Ha. rewrite (so_pte _ _ _ _ _ _ _ Hs1). apply Hw. lia. }
  exists s2. split; [done|by eapply stored_cons].
Qed.

(** ** Theorems *)

(** C24: system call arguments are safe: whatever the process left in its
    registers and memory, [argint], [argptr] and [argstr] never fault and
    change nothing.  A pointer [argptr] accepts is an argument of the process
    and its whole block lies inside the process; it refuses exactly the others.
    A string [argstr] accepts lies inside the process with its NUL, and has no
    other NUL. *)
Theorem arguments_safe s i p fr n size : running s i p -> image s fr (p_pgdir p) (p_sz p) -> - 2 ^ 31 <= size < 2 ^ 31 ->
  exists a q t, argint n s = Ret a s /\ argptr n size s = Ret q s /\ argstr n s = Ret t s /\
    (a = None <-> p_sz p < arg_addr p n + 4) /\
    (forall v, a = Some v -> exists l, length l = 4%nat /\ spells s p (arg_addr p n) l /\ v = s32 (get32 l 0)) /\
    (forall v, q = Some v <-> (exists w, a = Some w /\ v = u32 w) /\ 0 <= size /\ v < p_sz p /\ v + size <= p_sz p) /\
    (forall str, t = Some str -> exists w, a = Some w /\ string_at s p (u32 w) str).
Proof.
  intros Hrun Him Hsz. pose proof (im_size _ _ _ _ Him). unfold KERNBASE in *. unfold argptr, argstr. rewrite (bind_this_proc s i p) by done.
  destruct (argint_ok s i p fr Hrun Him n) as [[Hlt E]|(Hge&l&Hl&Hs&E)].
  - exists None, None, None. erewrite !bind_ret by exact E. split_and!; try done. intros v. split; [done|]. intros ((w&?&_)&_). done.
  - set (v := s32 (get32 l 0)) in *. assert (Hv : 0 <= u32 v < 2 ^ 32) by (apply Z.mod_pos_bound; lia).
    destruct (fetchstr_ok s i p fr Hrun Him (u32 v) Hv) as (r&Er&Hr).
    exists (Some v), (if (size <? 0) || (p_sz p <=? u32 v) || (p_sz p <? u32 (u32 v + size)) then None else Some (u32 v)), r.
    erewrite !bind_ret by exact E. split_and!; [done| |done| | | |].
    + by destruct ((size <? 0) || _ || _).
    + split; [done|]. lia.
    + intros w [= <-]. by exists l.
    + intros w. destruct (Z.ltb_spec size 0); cbn [orb]; [naive_solver lia|]. destruct (Z.leb_spec (p_sz p) (u32 v)); cbn [orb].
      { split; [done|]. intros ((?&[= <-]&->)&?). lia. }
      rewrite (u32_small (u32 v + size)) by lia. destruct (Z.ltb_spec (p_sz p) (u32 v + size)).
      { split; [done|]. intros ((?&[= <-]&->)&?). lia. }
      split; [intros [= <-]; split_and!; [by exists v|lia..]|]. by intros ((?&[= <-]&->)&_).
    + intros str ->. by exists v.
Qed.

Lemma arguments_safe_witness : exists q, argptr 0 16 demo_grow = Ret q demo_grow /\ forall v, q = Some v -> v + 16 <= 4096.
Proof.
  destruct demo_image as [fr Hi].
  destruct (arguments_safe demo_grow 0 demo_proc fr 0 16 demo_grow_running Hi) as (a&q&t&_&E&_&_&_&H&_); [lia|].
  exists q. split; [exact E|]. intros v Hv. apply (H v) in Hv. apply Hv.
Defined.

End Usermem.
