(* ===== verification/Exec.v ===== *)
(** * Exec: loading a program (exec.c, elf.h)

    [exec] builds a new address space from an ELF file, pushes the arguments on
    its stack and commits the process to it, or frees what it built and
    returns -1.  The arguments are the strings without their NUL.  The theorem
    shows the stack the new program starts on. *)
From S2P Require Import Prelude Queue KState Kalloc Proc Sleeplock Bio Log Pipe Socket File Fs Vm Space Life.

(** ** param.h *)
Definition MAXARG : Z := 32.

Module Exec.
Import Sleeplock Bio Log Fs Vm Space Life.

(** ** elf.h *)
Definition ELF_MAGIC : Z := 0x464C457F.
Definition ELF_PROG_LOAD : Z := 1.
Definition ELF_PROG_FLAG_EXEC : Z := 1.
Definition ELF_PROG_FLAG_WRITE : Z := 2.
Definition ELF_PROG_FLAG_READ : Z := 4.

Record elfhdr : Type := mkElf {
  e_magic : Z; e_elf : list Z; e_type : Z; e_machine : Z; e_version : Z; e_entry : Z; e_phoff : Z; e_shoff : Z;
  e_flags : Z; e_ehsize : Z; e_phentsize : Z; e_phnum : Z; e_shentsize : Z; e_shnum : Z; e_shstrndx : Z;
}.
Definition SIZEOF_ELFHDR : Z := 52.
Definition elfhdr_of (b : list Z) : elfhdr :=
  mkElf (get32 b 0) (take 12 (drop 4 b)) (get16 b 16) (get16 b 18) (get32 b 20) (get32 b 24) (get32 b 28) (get32 b 32)
    (get32 b 36) (get16 b 40) (get16 b 42) (get16 b 44) (get16 b 46) (get16 b 48) (get16 b 50).

Record proghdr : Type := mkPh {
  ph_type : Z; ph_off : Z; ph_vaddr : Z; ph_paddr : Z; ph_filesz : Z; ph_memsz : Z; ph_flags : Z; ph_align : Z;
}.
Definition SIZEOF_PROGHDR : Z := 32.
Definition proghdr_of (b : list Z) : proghdr :=
  mkPh (get32 b 0) (get32 b 4) (get32 b 8) (get32 b 12) (get32 b 16) (get32 b 20) (get32 b 24) (get32 b 28).

Section Code.
Context (fuel : nat) {devs : Devices} {stk : Stack} (data : Z).

(** One program header: the new size, [None] for [goto bad]. *)
Definition load_segment (ip : nat) (pgdir off sz : Z) : M (option Z) :=
  '(n, b) ← readi fuel ip (u32 off) SIZEOF_PROGHDR;
  if negb (n =? SIZEOF_PROGHDR) then mret None else
  let ph := proghdr_of b in
  if negb (ph_type ph =? ELF_PROG_LOAD) then mret (Some sz) else
  if ph_memsz ph <? ph_filesz ph then mret None else
  if u32 (ph_vaddr ph + ph_memsz ph) <? ph_vaddr ph then mret None else
  sz ← allocuvm pgdir sz (u32 (ph_vaddr ph + ph_memsz ph));
  if sz =? 0 then mret None else
  if negb (ph_vaddr ph `mod` PGSIZE =? 0) then mret None else
  r ← @loaduvm (fs_inodes fuel) pgdir (ph_vaddr ph) ip (ph_off ph) (ph_filesz ph);
  if r <? 0 then mret None else mret (Some sz).

(** [for(i=0, off=elf.phoff; i<elf.phnum; i++, off+=sizeof(ph))] *)
Fixpoint load_segments (n : nat) (ip : nat) (pgdir off sz : Z) : M (option Z) :=
  match n with
  | O => mret (Some sz)
  | S n =>
    o ← load_segment ip pgdir off sz;
    match o with
    | None => mret None
    | Some sz => load_segments n ip pgdir (s32 (off + SIZEOF_PROGHDR)) sz
    end
  end.

(** [for(argc = 0; argv[argc]; argc++)]: the stack pointer and the pointers
    [ustack[3..]]; [None] for [goto bad]. *)
Fixpoint push_args (pgdir sp argc : Z) (argv : list (list Z)) : M (option (Z * list Z)) :=
  match argv with
  | [] => mret (Some (sp, []))
  | arg :: argv =>
    if MAXARG <=? argc then mret None else
    let len := Z.of_nat (length arg) in
    let sp := Z.land (u32 (sp - (len + 1))) (Z.lnot 3) in
    r ← copyout pgdir sp (arg ++ [0]) (len + 1);
    if r <? 0 then mret None else
    o ← push_args pgdir sp (argc + 1) argv;
    mret ('(sp', ps) ← o; Some (sp', sp :: ps))
  end.

(** The arguments on the stack of the new program; the stack pointer. *)
Definition push_stack (pgdir sz : Z) (argv : list (list Z)) : M (option Z) :=
  o ← push_args pgdir sz 0 argv;
  match o with
  | None => mret None
  | Some (sp, ps) =>
    let argc := Z.of_nat (length argv) in
    let ustack := [0xffffffff; argc; u32 (sp - (argc + 1) * 4)] ++ ps ++ [0] in
    let sp := u32 (sp - (3 + argc + 1) * 4) in
    r ← copyout pgdir sp (concat (le32 <$> ustack)) ((3 + argc + 1) * 4);
    if r <? 0 then mret None else mret (Some sp)
  end.

(** [for(last=s=path; *s; s++) if( *s == '/') last = s+1;] *)
Fixpoint last_elem (last s : list Z) : list Z :=
  match s with
  | [] => last
  | c :: s => last_elem (if c =? SLASH then s else last) s
  end.

Definition exec_bad (pgdir : Z) (ip : option nat) : M Z :=
  (if pgdir =? 0 then mret tt else freevm pgdir) ;;
  match ip with Some ip => iunlockput fuel ip ;; end_op fuel | None => mret tt end ;;
  mret (-1).

(** From the loaded image on. *)
Definition exec_commit (curproc : nat) (path : list Z) (argv : list (list Z)) (pgdir sz entry : Z) : M Z :=
  let sz := PGROUNDUP sz in
  sz ← allocuvm pgdir sz (u32 (sz + 2 * PGSIZE));
  if sz =? 0 then exec_bad pgdir None else
  clearpteu pgdir (u32 (sz - 2 * PGSIZE)) ;;
  o ← push_stack pgdir sz argv;
  match o with
  | None => exec_bad pgdir None
  | Some sp =>
    set_name curproc (last_elem path path ++ [0]) ;;
    p ← Proc.get_proc curproc;
    let oldpgdir := p_pgdir p in
    Proc.set_proc curproc (fun p => p <| p_pgdir := pgdir |> <| p_sz := sz |>
      <| p_tf := (p_tf p) <| tf_eip := entry |> <| tf_esp := sp |> |>) ;;
    switchuvm curproc ;;
    freevm oldpgdir ;;
    mret 0
  end.

Definition exec (path : list Z) (argv : list (list Z)) : M Z :=
  curproc ← File.current;
  begin_op fuel ;;
  o ← namei fuel path;
  match o with
  | None => end_op fuel ;; cprintf "exec: fail
" ;; mret (-1)
  | Some ip =>
    ilock fuel (Some ip) ;;
    '(n, b) ← readi fuel ip 0 SIZEOF_ELFHDR;
    if negb (n =? SIZEOF_ELFHDR) then exec_bad 0 (Some ip) else
    let elf := elfhdr_of b in
    if negb (e_magic elf =? ELF_MAGIC) then exec_bad 0 (Some ip) else
    pgdir ← setupkvm data;
    if pgdir =? 0 then exec_bad 0 (Some ip) else
    o ← load_segments (Z.to_nat (e_phnum elf)) ip pgdir (s32 (e_phoff elf)) 0;
    match o with
    | None => exec_bad pgdir (Some ip)
    | Some sz =>
      iunlockput fuel ip ;;
      end_op fuel ;;
      exec_commit curproc path argv pgdir sz (e_entry elf)
    end
  end.

End Code.

(** ** The stack of the new program *)

(** The bytes [l] at the user address [va]. *)
Definition ubytes (s : kstate) (d va : Z) (l : list Z) : Prop := forall k b, l !! k = Some b -> ubyte s d (va + Z.of_nat k) = Some b.
(** The 32-bit word [v] at [va]. *)
Definition uword (s : kstate) (d va v : Z) : Prop := ubytes s d va (le32 v).

(** Where the strings go: the lowest address and the address of each. *)
Fixpoint layout (sp : Z) (argv : list (list Z)) : Z * list Z :=
  match argv with
  | [] => (sp, [])
  | a :: argv =>
    let p := (sp - (Z.of_nat (length a) + 1)) `div` 4 * 4 in
    let '(sp', ps) := layout p argv in (sp', p :: ps)
  end.

(** Nothing but [lo <= . < hi] has changed. *)
Record stack_only (s : kstate) (d : Z) (fr : list Z) (lo hi : Z) (s' : kstate) : Prop := {
  so_owns : owns s' d fr;
  so_frames : frames_ok s' d fr;
  so_user : forall va, pte (mem (kmem s')) d va = pte (mem (kmem s)) d va;
  so_other : forall va, 0 <= va < 2 ^ 32 -> ~ (lo <= va < hi) -> ubyte s' d va = ubyte s d va;
}.

Lemma layout_le sp argv : fst (layout sp argv) <= sp.
Proof.
  revert sp. induction argv as [|a argv IH]; intros sp; cbn [layout]; [cbn; lia|]. set (p := _ `div` 4 * 4).
  specialize (IH p). destruct (layout p argv) as [sp' ps]. cbn in *. unfold p in *. zlia.
Qed.

Lemma ubytes_keep s s' d va l : (forall k, (k < length l)%nat -> ubyte s' d (va + Z.of_nat k) = ubyte s d (va + Z.of_nat k)) ->
  ubytes s d va l -> ubytes s' d va l.
Proof. intros H Hl k b Hk. rewrite H; [by apply Hl|]. by eapply lookup_lt_Some. Qed.

Lemma wrote_ubytes s d fr va l s' : 0 <= va -> va + Z.of_nat (length l) < 2 ^ 32 -> wrote s d fr va l s' -> ubytes s' d va l.
Proof.
  intros Hva Hl Hw k b Hk. pose proof (lookup_lt_Some _ _ _ Hk). rewrite (wr_bytes _ _ _ _ _ _ Hw) by lia.
  rewrite decide_True by lia. by replace (Z.to_nat (va + Z.of_nat k - va)) with k by lia.
Qed.

Lemma push_args_ok argv s d fr lo sp argc :
  owns s d fr -> frames_ok s d fr -> 0 <= lo -> lo <= fst (layout sp argv) -> sp < 2 ^ 32 ->
  (forall va, lo <= va < sp -> user (pte (mem (kmem s)) d va) = true) -> argc + Z.of_nat (length argv) <= MAXARG ->
  exists s', push_args d sp argc argv s = Ret (Some (layout sp argv)) s' /\
    stack_only s d fr (fst (layout sp argv)) sp s' /\
    Forall2 (fun a p => p `mod` 4 = 0 /\ fst (layout sp argv) <= p /\ p + Z.of_nat (length a) < sp /\ ubytes s' d p (a ++ [0])) argv (snd (layout sp argv)).
Proof.
  revert s sp argc. induction argv as [|a argv IH]; intros s sp argc Ho Hf Hlo Hl Hsp Hu Hn.
  { exists s. cbn. split_and!; [done|by split|done]. }
  cbn [layout push_args length] in *. set (p := _ `div` 4 * 4) in *.
  destruct (layout p argv) as [sp' ps] eqn:Elay. cbn [fst snd] in *.
  pose proof (layout_le p argv) as Hle. rewrite Elay in Hle. cbn in Hle.
  assert (Hp : 0 <= sp - (Z.of_nat (length a) + 1) /\ p <= sp - (Z.of_nat (length a) + 1)) by (unfold p in *; zlia).
  rewrite (proj2 (Z.leb_gt _ _)) by lia. rewrite u32_small by lia.
  assert (Ep : Z.land (sp - (Z.of_nat (length a) + 1)) (Z.lnot 3) = p).
  { change 3 with (Z.ones 2). rewrite <- Z.ldiff_land, Z.ldiff_ones_r, Z.shiftl_mul_pow2, Z.shiftr_div_pow2 by lia. done. }
  rewrite Ep. destruct (copyout_ok s d fr p (a ++ [0]) (Z.of_nat (length a) + 1)) as (s1&E1&Hw1);
    [done|done|lia|rewrite length_app; cbn; lia|lia|intros va Hva; apply Hu; lia|].
  rewrite take_ge in Hw1 by (rewrite length_app; cbn; lia). erewrite bind_ret by exact E1. change (0 <? 0) with false. cbv iota.
  destruct (IH s1 p (argc + 1)) as (s2&E2&Hst&Hall); [apply Hw1|apply Hw1|done|by rewrite Elay|lia| |lia|].
  { intros va Hva. rewrite (wr_pte _ _ _ _ _ _ Hw1). apply Hu. lia. }
  rewrite Elay in *. cbn [fst snd] in *. erewrite bind_ret by exact E2. exists s2. split_and!; [done| |].
  - destruct Hst as [S1 S2 S3 S4]. split; [done|done|intros; by rewrite S3, (wr_pte _ _ _ _ _ _ Hw1)|].
    intros va Hva Hr. rewrite S4 by (done || lia). rewrite (wr_bytes _ _ _ _ _ _ Hw1) by done.
    rewrite decide_False; [done|]. rewrite length_app. cbn. lia.
  - constructor.
    + split_and!; [unfold p; apply Z.mod_mul; lia|lia|lia|]. eapply (ubytes_keep s1).
      { intros k Hk. rewrite length_app in Hk. cbn in Hk. apply (so_other _ _ _ _ _ _ Hst); lia. }
      eapply wrote_ubytes; [|rewrite length_app; cbn; lia|done]. lia.
    + eapply Forall2_impl; [exact Hall|]. cbn. intros b q (H1&H2&H3&H4). split_and!; [done|done|lia|done].
Qed.

Lemma concat_words (l : list Z) j v : l !! j = Some v -> forall k b, le32 v !! k = Some b -> concat (le32 <$> l) !! (4 * j + k)%nat = Some b.
Proof.
  revert j. induction l as [|w l IH]; intros [|j] Hj k b Hk; cbn [lookup list_lookup] in Hj; try done.
  - simplify_eq. rewrite Nat.mul_0_r. cbn [fmap list_fmap concat]. rewrite lookup_app_l; [done|]. by eapply lookup_lt_Some.
  - cbn [fmap list_fmap concat]. rewrite lookup_app_r by (change (length (le32 w)) with 4%nat; lia).
    change (length (le32 w)) with 4%nat. replace (4 * S j + k - 4)%nat with (4 * j + k)%nat by lia. by eapply IH.
Qed.
Lemma length_le32s (l : list Z) : length (concat (le32 <$> l)) = (4 * length l)%nat.
Proof. induction l as [|w l IH]; [done|]. cbn [fmap list_fmap concat length]. rewrite length_app, IH. change (length (le32 w)) with 4%nat. lia. Qed.

Lemma words_uword s d va l j v : ubytes s d va (concat (le32 <$> l)) -> l !! j = Some v -> uword s d (va + 4 * Z.of_nat j) v.
Proof. intros H Hj k b Hk. rewrite <- (H (4 * j + k)%nat b); [f_equal; lia|by eapply concat_words]. Qed.

Lemma push_stack_ok argv s d fr sz :
  owns s d fr -> frames_ok s d fr -> PGSIZE <= sz < 2 ^ 31 -> sz `mod` 4 = 0 ->
  (forall va, sz - PGSIZE <= va < sz -> user (pte (mem (kmem s)) d va) = true) ->
  let argc := Z.of_nat (length argv) in
  let '(low, ps) := layout sz argv in
  let sp := low - (argc + 4) * 4 in
  argc <= MAXARG -> sz - PGSIZE <= sp ->
  exists s', push_stack d sz argv s = Ret (Some sp) s' /\ stack_only s d fr sp sz s' /\
    uword s' d sp 0xffffffff /\ uword s' d (sp + 4) argc /\ uword s' d (sp + 8) (sp + 12) /\
    (forall j p a, ps !! j = Some p -> argv !! j = Some a ->
       uword s' d (sp + 12 + 4 * Z.of_nat j) p /\ p `mod` 4 = 0 /\ low <= p /\ p + Z.of_nat (length a) < sz /\ ubytes s' d p (a ++ [0])) /\
    length ps = length argv /\ uword s' d (sp + 12 + 4 * argc) 0.
Proof.
  intros Ho Hf Hsz Hal Hu argc. destruct (layout sz argv) as [low ps] eqn:Elay. intros sp Hn Hsp.
  pose proof (layout_le sz argv) as Hle. rewrite Elay in Hle. cbn in Hle. unfold PGSIZE in *.
  destruct (push_args_ok argv s d fr (sz - 4096) sz 0) as (s1&E1&Hst&Hall); [done|done|lia|rewrite Elay; cbn; lia|lia|done|lia|].
  rewrite Elay in *. cbn [fst snd] in *. unfold push_stack. erewrite bind_ret by exact E1. cbv beta iota zeta. fold argc.
  assert (Hlen : length ps = length argv) by (by apply Forall2_length in Hall).
  rewrite !u32_small by lia. replace (low - (3 + argc + 1) * 4) with sp by lia. replace (low - (argc + 1) * 4) with (sp + 12) by lia.
  set (us := [0xffffffff; argc; sp + 12] ++ ps ++ [0]).
  assert (Hus : Z.of_nat (length us) = argc + 4) by (unfold us; rewrite !length_app, Hlen; cbn; lia).
  destruct (copyout_ok s1 d fr sp (concat (le32 <$> us)) ((3 + argc + 1) * 4)) as (s2&E2&Hw);
    [apply Hst|apply Hst|lia|rewrite length_le32s; lia|lia|intros va Hva; rewrite (so_user _ _ _ _ _ _ Hst); apply Hu; lia|].
  rewrite take_ge in Hw by (rewrite length_le32s; lia). erewrite bind_ret by exact E2. change (0 <? 0) with false. cbv iota.
  assert (Hub : ubytes s2 d sp (concat (le32 <$> us))) by (eapply wrote_ubytes; [| |exact Hw]; rewrite ?length_le32s; lia).
  assert (Hword : forall j v, us !! j = Some v -> uword s2 d (sp + 4 * Z.of_nat j) v) by (intros j v Hj; by eapply words_uword).
  exists s2. split_and!; [done| | | | | |done|].
  - destruct Hst as [S1 S2 S3 S4], Hw as [W1 W2 W3 W4]. split; [done|done|intros; by rewrite W3, S3|].
    intros va Hva Hr. rewrite W4, decide_False by (done || rewrite length_le32s; lia). apply S4; [done|lia].
  - rewrite <- (Z.add_0_r sp). by apply (Hword 0%nat).
  - by apply (Hword 1%nat).
  - by apply (Hword 2%nat).
  - intros j p a Hj Ha. destruct (Forall2_lookup_lr _ _ _ _ _ _ Hall Ha Hj) as (H1&H2&H3&H4). split_and!; [|done|done|done|].
    + replace (sp + 12 + 4 * Z.of_nat j) with (sp + 4 * Z.of_nat (3 + j)) by lia. apply Hword. exact (lookup_app_l_Some ps [0] j p Hj).
    + eapply (ubytes_keep s1); [|done]. intros k Hk. rewrite length_app in Hk. cbn in Hk.
      rewrite (wr_bytes _ _ _ _ _ _ Hw) by lia. rewrite decide_False; [done|]. rewrite length_le32s. lia.
  - replace (sp + 12 + 4 * argc) with (sp + 4 * Z.of_nat (3 + length ps)) by lia. apply Hword.
    exact (list_lookup_middle ps [] 0 (length ps) eq_refl).
Qed.

Lemma confined_push_stack d sz argv : confined (push_stack d sz argv).
Proof.
  assert (Hp : forall sp argc, confined (push_args d sp argc argv)).
  { induction argv as [|a argv IH]; intros; cbn [push_args]; confine. }
  unfold push_stack. confine.
Qed.

(** ** Theorem *)

(** the program starts on the stack C expects: at the stack pointer a
    return address, argc and the address of argv, which is the vector of
    pointers that follows and ends with a null pointer; each pointer is word
    aligned and points to the argument with its NUL.  Nothing else of the
    address space changes.  This holds for up to MAXARG arguments that fit into
    the stack page below [sz]. *)
Theorem exec_stack argv s d fr sz :
  owns s d fr -> frames_ok s d fr -> PGSIZE <= sz < 2 ^ 31 -> sz `mod` 4 = 0 ->
  (forall va, sz - PGSIZE <= va < sz -> user (pte (mem (kmem s)) d va) = true) ->
  let argc := Z.of_nat (length argv) in
  let '(low, ps) := layout sz argv in
  let sp := low - (argc + 4) * 4 in
  argc <= MAXARG -> sz - PGSIZE <= sp ->
  exists s', push_stack d sz argv s = Ret (Some sp) s' /\ stack_only s d fr sp sz s' /\
    uword s' d sp 0xffffffff /\ uword s' d (sp + 4) argc /\ uword s' d (sp + 8) (sp + 12) /\
    (forall j p a, ps !! j = Some p -> argv !! j = Some a ->
       uword s' d (sp + 12 + 4 * Z.of_nat j) p /\ p `mod` 4 = 0 /\ ubytes s' d p (a ++ [0])) /\
    length ps = length argv /\ uword s' d (sp + 12 + 4 * argc) 0.
Proof.
  intros Ho Hf Hsz Hal Hu argc. pose proof (push_stack_ok argv s d fr sz Ho Hf Hsz Hal Hu) as H. fold argc in H.
  destruct (layout sz argv) as [low ps]. intros sp Hn Hsp. destruct (H Hn Hsp) as (s'&E&H1&H2&H3&H4&H5&H6&H7).
  exists s'. split_and!; try done; intros j p a Hp Ha; by destruct (H5 j p a Hp Ha) as (?&?&_&_&?).
Qed.

Lemma exec_stack_witness : exists s', push_stack demo_dir 4096 [chars "echo"; chars "hi"] demo_user = Ret (Some 4060) s' /\
  uword s' demo_dir 4064 2 /\ ubytes s' demo_dir 4088 (chars "echo" ++ [0]).
Proof.
  destruct demo_user_ok as (fr&Ho&Hf&Hb).
  destruct (exec_stack [chars "echo"; chars "hi"] demo_user demo_dir fr 4096 Ho Hf) as (s'&E&_&_&Hc&_&Hj&_);
    [unfold PGSIZE; lia|reflexivity| |vm_compute; discriminate|vm_compute; discriminate|].
  - intros va Hva. unfold PGSIZE in Hva. specialize (Hb va ltac:(lia)). unfold ubyte in Hb. by destruct (user _).
  - exists s'. split; [exact E|]. split; [exact Hc|]. apply (Hj 0%nat); reflexivity.
Defined.

End Exec.
