(* ===== verification/Family.v ===== *)
(** * Family: parents are alive (proc.c)

    The parent of a process is never dead: [exit] passes children on before the
    process becomes a zombie, [wait] frees zombies only.  The invariant is about
    the process table at every moment another process may run, so it is proved
    of whole system calls, through the sleeps inside them: [safe] follows a
    computation to its end over all its [Block]s, and the database [quiet] has
    the operations of the kernel that leave the family alone. *)
From S2P Require Import Prelude Queue KState Kalloc Proc Sleeplock Bio Log Pipe Socket File Fs Vm Space Life.

Create HintDb quiet.

Module Family.
Import Sleeplock Bio Log Fs Life.

(** ** The invariant *)
Definition alive (p : proc) : Prop := p_state p = SLEEPING \/ p_state p = RUNNABLE \/ p_state p = RUNNING.
Definition alive_at (l : list proc) (j : nat) : Prop := exists q, l !! j = Some q /\ alive q.

Section Family.
Context (init : nat).

Record family (l : list proc) : Prop := {
  fam_init : alive_at l init;
  fam_parent : forall k p j, l !! k = Some p -> p_parent p = Some j -> alive_at l j;
  fam_unused : forall k p, l !! k = Some p -> p_state p = UNUSED -> p_parent p = None;
}.

(** A change of the table that keeps parents and does not end a process. *)
Definition gentle (l l' : list proc) : Prop :=
  Forall2 (fun p p' => p_parent p' = p_parent p /\ (alive p -> alive p') /\ (p_state p' = UNUSED -> p_state p = UNUSED)) l l'.

Lemma gentle_alive l l' j : gentle l l' -> alive_at l j -> alive_at l' j.
Proof.
  intros Hg (q&Hq&Ha). destruct (Forall2_lookup_l _ _ _ _ _ Hg Hq) as (q'&Hq'&_&Hal&_). exists q'. auto.
Qed.

Lemma gentle_family l l' : gentle l l' -> family l -> family l'.
Proof.
  intros Hg [H1 H2 H3]. split; [by eapply gentle_alive| |].
  - intros k p j Hk Hp. destruct (Forall2_lookup_r _ _ _ _ _ Hg Hk) as (q&Hq&Ep&_). rewrite Ep in Hp.
    eapply gentle_alive; [done|]. by eapply H2.
  - intros k p Hk Hs. destruct (Forall2_lookup_r _ _ _ _ _ Hg Hk) as (q&Hq&Ep&_&Hu). rewrite Ep. eapply H3; [done|]. auto.
Qed.

Lemma gentle_refl l : gentle l l.
Proof. apply Forall2_self. done. Qed.
Lemma gentle_alter f i l : (forall p, l !! i = Some p ->
    p_parent (f p) = p_parent p /\ (alive p -> alive (f p)) /\ (p_state (f p) = UNUSED -> p_state p = UNUSED)) ->
  gentle l (alter f i l).
Proof.
  intros Hf. apply Forall2_lookup. intros j. destruct (decide (i = j)) as [<-|].
  - rewrite list_lookup_alter_eq. destruct (l !! i) eqn:E; constructor. auto.
  - rewrite list_lookup_alter_ne by done. destruct (l !! j); by constructor.
Qed.
Lemma gentle_wakeup c l : gentle l (Proc.wakeup1_proc c <$> l).
Proof.
  apply Forall2_fmap_r, Forall2_self. intros p. unfold compose, Proc.wakeup1_proc, alive.
  case_bool_decide as Hs; [|done]. case_bool_decide; [|done]. cbn. rewrite Hs. naive_solver.
Qed.

(** ** Computations that keep it *)

(** The process [i] runs; when it sleeps others may, until it runs again. *)
Definition idle (s : kstate) : Prop := family (ptable s) /\ initproc s = Some init.
Definition on (i : nat) (s : kstate) : Prop := idle s /\ curproc s = Some i /\ alive_at (ptable s) i.

Inductive safe {T} (i : nat) (Q : T -> kstate -> Prop) : outcome T -> Prop :=
| safe_ret a s : Q a s -> safe i Q (Ret a s)
| safe_panic msg : safe i Q (Panic msg)
| safe_fault w : safe i Q (Fault w)
| safe_block s k : idle s -> (forall s', on i s' -> safe i Q (k s')) -> safe i Q (Block s k).

Definition keeps {T} (m : M T) : Prop := forall i s, on i s -> safe i (fun _ => on i) (m s).

Lemma safe_bind {T U} i (Q : T -> kstate -> Prop) (R : U -> kstate -> Prop) o (f : T -> M U) :
  safe i Q o -> (forall a s, Q a s -> safe i R (f a s)) -> safe i R (obind o f).
Proof. intros Ho Hf. induction Ho as [a s HQ|msg|w|s k Hs Hk IH]; cbn [obind]; [by apply Hf|constructor..|]. by constructor. Qed.

Lemma safe_mono {T} i (Q Q' : T -> kstate -> Prop) o : safe i Q o -> (forall a s, Q a s -> Q' a s) -> safe i Q' o.
Proof. intros Ho HQ. induction Ho; constructor; auto. Qed.

Lemma keeps_ret {T} (a : T) : keeps (mret a).
Proof. intros i s Hs. by constructor. Qed.
Lemma keeps_bind {T U} (m : M T) (f : T -> M U) : keeps m -> (forall a, keeps (f a)) -> keeps (m ≫= f).
Proof. intros Hm Hf i s Hs. eapply safe_bind; [by apply Hm|]. intros a s' Hs'. by apply Hf. Qed.
Lemma keeps_panic {T} msg : keeps (panic msg : M T).
Proof. constructor. Qed.
Lemma keeps_fault {T} msg : keeps (fault msg : M T).
Proof. constructor. Qed.
Lemma keeps_gets {T} (g : kstate -> T) : keeps (gets g).
Proof. intros i s Hs. by constructor. Qed.
Lemma keeps_need {T} (o : option T) msg : keeps (need o msg).
Proof. destruct o; [apply keeps_ret|apply keeps_fault]. Qed.
Lemma keeps_mfor {T} (l : list T) body : (forall x, keeps (body x)) -> keeps (mfor l body).
Proof. intros Hb. induction l as [|x l IH]; [apply keeps_ret|]. by apply keeps_bind. Qed.

(** A change of other parts of the state. *)
Lemma keeps_modify f : (forall s, ptable (f s) = ptable s /\ curproc (f s) = curproc s /\ initproc (f s) = initproc s) -> keeps (modify f).
Proof.
  intros Hf i s ((Hm&Hi)&Hc&Ha). destruct (Hf s) as (E1&E2&E3). constructor. unfold on, idle. by rewrite E1, E2, E3.
Qed.

(** A gentle change of the table. *)
Lemma keeps_table f : (forall s, gentle (ptable s) (ptable (f s)) /\ curproc (f s) = curproc s /\ initproc (f s) = initproc s) -> keeps (modify f).
Proof.
  intros Hf i s ((Hm&Hi)&Hc&Ha). destruct (Hf s) as (E1&E2&E3). constructor. unfold on, idle. rewrite E2, E3.
  split_and!; [by eapply gentle_family|done|done|by eapply gentle_alive].
Qed.

Lemma keeps_set_proc k f : (forall p, p_parent (f p) = p_parent p /\ p_state (f p) = p_state p) -> keeps (Proc.set_proc k f).
Proof.
  intros Hf. apply keeps_table. intros s. split_and!; [|done|done]. apply gentle_alter. intros p _. destruct (Hf p) as [E1 E2].
  unfold alive. by rewrite E1, E2.
Qed.

Lemma keeps_acquire lk : keeps (acquire lk).
Proof. intros i s Hs. destruct (Kalloc.acquire_cases lk s) as [E|E]; rewrite E; by constructor. Qed.
Lemma keeps_release lk : keeps (release lk).
Proof. intros i s Hs. destruct (Kalloc.release_cases lk s) as [E|E]; rewrite E; by constructor. Qed.

Lemma keeps_sched : keeps Proc.sched.
Proof.
  intros i s Hs. destruct (Proc.sched_cases s) as [E|[[m E]|[w E]]]; rewrite E; constructor; [apply Hs|].
  intros s' Hs'. by constructor.
Qed.

Lemma keeps_wakeup1 c : keeps (Proc.wakeup1 c).
Proof. apply keeps_table. intros s. split_and!; [apply gentle_wakeup|done|done]. Qed.

Lemma safe_then {T U} i (m : M T) (f : T -> M U) s : safe i (fun _ => on i) (m s) -> (forall a, keeps (f a)) -> safe i (fun _ => on i) ((m ≫= f) s).
Proof. intros Hm Hf. eapply safe_bind; [exact Hm|]. intros a s' Hs'. by apply Hf. Qed.

(** The running process goes to another state in which it is alive. *)
Lemma on_park i f s : on i s -> (forall p, p_parent (f p) = p_parent p /\ alive (f p)) ->
  on i (s <| ptable := alter f i (ptable s) |>).
Proof.
  intros ((Hm&Hi)&Hc&Ha) Hf. assert (Hg : gentle (ptable s) (alter f i (ptable s))).
  { apply gentle_alter. intros p _. destruct (Hf p) as [E Hal]. split_and!; [done|done|]. intros E'. destruct Hal as [?|[?|?]]; congruence. }
  unfold on, idle. cbn. split_and!; [by eapply gentle_family|done|done|by eapply gentle_alive].
Qed.

Lemma keeps_current {T} (f : nat -> M T) msg : (forall i s, on i s -> safe i (fun _ => on i) (f i s)) ->
  keeps (o ← Proc.myproc; i ← need o msg; f i).
Proof. intros Hf i s Hs. unfold Proc.myproc. rewrite bind_gets. destruct Hs as (?&Hc&?) eqn:E. rewrite Hc. rewrite (bind_need i) by done. by apply Hf. Qed.

#[local] Hint Resolve keeps_ret keeps_bind keeps_panic keeps_fault keeps_gets keeps_need keeps_mfor
  keeps_acquire keeps_release keeps_sched keeps_wakeup1 : quiet.

(** Follow the structure of a computation. *)
Ltac quiet1 :=
  match goal with
  | |- keeps (mbind _ _) => apply keeps_bind; [|intro]
  | |- keeps (let _ := _ in _) => cbv zeta
  | |- keeps (if ?b then _ else _) => destruct b
  | |- keeps (match ?x with _ => _ end) => destruct x
  | |- keeps (let '(_, _) := ?x in _) => destruct x
  | |- keeps (Proc.set_proc _ _) => apply keeps_set_proc; intros; by split
  | |- keeps (modify _) => apply keeps_modify; intros; by split_and!
  | |- keeps (mfor _ _) => apply keeps_mfor; intro
  | |- _ => solve [auto with quiet nocore]
  end.
Ltac quiet := repeat quiet1.

Lemma keeps_wakeup c : keeps (Proc.wakeup c).
Proof. unfold Proc.wakeup. quiet. Qed.

#[local] Hint Resolve keeps_wakeup : quiet.

Lemma keeps_sleep c lk : keeps (Proc.sleep c lk).
Proof.
  intros i s Hs. unfold Proc.sleep, Proc.myproc. rewrite bind_gets. pose proof Hs as (_&Hc&_). rewrite Hc.
  apply safe_bind with (Q := fun _ => on i).
  - assert (Hk : keeps (if decide (lk = LkPtable) then mret tt else acquire LkPtable ;; release lk)) by quiet. by apply Hk.
  - intros _ s1 Hs1. apply safe_bind with (Q := fun _ => on i).
    + constructor. apply on_park; [done|]. intros p. split; [done|by left].
    + intros _ s2 Hs2. assert (Hk : keeps (Proc.sched ;; Proc.set_proc i (fun p => p <| p_chan := None |>) ;;
        (if decide (lk = LkPtable) then mret tt else release LkPtable ;; acquire lk))) by quiet. by apply Hk.
Qed.
#[local] Hint Resolve keeps_sleep : quiet.

Lemma keeps_get_proc k : keeps (Proc.get_proc k).
Proof. unfold Proc.get_proc. quiet. Qed.
Lemma keeps_upd_fs f : keeps (upd_fs f).
Proof. unfold upd_fs. quiet. Qed.
#[local] Hint Resolve keeps_get_proc keeps_upd_fs : quiet.

Lemma keeps_acquiresleep fuel n : keeps (acquiresleep fuel n).
Proof.
  assert (Hw : keeps (acquiresleep_wait fuel n)) by (induction fuel; cbn [acquiresleep_wait]; unfold get_sl; quiet).
  unfold acquiresleep, mypid, Proc.myproc, set_sl. quiet.
Qed.
Lemma keeps_releasesleep n : keeps (releasesleep n).
Proof. unfold releasesleep, set_sl. quiet. Qed.
Lemma keeps_holdingsleep n : keeps (holdingsleep n).
Proof. unfold holdingsleep, get_sl, mypid, Proc.myproc. quiet. Qed.
#[local] Hint Resolve keeps_acquiresleep keeps_releasesleep keeps_holdingsleep : quiet.

(** bio.c, log.c *)
Lemma keeps_get_buf k : keeps (get_buf k).
Proof. unfold get_buf. quiet. Qed.
Lemma keeps_set_buf k g : keeps (set_buf k g).
Proof. unfold set_buf. quiet. Qed.
#[local] Hint Resolve keeps_get_buf keeps_set_buf : quiet.
Lemma keeps_iderw k : keeps (iderw k).
Proof. unfold iderw, emit. quiet. Qed.
#[local] Hint Resolve keeps_iderw : quiet.
Lemma keeps_bread fuel dev bn : keeps (bread fuel dev bn).
Proof. unfold bread, bget. quiet. Qed.
Lemma keeps_bwrite k : keeps (bwrite k).
Proof. unfold bwrite. quiet. Qed.
Lemma keeps_brelse k : keeps (brelse k).
Proof. unfold brelse. quiet. Qed.
Lemma keeps_get_log : keeps get_log.
Proof. unfold get_log. quiet. Qed.
Lemma keeps_set_log g : keeps (set_log g).
Proof. unfold set_log. quiet. Qed.
#[local] Hint Resolve keeps_bread keeps_bwrite keeps_brelse keeps_get_log keeps_set_log : quiet.
Lemma keeps_begin_op fuel : keeps (begin_op fuel).
Proof.
  assert (Hw : forall n, keeps (begin_op_loop n)) by (intros n; induction n; cbn [begin_op_loop]; quiet).
  unfold begin_op. quiet.
Qed.
Lemma keeps_write_head fuel : keeps (write_head fuel).
Proof. unfold write_head. quiet. Qed.
#[local] Hint Resolve keeps_begin_op keeps_write_head : quiet.
Lemma keeps_end_op fuel : keeps (end_op fuel).
Proof. unfold end_op, commit, write_log, write_log_block, install_trans, install_trans_block. quiet. Qed.
Lemma keeps_log_write k : keeps (log_write k).
Proof. unfold log_write. quiet. Qed.
#[local] Hint Resolve keeps_end_op keeps_log_write : quiet.

(** fs.c *)
Lemma keeps_get_inode ip : keeps (get_inode ip).
Proof. unfold get_inode. quiet. Qed.
Lemma keeps_set_inode ip g : keeps (set_inode ip g).
Proof. unfold set_inode. quiet. Qed.
Lemma keeps_get_sb : keeps get_sb.
Proof. unfold get_sb. quiet. Qed.
Lemma keeps_upd_data k g : keeps (upd_data k g).
Proof. unfold upd_data. quiet. Qed.
#[local] Hint Resolve keeps_get_inode keeps_set_inode keeps_get_sb keeps_upd_data : quiet.
Lemma keeps_bfree fuel dev b : keeps (bfree fuel dev b).
Proof. unfold bfree. quiet. Qed.
Lemma keeps_iupdate fuel ip : keeps (iupdate fuel ip).
Proof. unfold iupdate. quiet. Qed.
#[local] Hint Resolve keeps_bfree keeps_iupdate : quiet.
Lemma keeps_itrunc fuel ip : keeps (itrunc fuel ip).
Proof. unfold itrunc, set_addr. quiet. Qed.
#[local] Hint Resolve keeps_itrunc : quiet.
Lemma keeps_iput fuel ip : keeps (iput fuel ip).
Proof. unfold iput. quiet. Qed.
Lemma keeps_idup ip : keeps (idup ip).
Proof. unfold idup. quiet. Qed.
#[local] Hint Resolve keeps_iput keeps_idup : quiet.

(** ** Computations that neither sleep nor change states and parents *)
Definition same (p p' : proc) : Prop := p_parent p' = p_parent p /\ p_state p' = p_state p.
Definition mild {T} (m : M T) : Prop := forall s,
  match m s with
  | Ret _ s' => Forall2 same (ptable s) (ptable s') /\ curproc s' = curproc s /\ initproc s' = initproc s
  | Block _ _ => False
  | _ => True
  end.

Lemma same_refl l : Forall2 same l l.
Proof. apply Forall2_self. done. Qed.
Lemma same_trans l1 l2 l3 : Forall2 same l1 l2 -> Forall2 same l2 l3 -> Forall2 same l1 l3.
Proof. apply Forall2_trans. intros p q r [? ?] [? ?]. split; congruence. Qed.
Lemma same_gentle l l' : Forall2 same l l' -> gentle l l'.
Proof. intros H. eapply Forall2_impl; [exact H|]. intros p q [E1 E2]. unfold alive. by rewrite E1, E2. Qed.

Lemma mild_keeps {T} (m : M T) : mild m -> keeps m.
Proof.
  intros Hm i s ((Hf&Hi)&Hc&Ha). specialize (Hm s). destruct (m s) as [a s'|msg|w|s' k]; try constructor; try done.
  destruct Hm as (Hg%same_gentle&E2&E3). unfold on, idle. rewrite E2, E3.
  split_and!; [by eapply gentle_family|done|done|by eapply gentle_alive].
Qed.

Lemma mild_ret {T} (a : T) : mild (mret a).
Proof. intros s. split_and!; [apply same_refl|done|done]. Qed.
Lemma mild_bind {T U} (m : M T) (f : T -> M U) : mild m -> (forall a, mild (f a)) -> mild (m ≫= f).
Proof.
  intros Hm Hf s. unfold mbind, M_bind. specialize (Hm s). destruct (m s) as [a s'|msg|w|s' k]; cbn [obind]; try done.
  destruct Hm as (H1&H2&H3). specialize (Hf a s'). destruct (f a s') as [b s2|msg|w|s2 k]; try done.
  destruct Hf as (G1&G2&G3). split_and!; [by eapply same_trans|congruence|congruence].
Qed.
Lemma mild_panic {T} msg : mild (panic msg : M T).
Proof. done. Qed.
Lemma mild_fault {T} msg : mild (fault msg : M T).
Proof. done. Qed.
Lemma mild_gets {T} (g : kstate -> T) : mild (gets g).
Proof. intros s. split_and!; [apply same_refl|done|done]. Qed.
Lemma mild_need {T} (o : option T) msg : mild (need o msg).
Proof. destruct o; [apply mild_ret|done]. Qed.
Lemma mild_mfor {T} (l : list T) body : (forall x, mild (body x)) -> mild (mfor l body).
Proof. intros Hb. induction l as [|x l IH]; [apply mild_ret|]. by apply mild_bind. Qed.
Lemma mild_modify f : (forall s, ptable (f s) = ptable s /\ curproc (f s) = curproc s /\ initproc (f s) = initproc s) -> mild (modify f).
Proof. intros Hf s. destruct (Hf s) as (E1&E2&E3). cbn. rewrite E1. split_and!; [apply same_refl|done|done]. Qed.
Lemma mild_set_proc k f : (forall p, same p (f p)) -> mild (Proc.set_proc k f).
Proof.
  intros Hf s. cbn. split_and!; [|done|done]. apply Forall2_lookup. intros j. destruct (decide (k = j)) as [<-|].
  - rewrite list_lookup_alter_eq. destruct (ptable s !! k); constructor. apply Hf.
  - rewrite list_lookup_alter_ne by done. destruct (ptable s !! j); by constructor.
Qed.
Lemma mild_acquire lk : mild (acquire lk).
Proof. intros s. destruct (Kalloc.acquire_cases lk s) as [E|E]; rewrite E; [|done]. split_and!; [apply same_refl|done|done]. Qed.
Lemma mild_release lk : mild (release lk).
Proof. intros s. destruct (Kalloc.release_cases lk s) as [E|E]; rewrite E; [|done]. split_and!; [apply same_refl|done|done]. Qed.

#[local] Hint Resolve mild_ret mild_panic mild_fault mild_gets mild_need mild_acquire mild_release : quiet.
Ltac mild1 :=
  match goal with
  | |- mild (mbind _ _) => apply mild_bind; [|intro]
  | |- mild (let _ := _ in _) => cbv zeta
  | |- mild (if ?b then _ else _) => destruct b
  | |- mild (match ?x with _ => _ end) => destruct x
  | |- mild (Proc.set_proc _ _) => apply mild_set_proc; intros; by split
  | |- mild (modify _) => apply mild_modify; intros; by split_and!
  | |- mild (mfor _ _) => apply mild_mfor; intro
  | |- _ => solve [auto with quiet nocore]
  end.
Ltac milds := repeat mild1.

(** kalloc.c, vm.c *)
Lemma mild_confined {T} (m : M T) : Space.confined m -> mild m.
Proof.
  intros Hm s. specialize (Hm s). destruct (m s) as [a s'|?|?|? ?]; [|done..]. destruct Hm as [-> _]. split_and!; [apply same_refl|done|done].
Qed.
Lemma mild_kalloc : mild Kalloc.kalloc.
Proof. apply mild_confined, Space.confined_kalloc. Qed.
Lemma mild_kfree p : mild (Kalloc.kfree p).
Proof. apply mild_confined, Space.confined_kfree. Qed.
Lemma mild_freevm d : mild (Vm.freevm d).
Proof. apply mild_confined, Space.confined_freevm. Qed.
Lemma mild_copyuvm data d sz : mild (Vm.copyuvm data d sz).
Proof. apply mild_confined, Space.confined_copyuvm. Qed.
#[local] Hint Resolve mild_kalloc mild_kfree mild_freevm : quiet.
Lemma mild_filedup k : mild (File.filedup k).
Proof. unfold File.filedup, File.get_file, File.set_file. milds. Qed.
Lemma mild_idup ip : mild (idup ip).
Proof. unfold idup, set_inode, upd_fs. milds. Qed.
Lemma mild_set_name k t : mild (set_name k t).
Proof. unfold set_name. milds. Qed.
#[local] Hint Resolve mild_copyuvm mild_filedup mild_idup mild_set_name : quiet.
Lemma mild_dup_files i k : mild (dup_files i k).
Proof. unfold dup_files, Proc.get_proc, File.set_fd. milds. Qed.
#[local] Hint Resolve mild_dup_files : quiet.

(** pipe.c, socket.c, file.c *)
Lemma keeps_kfree p : keeps (Kalloc.kfree p).
Proof. apply mild_keeps. auto with quiet. Qed.
Lemma keeps_freevm d : keeps (Vm.freevm d).
Proof. apply mild_keeps. auto with quiet. Qed.
#[local] Hint Resolve keeps_kfree keeps_freevm : quiet.
Lemma keeps_pipeclose p w : keeps (Pipe.pipeclose p w).
Proof. unfold Pipe.pipeclose, Pipe.set_pipe, Pipe.get_pipe. quiet. Qed.
Lemma keeps_get_port p : keeps (get_port p).
Proof. intros i s Hs. unfold get_port. by apply keeps_need. Qed.
#[local] Hint Resolve keeps_get_port : quiet.
Lemma keeps_socketclose k : keeps (Socket.socketclose k).
Proof. unfold Socket.socketclose, Socket.socketfree, get_socket, set_socket, set_port. quiet. Qed.
#[local] Hint Resolve keeps_pipeclose keeps_socketclose : quiet.
Lemma keeps_fileclose `{Devices} fuel k : keeps (@File.fileclose (fs_inodes fuel) k).
Proof. unfold File.fileclose, File.close_object, File.get_file, File.set_file. cbn [File.begin_op File.end_op File.iput fs_inodes]. quiet. Qed.

#[local] Hint Resolve keeps_fileclose : quiet.

(** ** Slots that are not alive *)

(** A slot that is not alive is nobody's parent: it may change at will, as long
    as its own parent is alive. *)
Lemma on_reset i k p f s : on i s -> ptable s !! k = Some p -> ~ alive p ->
  (p_parent (f p) = None \/ p_parent (f p) = Some i /\ p_state (f p) <> UNUSED) ->
  on i (s <| ptable := alter f k (ptable s) |>).
Proof.
  intros (([H1 H2 H3]&Hi)&Hc&Ha) Hk Hna Hf.
  assert (Hal : forall j, alive_at (ptable s) j -> alive_at (alter f k (ptable s)) j).
  { intros j (q&Hq&Hqa). exists q. split; [|done]. rewrite list_lookup_alter_ne; [done|]. intros ->. congruence. }
  unfold on, idle. cbn. split_and!; [|done|done|by apply Hal]. split; [by apply Hal| |].
  - intros j q m Hj Hp. apply Hal. destruct (decide (k = j)) as [<-|Hne].
    + rewrite list_lookup_alter_eq, Hk in Hj. cbn in Hj. simplify_eq. destruct Hf as [E|[E _]]; congruence.
    + rewrite list_lookup_alter_ne in Hj by done. by eapply H2.
  - intros j q Hj Hu. destruct (decide (k = j)) as [<-|Hne].
    + rewrite list_lookup_alter_eq, Hk in Hj. cbn in Hj. simplify_eq. by destruct Hf as [E|[_ E]].
    + rewrite list_lookup_alter_ne in Hj by done. by eapply H3.
Qed.

(** A slot kept in a state while quiet code runs. *)
Definition slot (k : nat) (st : procstate) (par : option nat) (s : kstate) : Prop :=
  exists q, ptable s !! k = Some q /\ p_state q = st /\ p_parent q = par.

Lemma safe_mild {T} i k st par (m : M T) s : mild m -> on i s -> slot k st par s ->
  safe i (fun _ s' => on i s' /\ slot k st par s') (m s).
Proof.
  intros Hm Hs (q&Hq&E1&E2). pose proof (mild_keeps m Hm i s Hs) as Hk. specialize (Hm s).
  destruct (m s) as [a s'|msg|w|s' c]; [|constructor|constructor|done]. constructor. inversion Hk; subst. split; [done|].
  destruct Hm as (Hf&_&_). destruct (Forall2_lookup_l _ _ _ _ _ Hf Hq) as (q'&Hq'&F1&F2). exists q'. split_and!; [done|congruence..].
Qed.


(** One quiet step that keeps the slot. *)
Ltac keeping :=
  eapply safe_bind; [eapply safe_mild; [milds|eassumption|eassumption]|]; cbv beta; intros ? ? [? ?].

Lemma safe_allocproc i s : on i s ->
  safe i (fun o s' => on i s' /\ match o with Some np => slot np EMBRYO None s' | None => True end) (Proc.allocproc s).
Proof.
  intros Hs. unfold Proc.allocproc. eapply safe_bind; [by apply keeps_acquire|]. intros ? s1 Hs1. cbv beta in Hs1. rewrite bind_gets.
  destruct (find_index _ (ptable s1)) as [k|] eqn:Ek.
  2:{ eapply safe_bind; [by apply keeps_release|]. intros ? s2 Hs2. by constructor. }
  apply find_index_Some in Ek as (p&Hp&Hst%bool_decide_eq_true&_). rewrite bind_gets, Proc.bind_set_proc.
  assert (Hpar : p_parent p = None) by (destruct Hs1 as (([_ _ H3]&_)&_); by eapply H3).
  assert (Hna : ~ alive p) by (unfold alive; rewrite Hst; naive_solver).
  set (f := fun p => p <| p_state := EMBRYO |> <| p_pid := nextpid s1 |>).
  assert (Hs2 : on i (s1 <| ptable := alter f k (ptable s1) |>)) by (apply (on_reset i k p); [done|done|done|by left]).
  assert (Hsl : slot k EMBRYO None (s1 <| ptable := alter f k (ptable s1) |>)).
  { exists (f p). cbn. by rewrite list_lookup_alter_eq, Hp. }
  set (s2 := s1 <| ptable := _ |>) in *.
  keeping. keeping. keeping.
  keeping. case_match; [|constructor; by split].
  rename select (slot k EMBRYO None _) into Hsl'. destruct Hsl' as (q&Hq&Hqs&Hqp). rewrite Proc.bind_set_proc. constructor. split; [|done].
  apply (on_reset i k q); [done|done|unfold alive; rewrite Hqs; naive_solver|by left].
Qed.

Lemma safe_get_proc {U} k (g : proc -> M U) s i Q :
  (forall p, ptable s !! k = Some p -> safe i Q (g p s)) -> safe i Q ((Proc.get_proc k ≫= g) s).
Proof.
  intros Hg. unfold Proc.get_proc, mbind, M_bind, gets. cbn [obind]. destruct (ptable s !! k) as [p|]; cbn; [by apply Hg|constructor].
Qed.

Lemma not_alive_embryo q : p_state q = EMBRYO -> ~ alive q.
Proof. unfold alive. intros ->. naive_solver. Qed.
Lemma not_alive_zombie q : p_state q = ZOMBIE -> ~ alive q.
Proof. unfold alive. intros ->. naive_solver. Qed.

Lemma keeps_fork data : keeps (fork data).
Proof.
  intros i s Hs. unfold fork. rewrite (File.bind_current i) by apply Hs. eapply safe_bind; [by apply safe_allocproc|]. cbv beta.
  intros [np|] s1 [Hs1 Hsl]; [|by constructor]. apply safe_get_proc. intros p Hp. keeping. keeping. case_match.
  { apply safe_get_proc. intros q Hq. keeping. rewrite Proc.bind_set_proc. constructor.
    rename select (slot np EMBRYO None _) into Hsl2. destruct Hsl2 as (q2&Hq2&E1&E2).
    apply (on_reset i np q2); [done|done|by apply not_alive_embryo|by left]. }
  rewrite Proc.bind_set_proc. rename select (slot np EMBRYO None _) into Hsl2. destruct Hsl2 as (q2&Hq2&E1&E2).
  set (f := fun q => _ <| p_tf := _ |>).
  match goal with |- safe _ _ (_ (?s <| ptable := _ |>)) => set (t := s <| ptable := alter f np (ptable s) |>) end.
  assert (Ht : on i t) by (apply (on_reset i np q2); [done|done|by apply not_alive_embryo|right; split; [done|cbn; congruence]]).
  assert (Hst : slot np EMBRYO (Some i) t) by (exists (f q2); cbn; rewrite list_lookup_alter_eq, Hq2; by split_and!).
  keeping. keeping. keeping. apply safe_get_proc. intros q3 Hq3. cbv zeta. keeping. rewrite Proc.bind_set_proc.
  rename select (slot np EMBRYO (Some i) _) into Hsl3. destruct Hsl3 as (q4&Hq4&F1&F2).
  eapply safe_bind; [apply keeps_release|intros ? u Hu; by constructor].
  apply (on_reset i np q4); [done|done|by apply not_alive_embryo|right; by split].
Qed.

(** ** [wait] *)
Lemma safe_reap i k p s : on i s -> ptable s !! k = Some p -> p_state p = ZOMBIE -> safe i (fun _ => on i) (reap k s).
Proof.
  intros Hs Hk Hz. unfold reap. apply safe_get_proc. intros p' Hp'. cbv zeta. simplify_eq.
  assert (Hsl : slot k ZOMBIE (p_parent p) s) by (by exists p).
  keeping. keeping. keeping. rewrite Proc.bind_set_proc. rename select (slot k ZOMBIE _ _) into Hsl2. destruct Hsl2 as (q&Hq&E1&E2).
  eapply safe_bind; [apply keeps_release|intros ? u Hu; by constructor].
  apply (on_reset i k q); [done|done|by apply not_alive_zombie|by left].
Qed.

Lemma keeps_wait fuel : keeps (wait fuel).
Proof.
  intros i s Hs. unfold wait. rewrite (File.bind_current i) by apply Hs. eapply safe_bind; [by apply keeps_acquire|].
  intros ? s1 Hs1. cbv beta in Hs1. revert s1 Hs1. induction fuel as [|n IH]; intros s1 Hs1; cbn [wait_loop]; [constructor|].
  rewrite bind_gets. destruct (find_index _ _) as [k|] eqn:Ek.
  - apply find_index_Some in Ek as (p&Hp&[_ Hz%bool_decide_eq_true]%andb_true_iff&_). by eapply safe_reap.
  - apply safe_get_proc. intros p Hp. case_match; [by eapply safe_bind; [apply keeps_release|intros ? s2 Hs2; constructor]|].
    eapply safe_bind; [by apply keeps_sleep|]. intros ? s2 Hs2. by apply IH.
Qed.

(** ** [exit] *)
Lemma safe_mfor {T} i (l : list T) body (I : list T -> kstate -> Prop) s : I [] s ->
  (forall done x rest s, l = done ++ x :: rest -> I done s -> safe i (fun _ => I (done ++ [x])) (body x s)) ->
  safe i (fun _ => I l) (mfor l body s).
Proof.
  intros H0 Hb. assert (Hg : forall rest done s, l = done ++ rest -> I done s -> safe i (fun _ => I l) (mfor rest body s)).
  { induction rest as [|x rest IH]; intros done' s' El Hi; cbn [mfor]; [constructor; by rewrite app_nil_r in El; subst|].
    eapply safe_bind; [by eapply Hb|]. intros ? s2 Hi2. cbv beta in Hi2. apply (IH (done' ++ [x])); [|done]. by rewrite <- app_assoc. }
  by apply (Hg l []).
Qed.

(** Setting the parent of a process to init. *)
Lemma on_adopted i k p s : on i s -> ptable s !! k = Some p -> p_parent p <> None ->
  on i (s <| ptable := alter (fun p => p <| p_parent := Some init |>) k (ptable s) |>).
Proof.
  intros (([H1 H2 H3]&Hi)&Hc&Ha) Hk Hn.
  assert (Hal : forall j, alive_at (ptable s) j -> alive_at (alter (fun p => p <| p_parent := Some init |>) k (ptable s)) j).
  { intros j (q&Hq&Hqa). destruct (decide (k = j)) as [<-|]; [|exists q; by rewrite list_lookup_alter_ne].
    eexists. rewrite list_lookup_alter_eq, Hq. cbn. split; [done|]. exact Hqa. }
  unfold on, idle. cbn. split_and!; [|done|done|by apply Hal]. split; [by apply Hal| |].
  - intros j q m Hj Hp. apply Hal. destruct (decide (k = j)) as [<-|Hne].
    + rewrite list_lookup_alter_eq, Hk in Hj. cbn in Hj. simplify_eq. cbn in Hp. by simplify_eq.
    + rewrite list_lookup_alter_ne in Hj by done. by eapply H2.
  - intros j q Hj Hu. destruct (decide (k = j)) as [<-|Hne].
    + rewrite list_lookup_alter_eq, Hk in Hj. cbn in Hj. simplify_eq. cbn in *. exfalso. by apply Hn, (H3 k p).
    + rewrite list_lookup_alter_ne in Hj by done. by eapply H3.
Qed.

(** No process with an index below [n] is a child of [i]. *)
Definition childless (i n : nat) (s : kstate) : Prop :=
  forall k p, (k < n)%nat -> ptable s !! k = Some p -> p_parent p <> Some i.

Lemma safe_wakeup1_of i n N o s : on i s -> childless i n s -> length (ptable s) = N ->
  safe i (fun _ s' => on i s' /\ childless i n s' /\ length (ptable s') = N) (wakeup1_of o s).
Proof.
  intros Hs Hc Hn. destruct o as [j|]; [|by constructor]. pose proof (keeps_wakeup1 (ChProc j) i s Hs) as Hk.
  cbn [wakeup1_of]. unfold Proc.wakeup1, modify in *. constructor. inversion Hk; subst. split_and!; [done| |cbn; by rewrite length_fmap].
  intros k p Hlt Hp. cbn in Hp. rewrite list_lookup_fmap in Hp. destruct (ptable s !! k) as [q|] eqn:Hq; [|done]. cbn in Hp. simplify_eq.
  specialize (Hc k q Hlt Hq). unfold Proc.wakeup1_proc. by case_match.
Qed.

Lemma safe_abandon i s : i <> init -> on i s -> safe i (fun _ s' => on i s' /\ childless i (length (ptable s')) s') (abandon i s).
Proof.
  intros Hne Hs. unfold abandon. rewrite bind_gets. set (n := length (ptable s)).
  eapply safe_mono; [apply (safe_mfor i (seq 0 n) _ (fun (done : list nat) s' => on i s' /\ childless i (length done) s' /\ length (ptable s') = n))|].
  3:{ intros ? s' (H1&H2&H3). rewrite length_seq in H2. by rewrite H3. }
  { split_and!; [done|intros k p; cbn; lia|done]. }
  intros done k rest s1 El (Hs1&Hc1&Hn1). assert (k = length done) as ->.
  { assert (Hk : seq 0 n !! length done = Some k) by (rewrite El; by apply list_lookup_middle). by apply lookup_seq in Hk as [-> _]. }
  rewrite length_app. cbn [length]. rewrite Nat.add_1_r.
  apply safe_get_proc. intros p Hp. case_bool_decide as Hpar.
  - rewrite bind_gets. pose proof Hs1 as ((_&Hi)&_). rewrite Hi, Proc.bind_set_proc.
    set (s2 := s1 <| ptable := _ |>). assert (Hs2 : on i s2) by (apply (on_adopted i (length done) p); [done|done|congruence]).
    assert (Hc2 : childless i (S (length done)) s2).
    { intros j q Hj Hq. cbn in Hq. destruct (decide (length done = j)) as [<-|Hnj].
      - rewrite list_lookup_alter_eq, Hp in Hq. cbn in Hq. simplify_eq. cbn. congruence.
      - rewrite list_lookup_alter_ne in Hq by done. apply (Hc1 j q); [lia|done]. }
    assert (Hn2 : length (ptable s2) = n) by (cbn; by rewrite length_alter).
    case_bool_decide; [by apply safe_wakeup1_of|by constructor].
  - constructor. split_and!; [done| |done]. intros j q Hj Hq. destruct (decide (j = length done)) as [->|]; [congruence|].
    apply (Hc1 j q); [lia|done].
Qed.

Lemma safe_exit_table i s : i <> init -> on i s -> safe i (fun _ => on i) (exit_table i s).
Proof.
  intros Hne Hs. unfold exit_table. eapply safe_bind; [by apply keeps_acquire|]. intros ? s1 Hs1. cbv beta in Hs1.
  apply safe_get_proc. intros p Hp. eapply safe_bind.
  { apply (safe_wakeup1_of i 0 (length (ptable s1))); [done| |done]. intros k q Hk. lia. }
  intros ? s2 (Hs2&_&_). eapply safe_bind; [by apply safe_abandon|]. intros ? s3 [Hs3 Hc3]. rewrite Proc.bind_set_proc.
  set (s4 := s3 <| ptable := _ |>). assert (Hid : idle s4).
  { destruct Hs3 as (([H1 H2 H3]&Hi)&Hc&Ha). split; [|done]. cbn.
    assert (Hal : forall j, j <> i -> alive_at (ptable s3) j -> alive_at (alter (fun p => p <| p_state := ZOMBIE |>) i (ptable s3)) j).
    { intros j Hj (q&Hq&Hqa). exists q. by rewrite list_lookup_alter_ne. }
    assert (Hlk : forall k q, alter (fun p => p <| p_state := ZOMBIE |>) i (ptable s3) !! k = Some q ->
      exists q', ptable s3 !! k = Some q' /\ p_parent q = p_parent q' /\ (p_state q = UNUSED -> p_state q' = UNUSED)).
    { intros k q Hq. destruct (decide (i = k)) as [<-|]; [|rewrite list_lookup_alter_ne in Hq by done; by exists q].
      rewrite list_lookup_alter_eq in Hq. destruct (ptable s3 !! i) as [q'|]; [|done]. cbn in Hq. simplify_eq. by exists q'. }
    split; [by apply Hal| |].
    - intros k q j (q'&Hq'&Ep&_)%Hlk Hpar. rewrite Ep in Hpar. apply Hal; [|by eapply H2]. intros ->.
      apply (Hc3 k q' (lookup_lt_Some _ _ _ Hq') Hq'). done.
    - intros k q (q'&Hq'&Ep&Hu)%Hlk Hst. rewrite Ep. eapply H3; [done|]. auto. }
  eapply safe_bind with (Q := fun _ _ => True); [|intros; constructor].
  destruct (Proc.sched_cases s4) as [E|[[m E]|[w E]]]; rewrite E; constructor; [done|]. intros; by constructor.
Qed.

Lemma keeps_exit `{Devices} fuel : keeps (exit fuel).
Proof.
  intros i s Hs. unfold exit. rewrite (File.bind_current i) by apply Hs. rewrite bind_gets. case_bool_decide as Hi; [constructor|].
  assert (Hne : i <> init) by (destruct Hs as ((_&E)&_); congruence).
  assert (Hk : keeps (close_files fuel i)) by (unfold close_files, File.set_fd; quiet).
  eapply safe_bind; [by apply Hk|]. intros ? s1 Hs1. eapply safe_bind; [by apply keeps_begin_op|]. intros ? s2 Hs2.
  apply safe_get_proc. intros p Hp. eapply safe_bind; [by apply (keeps_bind _ _ (keeps_need _ _) (fun c => keeps_iput fuel c))|].
  intros ? s3 Hs3. eapply safe_bind; [by apply keeps_end_op|]. intros ? s4 Hs4. cbv beta in Hs4.
  eapply safe_bind; [apply keeps_set_proc; [by split|exact Hs4]|]. intros ? s5 Hs5. by apply safe_exit_table.
Qed.

Lemma keeps_kill pid : keeps (Proc.kill pid).
Proof.
  unfold Proc.kill. quiet. apply keeps_table. intros s. split_and!; [|done|done]. apply gentle_alter. intros p _.
  unfold Proc.kill_proc, alive. cbn. case_bool_decide as E; cbn; [rewrite E|]; naive_solver.
Qed.

(** ** Theorem *)

(** C21: whatever processes do, the parent of every process is alive (or it has
    none) and init is alive: [fork], [exit], [wait], [kill], [sleep] and
    [wakeup], run by a process that is alive, keep this at every point where
    they give the CPU to other processes, which keep it too, and at their end.
    So a zombie always has a parent that can wait for it. *)
Theorem parents_alive `{Devices} fuel data :
  keeps (fork data) /\ keeps (exit fuel) /\ keeps (wait fuel) /\ (forall pid, keeps (Proc.kill pid)) /\
  (forall c lk, keeps (Proc.sleep c lk)) /\ (forall c, keeps (Proc.wakeup c)).
Proof.
  split_and!; [apply keeps_fork|apply keeps_exit|apply keeps_wait|apply keeps_kill|apply keeps_sleep|apply keeps_wakeup].
Qed.

End Family.

(** ** Witness: init and a running child *)
Definition demo_family : kstate :=
  tiny <| ptable := [ zero_proc <| p_state := SLEEPING |> <| p_pid := 1 |> <| p_chan := Some (ChProc 0) |>;
      zero_proc <| p_state := RUNNING |> <| p_pid := 2 |> <| p_parent := Some 0%nat |>; zero_proc ] |>
    <| curproc := Some 1%nat |> <| initproc := Some 0%nat |>.

Lemma demo_family_on : on 0 1 demo_family.
Proof.
  split_and!; [split; [split|done]|done|].
  - eexists. split; [reflexivity|]. by left.
  - intros [|[|[|k]]] p j Hk Hp; cbn in Hk; simplify_eq; cbn in Hp; simplify_eq. eexists. split; [reflexivity|]. by left.
  - intros [|[|[|k]]] p Hk Hs; cbn in Hk; simplify_eq; done.
  - eexists. split; [reflexivity|]. right. by right.
Qed.

Definition plain_devices : Devices := {| dev_read _ := None; dev_write _ := None |}.

Lemma parents_alive_witness : safe 0 1 (fun _ => on 0 1) (wait 5 demo_family).
Proof. destruct (@parents_alive 0 plain_devices 5 0) as (_&_&Hw&_). apply Hw. exact demo_family_on. Defined.

End Family.
