(* ===== verification/Syscall.v ===== *)
(** * Syscall: system calls (syscall.c, sysproc.c, sysfile.c, sysnet.c)

    Every system call from its arguments on the user stack to its result in
    [eax], and the dispatcher.  The calls themselves are in File, Sysfile, Life,
    Exec and SockApi; here their arguments are fetched and their results stored
    in user memory. *)
From S2P Require Import Prelude NetUtils Queue KState Kalloc Proc Sleeplock Bio Log Arp Icmp Tcp Receive Socket Pipe File Fs Sysfile Vm Space Life Grow Usermem Exec SockApi.

Module Syscall.
Import Usermem.

(** ** syscall.h *)
Definition SYS_fork : Z := 1.
Definition SYS_exit : Z := 2.
Definition SYS_wait : Z := 3.
Definition SYS_pipe : Z := 4.
Definition SYS_read : Z := 5.
Definition SYS_kill : Z := 6.
Definition SYS_exec : Z := 7.
Definition SYS_fstat : Z := 8.
Definition SYS_chdir : Z := 9.
Definition SYS_dup : Z := 10.
Definition SYS_getpid : Z := 11.
Definition SYS_sbrk : Z := 12.
Definition SYS_sleep : Z := 13.
Definition SYS_uptime : Z := 14.
Definition SYS_open : Z := 15.
Definition SYS_write : Z := 16.
Definition SYS_mknod : Z := 17.
Definition SYS_unlink : Z := 18.
Definition SYS_link : Z := 19.
Definition SYS_mkdir : Z := 20.
Definition SYS_close : Z := 21.
Definition SYS_ifset : Z := 22.
Definition SYS_ifconfig : Z := 23.
Definition SYS_socket : Z := 24.
Definition SYS_bind : Z := 25.
Definition SYS_listen : Z := 26.
Definition SYS_connect : Z := 27.
Definition SYS_accept : Z := 28.
Definition SYS_test : Z := 29.
Definition SYS_icmp_send_echo_request : Z := 30.
Definition SYS_get_icmp_echo_reply_status : Z := 31.
Definition SYS_get_icmp_echo_reply_packet : Z := 32.

(** [if(o < 0) return -1; k] *)
Definition or_fail {T} (o : option T) (k : T -> M Z) : M Z := match o with Some a => k a | None => mret (-1) end.

Section Code.
Context (fuel : nat) {devs : Devices} {stk : Stack} (data : Z).

#[local] Instance inode_layer : InodeOps := Fs.fs_inodes fuel.

(** ** sysproc.c *)
Definition sys_fork : M Z := Life.fork data.
Definition sys_exit : M Z := Life.exit fuel ;; mret 0.
Definition sys_wait : M Z := Life.wait fuel.
Definition sys_kill : M Z := a ← argint 0; or_fail a Proc.kill.
Definition sys_getpid : M Z := p ← this_proc; mret (p_pid p).
Definition sys_sbrk : M Z :=
  a ← argint 0;
  or_fail a (fun n =>
    p ← this_proc;
    let addr := s32 (p_sz p) in
    r ← Life.growproc n;
    if r <? 0 then mret (-1) else mret addr).

(** [while(ticks - ticks0 < n)], compared as unsigned numbers; at most [turns]
    sleeps. *)
Fixpoint sys_sleep_loop (turns : nat) (ticks0 n : Z) : M Z :=
  match turns with
  | O => fault "sys_sleep: fuel"
  | S turns =>
    t ← gets ticks;
    if u32 (t - ticks0) <? u32 n then
      p ← this_proc;
      if p_killed p then release LkTicks ;; mret (-1) else
      Proc.sleep ChTicks LkTicks ;;
      sys_sleep_loop turns ticks0 n
    else release LkTicks ;; mret 0
  end.
Definition sys_sleep : M Z :=
  a ← argint 0;
  or_fail a (fun n => acquire LkTicks ;; ticks0 ← gets ticks; sys_sleep_loop fuel ticks0 n).

Definition sys_uptime : M Z :=
  acquire LkTicks ;;
  xticks ← gets ticks;
  release LkTicks ;;
  mret (s32 xticks).

(** ** sysfile.c *)
Definition sys_dup : M Z := a ← argint 0; or_fail a File.sys_dup.
Definition sys_close : M Z := a ← argint 0; or_fail a (File.sys_close).

(** The descriptor is looked up before the other arguments are fetched. *)
Definition sys_read : M Z :=
  a ← argint 0;
  or_fail a (fun fd =>
    f ← File.argfd fd;
    or_fail f (fun '(_, f) =>
      b ← argint 2;
      or_fail b (fun n =>
        q ← argptr 1 n;
        or_fail q (fun p =>
          '(r, bytes) ← File.fileread fuel f n;
          store_bytes p bytes ;;
          mret r)))).

Definition sys_write : M Z :=
  a ← argint 0;
  or_fail a (fun fd =>
    f ← File.argfd fd;
    or_fail f (fun '(_, f) =>
      b ← argint 2;
      or_fail b (fun n =>
        q ← argptr 1 n;
        or_fail q (fun p =>
          bytes ← load_bytes (Z.to_nat n) p;
          File.filewrite fuel f bytes n)))).

(** The fields of [struct stat], 20 bytes; the padding is not written. *)
Definition store_stat (st : Z) (t : stat) : M unit :=
  store_bytes (u32 (st + 4)) (le32 (st_dev t)) ;;
  store_bytes (u32 (st + 8)) (le32 (st_ino t)) ;;
  store_bytes st (le16 (st_type t)) ;;
  store_bytes (u32 (st + 12)) (le16 (st_nlink t)) ;;
  store_bytes (u32 (st + 16)) (le32 (st_size t)).
Definition SIZEOF_STAT : Z := 20.
Definition sys_fstat : M Z :=
  a ← argint 0;
  or_fail a (fun fd =>
    f ← File.argfd fd;
    or_fail f (fun '(_, f) =>
      q ← argptr 1 SIZEOF_STAT;
      or_fail q (fun st =>
        '(r, t) ← File.filestat f;
        match t with Some t => store_stat st t | None => mret tt end ;;
        mret r))).

Definition sys_link : M Z :=
  a ← argstr 0;
  or_fail a (fun old => b ← argstr 1; or_fail b (fun new => Sysfile.sys_link fuel old new)).
Definition sys_unlink : M Z := a ← argstr 0; or_fail a (Sysfile.sys_unlink fuel).
Definition sys_open : M Z :=
  a ← argstr 0;
  or_fail a (fun path => b ← argint 1; or_fail b (fun omode => Sysfile.sys_open fuel path omode)).

(** The calls that fetch their arguments inside the transaction. *)
Definition sys_mkdir : M Z :=
  Log.begin_op fuel ;;
  a ← argstr 0;
  o ← match a with Some path => Sysfile.create fuel path T_DIR 0 0 | None => mret None end;
  Sysfile.made fuel o.
Definition sys_mknod : M Z :=
  Log.begin_op fuel ;;
  a ← argstr 0;
  o ← match a with
      | None => mret None
      | Some path =>
        major ← argint 1;
        match major with
        | None => mret None
        | Some major =>
          minor ← argint 2;
          match minor with
          | None => mret None
          | Some minor => Sysfile.create fuel path T_DEV major minor
          end
        end
      end;
  Sysfile.made fuel o.
Definition sys_chdir : M Z :=
  curproc ← File.current;
  Log.begin_op fuel ;;
  a ← argstr 0;
  o ← match a with Some path => Fs.namei fuel path | None => mret None end;
  Sysfile.enter_dir fuel curproc o.

(** [for(i=0;; i++)] of [sys_exec]: the argument strings from entry [i] on. *)
Fixpoint exec_args (n : nat) (uargv i : Z) : M (option (list (list Z))) :=
  match n with
  | O => mret None
  | S n =>
    u ← fetchint (u32 (uargv + 4 * i));
    match u with
    | None => mret None
    | Some uarg =>
      if uarg =? 0 then mret (Some []) else
      a ← fetchstr (u32 uarg);
      match a with
      | None => mret None
      | Some a => r ← exec_args n uargv (i + 1); mret (cons a <$> r)
      end
    end
  end.
Definition sys_exec : M Z :=
  a ← argstr 0;
  or_fail a (fun path =>
    u ← argint 1;
    or_fail u (fun uargv =>
      r ← exec_args (Z.to_nat MAXARG) (u32 uargv) 0;
      or_fail r (fun argv => Exec.exec fuel data path argv))).

Definition sys_pipe : M Z :=
  q ← argptr 0 8;
  or_fail q (fun fd =>
    '(r, fds) ← File.sys_pipe;
    match fds with
    | [fd0; fd1] => store_bytes fd (le32 fd0) ;; store_bytes (u32 (fd + 4)) (le32 fd1)
    | _ => mret tt
    end ;;
    mret r).

(** ** sysnet.c *)
Definition sys_ifset : M Z :=
  a ← argint 0;
  or_fail a (fun ip => b ← argint 1; or_fail b (fun netmask => c ← argint 2; or_fail c (fun gateway =>
    SockApi.sys_ifset (u32 ip) (u32 netmask) (u32 gateway)))).
Definition sys_ifconfig : M Z := SockApi.sys_ifconfig.
Definition sys_socket : M Z := a ← argint 0; or_fail a (fun t => SockApi.sys_socket t).
Definition sys_bind : M Z :=
  a ← argint 0;
  or_fail a (fun sockfd => b ← argint 1; or_fail b (fun addr => c ← argint 2; or_fail c (fun port =>
    SockApi.sys_bind sockfd (u32 addr) (u32 port)))).
Definition sys_listen : M Z := a ← argint 0; or_fail a SockApi.sys_listen.
Definition sys_connect : M Z :=
  a ← argint 0;
  or_fail a (fun sockfd => b ← argint 1; or_fail b (fun dst_addr => c ← argint 2; or_fail c (fun dst_port =>
    SockApi.sys_connect sockfd (u32 dst_addr) (u32 dst_port)))).
Definition sys_accept : M Z := a ← argint 0; or_fail a (SockApi.sys_accept).
Definition sys_test : M Z := a ← argint 0; or_fail a (fun _ => mret 0).
Definition sys_get_icmp_echo_reply_packet : M Z :=
  r ← gets icmp_reply_pkt_info;
  let srcip := s32 (NetUtils.htonl (ir_src_ip r)) in
  emit (EvPrint (Fs.show_int (ir_size r) ++ chars " bytes from " ++ NetUtils.dotted_quad (Z.land srcip 0xFF) (Z.land (Z.shiftr srcip 8) 0xFF)
    (Z.land (Z.shiftr srcip 16) 0xFF) (Z.land (Z.shiftr srcip 24) 0xFF) ++ chars ": icmp_seq=" ++ Fs.show_int (ir_seq_no r) ++ chars " ")) ;;
  mret 0.
Definition sys_icmp_send_echo_request : M Z :=
  a ← argint 0;
  or_fail a (fun dst_ip => b ← argint 1; or_fail b (fun seq_no => SockApi.sys_icmp_send_echo_request (u32 dst_ip) (u32 seq_no))).

(** ** The dispatcher *)
Definition syscalls : list (option (M Z)) :=
  [ None; Some sys_fork; Some sys_exit; Some sys_wait; Some sys_pipe; Some sys_read; Some sys_kill; Some sys_exec; Some sys_fstat;
    Some sys_chdir; Some sys_dup; Some sys_getpid; Some sys_sbrk; Some sys_sleep; Some sys_uptime; Some sys_open; Some sys_write;
    Some sys_mknod; Some sys_unlink; Some sys_link; Some sys_mkdir; Some sys_close; Some sys_ifset; Some sys_ifconfig;
    Some sys_socket; Some sys_bind; Some sys_listen; Some sys_connect; Some sys_accept; Some sys_test;
    Some sys_icmp_send_echo_request; Some SockApi.sys_get_icmp_echo_reply_status; Some sys_get_icmp_echo_reply_packet ].

Definition set_eax (i : nat) (v : Z) : M unit :=
  Proc.set_proc i (fun p => p <| p_tf := (p_tf p) <| tf_eax := u32 v |> |>).

Definition syscall : M unit :=
  i ← File.current;
  p ← Proc.get_proc i;
  let num := s32 (tf_eax (p_tf p)) in
  match (if (0 <? num) && (num <? Z.of_nat (length syscalls)) then default None (syscalls !! Z.to_nat num) else None) with
  | Some f => r ← f; set_eax i r
  | None =>
    emit (EvPrint (Fs.show_int (p_pid p) ++ chars " " ++ Receive.c_string (p_name p) ++
      chars ": unknown sys call " ++ Fs.show_int num ++ [10])) ;;
    set_eax i (-1)
  end.

End Code.

(** ** Arguments of exec *)
Section Fetch.
Context (s : kstate) (i : nat) (p : proc) (fr : list Z).
Hypothesis Hrun : Grow.running s i p.
Hypothesis Him : Grow.image s fr (p_pgdir p) (p_sz p).

Lemma ubyte_kbyte d va b : Vm.ubyte s d va = Some b -> kbyte (mem (kmem s)) d va = Some b.
Proof. unfold Vm.ubyte, kbyte, Vm.user. by destruct (Vm.has _ Vm.PTE_P), (Vm.has _ Vm.PTE_U). Qed.

Lemma fetchint_word addr v : 0 <= addr -> addr + 4 <= p_sz p -> Exec.uword s (p_pgdir p) addr v -> fetchint addr s = Ret (Some (s32 v)) s.
Proof.
  intros Ha Hsz Hw. pose proof (Grow.im_size _ _ _ _ Him). unfold KERNBASE in *.
  destruct (fetchint_ok s i p fr Hrun Him addr) as [[? _]|(_&l&Hl&Hs&E)]; [lia|lia|]. rewrite E. assert (Hv : s32 (get32 l 0) = s32 v); [|by rewrite Hv].
  assert (l = le32 v) as ->.
  { apply list_eq. intros k. destruct (le32 v !! k) as [b|] eqn:Hk.
    - pose proof (ubyte_kbyte _ _ _ (Hw k b Hk)) as Hb. destruct (lookup_lt_is_Some_2 l k) as [c Hc].
      { rewrite Hl. by apply lookup_lt_Some in Hk. }
      pose proof (Hs k c Hc). congruence.
    - apply lookup_ge_None. rewrite Hl. by apply lookup_ge_None in Hk. }
  rewrite <- (app_nil_r (le32 v)), get32_le32. unfold s32, u32. by rewrite Zplus_mod_idemp_l.
Qed.

Lemma fetchstr_string addr a : 0 <= addr -> addr + Z.of_nat (length a) < p_sz p -> Forall (fun b => b <> 0) a ->
  Exec.ubytes s (p_pgdir p) addr (a ++ [0]) -> fetchstr addr s = Ret (Some a) s.
Proof.
  intros Ha Hsz Hnz Hb. pose proof (Grow.im_size _ _ _ _ Him). unfold KERNBASE in *.
  assert (Hbyte : forall k b, a !! k = Some b -> kbyte (mem (kmem s)) (p_pgdir p) (addr + Z.of_nat k) = Some b).
  { intros k b Hk. apply ubyte_kbyte, Hb. by apply lookup_app_l_Some. }
  assert (Hend : kbyte (mem (kmem s)) (p_pgdir p) (addr + Z.of_nat (length a)) = Some 0).
  { apply ubyte_kbyte, Hb. by apply list_lookup_middle. }
  destruct (fetchstr_ok s i p fr Hrun Him addr) as (r&E&Hr); [lia|]. rewrite E. f_equal. destruct r as [t|].
  2:{ exfalso. apply (Hr (addr + Z.of_nat (length a))); [lia|done]. }
  destruct Hr as [H1 H2 H3 _]. rewrite Forall_lookup in H2, Hnz.
  assert (Hlen : length t = length a).
  { destruct (Nat.lt_total (length t) (length a)) as [Hlt|[?|Hgt]]; [exfalso|done|exfalso].
    - destruct (lookup_lt_is_Some_2 a (length t) Hlt) as [b Hk]. apply (Hnz _ _ Hk). pose proof (Hbyte _ _ Hk). congruence.
    - destruct (lookup_lt_is_Some_2 t (length a) Hgt) as [b Hk]. apply (H2 _ _ Hk). pose proof (H1 _ _ Hk). congruence. }
  f_equal. apply list_eq_same_length with (length a); [done|done|]. intros k x y _ Hx Hy. pose proof (Hbyte _ _ Hy). pose proof (H1 _ _ Hx). congruence.
Qed.

(** The vector at [u] with the strings it points to. *)
Lemma exec_args_ok argv ps u n j : (length argv < n)%nat -> length ps = length argv -> 0 <= u -> u + 4 * (j + Z.of_nat (length argv)) + 4 <= p_sz p -> 0 <= j ->
  (forall k q a, ps !! k = Some q -> argv !! k = Some a -> Exec.uword s (p_pgdir p) (u + 4 * (j + Z.of_nat k)) q /\
     0 < q /\ q + Z.of_nat (length a) < p_sz p /\ Forall (fun b => b <> 0) a /\ Exec.ubytes s (p_pgdir p) q (a ++ [0])) ->
  Exec.uword s (p_pgdir p) (u + 4 * (j + Z.of_nat (length argv))) 0 ->
  exec_args n u j s = Ret (Some argv) s.
Proof.
  pose proof (Grow.im_size _ _ _ _ Him) as Hs. unfold KERNBASE in Hs.
  assert (Hs32 : forall v, 0 <= v < 2 ^ 31 -> s32 v = v) by (intros v Hv; unfold s32; rewrite Z.mod_small; lia).
  revert argv ps j. induction n as [|n IH]; intros argv ps j Hn Hl Hu Hsz Hj Hv Hz; [lia|]. cbn [exec_args]. rewrite u32_small by lia.
  destruct argv as [|a argv].
  - cbn in Hz. rewrite Z.add_0_r in Hz. erewrite bind_ret by (apply fetchint_word; [lia|cbn in Hsz; lia|exact Hz]). done.
  - destruct ps as [|q ps]; [done|]. cbn [length] in *. destruct (Hv 0%nat q a eq_refl eq_refl) as (H1&H2&H3&H4&H5). rewrite Z.add_0_r in H1.
    erewrite bind_ret by (apply fetchint_word; [lia|lia|exact H1]). rewrite Hs32 by lia. rewrite (proj2 (Z.eqb_neq q 0)) by lia.
    rewrite u32_small by lia. erewrite bind_ret by (by apply fetchstr_string; [lia|..]).
    cbv beta iota. rewrite (bind_ret _ _ _ (Some argv) s); [done|]. apply (IH argv ps); [lia|lia|lia|lia|lia| |].
    + intros k q' a' Hq' Ha'. destruct (Hv (S k) q' a' Hq' Ha') as (G1&G). split; [|done]. by replace (j + 1 + Z.of_nat k) with (j + Z.of_nat (S k)) by lia.
    + by replace (j + 1 + Z.of_nat (length argv)) with (j + Z.of_nat (S (length argv))) by lia.
Qed.

End Fetch.

(** ** Theorems *)

(** C25: the arguments of a program come back from its stack: after exec has
    pushed them, [exec_args], which fetches the arguments of the system call,
    reads the same strings from the argv of the new program.  So a program that
    calls exec with its own argv passes its arguments on unchanged. *)
Theorem exec_arguments_roundtrip argv s i p fr :
  Grow.running s i p -> Grow.image s fr (p_pgdir p) (p_sz p) -> PGSIZE <= p_sz p -> p_sz p `mod` 4 = 0 ->
  (forall va, p_sz p - PGSIZE <= va < p_sz p -> Vm.user (Vm.pte (mem (kmem s)) (p_pgdir p) va) = true) ->
  Forall (Forall (fun b => b <> 0)) argv -> (length argv < Z.to_nat MAXARG)%nat ->
  let sp := fst (Exec.layout (p_sz p) argv) - (Z.of_nat (length argv) + 4) * 4 in
  p_sz p - PGSIZE < sp ->
  exists s', Exec.push_stack (p_pgdir p) (p_sz p) argv s = Ret (Some sp) s' /\
    Exec.uword s' (p_pgdir p) (sp + 8) (sp + 12) /\ exec_args (Z.to_nat MAXARG) (sp + 12) 0 s' = Ret (Some argv) s'.
Proof.
  intros Hrun Him Hsz Hal Hu Hnz Hn sp Hsp. pose proof (Grow.im_size _ _ _ _ Him) as Hk. unfold KERNBASE, MAXARG, PGSIZE in *.
  pose proof (Exec.push_stack_ok argv s (p_pgdir p) fr (p_sz p)) as H. pose proof (Exec.layout_le (p_sz p) argv) as Hle.
  unfold sp in *. destruct (Exec.layout (p_sz p) argv) as [low ps] eqn:El. cbn [fst] in *.
  destruct H as (s'&E&Hst&_&_&H8&Hj&Hl&Hz); [apply Him|apply Him|unfold PGSIZE; lia|done|done|unfold MAXARG; lia|unfold PGSIZE; lia|].
  exists s'. split_and!; [done|done|].
  destruct (Space.confined_at _ _ _ _ (Exec.confined_push_stack _ _ _) E) as [Es He].
  assert (Hrun' : Grow.running s' i p) by (rewrite Es; by destruct Hrun).
  assert (Him' : Grow.image s' fr (p_pgdir p) (p_sz p)).
  { destruct Him as [I1 I2 I3 I4 I5], Hst as [S1 S2 S3 S4]. split; [done|done|by rewrite He|done|]. intros va Hva. rewrite S3. by apply I5. }
  apply (exec_args_ok s' i p fr Hrun' Him' argv ps); [lia|done|lia|lia|lia| |].
  - intros k q a Hq Ha. destruct (Hj k q a Hq Ha) as (J1&J2&J3&J4&J5). rewrite Forall_lookup in Hnz.
    split_and!; [done|lia|lia|by eapply Hnz|done].
  - done.
Qed.

(** A system call number outside the table changes only the result: -1. *)
Theorem unknown_syscall `{Devices} `{Stack} fuel data s i p :
  curproc s = Some i -> ptable s !! i = Some p -> ~ (1 <= s32 (tf_eax (p_tf p)) <= 32) ->
  exists s', syscall fuel data s = Ret tt s' /\ kmem s' = kmem s /\
    ptable s' = alter (fun p => p <| p_tf := (p_tf p) <| tf_eax := 0xffffffff |> |>) i (ptable s).
Proof.
  intros Hc Hp Hn. unfold syscall. rewrite (File.bind_current i) by done. erewrite bind_ret by (by apply Proc.get_proc_ok). cbv zeta.
  set (num := s32 _) in *. change (Z.of_nat (length (syscalls fuel data))) with 33.
  replace ((0 <? num) && (num <? 33)) with false by (symmetry; apply andb_false_iff; rewrite !Z.ltb_ge; lia). by eexists.
Qed.

(** ** Witnesses *)
Lemma exec_arguments_roundtrip_witness :
  exists s' sp, Exec.push_stack Vm.demo_dir 4096 [chars "echo"; chars "hi"] Grow.demo_grow = Ret (Some sp) s' /\
    exec_args (Z.to_nat MAXARG) (sp + 12) 0 s' = Ret (Some [chars "echo"; chars "hi"]) s'.
Proof.
  destruct Grow.demo_image as [fr Hi]. 
  destruct (exec_arguments_roundtrip [chars "echo"; chars "hi"] Grow.demo_grow 0 Grow.demo_proc fr Grow.demo_grow_running Hi) as (s'&E&_&H).
  - vm_compute. discriminate.
  - reflexivity.
  - exact Grow.demo_stack.
  - repeat constructor; discriminate.
  - vm_compute. lia.
  - vm_compute. reflexivity.
  - exists s'. eexists. split; [exact E|exact H].
Defined.

End Syscall.
