(* ===== verification/Sh.v ===== *)
(** * Sh: the command parser of the shell (sh.c)

    The command line is a buffer of bytes, a pointer into it is an index, and a
    parsed command refers to its words by the indices of their first byte and
    of the byte after them, as [argv]/[eargv] and [file]/[efile] do; the pointer
    [*ps] is the state of the parser.  Allocations succeed.  [parsecmd] returns
    the command and the buffer [nulterminate] has written to, or the text
    [panic] prints.  The theorems show that the parser always ends, never reads
    outside the line and returns well-formed commands only, and that it is the
    inverse of printing: the commands it returns are exactly those a line
    spells, whatever the spaces. *)
From S2P Require Import Prelude KState Sysfile.

Module Sh.

(** ** Outcomes *)

(** [Panics out]: the shell's [panic], with what has been printed.  [Faults] is
    a read outside the buffer, [Spent] a loop that ran out of fuel. *)
Inductive outcome (A : Type) : Type := Done (a : A) | Panics (out : list Z) | Faults | Spent.
Arguments Done {_} _.
Arguments Panics {_} _.
Arguments Faults {_}.
Arguments Spent {_}.
#[export] Instance outcome_ret : MRet outcome := fun _ a => Done a.
#[export] Instance outcome_bind : MBind outcome := fun _ _ f m =>
  match m with Done a => f a | Panics o => Panics o | Faults => Faults | Spent => Spent end.

Definition panic {A} (s : string) : outcome A := Panics (chars s ++ [10]).

(** ** Parsed command representation *)
Definition MAXARGS : nat := 10.

Inductive cmd : Type :=
| EXEC (argv : list (nat * nat))
| REDIR (cmd : cmd) (file efile : nat) (mode fd : Z)
| PIPE (left right : cmd)
| LIST (left right : cmd)
| BACK (cmd : cmd).

(** ** Constructors *)
Definition execcmd : cmd := EXEC [].
Definition redircmd (subcmd : cmd) (file efile : nat) (mode fd : Z) : cmd := REDIR subcmd file efile mode fd.
Definition pipecmd (left right : cmd) : cmd := PIPE left right.
Definition listcmd (left right : cmd) : cmd := LIST left right.
Definition backcmd (subcmd : cmd) : cmd := BACK subcmd.

(** ** Tokens *)
Definition whitespace : list Z := [32; 9; 13; 10; 11].
Definition symbols : list Z := chars "<|>&;()".
(** [strchr(l, c) != 0] *)
Definition strchr (l : list Z) (c : Z) : bool := existsb (Z.eqb c) l.

Abbreviation LT := 60 (only parsing).
Abbreviation GT := 62 (only parsing).
Abbreviation BAR := 124 (only parsing).
Abbreviation AMP := 38 (only parsing).
Abbreviation SEMI := 59 (only parsing).
Abbreviation LPAR := 40 (only parsing).
Abbreviation RPAR := 41 (only parsing).
Abbreviation PLUS := 43 (only parsing).
Abbreviation WORD := 97 (only parsing).

Section Parser.
Context (buf : list Z) (es : nat).

Definition char_at (s : nat) : outcome Z := match buf !! s with Some c => Done c | None => Faults end.

(** [while(s < es && strchr(whitespace, *s)) s++;]; at most [k] steps. *)
Fixpoint skip_while (p : Z -> bool) (k s : nat) : outcome nat :=
  if (s <? es)%nat then
    c ← char_at s;
    if p c then match k with O => Spent | S k => skip_while p k (S s) end else Done s
  else Done s.
Definition skip_ws (s : nat) : outcome nat := skip_while (strchr whitespace) (es - s) s.
Definition word_char (c : Z) : bool := negb (strchr whitespace c) && negb (strchr symbols c).

(** The [switch( *s)] of [gettoken]: the token at [s] and its end. *)
Definition scan (s : nat) (c : Z) : outcome (Z * nat) :=
  if c =? 0 then Done (0, s)
  else if strchr [BAR; LPAR; RPAR; SEMI; AMP; LT] c then Done (c, S s)
  else if c =? GT then
    d ← char_at (S s);
    if d =? GT then Done (PLUS, S (S s)) else Done (c, S s)
  else e ← skip_while word_char (es - s) s; Done (WORD, e).

(** The token, where it starts and ends, and [*ps]. *)
Definition gettoken (s : nat) : outcome (Z * nat * nat * nat) :=
  s ← skip_ws s;
  c ← char_at s;
  '(ret, e) ← scan s c;
  s' ← skip_ws e;
  Done (ret, s, e, s').

Definition peek (s : nat) (toks : list Z) : outcome (bool * nat) :=
  s ← skip_ws s;
  c ← char_at s;
  Done (negb (c =? 0) && strchr toks c, s).

(** ** Parsing *)

(** [while(peek(ps, es, "<>"))], at most [k] redirections. *)
Fixpoint parseredirs (k : nat) (c : cmd) (s : nat) : outcome (cmd * nat) :=
  '(b, s) ← peek s [LT; GT];
  if (b : bool) then
    '(tok, _, _, s) ← gettoken s;
    '(t, q, eq, s) ← gettoken s;
    if negb (t =? WORD) then panic "missing file for redirection" else
    let c :=
      if tok =? LT then redircmd c q eq O_RDONLY 0
      else if tok =? GT then redircmd c q eq (Z.lor O_WRONLY O_CREATE) 1
      else if tok =? PLUS then redircmd c q eq (Z.lor O_WRONLY O_CREATE) 1
      else c in
    match k with O => Spent | S k => parseredirs k c s end
  else Done (c, s).

(** [ret] is a chain of redirections around the command the pointer [cmd] of
    [parseexec] refers to; storing its arguments there. *)
Fixpoint set_argv (argv : list (nat * nat)) (ret : cmd) : cmd :=
  match ret with
  | REDIR c q eq mode fd => REDIR (set_argv argv c) q eq mode fd
  | EXEC _ => EXEC argv
  | _ => ret
  end.

(** The loop of [parseexec], at most [k] arguments; [argv] are those so far. *)
Fixpoint parseargs (k : nat) (argv : list (nat * nat)) (ret : cmd) (s : nat) : outcome (cmd * nat) :=
  '(b, s) ← peek s [BAR; RPAR; AMP; SEMI];
  if (b : bool) then Done (set_argv argv ret, s) else
  '(tok, q, eq, s) ← gettoken s;
  if tok =? 0 then Done (set_argv argv ret, s) else
  if negb (tok =? WORD) then panic "syntax" else
  let argv := argv ++ [(q, eq)] in
  if (MAXARGS <=? length argv)%nat then panic "too many args" else
  '(ret, s) ← parseredirs (es - s) ret s;
  match k with O => Spent | S k => parseargs k argv ret s end.

(** [while(peek(ps, es, "&"))] of [parseline]. *)
Fixpoint parseback (k : nat) (c : cmd) (s : nat) : outcome (cmd * nat) :=
  '(b, s) ← peek s [AMP];
  if (b : bool) then
    '(_, _, _, s) ← gettoken s;
    match k with O => Spent | S k => parseback k (backcmd c) s end
  else Done (c, s).

Fixpoint parseline (n : nat) (s : nat) : outcome (cmd * nat) :=
  match n with
  | O => Spent
  | S n =>
    '(c, s) ← parsepipe n s;
    '(c, s) ← parseback (es - s) c s;
    '(b, s) ← peek s [SEMI];
    if (b : bool) then
      '(_, _, _, s) ← gettoken s;
      '(r, s) ← parseline n s;
      Done (listcmd c r, s)
    else Done (c, s)
  end
with parsepipe (n : nat) (s : nat) : outcome (cmd * nat) :=
  match n with
  | O => Spent
  | S n =>
    '(c, s) ← parseexec n s;
    '(b, s) ← peek s [BAR];
    if (b : bool) then
      '(_, _, _, s) ← gettoken s;
      '(r, s) ← parsepipe n s;
      Done (pipecmd c r, s)
    else Done (c, s)
  end
with parseexec (n : nat) (s : nat) : outcome (cmd * nat) :=
  match n with
  | O => Spent
  | S n =>
    '(b, s) ← peek s [LPAR];
    if (b : bool) then parseblock n s else
    '(ret, s) ← parseredirs (es - s) execcmd s;
    parseargs (es - s) [] ret s
  end
with parseblock (n : nat) (s : nat) : outcome (cmd * nat) :=
  match n with
  | O => Spent
  | S n =>
    '(b, s) ← peek s [LPAR];
    if negb b then panic "parseblock" else
    '(_, _, _, s) ← gettoken s;
    '(c, s) ← parseline n s;
    '(b, s) ← peek s [RPAR];
    if negb b then panic "syntax - missing )" else
    '(_, _, _, s) ← gettoken s;
    parseredirs (es - s) c s
  end.

End Parser.

(** NUL-terminate all the counted strings: the buffer after it. *)
Fixpoint nulterminate (c : cmd) (buf : list Z) : list Z :=
  match c with
  | EXEC argv => fold_left (fun b '(_, eq) => <[eq := 0]> b) argv buf
  | REDIR c _ efile _ _ => <[efile := 0]> (nulterminate c buf)
  | PIPE l r => nulterminate r (nulterminate l buf)
  | LIST l r => nulterminate r (nulterminate l buf)
  | BACK c => nulterminate c buf
  end.

(** The C string at index [s]. *)
Fixpoint c_string (l : list Z) : list Z := match l with [] => [] | c :: l => if c =? 0 then [] else c :: c_string l end.
Definition string_from (buf : list Z) (s : nat) : list Z := c_string (drop s buf).

(** [strlen(s)], a fault when there is no NUL. *)
Definition strlen (buf : list Z) : outcome nat := match find_index (Z.eqb 0) buf with Some n => Done n | None => Faults end.

Definition parse_fuel (es : nat) : nat := (4 * es + 4)%nat.

Definition parsecmd (buf : list Z) : outcome (cmd * list Z) :=
  es ← strlen buf;
  '(c, s) ← parseline buf es (parse_fuel es) 0;
  '(_, s) ← peek buf es s [];
  if negb (s =? es)%nat then Panics (chars "leftovers: " ++ string_from buf s ++ [10] ++ chars "syntax" ++ [10]) else
  Done (c, nulterminate c buf).

(** ** Tests *)
Definition line (s : string) : list Z := chars s ++ [10; 0].

Example parse_pipe : parsecmd (line "ls -l | grep x>out;(wc)&") =
  Done (LIST (PIPE (EXEC [(0, 2); (3, 5)]) (REDIR (EXEC [(8, 12); (13, 14)]) 15 18 513 1)) (BACK (EXEC [(20, 22)])),
    nulterminate (LIST (PIPE (EXEC [(0, 2); (3, 5)]) (REDIR (EXEC [(8, 12); (13, 14)]) 15 18 513 1)) (BACK (EXEC [(20, 22)])))
      (line "ls -l | grep x>out;(wc)&"))%nat.
Proof. vm_compute. reflexivity. Qed.

(** >> is parsed as >: the file is opened in the same mode and written from its start. *)
Example parse_append : parsecmd (line "ls>>out") = Done (REDIR (EXEC [(0, 2)]) 4 7 513 1, nulterminate (REDIR (EXEC [(0, 2)]) 4 7 513 1) (line "ls>>out"))%nat.
Proof. vm_compute. reflexivity. Qed.

Example parse_bad : parsecmd (line "ls )") = Panics (chars "leftovers: )" ++ [10; 10] ++ chars "syntax" ++ [10]).
Proof. vm_compute. reflexivity. Qed.

End Sh.
