(* ===== verification/ShParse.v ===== *)
(** * ShParse: the shell's parser inverts printing (sh.c)

    Lines as sequences of tokens with any white space between them; what
    [gettoken] and [peek] do on them; the language of commands as a printer from
    trees to tokens, with parentheses where the grammar needs them.  The
    theorems are the two directions: every line is parsed to a well-formed
    command or refused, and a line that spells a tree is parsed to that tree,
    its words NUL-terminated in the buffer. *)
From S2P Require Import Prelude KState Sysfile Sh.

Module ShParse.
Import Sh.

(** ** Tokens of a text *)

(** A symbol ([PLUS] is >>) or a word. *)
Inductive tok : Type := Sym (c : Z) | Word (w : list Z).
(** What [gettoken] returns. *)
Definition code (t : tok) : Z := match t with Sym c => c | Word _ => WORD end.
(** The text of a token. *)
Definition text (t : tok) : list Z := match t with Sym c => if c =? PLUS then [GT; GT] else [c] | Word w => w end.

(** The bytes of a word. *)
Definition wordc (c : Z) : bool := word_char c && negb (c =? 0).
Definition syms : list Z := [BAR; LPAR; RPAR; SEMI; AMP; LT; GT; PLUS].
Definition tok_ok (t : tok) : Prop :=
  match t with Sym c => c ∈ syms | Word w => w <> [] /\ Forall (fun c => wordc c = true) w end.

(** A token may stand before [l]: a word ends where [l] starts, > is not >>. *)
Definition apart (t : tok) (l : list Z) : Prop :=
  match t with
  | Word _ => forall c l', l = c :: l' -> wordc c = false
  | Sym c => c = GT -> forall l', l <> GT :: l'
  end.

(** The text [l] spells the tokens, with any white space around them. *)
Fixpoint spells (l : list Z) (ts : list tok) : Prop :=
  match ts with
  | [] => Forall (fun c => strchr whitespace c = true) l
  | t :: ts => exists ws l', l = ws ++ text t ++ l' /\ Forall (fun c => strchr whitespace c = true) ws /\ tok_ok t /\ apart t l' /\ spells l' ts
  end.

(** One space after every token. *)
Definition render (ts : list tok) : list Z := concat ((fun t => text t ++ [32]) <$> ts).

Lemma spells_render ts : Forall tok_ok ts -> spells (render ts) ts.
Proof.
  induction ts as [|t ts IH]; intros H; [constructor|]. apply Forall_cons in H as [Ht H].
  exists [], (32 :: render ts). split; [unfold render; cbn; by rewrite <- app_assoc|]. split; [done|]. split; [done|]. split.
  - destruct t as [c|w]; cbn; [by intros|]. intros c l' [= <- _]. reflexivity.
  - destruct ts as [|t' ts']; [by repeat constructor|]. destruct (IH H) as (ws&l'&E&Hw&Hr). exists (32 :: ws), l'. rewrite E.
    split; [done|]. split; [by constructor|done].
Qed.

Fixpoint drop_while (p : Z -> bool) (l : list Z) : list Z :=
  match l with [] => [] | c :: r => if p c then drop_while p r else l end.
Definition trim (l : list Z) : list Z := drop_while (strchr whitespace) l.

Lemma drop_while_all p ws l : Forall (fun c => p c = true) ws -> drop_while p (ws ++ l) = drop_while p l.
Proof. induction 1 as [|c ws Hc Hw IH]; [done|]. cbn. by rewrite Hc. Qed.
Lemma drop_while_stop p l : (forall c l', l = c :: l' -> p c = false) -> drop_while p l = l.
Proof. intros H. destruct l as [|c l]; [done|]. cbn. by rewrite (H c l). Qed.
Lemma drop_while_length p l : (length (drop_while p l) <= length l)%nat.
Proof. induction l as [|d l IH]; cbn; [lia|]. destruct (p d); [lia|cbn; lia]. Qed.
Lemma drop_while_split p l : exists ws, l = ws ++ drop_while p l /\ Forall (fun c => p c = true) ws /\ forall c l', drop_while p l = c :: l' -> p c = false.
Proof.
  induction l as [|c l (ws&E&Hw&Hs)]; cbn; [by exists []|]. destruct (p c) eqn:Hp.
  - exists (c :: ws). split; [by rewrite E at 1|]. split; [by constructor|done].
  - exists []. split; [done|]. split; [done|]. by intros d l' [= <- _].
Qed.

(** [tok_ok], [apart] and [spells] as tests. *)
Definition tok_okb (t : tok) : bool :=
  match t with Sym c => bool_decide (c ∈ syms) | Word w => negb (bool_decide (w = [])) && forallb wordc w end.
Definition apartb (t : tok) (l : list Z) : bool :=
  match t, l with Word _, c :: _ => negb (wordc c) | Sym c, d :: _ => negb ((c =? GT) && (d =? GT)) | _, [] => true end.
Fixpoint spellsb (l : list Z) (ts : list tok) : bool :=
  match ts with
  | [] => forallb (strchr whitespace) l
  | t :: ts =>
    let l' := drop (length (text t)) (trim l) in
    bool_decide (trim l = text t ++ l') && tok_okb t && apartb t l' && spellsb l' ts
  end.

Lemma tok_okb_ok t : tok_okb t = true -> tok_ok t.
Proof.
  destruct t as [c|w]; cbn; [apply bool_decide_eq_true|]. intros [H1 H2]%andb_true_iff. apply negb_true_iff, bool_decide_eq_false in H1.
  split; [done|]. apply Forall_forall. intros c Hc. rewrite forallb_forall in H2. apply H2. by apply list_elem_of_In.
Qed.
Lemma apartb_ok t l : apartb t l = true -> apart t l.
Proof.
  destruct t as [c|w], l as [|d l]; cbn; intros H; try done; [|by intros c l' [= <- <-]; apply negb_true_iff]. intros -> l' [= -> ->]. done.
Qed.
Lemma spellsb_ok l ts : spellsb l ts = true -> spells l ts.
Proof.
  revert l. induction ts as [|t ts IH]; intros l; cbn.
  - intros H. apply Forall_forall. intros c Hc. rewrite forallb_forall in H. apply H. by apply list_elem_of_In.
  - intros [[[E%bool_decide_eq_true Ht%tok_okb_ok]%andb_true_iff Ha%apartb_ok]%andb_true_iff Hs%IH]%andb_true_iff.
    destruct (drop_while_split (strchr whitespace) l) as (ws&El&Hw&_). fold (trim l) in El. rewrite E in El. by eexists ws, _.
Qed.

(** The first byte of a token is never white space. *)
Lemma text_head t l : tok_ok t -> exists c l', text t ++ l = c :: l' /\ strchr whitespace c = false /\ c <> 0.
Proof.
  destruct t as [c|[|c w]]; cbn [text tok_ok app]; [|by intros [? _]|].
  - intros H. unfold syms in H. rewrite !elem_of_cons, elem_of_nil in H.
    repeat (destruct H as [->|H]; [by eexists _, _|]). done.
  - intros [_ H]. apply Forall_cons in H as [H _]. unfold wordc, word_char in H. eexists _, _. split; [done|].
    destruct (strchr whitespace c); [done|]. split; [done|]. intros ->. by rewrite andb_false_r in H.
Qed.

Lemma spells_trim l ts : spells l ts -> spells (trim l) ts.
Proof.
  destruct ts as [|t ts]; cbn.
  - intros H. unfold trim. rewrite <- (app_nil_r l), drop_while_all by done. constructor.
  - intros (ws&l'&->&Hw&Ht&Ha&Hs). exists [], l'. split; [|done]. unfold trim. rewrite drop_while_all by done.
    destruct (text_head t l' Ht) as (c&r&E&Hc&_). rewrite E. apply drop_while_stop. by intros ? ? [= <- _].
Qed.

(** Every text spells some tokens. *)
Lemma spells_some l : Forall (fun c => c <> 0) l -> exists ts, spells l ts.
Proof.
  remember (length l) as n eqn:Hn. revert l Hn. induction n as [n IH] using lt_wf_ind. intros l -> Hnz.
  destruct (drop_while_split (strchr whitespace) l) as (ws&E&Hw&Hs). destruct (drop_while _ l) as [|c r] eqn:Ed.
  { exists []. cbn. rewrite E, app_nil_r. done. }
  assert (Hc : strchr whitespace c = false) by (by eapply Hs). rewrite E, Forall_app, Forall_cons in Hnz. destruct Hnz as (_&Hc0&Hr).
  assert (Hlt : (length r < length l)%nat) by (rewrite E, length_app; cbn; lia).
  assert (Hadd : forall t l', tok_ok t -> text t ++ l' = c :: r -> apart t l' -> Forall (fun c => c <> 0) l' -> (length l' <= length r)%nat -> exists ts, spells l ts).
  { intros t l' Ht Et Ha Hl' Hle. destruct (IH (length l')) with (l := l') as [ts Hts]; [lia|done|done|].
    exists (t :: ts), ws, l'. by rewrite Et. }
  destruct (decide (c = GT)) as [->|Hgt].
  { destruct r as [|d r]; [by apply (Hadd (Sym GT) []); [set_solver|..]|]. apply Forall_cons in Hr as [Hd Hr]. destruct (decide (d = GT)) as [->|Hd'].
    - apply (Hadd (Sym PLUS) r); [set_solver|done|done|done|cbn; lia].
    - apply (Hadd (Sym GT) (d :: r)); [set_solver|done| |by constructor|done]. intros _ l' [= ? _]. done. }
  destruct (strchr symbols c) eqn:Hsym.
  { apply (Hadd (Sym c) r); [|cbn|by cbn|done|done].
    - unfold strchr, symbols in Hsym. cbn in Hsym. change (c ∈ syms). unfold syms. rewrite !orb_true_iff, !Z.eqb_eq in Hsym.
      rewrite !elem_of_cons. destruct Hsym as [?|[?|[?|[?|[?|[?|[?|?]]]]]]]; tauto || done.
    - destruct (Z.eqb_spec c PLUS) as [->|]; [done|done]. }
  destruct (drop_while_split wordc (c :: r)) as (w&Ew&Hww&Hst). apply (Hadd (Word w) (drop_while wordc (c :: r))).
  - assert (Hcw : wordc c = true) by (unfold wordc, word_char; rewrite Hc, Hsym; by apply Z.eqb_neq in Hc0; rewrite Hc0).
    split; [|done]. destruct w as [|d w]; [|done]. by rewrite (Hst c r (eq_sym Ew)) in Hcw.
  - done.
  - exact Hst.
  - assert (Hall : Forall (fun c => c <> 0) (c :: r)) by (by constructor). rewrite Ew in Hall. apply Forall_app in Hall as [_ ?]. done.
  - assert (Hcw : wordc c = true) by (unfold wordc, word_char; rewrite Hc, Hsym; by apply Z.eqb_neq in Hc0; rewrite Hc0).
    cbn. rewrite Hcw. apply drop_while_length.
Qed.

Lemma spells_length l ts : spells l ts -> (length ts <= length l)%nat.
Proof.
  revert l. induction ts as [|t ts IH]; intros l; cbn; [lia|]. intros (ws&l'&->&_&Ht&_&Hs). apply IH in Hs.
  destruct (text_head t l' Ht) as (c&r&E&_). rewrite E, length_app. cbn. apply (f_equal length) in E. rewrite length_app in E. cbn in E.
  assert (length (text t) <> 0%nat) by (destruct t as [d|[|]]; cbn in *; [by destruct (d =? PLUS)|by destruct Ht|done]). lia.
Qed.

(** ** Commands *)

(** A command with its words; [out] tells > from <. *)
Inductive tree : Type :=
| TExec (argv : list (list Z))
| TRedir (t : tree) (file : list Z) (out : bool)
| TPipe (l r : tree)
| TList (l r : tree)
| TBack (t : tree).

Definition mode_of (out : bool) : Z := if out then Z.lor O_WRONLY O_CREATE else O_RDONLY.
Definition fd_of (out : bool) : Z := if out then 1 else 0.

(** Trees that can be written down. *)
Fixpoint tree_ok (t : tree) : Prop :=
  match t with
  | TExec argv => (length argv < MAXARGS)%nat /\ Forall (fun w => tok_ok (Word w)) argv
  | TRedir t file _ => tree_ok t /\ tok_ok (Word file)
  | TPipe l r => tree_ok l /\ tree_ok r
  | TList l r => tree_ok l /\ tree_ok r
  | TBack t => tree_ok t
  end.

(** A redirection as tokens. *)
Definition redir (r : list Z * bool) : list tok := [Sym (if r.2 then GT else LT); Word r.1].

(** The tokens of a tree where the grammar wants a simple command (0), a
    pipeline (1), a pipeline with & (2) or a whole line (3). *)
Fixpoint print (level : nat) (t : tree) : list tok :=
  let '(own, l) := match t with
    | TExec argv => (0%nat, Word <$> argv)
    | TRedir t file out => (0%nat, print 0 t ++ redir (file, out))
    | TPipe l r => (1%nat, print 0 l ++ Sym BAR :: print 1 r)
    | TBack t => (2%nat, print 2 t ++ [Sym AMP])
    | TList l r => (3%nat, print 2 l ++ Sym SEMI :: print 3 r)
    end in
  if (own <=? level)%nat then l else Sym LPAR :: l ++ [Sym RPAR].

(** A simple command without its redirections, and these. *)
Fixpoint spine (t : tree) : tree * list (list Z * bool) :=
  match t with
  | TRedir t file out => let '(b, rs) := spine t in (b, rs ++ [(file, out)])
  | _ => (t, [])
  end.

Lemma print_spine t : print 0 t = print 0 (spine t).1 ++ concat (redir <$> (spine t).2).
Proof.
  induction t as [argv|t IH file out|l _ r _|l _ r _|t _]; cbn [spine fst snd fmap list_fmap concat]; try by rewrite app_nil_r.
  destruct (spine t) as [b rs]. cbn [fst snd] in *. cbn [print Nat.leb]. by rewrite IH, fmap_app, concat_app, <- app_assoc.
Qed.
Lemma spine_ok t : tree_ok t -> tree_ok (spine t).1 /\ Forall (fun r => tok_ok (Word r.1)) (spine t).2.
Proof.
  induction t as [argv|t IH file out|l _ r _|l _ r _|t _]; try done. cbn. intros [H1 H2]. destruct (spine t) as [b rs]. destruct (IH H1) as [H3 H4].
  split; [done|]. cbn in *. apply Forall_app. split; [done|]. by apply Forall_singleton.
Qed.
Lemma spine_base t : (forall argv, (spine t).1 <> TExec argv) -> exists l, print 3 (spine t).1 = l /\ print 0 (spine t).1 = Sym LPAR :: l ++ [Sym RPAR].
Proof.
  induction t as [argv|t IH file out|l _ r _|l _ r _|t _]; cbn [spine fst]; intros H; try (eexists; split; reflexivity); [by destruct (H argv)|].
  destruct (spine t). by apply IH.
Qed.

(** ** Unfolding the parser *)
Lemma parseline_S buf es n s : parseline buf es (S n) s = (
    '(c, s) ← parsepipe buf es n s;
    '(c, s) ← parseback buf es (es - s) c s;
    '(b, s) ← peek buf es s [SEMI];
    if (b : bool) then
      '(_, _, _, s) ← gettoken buf es s;
      '(r, s) ← parseline buf es n s;
      Done (LIST c r, s)
    else Done (c, s)).
Proof. reflexivity. Qed.
Lemma parsepipe_S buf es n s : parsepipe buf es (S n) s = (
    '(c, s) ← parseexec buf es n s;
    '(b, s) ← peek buf es s [BAR];
    if (b : bool) then
      '(_, _, _, s) ← gettoken buf es s;
      '(r, s) ← parsepipe buf es n s;
      Done (PIPE c r, s)
    else Done (c, s)).
Proof. reflexivity. Qed.
Lemma parseexec_S buf es n s : parseexec buf es (S n) s = (
    '(b, s) ← peek buf es s [LPAR];
    if (b : bool) then parseblock buf es n s else
    '(ret, s) ← parseredirs buf es (es - s) (EXEC []) s;
    parseargs buf es (es - s) [] ret s).
Proof. reflexivity. Qed.
Lemma parseblock_S buf es n s : parseblock buf es (S n) s = (
    '(b, s) ← peek buf es s [LPAR];
    if negb b then panic "parseblock" else
    '(_, _, _, s) ← gettoken buf es s;
    '(c, s) ← parseline buf es n s;
    '(b, s) ← peek buf es s [RPAR];
    if negb b then panic "syntax - missing )" else
    '(_, _, _, s) ← gettoken buf es s;
    parseredirs buf es (es - s) c s).
Proof. reflexivity. Qed.

(** ** The lexer *)
Section Buffer.
Context (buf : list Z) (es : nat).
Hypothesis Hnul : buf !! es = Some 0.

(** [l] is the text from [s] to the end of the line. *)
Definition from (s : nat) (l : list Z) : Prop := (s + length l)%nat = es /\ forall k c, l !! k = Some c -> buf !! (s + k)%nat = Some c.

Lemma from_app s a b : from s (a ++ b) -> from (s + length a) b.
Proof.
  intros [H1 H2]. rewrite length_app in H1. split; [lia|]. intros k c Hk. rewrite <- Nat.add_assoc. apply H2.
  rewrite lookup_app_r by lia. by replace (length a + k - length a)%nat with k by lia.
Qed.

Lemma char_at_from s l : from s l -> char_at buf s = Done (match l with [] => 0 | c :: _ => c end).
Proof.
  intros [H1 H2]. unfold char_at. destruct l as [|c l].
  - cbn in H1. replace s with es by lia. by rewrite Hnul.
  - specialize (H2 0%nat c eq_refl). rewrite Nat.add_0_r in H2. by rewrite H2.
Qed.

Lemma skip_while_ok p k s l : from s l -> (length l <= k)%nat ->
  skip_while buf es p k s = Done (s + (length l - length (drop_while p l)))%nat /\ from (s + (length l - length (drop_while p l))) (drop_while p l).
Proof.
  revert k s. induction l as [|c l IH]; intros k s Hf Hk.
  { pose proof Hf as [H1 _]. cbn in H1. assert (E : (s <? es)%nat = false) by (apply Nat.ltb_ge; lia).
    destruct k; cbn [skip_while drop_while length]; rewrite E, Nat.add_0_r; done. }
  pose proof (char_at_from s _ Hf) as Hc. pose proof (from_app s [c] l Hf) as Hf1. pose proof Hf as [H1 _]. cbn [length] in *. rewrite Nat.add_1_r in Hf1.
  pose proof (drop_while_length p l). destruct k as [|k]; [lia|]. cbn [skip_while drop_while]. rewrite (proj2 (Nat.ltb_lt s es)), Hc by lia.
  cbn [mbind outcome_bind]. destruct (p c).
  - destruct (IH k (S s) Hf1) as [E Hf']; [lia|]. rewrite E. replace (s + (S (length l) - length (drop_while p l)))%nat with
      (S s + (length l - length (drop_while p l)))%nat by lia. done.
  - cbn [length]. rewrite Nat.sub_diag, Nat.add_0_r. done.
Qed.

Lemma skip_ws_ok s l : from s l -> exists s', skip_ws buf es s = Done s' /\ from s' (trim l) /\ (s <= s')%nat.
Proof.
  intros Hf. unfold skip_ws. destruct (skip_while_ok (strchr whitespace) (es - s) s l Hf) as [E Hf']; [destruct Hf; lia|].
  eexists. split; [exact E|]. split; [exact Hf'|lia].
Qed.

(** The word [w] occupies the bytes from [q] to [e]. *)
Record word_at (q e : nat) (w : list Z) : Prop := {
  wa_end : e = (q + length w)%nat;
  wa_bytes : forall k c, w !! k = Some c -> buf !! (q + k)%nat = Some c;
  wa_word : w <> [] /\ Forall (fun c => wordc c = true) w;
  wa_stop : exists c, buf !! e = Some c /\ wordc c = false;
}.

(** What a token returned by [gettoken] says about the buffer. *)
Definition token_at (t : tok) (q e : nat) : Prop := match t with Sym _ => True | Word w => word_at q e w end.

Lemma drop_while_ext p p' l : Forall (fun c => p c = p' c) l -> drop_while p l = drop_while p' l.
Proof. induction 1 as [|c l Hc Hl IH]; [done|]. cbn. by rewrite Hc, IH. Qed.

Lemma word_split w l : Forall (fun c => c <> 0) (w ++ l) -> Forall (fun c => wordc c = true) w -> apart (Word w) l ->
  drop_while word_char (w ++ l) = l.
Proof.
  intros Hnz Hw Ha. rewrite (drop_while_ext word_char wordc).
  - rewrite drop_while_all by done. by apply drop_while_stop.
  - eapply Forall_impl; [exact Hnz|]. cbn. intros c Hc. unfold wordc. apply Z.eqb_neq in Hc. rewrite Hc. by rewrite andb_true_r.
Qed.

(** A text to be read, without NUL. *)
Definition reads (s : nat) (ts : list tok) : Prop := exists l, from s l /\ Forall (fun c => c <> 0) l /\ spells l ts.

Lemma nonzero_trim l : Forall (fun c => c <> 0) l -> Forall (fun c => c <> 0) (trim l).
Proof. intros H. destruct (drop_while_split (strchr whitespace) l) as (a&E&_). unfold trim. rewrite E in H. by apply Forall_app in H as [_ ?]. Qed.

Lemma skip_reads s ts : reads s ts -> exists s' l, skip_ws buf es s = Done s' /\ from s' l /\ Forall (fun c => c <> 0) l /\
  match ts with
  | [] => l = []
  | t :: ts => exists l', l = text t ++ l' /\ tok_ok t /\ apart t l' /\ spells l' ts
  end.
Proof.
  intros (l&Hf&Hnz&Hs). destruct (skip_ws_ok s l Hf) as (s'&E&Hf'&_). exists s', (trim l).
  split; [done|]. split; [done|]. split; [by apply nonzero_trim|]. destruct ts as [|t ts]; cbn in Hs.
  - unfold trim. by rewrite <- (app_nil_r l), drop_while_all.
  - destruct Hs as (ws&l'&->&Hw&Ht&Ha&Hs). exists l'. split; [|done]. unfold trim. rewrite drop_while_all by done.
    destruct (text_head t l' Ht) as (c&r&Er&Hc&_). rewrite Er. apply drop_while_stop. by intros ? ? [= <- _].
Qed.

Lemma scan_sym s c l : from s (text (Sym c) ++ l) -> c ∈ syms -> apart (Sym c) l ->
  exists d r, text (Sym c) ++ l = d :: r /\ scan buf es s d = Done (c, s + length (text (Sym c)))%nat.
Proof.
  intros Hf Hc Ha. pose proof (char_at_from (S s) (drop 1 (text (Sym c) ++ l))) as Hd. unfold syms in Hc. rewrite !elem_of_cons, elem_of_nil in Hc.
  destruct Hc as [->|[->|[->|[->|[->|[->|[->|[->|[]]]]]]]]]; eexists _, _; (split; [reflexivity|]); cbn [text Z.eqb Pos.eqb length app drop] in *;
    try (unfold scan; cbn [Z.eqb strchr existsb orb Pos.eqb]; by rewrite Nat.add_1_r).
  - rewrite ?drop_0 in Hd. unfold scan. cbn [Z.eqb strchr existsb orb Pos.eqb]. rewrite Hd by (rewrite <- Nat.add_1_r; by apply (from_app s [GT])).
    cbn [mbind outcome_bind]. rewrite Nat.add_1_r. destruct l as [|d l]; [done|]. cbv iota.
    rewrite (proj2 (Z.eqb_neq d GT)); [done|]. intros ->. by eapply Ha.
  - rewrite ?drop_0 in Hd. unfold scan. cbn [Z.eqb strchr existsb orb Pos.eqb]. rewrite Hd by (rewrite <- Nat.add_1_r; by apply (from_app s [GT])).
    cbn [mbind outcome_bind Z.eqb Pos.eqb]. repeat f_equal. lia.
Qed.

Lemma wordc_scan c s : wordc c = true -> scan buf es s c = (e ← skip_while buf es word_char (es - s) s; Done (WORD, e)).
Proof.
  intros Hc. unfold wordc, word_char in Hc. apply andb_true_iff in Hc as [[_ Hs%negb_true_iff]%andb_true_iff H0%negb_true_iff].
  unfold scan. rewrite H0. change symbols with [LT; BAR; GT; AMP; SEMI; LPAR; RPAR] in Hs. unfold strchr in *. cbn [existsb] in Hs. rewrite !orb_false_iff in Hs. cbn [existsb].
  destruct Hs as (E1&E2&E3&E4&E5&E6&E7&_). by rewrite E1, E2, E3, E4, E5, E6, E7.
Qed.

Lemma scan_word s w l : from s (w ++ l) -> tok_ok (Word w) -> apart (Word w) l -> Forall (fun c => c <> 0) (w ++ l) ->
  exists d r, w ++ l = d :: r /\ scan buf es s d = Done (WORD, s + length w)%nat /\ word_at s (s + length w) w.
Proof.
  intros Hf [Hw0 Hw] Ha Hnz. destruct w as [|d w]; [done|]. exists d, (w ++ l). split; [done|]. split.
  - rewrite wordc_scan by (by apply Forall_cons in Hw as [? _]).
    destruct (skip_while_ok word_char (es - s) s ((d :: w) ++ l) Hf) as [E _]; [destruct Hf; lia|].
    rewrite E, word_split by done. rewrite length_app. cbn [mbind outcome_bind]. repeat f_equal. lia.
  - split; [done| |done|].
    + intros k c Hk. apply Hf. by apply lookup_app_l_Some.
    + pose proof (char_at_from _ _ (from_app s _ l Hf)) as Hc. unfold char_at in Hc.
      destruct (buf !! (s + length (d :: w))%nat) as [c|]; [|done]. exists c. split; [done|]. simplify_eq.
      destruct l as [|c l]; [done|]. by eapply Ha.
Qed.

Lemma gettoken_ok s t ts : reads s (t :: ts) ->
  exists q e s', gettoken buf es s = Done (code t, q, e, s') /\ token_at t q e /\ reads s' ts.
Proof.
  intros (q&l&Eq&Hf&Hnz&l'&->&Ht&Ha&Hs)%skip_reads. unfold gettoken. rewrite Eq. cbn [mbind outcome_bind].
  assert (Hscan : exists d r, text t ++ l' = d :: r /\ scan buf es q d = Done (code t, q + length (text t))%nat /\ token_at t q (q + length (text t))).
  { destruct t as [c|w]; [|by apply (scan_word q w l')]. destruct (scan_sym q c l') as (d&r&E&Es); [done..|]. by exists d, r. }
  destruct Hscan as (d&r&Ed&Es&Hat). rewrite (char_at_from q _ Hf), Ed. cbn [mbind outcome_bind]. rewrite Es. cbn [mbind outcome_bind].
  assert (Hr : reads (q + length (text t)) ts).
  { exists l'. split; [by apply from_app|]. split; [by apply Forall_app in Hnz as [_ ?]|done]. }
  destruct Hr as (l2&Hf2&Hnz2&Hs2). destruct (skip_ws_ok _ _ Hf2) as (s'&E'&Hf'&_). rewrite E'. cbn [mbind outcome_bind].
  exists q, (q + length (text t))%nat, s'. split; [done|]. split; [done|]. exists (trim l2).
  split; [done|]. split; [by apply nonzero_trim|by apply spells_trim].
Qed.

Lemma gettoken_end s : reads s [] -> gettoken buf es s = Done (0, es, es, es) /\ reads es [].
Proof.
  intros (q&l&Eq&Hf&_&->)%skip_reads. pose proof Hf as [Hq _]. cbn in Hq. rewrite Nat.add_0_r in Hq. subst q.
  unfold gettoken. rewrite Eq. cbn [mbind outcome_bind]. rewrite (char_at_from es [] Hf). cbn [mbind outcome_bind scan Z.eqb].
  destruct (skip_ws_ok es [] Hf) as (s'&E'&[H _]&_). cbn in H. rewrite Nat.add_0_r in H. subst s'. rewrite E'. split; [done|].
  exists []. split; [exact Hf|]. split; constructor.
Qed.

(** The first byte of the next token is in [toks]. *)
Definition next_in (toks : list Z) (ts : list tok) : bool :=
  match ts with [] => false | t :: _ => match text t with c :: _ => strchr toks c | [] => false end end.

Lemma peek_ok s ts toks : reads s ts -> exists s', peek buf es s toks = Done (next_in toks ts, s') /\ reads s' ts.
Proof.
  intros (s'&l&E&Hf&Hnz&Hl)%skip_reads. unfold peek. rewrite E. cbn [mbind outcome_bind]. rewrite (char_at_from s' _ Hf). cbn [mbind outcome_bind].
  exists s'. destruct ts as [|t ts]; [subst l; split; [done|]; exists []; split; [done|]; split; constructor|]. destruct Hl as (l'&->&Ht&Ha&Hs). split.
  - destruct (text_head t l' Ht) as (c&r&Er&_&Hc). rewrite Er. apply Z.eqb_neq in Hc. rewrite Hc. cbn [negb andb].
    cbn [next_in]. destruct (text t) as [|d x] eqn:Et; [|by simplify_list_eq]. destruct t as [k|w]; cbn in *; [by destruct (k =? PLUS)|by destruct Ht].
  - exists (text t ++ l'). split; [done|]. split; [done|]. by exists [], l'.
Qed.

(** ** The parser on tokens *)

(** The command [c] refers to the words of [t]. *)
Fixpoint means (c : cmd) (t : tree) : Prop :=
  match c, t with
  | EXEC argv, TExec ws => Forall2 (fun a w => word_at a.1 a.2 w) argv ws
  | REDIR c q e mode fd, TRedir t file out => means c t /\ word_at q e file /\ mode = mode_of out /\ fd = fd_of out
  | PIPE l r, TPipe l' r' => means l l' /\ means r r'
  | LIST l r, TList l' r' => means l l' /\ means r r'
  | BACK c, TBack t => means c t
  | _, _ => False
  end.

(** Redirections around a command. *)
Definition wrap (c : cmd) (rs : list (nat * nat * bool)) : cmd :=
  fold_left (fun c '(q, e, out) => REDIR c q e (mode_of out) (fd_of out)) rs c.
Definition twrap (t : tree) (rs : list (list Z * bool)) : tree := fold_left (fun t '(f, out) => TRedir t f out) rs t.
Definition redir_at (r : nat * nat * bool) (r' : list Z * bool) : Prop := word_at r.1.1 r.1.2 r'.1 /\ r.2 = r'.2.

Lemma spine_wrap t : twrap (spine t).1 (spine t).2 = t.
Proof.
  induction t as [argv|t IH file out|l _ r _|l _ r _|t _]; try done.
  cbn [spine]. destruct (spine t) as [b rs]. cbn [fst snd] in *. unfold twrap in *. rewrite fold_left_app, IH. done.
Qed.
Lemma means_wrap c t rs rs' : means c t -> Forall2 redir_at rs rs' -> means (wrap c rs) (twrap t rs').
Proof.
  intros Hc Hr. revert c t Hc. induction Hr as [|[[q e] o] [f o'] rs rs' [H1 H2] _ IH]; intros c t Hc; [done|]. cbn in *. subst. apply IH. done.
Qed.
Lemma set_argv_wrap argv a rs : set_argv argv (wrap (EXEC a) rs) = wrap (EXEC argv) rs.
Proof.
  induction rs as [|[[q e] o] rs IH] using rev_ind; [done|].
  unfold wrap in *. rewrite !fold_left_app. cbn [fold_left set_argv]. by rewrite IH.
Qed.

Ltac pstep := cbn [mbind outcome_bind]; unfold execcmd, redircmd, pipecmd, listcmd, backcmd.

Lemma parseredirs_ok k rws c s rest : reads s (concat (redir <$> rws) ++ rest) -> next_in [LT; GT] rest = false -> (length rws <= k)%nat ->
  exists rs s', parseredirs buf es k c s = Done (wrap c rs, s') /\ Forall2 redir_at rs rws /\ reads s' rest.
Proof.
  revert rws c s. induction k as [|k IH]; intros rws c s Hr Hn Hk.
  - destruct rws; [|cbn in Hk; lia]. cbn in Hr. destruct (peek_ok s rest [LT; GT] Hr) as (s1&E1&Hr1). cbn [parseredirs]. rewrite E1, Hn. pstep. by exists [], s1.
  - destruct rws as [|[f o] rws].
    { cbn in Hr. destruct (peek_ok s rest [LT; GT] Hr) as (s1&E1&Hr1). cbn [parseredirs]. rewrite E1, Hn. pstep. by exists [], s1. }
    cbn [fmap list_fmap concat redir app fst snd] in Hr. destruct (peek_ok s _ [LT; GT] Hr) as (s1&E1&Hr1).
    destruct (gettoken_ok s1 _ _ Hr1) as (q1&e1&s2&E2&_&Hr2). destruct (gettoken_ok s2 _ _ Hr2) as (q&e&s3&E3&Hw&Hr3).
    cbn [parseredirs]. rewrite E1. replace (next_in [LT; GT] _) with true by (by destruct o). pstep. rewrite E2. pstep. rewrite E3. pstep. cbn [code Z.eqb Pos.eqb negb].
    destruct (IH rws (REDIR c q e (mode_of o) (fd_of o)) s3) as (rs&s'&E&Hf&Hr'); [done|done|cbn in Hk; lia|].
    exists ((q, e, o) :: rs), s'. split; [|split; [by constructor|done]]. destruct o; exact E.
Qed.

Lemma reads_length s ts : reads s ts -> (length ts <= es - s)%nat.
Proof. intros (l&[H _]&_&Hs%spells_length). lia. Qed.

Lemma next_excl A B ts : (forall c, strchr A c = true -> strchr B c = false) -> next_in A ts = true -> next_in B ts = false.
Proof. intros H. destruct ts as [|t ts]; [done|]. cbn. destruct (text t); [done|]. apply H. Qed.
Lemma next_word toks w ts : tok_ok (Word w) -> (forall c, strchr toks c = true -> strchr symbols c = true) -> next_in toks (Word w :: ts) = false.
Proof.
  intros [H1 H2] Hs. cbn. destruct w as [|c w]; [done|]. apply Forall_cons in H2 as [H2 _]. destruct (strchr toks c) eqn:E; [|done].
  apply Hs in E. unfold wordc, word_char in H2. rewrite E in H2. by rewrite andb_false_r in H2.
Qed.
Ltac strchrs := let c := fresh in intros c; change symbols with [LT; BAR; GT; AMP; SEMI; LPAR; RPAR]; unfold strchr; cbn [existsb];
  rewrite ?orb_true_iff, ?orb_false_iff, ?Z.eqb_eq, ?Z.eqb_neq; lia.

(** What may follow a simple command. *)
Definition closes (toks : list Z) (rest : list tok) : Prop := rest = [] \/ next_in toks rest = true.
Lemma closes_excl A B rest : (forall c, strchr A c = true -> strchr B c = false) -> closes A rest -> next_in B rest = false.
Proof. intros H [->|Hn]; [done|by eapply next_excl]. Qed.
Lemma closes_incl A B rest : (forall c, strchr A c = true -> strchr B c = true) -> closes A rest -> closes B rest.
Proof. intros H [->|Hn]; [by left|right]. destruct rest as [|t rest]; [done|]. cbn in *. destruct (text t); [done|]. by apply H. Qed.

Lemma wrap_app c rs rs' : wrap c (rs ++ rs') = wrap (wrap c rs) rs'.
Proof. apply fold_left_app. Qed.

Lemma parseargs_ok ws k argv rs0 rws s rest :
  reads s ((Word <$> ws) ++ concat (redir <$> rws) ++ rest) -> (ws = [] -> rws = []) -> closes [BAR; RPAR; AMP; SEMI] rest ->
  Forall (fun w => tok_ok (Word w)) ws -> (length argv + length ws < MAXARGS)%nat -> (length ws <= k)%nat ->
  exists args rs s', parseargs buf es k argv (wrap (EXEC []) rs0) s = Done (wrap (EXEC (argv ++ args)) (rs0 ++ rs), s') /\
    Forall2 (fun a w => word_at a.1 a.2 w) args ws /\ Forall2 redir_at rs rws /\ reads s' rest.
Proof.
  revert k argv rs0 rws s. induction ws as [|w ws IH]; intros k argv rs0 rws s Hr Hrw Hcl Hok Hn Hk.
  - rewrite (Hrw eq_refl) in *. cbn in Hr. destruct (peek_ok s rest [BAR; RPAR; AMP; SEMI] Hr) as (s1&E1&Hr1). exists [], [].
    destruct k; cbn [parseargs]; rewrite E1; pstep; rewrite !app_nil_r, set_argv_wrap;
      (destruct Hcl as [->|Hc]; [destruct (gettoken_end s1 Hr1) as [E2 Hr2]; cbn [next_in]; rewrite E2; pstep; by exists es
                                |rewrite Hc; by exists s1]).
  - destruct k as [|k]; [cbn in Hk; lia|]. cbn [fmap list_fmap app] in Hr. apply Forall_cons in Hok as [Hw Hok]. cbn [length] in *.
    destruct (peek_ok s _ [BAR; RPAR; AMP; SEMI] Hr) as (s1&E1&Hr1). rewrite next_word in E1 by (done || strchrs).
    destruct (gettoken_ok s1 _ _ Hr1) as (q&e&s2&E2&Hat&Hr2). cbn [parseargs]. rewrite E1. pstep. rewrite E2. pstep. cbn [code Z.eqb Pos.eqb negb].
    rewrite (proj2 (Nat.leb_gt _ _)) by (rewrite length_app; cbn; lia).
    assert (Hredir : exists rs s3, parseredirs buf es (es - s2) (wrap (EXEC []) rs0) s2 = Done (wrap (EXEC []) (rs0 ++ rs), s3) /\
      Forall2 redir_at rs (if ws is [] then rws else []) /\ reads s3 ((Word <$> ws) ++ concat (redir <$> (if ws is [] then [] else rws)) ++ rest)).
    { destruct ws as [|w' ws].
      - destruct (parseredirs_ok (es - s2) rws (wrap (EXEC []) rs0) s2 rest) as (rs&s3&E3&Hf&Hr3); [done|by apply (closes_excl [BAR; RPAR; AMP; SEMI]); [strchrs|]| |].
        { apply reads_length in Hr2. rewrite length_app in Hr2. cbn in Hr2. rewrite length_app in Hr2.
          assert (length rws <= length (concat (redir <$> rws)))%nat by (clear; induction rws; cbn; lia). lia. }
        exists rs, s3. by rewrite wrap_app.
      - destruct (parseredirs_ok (es - s2) [] (wrap (EXEC []) rs0) s2 ((Word <$> w' :: ws) ++ concat (redir <$> rws) ++ rest)) as (rs&s3&E3&Hf&Hr3);
          [done|apply next_word; [by inversion Hok|strchrs]|cbn; lia|].
        exists rs, s3. by rewrite wrap_app. }
    destruct Hredir as (rs1&s3&E3&Hf1&Hr3). rewrite E3. pstep.
    destruct (IH k (argv ++ [(q, e)]) (rs0 ++ rs1) (if ws is [] then [] else rws) s3) as (args&rs2&s4&E4&Hfa&Hfr&Hr4);
      [done|by destruct ws|done|done|rewrite length_app; cbn; lia|lia|].
    exists ((q, e) :: args), (rs1 ++ rs2), s4. rewrite E4, <- !app_assoc. split; [done|]. split; [by constructor|]. split; [|done].
    destruct ws; [inversion Hfr; by rewrite app_nil_r|by inversion Hf1].
Qed.

(** [n] times [&]. *)
Lemma parseback_ok m k c s rest : reads s (replicate m (Sym AMP) ++ rest) -> next_in [AMP] rest = false -> (m <= k)%nat ->
  exists s', parseback buf es k c s = Done (Nat.iter m BACK c, s') /\ reads s' rest.
Proof.
  revert m c s. induction k as [|k IH]; intros [|m] c s Hr Hn Hk; try lia; cbn [replicate app] in Hr;
    destruct (peek_ok s _ [AMP] Hr) as (s1&E1&Hr1); cbn [parseback]; rewrite E1; pstep; try (rewrite Hn; by exists s1).
  cbn [next_in text Z.eqb Pos.eqb]. change (strchr [AMP] AMP) with true. cbv iota. destruct (gettoken_ok s1 _ _ Hr1) as (q&e&s2&E2&_&Hr2). rewrite E2. pstep.
  destruct (IH m (BACK c) s2) as (s'&E&Hr'); [done|done|lia|]. exists s'. rewrite E. split; [|done]. by rewrite Nat.iter_succ_r.
Qed.

(** The commands before [&]. *)
Fixpoint unback (t : tree) : tree * nat := match t with TBack t => let '(b, m) := unback t in (b, S m) | _ => (t, O) end.
Lemma print_unback t : print 2 t = print 1 (unback t).1 ++ replicate (unback t).2 (Sym AMP).
Proof.
  induction t as [argv|t IH file out|l _ r _|l _ r _|t IH]; cbn [unback fst snd replicate]; try by rewrite app_nil_r.
  destruct (unback t) as [b m]. cbn [fst snd] in *. change (print 2 (TBack t)) with (print 2 t ++ [Sym AMP]). rewrite IH, <- app_assoc. f_equal.
  change [Sym AMP] with (replicate 1 (Sym AMP)). rewrite <- replicate_add. f_equal. lia.
Qed.
Lemma unback_ok t : tree_ok t -> tree_ok (unback t).1.
Proof. induction t; try done. cbn. destruct (unback t). done. Qed.
Lemma means_unback c t : means c (unback t).1 -> means (Nat.iter (unback t).2 BACK c) t.
Proof. revert c. induction t as [argv|t IH file out|l _ r _|l _ r _|t IH]; intros c; try done. cbn. destruct (unback t) as [b m]. cbn in *. apply IH. Qed.

(** ** Lines that spell a tree *)
Definition line_ok (n : nat) : Prop := forall t s rest, tree_ok t -> reads s (print 3 t ++ rest) -> closes [RPAR] rest ->
  (4 * length (print 3 t ++ rest) + 4 <= n)%nat -> exists c s', parseline buf es n s = Done (c, s') /\ means c t /\ reads s' rest.
Definition pipe_ok (n : nat) : Prop := forall t s rest, tree_ok t -> reads s (print 1 t ++ rest) -> closes [RPAR; AMP; SEMI] rest ->
  (4 * length (print 1 t ++ rest) + 3 <= n)%nat -> exists c s', parsepipe buf es n s = Done (c, s') /\ means c t /\ reads s' rest.
Definition exec_ok (n : nat) : Prop := forall t s rest, tree_ok t -> reads s (print 0 t ++ rest) -> closes [BAR; RPAR; AMP; SEMI] rest ->
  (4 * length (print 0 t ++ rest) + 2 <= n)%nat -> exists c s', parseexec buf es n s = Done (c, s') /\ means c t /\ reads s' rest.

Lemma redirs_length rws : (length rws <= length (concat (redir <$> rws)))%nat.
Proof. induction rws; cbn; lia. Qed.

(** Words and redirections. *)
Lemma simple_ok ws rws n s rest : reads s ((Word <$> ws) ++ concat (redir <$> rws) ++ rest) -> closes [BAR; RPAR; AMP; SEMI] rest ->
  tree_ok (TExec ws) -> exists args rs s', parseexec buf es (S n) s = Done (wrap (EXEC args) rs, s') /\
    Forall2 (fun a w => word_at a.1 a.2 w) args ws /\ Forall2 redir_at rs rws /\ reads s' rest.
Proof.
  intros Hr Hcl [Hlen Hok]. destruct (peek_ok s _ [LPAR] Hr) as (s1&E1&Hr1).
  assert (Hnext : next_in [LPAR] ((Word <$> ws) ++ concat (redir <$> rws) ++ rest) = false).
  { destruct ws as [|w ws]; [|apply next_word; [by inversion Hok|strchrs]]. destruct rws as [|[f o] rws]; [|by destruct o].
    by apply (closes_excl [BAR; RPAR; AMP; SEMI]); [strchrs|]. }
  rewrite Hnext in E1. rewrite parseexec_S. rewrite E1. pstep. pose proof (reads_length _ _ Hr1) as Hlen1. rewrite !length_app, length_fmap in Hlen1.
  pose proof (redirs_length rws). destruct ws as [|w ws].
  - destruct (parseredirs_ok (es - s1) rws (EXEC []) s1 rest) as (rs&s2&E2&Hf&Hr2); [done|by apply (closes_excl [BAR; RPAR; AMP; SEMI]); [strchrs|]|lia|].
    rewrite E2. pstep. destruct (parseargs_ok [] (es - s2) [] rs [] s2 rest) as (args&rs2&s3&E3&Hfa&Hfr&Hr3); [done|done|done|done|cbn; lia|cbn; lia|].
    inversion Hfr. subst. rewrite app_nil_r in E3. exists args, rs, s3. by rewrite E3.
  - destruct (parseredirs_ok (es - s1) [] (EXEC []) s1 ((Word <$> w :: ws) ++ concat (redir <$> rws) ++ rest)) as (rs&s2&E2&Hf&Hr2);
      [done|apply next_word; [by inversion Hok|strchrs]|cbn; lia|]. inversion Hf. subst. rewrite E2. pstep.
    destruct (parseargs_ok (w :: ws) (es - s2) [] [] rws s2 rest) as (args&rs2&s3&E3&Hfa&Hfr&Hr3); [done|done|done|done|cbn in *; lia| |].
    { apply reads_length in Hr2. rewrite !length_app, length_fmap in Hr2. lia. }
    exists args, rs2, s3. by rewrite E3.
Qed.

(** A line in parentheses with redirections. *)
Lemma block_ok n t rws s rest : line_ok n -> tree_ok t ->
  reads s (Sym LPAR :: print 3 t ++ Sym RPAR :: concat (redir <$> rws) ++ rest) -> closes [BAR; RPAR; AMP; SEMI] rest ->
  (4 * length (print 3 t ++ Sym RPAR :: concat (redir <$> rws) ++ rest) + 4 <= n)%nat ->
  exists c rs s', parseexec buf es (S (S n)) s = Done (wrap c rs, s') /\ means c t /\ Forall2 redir_at rs rws /\ reads s' rest.
Proof.
  intros Hline Ht Hr Hcl Hn. destruct (peek_ok s _ [LPAR] Hr) as (s1&E1&Hr1). destruct (peek_ok s1 _ [LPAR] Hr1) as (s2&E2&Hr2).
  destruct (gettoken_ok s2 _ _ Hr2) as (q&e&s3&E3&_&Hr3). destruct (Hline t s3 _ Ht Hr3) as (c&s4&E4&Hm&Hr4); [by right|done|].
  destruct (peek_ok s4 _ [RPAR] Hr4) as (s5&E5&Hr5). destruct (gettoken_ok s5 _ _ Hr5) as (q'&e'&s6&E6&_&Hr6).
  destruct (parseredirs_ok (es - s6) rws c s6 rest) as (rs&s7&E7&Hf&Hr7); [done|by apply (closes_excl [BAR; RPAR; AMP; SEMI]); [strchrs|]| |].
  { apply reads_length in Hr6. rewrite length_app in Hr6. pose proof (redirs_length rws). lia. }
  exists c, rs, s7. split; [|done]. rewrite parseexec_S, E1. pstep. change (next_in [LPAR] _) with true. cbv iota. rewrite parseblock_S.
  rewrite E2. pstep. change (next_in [LPAR] _) with true. cbn [negb]. rewrite E3. pstep. rewrite E4. pstep. rewrite E5. pstep.
  change (next_in [RPAR] _) with true. cbn [negb]. rewrite E6. pstep. exact E7.
Qed.

Lemma exec_step n : (forall m, (m < n)%nat -> line_ok m) -> exec_ok n.
Proof.
  intros IH t s rest Ht Hr Hcl Hn. destruct n as [|[|n]]; [lia|lia|]. rewrite print_spine, <- app_assoc in Hr, Hn.
  destruct (spine_ok t Ht) as [Hb Hrs]. pose proof (spine_base t) as Hbase. rewrite <- (spine_wrap t).
  assert (Hcase : (exists ws, (spine t).1 = TExec ws) \/ forall ws, (spine t).1 <> TExec ws) by (destruct (spine t).1; eauto).
  destruct Hcase as [[ws Ews]|Hno].
  - rewrite Ews in *. destruct (simple_ok ws (spine t).2 (S n) s rest) as (args&rs&s'&E&Hfa&Hfr&Hr'); [done..|].
    exists (wrap (EXEC args) rs), s'. split; [done|]. split; [by apply means_wrap|done].
  - destruct (Hbase Hno) as (l&El&Ep). rewrite Ep in Hr, Hn. cbn [app] in Hr, Hn. rewrite <- app_assoc in Hr, Hn. cbn [app length] in Hr, Hn. rewrite <- El in Hr, Hn.
    destruct (block_ok n (spine t).1 (spine t).2 s rest) as (c&rs&s'&E&Hm&Hfr&Hr'); [apply IH; lia|done|done|done|cbn in *; lia|].
    exists (wrap c rs), s'. split; [done|]. split; [by apply means_wrap|done].
Qed.

Lemma print_pipe_cases t : (exists l r, t = TPipe l r) \/ print 1 t = print 0 t.
Proof. destruct t; eauto. Qed.

Lemma pipe_step n : exec_ok n -> pipe_ok n -> pipe_ok (S n).
Proof.
  intros He Hp t s rest Ht Hr Hcl Hn. rewrite parsepipe_S. destruct (print_pipe_cases t) as [(l&r&->)|E].
  - change (print 1 (TPipe l r)) with (print 0 l ++ Sym BAR :: print 1 r) in *. rewrite <- app_assoc in Hr, Hn. cbn [app] in Hr, Hn. destruct Ht as [Hl Hrt].
    destruct (He l s _ Hl Hr) as (c&s1&E1&Hm&Hr1); [by right|lia|]. rewrite E1. pstep. destruct (peek_ok s1 _ [BAR] Hr1) as (s2&E2&Hr2). rewrite E2. pstep.
    change (next_in [BAR] _) with true. cbv iota. destruct (gettoken_ok s2 _ _ Hr2) as (q&e&s3&E3&_&Hr3). rewrite E3. pstep.
    destruct (Hp r s3 rest Hrt Hr3 Hcl) as (c'&s4&E4&Hm'&Hr4); [rewrite length_app in Hn; cbn [length] in Hn; lia|]. rewrite E4. pstep. by exists (PIPE c c'), s4.
  - rewrite E in Hr, Hn. destruct (He t s rest Ht Hr) as (c&s1&E1&Hm&Hr1); [by apply (closes_incl [RPAR; AMP; SEMI]); [strchrs|]|lia|].
    rewrite E1. pstep. destruct (peek_ok s1 _ [BAR] Hr1) as (s2&E2&Hr2). rewrite E2. pstep.
    rewrite (closes_excl [RPAR; AMP; SEMI] [BAR]) by (strchrs || done). by exists c, s2.
Qed.

(** A pipeline and its [&]s. *)
Lemma back_ok n t s rest : pipe_ok n -> tree_ok t -> reads s (print 2 t ++ rest) -> closes [RPAR; SEMI] rest ->
  (4 * length (print 2 t ++ rest) + 3 <= n)%nat ->
  exists c s1 c' s', parsepipe buf es n s = Done (c, s1) /\ parseback buf es (es - s1) c s1 = Done (c', s') /\ means c' t /\ reads s' rest.
Proof.
  intros Hp Ht Hr Hcl Hn. rewrite print_unback, <- app_assoc in Hr, Hn.
  destruct (Hp (unback t).1 s _ (unback_ok t Ht) Hr) as (c&s1&E1&Hm&Hr1); [|done|].
  { destruct (unback t).2; [by apply (closes_incl [RPAR; SEMI]); [strchrs|]|by right]. }
  destruct (parseback_ok (unback t).2 (es - s1) c s1 rest Hr1) as (s2&E2&Hr2); [by apply (closes_excl [RPAR; SEMI]); [strchrs|]| |].
  { apply reads_length in Hr1. rewrite length_app, length_replicate in Hr1. lia. }
  exists c, s1, (Nat.iter (unback t).2 BACK c), s2. split; [done|]. split; [done|]. split; [by apply means_unback|done].
Qed.

Lemma print_line_cases t : (exists l r, t = TList l r) \/ print 3 t = print 2 t.
Proof. destruct t; eauto. Qed.

Lemma line_step n : pipe_ok n -> line_ok n -> line_ok (S n).
Proof.
  intros Hp Hl t s rest Ht Hr Hcl Hn. rewrite parseline_S. destruct (print_line_cases t) as [(l&r&->)|E].
  - change (print 3 (TList l r)) with (print 2 l ++ Sym SEMI :: print 3 r) in *. rewrite <- app_assoc in Hr, Hn. cbn [app] in Hr, Hn. destruct Ht as [Hlt Hrt].
    destruct (back_ok n l s _ Hp Hlt Hr) as (c&s1&c'&s2&E1&E2&Hm&Hr2); [by right|lia|]. rewrite E1. pstep. rewrite E2. pstep.
    destruct (peek_ok s2 _ [SEMI] Hr2) as (s3&E3&Hr3). rewrite E3. pstep. change (next_in [SEMI] _) with true. cbv iota.
    destruct (gettoken_ok s3 _ _ Hr3) as (q&e&s4&E4&_&Hr4). rewrite E4. pstep.
    destruct (Hl r s4 rest Hrt Hr4 Hcl) as (c2&s5&E5&Hm'&Hr5); [rewrite length_app in Hn; cbn [length] in Hn; lia|]. rewrite E5. pstep. by exists (LIST c' c2), s5.
  - rewrite E in Hr, Hn. destruct (back_ok n t s rest Hp Ht Hr) as (c&s1&c'&s2&E1&E2&Hm&Hr2); [by apply (closes_incl [RPAR]); [strchrs|]|lia|].
    rewrite E1. pstep. rewrite E2. pstep. destruct (peek_ok s2 _ [SEMI] Hr2) as (s3&E3&Hr3). rewrite E3. pstep.
    rewrite (closes_excl [RPAR] [SEMI]) by (strchrs || done). by exists c', s3.
Qed.

Lemma parser_ok n : line_ok n /\ pipe_ok n /\ exec_ok n.
Proof.
  induction n as [n IH] using lt_wf_ind. assert (He : exec_ok n) by (apply exec_step; intros m Hm; by apply IH).
  destruct n as [|n]; [split_and!; [intros t s rest _ _ _; lia..|done]|].
  destruct (IH n) as (Hl&Hp&He'); [lia|]. split_and!; [by apply line_step|by apply pipe_step|done].
Qed.

(** ** Every line *)

(** A parser's outcome on the tokens [ts]: it stops with a message, or returns
    a command that refers to the words of a tree and leaves no more tokens. *)
Definition good (ts : list tok) (o : outcome (cmd * nat)) : Prop :=
  match o with
  | Done (c, s') => (exists t, tree_ok t /\ means c t) /\ exists ts', reads s' ts' /\ (length ts' <= length ts)%nat
  | Panics _ => True
  | _ => False
  end.

Lemma good_weaken ts ts' o : good ts o -> (length ts <= length ts')%nat -> good ts' o.
Proof. intros H Hle. destruct o as [[c s]| | |]; [|done..]. destruct H as [Ht (u&Hr&Hu)]. split; [done|]. exists u. split; [done|lia]. Qed.

Lemma reads_head s t ts : reads s (t :: ts) -> tok_ok t.
Proof. intros (l&_&_&ws&l'&_&_&Ht&_). exact Ht. Qed.
Lemma code_word t : tok_ok t -> code t = WORD -> exists w, t = Word w.
Proof.
  destruct t as [c|w]; [|eauto]. cbn. intros H ->. unfold syms in H. rewrite !elem_of_cons, elem_of_nil in H.
  repeat (destruct H as [H|H]; [done|]). done.
Qed.
Lemma redir_sym t ts : tok_ok t -> next_in [LT; GT] (t :: ts) = true -> t = Sym LT \/ t = Sym GT \/ t = Sym PLUS.
Proof.
  intros Ht Hn. destruct t as [c|w]; [|rewrite next_word in Hn; [done|done|strchrs]]. cbn in Ht. unfold syms in Ht. rewrite !elem_of_cons, elem_of_nil in Ht.
  repeat (destruct Ht as [->|Ht]; [try (discriminate Hn); auto|]). done.
Qed.
Lemma next_cons toks ts : next_in toks ts = true -> exists t ts', ts = t :: ts'.
Proof. destruct ts; [done|eauto]. Qed.

Lemma parseredirs_total k c s ts : reads s ts -> (length ts <= k)%nat ->
  (exists out, parseredirs buf es k c s = Panics out) \/
  exists rs rws s' ts', parseredirs buf es k c s = Done (wrap c rs, s') /\ Forall2 redir_at rs rws /\ reads s' ts' /\ (length ts' <= length ts)%nat.
Proof.
  revert k c s. induction ts as [ts IH] using (induction_ltof1 _ (@length tok)). unfold ltof in IH. intros k c s Hr Hk.
  destruct (peek_ok s ts [LT; GT] Hr) as (s1&E1&Hr1). destruct (next_in [LT; GT] ts) eqn:Hn.
  2:{ right. exists [], [], s1, ts. destruct k; cbn [parseredirs]; rewrite E1; pstep; done. }
  destruct (next_cons _ _ Hn) as (t&ts1&->). destruct k as [|k]; [cbn in Hk; lia|]. pose proof (redir_sym t ts1 (reads_head _ _ _ Hr) Hn) as Ht.
  destruct (gettoken_ok s1 _ _ Hr1) as (q1&e1&s2&E2&_&Hr2). cbn [parseredirs]. rewrite E1. pstep. rewrite E2. pstep.
  destruct ts1 as [|t2 ts2]; [destruct (gettoken_end s2 Hr2) as [E3 _]; rewrite E3; left; eexists; reflexivity|].
  destruct (gettoken_ok s2 _ _ Hr2) as (q&e&s3&E3&Hat&Hr3). rewrite E3. pstep. destruct (Z.eqb_spec (code t2) WORD) as [Hw|_]; [|left; eexists; reflexivity].
  apply code_word in Hw as [w ->]; [|by eapply reads_head]. cbn [negb length] in *.
  assert (Hgo : exists o, parseredirs buf es k (if code t =? LT then REDIR c q e O_RDONLY 0
      else if code t =? GT then REDIR c q e (Z.lor O_WRONLY O_CREATE) 1 else if code t =? PLUS then REDIR c q e (Z.lor O_WRONLY O_CREATE) 1 else c) s3
      = parseredirs buf es k (REDIR c q e (mode_of o) (fd_of o)) s3).
  { destruct Ht as [->|[->| ->]]; [by exists false|by exists true..]. }
  destruct Hgo as [o Ego]. rewrite Ego. destruct (IH ts2) with (k := k) (c := REDIR c q e (mode_of o) (fd_of o)) (s := s3) as [[out E]|(rs&rws&s'&ts'&E&Hf&Hr'&Hl)];
    [cbn; lia|done|lia|left; by exists out|]. right. exists ((q, e, o) :: rs), ((w, o) :: rws), s', ts'. split; [done|]. split; [by constructor|]. split; [done|cbn; lia].
Qed.

Lemma redir_words rs rws : Forall2 redir_at rs rws -> Forall (fun r => tok_ok (Word r.1)) rws.
Proof. induction 1 as [|[[q e] o] [w o'] rs rws [H _] _ IH]; constructor; [apply H|done]. Qed.
Lemma argv_words argv ws : Forall2 (fun a w => word_at a.1 a.2 w) argv ws -> Forall (fun w => tok_ok (Word w)) ws.
Proof. induction 1 as [|a w argv ws H _ IH]; constructor; [apply H|done]. Qed.
Lemma twrap_ok t rws : tree_ok t -> Forall (fun r => tok_ok (Word r.1)) rws -> tree_ok (twrap t rws).
Proof. intros Ht H. revert t Ht. induction H as [|[w o] rws Hw _ IH]; intros t Ht; [done|]. cbn. by apply IH. Qed.

(** A command around which redirections were read. *)
Lemma wrap_good c t rs rws s' ts' ts : tree_ok t -> means c t -> Forall2 redir_at rs rws -> reads s' ts' -> (length ts' <= length ts)%nat ->
  good ts (Done (wrap c rs, s')).
Proof.
  intros Ht Hm Hf Hr Hl. split; [|by exists ts']. exists (twrap t rws). split; [|by apply means_wrap]. apply twrap_ok; [done|by eapply redir_words].
Qed.

Lemma parseargs_good ts k argv ws rs rws s : reads s ts -> (length ts <= k)%nat -> (length argv < MAXARGS)%nat ->
  Forall2 (fun a w => word_at a.1 a.2 w) argv ws -> Forall2 redir_at rs rws -> good ts (parseargs buf es k argv (wrap (EXEC []) rs) s).
Proof.
  revert k argv ws rs rws s. induction ts as [ts IH] using (induction_ltof1 _ (@length tok)). unfold ltof in IH. intros k argv ws rs rws s Hr Hk Hlen Hfa Hfr.
  assert (Hstop : forall s' ts', reads s' ts' -> (length ts' <= length ts)%nat -> good ts (Done (set_argv argv (wrap (EXEC []) rs), s'))).
  { intros s' ts' Hr' Hl. rewrite set_argv_wrap. apply (wrap_good (EXEC argv) (TExec ws) rs rws s' ts'); [|done..].
    split; [by rewrite <- (Forall2_length _ _ _ Hfa)|by eapply argv_words]. }
  destruct (peek_ok s ts [BAR; RPAR; AMP; SEMI] Hr) as (s1&E1&Hr1).
  destruct k; cbn [parseargs]; rewrite E1; pstep; (destruct (next_in _ ts); [by eapply Hstop|]).
  - destruct ts; [|cbn in Hk; lia]. destruct (gettoken_end s1 Hr1) as [E2 Hr2]. rewrite E2. pstep. by eapply Hstop.
  - destruct ts as [|t ts]; [destruct (gettoken_end s1 Hr1) as [E2 Hr2]; rewrite E2; pstep; by eapply Hstop|].
    destruct (gettoken_ok s1 _ _ Hr1) as (q&e&s2&E2&Hat&Hr2). rewrite E2. pstep. pose proof (reads_head _ _ _ Hr) as Ht.
    destruct (Z.eqb_spec (code t) 0) as [H0|_]; [exfalso; destruct t as [c|w]; cbn in H0; [subst c; cbn in Ht; set_solver|done]|].
    destruct (Z.eqb_spec (code t) WORD) as [Hw|_]; [|exact I]. apply code_word in Hw as [w ->]; [|done]. cbn [negb length] in *.
    rewrite length_app. cbn [length]. destruct (MAXARGS <=? length argv + 1)%nat eqn:Emax; [exact I|]. apply Nat.leb_gt in Emax.
    destruct (parseredirs_total (es - s2) (wrap (EXEC []) rs) s2 ts Hr2 (reads_length _ _ Hr2)) as [[out E]|(rs'&rws'&s3&ts3&E&Hf&Hr3&Hl)];
      rewrite E; pstep; [exact I|]. rewrite <- wrap_app.
    apply (good_weaken ts3); [|cbn; lia]. apply (IH ts3) with (ws := ws ++ [w]) (rws := rws ++ rws'); [cbn; lia|done|lia|rewrite length_app; cbn; lia| |].
    + apply Forall2_app; [done|]. apply Forall2_cons. split; [exact Hat|by apply Forall2_nil].
    + by apply Forall2_app.
Qed.

Lemma parseback_total k c t s ts : reads s ts -> (length ts <= k)%nat -> tree_ok t -> means c t -> good ts (parseback buf es k c s).
Proof.
  revert ts c t s. induction k as [|k IH]; intros ts c t s Hr Hk Ht Hm; destruct (peek_ok s ts [AMP] Hr) as (s1&E1&Hr1); cbn [parseback]; rewrite E1; pstep;
    (destruct (next_in _ ts) eqn:Hn; [destruct (next_cons _ _ Hn) as (u&ts1&->)|split; [by exists t|by exists ts]]).
  - cbn in Hk. lia.
  - destruct (gettoken_ok s1 _ _ Hr1) as (q&e&s2&E2&_&Hr2). rewrite E2. pstep. apply (good_weaken ts1); [|cbn; lia]. apply (IH ts1 (BACK c) (TBack t)); [done|cbn in Hk; lia|done..].
Qed.

(** Consuming one token and going on. *)
Lemma token_good s t ts (F : Z * nat * nat * nat -> outcome (cmd * nat)) : reads s (t :: ts) ->
  (forall k q e s', reads s' ts -> good ts (F (k, q, e, s'))) -> good (t :: ts) (gettoken buf es s ≫= F).
Proof. intros Hr HF. destruct (gettoken_ok s _ _ Hr) as (q&e&s'&E&_&Hr'). rewrite E. pstep. apply (good_weaken ts); [by apply HF|cbn; lia]. Qed.
Lemma peek_good s ts toks (F : bool * nat -> outcome (cmd * nat)) : reads s ts ->
  (forall s', reads s' ts -> good ts (F (next_in toks ts, s'))) -> good ts (peek buf es s toks ≫= F).
Proof. intros Hr HF. destruct (peek_ok s ts toks Hr) as (s'&E&Hr'). rewrite E. pstep. by apply HF. Qed.
Lemma good_bind ts o F : good ts o ->
  (forall c s' t ts', tree_ok t -> means c t -> reads s' ts' -> (length ts' <= length ts)%nat -> good ts' (F (c, s'))) -> good ts (o ≫= F).
Proof.
  intros Ho HF. destruct o as [[c s']| | |]; [|done..]. destruct Ho as [(t&Ht&Hm) (ts'&Hr&Hl)]. pstep.
  apply (good_weaken ts'); [|done]. by apply (HF c s' t ts').
Qed.
Lemma done_good c t s ts : tree_ok t -> means c t -> reads s ts -> good ts (Done (c, s)).
Proof. intros Ht Hm Hr. split; [by exists t|by exists ts]. Qed.

Definition line_good (n : nat) : Prop := forall ts s, reads s ts -> (4 * length ts + 4 <= n)%nat -> good ts (parseline buf es n s).
Definition pipe_good (n : nat) : Prop := forall ts s, reads s ts -> (4 * length ts + 3 <= n)%nat -> good ts (parsepipe buf es n s).
Definition exec_good (n : nat) : Prop := forall ts s, reads s ts -> (4 * length ts + 2 <= n)%nat -> good ts (parseexec buf es n s).
Definition block_good (n : nat) : Prop := forall ts s, reads s ts -> (4 * length ts + 1 <= n)%nat -> good ts (parseblock buf es n s).

Lemma block_good_step n : line_good n -> block_good (S n).
Proof.
  intros Hline ts s Hr Hn. rewrite parseblock_S. apply peek_good; [done|]. intros s1 Hr1. destruct (next_in _ ts) eqn:Hnext; cbn [negb]; [|exact I].
  destruct (next_cons _ _ Hnext) as (t&ts1&->). cbn [length] in Hn. apply token_good; [done|]. intros _ _ _ s2 Hr2.
  apply good_bind; [apply Hline; [done|lia]|]. intros c s3 tr ts3 Ht Hm Hr3 _. apply peek_good; [done|]. intros s4 Hr4.
  destruct (next_in _ ts3) eqn:Hnext3; cbn [negb]; [|exact I]. destruct (next_cons _ _ Hnext3) as (t'&ts4&->). apply token_good; [done|]. intros _ _ _ s5 Hr5.
  destruct (parseredirs_total (es - s5) c s5 ts4 Hr5 (reads_length _ _ Hr5)) as [[out E]|(rs&rws&s6&ts6&E&Hf&Hr6&Hl)]; rewrite E; [exact I|by eapply wrap_good].
Qed.
Lemma exec_good_step n : block_good n -> exec_good (S n).
Proof.
  intros Hblock ts s Hr Hn. rewrite parseexec_S. apply peek_good; [done|]. intros s1 Hr1. destruct (next_in _ ts); [apply Hblock; [done|lia]|].
  destruct (parseredirs_total (es - s1) (EXEC []) s1 ts Hr1 (reads_length _ _ Hr1)) as [[out E]|(rs&rws&s2&ts2&E&Hf&Hr2&Hl)]; rewrite E; pstep; [exact I|].
  apply (good_weaken ts2); [|done]. by apply (parseargs_good ts2 (es - s2) [] [] rs rws); [done|apply reads_length|cbn; unfold MAXARGS; lia|constructor|].
Qed.
Lemma pipe_good_step n : exec_good n -> pipe_good n -> pipe_good (S n).
Proof.
  intros Hexec Hpipe ts s Hr Hn. rewrite parsepipe_S. apply good_bind; [apply Hexec; [done|lia]|]. intros c s1 t ts1 Ht Hm Hr1 Hl.
  apply peek_good; [done|]. intros s2 Hr2. destruct (next_in _ ts1) eqn:Hnext; [|by eapply done_good]. destruct (next_cons _ _ Hnext) as (u&ts2&->). cbn [length] in Hl.
  apply token_good; [done|]. intros _ _ _ s3 Hr3. apply good_bind; [apply Hpipe; [done|lia]|]. intros c' s4 t' ts4 Ht' Hm' Hr4 _. by apply (done_good _ (TPipe t t')).
Qed.
Lemma line_good_step n : pipe_good n -> line_good n -> line_good (S n).
Proof.
  intros Hpipe Hline ts s Hr Hn. rewrite parseline_S. apply good_bind; [apply Hpipe; [done|lia]|]. intros c s1 t ts1 Ht Hm Hr1 Hl.
  apply good_bind; [by eapply parseback_total; [done|apply reads_length|..]|]. intros c1 s2 t1 ts2 Ht1 Hm1 Hr2 Hl2.
  apply peek_good; [done|]. intros s3 Hr3. destruct (next_in _ ts2) eqn:Hnext; [|by eapply done_good]. destruct (next_cons _ _ Hnext) as (u&ts3&->). cbn [length] in Hl2.
  apply token_good; [done|]. intros _ _ _ s4 Hr4. apply good_bind; [apply Hline; [done|lia]|]. intros c' s5 t' ts5 Ht' Hm' Hr5 _. by apply (done_good _ (TList t1 t')).
Qed.

Lemma parser_good n : line_good n /\ pipe_good n /\ exec_good n /\ block_good n.
Proof.
  induction n as [|n (Hl&Hp&He&Hb)]; [split_and!; intros ts s _; lia|].
  split_and!; [by apply line_good_step|by apply pipe_good_step|by apply exec_good_step|by apply block_good_step].
Qed.

End Buffer.

(** ** The words after [nulterminate] *)

(** Where it writes. *)
Fixpoint ends (c : cmd) : list nat :=
  match c with
  | EXEC argv => argv.*2
  | REDIR c _ efile _ _ => ends c ++ [efile]
  | PIPE l r | LIST l r => ends l ++ ends r
  | BACK c => ends c
  end.
Definition cut (l : list nat) (b : list Z) : list Z := fold_left (fun b e => <[e := 0]> b) l b.

Lemma nulterminate_cut c b : nulterminate c b = cut (ends c) b.
Proof.
  revert b. induction c as [argv|c IH q e m d|l IHl r IHr|l IHl r IHr|c IH]; intros b; cbn [nulterminate ends]; unfold cut in *; rewrite ?fold_left_app.
  - revert b. induction argv as [|[q e] argv IH]; intros b; [done|]. cbn. apply IH.
  - cbn. by rewrite IH.
  - by rewrite IHl, IHr.
  - by rewrite IHl, IHr.
  - apply IH.
Qed.
Lemma cut_length l b : length (cut l b) = length b.
Proof. revert b. induction l as [|e l IH]; intros b; [done|]. cbn. unfold cut in IH. by rewrite IH, length_insert. Qed.
Lemma cut_lookup l b i : (i < length b)%nat -> cut l b !! i = if decide (i ∈ l) then Some 0 else b !! i.
Proof.
  intros Hi. induction l as [|e l IH] using rev_ind; [by rewrite decide_False by set_solver|].
  unfold cut in *. rewrite fold_left_app. cbn. destruct (decide (i = e)) as [->|Hne].
  - rewrite decide_True by set_solver. apply list_lookup_insert_eq. pose proof (cut_length l b) as Hl. unfold cut in Hl. by rewrite Hl.
  - rewrite list_lookup_insert_ne, IH by done. destruct (decide (i ∈ l)); [rewrite decide_True by set_solver|rewrite decide_False by set_solver]; done.
Qed.

Lemma c_string_app w l : Forall (fun c => c <> 0) w -> c_string (w ++ 0 :: l) = w.
Proof. induction 1 as [|c w Hc _ IH]; [done|]. cbn. apply Z.eqb_neq in Hc. by rewrite Hc, IH. Qed.
Lemma string_from_bytes b q w : (forall k c, w !! k = Some c -> b !! (q + k)%nat = Some c) -> b !! (q + length w)%nat = Some 0 ->
  Forall (fun c => c <> 0) w -> string_from b q = w.
Proof.
  intros Hw H0 Hnz. unfold string_from. replace (drop q b) with (w ++ 0 :: drop (q + length w + 1) b); [by apply c_string_app|].
  apply list_eq. intros i. rewrite lookup_drop. destruct (decide (i < length w)%nat) as [Hi|Hi].
  - rewrite lookup_app_l by done. destruct (lookup_lt_is_Some_2 w i Hi) as [c Hc]. by rewrite Hc, (Hw i c Hc).
  - rewrite lookup_app_r by lia. destruct (decide (i = length w)) as [->|Hne]; [by rewrite Nat.sub_diag|].
    replace (i - length w)%nat with (S (i - length w - 1)) by lia. rewrite lookup_cons, lookup_drop. f_equal. lia.
Qed.

(** [c] with the strings of [b] is the command [t]. *)
Fixpoint denotes (b : list Z) (c : cmd) (t : tree) : Prop :=
  match c, t with
  | EXEC argv, TExec ws => (fun a => string_from b a.1) <$> argv = ws
  | REDIR c q _ mode fd, TRedir t file out => denotes b c t /\ string_from b q = file /\ mode = mode_of out /\ fd = fd_of out
  | PIPE l r, TPipe l' r' => denotes b l l' /\ denotes b r r'
  | LIST l r, TList l' r' => denotes b l l' /\ denotes b r r'
  | BACK c, TBack t => denotes b c t
  | _, _ => False
  end.

(** Every end is a byte of the buffer that belongs to no word. *)
Definition stops (b : list Z) (l : list nat) : Prop := forall e, e ∈ l -> exists c, b !! e = Some c /\ wordc c = false.

Lemma word_cut b l q e w : word_at b q e w -> stops b l -> e ∈ l -> string_from (cut l b) q = w.
Proof.
  intros [-> Hb [_ Hw] (s&Hs&_)] Hl He. apply string_from_bytes.
  - intros k c Hk. specialize (Hb k c Hk). rewrite cut_lookup by (by eapply lookup_lt_Some). rewrite decide_False; [done|]. intros (d&Hd&Hdw)%Hl.
    rewrite Forall_lookup in Hw. apply Hw in Hk. simplify_eq. congruence.
  - rewrite cut_lookup by (by eapply lookup_lt_Some). by rewrite decide_True.
  - eapply Forall_impl; [exact Hw|]. cbn. intros c Hc ->. done.
Qed.
Lemma means_stops b c t : means b c t -> stops b (ends c).
Proof.
  revert t. induction c as [argv|c IH q e m d|l IHl r IHr|l IHl r IHr|c IH]; intros [ws|t f o|l' r'|l' r'|t]; try done; cbn [means ends].
  - induction 1 as [|[q e] w argv ws H _ IH]; [by intros e ?%elem_of_nil|]. intros e' [->|He]%elem_of_cons; [by apply H|by apply IH].
  - intros (H&Hw&_). intros e' [He|He]%elem_of_app; [by eapply IH|]. apply list_elem_of_singleton in He as ->. apply Hw.
  - intros [H1 H2] e [He|He]%elem_of_app; [by eapply IHl|by eapply IHr].
  - intros [H1 H2] e [He|He]%elem_of_app; [by eapply IHl|by eapply IHr].
  - apply IH.
Qed.
Lemma means_denotes b l c t : means b c t -> stops b l -> ends c ⊆ l -> denotes (cut l b) c t.
Proof.
  intros Hm Hl. revert t Hm. induction c as [argv|c IH q e m d|x IHx r IHr|x IHx r IHr|c IH]; intros [ws|t f o|x' r'|x' r'|t]; try done; cbn [means ends denotes].
  - induction 1 as [|[q e] w argv ws H _ IH]; [done|]. cbn. intros Hsub. f_equal; [eapply word_cut; [exact H|done|set_solver]|apply IH; set_solver].
  - intros (H&Hw&Hm&Hd) Hsub. split; [apply IH; [done|set_solver]|]. split; [|done]. eapply word_cut; [done|done|set_solver].
  - intros [H1 H2] Hsub. split; [apply IHx|apply IHr]; set_solver.
  - intros [H1 H2] Hsub. split; [apply IHx|apply IHr]; set_solver.
  - apply IH.
Qed.

(** ** The whole parser *)
Lemma strlen_line l rest : Forall (fun c => c <> 0) l -> strlen (l ++ 0 :: rest) = Done (length l).
Proof.
  intros H. unfold strlen. assert (Hf : find_index (Z.eqb 0) (l ++ 0 :: rest) = Some (length l)).
  { induction H as [|c l Hc _ IH]; [done|]. cbn [app find_index]. rewrite (proj2 (Z.eqb_neq 0 c)), IH by congruence. done. }
  by rewrite Hf.
Qed.

Lemma reads_start l rest ts : Forall (fun c => c <> 0) l -> spells l ts -> reads (l ++ 0 :: rest) (length l) 0 ts.
Proof. intros H Hs. exists l. split; [|done]. split; [done|]. intros k c Hk. cbn. by apply lookup_app_l_Some. Qed.

(** The end of [parsecmd]. *)
Lemma parsecmd_done l rest c s t : Forall (fun c => c <> 0) l -> parseline (l ++ 0 :: rest) (length l) (parse_fuel (length l)) 0 = Done (c, s) ->
  means (l ++ 0 :: rest) c t -> reads (l ++ 0 :: rest) (length l) s [] ->
  exists buf', parsecmd (l ++ 0 :: rest) = Done (c, buf') /\ denotes buf' c t /\ length buf' = length (l ++ 0 :: rest).
Proof.
  intros Hl E Hm Hr. assert (Hnul : (l ++ 0 :: rest) !! length l = Some 0) by (by rewrite lookup_app_r, Nat.sub_diag by lia).
  exists (cut (ends c) (l ++ 0 :: rest)). split; [|split; [|apply cut_length]].
  - unfold parsecmd. rewrite strlen_line by done. cbn [mbind outcome_bind]. rewrite E. cbn [mbind outcome_bind].
    destruct (skip_reads _ _ Hnul s [] Hr) as (s'&l'&E'&[Hs _]&_&->). unfold peek. rewrite E'. cbn [mbind outcome_bind]. cbn in Hs. rewrite Nat.add_0_r in Hs. subst s'.
    unfold char_at. rewrite Hnul. cbn [mbind outcome_bind]. rewrite Nat.eqb_refl. cbn [negb]. by rewrite nulterminate_cut.
  - apply means_denotes; [done|by eapply means_stops|done].
Qed.

Lemma parsecmd_spells l rest t : Forall (fun c => c <> 0) l -> tree_ok t -> spells l (print 3 t) ->
  exists c buf', parsecmd (l ++ 0 :: rest) = Done (c, buf') /\ denotes buf' c t.
Proof.
  intros Hl Ht Hs. assert (Hnul : (l ++ 0 :: rest) !! length l = Some 0) by (by rewrite lookup_app_r, Nat.sub_diag by lia).
  destruct (parser_ok _ _ Hnul (parse_fuel (length l))) as (Hline&_).
  destruct (Hline t 0%nat [] Ht) as (c&s&E&Hm&Hr); [by rewrite app_nil_r; apply reads_start|by left|rewrite app_nil_r; apply spells_length in Hs; unfold parse_fuel; lia|].
  destruct (parsecmd_done l rest c s t) as (buf'&Ep&Hd&_); [done..|]. eauto.
Qed.

(** C4: [parsecmd] is the inverse of writing a command down: when the bytes of
    the buffer up to the first NUL spell, with any white space between the
    tokens, a command of at most nine words per simple command, nested as deeply
    as one likes, [parsecmd] returns that command (lists right to left, pipes
    inside lists, & on pipelines, redirections to files opened for reading or for
    writing and creating) and the words and file names it points to are, after
    [nulterminate], exactly the NUL-terminated words of the command. *)
Theorem parsecmd_print l rest t : Forall (fun c => c <> 0) l -> tree_ok t -> spells l (print 3 t) ->
  exists c buf', parsecmd (l ++ 0 :: rest) = Done (c, buf') /\ denotes buf' c t.
Proof. apply parsecmd_spells. Qed.

(** C5: For every NUL-terminated buffer [parsecmd] ends without reading outside
    the line: it stops in [panic] with a message, or it returns a command all of
    whose simple commands have fewer than [MAXARGS] arguments and whose words and
    file names are non-empty strings of the buffer free of white space and
    operators; the buffer keeps its size. *)
Theorem parsecmd_total l rest : Forall (fun c => c <> 0) l ->
  (exists out, parsecmd (l ++ 0 :: rest) = Panics out) \/
  exists c buf' t, parsecmd (l ++ 0 :: rest) = Done (c, buf') /\ tree_ok t /\ denotes buf' c t /\ length buf' = length (l ++ 0 :: rest).
Proof.
  intros Hl. destruct (spells_some l Hl) as [ts Hs]. assert (Hnul : (l ++ 0 :: rest) !! length l = Some 0) by (by rewrite lookup_app_r, Nat.sub_diag by lia).
  destruct (parser_good _ _ Hnul (parse_fuel (length l))) as (Hline&_). specialize (Hline ts 0%nat (reads_start l rest ts Hl Hs)).
  pose proof (spells_length _ _ Hs) as Hlen. specialize (Hline ltac:(unfold parse_fuel; lia)).
  destruct (parseline _ _ _ _) as [[c s]|out| |] eqn:E; [|left|done..].
  - destruct Hline as [(t&Ht&Hm) (ts'&Hr&_)]. destruct ts' as [|u ts'].
    + destruct (parsecmd_done l rest c s t) as (buf'&Ep&Hd&Hb); [done..|]. right. by exists c, buf', t.
    + left. unfold parsecmd. rewrite strlen_line by done. cbn [mbind outcome_bind]. rewrite E. cbn [mbind outcome_bind].
      destruct (peek_ok _ _ Hnul s _ [] Hr) as (s'&E'&Hr'). rewrite E'. cbn [mbind outcome_bind].
      apply reads_length in Hr'. cbn in Hr'. rewrite (proj2 (Nat.eqb_neq s' (length l))) by lia. by eexists.
  - unfold parsecmd. rewrite strlen_line by done. cbn [mbind outcome_bind]. rewrite E. by exists out.
Qed.

(** A demo: [ls -l | (grep x; wc) > out &] *)
Definition demo_tree : tree :=
  TBack (TPipe (TExec [chars "ls"; chars "-l"]) (TRedir (TList (TExec [chars "grep"; chars "x"]) (TExec [chars "wc"])) (chars "out") true)).
Lemma demo_tree_ok : tree_ok demo_tree.
Proof. cbn [tree_ok demo_tree MAXARGS length]. repeat first [split | constructor | lia | reflexivity | discriminate]. Qed.

Lemma parsecmd_print_witness : exists c buf', parsecmd (render (print 3 demo_tree) ++ 0 :: [7]) = Done (c, buf') /\ denotes buf' c demo_tree.
Proof.
  apply parsecmd_print.
  - vm_compute. repeat constructor; discriminate.
  - exact demo_tree_ok.
  - apply spells_render. vm_compute. repeat first [constructor | discriminate | reflexivity].
Defined.

Lemma parsecmd_total_witness : (exists out, parsecmd (chars "ls >|" ++ 0 :: [7]) = Panics out) \/
  exists c buf' t, parsecmd (chars "ls >|" ++ 0 :: [7]) = Done (c, buf') /\ tree_ok t /\ denotes buf' c t /\ length buf' = length (chars "ls >|" ++ 0 :: [7]).
Proof. apply parsecmd_total. vm_compute. repeat constructor; discriminate. Defined.

End ShParse.
