(* ===== verification/ShRun.v ===== *)
(** * ShRun: running commands and the main loop of the shell (sh.c)

    A process of the shell is the tree of the system calls it makes, with a
    branch per result: [Fork k] goes on as [k 0] in the child and as [k pid] in
    the parent.  [runcmd], [getcmd] and [main] are such trees, with the shell's
    error branches; [getcmd] runs [memset] and [gets] of the user library on the
    buffer.  The lemmas say which buffer a line typed leaves, and which command
    or directory the shell takes from it; [ShSession] runs the trees. *)
From S2P Require Import Prelude KState Sysfile Str Ulib Sh ShParse.

Module ShRun.
Import Sh.

(** ** Processes *)
Inductive code : Type :=
| Exit
| Fault
| Exec (path : list Z) (argv : list (list Z)) (failed : code)
| Open (file : list Z) (mode : Z) (k : Z -> code)
| Close (fd : Z) (k : code)
| Pipe (k : option (Z * Z) -> code)
| Dup (fd : Z) (k : code)
| Fork (k : Z -> code)
| Wait (k : code)
| Chdir (path : list Z) (k : Z -> code)
| Print (out : list Z) (k : code).

(** [panic(s)]: print [s] on descriptor 2 and exit. *)
Definition panic (s : string) : code := Print (chars s ++ [10]) Exit.

(** Fork but panics on failure. *)
Definition fork1 (k : Z -> code) : code := Fork (fun pid => if pid =? -1 then panic "fork" else k pid).

(** Execute [c], its strings in [b].  Never returns. *)
Fixpoint runcmd (b : list Z) (c : cmd) : code :=
  match c with
  | EXEC argv =>
    match argv with
    | [] => Exit
    | (q, _) :: _ =>
      Exec (string_from b q) ((fun a => string_from b a.1) <$> argv)
        (Print (chars "exec " ++ string_from b q ++ chars " failed" ++ [10]) Exit)
    end
  | REDIR c q _ mode fd =>
    Close fd (Open (string_from b q) mode (fun r =>
      if r <? 0 then Print (chars "open " ++ string_from b q ++ chars " failed" ++ [10]) Exit else runcmd b c))
  | LIST l r => fork1 (fun pid => if pid =? 0 then runcmd b l else Wait (runcmd b r))
  | PIPE l r =>
    Pipe (fun p => match p with
      | None => panic "pipe"
      | Some (p0, p1) =>
        fork1 (fun pid => if pid =? 0 then Close 1 (Dup p1 (Close p0 (Close p1 (runcmd b l)))) else
        fork1 (fun pid => if pid =? 0 then Close 0 (Dup p0 (Close p0 (Close p1 (runcmd b r)))) else
        Close p0 (Close p1 (Wait (Wait Exit)))))
      end)
  | BACK c => fork1 (fun pid => if pid =? 0 then runcmd b c else Exit)
  end.

(** [runcmd(parsecmd(buf))] *)
Definition run_line (buf : list Z) : code :=
  match parsecmd buf with
  | Done (c, b) => runcmd b c
  | Panics out => Print out Exit
  | _ => Fault
  end.

(** [getcmd], without its prompt: [buf] is filled with zeros, then by [gets] from [input];
    [None] is a fault.  The result is [buf], the rest of the input, and whether
    it is at the end. *)
Definition getcmd (buf input : list Z) : option (list Z * list Z * bool) :=
  let m := Str.mwrite ∅ 0 buf in
  m ← Ulib.memset m 0 0 (Z.of_nat (length buf));
  '(m, input) ← Ulib.gets m 0 (Z.of_nat (length buf)) input;
  b ← Str.mread m 0 (length buf);
  c ← b !! 0%nat;
  Some (b, input, c =? 0).

(** [buf[0] == 'c' && buf[1] == 'd' && buf[2] == ' '] *)
Definition is_cd (b : list Z) : bool :=
  match b with c :: d :: s :: _ => (c =? 99) && (d =? 100) && (s =? 32) | _ => false end.

(** The loop of [main] that reads and runs commands, at most [fuel] lines. *)
Fixpoint main_loop (fuel : nat) (buf input : list Z) : code :=
  match fuel with
  | O => Exit
  | S fuel =>
    Print (chars "$ ") (
    match getcmd buf input with
    | Some (buf, input, false) =>
      if is_cd buf then
        let buf := match strlen buf with Done n => <[(n - 1)%nat := 0]> buf | _ => buf end in
        Chdir (string_from buf 3) (fun r =>
          if r <? 0 then Print (chars "cannot cd " ++ string_from buf 3 ++ [10]) (main_loop fuel buf input)
          else main_loop fuel buf input)
      else fork1 (fun pid => if pid =? 0 then run_line buf else Wait (main_loop fuel buf input))
    | Some (_, _, true) => Exit
    | None => Fault
    end)
  end.

(** Ensure that three file descriptors are open; at most [n] calls of [open]. *)
Fixpoint open_console (n : nat) (k : code) : code :=
  match n with
  | O => k
  | S n => Open (chars "console") O_RDWR (fun fd => if 0 <=? fd then if 3 <=? fd then Close fd k else open_console n k else k)
  end.

Definition BUFSIZE : nat := 100.
Definition main (input : list Z) : code := open_console 4 (main_loop (S (length input)) (replicate BUFSIZE 0) input).

Import ShParse.

(** ** The lines of a session *)

(** The input: the lines, each with its newline. *)
Definition keyboard (ws : list (list Z)) : list Z := concat ((fun w => w ++ [10]) <$> ws).

(** What the user types. *)
Inductive entry : Type := Do (t : tree) | Cd (dir : list Z).

(** The bytes of a line that fits the buffer, without its newline. *)
Definition plain (w : list Z) : Prop := Forall (fun c => c <> 0 /\ c <> 10 /\ c <> 13) w /\ (length w + 2 <= BUFSIZE)%nat.
Definition typed (w : list Z) (x : entry) : Prop :=
  plain w /\ match x with Do t => is_cd w = false /\ tree_ok t /\ spells w (print 3 t) | Cd dir => w = chars "cd " ++ dir end.

Lemma line_plain w rest : Forall (fun c => c <> 0 /\ c <> 10 /\ c <> 13) w -> Ulib.line (w ++ 10 :: rest) = w ++ [10].
Proof. induction 1 as [|c w (_&H1&H2) _ IH]; [done|]. cbn. apply Z.eqb_neq in H1, H2. unfold Ulib.NL, Ulib.CR. by rewrite H1, H2, IH. Qed.

Lemma u8_zero n : replicate n (u8 0) = replicate n 0.
Proof. done. Qed.

(** The buffer after [getcmd]. *)
Lemma getcmd_buffer buf input : (0 < length buf)%nat ->
  let w := take (length buf - 1) (Ulib.line input) in let b := w ++ replicate (length buf - length w) 0 in
  getcmd buf input = (c ← b !! 0%nat; Some (b, drop (length w) input, c =? 0)).
Proof.
  intros Hpos w b. assert (Hw : (length w < length buf)%nat) by (unfold w; rewrite length_take; lia). unfold getcmd, Ulib.memset.
  assert (Hmap : forall l, length l = length buf -> Str.mapped (Str.mwrite ∅ 0 l) 0 (length buf)).
  { intros l Hl. eapply Str.mread_mapped. rewrite <- Hl. apply Str.mread_mwrite. }
  rewrite Nat2Z.id, Str.stosb_ok, u8_zero by (by apply Hmap). cbn [mbind option_bind].
  assert (Hz : Str.mwrite (Str.mwrite ∅ 0 buf) 0 (replicate (length buf) 0) = Str.mwrite ∅ 0 (replicate (length buf) 0)).
  { apply map_eq. intros x. destruct (decide (0 <= x < Z.of_nat (length buf))) as [Hx|Hx].
    - replace x with (0 + Z.of_nat (Z.to_nat x)) by lia. rewrite !(Str.mwrite_lookup_in _ 0 _ _ 0); [done|apply lookup_replicate; split; [done|lia]..].
    - rewrite !Str.mwrite_lookup_out by (rewrite ?length_replicate; lia). done. }
  rewrite Hz. destruct (Ulib.gets_line (Str.mwrite ∅ 0 (replicate (length buf) 0)) 0 (Z.of_nat (length buf)) input) as (rest&Hin&E); [lia| |].
  { rewrite Nat2Z.id. apply Hmap. apply length_replicate. }
  replace (Z.to_nat (Z.of_nat (length buf) - 1)) with (length buf - 1)%nat in * by lia. fold w in Hin, E. rewrite E. cbn [mbind option_bind].
  assert (Hr : Str.mread (Str.mwrite (Str.mwrite ∅ 0 (replicate (length buf) 0)) 0 (w ++ [0])) 0 (length buf) = Some b).
  { assert (Hlb : length b = length buf) by (unfold b; rewrite length_app, length_replicate; lia). rewrite <- Hlb at 2.
    rewrite <- (Str.mread_mwrite ∅ 0 b). apply Str.mread_ext. intros x Hx. unfold b. clearbody w. destruct (decide (x < Z.of_nat (length w))) as [Hlt|Hge].
    - replace x with (0 + Z.of_nat (Z.to_nat x)) by lia. destruct (lookup_lt_is_Some_2 w (Z.to_nat x)) as [c Hc]; [lia|].
      rewrite !(Str.mwrite_lookup_in _ 0 _ _ c); [done|by apply lookup_app_l_Some..].
    - replace x with (0 + Z.of_nat (Z.to_nat x)) by lia. rewrite (Str.mwrite_lookup_in ∅ 0 _ _ 0).
      2:{ rewrite lookup_app_r by lia. apply lookup_replicate. split; [done|lia]. }
      destruct (decide (x = Z.of_nat (length w))) as [->|Hne].
      + rewrite Nat2Z.id. apply Str.mwrite_lookup_in. rewrite lookup_app_r, Nat.sub_diag by lia. done.
      + rewrite Str.mwrite_lookup_out by (rewrite length_app; cbn; lia). apply Str.mwrite_lookup_in. apply lookup_replicate. split; [done|lia]. }
  rewrite Hr. cbn [mbind option_bind]. replace rest with (drop (length w) input); [done|]. rewrite Hin at 1. by rewrite drop_app_length.
Qed.

(** A line read into the buffer. *)
Lemma getcmd_typed buf w rest : length buf = BUFSIZE -> plain w ->
  getcmd buf (w ++ 10 :: rest) = Some ((w ++ [10]) ++ 0 :: replicate (BUFSIZE - length w - 2) 0, rest, false).
Proof.
  intros Hb [Hw Hlen]. assert (Hpos : (0 < length buf)%nat) by (rewrite Hb; unfold BUFSIZE; lia). rewrite (getcmd_buffer buf _ Hpos), Hb.
  rewrite (line_plain w rest Hw), take_ge by (rewrite length_app; cbn [length]; lia). rewrite length_app. cbn [length].
  replace (BUFSIZE - (length w + 1))%nat with (S (BUFSIZE - length w - 2)) by lia. cbn [replicate].
  replace (drop (length w + 1) (w ++ 10 :: rest)) with rest.
  - destruct w as [|c w]; [done|]. apply Forall_cons in Hw as [(Hc&_) _]. cbn. apply Z.eqb_neq in Hc. by rewrite Hc.
  - change (w ++ 10 :: rest) with (w ++ [10] ++ rest). rewrite app_assoc. change 1%nat with (length [10]). by rewrite <- length_app, drop_app_length.
Qed.
Lemma getcmd_eof buf : length buf = BUFSIZE -> getcmd buf [] = Some (replicate BUFSIZE 0, [], true).
Proof. intros Hb. rewrite getcmd_buffer by (rewrite Hb; unfold BUFSIZE; lia). by rewrite Hb. Qed.

Lemma is_cd_line w r : is_cd ((w ++ [10]) ++ 0 :: r) = is_cd w.
Proof. destruct w as [|a [|b [|c w]]]; cbn; [by destruct r|by rewrite andb_false_r..|done]. Qed.

Lemma spells_newline l ts : spells l ts -> spells (l ++ [10]) ts.
Proof.
  revert l. induction ts as [|t ts IH]; intros l; cbn [spells].
  - intros H. apply Forall_app. split; [done|]. by repeat constructor.
  - intros (ws&l'&->&Hw&Ht&Ha&Hs). exists ws, (l' ++ [10]). rewrite <- !app_assoc. split; [done|]. split; [done|]. split; [done|]. split; [|by apply IH].
    destruct t as [c|w]; cbn in *.
    + intros Hc l2 E. destruct l' as [|d l']; [done|]. injection E as -> E. by apply (Ha Hc l').
    + intros c l2 E. destruct l' as [|d l']; cbn in E; injection E as <- E; [done|by eapply Ha].
Qed.

(** The child of a line that spells [t] runs [t]. *)
Lemma run_line_denotes w t r : plain w -> tree_ok t -> spells w (print 3 t) ->
  exists b c, run_line ((w ++ [10]) ++ 0 :: r) = runcmd b c /\ denotes b c t.
Proof.
  intros [Hw _] Ht Hs. assert (Hnz : Forall (fun c => c <> 0) (w ++ [10])).
  { apply Forall_app. split; [|by repeat constructor]. eapply Forall_impl; [exact Hw|]. by intros c [? _]. }
  destruct (parsecmd_spells (w ++ [10]) r t Hnz Ht (spells_newline _ _ Hs)) as (c&b&E&Hd). exists b, c. unfold run_line. by rewrite E.
Qed.

(** [cd]: the newline is cut off. *)
Lemma cd_path dir r : plain (chars "cd " ++ dir) ->
  let buf := ((chars "cd " ++ dir) ++ [10]) ++ 0 :: r in
  exists n, strlen buf = Done n /\ string_from (<[(n - 1)%nat := 0]> buf) 3 = dir /\ length (<[(n - 1)%nat := 0]> buf) = length buf.
Proof.
  intros [Hw _] buf. assert (Hnz : Forall (fun c => c <> 0) (chars "cd " ++ dir)) by (eapply Forall_impl; [exact Hw|]; by intros c [? _]).
  exists (length (chars "cd " ++ dir) + 1)%nat. split; [|split; [|apply length_insert]].
  - unfold buf. rewrite strlen_line; [by rewrite length_app|]. apply Forall_app. split; [done|]. by repeat constructor.
  - rewrite Nat.add_sub. unfold buf. rewrite <- app_assoc. rewrite insert_app_r_alt, Nat.sub_diag by done. apply Forall_app in Hnz as [_ Hd].
    unfold string_from. cbn. by apply c_string_app.
Qed.

End ShRun.
