(* ===== verification/ShSession.v ===== *)
(** * ShSession: the processes of the shell side by side (sh.c)

    The trees of [ShRun] run as processes: each has its descriptor table (lowest
    free descriptor first) and its children; any process may take the next step.
    [fork] makes a child beside its parent, [exit] leaves a zombie and hands the
    children to init, [wait] blocks until one child is a zombie.  A program that
    was started ends at any time, but one that reads its input to the end only
    when nobody in the system holds the write end of the pipe it reads.  Which
    files open, which programs exist, which of them read to the end and which
    directories can be entered are parameters.

    [act_step] is what command lines mean: [a ; b] starts [b] when [a] has ended,
    [a | b] runs both and has ended when both have, [a &] has ended at once while
    [a] goes on.  The theorem: every schedule of the processes shows a behaviour
    of the command lines, none gets stuck, and all end. *)
From Stdlib Require Import QArith Lqa.
From S2P Require Import Prelude KState Sysfile Str Ulib Sh ShParse ShRun.
Local Open Scope Z_scope.

Module ShSession.
Import Sh ShParse ShRun.

(** What a descriptor refers to. *)
Inductive obj : Type := Std (n : nat) | Opened (file : list Z) (mode : Z) | PipeR (n : nat) | PipeW (n : nat).
Abbreviation table := (list (option obj)).

(** A process killed by a fault; a program started or ended, with its
    descriptors; text printed; a directory entered. *)
Inductive event : Type :=
| Crashed
| Started (argv : list (list Z)) (ofile : table)
| Ended (argv : list (list Z)) (ofile : table)
| Said (where_ : option obj) (out : list Z)
| Moved (path : list Z).

Definition is_free (o : option obj) : bool := match o with None => true | _ => false end.
(** The lowest free descriptor, as [fdalloc] finds it. *)
Definition fdalloc (f : table) (o : obj) : option (Z * table) :=
  i ← find_index is_free f; Some (Z.of_nat i, <[i := Some o]> f).
Definition fd_get (f : table) (fd : Z) : option obj := if fd <? 0 then None else mjoin (f !! Z.to_nat fd).
Definition fd_close (f : table) (fd : Z) : table := if fd <? 0 then f else <[Z.to_nat fd := None]> f.

(** Descriptors 0, 1 and 2 and nothing else. *)
Definition std (i o : obj) : table := Some i :: Some o :: Some (Std 2) :: replicate 13 None.

(** A process with the children it has not waited for. *)
Inductive status : Type := Running (c : code) (f : table) | Program (argv : list (list Z)) (f : table) | Zombie.
Inductive proc : Type := Proc (s : status) (kids : list proc).

#[global] Instance obj_eq_dec : EqDecision obj.
Proof. solve_decision. Defined.

(** The process, or one below it, has the write end of pipe [m] open. *)
Fixpoint holds (m : nat) (p : proc) : bool :=
  let 'Proc s kids := p in
  match s with Running _ f | Program _ f => bool_decide (Some (PipeW m) ∈ f) | Zombie => false end || existsb (holds m) kids.

Section World.
Context (opens : list Z -> Z -> bool) (exists_ : list Z -> bool) (enters : list Z -> bool).
(** Programs that read their standard input to its end before they end. *)
Context (patient : list (list Z) -> bool).

(** ** The processes *)

(** System calls that touch only the caller's descriptors. *)
Definition local (c : code) (f : table) : option (code * table) :=
  match c with
  | Close fd k => Some (k, fd_close f fd)
  | Dup fd k => Some (k, from_option snd f (o ← fd_get f fd; fdalloc f o))
  | Open file mode k =>
    Some match (if opens file mode then fdalloc f (Opened file mode) else None) with Some (fd, f') => (k fd, f') | None => (k (-1), f) end
  | _ => None
  end.

(** One step of a process or one below it: [wr] are the pipes whose write end is
    open, the number counts the pipes made, the last list are the children left
    to init. *)
Inductive pstep (wr : nat -> bool) : nat -> proc -> option event -> nat -> proc -> list proc -> Prop :=
| ps_exit n f kids : pstep wr n (Proc (Running Exit f) kids) None n (Proc Zombie []) kids
| ps_fault n f kids : pstep wr n (Proc (Running Fault f) kids) (Some Crashed) n (Proc Zombie []) kids
| ps_exec n path argv failed f kids : exists_ path = true ->
  pstep wr n (Proc (Running (Exec path argv failed) f) kids) (Some (Started argv f)) n (Proc (Program argv f) kids) []
| ps_exec_fails n path argv failed f kids : exists_ path = false ->
  pstep wr n (Proc (Running (Exec path argv failed) f) kids) None n (Proc (Running failed f) kids) []
| ps_end n argv f kids : (patient argv = true -> forall m, f !! 0%nat = Some (Some (PipeR m)) -> wr m = false) ->
  pstep wr n (Proc (Program argv f) kids) (Some (Ended argv f)) n (Proc Zombie []) kids
| ps_local n c f kids c' f' : local c f = Some (c', f') ->
  pstep wr n (Proc (Running c f) kids) None n (Proc (Running c' f') kids) []
| ps_pipe n k f kids p0 f0 p1 f1 : fdalloc f (PipeR n) = Some (p0, f0) -> fdalloc f0 (PipeW n) = Some (p1, f1) ->
  pstep wr n (Proc (Running (Pipe k) f) kids) None (S n) (Proc (Running (k (Some (p0, p1))) f1) kids) []
| ps_pipe_fails n k f kids : ('(_, f0) ← fdalloc f (PipeR n); fdalloc f0 (PipeW n)) = None ->
  pstep wr n (Proc (Running (Pipe k) f) kids) None n (Proc (Running (k None) f) kids) []
| ps_fork n k f kids pid : 0 < pid ->
  pstep wr n (Proc (Running (Fork k) f) kids) None n (Proc (Running (k pid) f) (kids ++ [Proc (Running (k 0) f) []])) []
| ps_wait n k f l r :
  pstep wr n (Proc (Running (Wait k) f) (l ++ Proc Zombie [] :: r)) None n (Proc (Running k f) (l ++ r)) []
| ps_wait_none n k f : pstep wr n (Proc (Running (Wait k) f) []) None n (Proc (Running k f) []) []
| ps_chdir n path k f kids : enters path = true ->
  pstep wr n (Proc (Running (Chdir path k) f) kids) (Some (Moved path)) n (Proc (Running (k 0) f) kids) []
| ps_chdir_fails n path k f kids : enters path = false ->
  pstep wr n (Proc (Running (Chdir path k) f) kids) None n (Proc (Running (k (-1)) f) kids) []
| ps_print n out k f kids :
  pstep wr n (Proc (Running (Print out k) f) kids) (Some (Said (fd_get f 2) out)) n (Proc (Running k f) kids) []
| ps_kid n s l k r ev n' k' orphans : pstep wr n k ev n' k' orphans ->
  pstep wr n (Proc s (l ++ k :: r)) ev n' (Proc s (l ++ k' :: r)) orphans.

(** The number of pipes made and the children of init. *)
Abbreviation system := (nat * list proc)%type.
Inductive step : system -> option event -> system -> Prop :=
| step_in n l p r ev n' p' orphans : pstep (fun m => existsb (holds m) (l ++ p :: r)) n p ev n' p' orphans ->
  step (n, l ++ p :: r) ev (n', l ++ p' :: r ++ orphans)
| step_reap n l r : step (n, l ++ Proc Zombie [] :: r) None (n, l ++ r).

(** [k] steps with the events they show. *)
Inductive runs (s : system) : nat -> list event -> system -> Prop :=
| runs_0 : runs s 0 [] s
| runs_S k evs s1 ev s2 : runs s k evs s1 -> step s1 ev s2 -> runs s (S k) (evs ++ option_list ev) s2.

(** ** What the lines mean *)

(** A command to do, a program that runs, a list whose left side runs, the two
    sides of a pipe; the shell before its prompt, with the line [x] read, or with
    that line in the foreground. *)
Inductive act : Type :=
| ADone
| ADo (t : tree) (i o : obj)
| AProg (argv : list (list Z)) (ofile : table)
| ASeq (a : act) (t : tree) (i o : obj)
| APipe (a b : act)
| AShell (l : list entry)
| ALine (x : entry) (l : list entry)
| AFg (a : act) (l : list entry).

(** A step of an activity and the activities it leaves in the background. *)
Inductive act_step : nat -> act -> option event -> nat -> act -> list act -> Prop :=
| as_nothing n i o : act_step n (ADo (TExec []) i o) None n ADone []
| as_start n path args i o : exists_ path = true ->
  act_step n (ADo (TExec (path :: args)) i o) (Some (Started (path :: args) (std i o))) n (AProg (path :: args) (std i o)) []
| as_missing n path args i o : exists_ path = false ->
  act_step n (ADo (TExec (path :: args)) i o) (Some (Said (Some (Std 2)) (chars "exec " ++ path ++ chars " failed" ++ [10]))) n ADone []
| as_end n argv f : act_step n (AProg argv f) (Some (Ended argv f)) n ADone []
| as_redir n t file (out : bool) i o : opens file (mode_of out) = true ->
  act_step n (ADo (TRedir t file out) i o) None n
    (if out then ADo t i (Opened file (mode_of out)) else ADo t (Opened file (mode_of out)) o) []
| as_unopened n t file out i o : opens file (mode_of out) = false ->
  act_step n (ADo (TRedir t file out) i o) (Some (Said (Some (Std 2)) (chars "open " ++ file ++ chars " failed" ++ [10]))) n ADone []
| as_list n l r i o : act_step n (ADo (TList l r) i o) None n (ASeq (ADo l i o) r i o) []
| as_seq n a ev n' a' bg t i o : act_step n a ev n' a' bg -> act_step n (ASeq a t i o) ev n' (ASeq a' t i o) bg
| as_next n t i o : act_step n (ASeq ADone t i o) None n (ADo t i o) []
| as_pipe n l r i o : act_step n (ADo (TPipe l r) i o) None (S n) (APipe (ADo l i (PipeW n)) (ADo r (PipeR n) o)) []
| as_left n a ev n' a' bg b : act_step n a ev n' a' bg -> act_step n (APipe a b) ev n' (APipe a' b) bg
| as_right n a b ev n' b' bg : act_step n b ev n' b' bg -> act_step n (APipe a b) ev n' (APipe a b') bg
| as_piped n : act_step n (APipe ADone ADone) None n ADone []
| as_back n t i o : act_step n (ADo (TBack t) i o) None n ADone [ADo t i o]
| as_prompt n x l : act_step n (AShell (x :: l)) (Some (Said (Some (Std 2)) (chars "$ "))) n (ALine x l) []
| as_eof n : act_step n (AShell []) (Some (Said (Some (Std 2)) (chars "$ "))) n ADone []
| as_line n t l : act_step n (ALine (Do t) l) None n (AFg (ADo t (Std 0) (Std 1)) l) []
| as_fg n a ev n' a' bg l : act_step n a ev n' a' bg -> act_step n (AFg a l) ev n' (AFg a' l) bg
| as_back_to_prompt n l : act_step n (AFg ADone l) None n (AShell l) []
| as_cd n dir l : enters dir = true -> act_step n (ALine (Cd dir) l) (Some (Moved dir)) n (AShell l) []
| as_no_cd n dir l : enters dir = false ->
  act_step n (ALine (Cd dir) l) (Some (Said (Some (Std 2)) (chars "cannot cd " ++ dir ++ [10]))) n (AShell l) [].

(** The shell and the activities in the background. *)
Abbreviation activities := (nat * list act)%type.
Inductive acts_step : activities -> option event -> activities -> Prop :=
| acts_in n l a r ev n' a' bg : act_step n a ev n' a' bg -> acts_step (n, l ++ a :: r) ev (n', l ++ a' :: r ++ bg).
Inductive means_trace (s : activities) : list event -> activities -> Prop :=
| mt_0 : means_trace s [] s
| mt_S evs s1 ev s2 : means_trace s evs s1 -> acts_step s1 ev s2 -> means_trace s (evs ++ option_list ev) s2.

(** ** The processes show what the lines mean *)

(** Pipes have ranks between 0 and 1 that grow from left to right: a process
    that reads pipe [a] and writes pipe [b] has [rank a < rank b]. *)
Definition rank_in (rank : nat -> Q) (i : obj) : Q := match i with PipeR m => rank m | _ => 0 end.
Definition rank_out (rank : nat -> Q) (o : obj) : Q := match o with PipeW m => rank m | _ => 1 end.
Definition made (n : nat) (o : obj) : Prop := match o with PipeR m | PipeW m => (m < n)%nat | _ => True end.
(** Standard input and output, on the two sides of the bound [B]. *)
Definition wired (rank : nat -> Q) (n : nat) (B : Q) (i o : obj) : Prop :=
  made n i /\ made n o /\ (rank_in rank i < B)%Q /\ (B <= rank_out rank o)%Q /\ (0 <= rank_in rank i)%Q /\ (B <= 1)%Q /\
  match i with PipeW _ => False | _ => True end.

(** The table of a process that has made pipe [m], and the children of [PIPE]. *)
Definition piped (i o : obj) (m : nat) : table := Some i :: Some o :: Some (Std 2) :: Some (PipeR m) :: Some (PipeW m) :: replicate 11 None.
Definition left_side (b : list Z) (l : cmd) : code := Close 1 (Dup 4 (Close 3 (Close 4 (runcmd b l)))).
Definition right_side (b : list Z) (r : cmd) : code := Close 0 (Dup 3 (Close 3 (Close 4 (runcmd b r)))).
Definition fork_right (b : list Z) (r : cmd) : code :=
  fork1 (fun pid => if pid =? 0 then right_side b r else Close 3 (Close 4 (Wait (Wait Exit)))).

(** A process does the activity [a] and has left [bg] in the background. *)
Inductive does (rank : nat -> Q) (n : nat) : Q -> proc -> act -> list act -> Prop :=
| d_zombie B : does rank n B (Proc Zombie []) ADone []
| d_exit B f : does rank n B (Proc (Running Exit f) []) ADone []
| d_cmd B b c t i o : denotes b c t -> wired rank n B i o -> does rank n B (Proc (Running (runcmd b c) (std i o)) []) (ADo t i o) []
| d_local B c f c' f' kids a bg : local c f = Some (c', f') -> does rank n B (Proc (Running c' f') kids) a bg ->
  does rank n B (Proc (Running c f) kids) a bg
| d_print B out k f a a' : (forall n, act_step n a (Some (Said (fd_get f 2) out)) n a' []) -> does rank n B (Proc (Running k f) []) a' [] ->
  does rank n B (Proc (Running (Print out k) f) []) a []
| d_program B argv i o : wired rank n B i o -> does rank n B (Proc (Program argv (std i o)) []) (AProg argv (std i o)) []
| d_list B b c t i o k a bg : denotes b c t -> wired rank n B i o -> does rank n B k a bg ->
  does rank n B (Proc (Running (Wait (runcmd b c)) (std i o)) [k]) (ASeq a t i o) bg
| d_pipe0 B C b l r l' r' i o m : denotes b l l' -> denotes b r r' -> wired rank n B i o -> wired rank n C i (PipeW m) -> wired rank n B (PipeR m) o ->
  (C <= B)%Q ->
  does rank n B (Proc (Running (fork1 (fun pid => if pid =? 0 then left_side b l else fork_right b r)) (piped i o m)) [])
    (APipe (ADo l' i (PipeW m)) (ADo r' (PipeR m) o)) []
| d_pipe1 B C b r r' i o m k a bg : denotes b r r' -> wired rank n B i o -> wired rank n B (PipeR m) o -> (C <= B)%Q -> does rank n C k a bg ->
  does rank n B (Proc (Running (fork_right b r) (piped i o m)) [k]) (APipe a (ADo r' (PipeR m) o)) bg
| d_pipe2 B C D i o k1 a1 bg1 k2 a2 bg2 bg : wired rank n B i o -> (C <= B)%Q -> (D <= B)%Q -> does rank n C k1 a1 bg1 -> does rank n D k2 a2 bg2 ->
  bg ≡ₚ bg1 ++ bg2 -> does rank n B (Proc (Running (Wait (Wait Exit)) (std i o)) [k1; k2]) (APipe a1 a2) bg
| d_pipe_left B C i o k a bg : wired rank n B i o -> (C <= B)%Q -> does rank n C k a bg ->
  does rank n B (Proc (Running (Wait Exit) (std i o)) [k]) (APipe a ADone) bg
| d_pipe_right B C i o k a bg : wired rank n B i o -> (C <= B)%Q -> does rank n C k a bg ->
  does rank n B (Proc (Running (Wait Exit) (std i o)) [k]) (APipe ADone a) bg
| d_back B f C k a bg bg' : does rank n C k a bg -> bg' ≡ₚ a :: bg -> does rank n B (Proc (Running Exit f) [k]) ADone bg'
| d_shell fuel buf ws l : length buf = BUFSIZE -> Forall2 typed ws l -> (length ws < fuel)%nat ->
  does rank n 1 (Proc (Running (main_loop fuel buf (keyboard ws)) (std (Std 0) (Std 1))) []) (AShell l) []
| d_line fuel buf ws l b c t : length buf = BUFSIZE -> Forall2 typed ws l -> (length ws < fuel)%nat -> denotes b c t ->
  does rank n 1 (Proc (Running (fork1 (fun pid => if pid =? 0 then runcmd b c else Wait (main_loop fuel buf (keyboard ws)))) (std (Std 0) (Std 1))) [])
    (ALine (Do t) l) []
| d_cd dir f k l : (enters dir = true -> does rank n 1 (Proc (Running (k 0) f) []) (AShell l) []) ->
  (enters dir = false -> does rank n 1 (Proc (Running (k (-1)) f) []) (ALine (Cd dir) l) []) ->
  does rank n 1 (Proc (Running (Chdir dir k) f) []) (ALine (Cd dir) l) []
| d_fg fuel buf ws l k a bg : length buf = BUFSIZE -> Forall2 typed ws l -> (length ws < fuel)%nat -> does rank n 1 k a bg ->
  does rank n 1 (Proc (Running (Wait (main_loop fuel buf (keyboard ws))) (std (Std 0) (Std 1))) [k]) (AFg a l) bg.

Definition agree (rank rank' : nat -> Q) (n n' : nat) : Prop := (n <= n')%nat /\ forall m, (m < n)%nat -> rank' m = rank m.
Lemma agree_refl rank n : agree rank rank n n.
Proof. split; [lia|done]. Qed.

Lemma made_mono n n' o : (n <= n')%nat -> made n o -> made n' o.
Proof. destruct o; cbn; lia. Qed.
Lemma wired_agree rank rank' n n' B i o : agree rank rank' n n' -> wired rank n B i o -> wired rank' n' B i o.
Proof.
  intros [Hn H] (Hi&Ho&H1&H2&H3&H4&H5). assert (Ei : rank_in rank' i = rank_in rank i) by (destruct i; cbn in *; auto).
  assert (Eo : rank_out rank' o = rank_out rank o) by (destruct o; cbn in *; auto). unfold wired. rewrite Ei, Eo. eauto 10 using made_mono.
Qed.
Lemma does_agree rank rank' n n' B p a bg : agree rank rank' n n' -> does rank n B p a bg -> does rank' n' B p a bg.
Proof. intros Ha. pose proof wired_agree as W. induction 1;
  [eapply d_zombie|eapply d_exit|eapply d_cmd|eapply d_local|eapply d_print|eapply d_program|eapply d_list|eapply d_pipe0|eapply d_pipe1|eapply (d_pipe2 _ _ B C D)|eapply d_pipe_left|eapply d_pipe_right|eapply d_back|eapply d_shell|eapply d_line|eapply d_cd|eapply d_fg]; eauto.
Qed.

(** Processes side by side; activities of processes that are gone have ended. *)
Inductive all_do (rank : nat -> Q) (n : nat) : list proc -> list act -> Prop :=
| ad_nil ds : Forall (eq ADone) ds -> all_do rank n [] ds
| ad_cons B p ps a bg as_ as' : does rank n B p a bg -> all_do rank n ps as_ -> as' ≡ₚ a :: bg ++ as_ -> all_do rank n (p :: ps) as'.

Lemma all_do_agree rank rank' n n' ps as_ : agree rank rank' n n' -> all_do rank n ps as_ -> all_do rank' n' ps as_.
Proof. intros Ha. induction 1; econstructor; eauto using does_agree. Qed.
Lemma all_do_acts rank n ps as_ as' : all_do rank n ps as_ -> as_ ≡ₚ as' -> all_do rank n ps as'.
Proof. intros H E. destruct H; [constructor; by rewrite <- E|]. econstructor; eauto. by rewrite <- E. Qed.
Lemma all_do_perm rank n ps ps' as_ : ps ≡ₚ ps' -> all_do rank n ps as_ -> all_do rank n ps' as_.
Proof.
  intros E. revert as_. induction E as [|p ps ps' _ IH|p q ps|ps1 ps2 ps3 _ IH1 _ IH2]; intros as_ H; [done|..|eauto].
  - inversion H; subst. econstructor; eauto.
  - inversion H as [|? ? ? ? ? ? ? Hq Hr E1]; subst. inversion Hr as [|? ? ? ? ? ? ? Hp Hrest E2]; subst.
    econstructor; [exact Hp|econstructor; [exact Hq|exact Hrest|reflexivity]|]. rewrite E1, E2. solve_Permutation.
Qed.
Lemma all_do_done rank n ps as_ ds : Forall (eq ADone) ds -> all_do rank n ps as_ -> all_do rank n ps (ds ++ as_).
Proof. intros Hds. induction 1 as [es H|B p ps a bg as_ as' Hp _ IH E]; [constructor; by apply Forall_app|]. econstructor; [exact Hp|exact IH|]. rewrite E. solve_Permutation. Qed.
Lemma all_do_app rank n ps qs as_ bs : all_do rank n ps as_ -> all_do rank n qs bs -> all_do rank n (ps ++ qs) (as_ ++ bs).
Proof. intros H Hq. induction H as [ds H|B p ps a bg as_ as' Hp _ IH E]; [by apply all_do_done|]. econstructor; [exact Hp|exact IH|]. rewrite E. solve_Permutation. Qed.

(** How activities follow a step of a process. *)
Inductive moves (n : nat) (a : act) (bg : list act) (ev : option event) (n' : nat) (a' : act) (tot : list act) : Prop :=
| mv_stay : ev = None -> n' = n -> a' = a -> tot ≡ₚ bg -> moves n a bg ev n' a' tot
| mv_fg sp : act_step n a ev n' a' sp -> tot ≡ₚ sp ++ bg -> moves n a bg ev n' a' tot
| mv_bg b rest b' sp : a' = a -> bg ≡ₚ b :: rest -> act_step n b ev n' b' sp -> tot ≡ₚ b' :: sp ++ rest -> moves n a bg ev n' a' tot.

Lemma moves_lift (F : act -> act) n a bg ev n' a' tot : (forall n a ev n' a' sp, act_step n a ev n' a' sp -> act_step n (F a) ev n' (F a') sp) ->
  moves n a bg ev n' a' tot -> moves n (F a) bg ev n' (F a') tot.
Proof. intros HF [-> -> -> E|sp H E|b rest b' sp -> E H E']; [by apply mv_stay|by eapply mv_fg; [apply HF|]|by eapply mv_bg]. Qed.
Lemma moves_more n a bg ev n' a' tot x bg2 tot2 : moves n a bg ev n' a' tot -> bg2 ≡ₚ bg ++ x -> tot2 ≡ₚ tot ++ x -> moves n a bg2 ev n' a' tot2.
Proof.
  intros [-> -> -> E|sp H E|b rest b' sp -> E H E'] E2 E3.
  - apply mv_stay; [done..|]. by rewrite E3, E2, E.
  - eapply mv_fg; [exact H|]. rewrite E3, E2, E. solve_Permutation.
  - eapply (mv_bg _ _ _ _ _ _ _ b (rest ++ x)); [done| |exact H|]; [rewrite E2, E|rewrite E3, E']; solve_Permutation.
Qed.
(** The activity of a child is one in the background of its parent that exits. *)
Lemma moves_under n a bg ev n' a' tot bg2 tot2 d : moves n a bg ev n' a' tot -> bg2 ≡ₚ a :: bg -> tot2 ≡ₚ a' :: tot -> moves n d bg2 ev n' d tot2.
Proof.
  intros [-> -> -> E|sp H E|b rest b' sp -> E H E'] E2 E3.
  - apply mv_stay; [done..|]. by rewrite E3, E2, E.
  - eapply mv_bg; [done|exact E2|exact H|]. by rewrite E3, E.
  - eapply (mv_bg _ _ _ _ _ _ _ b (a :: rest)); [done| |exact H|]; [rewrite E2, E|rewrite E3, E']; solve_Permutation.
Qed.

Lemma one_kid (l r : list proc) k k0 : l ++ k :: r = [k0] -> l = [] /\ k = k0 /\ r = [].
Proof. destruct l as [|? [|]]; cbn; intros; simplify_eq; done. Qed.
(** What a step of [p] leads to. *)
Definition follows (rank : nat -> Q) (n : nat) (B : Q) (a : act) (bg : list act) (ev : option event) (n' : nat) (p' : proc) (orphans : list proc) : Prop :=
  exists rank' a' bg' obg, agree rank rank' n n' /\ does rank' n' B p' a' bg' /\ all_do rank' n' orphans obg /\ moves n a bg ev n' a' (bg' ++ obg).

Lemma follows_stay rank n B a bg p' : does rank n B p' a bg -> follows rank n B a bg None n p' [].
Proof. intros H. exists rank, a, bg, []. split; [apply agree_refl|]. split; [done|]. split; [by constructor|]. apply mv_stay; [done..|]. by rewrite app_nil_r. Qed.
Lemma follows_act rank n B a a' bg sp ev p' : act_step n a ev n a' sp -> does rank n B p' a' (sp ++ bg) -> follows rank n B a bg ev n p' [].
Proof. intros Hs H. exists rank, a', (sp ++ bg), []. split; [apply agree_refl|]. split; [done|]. split; [by constructor|]. eapply mv_fg; [exact Hs|]. by rewrite app_nil_r. Qed.

Lemma fork1_parent (A : Type) (x y : A) pid : 0 < pid -> (if pid =? -1 then x else y) = y.
Proof. intros H. by replace (pid =? -1) with false by lia. Qed.
Lemma parent_pid (A : Type) (x y : A) pid : 0 < pid -> (if pid =? 0 then x else y) = y.
Proof. intros H. by replace (pid =? 0) with false by lia. Qed.
Lemma two_kids (l r : list proc) k k1 k2 : l ++ k :: r = [k1; k2] -> (l = [] /\ k = k1 /\ r = [k2]) \/ (l = [k1] /\ k = k2 /\ r = []).
Proof. destruct l as [|? [|? [|]]]; cbn; intros; simplify_eq; auto. Qed.
Lemma no_kids (l r : list proc) k : [] <> l ++ k :: r.
Proof. by destruct l. Qed.

(** The cases of a step, those of other system calls and of missing children away. *)
Ltac steps_of H := inversion H; subst; clear H; simplify_eq;
  try match goal with E : [] = _ ++ _ :: _ |- _ => by destruct (no_kids _ _ _ E) | E : _ ++ _ :: _ = [] |- _ => by destruct (no_kids _ _ _ (eq_sym E)) end.

Ltac only_kid := match goal with
  | E : [_] = _ ++ _ :: _ |- _ => symmetry in E; apply one_kid in E as (?&?&?)
  | E : _ ++ _ :: _ = [_] |- _ => apply one_kid in E as (?&?&?) end; subst; cbn [app] in *.

(** A new pipe gets a rank between its process's input and bound. *)
Lemma new_pipe rank n B i o : wired rank n B i o -> exists rank' C, agree rank rank' n (S n) /\ (C <= B)%Q /\
  wired rank' (S n) C i (PipeW n) /\ wired rank' (S n) B (PipeR n) o.
Proof.
  intros H. pose proof H as (Hi&Ho&H1&H2&H3&H4&H5). set (C := ((rank_in rank i + B) / 2)%Q).
  assert (HC : (rank_in rank i < C)%Q /\ (C < B)%Q) by (unfold C; split; [apply Qlt_shift_div_l|apply Qlt_shift_div_r]; try reflexivity; lra).
  set (rank' := fun m => if decide (m = n) then C else rank m). assert (Ha : agree rank rank' n (S n)).
  { split; [lia|]. intros m Hm. unfold rank'. by rewrite decide_False by lia. }
  destruct (wired_agree _ _ _ _ _ _ _ Ha H) as (Wi&Wo&W1&W2&_). assert (Er : rank' n = C) by (unfold rank'; by rewrite decide_True).
  assert (Ei : rank_in rank' i = rank_in rank i). { destruct i; cbn in *; try done. unfold rank'. by rewrite decide_False by lia. }
  exists rank', C. split; [done|]. split; [lra|].
  split; repeat split; cbn [made rank_in rank_out]; try done; try lia; rewrite ?Er, ?Ei; try lra.
Qed.

Lemma wired_redir rank n B i o file mode (out : bool) : wired rank n B i o ->
  wired rank n B (if out then i else Opened file mode) (if out then Opened file mode else o).
Proof. intros (Hi&Ho&H1&H2&H3&H4&H5). destruct out; repeat split; cbn; try done; lra. Qed.

(** A step of a process that starts a command. *)
Lemma cmd_step wr rank n B b c t i o ev n' p' orphans : denotes b c t -> wired rank n B i o ->
  pstep wr n (Proc (Running (runcmd b c) (std i o)) []) ev n' p' orphans -> follows rank n B (ADo t i o) [] ev n' p' orphans.
Proof.
  intros Hd Hw Hs. destruct c as [argv|c q eq mode fd|l r|l r|c], t as [ws|t file out|l' r'|l' r'|t]; try done; cbn [denotes runcmd] in *.
  - subst ws. destruct argv as [|[q eq] argv].
    + steps_of Hs. eapply (follows_act _ _ _ _ ADone _ []); [apply as_nothing|]. apply d_zombie.
    + cbn [fmap list_fmap] in *. steps_of Hs.
      * eapply (follows_act _ _ _ _ _ _ []); [by apply as_start|]. by apply d_program.
      * apply follows_stay. eapply d_print; [|apply d_exit]. intros m. by apply as_missing.
  - destruct Hd as (Hd&<-&->&->). steps_of Hs. destruct (opens (string_from b q) (mode_of out)) eqn:Ho.
    + eapply (follows_act _ _ _ _ _ _ []); [by apply as_redir|]. pose proof (wired_redir _ _ _ _ _ (string_from b q) (mode_of out) out Hw) as Hw'.
      destruct out; cbn [fd_of] in *; simplify_eq/=.
      * eapply d_local; [cbn; rewrite Ho; reflexivity|]. by apply (d_cmd _ _ _ b c t).
      * eapply d_local; [cbn; rewrite Ho; reflexivity|]. by apply (d_cmd _ _ _ b c t).
    + apply follows_stay. destruct out; simplify_eq/=; (eapply d_local; [cbn; rewrite Ho; reflexivity|]); cbn [Z.ltb Z.compare];
        (eapply d_print; [|apply d_exit]); intros m; by apply (as_unopened _ _ _ true) || by apply (as_unopened _ _ _ false).
  - destruct Hd as [Hl Hr]. steps_of Hs. do 2 (cbn in *; simplify_eq). destruct (new_pipe _ _ _ _ _ Hw) as (rank'&C&Ha&HC&W1&W2).
    exists rank', (APipe (ADo l' i (PipeW n)) (ADo r' (PipeR n) o)), [], []. split; [done|]. split; [|split; [by constructor|]].
    + eapply (d_pipe0 _ _ B C b l r); try done. by eapply wired_agree.
    + eapply mv_fg; [apply as_pipe|done].
  - destruct Hd as [Hl Hr]. steps_of Hs. cbn [Z.eqb Pos.eqb]. rewrite fork1_parent, parent_pid by done. eapply (follows_act _ _ _ _ _ _ []); [apply as_list|].
    apply d_list; [done..|]. by apply (d_cmd _ _ _ b l).
  - steps_of Hs. cbn [Z.eqb Pos.eqb]. rewrite fork1_parent, parent_pid by done. eapply (follows_act _ _ _ _ _ _ [_]); [apply as_back|].
    eapply d_back; [by apply (d_cmd _ _ B b c t)|done].
Qed.

(** The shell prompts and then has read its next line. *)
Lemma shell_prompts rank n fuel buf ws l : length buf = BUFSIZE -> Forall2 typed ws l -> (length ws < fuel)%nat ->
  exists k a', main_loop fuel buf (keyboard ws) = Print (chars "$ ") k /\
    (forall n, act_step n (AShell l) (Some (Said (Some (Std 2)) (chars "$ "))) n a' []) /\
    does rank n 1 (Proc (Running k (std (Std 0) (Std 1))) []) a' [].
Proof.
  intros Hb Hf Hfuel. destruct fuel as [|fuel]; [lia|]. destruct Hf as [|w x ws l [Hp Hx] Hf].
  - exists Exit, ADone. split; [cbn [main_loop]; unfold keyboard; cbn [fmap list_fmap concat]; by rewrite getcmd_eof|]. split; [apply as_eof|apply d_exit].
  - cbn [main_loop]. unfold keyboard at 1. cbn [fmap list_fmap concat]. rewrite <- app_assoc. cbn [app]. fold (keyboard ws).
    rewrite getcmd_typed, is_cd_line by done. set (r := replicate _ 0). cbn [length] in Hfuel.
    assert (Hlb : length ((w ++ [10]) ++ 0 :: r) = BUFSIZE) by (destruct Hp; rewrite !length_app; cbn [length]; unfold r; rewrite length_replicate; lia).
    eexists _, (ALine x l). split; [reflexivity|]. split; [intros m; constructor|]. destruct x as [t|dir].
    + destruct Hx as (Hcd&Ht&Hs). rewrite Hcd. destruct (run_line_denotes w t r Hp Ht Hs) as (b&c&E&Hd). rewrite E. apply d_line; (done || lia).
    + subst w. change (is_cd (chars "cd " ++ dir)) with true. cbv iota. destruct (cd_path dir r Hp) as (k&E&Hd&Hlk). rewrite E, Hd.
      apply d_cd; intros He; cbn [Z.ltb Z.compare].
      * apply d_shell; [congruence|done|lia].
      * eapply d_print; [intros m; by apply as_no_cd|]. apply d_shell; [congruence|done|lia].
Qed.

Lemma does_zombie rank n B kids a bg : does rank n B (Proc Zombie kids) a bg -> a = ADone /\ bg = [].
Proof. by inversion 1. Qed.
Lemma shell_wired rank n : wired rank n 1 (Std 0) (Std 1).
Proof. repeat split; cbn; lra || done. Qed.

(** A step of the only child, put back under its parent. *)
Lemma follows_kid (F : act -> act) rank n B C a bg ev n' k' orphans s :
  (forall n a ev n' a' sp, act_step n a ev n' a' sp -> act_step n (F a) ev n' (F a') sp) ->
  (forall rank' a' bg', agree rank rank' n n' -> does rank' n' C k' a' bg' -> does rank' n' B (Proc s [k']) (F a') bg') ->
  follows rank n C a bg ev n' k' orphans -> follows rank n B (F a) bg ev n' (Proc s [k']) orphans.
Proof.
  intros HF Hp (rank'&a'&bg'&obg&Ha&Hd&Ho&Hm). exists rank', (F a'), bg', obg. split; [done|]. split; [by apply Hp|]. split; [done|]. by apply moves_lift.
Qed.

Lemma does_bg rank n B p a bg bg' : does rank n B p a bg -> bg' ≡ₚ bg -> does rank n B p a bg'.
Proof.
  intros H. revert bg'. induction H; intros bg'' E'; rewrite ?Permutation_nil_r in E'; subst;
    [eapply d_zombie|eapply d_exit|eapply d_cmd|eapply d_local|eapply d_print|eapply d_program|eapply d_list|eapply d_pipe0|eapply d_pipe1|eapply (d_pipe2 _ _ B C D)|eapply d_pipe_left|eapply d_pipe_right|eapply d_back|eapply d_shell|eapply d_line|eapply d_cd|eapply d_fg]; eauto; by etrans.
Qed.

Lemma does_step wr rank n B p a bg : does rank n B p a bg -> forall ev n' p' orphans,
  pstep wr n p ev n' p' orphans -> follows rank n B a bg ev n' p' orphans.
Proof.
  pose proof wired_agree as W.
  induction 1 as [B|B f|B b c t i o Hd Hw|B c f c' f' kids a bg Hl Hd IH|B out k f a a' Ha Hd _|B argv i o Hw|B b c t i o k a bg Hd Hw Hk IH
    |B C b l r l' r' i o m Hl Hr Hw W1 W2 HC|B C b r r' i o m k a bg Hr Hw W2 HC Hk IH|B C D i o k1 a1 bg1 k2 a2 bg2 bg Hw HC HD Hk1 IH1 Hk2 IH2 E
    |B C i o k a bg Hw HC Hk IH|B C i o k a bg Hw HC Hk IH|B f C k a bg bg' Hk IH E|fuel buf ws l Hb Hf Hn|fuel buf ws l b c t Hb Hf Hn Hd
    |dir f k l H0 _ H1 _|fuel buf ws l k a bg Hb Hf Hn Hk IH]; intros ev n' p' orphans Hs.
  - steps_of Hs.
  - steps_of Hs. eapply follows_stay, d_zombie.
  - by eapply cmd_step.
  - steps_of Hs; try by (destruct c; simplify_eq/=).
    + by apply follows_stay.
    + match goal with H : pstep _ _ _ _ _ _ _ |- _ => destruct (IH _ _ _ _ (ps_kid _ _ _ _ _ _ _ _ _ _ H)) as (rank'&a'&bg'&obg&Ha&Hd'&Ho&Hm) end.
      exists rank', a', bg', obg. split; [done|]. split; [by eapply d_local|done].
  - steps_of Hs. by eapply (follows_act _ _ _ _ _ _ []).
  - steps_of Hs. eapply (follows_act _ _ _ _ _ _ []); [apply as_end|apply d_zombie].
  - steps_of Hs.
    + only_kid. apply does_zombie in Hk as [-> ->]. eapply (follows_act _ _ _ _ _ _ []); [apply as_next|]. by apply d_cmd.
    + only_kid. apply (follows_kid (fun a => ASeq a t i o) _ _ _ B); [by constructor| |by apply IH]. intros. by apply d_list; eauto.
  - steps_of Hs. cbn [Z.eqb Pos.eqb]. rewrite fork1_parent, parent_pid by done. apply follows_stay. apply (d_pipe1 _ _ B C b r r'); [done..|].
    unfold left_side, piped. do 4 (eapply d_local; [reflexivity|]). by apply (d_cmd _ _ C b l l').
  - steps_of Hs.
    + cbn [Z.eqb Pos.eqb]. rewrite fork1_parent, parent_pid by done. apply follows_stay. unfold piped. do 2 (eapply d_local; [reflexivity|]).
      eapply (d_pipe2 _ _ B C B); [done|done|apply Qle_refl|done| |by rewrite app_nil_r].
      unfold right_side. do 4 (eapply d_local; [reflexivity|]). by apply (d_cmd _ _ B b r r').
    + only_kid. apply (follows_kid (fun a => APipe a _) _ _ _ C); [by constructor| |by apply IH]. intros. by eapply (d_pipe1 _ _ B C); eauto.
  - steps_of Hs; match goal with H : _ ++ _ :: _ = [_; _] |- _ => apply two_kids in H as [(?&?&?)|(?&?&?)]; subst; cbn [app] end.
    + apply does_zombie in Hk1 as [-> ->]. apply follows_stay. eapply d_pipe_right; [done|exact HD|]. by eapply does_bg.
    + apply does_zombie in Hk2 as [-> ->]. apply follows_stay. eapply d_pipe_left; [done|exact HC|]. eapply does_bg; [done|]. by rewrite E, app_nil_r.
    + destruct (IH1 _ _ _ _ ltac:(eassumption)) as (rank'&a'&bg'&obg&Ha&Hd&Ho&Hm). exists rank', (APipe a' a2), (bg' ++ bg2), obg. split; [done|].
      split; [by eapply (d_pipe2 _ _ B C D); eauto using does_agree|]. split; [done|]. apply (moves_lift (fun a => APipe a a2)); [by constructor|].
      eapply moves_more; [exact Hm|exact E|solve_Permutation].
    + destruct (IH2 _ _ _ _ ltac:(eassumption)) as (rank'&a'&bg'&obg&Ha&Hd&Ho&Hm). exists rank', (APipe a1 a'), (bg1 ++ bg'), obg. split; [done|].
      split; [by eapply (d_pipe2 _ _ B C D); eauto using does_agree|]. split; [done|]. apply (moves_lift (fun a => APipe a1 a)); [by constructor|].
      eapply moves_more; [exact Hm|rewrite E; apply Permutation_app_comm|solve_Permutation].
  - steps_of Hs.
    + only_kid. apply does_zombie in Hk as [-> ->]. eapply (follows_act _ _ _ _ _ _ []); [apply as_piped|apply d_exit].
    + only_kid. apply (follows_kid (fun a => APipe a _) _ _ _ C); [by constructor| |by apply IH]. intros. by eapply d_pipe_left; eauto.
  - steps_of Hs.
    + only_kid. apply does_zombie in Hk as [-> ->]. eapply (follows_act _ _ _ _ _ _ []); [apply as_piped|apply d_exit].
    + only_kid. apply (follows_kid (fun a => APipe _ a) _ _ _ C); [by constructor| |by apply IH]. intros. by eapply d_pipe_right; eauto.
  - steps_of Hs.
    + exists rank, ADone, [], (a :: bg). split; [apply agree_refl|]. split; [apply d_zombie|].
      split; [econstructor; [exact Hk|by constructor|by rewrite app_nil_r]|]. by apply mv_stay.
    + only_kid. destruct (IH _ _ _ _ ltac:(eassumption)) as (rank'&a'&bg2&obg&Ha&Hd&Ho&Hm). exists rank', ADone, (a' :: bg2), obg. split; [done|].
      split; [by eapply d_back|]. split; [done|]. by eapply moves_under.
  - destruct (shell_prompts rank n fuel buf ws l Hb Hf Hn) as (k&a'&E&Ha&Hd). rewrite E in Hs. steps_of Hs. by eapply (follows_act _ _ _ _ _ _ []).
  - steps_of Hs. cbn [Z.eqb Pos.eqb]. rewrite fork1_parent, parent_pid by done. eapply (follows_act _ _ _ _ _ _ []); [apply as_line|].
    apply d_fg; [done..|]. apply d_cmd; [done|apply shell_wired].
  - steps_of Hs.
    + eapply (follows_act _ _ _ _ _ _ []); [by apply as_cd|by apply H0].
    + apply follows_stay. by apply H1.
  - steps_of Hs.
    + only_kid. apply does_zombie in Hk as [-> ->]. eapply (follows_act _ _ _ _ _ _ []); [apply as_back_to_prompt|]. by apply d_shell.
    + only_kid. apply (follows_kid (fun a => AFg a l) _ _ _ 1); [by constructor| |by apply IH]. intros. by apply d_fg.
Qed.

Lemma acts_perm n as_ a rest ev n' a' sp : as_ ≡ₚ a :: rest -> act_step n a ev n' a' sp ->
  exists as', acts_step (n, as_) ev (n', as') /\ as' ≡ₚ a' :: sp ++ rest.
Proof.
  intros E H. destruct (list_elem_of_split as_ a) as (l&r&->); [rewrite E; left|]. exists (l ++ a' :: r ++ sp). split; [by constructor|].
  assert (E' : l ++ r ≡ₚ rest). { apply (Permutation_cons_inv (a := a)). rewrite <- E. solve_Permutation. } rewrite <- E'. solve_Permutation.
Qed.

(** One step of the system is at most one step of the activities. *)
Lemma system_step rank n ps as_ ev n' ps' : all_do rank n ps as_ -> step (n, ps) ev (n', ps') ->
  exists rank' as', all_do rank' n' ps' as' /\ ((ev = None /\ n' = n /\ as' = as_) \/ acts_step (n, as_) ev (n', as')).
Proof.
  intros H Hs. inversion Hs as [? l p r ? ? p' orphans Hp|? l r]; subst.
  - apply (all_do_perm _ _ _ (p :: l ++ r)) in H; [|solve_Permutation]. inversion H as [|B ? ? a bg rest ? Hd Hr E]; subst.
    destruct (does_step _ _ _ _ _ _ _ Hd _ _ _ _ Hp) as (rank'&a'&bg'&obg&Ha&Hd'&Ho&Hm).
    assert (HA : forall as', as' ≡ₚ a' :: (bg' ++ obg) ++ rest -> all_do rank' n' (l ++ p' :: r ++ orphans) as').
    { intros as' E'. apply (all_do_perm _ _ (p' :: orphans ++ l ++ r)); [solve_Permutation|]. econstructor; [exact Hd'| |].
      - apply all_do_app; [exact Ho|by eapply all_do_agree].
      - rewrite E'. solve_Permutation. }
    destruct Hm as [-> -> -> Em|sp Hst Em|b rest' b' sp -> Eb Hst Em].
    + exists rank', as_. split; [|by left]. apply HA. by rewrite E, Em.
    + destruct (acts_perm _ _ _ _ _ _ _ _ E Hst) as (as'&Hs'&E'). exists rank', as'. split; [|by right]. apply HA. rewrite E', Em. solve_Permutation.
    + destruct (acts_perm n as_ b (a :: rest' ++ rest) ev n' b' sp) as (as'&Hs'&E'); [rewrite E, Eb; solve_Permutation|done|].
      exists rank', as'. split; [|by right]. apply HA. rewrite E', Em. solve_Permutation.
  - apply (all_do_perm _ _ _ (Proc Zombie [] :: l ++ r)) in H; [|solve_Permutation]. inversion H as [|B ? ? a bg rest ? Hd Hr E]; subst.
    apply does_zombie in Hd as [-> ->].
    exists rank, as_. split; [|by left]. eapply all_do_acts; [apply (all_do_done _ _ _ rest [ADone]); [by constructor|exact Hr]|]. by rewrite E.
Qed.

(** ** No schedule gets stuck *)
Definition can_step (wr : nat -> bool) (n : nat) (p : proc) : Prop := exists ev n' p' orphans, pstep wr n p ev n' p' orphans.
(** Somebody holds the write end of a pipe whose rank is below [B]. *)
Definition written_below (wr : nat -> bool) (rank : nat -> Q) (n : nat) (B : Q) : Prop := exists m, (m < n)%nat /\ wr m = true /\ (rank m < B)%Q.

Lemma running_steps wr n c f kids : (forall k, c <> Wait k) -> can_step wr n (Proc (Running c f) kids).
Proof.
  intros Hw. destruct c as [| |path argv failed|file mode k|fd k|k|fd k|k|k|path k|out k]; try (by destruct (Hw k));
    try (do 4 eexists; by (apply ps_exit || apply ps_fault || apply ps_print || (apply ps_local; reflexivity))).
  - destruct (exists_ path) eqn:E; do 4 eexists; [by apply ps_exec|by apply ps_exec_fails].
  - destruct (local (Open file mode k) f) as [[c' f']|] eqn:E; [|done]. do 4 eexists. by apply ps_local.
  - destruct (fdalloc f (PipeR n)) as [[p0 f0]|] eqn:E0; [destruct (fdalloc f0 (PipeW n)) as [[p1 f1]|] eqn:E1|].
    + do 4 eexists. by eapply ps_pipe.
    + do 4 eexists. apply ps_pipe_fails. by rewrite E0.
    + do 4 eexists. apply ps_pipe_fails. by rewrite E0.
  - do 4 eexists. by apply (ps_fork _ _ _ _ _ 1).
  - destruct (enters path) eqn:E; do 4 eexists; [by apply ps_chdir|by apply ps_chdir_fails].
Qed.
Lemma kid_steps wr n s l k r : can_step wr n k -> can_step wr n (Proc s (l ++ k :: r)).
Proof. intros (ev&n'&k'&o&H). do 4 eexists. by apply ps_kid. Qed.
Lemma wait_steps wr n k f l r : can_step wr n (Proc (Running (Wait k) f) (l ++ Proc Zombie [] :: r)).
Proof. do 4 eexists. apply ps_wait. Qed.
Lemma cmd_not_wait b c k : runcmd b c <> Wait k.
Proof. by destruct c as [[|[]]| | | |]. Qed.
Lemma written_weaken wr rank n B C : (C <= B)%Q -> written_below wr rank n C -> written_below wr rank n B.
Proof. intros H (m&?&?&?). exists m. split; [done|]. split; [done|]. lra. Qed.

(** A process goes on, has ended, or waits for a pipe on its left. *)
Lemma does_progress wr rank n B p a bg : does rank n B p a bg -> can_step wr n p \/ p = Proc Zombie [] \/ written_below wr rank n B.
Proof.
  induction 1 as [B|B f|B b c t i o Hd Hw|B c f c' f' kids a bg Hl Hd IH|B out k f a a' Ha Hd _|B argv i o Hw|B b c t i o k a bg Hd Hw Hk IH
    |B C b l r l' r' i o m Hl Hr Hw W1 W2 HC|B C b r r' i o m k a bg Hr Hw W2 HC Hk IH|B C D i o k1 a1 bg1 k2 a2 bg2 bg Hw HC HD Hk1 IH1 Hk2 IH2 E
    |B C i o k a bg Hw HC Hk IH|B C i o k a bg Hw HC Hk IH|B f C k a bg bg' Hk IH E|fuel buf ws l Hb Hf Hn|fuel buf ws l b c t Hb Hf Hn Hd
    |dir f k l H0 _ H1 _|fuel buf ws l k a bg Hb Hf Hn Hk IH]; try (left; by apply running_steps).
  - by right; left.
  - left. apply running_steps. intros k. apply cmd_not_wait.
  - left. apply running_steps. by intros k ->.
  - destruct Hw as (Hi&Ho&H1&H2&_). destruct i as [|file mode|m|]; try (left; do 4 eexists; apply ps_end; by intros _ m [=]).
    destruct (wr m) eqn:E; [right; right; by exists m|]. left. do 4 eexists. apply ps_end. intros _ m' [= <-]. done.
  - destruct IH as [H|[->|H]]; [left; by apply (kid_steps _ _ _ [])|left; by apply (wait_steps _ _ _ _ [])|by do 2 right].
  - destruct IH1 as [H|[->|H]]; [left; by apply (kid_steps _ _ _ [])|left; by apply (wait_steps _ _ _ _ [])|right; right; exact (written_weaken _ _ _ _ _ HC H)].
  - destruct IH as [H|[->|H]]; [left; by apply (kid_steps _ _ _ [])|left; by apply (wait_steps _ _ _ _ [])|right; right; exact (written_weaken _ _ _ _ _ HC H)].
  - destruct IH as [H|[->|H]]; [left; by apply (kid_steps _ _ _ [])|left; by apply (wait_steps _ _ _ _ [])|right; right; exact (written_weaken _ _ _ _ _ HC H)].
  - left. destruct (shell_prompts rank n fuel buf ws l Hb Hf Hn) as (k&a'&E&_). rewrite E. by apply running_steps.
  - destruct IH as [H|[->|H]]; [left; by apply (kid_steps _ _ _ [])|left; by apply (wait_steps _ _ _ _ [])|by do 2 right].
Qed.

Lemma std_writes rank n B i o m : wired rank n B i o -> bool_decide (Some (PipeW m) ∈ std i o) = true -> (B <= rank m)%Q.
Proof.
  intros (_&_&_&H2&_&_&H5) Hm%bool_decide_eq_true. unfold std in Hm. rewrite !elem_of_cons in Hm. destruct Hm as [[= <-]|[[= <-]|[[=]|Hm]]]; [done..|].
  by apply elem_of_replicate in Hm as [[=] _].
Qed.
(** A process with standard descriptors that writes a pipe goes on, or waits for a pipe further left. *)
Lemma writer_waits wr rank n B s kids a bg m : does rank n B (Proc s kids) a bg -> s <> Zombie -> (B <= rank m)%Q ->
  can_step wr n (Proc s kids) \/ written_below wr rank n (rank m).
Proof.
  intros Hd Hs Hb. destruct (does_progress wr _ _ _ _ _ _ Hd) as [H|[H|H]]; [by left|congruence|right; exact (written_weaken _ _ _ _ _ Hb H)].
Qed.

Lemma does_writer wr rank n B p a bg m : does rank n B p a bg -> holds m p = true -> can_step wr n p \/ written_below wr rank n (rank m).
Proof.
  induction 1 as [B|B f|B b c t i o Hd Hw|B c f c' f' kids a bg Hl Hd IH|B out k f a a' Ha Hd _|B argv i o Hw|B b c t i o k a bg Hd Hw Hk IH
    |B C b l r l' r' i o m' Hl Hr Hw W1 W2 HC|B C b r r' i o m' k a bg Hr Hw W2 HC Hk IH|B C D i o k1 a1 bg1 k2 a2 bg2 bg Hw HC HD Hk1 IH1 Hk2 IH2 E
    |B C i o k a bg Hw HC Hk IH|B C i o k a bg Hw HC Hk IH|B f C k a bg bg' Hk IH E|fuel buf ws l Hb Hf Hn|fuel buf ws l b c t Hb Hf Hn Hd
    |dir f k l H0 _ H1 _|fuel buf ws l k a bg Hb Hf Hn Hk IH]; intros Hm; try (left; by apply running_steps);
    cbn [holds existsb] in Hm; rewrite ?orb_false_r in Hm.
  - done.
  - left. apply running_steps. intros k. apply cmd_not_wait.
  - left. apply running_steps. by intros k ->.
  - eapply writer_waits; [by apply d_program|done|by eapply std_writes].
  - apply orb_true_iff in Hm as [Hm|Hm]; [eapply writer_waits; [by apply d_list|done|by eapply std_writes]|].
    destruct (IH Hm) as [H|H]; [left; by apply (kid_steps _ _ _ [])|by right].
  - apply orb_true_iff in Hm as [Hm|[Hm|Hm]%orb_true_iff]; [eapply writer_waits; [by eapply (d_pipe2 _ _ B C D)|done|by eapply std_writes]|..].
    + destruct (IH1 Hm) as [H|H]; [left; by apply (kid_steps _ _ _ [])|by right].
    + destruct (IH2 Hm) as [H|H]; [left; by apply (kid_steps _ _ _ [_] _ [])|by right].
  - apply orb_true_iff in Hm as [Hm|Hm]; [eapply writer_waits; [by eapply (d_pipe_left _ _ B C)|done|by eapply std_writes]|].
    destruct (IH Hm) as [H|H]; [left; by apply (kid_steps _ _ _ [])|by right].
  - apply orb_true_iff in Hm as [Hm|Hm]; [eapply writer_waits; [by eapply (d_pipe_right _ _ B C)|done|by eapply std_writes]|].
    destruct (IH Hm) as [H|H]; [left; by apply (kid_steps _ _ _ [])|by right].
  - apply orb_true_iff in Hm as [Hm|Hm]; [eapply writer_waits; [by apply d_fg|done|apply (std_writes _ n _ (Std 0) (Std 1)); [apply shell_wired|done]]|].
    destruct (IH Hm) as [H|H]; [left; by apply (kid_steps _ _ _ [])|by right].
Qed.

Lemma all_do_in rank n ps as_ p : all_do rank n ps as_ -> p ∈ ps -> exists B a bg, does rank n B p a bg.
Proof. induction 1 as [|B q ps a bg as_ as' Hp _ IH E]; [by intros ?%not_elem_of_nil|]. intros [->|Hin]%elem_of_cons; [eauto|by apply IH]. Qed.

(** The pipes to the left of a rank. *)
Definition lefts (rank : nat -> Q) (n : nat) (x : Q) : nat := length (filter (fun m => Qle_bool x (rank m) = false) (seq 0 n)).
Lemma lefts_less rank n m x : (m < n)%nat -> (rank m < x)%Q -> (lefts rank n (rank m) < lefts rank n x)%nat.
Proof.
  intros Hm Hx. unfold lefts. assert (Hin : m ∈ seq 0 n) by (apply elem_of_seq; lia). revert Hin. generalize (seq 0 n). intros ms.
  assert (Hle : forall ks, (length (filter (fun k => Qle_bool (rank m) (rank k) = false) ks) <= length (filter (fun k => Qle_bool x (rank k) = false) ks))%nat).
  { induction ks as [|k ks IH]; [done|]. rewrite !filter_cons. destruct (decide (Qle_bool (rank m) (rank k) = false)) as [H|H].
    - rewrite decide_True; [cbn; lia|]. apply not_true_iff_false in H. apply not_true_iff_false. rewrite Qle_bool_iff in *. intros ?. apply H. lra.
    - destruct (decide _); cbn; lia. }
  induction ms as [|k ms IH]; [by intros ?%not_elem_of_nil|]. intros [<-|Hin]%elem_of_cons.
  - rewrite !filter_cons. destruct (decide (Qle_bool (rank m) (rank m) = false)) as [H|H].
    + apply not_true_iff_false in H. rewrite Qle_bool_iff in H. exfalso. apply H. apply Qle_refl.
    + destruct (decide (Qle_bool x (rank m) = false)) as [_|H']; [cbn; specialize (Hle ms); lia|].
      apply not_false_iff_true in H'. rewrite Qle_bool_iff in H'. lra.
  - specialize (IH Hin). pose proof (Hle [k]) as H1. rewrite !filter_cons in *. cbn in H1. repeat destruct (decide _); cbn in *; lia.
Qed.

Lemma system_progress rank n ps as_ : all_do rank n ps as_ -> ps = [] \/ exists ev s', step (n, ps) ev s'.
Proof.
  intros H. set (wr := fun m => existsb (holds m) ps).
  assert (Hstep : forall p, p ∈ ps -> can_step wr n p -> exists ev s', step (n, ps) ev s').
  { intros p (l&r&E)%list_elem_of_split (ev&n'&p'&o&Hp). subst. do 2 eexists. by eapply step_in. }
  assert (Hw : forall N x, (lefts rank n x <= N)%nat -> written_below wr rank n x -> exists ev s', step (n, ps) ev s').
  { induction N as [N IH] using lt_wf_ind. intros x HN (m&Hm&Hwr&Hx). pose proof (lefts_less _ _ _ _ Hm Hx) as Hlt.
    apply existsb_exists in Hwr as (p&Hin%list_elem_of_In&Hp). destruct (all_do_in _ _ _ _ _ H Hin) as (B&a&bg&Hd).
    destruct (does_writer wr _ _ _ _ _ _ _ Hd Hp) as [Hs|Hb]; [by eapply Hstep|]. eapply (IH (lefts rank n (rank m))); [lia| |exact Hb]. done. }
  destruct ps as [|p ps]; [by left|right]. destruct (all_do_in _ _ _ _ p H ltac:(left)) as (B&a&bg&Hd).
  destruct (does_progress wr _ _ _ _ _ _ Hd) as [Hs|[->|Hb]]; [eapply Hstep; [left|done]| |by eapply Hw].
  do 2 eexists. by apply (step_reap _ []).
Qed.

(** ** Every schedule ends *)

(** The process and the children it makes take at most [N] steps before they exit or become programs. *)
Fixpoint within (c : code) (N : nat) : Prop :=
  match c with
  | Exit | Fault => True
  | Exec _ _ k | Close _ k | Dup _ k | Wait k | Print _ k => exists M, N = S M /\ within k M
  | Open _ _ k | Chdir _ k => exists M, N = S M /\ forall r, within (k r) M
  | Pipe k => exists M, N = S M /\ forall r, within (k r) M
  | Fork k => exists A B, N = (S (A + 2 + B)) /\ within (k 0) A /\ forall pid, 0 < pid -> within (k pid) B
  end.
Lemma within_mono c N M : within c N -> (N <= M)%nat -> within c M.
Proof.
  revert N M. induction c as [| |? ? c IH|? ? k IH|? c IH|k IH|? c IH|k IH|c IH|? k IH|? c IH]; intros N M H HM; cbn in *; try done.
  all: try (destruct H as (N'&->&H); destruct M as [|M]; [lia|]; exists M; split; [done|]; intros; eapply IH; [apply H|lia]).
  destruct H as (A&B&->&H1&H2). exists A, (B + (M - S (A + 2 + B)))%nat. split; [lia|]. split; [done|]. intros pid Hp. eapply IH; [by apply H2|lia].
Qed.

Definition scost (s : status) (m : nat) : Prop :=
  match s with Running c _ => exists N, m = (2 + N)%nat /\ within c N | Program _ _ => m = 2%nat | Zombie => m = 1%nat end.
Inductive pcost : proc -> nat -> Prop :=
| pc s m kids ns N : scost s m -> Forall2 pcost kids ns -> N = (m + sum_list ns)%nat -> pcost (Proc s kids) N.
Lemma sum_list_app ns ms : sum_list (ns ++ ms) = (sum_list ns + sum_list ms)%nat.
Proof. induction ns; cbn; lia. Qed.

(** The same children after a step of the process itself. *)
Lemma pcost_own m s' m' kids ns : scost s' m' -> (m' < m)%nat -> Forall2 pcost kids ns ->
  exists M os, pcost (Proc s' kids) M /\ Forall2 pcost [] os /\ (M + sum_list os < m + sum_list ns)%nat.
Proof. intros Hs Hm Hk. exists (m' + sum_list ns)%nat, []. split; [by econstructor|]. split; [constructor|]. cbn. lia. Qed.
Lemma within_local c f c' f' N : local c f = Some (c', f') -> within c N -> exists M, N = S M /\ within c' M.
Proof.
  destruct c as [| |? ? c|file mode k|? c|k|fd c|k|c|? k|? c]; try done; cbn; intros E (M&->&H); exists M; (split; [done|]); try by simplify_eq.
  destruct (if opens file mode then _ else _) as [[]|]; simplify_eq; apply H.
Qed.

Lemma pcost_step wr n p ev n' p' orphans : pstep wr n p ev n' p' orphans -> forall N, pcost p N ->
  exists M os, pcost p' M /\ Forall2 pcost orphans os /\ (M + sum_list os < N)%nat.
Proof.
  induction 1 as [| | | | |n c f kids c' f' Hl| | |n k f kids pid Hpid|n k f l r|n k f| | | |n s l k r ev n' k' orphans Hp IH];
    intros N0 Hc; inversion Hc as [? m ? ns ? Hm Hk]; subst; cbn in Hm.
  all: try (destruct Hm as (N'&->&Hw)).
  all: try (cbn in Hw; destruct Hw as (M&->&Hw); eapply pcost_own; [eexists; split; [reflexivity|apply Hw]|lia|done]).
  - exists 1%nat, ns. split; [by econstructor|]. split; [done|lia].
  - exists 1%nat, ns. split; [by econstructor|]. split; [done|lia].
  - eapply pcost_own; [done| |done]. destruct Hw as (M&->&Hw). lia.
  - subst. exists 1%nat, ns. split; [by econstructor|]. split; [done|lia].
  - destruct (within_local _ _ _ _ _ Hl Hw) as (M&->&Hw'). eapply pcost_own; [by eexists|lia|done].
  - destruct Hw as (A&B&->&H0&H1). exists (2 + B + sum_list (ns ++ [2 + A]))%nat, []. split; [|split; [constructor|]].
    + econstructor; [by eexists; split; [|apply H1]| |reflexivity]. apply Forall2_app; [done|]. constructor; [|constructor].
      econstructor; [by eexists|constructor|cbn; lia].
    + rewrite sum_list_app. cbn. lia.
  - destruct Hw as (M&->&Hw). apply Forall2_app_inv_l in Hk as (ns1&ns2&H1&H2&->). inversion H2 as [|? x ? ns3 Hz H3]; subst.
    exists (2 + M + sum_list (ns1 ++ ns3))%nat, []. split; [|split; [constructor|]].
    + econstructor; [by eexists|by apply Forall2_app|done].
    + rewrite !sum_list_app. cbn. lia.
  - apply Forall2_app_inv_l in Hk as (ns1&ns2&H1&H2&->). inversion H2 as [|? x ? ns3 Hz H3]; subst.
    destruct (IH _ Hz) as (M&os&Hk'&Ho&Hlt). exists (m + sum_list (ns1 ++ M :: ns3))%nat, os. split; [|split; [done|]].
    + econstructor; [done| |done]. apply Forall2_app; [done|]. by constructor.
    + rewrite !sum_list_app. cbn. lia.
Qed.

(** Each step of the system uses up cost. *)
Lemma runs_cost s k evs s' ns : Forall2 pcost s.2 ns -> runs s k evs s' -> exists ns', Forall2 pcost s'.2 ns' /\ (k + sum_list ns' <= sum_list ns)%nat.
Proof.
  intros Hc. induction 1 as [|k evs s1 ev s2 _ IH Hs]; [by exists ns|]. destruct IH as (ns1&H1&Hk).
  inversion Hs as [n l p r ev' n' p' orphans Hp|n l r]; subst; cbn [snd] in *; apply Forall2_app_inv_l in H1 as (m1&m2&Hl&Hr&->);
    inversion Hr as [|? x ? m3 Hx Hr']; subst; rewrite sum_list_app in Hk; cbn in Hk.
  - destruct (pcost_step _ _ _ _ _ _ _ Hp _ Hx) as (M&os&Hp'&Ho&Hlt). exists (m1 ++ M :: m3 ++ os).
    split; [by repeat (apply Forall2_app || constructor)|]. rewrite sum_list_app. cbn. rewrite sum_list_app. lia.
  - exists (m1 ++ m3). split; [by apply Forall2_app|]. rewrite sum_list_app. inversion Hx; subst. cbn in *. lia.
Qed.

Lemma within_panic s : within (panic s) 1.
Proof. by exists 0%nat. Qed.
Lemma within_fork1 k A B : within (k 0) A -> (forall pid, 0 < pid -> within (k pid) B) -> within (fork1 k) (S (A + 2 + B)).
Proof. intros H0 H1. exists A, B. split; [done|]. split; [done|]. intros pid Hp. rewrite fork1_parent by done. by apply H1. Qed.
Lemma within_or (b : bool) c d N M : within c N -> within d M -> within (if b then c else d) (N + M).
Proof. intros Hc Hd. destruct b; eapply within_mono; [exact Hc|lia|exact Hd|lia]. Qed.
Ltac calls := repeat match goal with |- within ?c _ => match eval hnf in c with Close _ _ => idtac | Dup _ _ => idtac | Wait _ => idtac | Print _ _ => idtac end; eexists; split; [reflexivity|] end.

Lemma within_runcmd b c : exists N, within (runcmd b c) N.
Proof.
  induction c as [argv|c [N IH] q eq mode fd|l [N IHl] r [M IHr]|l [N IHl] r [M IHr]|c [N IH]]; cbn [runcmd].
  - destruct argv as [|[q eq] argv]; [by exists 0%nat|]. exists 2%nat. do 2 (eexists; split; [reflexivity|]). done.
  - exists (S (S (1 + N))). do 2 (eexists; split; [reflexivity|]). intros r. apply within_or; [by exists 0%nat|done].
  - set (K := (S (S (S (S (S N))) + 2 + S (S (S (S (S M))) + 2 + 4)))%nat). exists (S K), K. split; [done|]. intros [[p0 p1]|].
    + apply within_fork1; [by calls|]. intros pid Hp. rewrite parent_pid by done. apply within_fork1; [by calls|].
      intros pid' Hp'. rewrite parent_pid by done. by calls.
    + eapply within_mono; [apply within_panic|lia].
  - exists (S (N + 2 + S M)). apply within_fork1; [done|]. intros pid Hp. rewrite parent_pid by done. by calls.
  - exists (S (N + 2 + 0)). apply within_fork1; [done|]. intros pid Hp. by rewrite parent_pid by done.
Qed.

Lemma within_line buf : exists N, within (run_line buf) N.
Proof. unfold run_line. destruct (parsecmd buf) as [[c b]|out| |]; [apply within_runcmd|exists 1%nat; by calls|by exists 0%nat..]. Qed.

Lemma within_loop fuel buf input : exists N, within (main_loop fuel buf input) N.
Proof.
  revert buf input. induction fuel as [|fuel IH]; intros buf input; [by exists 0%nat|]. cbn [main_loop].
  destruct (getcmd buf input) as [[[buf1 input1] [|]]|]; [exists 1%nat; by calls| |exists 1%nat; by calls]. destruct (is_cd buf1).
  - set (buf2 := match strlen buf1 with Done n => _ | _ => _ end). destruct (IH buf2 input1) as [N HN]. exists (S (S (S N + N))). calls.
    eexists. split; [reflexivity|]. intros r. apply within_or; [by calls|done].
  - destruct (within_line buf1) as [A HA], (IH buf1 input1) as [N HN]. exists (S (S (A + 2 + S N))). calls.
    apply within_fork1; [done|]. intros pid Hp. rewrite parent_pid by done. by calls.
Qed.

Lemma within_main input : exists N, within (main input) N.
Proof.
  unfold main. destruct (within_loop (S (length input)) (replicate BUFSIZE 0) input) as [N HN]. generalize (main_loop (S (length input)) (replicate BUFSIZE 0) input), HN.
  intros k Hk. generalize 4%nat as m. induction m as [|m [M IH]]; [by exists N|]. cbn [open_console].
  exists (S (S N + M + N)). eexists. split; [reflexivity|]. intros fd. do 2 (apply within_or; [|done]). by calls.
Qed.

(** ** Sessions *)
Lemma main_does rank n ws l : Forall2 typed ws l ->
  does rank n 1 (Proc (Running (main (keyboard ws)) (std (Std 0) (Std 1))) []) (AShell l) [].
Proof.
  intros Hf. assert (Hlen : (length ws < S (length (keyboard ws)))%nat).
  { clear Hf. unfold keyboard. induction ws as [|w ws IH]; cbn in *; [lia|]. rewrite !length_app. cbn. lia. }
  pose proof (d_shell rank n _ (replicate BUFSIZE 0) ws l (length_replicate _ _) Hf Hlen) as H. unfold main. cbn [open_console].
  destruct (opens (chars "console") O_RDWR) eqn:E.
  - eapply d_local; [cbn [local]; rewrite E; reflexivity|]. eapply d_local; [reflexivity|]. exact H.
  - eapply d_local; [cbn [local]; rewrite E; reflexivity|]. exact H.
Qed.

Lemma all_do_means s k evs s' as0 rank : all_do rank s.1 s.2 as0 -> runs s k evs s' ->
  exists rank' as', all_do rank' s'.1 s'.2 as' /\ means_trace (s.1, as0) evs (s'.1, as').
Proof.
  intros H. induction 1 as [|k evs [n1 ps1] ev [n2 ps2] _ IH Hs]; [exists rank, as0; split; [done|constructor]|].
  destruct IH as (rank1&as1&H1&Hm). destruct (system_step _ _ _ _ _ _ _ H1 Hs) as (rank2&as2&H2&[(->&->&->)|Ha]); exists rank2; eexists; (split; [done|]).
  - cbn. by rewrite app_nil_r.
  - by econstructor.
Qed.

(** C6: A session of the shell does what its lines say, however its processes
    are scheduled.  The user types lines that fit the buffer, each the text of a
    command with any white space, or a [cd]; the shell has its three standard
    descriptors open, forks and pipes find room, and programs do not take the
    shell's input.  Then in every schedule: what is seen - programs started and
    ended, each with its arguments and with exactly the three standard
    descriptors, wired to the pipe on its left or right, to the file of its
    first redirection or to the shell's own; messages; directories entered -
    is a behaviour of the lines, in which the right side of a list starts when
    the left has ended, the sides of a pipe run together and both end before
    what follows, a command with & is not waited for, and the prompt comes back
    when the line has ended; no schedule gets stuck before all processes are
    gone, even if programs end only when they see the end of their input; and
    every schedule ends, within a bound, with all activities of the lines ended. *)
Theorem shell_session ws l : Forall2 typed ws l ->
  let s0 := (0%nat, [Proc (Running (main (keyboard ws)) (std (Std 0) (Std 1))) []]) in
  exists N, forall k evs s, runs s0 k evs s ->
    (exists s', means_trace (0%nat, [AShell l]) evs s' /\ (s.2 = [] -> Forall (eq ADone) s'.2)) /\
    (s.2 = [] \/ exists ev s', step s ev s') /\
    (k <= N)%nat.
Proof.
  intros Hf s0. destruct (within_main (keyboard ws)) as [N HN]. exists (2 + N)%nat. intros k evs s Hr.
  destruct (all_do_means s0 k evs s [AShell l] (fun _ => 0%Q)) as (rank&as_&Ha&Hm); [|done|].
  { econstructor; [by apply main_does|by constructor|done]. }
  split; [|split].
  - exists (s.1, as_). split; [done|]. intros E. rewrite E in Ha. by inversion Ha.
  - destruct s as [n ps]. by eapply system_progress.
  - destruct (runs_cost s0 k evs s [2 + N]%nat) as (ns&_&Hk); [|done|cbn in *; lia].
    constructor; [|constructor]. econstructor; [by eexists|constructor|cbn; lia].
Qed.

End World.

(** A session of three lines, run where no file [none] can be opened and [wc] and
    [cat] read to the end of their input. *)
Definition demo_lines : list (list Z) := [chars "cd /"; chars " ls -l|wc >out & "; chars "(cat<none ;echo)|wc"].
Definition demo_entries : list entry :=
  [Cd (chars "/"); Do (TBack (TPipe (TExec [chars "ls"; chars "-l"]) (TRedir (TExec [chars "wc"]) (chars "out") true)));
   Do (TPipe (TList (TRedir (TExec [chars "cat"]) (chars "none") false) (TExec [chars "echo"])) (TExec [chars "wc"]))].
Definition demo_opens (file : list Z) (_ : Z) : bool := negb (bool_decide (file = chars "none")).
Definition demo_patient (argv : list (list Z)) : bool := match argv with p :: _ => bool_decide (p = chars "wc") || bool_decide (p = chars "cat") | [] => false end.
Lemma demo_typed : Forall2 typed demo_lines demo_entries.
Proof.
  repeat apply Forall2_cons_2; [..|constructor]; (split; [split; [vm_compute; repeat constructor; discriminate|vm_compute; lia]|]).
  - reflexivity.
  - split; [reflexivity|]. split; [cbn; repeat first [split | constructor | lia | reflexivity | discriminate]|]. apply spellsb_ok. vm_compute. reflexivity.
  - split; [reflexivity|]. split; [cbn; repeat first [split | constructor | lia | reflexivity | discriminate]|]. apply spellsb_ok. vm_compute. reflexivity.
Qed.

Lemma shell_session_witness : let yes := fun _ : list Z => true in
  let s0 := (0%nat, [Proc (Running (main (keyboard demo_lines)) (std (Std 0) (Std 1))) []]) in
  exists N, forall k evs s, runs demo_opens yes yes demo_patient s0 k evs s ->
    (exists s', means_trace demo_opens yes yes (0%nat, [AShell demo_entries]) evs s' /\ (s.2 = [] -> Forall (eq ADone) s'.2)) /\
    (s.2 = [] \/ exists ev s', step demo_opens yes yes demo_patient s ev s') /\
    (k <= N)%nat.
Proof. exact (shell_session demo_opens (fun _ => true) (fun _ => true) demo_patient demo_lines demo_entries demo_typed). Defined.
End ShSession.
