(* ===== verification/Umalloc.v ===== *)
(** * Umalloc: the user library's memory allocator (umalloc.c)

    The fields [s.ptr] and [s.size] of the headers are two maps from addresses;
    reading a field nobody has written is a fault ([None]), as is writing a
    header outside [base] and the memory obtained from [sbrk], which is
    [start .. brk].  Pointer and size arithmetic wraps at 32 bits.  Whether
    [sbrk] grants memory is a parameter.  The free list is a ring in address
    order that starts at [base].  The theorem shows that [malloc] and [free]
    implement a set of live blocks: a new block is large enough, aligned and
    disjoint from all others, whatever the program writes into its blocks, no
    memory is lost, and neighbours are merged. *)
From Stdlib Require Import Sorting.Sorted.
From S2P Require Import Prelude.

Module Umalloc.

Record heap := { ptrs : gmap Z Z; sizes : gmap Z Z; freep : Z; brk : Z }.
#[export] Instance eta_heap : Eta heap := fun r => Build_heap (ptrs r) (sizes r) (freep r) (brk r).

Section Code.
Context (base start : Z) (grant : Z -> Z -> bool).

(** [sizeof(Header)] *)
Definition HDR : Z := 8.

Definition get_ptr (h : heap) (a : Z) : option Z := ptrs h !! a.
Definition get_size (h : heap) (a : Z) : option Z := sizes h !! a.
Definition writable (h : heap) (a : Z) : bool := (a =? base) || (start <=? a) && (a + HDR <=? brk h).
Definition set_ptr (h : heap) (a v : Z) : option heap := if writable h a then Some (h <| ptrs := <[a := v]> (ptrs h) |>) else None.
Definition set_size (h : heap) (a v : Z) : option heap := if writable h a then Some (h <| sizes := <[a := v]> (sizes h) |>) else None.

(** [bp + n] for a pointer to a header. *)
Definition plus (a n : Z) : Z := u32 (a + HDR * n).

(** [sbrk(n)]: the old break, or -1. *)
Definition sbrk (h : heap) (n : Z) : Z * heap :=
  if grant (brk h) n then (brk h, h <| brk := brk h + n |>) else (-1, h).

(** The loop of [free]: the block [bp] goes after, at most [fuel] steps. *)
Fixpoint free_find (fuel : nat) (h : heap) (bp p : Z) : option Z :=
  match fuel with
  | O => None
  | S fuel =>
    nx ← get_ptr h p;
    if (p <? bp) && (bp <? nx) then Some p
    else if (nx <=? p) && ((p <? bp) || (bp <? nx)) then Some p
    else free_find fuel h bp nx
  end.

(** [if(bp + bp->s.size == p->s.ptr)]: join the block with the next one. *)
Definition join_next (h : heap) (bp p : Z) : option heap :=
  nx ← get_ptr h p; bs ← get_size h bp;
  if plus bp bs =? nx then
    ns ← get_size h nx; h ← set_size h bp (u32 (bs + ns));
    nn ← get_ptr h nx; set_ptr h bp nn
  else set_ptr h bp nx.

(** [if(p + p->s.size == bp)]: join the block before with it. *)
Definition join_prev (h : heap) (bp p : Z) : option heap :=
  ps ← get_size h p;
  if plus p ps =? bp then
    bs ← get_size h bp; h ← set_size h p (u32 (ps + bs));
    bn ← get_ptr h bp; set_ptr h p bn
  else set_ptr h p bp.

Definition free (fuel : nat) (h : heap) (ap : Z) : option heap :=
  let bp := plus ap (-1) in
  p ← free_find fuel h bp (freep h);
  h ← join_next h bp p;
  h ← join_prev h bp p;
  Some (h <| freep := p |>).

Definition morecore (fuel : nat) (h : heap) (nu : Z) : option (Z * heap) :=
  let nu := if nu <? 4096 then 4096 else nu in
  let '(p, h) := sbrk h (s32 (u32 (nu * HDR))) in
  if p =? -1 then Some (0, h) else
  h ← set_size h p nu;
  h ← free fuel h (plus p 1);
  Some (freep h, h).

(** The block [p] of at least [nunits] is found after [prevp]. *)
Definition take_block (h : heap) (nunits prevp p size : Z) : option (Z * heap) :=
  '(p, h) ← (if size =? nunits then nx ← get_ptr h p; h ← set_ptr h prevp nx; Some (p, h)
             else h ← set_size h p (u32 (size - nunits));
                  let p := plus p (u32 (size - nunits)) in
                  h ← set_size h p nunits; Some (p, h));
  Some (plus p 1, h <| freep := prevp |>).

Fixpoint malloc_loop (fuel : nat) (h : heap) (nunits prevp p : Z) : option (Z * heap) :=
  match fuel with
  | O => None
  | S fuel' =>
    size ← get_size h p;
    if nunits <=? size then take_block h nunits prevp p size else
    let next h p := nx ← get_ptr h p; malloc_loop fuel' h nunits p nx in
    if p =? freep h then
      '(p, h) ← morecore fuel h nunits;
      if p =? 0 then Some (0, h) else next h p
    else next h p
  end.

Definition units (nbytes : Z) : Z := u32 (u32 (nbytes + HDR - 1) / HDR + 1).

Definition malloc (fuel : nat) (h : heap) (nbytes : Z) : option (Z * heap) :=
  let nunits := units nbytes in
  h ← (if freep h =? 0 then
         h ← set_ptr h base base;
         set_size (h <| freep := base |>) base 0
       else Some h);
  p ← get_ptr h (freep h);
  malloc_loop fuel h nunits (freep h) p.


(** ** Blocks *)
Abbreviation block := (Z * Z)%type.

(** A block of the memory obtained so far: address and size in units. *)
Definition block_in (hi : Z) (b : block) : Prop := start <= b.1 /\ 1 <= b.2 /\ b.1 + HDR * b.2 <= hi /\ (b.1 - start) mod HDR = 0.
Definition disjoint_blocks (x y : block) : Prop := x.1 + HDR * x.2 <= y.1 \/ y.1 + HDR * y.2 <= x.1.
Fixpoint pairwise (l : list block) : Prop := match l with [] => True | x :: l => Forall (disjoint_blocks x) l /\ pairwise l end.

(** The blocks [l] partition the memory from [start] to [hi]. *)
Record tiles (hi : Z) (l : list block) : Prop := {
  t_in : Forall (block_in hi) l;
  t_disjoint : pairwise l;
  t_cover : forall x, start <= x < hi -> exists b, b ∈ l /\ b.1 <= x < b.1 + HDR * b.2;
}.

Lemma disjoint_sym x y : disjoint_blocks x y -> disjoint_blocks y x.
Proof. unfold disjoint_blocks. tauto. Qed.
Lemma pairwise_perm l l' : l ≡ₚ l' -> pairwise l -> pairwise l'.
Proof.
  induction 1 as [|x l l' Hp IH|x y l|]; cbn; [done| | |by auto].
  - intros [H1 H2]. split; [by rewrite <- Hp|by apply IH].
  - intros [H1 [H2 H3]]. apply Forall_cons in H1 as [Hxy H1]. split; [|done]. constructor; [by apply disjoint_sym|done].
Qed.
Lemma tiles_perm hi l l' : l ≡ₚ l' -> tiles hi l -> tiles hi l'.
Proof.
  intros Hp [H1 H2 H3]. split; [by rewrite <- Hp|by eapply pairwise_perm|]. intros x Hx. destruct (H3 x Hx) as (b&Hb&Hi). exists b. by rewrite <- Hp.
Qed.

Ltac units := unfold block_in, disjoint_blocks, HDR in *; cbn [fst snd] in *.

Lemma tiles_merge hi a s b t l : tiles hi ((a, s) :: (b, t) :: l) -> a + HDR * s = b -> tiles hi ((a, s + t) :: l).
Proof.
  intros [H1 [H2 [H3 H4]] H5] E. rewrite !Forall_cons in H1. destruct H1 as (Ha&Hb&Hl). apply Forall_cons in H2 as [_ H2]. split.
  - constructor; [|done]. units. lia.
  - split; [|done]. rewrite Forall_forall in H2, H3 |- *. intros y Hy. specialize (H2 y Hy). specialize (H3 y Hy). rewrite Forall_forall in Hl. specialize (Hl y Hy). units. lia.
  - intros x Hx. destruct (H5 x Hx) as (y&Hy&Hi). rewrite !elem_of_cons in Hy. destruct Hy as [->|[->|Hy]].
    + exists (a, s + t). split; [by left|]. units. lia.
    + exists (a, s + t). split; [by left|]. units. lia.
    + exists y. split; [by right|done].
Qed.
Lemma tiles_split hi a s k l : tiles hi ((a, s) :: l) -> 1 <= k < s -> tiles hi ((a, s - k) :: (a + HDR * (s - k), k) :: l).
Proof.
  intros [H1 [H2 H3] H5] Hk. apply Forall_cons in H1 as [Ha Hl]. rewrite Forall_forall in H2. split.
  - repeat constructor; [units; lia..| |done]. cbn [fst snd]. destruct Ha as (_&_&_&Ha). cbn in Ha. replace (a + HDR * (s - k) - start) with (a - start + (s - k) * HDR) by lia. by rewrite Z.mod_add.
  - split; [constructor; [units; lia|]|split; [|done]]; apply Forall_forall; intros y Hy; specialize (H2 y Hy); units; lia.
  - intros x Hx. destruct (H5 x Hx) as (y&Hy&Hi). apply elem_of_cons in Hy as [->|Hy].
    + destruct (decide (x < a + HDR * (s - k))); [exists (a, s - k)|exists (a + HDR * (s - k), k)]; (split; [set_solver|units; lia]).
    + exists y. split; [by do 2 right|done].
Qed.
Lemma tiles_grow hi n l : tiles hi l -> start <= hi -> (hi - start) mod HDR = 0 -> 1 <= n -> tiles (hi + HDR * n) ((hi, n) :: l).
Proof.
  intros [H1 H2 H5] Hs Hm Hn. split.
  - constructor; [units; split_and!; done || lia|]. eapply Forall_impl; [exact H1|]. intros y Hy. units. lia.
  - split; [|done]. eapply Forall_impl; [exact H1|]. intros y Hy. units. lia.
  - intros x Hx. destruct (decide (x < hi)) as [Hlt|Hge].
    + destruct (H5 x) as (y&Hy&Hi); [lia|]. exists y. split; [by right|done].
    + exists (hi, n). split; [by left|]. units. lia.
Qed.

Lemma pairwise_elem l x y : pairwise l -> x ∈ l -> y ∈ l -> x <> y -> disjoint_blocks x y.
Proof.
  induction l as [|z l IH]; [by intros _ ?%elem_of_nil|]. intros [H1 H2]. rewrite Forall_forall in H1. rewrite !elem_of_cons. intros [->|Hx] [->|Hy] Hne; [done|by apply H1| |by apply IH].
  apply disjoint_sym. by apply H1.
Qed.
(** Different blocks of a partition have different addresses. *)
Lemma tiles_head hi x l : tiles hi (x :: l) -> Forall (fun y => y.1 <> x.1) l.
Proof.
  intros [H1 [H2 _] _]. apply Forall_cons in H1 as [Hx Hl]. rewrite Forall_forall in H2, Hl |- *. intros y Hy. specialize (H2 y Hy). specialize (Hl y Hy). units. lia.
Qed.

(** ** The free list *)
Definition hd_addr (l : list block) (fin : Z) : Z := match l with [] => fin | x :: _ => x.1 end.
(** The headers of [l] are linked in this order, the last one to [fin]. *)
Fixpoint seg (h : heap) (l : list block) (fin : Z) : Prop :=
  match l with
  | [] => True
  | x :: l => get_ptr h x.1 = Some (hd_addr l fin) /\ get_size h x.1 = Some x.2 /\ seg h l fin
  end.
Lemma hd_addr_app l l' fin : hd_addr (l ++ l') fin = hd_addr l (hd_addr l' fin).
Proof. by destruct l. Qed.
Lemma seg_app h l l' fin : seg h (l ++ l') fin <-> seg h l (hd_addr l' fin) /\ seg h l' fin.
Proof. induction l as [|x l IH]; cbn; [tauto|]. rewrite hd_addr_app, IH. tauto. Qed.
Lemma seg_ext h h' l fin : (forall x, x ∈ l -> get_ptr h' x.1 = get_ptr h x.1 /\ get_size h' x.1 = get_size h x.1) -> seg h l fin -> seg h' l fin.
Proof.
  induction l as [|x l IH]; cbn; [done|]. intros H (H1&H2&H3). destruct (H x) as [E1 E2]; [by left|]. rewrite E1, E2. split; [done|]. split; [done|].
  apply IH; [|done]. intros y Hy. apply H. by right.
Qed.
Lemma seg_elem h l fin x : seg h l fin -> x ∈ l -> get_size h x.1 = Some x.2.
Proof. induction l as [|y l IH]; [by intros _ ?%elem_of_nil|]. intros (_&H&Hs) [->|Hx]%elem_of_cons; [done|by apply IH]. Qed.

(** In address order. *)
Definition below (x y : block) : Prop := x.1 < y.1.
(** No block ends where the next one starts. *)
Fixpoint gaps (l : list block) : Prop :=
  match l with
  | x :: (y :: _) as l => x.1 + HDR * x.2 <> y.1 /\ gaps l
  | _ => True
  end.
Lemma gaps_app l x l' : gaps (l ++ x :: l') <-> gaps (l ++ [x]) /\ gaps (x :: l').
Proof.
  induction l as [|y l IH]; cbn [app]; [cbn; destruct l'; tauto|]. destruct l as [|z l]; cbn [app] in *; cbn [gaps]; [cbn in IH; destruct l'; tauto|].
  cbn [gaps] in IH. tauto.
Qed.
Lemma gaps_size l a s s' : gaps (l ++ [(a, s)]) -> gaps (l ++ [(a, s')]).
Proof. induction l as [|y l IH]; [done|]. destruct l as [|z l]; cbn [app gaps] in *; [done|]. intros [H1 H2]. split; [done|by apply IH]. Qed.

(** The state: the free list [fl] is a ring from [base], in address order, with
    gaps; [al] are the live blocks. *)
Record wf (h : heap) (fl al : list block) : Prop := {
  wf_base : exists bl, fl = (base, 0) :: bl;
  wf_ring : seg h fl base;
  wf_sorted : StronglySorted below fl;
  wf_gaps : gaps fl;
  wf_tiles : tiles (brk h) (tail fl ++ al);
  wf_live : Forall (fun b => get_size h b.1 = Some b.2) al;
  wf_freep : freep h ∈ fl.*1;
  wf_brk : start <= brk h < 2 ^ 31 /\ (brk h - start) mod HDR = 0;
}.


(** ** [free] *)
Context (Hbase : 0 < base /\ base + HDR <= start).

Definition stops (bp a nx : Z) : bool := ((a <? bp) && (bp <? nx)) || ((nx <=? a) && ((a <? bp) || (bp <? nx))).

Lemma free_find_S fuel h bp p : free_find (S fuel) h bp p = (nx ← get_ptr h p; if stops bp p nx then Some p else free_find fuel h bp nx).
Proof. cbn [free_find]. destruct (get_ptr h p) as [nx|]; [|done]. cbn. unfold stops. by destruct ((p <? bp) && (bp <? nx)), ((nx <=? p) && _). Qed.

Lemma free_find_ok h bp l fin fuel : seg h l fin -> (exists l1 x l2, l = l1 ++ x :: l2 /\ stops bp x.1 (hd_addr l2 fin) = true) -> (length l <= fuel)%nat ->
  exists l1 x l2, l = l1 ++ x :: l2 /\ free_find fuel h bp (hd_addr l fin) = Some x.1 /\ stops bp x.1 (hd_addr l2 fin) = true.
Proof.
  revert fuel. induction l as [|x l IH]; intros fuel Hs (l1&y&l2&E&Hst) Hf; [by destruct l1|]. destruct fuel as [|fuel]; [cbn in Hf; lia|].
  destruct Hs as (Hp&_&Hs). cbn [hd_addr]. rewrite free_find_S, Hp. cbn [mbind option_bind]. destruct (stops bp x.1 (hd_addr l fin)) eqn:Hx; [by exists [], x, l|].
  destruct l1 as [|x' l1]; cbn in E; injection E as -> ->; [congruence|]. destruct (IH fuel Hs) as (m1&z&m2&E&Ef&Hz); [eauto|cbn in Hf; lia|].
  exists (x' :: m1), z, m2. split; [by rewrite E|done].
Qed.

(** The place of an address in a sorted list. *)
Lemma sorted_place l bp x : StronglySorted below (x :: l) -> x.1 < bp -> bp ∉ l.*1 ->
  exists l1 y l2, x :: l = l1 ++ y :: l2 /\ y.1 < bp /\ (l2 = [] \/ bp < hd_addr l2 0).
Proof.
  revert x. induction l as [|z l IH]; intros x Hs Hx Hni; [exists [], x, []; auto|]. cbn in Hni. apply not_elem_of_cons in Hni as [Hz Hni].
  destruct (decide (bp < z.1)) as [Hlt|Hge]; [exists [], x, (z :: l); auto|]. apply StronglySorted_inv in Hs as [Hs _].
  destruct (IH z Hs) as (l1&y&l2&E&Hy&Hl2); [lia|done|]. exists (x :: l1), y, l2. by rewrite E.
Qed.


Lemma wf_bounds h fl al x : wf h fl al -> x ∈ tail fl ++ al -> block_in (brk h) x.
Proof. intros H Hx. pose proof (t_in _ _ (wf_tiles _ _ _ H)) as Hf. rewrite Forall_forall in Hf. by apply Hf. Qed.
Lemma tail_app (l : list block) x l' : tail (l ++ x :: l') = tail (l ++ [x]) ++ l'.
Proof. destruct l; [done|]. cbn. by rewrite <- app_assoc. Qed.

(** The ring as seen from one of its headers. *)
Lemma seg_rotate h pre x post : (pre = [] -> x.1 = base) -> hd_addr pre base = base -> seg h (pre ++ x :: post) base -> seg h (x :: post ++ pre) x.1.
Proof.
  intros H0 Hb. rewrite seg_app. intros [H1 H2]. rewrite app_comm_cons. apply seg_app. split; [|done].
  destruct pre as [|y pre]; cbn [hd_addr] in *; [by rewrite H0|by rewrite Hb].
Qed.

Lemma sorted_app_inv (l : list block) x l' : StronglySorted below (l ++ x :: l') ->
  StronglySorted below l /\ StronglySorted below l' /\ Forall (fun y => y.1 < x.1) l /\ Forall (fun y => x.1 < y.1) l' /\ Forall (fun y => Forall (below y) l') l.
Proof.
  induction l as [|y l IH]; cbn; intros H; apply StronglySorted_inv in H as [Hs Hf]; [split_and!; [constructor|done|constructor|done|constructor]|].
  destruct (IH Hs) as (H1&H2&H3&H4&H5). apply Forall_app in Hf as [Hf1 Hf2]. apply Forall_cons in Hf2 as [Hf2 Hf3]. split_and!; [by constructor|done|by constructor|done|by constructor].
Qed.
Lemma sorted_app (l : list block) x l' : StronglySorted below l -> StronglySorted below l' -> Forall (fun y => y.1 < x.1) l -> Forall (fun y => x.1 < y.1) l' ->
  StronglySorted below (l ++ x :: l').
Proof.
  intros Hl Hl' H1 H2. induction Hl as [|y l Hl IH Hy]; cbn; [by constructor|]. apply Forall_cons in H1 as [Hyx H1]. constructor; [by apply IH|].
  apply Forall_app. split; [done|]. constructor; [done|]. eapply Forall_impl; [exact H2|]. unfold below. cbn. intros z Hz. lia.
Qed.

(** The header of a ring at an address. *)
Lemma ring_at h fl al a : wf h fl al -> a ∈ fl.*1 -> exists pre s post, fl = pre ++ (a, s) :: post /\ (pre = [] -> a = base) /\ hd_addr pre base = base.
Proof.
  intros H Ha. apply list_elem_of_fmap in Ha as ([a' s]&->&Hx). apply list_elem_of_split in Hx as (pre&post&->). exists pre, s, post. split; [done|].
  destruct (wf_base _ _ _ H) as [bl E]. destruct pre as [|y pre]; cbn in *; [by injection E as -> -> _|by injection E as -> _].
Qed.

(** [free] finds the block before [bp]. *)
Lemma free_find_wf h fl al bp fuel : wf h fl al -> start <= bp -> bp ∉ fl.*1 -> (length fl <= fuel)%nat ->
  exists pre p sp post, fl = pre ++ (p, sp) :: post /\ free_find fuel h bp (freep h) = Some p /\ p < bp /\ (post = [] \/ bp < hd_addr post 0).
Proof.
  intros H Hbp Hni Hf. destruct (ring_at h fl al (freep h) H (wf_freep _ _ _ H)) as (pre&sf&post&E&Hpre&Hb). pose proof (wf_ring _ _ _ H) as Hr. rewrite E in Hr.
  pose proof (seg_rotate h pre (freep h, sf) post Hpre Hb Hr) as Hrot. destruct (wf_base _ _ _ H) as [bl Ebl].
  assert (Hstop : exists q, q ∈ fl /\ forall nx, get_ptr h q.1 = Some nx -> stops bp q.1 nx = true).
  { rewrite Ebl in Hni. cbn in Hni. apply not_elem_of_cons in Hni as [_ Hni]. pose proof (wf_sorted _ _ _ H) as Hs. rewrite Ebl in Hs.
    destruct (sorted_place bl bp (base, 0) Hs) as (l1&y&l2&E2&Hy&Hl2); [unfold HDR in *; cbn; lia|done|]. exists y. rewrite Ebl, E2. split; [set_solver|].
    intros nx Hnx. pose proof (wf_ring _ _ _ H) as Hr2. rewrite Ebl, E2 in Hr2. apply seg_app in Hr2 as [_ [Hy2 _]]. rewrite Hy2 in Hnx. injection Hnx as <-.
    unfold stops. destruct l2 as [|z l2]; cbn in *; [|destruct Hl2 as [|Hz]; [done|]; lia].
    assert (base <= y.1); [|unfold HDR in *; lia]. destruct l1 as [|w l1]; cbn in E2; [injection E2 as <- _; cbn; lia|]. injection E2 as <- E2.
    apply StronglySorted_inv in Hs as [_ Hs]. rewrite E2, Forall_app, Forall_cons in Hs. destruct Hs as (_&Hs&_). unfold below in Hs. cbn in Hs. lia. }
  destruct (free_find_ok h bp ((freep h, sf) :: post ++ pre) (freep h) fuel Hrot) as (l1&x&l2&E3&Ef&Hst).
  { destruct Hstop as (q&Hq&Hs). assert (Hq' : q ∈ (freep h, sf) :: post ++ pre) by (rewrite E in Hq; set_solver).
    apply list_elem_of_split in Hq' as (l1&l2&E2). exists l1, q, l2. split; [done|]. apply Hs. cbn [fst] in Hrot. rewrite E2 in Hrot. by apply seg_app in Hrot as [_ [? _]]. }
  { rewrite E, length_app in Hf. cbn in *. rewrite length_app. lia. }
  assert (Hx : x.1 ∈ fl.*1) by (apply list_elem_of_fmap; exists x; split; [done|]; assert (x ∈ (freep h, sf) :: post ++ pre) by (rewrite E3; set_solver); rewrite E; set_solver).
  destruct (ring_at h fl al x.1 H Hx) as (pre'&s&post'&E4&_). exists pre', x.1, s, post'. split; [done|]. split; [exact Ef|].
  assert (Hnx : hd_addr l2 (freep h) = hd_addr post' base).
  { cbn [fst] in Hrot. rewrite E3 in Hrot. apply seg_app in Hrot as [_ [Hn _]]. pose proof (wf_ring _ _ _ H) as Hr2. rewrite E4 in Hr2. apply seg_app in Hr2 as [_ [Hn2 _]]. cbn [fst] in Hn2. congruence. }
  rewrite Hnx in Hst. pose proof (wf_sorted _ _ _ H) as Hs. rewrite E4 in Hs. apply sorted_app_inv in Hs as (_&_&_&Hs&_). unfold stops in Hst. unfold HDR in *.
  destruct post' as [|z post']; cbn in *; [split; [lia|by left]|]. apply Forall_cons in Hs as [Hz _]. split; [|right]; lia.
Qed.


(** [h'] differs from [h] in the header [bp] only. *)
Definition touches (bp : Z) (h h' : heap) : Prop :=
  (forall a, a <> bp -> get_ptr h' a = get_ptr h a /\ get_size h' a = get_size h a) /\ brk h' = brk h.
Lemma touches_trans bp h h1 h2 : touches bp h h1 -> touches bp h1 h2 -> touches bp h h2.
Proof.
  intros [H1 B1] [H2 B2]. split; [|congruence]. intros a Ha. destruct (H1 a Ha) as [E1 E2]. destruct (H2 a Ha) as [E3 E4]. by rewrite E3, E4.
Qed.
Lemma set_ptr_ok h a v : writable h a = true -> exists h', set_ptr h a v = Some h' /\ touches a h h' /\ get_ptr h' a = Some v /\ get_size h' a = get_size h a.
Proof.
  intros Hw. unfold set_ptr. rewrite Hw. eexists. split; [done|]. split; [|split; [apply lookup_insert_eq|done]]. split; [|done].
  intros b Hb. split; [by apply lookup_insert_ne|done].
Qed.
Lemma set_size_ok h a v : writable h a = true -> exists h', set_size h a v = Some h' /\ touches a h h' /\ get_size h' a = Some v /\ get_ptr h' a = get_ptr h a.
Proof.
  intros Hw. unfold set_size. rewrite Hw. eexists. split; [done|]. split; [|split; [apply lookup_insert_eq|done]]. split; [|done].
  intros b Hb. split; [done|by apply lookup_insert_ne].
Qed.
Lemma writable_block h b : block_in (brk h) b -> writable h b.1 = true.
Proof. intros H. unfold writable. units. lia. Qed.
Lemma writable_touches a h h' b : touches a h h' -> writable h' b = writable h b.
Proof. intros [_ E]. unfold writable. by rewrite E. Qed.
Lemma seg_touches a h h' l fin : touches a h h' -> Forall (fun x => x.1 <> a) l -> seg h l fin -> seg h' l fin.
Proof. intros [H _] Hl. apply seg_ext. intros x Hx. rewrite Forall_forall in Hl. apply H. by apply Hl. Qed.
Lemma live_touches a h h' al : touches a h h' -> Forall (fun x => x.1 <> a) al -> Forall (fun b => get_size h b.1 = Some b.2) al -> Forall (fun b => get_size h' b.1 = Some b.2) al.
Proof.
  intros [H _] Hl Hal. rewrite Forall_forall in Hl, Hal |- *. intros x Hx. destruct (H x.1) as [_ E]; [by apply Hl|]. rewrite E. by apply Hal.
Qed.
Lemma plus_small hi b : block_in hi b -> hi < 2 ^ 31 -> 0 < start -> plus b.1 b.2 = b.1 + HDR * b.2.
Proof. intros H Hhi Hs. unfold plus. apply u32_small. units. lia. Qed.

Lemma plus_one hi b : block_in hi b -> hi < 2 ^ 31 -> plus b.1 1 = b.1 + HDR.
Proof. intros H Hhi. unfold plus. rewrite u32_small; units; lia. Qed.

(** Between [p] and [post] the block [bp] is inserted; the link from [p] is not
    yet made. *)
Record between (h : heap) (pre : list block) (p sp bp s : Z) (post al : list block) : Prop := {
  b_base : exists bl, pre ++ [(p, sp)] = (base, 0) :: bl;
  b_pre : seg h pre p;
  b_p : get_size h p = Some sp;
  b_bp : seg h ((bp, s) :: post) base;
  b_sorted : StronglySorted below (pre ++ (p, sp) :: (bp, s) :: post);
  b_gaps : gaps (pre ++ [(p, sp)]);
  b_gaps' : gaps ((bp, s) :: post);
  b_tiles : tiles (brk h) (tail (pre ++ [(p, sp)]) ++ (bp, s) :: post ++ al);
  b_live : Forall (fun b => get_size h b.1 = Some b.2) al;
  b_brk : start <= brk h < 2 ^ 31 /\ (brk h - start) mod HDR = 0;
}.

Definition merged (bp s : Z) (post : list block) : Z * list block :=
  match post with
  | (b, t) :: post' => if bp + HDR * s =? b then (s + t, post') else (s, post)
  | [] => (s, [])
  end.

(** Where [join_next] starts: [bp] is a live block between [p] and [post]. *)
Record ready (h : heap) (pre : list block) (p sp bp s : Z) (post al : list block) : Prop := {
  r_wf : wf h (pre ++ (p, sp) :: post) ((bp, s) :: al);
  r_p : p < bp;
  r_post : post = [] \/ bp < hd_addr post 0;
}.

Lemma ready_tiles h pre p sp bp s post al : ready h pre p sp bp s post al -> tiles (brk h) ((bp, s) :: tail (pre ++ [(p, sp)]) ++ post ++ al).
Proof.
  intros [H _ _]. eapply tiles_perm; [|exact (wf_tiles _ _ _ H)]. rewrite tail_app. rewrite <- Permutation_middle. by rewrite <- app_assoc.
Qed.

Lemma ready_base h pre p sp bp s post al : ready h pre p sp bp s post al -> exists bl, pre ++ [(p, sp)] = (base, 0) :: bl.
Proof. intros [H _ _]. destruct (wf_base _ _ _ H) as [bl E]. destruct pre as [|y pre]; cbn in *; [injection E as -> -> _|injection E as -> _]; eauto. Qed.

(** [bp] is the address of no other header. *)
Lemma ready_fresh h pre p sp bp s post al : ready h pre p sp bp s post al ->
  Forall (fun x => x.1 <> bp) pre /\ p <> bp /\ Forall (fun x => x.1 <> bp) post /\ Forall (fun x => x.1 <> bp) al.
Proof.
  intros H. pose proof (tiles_head _ _ _ (ready_tiles _ _ _ _ _ _ _ _ H)) as Hf. rewrite !Forall_app in Hf. destruct Hf as (_&Hpost&Hal).
  destruct H as [Hwf Hp _]. split_and!; [|lia|done|done]. pose proof (wf_sorted _ _ _ Hwf) as Hs. apply sorted_app_inv in Hs as (_&_&Hs&_).
  eapply Forall_impl; [exact Hs|]. cbn. intros x Hx. lia.
Qed.


Lemma ready_above h pre p sp bp s post al : ready h pre p sp bp s post al -> StronglySorted below post /\ Forall (fun x => bp < x.1) post.
Proof.
  intros [H _ Hpost]. pose proof (wf_sorted _ _ _ H) as Hs. apply sorted_app_inv in Hs as (_&Hs&_). split; [done|].
  destruct post as [|z post]; [done|]. destruct Hpost as [|Hz]; [done|]. cbn in Hz. apply StronglySorted_inv in Hs as [_ Hs]. constructor; [done|].
  eapply Forall_impl; [exact Hs|]. unfold below. intros x Hx. lia.
Qed.

Lemma between_intro h h' pre p sp bp s post al s' post' : ready h pre p sp bp s post al -> touches bp h h' ->
  get_ptr h' bp = Some (hd_addr post' base) -> get_size h' bp = Some s' -> (exists l, post = l ++ post') ->
  gaps ((bp, s') :: post') -> tiles (brk h) ((bp, s') :: tail (pre ++ [(p, sp)]) ++ post' ++ al) -> between h' pre p sp bp s' post' al.
Proof.
  intros Hr Ht Hp Hs [l ->] Hg Htl. destruct (ready_fresh _ _ _ _ _ _ _ _ Hr) as (F1&F2&F3&F4). destruct (ready_above _ _ _ _ _ _ _ _ Hr) as [Hso Hab].
  apply Forall_app in F3 as [_ F3]. apply Forall_app in Hab as [_ Hab]. assert (Hsp : StronglySorted below post').
  { clear -Hso. induction l as [|x l IH]; [done|]. apply StronglySorted_inv in Hso as [Hso _]. by apply IH. }
  pose proof (ready_base _ _ _ _ _ _ _ _ Hr) as Hb. destruct Hr as [H Hlt _]. pose proof (wf_ring _ _ _ H) as Hring. apply seg_app in Hring as [R1 (R2&R3&R4)].
  apply seg_app in R4 as [_ R4]. destruct (sorted_app_inv _ _ _ (wf_sorted _ _ _ H)) as (S1&_&S2&_). pose proof Ht as [_ Eb]. split.
  - done.
  - by eapply seg_touches.
  - destruct Ht as [Ht _]. destruct (Ht p F2) as [_ E]. by rewrite E.
  - cbn. split; [done|]. split; [done|]. by eapply seg_touches.
  - apply sorted_app; [done|by constructor|done|]. constructor; [done|]. eapply Forall_impl; [exact Hab|]. cbn. intros x Hx. lia.
  - pose proof (wf_gaps _ _ _ H) as G. by apply gaps_app in G as [G _].
  - done.
  - rewrite Eb. eapply tiles_perm; [|exact Htl]. apply Permutation_middle.
  - apply (live_touches bp h); [done|done|]. pose proof (wf_live _ _ _ H) as Hl. by apply Forall_cons in Hl as [_ ?].
  - rewrite Eb. apply (wf_brk _ _ _ H).
Qed.

Lemma join_next_ok h pre p sp bp s post al : ready h pre p sp bp s post al ->
  exists h' s' post', join_next h bp p = Some h' /\ between h' pre p sp bp s' post' al /\ s <= s' /\ brk h' = brk h /\ (length post' <= length post)%nat.
Proof.
  intros Hr. pose proof (ready_tiles _ _ _ _ _ _ _ _ Hr) as Htl. destruct (ready_fresh _ _ _ _ _ _ _ _ Hr) as (F1&F2&F3&F4). pose proof (r_wf _ _ _ _ _ _ _ _ Hr) as H.
  pose proof (wf_bounds h _ _ (bp, s) H ltac:(set_solver)) as Hin. pose proof (wf_brk _ _ _ H) as Hbrk. pose proof (plus_small _ _ Hin ltac:(lia) ltac:(unfold HDR in *; lia)) as Hplus.
  pose proof (wf_ring _ _ _ H) as Hring. apply seg_app in Hring as [_ (R2&_&R4)]. cbn [fst snd] in *. pose proof (wf_live _ _ _ H) as Hl. apply Forall_cons in Hl as [Hs _]. cbn [fst snd] in Hs.
  pose proof (wf_gaps _ _ _ H) as G. apply gaps_app in G as [_ G]. unfold join_next. rewrite R2, Hs. cbn [mbind option_bind]. rewrite Hplus.
  assert (Hkeep : hd_addr post base <> bp + HDR * s -> exists h' s' post', set_ptr h bp (hd_addr post base) = Some h' /\ between h' pre p sp bp s' post' al /\ s <= s' /\ brk h' = brk h /\ (length post' <= length post)%nat).
  { intros Hne. destruct (set_ptr_ok h bp (hd_addr post base) (writable_block h _ Hin)) as (h'&E&Ht&Ep&Es). exists h', s, post. split; [done|]. split; [|split; [lia|by destruct Ht]].
    apply (between_intro h h' pre p sp bp s post al); [done..|congruence|by exists []| |done].
    cbn. destruct post as [|z post]; [done|]. cbn in Hne. split; [cbn; congruence|]. by destruct G. }
  destruct (Z.eqb_spec (bp + HDR * s) (hd_addr post base)) as [E|Hne]; [|by apply Hkeep].
  destruct post as [|[b t] post]; [cbn in E; units; lia|]. cbn [hd_addr fst] in *. destruct R4 as (R5&R6&_). cbn [fst snd] in R5, R6. rewrite R6. cbn [mbind option_bind].
  assert (Hinb : block_in (brk h) (b, t)) by (apply (wf_bounds h _ _ _ H); rewrite tail_app; set_solver).
  destruct (set_size_ok h bp (u32 (s + t)) (writable_block h _ Hin)) as (h1&E1&Ht1&Es1&_). rewrite E1. cbn [mbind option_bind]. apply Forall_cons in F3 as [Fb F3].
  destruct Ht1 as [Ht1 Ht1']. destruct (Ht1 b Fb) as [Epb _]. rewrite Epb, R5. cbn [mbind option_bind].
  destruct (set_ptr_ok h1 bp (hd_addr post base)) as (h2&E2&Ht2&Ep2&Es2); [rewrite (writable_touches bp h h1) by done; exact (writable_block h _ Hin)|].
  assert (Ht : touches bp h h2) by (by apply (touches_trans bp h h1)). rewrite Es1, u32_small in Es2 by (units; lia).
  exists h2, (s + t), post. split; [done|]. split; [|split; [units; lia|split; [by destruct Ht|cbn; lia]]]. apply (between_intro h h2 pre p sp bp s ((b, t) :: post) al); [done..|by exists [(b, t)]| |].
  - cbn [gaps] in G |- *. destruct G as [_ G]. destruct post as [|z post]; [done|]. cbn [fst snd] in *. destruct G as [G1 G2]. split; [|done]. intros Ez. apply G1. units. lia.
  - apply (tiles_merge _ bp s b t); [|done]. eapply tiles_perm; [|exact Htl]. apply perm_skip. symmetry. apply Permutation_middle.
Qed.


(** A header [p] of the ring is relinked, and is the new [freep]. *)
Lemma wf_link h h' pre p sp post al : touches p h h' -> get_ptr h' p = Some (hd_addr post base) -> get_size h' p = Some sp ->
  seg h pre p -> seg h post base -> Forall (fun x => x.1 <> p) al -> (exists bl, pre ++ [(p, sp)] = (base, 0) :: bl) ->
  StronglySorted below (pre ++ (p, sp) :: post) -> gaps (pre ++ (p, sp) :: post) -> tiles (brk h) (tail (pre ++ [(p, sp)]) ++ post ++ al) ->
  Forall (fun b => get_size h b.1 = Some b.2) al -> start <= brk h < 2 ^ 31 /\ (brk h - start) mod HDR = 0 -> wf (h' <| freep := p |>) (pre ++ (p, sp) :: post) al.
Proof.
  intros Ht Hp Hs Hpre Hpost Hal [bl Eb] Hso Hg Htl Hl Hbrk. destruct (sorted_app_inv _ _ _ Hso) as (_&_&F1&F2&_). cbn [fst] in F1, F2. pose proof Ht as [_ Ebrk]. assert (Ht' : touches p h (h' <| freep := p |>)) by exact Ht.
  assert (F1' : Forall (fun x => x.1 <> p) pre) by (eapply Forall_impl; [exact F1|]; cbn; intros x Hx; lia).
  assert (F2' : Forall (fun x => x.1 <> p) post) by (eapply Forall_impl; [exact F2|]; cbn; intros x Hx; lia). split.
  - exists (bl ++ post). change (pre ++ (p, sp) :: post) with (pre ++ [(p, sp)] ++ post). by rewrite app_assoc, Eb.
  - apply seg_app. split; [by apply (seg_touches p h)|]. split; [done|]. split; [done|]. by apply (seg_touches p h).
  - done.
  - done.
  - change (brk (h' <| freep := p |>)) with (brk h'). rewrite Ebrk, tail_app, <- app_assoc. done.
  - by apply (live_touches p h).
  - change (freep (h' <| freep := p |>)) with p. rewrite fmap_app. set_solver.
  - change (brk (h' <| freep := p |>)) with (brk h'). by rewrite Ebrk.
Qed.

(** The header before is [base], or a block. *)
Lemma before_cases hi pre p sp l : (exists bl, pre ++ [(p, sp)] = (base, 0) :: bl) -> tiles hi (tail (pre ++ [(p, sp)]) ++ l) ->
  (pre = [] /\ p = base /\ sp = 0) \/ (pre <> [] /\ block_in hi (p, sp) /\ tail (pre ++ [(p, sp)]) = tail pre ++ [(p, sp)]).
Proof.
  intros [bl E] Ht. destruct pre as [|y pre]; [left; by injection E as -> -> _|right]. split; [done|]. split; [|done].
  destruct Ht as [Hf _ _]. rewrite Forall_app in Hf. destruct Hf as [Hf _]. cbn in Hf. apply Forall_app in Hf as [_ Hf]. by apply Forall_cons in Hf as [? _].
Qed.

Lemma join_prev_ok h pre p sp bp s post al : between h pre p sp bp s post al ->
  exists h' fl', join_prev h bp p = Some h' /\ wf (h' <| freep := p |>) fl' al /\ (exists b, b ∈ fl' /\ s <= b.2) /\ brk h' = brk h /\ (length fl' <= length pre + 2 + length post)%nat.
Proof.
  intros [Hb Hpre Hp Hbp Hso Hg Hg' Htl Hl Hbrk]. destruct Hbp as (Hpp&Hps&Hpost). cbn [fst snd] in Hpp, Hps. pose proof (before_cases _ _ _ _ _ Hb Htl) as Hc.
  destruct (sorted_app_inv _ _ _ Hso) as (S1&S2&S3&S4&_). cbn [fst] in S3, S4. apply Forall_cons in S4 as [Hlt S4]. cbn in Hlt. apply StronglySorted_inv in S2 as [S2 S5].
  assert (Hinb : block_in (brk h) (bp, s)) by (destruct Htl as [Hf _ _]; rewrite Forall_forall in Hf; apply Hf; set_solver).
  assert (Hplus : plus p sp = p + HDR * sp).
  { destruct Hc as [(_&->&->)|(_&Hin&_)]; [unfold plus; apply u32_small; unfold HDR in *; lia|]. apply (plus_small (brk h) (p, sp)); [done|lia|unfold HDR in *; lia]. }
  assert (Hw : writable h p = true) by (destruct Hc as [(_&->&_)|(_&Hin&_)]; [unfold writable; by rewrite Z.eqb_refl|exact (writable_block h _ Hin)]).
  assert (Hal : Forall (fun x => x.1 <> p) al).
  { destruct Hc as [(_&->&_)|(_&_&Et)].
    - destruct Htl as [Hf _ _]. rewrite Forall_forall in Hf |- *. intros x Hx. specialize (Hf x ltac:(set_solver)). units. lia.
    - rewrite Et in Htl. assert (Htl' : tiles (brk h) ((p, sp) :: tail pre ++ (bp, s) :: post ++ al)).
      { eapply tiles_perm; [|exact Htl]. rewrite <- app_assoc. symmetry. apply Permutation_middle. }
      apply tiles_head in Htl'. cbn [fst] in Htl'. rewrite Forall_forall in Htl' |- *. intros x Hx. apply Htl'. set_solver. }
  unfold join_prev. rewrite Hp. cbn [mbind option_bind]. rewrite Hplus. destruct (Z.eqb_spec (p + HDR * sp) bp) as [E|Hne].
  - destruct Hc as [(_&->&->)|(Hne&Hin&Et)]; [lia|]. rewrite Hps. cbn [mbind option_bind].
    destruct (set_size_ok h p (u32 (sp + s)) Hw) as (h1&E1&Ht1&Es1&Ep1). rewrite E1. cbn [mbind option_bind]. destruct (proj1 Ht1 bp) as [Ebp _]; [lia|]. rewrite Ebp, Hpp. cbn [mbind option_bind].
    destruct (set_ptr_ok h1 p (hd_addr post base)) as (h2&E2&Ht2&Ep2&Es2); [by rewrite (writable_touches p h h1)|]. rewrite Es1, u32_small in Es2 by (units; lia).
    pose proof (touches_trans _ _ _ _ Ht1 Ht2) as Ht. exists h2, (pre ++ (p, sp + s) :: post). split; [done|].
    split; [|split; [exists (p, sp + s); split; [set_solver|units; lia]|split; [by destruct Ht as [_ ?]|rewrite length_app; cbn; lia]]]. apply (wf_link h h2); [done..| | | | |done|done].
    + destruct Hb as [bl Eb]. destruct pre as [|y pre]; [done|]. injection Eb as -> _. eauto.
    + apply sorted_app; [done|done|done|]. done.
    + apply gaps_app. split; [by eapply gaps_size|]. destruct post as [|z post]; [done|]. cbn [gaps fst snd] in Hg' |- *. destruct Hg' as [G1 G2]. split; [|done]. intros Ez. apply G1. units. lia.
    + assert (Et' : tail (pre ++ [(p, sp + s)]) = tail pre ++ [(p, sp + s)]) by (by destruct pre). rewrite Et', <- app_assoc. cbn [app].
      eapply tiles_perm; [apply Permutation_middle|]. apply (tiles_merge _ p sp bp s); [|done]. eapply tiles_perm; [|exact Htl]. rewrite Et, <- app_assoc. cbn [app].
      rewrite <- Permutation_middle. apply perm_skip. symmetry. apply Permutation_middle.
  - destruct (set_ptr_ok h p bp Hw) as (h2&E2&Ht&Ep2&Es2). exists h2, (pre ++ (p, sp) :: (bp, s) :: post). split; [done|].
    split; [|split; [exists (bp, s); split; [set_solver|cbn; lia]|split; [by destruct Ht as [_ ?]|rewrite length_app; cbn; lia]]]. apply (wf_link h h2); [done|done|congruence|done|by split|done|done|done| |done|done|done].
    apply gaps_app. split; [done|]. cbn [gaps fst snd] in Hg' |- *. done.
Qed.


Lemma wf_perm h fl al al' : al ≡ₚ al' -> wf h fl al -> wf h fl al'.
Proof. intros Hp [H1 H2 H3 H4 H5 H6 H7 H8]. split; [done..| |by rewrite <- Hp|done|done]. eapply tiles_perm; [|exact H5]. by apply Permutation_app_head. Qed.

Lemma sorted_length lo hi l : StronglySorted below l -> pairwise l -> Forall (block_in hi) l -> Forall (fun x => lo <= x.1) l -> lo <= hi -> lo + HDR * Z.of_nat (length l) <= hi.
Proof.
  intros Hs. revert lo. induction Hs as [|x l Hs IH Hx]; intros lo Hp Hin Hlo Hle; [cbn; lia|].
  cbn in Hp. destruct Hp as [Hd Hp]. apply Forall_cons in Hin as [Hx1 Hin]. apply Forall_cons in Hlo as [Hlo1 _]. cbn [length].
  specialize (IH (x.1 + HDR) Hp Hin). rewrite Nat2Z.inj_succ. units. enough (x.1 + 8 + 8 * Z.of_nat (length l) <= hi) by lia. apply IH; [|lia].
  rewrite Forall_forall in Hx, Hd, Hin |- *. intros y Hy. specialize (Hx y Hy). specialize (Hd y Hy). specialize (Hin y Hy). unfold below in Hx. cbn in *. lia.
Qed.
Lemma pairwise_app l l' : pairwise (l ++ l') -> pairwise l.
Proof. induction l as [|x l IH]; cbn; [done|]. rewrite Forall_app. intros [[H1 _] H2]. split; [done|by apply IH]. Qed.

(** Enough fuel for a walk around the ring. *)
Definition room (h : heap) : nat := S (Z.to_nat ((brk h - start) / HDR)).
Lemma wf_length h fl al : wf h fl al -> (length fl <= room h)%nat.
Proof.
  intros H. destruct (wf_base _ _ _ H) as [bl E]. pose proof (wf_tiles _ _ _ H) as [Hin Hp _]. pose proof (wf_sorted _ _ _ H) as Hs. rewrite E in Hin, Hp, Hs |- *. cbn [tail] in *.
  apply StronglySorted_inv in Hs as [Hs _]. apply pairwise_app in Hp. rewrite Forall_app in Hin. destruct Hin as [Hin _]. destruct (wf_brk _ _ _ H) as [Hb _].
  pose proof (sorted_length start (brk h) bl Hs Hp Hin) as Hl. cbn. unfold room. apply le_n_S. assert (Hlo : Forall (fun x => start <= x.1) bl) by (eapply Forall_impl; [exact Hin|]; intros x Hx; units; lia).
  specialize (Hl Hlo ltac:(lia)). assert (Z.of_nat (length bl) <= (brk h - start) / HDR); [|lia]. apply Z.div_le_lower_bound; unfold HDR in *; lia.
Qed.

Lemma live_fresh h fl al bp s : wf h fl ((bp, s) :: al) -> bp ∉ fl.*1.
Proof.
  intros H. destruct (wf_base _ _ _ H) as [bl E]. pose proof (wf_bounds h fl _ (bp, s) H ltac:(set_solver)) as Hin.
  assert (Ht : tiles (brk h) ((bp, s) :: tail fl ++ al)) by (eapply tiles_perm; [|exact (wf_tiles _ _ _ H)]; symmetry; apply Permutation_middle).
  apply tiles_head in Ht. rewrite E in Ht |- *. cbn [tail] in Ht. intros Hx. apply list_elem_of_fmap in Hx as (x&Ex&Hx). apply elem_of_cons in Hx as [->|Hx]; [units; lia|].
  rewrite Forall_forall in Ht. specialize (Ht x ltac:(set_solver)). cbn in *. congruence.
Qed.

Lemma free_ok h fl al bp s fuel : wf h fl ((bp, s) :: al) -> (length fl <= fuel)%nat ->
  exists h' fl', free fuel h (bp + HDR) = Some h' /\ wf h' fl' al /\ (exists b, b ∈ fl' /\ s <= b.2) /\ brk h' = brk h /\ (length fl' <= S (length fl))%nat.
Proof.
  intros H Hf. pose proof (wf_bounds h fl _ (bp, s) H ltac:(set_solver)) as Hin. pose proof (wf_brk _ _ _ H) as [Hb _].
  destruct (free_find_wf h fl _ bp fuel H) as (pre&p&sp&post&E&Ef&Hlt&Hpost); [units; lia|by eapply live_fresh|done|].
  assert (Hr : ready h pre p sp bp s post al) by (rewrite E in H; by split). destruct (join_next_ok _ _ _ _ _ _ _ _ Hr) as (h1&s'&post'&E1&Hbt&Hle&Eb1&Hl1).
  destruct (join_prev_ok _ _ _ _ _ _ _ _ Hbt) as (h2&fl'&E2&Hwf&(b&Hb1&Hb2)&Ebrk&Hl2). exists (h2 <| freep := p |>), fl'. split; [|split; [done|split; [exists b; split; [done|lia]|split]]].
  - unfold free. assert (Eb : plus (bp + HDR) (-1) = bp) by (unfold plus; rewrite u32_small; units; lia). rewrite Eb, Ef. cbn [mbind option_bind]. rewrite E1. cbn [mbind option_bind]. by rewrite E2.
  - change (brk h2 = brk h). by rewrite Ebrk.
  - rewrite E, length_app. cbn. lia.
Qed.


(** ** [malloc] *)
Context (Hgrant : forall b n, grant b n = true -> b + n < 2 ^ 31).

Lemma base_elem h fl al x : wf h fl al -> x ∈ fl -> x = (base, 0) \/ x ∈ tail fl.
Proof. intros H Hx. destruct (wf_base _ _ _ H) as [bl E]. rewrite E in *. cbn. by apply elem_of_cons in Hx. Qed.
Lemma below_brk h fl al x : wf h fl al -> x ∈ fl ++ al -> x.1 < brk h.
Proof.
  intros H Hx. pose proof (wf_brk _ _ _ H) as [Hb _]. apply elem_of_app in Hx as [Hx|Hx]; [destruct (base_elem h fl al x H Hx) as [->|Hx']; [unfold HDR in *; cbn; lia|]|];
    (pose proof (wf_bounds h fl al x H ltac:(set_solver)) as Hin; units; lia).
Qed.

(** The memory [sbrk] has granted is a live block. *)
Lemma wf_grow h h' fl al nu : wf h fl al -> 1 <= nu -> brk h + HDR * nu < 2 ^ 31 -> set_size (h <| brk := brk h + HDR * nu |>) (brk h) nu = Some h' ->
  wf h' fl ((brk h, nu) :: al).
Proof.
  intros H Hnu Hlim E. pose proof H as [H1 H2 H3 H4 H5 H6 H7 [H8 H9]]. unfold set_size in E. destruct (writable _ _); [|done]. injection E as <-.
  assert (Hs : forall x, x ∈ fl ++ al -> <[brk h := nu]> (sizes h) !! x.1 = sizes h !! x.1).
  { intros x Hx. apply lookup_insert_ne. pose proof (below_brk h fl al x H Hx). lia. }
  split; [done| |done|done| | |done|].
  - eapply seg_ext; [|exact H2]. intros x Hx. split; [done|]. apply Hs. set_solver.
  - eapply tiles_perm; [apply Permutation_middle|]. change (tiles (brk h + HDR * nu) ((brk h, nu) :: tail fl ++ al)). apply tiles_grow; [done|lia|done|done].
  - constructor; [apply lookup_insert_eq|]. rewrite Forall_forall in H6 |- *. intros x Hx. rewrite <- (H6 x Hx). apply Hs. set_solver.
  - cbn. split; [unfold HDR in *; lia|]. replace (brk h + HDR * nu - start) with (brk h - start + nu * HDR) by lia. by rewrite Z.mod_add.
Qed.

Lemma morecore_ok h fl al n fuel : wf h fl al -> 1 <= n -> HDR * n < 2 ^ 31 -> (length fl <= fuel)%nat ->
  (morecore fuel h n = Some (0, h) /\ grant (brk h) (HDR * Z.max n 4096) = false) \/
  exists h' fl', morecore fuel h n = Some (freep h', h') /\ wf h' fl' al /\ (exists b, b ∈ fl' /\ n <= b.2) /\ (length fl' <= S (length fl))%nat.
Proof.
  intros H Hn Hlim Hf. unfold morecore. set (nu := if n <? 4096 then 4096 else n). assert (Hnu : nu = Z.max n 4096) by (unfold nu; destruct (Z.ltb_spec n 4096); lia).
  assert (Es : s32 (u32 (nu * HDR)) = HDR * nu) by (rewrite u32_small, s32_small; unfold HDR in *; lia). rewrite Es. unfold sbrk. rewrite Hnu. pose proof (wf_brk _ _ _ H) as [Hb _].
  destruct (grant (brk h) (HDR * Z.max n 4096)) eqn:Hg; [right|by left]. apply Hgrant in Hg. rewrite (proj2 (Z.eqb_neq (brk h) (-1))) by (unfold HDR in *; lia).
  rewrite <- Hnu in Hg |- *. clearbody nu. destruct (set_size (h <| brk := brk h + HDR * nu |>) (brk h) nu) as [h1|] eqn:E1.
  2:{ exfalso. unfold set_size, writable in E1. change (brk (h <| brk := _ |>)) with (brk h + HDR * nu) in E1. replace ((start <=? brk h) && _) with true in E1 by (unfold HDR in *; lia).
      by rewrite orb_true_r in E1. }
  cbn [mbind option_bind]. pose proof (wf_grow h h1 fl al nu H ltac:(lia) Hg E1) as H1.
  destruct (free_ok h1 fl al (brk h) nu fuel H1 Hf) as (h2&fl2&E2&H2&(b&Hb1&Hb2)&_&Hl2).
  assert (Ep : plus (brk h) 1 = brk h + HDR) by (unfold plus; rewrite u32_small; unfold HDR in *; lia). rewrite Ep, E2. cbn [mbind option_bind].
  exists h2, fl2. split; [done|]. split; [done|]. split; [|done]. exists b. split; [done|lia].
Qed.

Lemma malloc_loop_S fuel h n prevp p : malloc_loop (S fuel) h n prevp p = (size ← get_size h p;
  if n <=? size then take_block h n prevp p size else
  if p =? freep h then '(p, h) ← morecore (S fuel) h n; if p =? 0 then Some (0, h) else nx ← get_ptr h p; malloc_loop fuel h n p nx
  else nx ← get_ptr h p; malloc_loop fuel h n p nx).
Proof. reflexivity. Qed.

(** The walk around the ring, from the header after [freep] to [freep]. *)
Lemma malloc_scan h n sf fin l0 prevp fuel : let l := l0 ++ [(freep h, sf)] in
  seg h l fin -> Forall (fun x => x.1 <> freep h) l0 -> (length l <= fuel)%nat -> get_ptr h prevp = Some (hd_addr l fin) ->
  (exists q x, x ∈ l /\ n <= x.2 /\ q ∈ prevp :: l.*1 /\ get_ptr h q = Some x.1 /\ malloc_loop fuel h n prevp (hd_addr l fin) = take_block h n q x.1 x.2) \/
  (Forall (fun x => x.2 < n) l /\ exists k, fuel = (k + length l)%nat /\ malloc_loop fuel h n prevp (hd_addr l fin) =
    ('(p, h) ← morecore (S k) h n; if p =? 0 then Some (0, h) else nx ← get_ptr h p; malloc_loop k h n p nx)).
Proof.
  revert prevp fuel. induction l0 as [|y l0 IH]; intros prevp fuel l; subst l; cbn [app length hd_addr]; intros (Hp&Hs&Hseg) Hne Hf Hprev; (destruct fuel as [|fuel]; [cbn in Hf; lia|]);
    rewrite malloc_loop_S, Hs; cbn [mbind option_bind fst snd] in *.
  - destruct (Z.leb_spec n sf) as [Hle|Hgt]; [left; exists prevp, (freep h, sf); split_and!; [by left|done|by left|done|done]|right].
    split; [by repeat constructor|]. exists fuel. split; [lia|]. by rewrite Z.eqb_refl.
  - apply Forall_cons in Hne as [Hy Hne]. destruct (Z.leb_spec n y.2) as [Hle|Hgt]; [left; exists prevp, y; split_and!; [by left|done|by left|done|done]|].
    rewrite (proj2 (Z.eqb_neq _ _) Hy), Hp. cbn [mbind option_bind]. destruct (IH y.1 fuel Hseg Hne ltac:(lia) Hp) as [(q&x&Hx&Hn&Hq&Hqx&E)|(Hall&k&Ek&E)].
    + left. exists q, x. split; [by right|]. split; [done|]. split; [right; exact Hq|done].
    + right. split; [by constructor|]. exists k. split; [lia|done].
Qed.


(** No header lies inside another block. *)
Lemma header_outside hi a s l b : tiles hi ((a, s) :: l) -> b ∈ l -> b.1 <= a \/ a + HDR * s <= b.1.
Proof.
  intros [Hin [Hd _] _] Hb. rewrite Forall_forall in Hd. specialize (Hd b Hb). apply Forall_cons in Hin as [_ Hin]. rewrite Forall_forall in Hin. specialize (Hin b Hb). units. lia.
Qed.

(** The first [s - n] units of a free block stay free. *)
Lemma split_ok h q1 q sq a s q2 al n : wf h (q1 ++ (q, sq) :: (a, s) :: q2) al -> 1 <= n < s ->
  exists h1 h2, set_size h a (s - n) = Some h1 /\ set_size h1 (a + HDR * (s - n)) n = Some h2 /\
    wf (h2 <| freep := q |>) (q1 ++ (q, sq) :: (a, s - n) :: q2) ((a + HDR * (s - n), n) :: al).
Proof.
  intros H Hn. pose proof H as [H1 H2 H3 H4 H5 H6 H7 H8]. set (a' := a + HDR * (s - n)).
  assert (Ht : tiles (brk h) ((a, s) :: tail (q1 ++ [(q, sq)]) ++ q2 ++ al)).
  { eapply tiles_perm; [|exact H5]. rewrite tail_app, <- app_assoc. symmetry. apply Permutation_middle. }
  assert (Hin : block_in (brk h) (a, s)) by (destruct Ht as [Hf _ _]; by apply Forall_cons in Hf as [? _]).
  pose proof (tiles_split _ a s n _ Ht ltac:(lia)) as Ht'. destruct (set_size_ok h a (s - n) (writable_block h _ Hin)) as (h1&E1&T1&S1&P1).
  assert (Hin' : block_in (brk h1) (a', n)) by (destruct T1 as [_ ->]; destruct Ht' as [Hf _ _]; rewrite !Forall_cons in Hf; apply Hf).
  destruct (set_size_ok h1 a' n (writable_block h1 _ Hin')) as (h2&E2&T2&S2&P2). exists h1, h2. split; [done|]. split; [done|].
  assert (Hout : forall b, b ∈ (q1 ++ [(q, sq)]) ++ q2 ++ al -> b.1 <> a /\ b.1 <> a').
  { intros b Hb. assert (Hb' : b = (base, 0) \/ b ∈ tail (q1 ++ [(q, sq)]) ++ q2 ++ al).
    { destruct H1 as [bl Ebl]. destruct q1 as [|z q1]; cbn in *; injection Ebl as <- ; set_solver. }
    destruct Hb' as [->|Hb']; [unfold a'; units; lia|]. pose proof (header_outside _ _ _ _ b Ht Hb'). pose proof (tiles_head _ _ _ Ht) as Hd. rewrite Forall_forall in Hd. specialize (Hd b Hb').
    unfold a'. units. lia. }
  assert (Hsame : forall b, b ∈ (q1 ++ [(q, sq)]) ++ q2 ++ al -> get_ptr h2 b.1 = get_ptr h b.1 /\ get_size h2 b.1 = get_size h b.1).
  { intros b Hb. destruct (Hout b Hb) as [N1 N2]. destruct (proj1 T1 b.1 N1) as [<- <-]. by apply T2. }
  change (q1 ++ (q, sq) :: (a, s) :: q2) with (q1 ++ [(q, sq)] ++ (a, s) :: q2) in *. rewrite app_assoc in *.
  change (q1 ++ (q, sq) :: (a, s - n) :: q2) with (q1 ++ [(q, sq)] ++ (a, s - n) :: q2). rewrite app_assoc. set (m := q1 ++ [(q, sq)]) in *.
  assert (Em : tail (m ++ (a, s - n) :: q2) = tail m ++ (a, s - n) :: q2) by (unfold m; by destruct q1).
  apply seg_app in H2 as [R1 (R2&R3&R4)]. destruct (proj1 T2 a) as [Ea1 Ea2]; [unfold a'; units; lia|]. cbn [fst snd] in *. split.
  - destruct H1 as [bl Ebl]. unfold m in *. destruct q1 as [|z q1]; cbn in *; [injection Ebl as -> -> _|injection Ebl as -> _]; eauto.
  - apply seg_app. split; [eapply seg_ext; [|exact R1]; intros b Hb; apply Hsame; set_solver|]. split; [change (get_ptr h2 a = Some (hd_addr q2 base)); by rewrite Ea1, P1|].
    split; [change (get_size h2 a = Some (s - n)); by rewrite Ea2|]. eapply seg_ext; [|exact R4]. intros b Hb. apply Hsame. set_solver.
  - apply sorted_app_inv in H3 as (S1'&S2'&S3&S4&_). by apply sorted_app.
  - apply gaps_app in H4 as [G1 G2]. apply gaps_app. split; [by eapply gaps_size|]. destruct q2 as [|z q2]; [done|]. cbn [gaps fst snd] in G2 |- *. destruct G2 as [G2 G3]. split; [|done].
    destruct (header_outside _ _ _ _ z Ht ltac:(set_solver)) as [Hz|Hz]; [|units; lia]. apply sorted_app_inv in H3 as (_&_&_&S4&_). apply Forall_cons in S4 as [S4 _]. cbn in S4. lia.
  - change (brk (h2 <| freep := q |>)) with (brk h2). destruct T2 as [_ ->], T1 as [_ ->]. rewrite Em. eapply tiles_perm; [|exact Ht'].
    transitivity ((a', n) :: (tail m ++ (a, s - n) :: q2) ++ al); [|apply Permutation_middle]. rewrite perm_swap. apply perm_skip. rewrite <- !app_assoc. apply Permutation_middle.
  - constructor; [done|]. rewrite Forall_forall in H6 |- *. intros b Hb. rewrite <- (H6 b Hb). apply Hsame. set_solver.
  - change (freep (h2 <| freep := q |>)) with q. rewrite fmap_app. unfold m. rewrite fmap_app. set_solver.
  - change (brk (h2 <| freep := q |>)) with (brk h2). by destruct T2 as [_ ->], T1 as [_ ->].
Qed.


(** The whole of a free block is taken. *)
Lemma unlink_ok h q1 q sq a s q2 al : wf h (q1 ++ (q, sq) :: (a, s) :: q2) al -> 1 <= s ->
  exists h', set_ptr h q (hd_addr q2 base) = Some h' /\ wf (h' <| freep := q |>) (q1 ++ (q, sq) :: q2) ((a, s) :: al).
Proof.
  intros H Hs. pose proof H as [H1 H2 H3 H4 H5 H6 H7 H8].
  assert (Ht : tiles (brk h) (tail (q1 ++ [(q, sq)]) ++ q2 ++ (a, s) :: al)).
  { eapply tiles_perm; [|exact H5]. rewrite tail_app, <- app_assoc. apply Permutation_app_head. cbn [app]. apply Permutation_middle. }
  assert (Hb : exists bl, q1 ++ [(q, sq)] = (base, 0) :: bl) by (destruct H1 as [bl Ebl]; destruct q1 as [|z q1]; cbn in *; [injection Ebl as -> -> _|injection Ebl as -> _]; eauto).
  assert (Hw : writable h q = true).
  { destruct (before_cases _ _ _ _ _ Hb Ht) as [(_&->&_)|(_&Hin&_)]; [unfold writable; by rewrite Z.eqb_refl|exact (writable_block h _ Hin)]. }
  destruct (set_ptr_ok h q (hd_addr q2 base) Hw) as (h'&E&T&P&S). exists h'. split; [done|].
  apply seg_app in H2 as [R1 (R2&R3&R4)]. cbn [fst snd] in R2, R3. destruct R4 as (R4&R5&R6). cbn [fst snd] in R5. apply (sorted_app_inv q1) in H3 as (S1&S2&S3&S4&_).
  apply StronglySorted_inv in S2 as [S2 S2']. apply Forall_cons in S4 as [S4 S4']. cbn in S4.
  apply (wf_link h h'); [done|done|congruence|done|done| |done| | |done|by constructor|done].
  - rewrite Forall_forall. intros x Hx Ex. destruct (before_cases _ _ _ _ _ Hb Ht) as [(_&Eq&_)|(_&_&Et)].
    + destruct Ht as [Hf _ _]. rewrite Forall_forall in Hf. specialize (Hf x ltac:(set_solver)). units. lia.
    + assert (Ht' : tiles (brk h) ((q, sq) :: tail q1 ++ q2 ++ (a, s) :: al)) by (eapply tiles_perm; [|exact Ht]; rewrite Et, <- app_assoc; symmetry; apply Permutation_middle).
      apply tiles_head in Ht'. rewrite Forall_forall in Ht'. by apply (Ht' x ltac:(set_solver)).
  - by apply sorted_app.
  - apply gaps_app in H4 as [G1 G2]. apply gaps_app. split; [done|]. destruct q2 as [|z q2]; [done|]. cbn [gaps fst snd] in G2 |- *. destruct G2 as (G2&G3&G4). split; [|done].
    apply Forall_cons in S2' as [Hz _]. unfold below in Hz. cbn in Hz. destruct (before_cases _ _ _ _ _ Hb Ht) as [(_&->&->)|(Hne&Hin&Et)]; [lia|].
    assert (Ht' : tiles (brk h) ((q, sq) :: tail q1 ++ (z :: q2) ++ (a, s) :: al)) by (eapply tiles_perm; [|exact Ht]; rewrite Et, <- app_assoc; symmetry; apply Permutation_middle).
    destruct (header_outside _ _ _ _ (a, s) Ht' ltac:(set_solver)); cbn in *; lia.
Qed.

Lemma take_block_ok h q1 q sq a s q2 al n : wf h (q1 ++ (q, sq) :: (a, s) :: q2) al -> 1 <= n <= s ->
  exists h' fl' a', take_block h n q a s = Some (a' + HDR, h') /\ wf h' fl' ((a', n) :: al).
Proof.
  intros H Hn. pose proof (wf_ring _ _ _ H) as R. apply seg_app in R as [_ (_&_&R4&_)]. cbn [fst] in R4. pose proof (wf_brk _ _ _ H) as [Hb _].
  assert (Hin : block_in (brk h) (a, s)) by (apply (wf_bounds h _ _ _ H); rewrite tail_app; set_solver). unfold take_block. destruct (Z.eqb_spec s n) as [->|Hne].
  - rewrite R4. cbn [mbind option_bind]. destruct (unlink_ok _ _ _ _ _ _ _ _ H ltac:(lia)) as (h'&E&Hwf). rewrite E. cbn [mbind option_bind]. exists (h' <| freep := q |>), (q1 ++ (q, sq) :: q2), a.
    split; [|done]. pose proof (plus_one (brk h) (a, n) Hin ltac:(lia)) as Hp. cbn [fst] in Hp. by rewrite Hp.
  - destruct (split_ok _ _ _ _ _ _ _ _ n H ltac:(lia)) as (h1&h2&E1&E2&Hwf). assert (Ep : plus a (s - n) = a + HDR * (s - n)) by (unfold plus; rewrite u32_small; units; lia).
    rewrite u32_small, E1 by (units; lia). cbn [mbind option_bind]. rewrite Ep, E2. cbn [mbind option_bind]. eexists _, _, (a + HDR * (s - n)). split; [|exact Hwf].
    assert (Hp : plus (a + HDR * (s - n)) 1 = a + HDR * (s - n) + HDR) by (unfold plus; rewrite u32_small; units; lia). by rewrite Hp.
Qed.

(** Once around the ring. *)
Lemma malloc_round h fl al n fuel : wf h fl al -> 1 <= n -> (length fl <= fuel)%nat ->
  exists nx, get_ptr h (freep h) = Some nx /\
  ((exists h' fl' a', malloc_loop fuel h n (freep h) nx = Some (a' + HDR, h') /\ wf h' fl' ((a', n) :: al)) \/
   (Forall (fun x => x.2 < n) fl /\ exists k, fuel = (k + length fl)%nat /\ malloc_loop fuel h n (freep h) nx =
      ('(p, h) ← morecore (S k) h n; if p =? 0 then Some (0, h) else nx ← get_ptr h p; malloc_loop k h n p nx))).
Proof.
  intros H Hn Hf. destruct (ring_at h fl al (freep h) H (wf_freep _ _ _ H)) as (pre&sf&post&E&Hpre&Hb). pose proof (wf_ring _ _ _ H) as Hr. rewrite E in Hr.
  pose proof (seg_rotate h pre (freep h, sf) post Hpre Hb Hr) as Hrot. destruct Hrot as (Rp&Rs&Rseg). cbn [fst snd] in *.
  assert (Hl : seg h ((post ++ pre) ++ [(freep h, sf)]) (hd_addr (post ++ pre) (freep h))).
  { apply seg_app. split; [done|]. cbn. split; [done|]. by split. }
  assert (Hne : Forall (fun x => x.1 <> freep h) (post ++ pre)).
  { pose proof (wf_sorted _ _ _ H) as Hs. rewrite E in Hs. apply sorted_app_inv in Hs as (_&_&S1&S2&_). apply Forall_app. cbn in *.
    split; (eapply Forall_impl; [eassumption|]; cbn; intros x Hx; lia). }
  assert (Hh : hd_addr ((post ++ pre) ++ [(freep h, sf)]) (hd_addr (post ++ pre) (freep h)) = hd_addr (post ++ pre) (freep h)) by (rewrite hd_addr_app; by destruct (post ++ pre)).
  assert (Hlen : length ((post ++ pre) ++ [(freep h, sf)]) = length fl) by (rewrite E, !length_app; cbn; lia).
  exists (hd_addr (post ++ pre) (freep h)). split; [done|].
  destruct (malloc_scan h n sf _ (post ++ pre) (freep h) fuel Hl Hne ltac:(lia)) as [(q&x&Hx&Hle&Hq&Hqx&Em)|(Hall&k&Ek&Em)]; [by rewrite Hh|left|right]; rewrite Hh in Em.
  - assert (Hqf : q ∈ fl.*1).
    { rewrite E, fmap_app. cbn. rewrite !fmap_app in Hq. cbn in Hq. set_solver. }
    destruct (ring_at h fl al q H Hqf) as (q1&sq&q2&E2&_). pose proof (wf_ring _ _ _ H) as R. rewrite E2 in R. apply seg_app in R as [_ (R1&_&R2)]. cbn [fst] in R1.
    assert (Hxf : x ∈ tail fl).
    { destruct (base_elem h fl al x H) as [->|?]; [rewrite E; set_solver|cbn in Hle; lia|done]. }
    assert (Hin : block_in (brk h) x) by (apply (wf_bounds h fl al x H); set_solver). assert (Eh : hd_addr q2 base = x.1) by congruence.
    destruct q2 as [|[a s] q2]; [cbn in Eh; units; lia|]. cbn in Eh. subst a. destruct R2 as (_&R2&_). cbn [fst snd] in R2.
    assert (Hs : get_size h x.1 = Some x.2) by (apply (seg_elem h fl base x (wf_ring _ _ _ H)); destruct fl; [done|by right]).
    assert (s = x.2) as -> by congruence. rewrite E2 in H. rewrite Em. by apply (take_block_ok h q1 q sq x.1 x.2 q2 al n).
  - split; [|exists k; split; [lia|exact Em]]. rewrite E. rewrite !Forall_app, Forall_singleton in Hall. rewrite Forall_app, Forall_cons. tauto.
Qed.


(** ** The interface *)

(** The states of the allocator: not yet used, or a ring of free blocks and the live blocks [al]. *)
Definition heap_ok (h : heap) (al : list block) : Prop :=
  (freep h = 0 /\ brk h = start /\ al = []) \/ exists fl, wf h fl al.

Lemma units_ok nbytes : 0 <= nbytes <= 2 ^ 31 - 16 -> 1 <= units nbytes /\ nbytes <= HDR * (units nbytes - 1) /\ HDR * units nbytes < 2 ^ 31.
Proof.
  intros H. unfold units. assert (E : u32 (nbytes + HDR - 1) = nbytes + 7) by (rewrite u32_small; unfold HDR; lia). rewrite E. change HDR with 8.
  pose proof (Z.div_mod (nbytes + 7) 8 ltac:(lia)). pose proof (Z.mod_pos_bound (nbytes + 7) 8 ltac:(lia)). rewrite u32_small; lia.
Qed.

Lemma freep_nonzero h fl al : wf h fl al -> freep h <> 0.
Proof.
  intros H. destruct (ring_at h fl al (freep h) H (wf_freep _ _ _ H)) as (pre&sf&post&Ef&_).
  destruct (base_elem h fl al (freep h, sf) H) as [Eb|Ht]; [rewrite Ef; set_solver|injection Eb as -> _; lia|].
  pose proof (wf_bounds h fl al _ H (proj2 (elem_of_app _ _ _) (or_introl Ht))) as Hin. units. lia.
Qed.

Lemma malloc_wf h fl al n fuel : wf h fl al -> 1 <= n -> HDR * n < 2 ^ 31 -> (2 * length fl + 1 <= fuel)%nat ->
  exists nx r h', get_ptr h (freep h) = Some nx /\ malloc_loop fuel h n (freep h) nx = Some (r, h') /\
  ((r = 0 /\ h' = h /\ grant (brk h) (HDR * Z.max n 4096) = false) \/ exists a fl', r = a + HDR /\ wf h' fl' ((a, n) :: al)).
Proof.
  intros H Hn Hlim Hf. destruct (malloc_round h fl al n fuel H Hn ltac:(lia)) as (nx&Hnx&[(h'&fl'&a&E&Hwf)|(Hsmall&k&Ek&E)]); [by exists nx, (a + HDR), h'; eauto 10|].
  destruct (morecore_ok h fl al n (S k) H Hn Hlim ltac:(lia)) as [[Em Hg]|(h1&fl1&Em&H1&(b&Hb1&Hb2)&Hl1)]; rewrite Em in E; cbn [mbind option_bind] in E.
  - exists nx, 0, h. split; [done|]. split; [done|]. by left.
  - rewrite (proj2 (Z.eqb_neq _ _) (freep_nonzero _ _ _ H1)) in E.
    destruct (malloc_round h1 fl1 al n k H1 Hn ltac:(lia)) as (nx1&Hnx1&[(h'&fl'&a&E1&Hwf)|(Hsmall1&_)]).
    + rewrite Hnx1 in E. cbn [mbind option_bind] in E. exists nx, (a + HDR), h'. split; [done|]. split; [congruence|]. right. eauto.
    + rewrite Forall_forall in Hsmall1. specialize (Hsmall1 b Hb1). lia.
Qed.

(** The first call makes the ring of [base] alone. *)
Lemma init_wf h : freep h = 0 -> brk h = start -> start < 2 ^ 31 ->
  exists h', (h1 ← set_ptr h base base; set_size (h1 <| freep := base |>) base 0) = Some h' /\ wf h' [(base, 0)] [] /\ brk h' = brk h.
Proof.
  intros Hf Hb Hs. unfold set_ptr, set_size, writable. rewrite !Z.eqb_refl. cbn [orb mbind option_bind]. eexists. split; [done|]. split; [|done]. split; cbn.
  - by exists [].
  - split; [apply lookup_insert_eq|]. split; [apply lookup_insert_eq|done].
  - repeat constructor.
  - done.
  - split; [constructor|done|]. cbn. lia.
  - constructor.
  - by left.
  - rewrite Hb, Z.sub_diag. split; [lia|done].
Qed.

Lemma malloc_ok h al nbytes fuel : heap_ok h al -> start < 2 ^ 31 -> 0 <= nbytes <= 2 ^ 31 - 16 -> (2 * room h + 1 <= fuel)%nat ->
  exists r h', malloc fuel h nbytes = Some (r, h') /\
  ((r = 0 /\ heap_ok h' al /\ grant (brk h) (HDR * Z.max (units nbytes) 4096) = false) \/ exists a, r = a + HDR /\ heap_ok h' ((a, units nbytes) :: al)).
Proof.
  intros Hok Hs Hn Hf. destruct (units_ok nbytes Hn) as (Hu1&_&Hu3). unfold malloc. destruct Hok as [(H0&Hb&->)|[fl H]].
  - destruct (init_wf h H0 Hb Hs) as (h1&E1&H1&Eb). rewrite H0. cbn [Z.eqb]. rewrite E1. cbn [mbind option_bind].
    destruct (malloc_wf h1 _ [] (units nbytes) fuel H1 Hu1 Hu3) as (nx&r&h'&Hnx&E&Hr); [cbn; unfold room in Hf; lia|]. rewrite Hnx. cbn [mbind option_bind]. exists r, h'. split; [done|].
    destruct Hr as [(->&->&Hg)|(a&fl'&->&Hwf)]; [left|right; exists a; split; [done|by right; exists fl']]. split; [done|]. split; [right; by exists [(base, 0)]|congruence].
  - rewrite (proj2 (Z.eqb_neq _ _) (freep_nonzero _ _ _ H)). cbn [mbind option_bind]. pose proof (wf_length h fl al H).
    destruct (malloc_wf h fl al (units nbytes) fuel H Hu1 Hu3 ltac:(lia)) as (nx&r&h'&Hnx&E&Hr). rewrite Hnx. cbn [mbind option_bind]. exists r, h'. split; [done|].
    destruct Hr as [(->&->&Hg)|(a&fl'&->&Hwf)]; [left|right; exists a; split; [done|by right; exists fl']]. split; [done|]. split; [right; by exists fl|done].
Qed.


(** The program writes what it likes inside its live blocks. *)
Definition user_write (al : list block) (h h' : heap) : Prop :=
  (forall x, (forall b, b ∈ al -> ~ b.1 < x < b.1 + HDR * b.2) -> get_ptr h' x = get_ptr h x /\ get_size h' x = get_size h x) /\
  freep h' = freep h /\ brk h' = brk h.

Lemma user_write_ok al h h' : heap_ok h al -> user_write al h h' -> heap_ok h' al.
Proof.
  intros [(H0&Hb&->)|[fl H]] (Hw&Ef&Eb); [left; by rewrite Ef, Eb|right; exists fl]. pose proof H as [H1 H2 H3 H4 H5 H6 H7 H8].
  assert (Hsame : forall x, x ∈ fl ++ al -> get_ptr h' x.1 = get_ptr h x.1 /\ get_size h' x.1 = get_size h x.1).
  { intros x Hx. apply Hw. intros b Hb Hlt. pose proof (wf_bounds h fl al b H ltac:(set_solver)) as Hinb.
    assert (Hx' : x = (base, 0) \/ x ∈ tail fl ++ al) by (apply elem_of_app in Hx as [Hx|Hx]; [destruct (base_elem h fl al x H Hx)|]; set_solver).
    destruct Hx' as [->|Hx']; [units; lia|]. pose proof (wf_bounds h fl al x H Hx') as Hinx. destruct (decide (x = b)) as [->|Hne]; [lia|].
    pose proof (pairwise_elem _ x b (t_disjoint _ _ H5) Hx' ltac:(set_solver) Hne). units. lia. }
  split; [done| |done|done|by rewrite Eb| |by rewrite Ef|by rewrite Eb].
  - eapply seg_ext; [|exact H2]. intros x Hx. apply Hsame. set_solver.
  - rewrite Forall_forall in H6 |- *. intros x Hx. rewrite <- (H6 x Hx). apply Hsame. set_solver.
Qed.

(** The calls, with enough fuel. *)
Definition malloc_call (h : heap) (nbytes : Z) : option (Z * heap) := malloc (2 * room h + 1) h nbytes.
Definition free_call (h : heap) (ap : Z) : option heap := free (room h) h ap.

(** A program and its live blocks. *)
Inductive reachable : heap -> list block -> Prop :=
| r_start h : freep h = 0 -> brk h = start -> reachable h []
| r_malloc h al nbytes r h' : reachable h al -> 0 <= nbytes <= 2 ^ 31 - 16 -> malloc_call h nbytes = Some (r, h') ->
    reachable h' (if r =? 0 then al else (r - HDR, units nbytes) :: al)
| r_free h al a s al' h' : reachable h al -> al ≡ₚ (a, s) :: al' -> free_call h (a + HDR) = Some h' -> reachable h' al'
| r_write h al h' : reachable h al -> user_write al h h' -> reachable h' al.

Lemma heap_free h al a s al' : heap_ok h al -> al ≡ₚ (a, s) :: al' -> exists h', free_call h (a + HDR) = Some h' /\ heap_ok h' al'.
Proof.
  intros [(_&_&->)|[fl H]] Hp; [by apply Permutation_nil_l in Hp|]. destruct (free_ok h fl al' a s (room h)) as (h'&fl'&E&Hwf&_); [by apply (wf_perm h fl al)|by eapply wf_length|].
  exists h'. split; [exact E|]. right. by exists fl'.
Qed.

Lemma reachable_ok h al : start < 2 ^ 31 -> reachable h al -> heap_ok h al.
Proof.
  intros Hs. induction 1 as [h Hf Hb|h al nbytes r h' _ IH Hn E|h al a s al' h' _ IH Hp E|h al h' _ IH Hw].
  - by left.
  - destruct (malloc_ok h al nbytes _ IH Hs Hn (Nat.le_refl _)) as (r'&h1&E1&Hr). unfold malloc_call in E. rewrite E1 in E. injection E as -> ->.
    destruct Hr as [(->&Hok&_)|(a&->&Hok)]; [done|].
    assert (Ha : start <= a).
    { destruct Hok as [(_&_&[=])|[fl H]]. pose proof (wf_bounds _ _ _ (a, units nbytes) H ltac:(set_solver)) as Hin. units. lia. }
    rewrite (proj2 (Z.eqb_neq _ _)) by (unfold HDR in *; lia). by rewrite Z.add_simpl_r.
  - destruct (heap_free h al a s al' IH Hp) as (h1&E1&Hok). congruence.
  - by eapply user_write_ok.
Qed.

(** When everything is free, the memory is one block. *)
Lemma all_free h fl : wf h fl [] -> start < brk h -> exists s, fl = [(base, 0); (start, s)] /\ start + HDR * s = brk h.
Proof.
  intros H Hlt. destruct (wf_base _ _ _ H) as [bl E]. pose proof (wf_tiles _ _ _ H) as Ht. pose proof (wf_sorted _ _ _ H) as Hs. pose proof (wf_gaps _ _ _ H) as G. rewrite E in Ht, Hs, G.
  cbn [tail] in Ht. rewrite app_nil_r in Ht. apply StronglySorted_inv in Hs as [Hs _]. destruct Ht as [Hin Hd Hc]. rewrite E.
  destruct bl as [|[a s] bl]; [destruct (Hc start) as (b&Hb&_); [lia|by apply elem_of_nil in Hb]|]. apply StronglySorted_inv in Hs as [Hs Ha]. rewrite Forall_forall in Ha.
  apply Forall_cons in Hin as [Hina Hin]. rewrite Forall_forall in Hin. destruct Hd as [Hd _]. rewrite Forall_forall in Hd.
  assert (a = start) as ->.
  { destruct (Hc start) as (b&Hb&Hi); [lia|]. apply elem_of_cons in Hb as [->|Hb]; [units; lia|]. specialize (Ha b Hb). unfold below in Ha. specialize (Hin b Hb). units. lia. }
  destruct bl as [|y bl].
  - exists s. split; [done|]. destruct (decide (start + HDR * s < brk h)) as [Hl|Hl]; [|units; lia].
    destruct (Hc (start + HDR * s)) as (b&Hb&Hi); [units; lia|]. apply list_elem_of_singleton in Hb as ->. units. lia.
  - exfalso. destruct G as (_&G&_). cbn [fst snd] in G. assert (Hy : start + HDR * s < y.1).
    { specialize (Hd y ltac:(set_solver)). specialize (Ha y ltac:(set_solver)). specialize (Hin y ltac:(set_solver)). unfold below in Ha. units. lia. }
    destruct (Hc (start + HDR * s)) as (b&Hb&Hi); [specialize (Hin y ltac:(set_solver)); units; lia|]. apply elem_of_cons in Hb as [->|Hb]; [units; lia|].
    apply StronglySorted_inv in Hs as [_ Hs]. rewrite Forall_forall in Hs. apply elem_of_cons in Hb as [->|Hb]; [units; lia|]. specialize (Hs b Hb). unfold below in Hs. units. lia.
Qed.

(** C8: The allocator keeps its promise, whatever calls a program makes with
    sizes of at most 2^31 - 16 bytes (a size near 2^32 wraps around, see
    [malloc_wraps]) and whatever it writes into its blocks, the heap starting
    and, by what [sbrk] grants, ending below 2^31 (user memory).  In every state reached: the live blocks
    are disjoint, aligned and inside the memory obtained; [malloc] returns, with 0
    only if [sbrk] refuses, and otherwise with a block that holds the bytes asked
    for and is disjoint from all live blocks; [free] of a live block returns and
    leaves the other blocks as they are; and when nothing is live all the memory
    obtained is one free block again, so nothing is lost and neighbours have been
    merged. *)
Theorem umalloc_refines h al : start < 2 ^ 31 -> reachable h al ->
  (Forall (block_in (brk h)) al /\ pairwise al) /\
  (forall nbytes, 0 <= nbytes <= 2 ^ 31 - 16 -> exists r h', malloc_call h nbytes = Some (r, h') /\
    (if r =? 0 then grant (brk h) (HDR * Z.max (units nbytes) 4096) = false
     else nbytes <= HDR * (units nbytes - 1) /\ block_in (brk h') (r - HDR, units nbytes) /\ Forall (disjoint_blocks (r - HDR, units nbytes)) al)) /\
  (forall a s al', al ≡ₚ (a, s) :: al' -> exists h', free_call h (a + HDR) = Some h' /\ reachable h' al') /\
  (al = [] -> start < brk h -> exists s, seg h [(base, 0); (start, s)] base /\ start + HDR * s = brk h).
Proof.
  intros Hs Hr. pose proof (reachable_ok h al Hs Hr) as Hok.
  assert (Hblocks : forall h al, heap_ok h al -> Forall (block_in (brk h)) al /\ pairwise al).
  { intros h0 al0 [(_&_&->)|[fl H]]; [by split; [constructor|]|]. destruct (wf_tiles _ _ _ H) as [Hin Hp _]. split; [by apply Forall_app in Hin as [_ ?]|].
    apply (pairwise_app al0 (tail fl)). eapply pairwise_perm; [|exact Hp]. apply Permutation_app_comm. }
  split; [by apply Hblocks|]. split; [|split].
  - intros nbytes Hn. destruct (malloc_ok h al nbytes _ Hok Hs Hn (Nat.le_refl _)) as (r&h'&E&Hr'). exists r, h'. split; [exact E|].
    destruct Hr' as [(->&_&Hg)|(a&->&Hok')]; [done|]. destruct (Hblocks _ _ Hok') as [Hin [Hd _]]. apply Forall_cons in Hin as [Hin _].
    rewrite (proj2 (Z.eqb_neq _ _)) by (units; lia). rewrite Z.add_simpl_r. split; [by apply units_ok|done].
  - intros a s al' Hp. destruct (heap_free h al a s al' Hok Hp) as (h'&E&_). exists h'. split; [done|]. by eapply r_free.
  - intros -> Hlt. destruct Hok as [(_&Hb&_)|[fl H]]; [lia|]. destruct (all_free h fl H Hlt) as (s&->&Es). exists s. split; [apply (wf_ring _ _ _ H)|done].
Qed.

End Code.

(** ** Demo: memory below 1 MB *)
Definition demo_grant (b n : Z) : bool := b + n <? 2 ^ 20.
Definition demo0 : heap := Build_heap ∅ ∅ 0 8192.
Definition demo1 : heap := match malloc_call 4096 8192 demo_grant demo0 10 with Some (_, h) => h | None => demo0 end.

(** Three units at the end of the 4096 units obtained. *)
Example demo_malloc : malloc_call 4096 8192 demo_grant demo0 10 = Some (8192 + 8 * 4093 + 8, demo1).
Proof. vm_compute. reflexivity. Qed.

(** A size near 2^32 wraps around: [malloc] returns a block of no bytes. *)
Example malloc_wraps : units (2 ^ 32 - 1) = 1 /\ exists h, malloc_call 4096 8192 demo_grant demo0 (2 ^ 32 - 1) = Some (8192 + 8 * 4096, h) /\ brk h = 8192 + 8 * 4096.
Proof. split; [reflexivity|]. eexists. split; vm_compute; reflexivity. Qed.

Lemma demo_reachable : reachable 4096 8192 demo_grant demo1 [(8192 + 8 * 4093, 3)].
Proof.
  apply (r_malloc 4096 8192 demo_grant demo0 [] 10 (8192 + 8 * 4093 + 8) demo1); [apply r_start; reflexivity|lia|exact demo_malloc].
Qed.

Lemma umalloc_refines_witness : exists r h', malloc_call 4096 8192 demo_grant demo1 100 = Some (r, h') /\
  (if r =? 0 then demo_grant (brk demo1) (HDR * Z.max (units 100) 4096) = false
   else 100 <= HDR * (units 100 - 1) /\ block_in 8192 (brk h') (r - HDR, units 100) /\ Forall (disjoint_blocks (r - HDR, units 100)) [(8192 + 8 * 4093, 3)]).
Proof.
  apply (umalloc_refines 4096 8192 demo_grant); [unfold HDR; lia| |reflexivity|exact demo_reachable|lia].
  intros b n H. unfold demo_grant in H. lia.
Defined.

End Umalloc.
