(* ===== verification/Mkfs.v ===== *)
(** * Mkfs: building a file system image (mkfs.c)

    mkfs writes the image the kernel boots from: superblock, empty log, inodes,
    bitmap, and the contents of a root directory and of the files named on its
    command line.  The image is the list of its blocks; the run is a state monad
    over the image and the two counters of the program, with [exit(1)] and a
    failed [assert] as errors.  What the image is worth to the kernel is shown in
    MkfsImage. *)
From S2P Require Import Prelude KState Kalloc Proc Sleeplock Bio Log Fs Trans Balloc Inode Itrunc Icache Dir Namei.

Module Mkfs.
Import Sleeplock Bio Log Fs Trans Balloc Inode Itrunc Icache Dir Namei.

(** ** The program *)
Definition FSSIZE : Z := 1000.
Definition NINODES : Z := 200.
Definition nbitmap : Z := FSSIZE / (BSIZE * 8) + 1.
Definition ninodeblocks : Z := NINODES / IPB + 1.
Definition nlog : Z := LOGSIZE.
Definition nmeta : Z := 2 + nlog + ninodeblocks + nbitmap.
Definition nblocks : Z := FSSIZE - nmeta.
Definition zeroes : list Z := replicate 512 0.

(** Convert to intel byte order, on a host with that order. *)
Definition xshort (x : Z) : Z := get16 [u8 x; u8 (Z.shiftr x 8)] 0.
Definition xint (x : Z) : Z := get32 [u8 x; u8 (Z.shiftr x 8); u8 (Z.shiftr x 16); u8 (Z.shiftr x 24)] 0.

Definition sb : superblock :=
  mkSuperblock (xint FSSIZE) (xint nblocks) (xint NINODES) (xint nlog) (xint 2) (xint (2 + nlog)) (xint (2 + nlog + ninodeblocks)).
Definition sb_bytes (s : superblock) : list Z :=
  concat (le32 <$> [sb_size s; sb_nblocks s; sb_ninodes s; sb_nlog s; sb_logstart s; sb_inodestart s; sb_bmapstart s]).

(** The image, block by block, and the counters. *)
Record mkfs := mkMkfs { img : list (list Z); freeinode : Z; freeblock : Z }.
#[export] Instance eta_mkfs : Eta mkfs := fun s => mkMkfs (img s) (freeinode s) (freeblock s).
Inductive result (A : Type) : Type := Done (a : A) | Exit1 (msg : string) | Assert (cond : string).
Arguments Done {_} _.
Arguments Exit1 {_} _.
Arguments Assert {_} _.
Definition MK (A : Type) : Type := mkfs -> result (A * mkfs).
#[export] Instance MK_ret : MRet MK := fun _ a s => Done (a, s).
#[export] Instance MK_bind : MBind MK := fun _ _ f m s => match m s with Done (a, s) => f a s | Exit1 e => Exit1 e | Assert e => Assert e end.
Definition assert (b : bool) (cond : string) : MK unit := fun s => if b then Done (tt, s) else Assert cond.
Definition exit1 {A} (msg : string) : MK A := fun _ => Exit1 msg.

(** Writing past the end of the image extends it; reading there fails. *)
Definition wsect (sec : Z) (buf : list Z) : MK unit := fun s =>
  let n := Z.to_nat sec in
  let l := img s ++ replicate (S n - length (img s)) zeroes in
  Done (tt, s <| img := <[n := buf]> l |>).
Definition rsect (sec : Z) : MK (list Z) := fun s =>
  match img s !! Z.to_nat sec with Some buf => Done (buf, s) | None => Exit1 "read" end.

(** [struct dinode], as in Fs, is the part of [inode] that [dinode_bytes] writes. *)
Definition winode (inum : Z) (ip : inode) : MK unit :=
  let bn := IBLOCK inum sb in
  buf ← rsect bn;
  wsect bn (blit buf (dinode_off inum) (dinode_bytes ip)).
Definition rinode (inum : Z) : MK inode :=
  buf ← rsect (IBLOCK inum sb);
  mret (load_dinode buf (dinode_off inum) (zero_inode <| i_dev := 1 |> <| i_inum := inum |>)).

(** [freeblock++] *)
Definition next_block : MK Z := fun s => Done (freeblock s, s <| freeblock := u32 (freeblock s + 1) |>).

Definition get_freeblock : MK Z := fun s => Done (freeblock s, s).

Definition ialloc (type : Z) : MK Z := fun s =>
  let inum := freeinode s in
  (winode inum (zero_inode <| i_dev := 1 |> <| i_inum := inum |> <| i_type := xshort type |> <| i_nlink := xshort 1 |> <| i_size := xint 0 |>) ;; mret inum)
    (s <| freeinode := u32 (freeinode s + 1) |>).

(** [buf[i/8] = buf[i/8] | (0x1 << (i%8))] for the blocks from [i] on. *)
Fixpoint mark_used (n : nat) (i : Z) (buf : list Z) : list Z :=
  match n with O => buf | S n => mark_used n (i + 1) (set_bit i buf) end.
Definition balloc (used : Z) : MK unit :=
  assert (used <? BSIZE * 8) "used < BSIZE*8" ;;
  wsect (sb_bmapstart sb) (mark_used (Z.to_nat used) 0 zeroes).

Definition with_addr (k : nat) (b : Z) (din : inode) : inode := din <| i_addrs := <[k := b]> (i_addrs din) |>.

(** The block [x] of the file for its block [fbn], allocated if necessary. *)
Definition file_block (din : inode) (fbn : Z) : MK (Z * inode) :=
  if fbn <? NDIRECT then
    let k := Z.to_nat fbn in
    din ← (if xint (naddr din k) =? 0 then b ← next_block; mret (with_addr k (xint b) din) else mret din);
    mret (xint (naddr din k), din)
  else
    din ← (if xint (naddr din 12) =? 0 then b ← next_block; mret (with_addr 12 (xint b) din) else mret din);
    let o := (4 * Z.to_nat (fbn - NDIRECT))%nat in
    indirect ← rsect (xint (naddr din 12));
    indirect ← (if get32 indirect o =? 0 then
                  b ← next_block;
                  let indirect := blit indirect o (le32 (xint b)) in
                  wsect (xint (naddr din 12)) indirect ;; mret indirect
                else mret indirect);
    mret (xint (get32 indirect o), din).

(** The loop of [iappend]; each turn takes at least one byte of [p]. *)
Fixpoint iappend_loop (fuel : nat) (din : inode) (off : Z) (p : list Z) : MK (inode * Z) :=
  match fuel with
  | O => mret (din, off)
  | S fuel =>
    if (0 <? Z.of_nat (length p)) then
      let fbn := off / BSIZE in
      assert (fbn <? MAXFILE) "fbn < MAXFILE" ;;
      '(x, din) ← file_block din fbn;
      let n1 := Z.min (Z.of_nat (length p)) ((fbn + 1) * BSIZE - off) in
      buf ← rsect x;
      wsect x (blit buf (Z.to_nat (off - fbn * BSIZE)) (take (Z.to_nat n1) p)) ;;
      iappend_loop fuel din (u32 (off + n1)) (drop (Z.to_nat n1) p)
    else mret (din, off)
  end.
Definition iappend (inum : Z) (p : list Z) : MK unit :=
  din ← rinode inum;
  '(din, off) ← iappend_loop (length p) din (xint (i_size din)) p;
  winode inum (din <| i_size := xint off |>).

(** [struct dirent] *)
Definition dirent (inum : Z) (name : list Z) : list Z := le16 (xshort inum) ++ name.
(** The array of a short name. *)
Definition cname14 (l : list Z) : list Z := l ++ replicate (DIRSIZ - length l) 0.

Fixpoint zero_loop (n : nat) (i : Z) : MK unit :=
  match n with O => mret tt | S n => wsect i zeroes ;; zero_loop n (i + 1) end.
(** [while((cc = read(fd, buf, sizeof(buf))) > 0)], [c] what is left of the file. *)
Fixpoint copy_loop (fuel : nat) (inum : Z) (c : list Z) : MK unit :=
  match fuel with
  | O => mret tt
  | S fuel => match c with [] => mret tt | _ => iappend inum (take 512 c) ;; copy_loop fuel inum (drop 512 c) end
  end.

Section Main.
(** The files of the host: [None] cannot be opened.  [creat]: the image can. *)
Context (host : list Z -> option (list Z)) (creat : bool).

Definition strip (name : list Z) : list Z := match name with 95 :: r => r | _ => name end.
Definition add_file (name : list Z) : MK unit :=
  assert (bool_decide (SLASH ∉ name)) "index(argv[i], '/') == 0" ;;
  match host name with
  | None => exit1 "perror(argv[i])"
  | Some c =>
    let name := strip name in
    inum ← ialloc T_FILE;
    match strncpy DIRSIZ (name ++ [0]) with
    | None => exit1 "strncpy"
    | Some name => iappend ROOTINO (dirent inum name) ;; copy_loop (length c) inum c
    end
  end.
Fixpoint add_files (names : list (list Z)) : MK unit :=
  match names with [] => mret tt | name :: names => add_file name ;; add_files names end.

(** Fix size of root inode dir. *)
Definition fix_root (rootino : Z) : MK unit :=
  din ← rinode rootino;
  let off := xint (i_size din) in
  let off := u32 ((off / BSIZE + 1) * BSIZE) in
  winode rootino (din <| i_size := xint off |>).

Definition build (names : list (list Z)) : MK unit :=
  zero_loop (Z.to_nat FSSIZE) 0 ;;
  wsect 1 (blit zeroes 0 (sb_bytes sb)) ;;
  rootino ← ialloc T_DIR;
  assert (rootino =? ROOTINO) "rootino == ROOTINO" ;;
  iappend rootino (dirent rootino (cname14 [46])) ;;
  iappend rootino (dirent rootino (cname14 [46; 46])) ;;
  add_files names ;;
  fix_root rootino ;;
  used ← get_freeblock;
  balloc used.
Definition main (argv : list (list Z)) : result mkfs :=
  match argv with
  | _ :: _ :: names =>
    if negb creat then Exit1 "perror(argv[1])" else
    match build names (mkMkfs [] 1 nmeta) with
    | Done (_, s) => Done s
    | Exit1 e => Exit1 e
    | Assert e => Assert e
    end
  | _ => Exit1 "Usage: mkfs fs.img files..."
  end.
End Main.

End Mkfs.
