(* ===== verification/MkfsImage.v ===== *)
(** * MkfsImage: the image mkfs builds is a file system

    Ties mkfs.c to fs.c: the image satisfies the invariants the theorems on the
    file system start from (Balloc, Inode, Namei), in it every name resolves to
    its file, and the kernel reads there what the files contained.  The proof
    follows the run with an invariant on all files at once ([core]): their blocks
    are distinct, in use and hold the contents written so far, and the blocks not
    yet given out are zero. *)
From S2P Require Import Prelude KState Kalloc Proc Sleeplock Bio Log Fs Trans Balloc Inode Itrunc Icache Dir Namei Mkfs.

Module MkfsImage.
Import Sleeplock Bio Log Fs Trans Balloc Inode Itrunc Icache Dir Namei Mkfs.

(** ** The image during the run *)
Abbreviation V m := (mkView [] m [] [] []).

Lemma xint_eq x : xint x = u32 x.
Proof. unfold xint, get32, get16, get8. cbn [nth]. rewrite !Z.shiftr_div_pow2 by lia. zlia. Qed.
Lemma xshort_eq x : xshort x = u16 x.
Proof. unfold xshort, get16, get8. cbn [nth]. rewrite !Z.shiftr_div_pow2 by lia. zlia. Qed.
Lemma nmeta_eq : nmeta = 59.
Proof. reflexivity. Qed.

Lemma get32_zeroes o : get32 zeroes o = 0.
Proof.
  assert (E : forall k, get8 zeroes k = 0) by (intros k; unfold get8, zeroes; rewrite nth_lookup; destruct (replicate 512 0 !! k) eqn:E; [by apply lookup_replicate_1 in E as [-> _]|done]).
  unfold get32, get16. by rewrite !E.
Qed.

Lemma blk_write m b x b' : 0 <= b < Z.of_nat (length m) -> 0 <= b' -> blk (V (<[Z.to_nat b := x]> m)) b' = if decide (b = b') then x else blk (V m) b'.
Proof.
  intros Hb Hb'. unfold blk. cbn [v_disk]. case_decide as E; [subst; by rewrite list_lookup_insert_eq by lia|]. rewrite list_lookup_insert_ne by lia. done.
Qed.

(** The files while they are written: inode [d] of each, its contents [c] so far,
    and the places [P] of its blocks.  Blocks from [fb] on are free and zero. *)
Record core (m : list (list Z)) (fb : Z) (D : list inode) (F : list (list Z)) (N : list (Z -> Prop)) : Prop := {
  co_len : length m = Z.to_nat FSSIZE;
  co_blocks : Forall (fun d => length d = 512%nat) m;
  co_fb : nmeta <= fb <= FSSIZE;
  co_files : length F = length D /\ length N = length D;
  co_addrs : forall j d, D !! j = Some d -> length (i_addrs d) = 13%nat;
  co_used : forall j d P n, D !! j = Some d -> N !! j = Some P -> 0 <= n <= MAXFILE -> slot (V m) d n <> 0 <-> P n;
  co_range : forall j d n, D !! j = Some d -> 0 <= n <= MAXFILE -> slot (V m) d n <> 0 -> nmeta <= slot (V m) d n < fb;
  co_inj : forall j d n j' d' n', D !! j = Some d -> D !! j' = Some d' -> 0 <= n <= MAXFILE -> 0 <= n' <= MAXFILE ->
    slot (V m) d n <> 0 -> slot (V m) d n = slot (V m) d' n' -> j = j' /\ n = n';
  co_bytes : forall j d c off, D !! j = Some d -> F !! j = Some c -> 0 <= off < MAXFILE * BSIZE -> slot (V m) d (off / BSIZE) <> 0 ->
    fbyte (V m) d off = Some (default 0 (c !! Z.to_nat off));
  co_zero : forall b, fb <= b < FSSIZE -> m !! Z.to_nat b = Some zeroes;
}.
#[local] Arguments co_len {m fb D F N}.
#[local] Arguments co_blocks {m fb D F N}.
#[local] Arguments co_fb {m fb D F N}.
#[local] Arguments co_files {m fb D F N}.
#[local] Arguments co_addrs {m fb D F N}.
#[local] Arguments co_used {m fb D F N}.
#[local] Arguments co_range {m fb D F N}.
#[local] Arguments co_inj {m fb D F N}.
#[local] Arguments co_bytes {m fb D F N}.
#[local] Arguments co_zero {m fb D F N}.

Ltac sizes := unfold MAXFILE, NDIRECT, NINDIRECT, BSIZE, FSSIZE, NINODES in *; rewrite ?nmeta_eq in *.

Lemma blk_zero m fb D F N : core m fb D F N -> fb < FSSIZE -> blk (V m) fb = zeroes.
Proof. intros H Hf. unfold blk. cbn [v_disk]. by rewrite (co_zero H fb) by lia. Qed.

Lemma zeroes_lookup off : 0 <= off -> zeroes !! Z.to_nat (off `mod` BSIZE) = Some 0.
Proof. intros Ho. unfold zeroes. apply lookup_replicate. split; [done|]. sizes. zlia. Qed.

Lemma naddr_with d k b n : length (i_addrs d) = 13%nat -> (k < 13)%nat -> naddr (with_addr k b d) n = if decide (n = k) then b else naddr d n.
Proof.
  intros Hl Hk. unfold naddr, with_addr. cbn [i_addrs setf]. case_decide as E; [subst; by rewrite list_lookup_insert_eq by lia|by rewrite list_lookup_insert_ne by done].
Qed.

(** The places after an allocation in the inode itself. *)
Lemma slot_with m d k b n : length (i_addrs d) = 13%nat -> (k <= 12)%nat -> naddr d k = 0 -> b <> 0 -> blk (V m) b = zeroes -> 0 <= n <= MAXFILE ->
  slot (V m) (with_addr k b d) n = if decide (n = place k) then b else slot (V m) d n.
Proof.
  intros Hl Hk H0 Hb Hz Hn. unfold slot, place. rewrite !naddr_with by lia. sizes.
  destruct (Z.ltb_spec n 12); [repeat case_decide; subst; (done || lia)|]. destruct (Z.eqb_spec n (12 + 128)); [repeat case_decide; subst; (done || lia)|].
  destruct (decide (12%nat = k)) as [<-|Hne]; [|repeat case_decide; (done || lia)].
  rewrite (proj2 (Z.eqb_neq b 0)), H0, Hz, get32_zeroes by done. by repeat case_decide.
Qed.

Ltac case_place := match goal with |- context [decide (?a /\ ?b)] => let H := fresh "Hw" in destruct (decide (a /\ b)) as [H|H] end.

(** Block [fb] becomes block [q] of file [j]. *)
Lemma core_alloc m m' fb D D' F N j d c P q : core m fb D F N -> D !! j = Some d -> F !! j = Some c -> N !! j = Some P ->
  0 <= q <= MAXFILE -> slot (V m) d q = 0 -> (q < MAXFILE -> Z.of_nat (length c) <= q * BSIZE) -> fb < FSSIZE ->
  length m' = length m -> Forall (fun d => length d = 512%nat) m' -> length D' = length D ->
  (forall j' e, D' !! j' = Some e -> exists d0, D !! j' = Some d0 /\ length (i_addrs e) = 13%nat /\
    forall n, 0 <= n <= MAXFILE -> slot (V m') e n = if decide (j' = j /\ n = q) then fb else slot (V m) d0 n) ->
  (forall j' d0 n, D !! j' = Some d0 -> 0 <= n < MAXFILE -> slot (V m) d0 n <> 0 -> blk (V m') (slot (V m) d0 n) = blk (V m) (slot (V m) d0 n)) ->
  (forall b, fb <= b < FSSIZE -> m' !! Z.to_nat b = m !! Z.to_nat b) ->
  core m' (fb + 1) D' F (<[j := fun n => P n \/ n = q]> N).
Proof.
  intros H Hd Hc HP Hq H0 Hlen Hfb Hm Hbl HD Hsl Hdata Hz. pose proof (co_fb H) as Hr. split; rewrite ?Hm, ?HD, ?length_insert; try apply H; try done.
  - sizes. lia.
  - intros j' e He. by destruct (Hsl j' e He) as (d0&_&Hl&_).
  - intros j' e Q n He HQ Hn. destruct (Hsl j' e He) as (d0&Hd0&_&E). rewrite (E n Hn). apply list_lookup_insert_Some in HQ as [(->&<-&_)|(Hne&HQ)].
    + rewrite <- (co_used H _ _ _ n Hd0 HP Hn). destruct (decide (n = q)); [rewrite decide_True by done|rewrite decide_False by tauto; tauto].
      split; [by right|sizes; lia].
    + rewrite decide_False by naive_solver. by apply (co_used H j' d0 Q).
  - intros j' e n He Hn. destruct (Hsl j' e He) as (d0&Hd0&_&E). rewrite (E n Hn). case_place; intros Hnz; [lia|]. pose proof (co_range H _ _ _ Hd0 Hn Hnz). lia.
  - intros j1 e1 n1 j2 e2 n2 He1 He2 Hn1 Hn2. destruct (Hsl j1 e1 He1) as (d1&Hd1&_&E1). destruct (Hsl j2 e2 He2) as (d2&Hd2&_&E2).
    rewrite (E1 n1 Hn1), (E2 n2 Hn2). repeat case_place; intros Hnz E; [naive_solver| | |by apply (co_inj H j1 d1 n1 j2 d2 n2)].
    + destruct (decide (slot (V m) d2 n2 = 0)); [congruence|]. pose proof (co_range H _ _ _ Hd2 Hn2 ltac:(done)). lia.
    + pose proof (co_range H _ _ _ Hd1 Hn1 Hnz). lia.
  - intros j' e c' off He Hc' Ho. destruct (Hsl j' e He) as (d0&Hd0&_&E). assert (Hn : 0 <= off / BSIZE < MAXFILE) by (sizes; zlia).
    unfold fbyte. rewrite (E (off / BSIZE)) by lia. case_place; intros Hnz.
    + destruct Hw as [-> Hoq]. simplify_eq. assert (Eb : blk (V m') fb = zeroes) by (unfold blk; cbn [v_disk]; rewrite Hz by lia; by rewrite (co_zero H fb) by lia).
      rewrite Eb, zeroes_lookup by lia. rewrite lookup_ge_None_2; [done|]. specialize (Hlen ltac:(lia)). sizes. zlia.
    + rewrite (Hdata j' d0) by (done || lia). by apply (co_bytes H j' d0 c').
  - intros b Hb. rewrite Hz by lia. apply (co_zero H). lia.
Qed.

Lemma core_addr m fb D F N j d c P k : core m fb D F N -> D !! j = Some d -> F !! j = Some c -> N !! j = Some P ->
  (k <= 12)%nat -> naddr d k = 0 -> ((k < 12)%nat -> Z.of_nat (length c) <= Z.of_nat k * BSIZE) -> fb < FSSIZE ->
  core m (fb + 1) (<[j := with_addr k fb d]> D) F (<[j := fun n => P n \/ n = place k]> N).
Proof.
  intros H Hd Hc HP Hk H0 Hlen Hfb. pose proof (co_fb H). pose proof (co_addrs H _ _ Hd) as Hl. assert (Hpl : 0 <= place k <= MAXFILE) by (unfold place; sizes; case_decide; lia).
  eapply core_alloc; try done.
  - by rewrite slot_place.
  - unfold place. case_decide; [lia|]. intros _. apply Hlen. lia.
  - apply H.
  - by rewrite length_insert.
  - intros j' e [(->&<-&Hlt)|(Hne&He)]%list_lookup_insert_Some.
    + exists d. split; [done|]. split; [unfold with_addr; cbn [i_addrs setf]; by rewrite length_insert|]. intros n Hn.
      rewrite slot_with by (done || (sizes; lia) || by eapply blk_zero). destruct (decide (n = place k)); [by rewrite decide_True|by rewrite decide_False by tauto].
    + exists e. split; [done|]. split; [by apply (co_addrs H j')|]. intros n Hn. by rewrite decide_False by naive_solver.
Qed.

Lemma blk_length m fb D F N b : core m fb D F N -> 0 <= b < FSSIZE -> length (blk (V m) b) = 512%nat.
Proof.
  intros H Hb. pose proof (co_len H) as Hl. destruct (lookup_lt_is_Some_2 m (Z.to_nat b)) as [x Hx]; [lia|]. unfold blk. cbn [v_disk]. rewrite Hx.
  exact (proj1 (Forall_lookup _ _) (co_blocks H) _ _ Hx).
Qed.

(** Blocks of the files are inside the image. *)
Lemma slot_inside m fb D F N j d n : core m fb D F N -> D !! j = Some d -> 0 <= n <= MAXFILE -> slot (V m) d n <> 0 ->
  0 <= slot (V m) d n < Z.of_nat (length m) /\ 0 <= slot (V m) d n < FSSIZE.
Proof. intros H Hd Hn Hnz. pose proof (co_range H _ _ _ Hd Hn Hnz). pose proof (co_fb H). pose proof (co_len H) as Hl. sizes. lia. Qed.

(** Changing a block keeps the places of a file whose indirect block it is not. *)
Lemma slot_write m fb D F N j d b x n : core m fb D F N -> D !! j = Some d -> 0 <= b < Z.of_nat (length m) -> (naddr d 12 <> 0 -> naddr d 12 <> b) ->
  slot (V (<[Z.to_nat b := x]> m)) d n = slot (V m) d n.
Proof.
  intros H Hd Hb Hx. apply slot_frame; [done|]. intros Hnz. pose proof (slot_inside m fb D F N j d MAXFILE H Hd ltac:(sizes; lia)) as Hr.
  rewrite slot_indirect in Hr. rewrite blk_write by (done || apply Hr; done). rewrite decide_False by (symmetry; by apply not_eq_sym, Hx || by apply Hx). done.
Qed.

Lemma core_entry m fb D F N j d c P n : core m fb D F N -> D !! j = Some d -> F !! j = Some c -> N !! j = Some P ->
  NDIRECT <= n < MAXFILE -> naddr d 12 <> 0 -> slot (V m) d n = 0 -> Z.of_nat (length c) <= n * BSIZE -> fb < FSSIZE ->
  let x := naddr d 12 in let m' := <[Z.to_nat x := blit (blk (V m) x) (4 * Z.to_nat (n - NDIRECT)) (le32 fb)]> m in
  core m' (fb + 1) D F (<[j := fun k => P k \/ k = n]> N) /\ slot (V m') d n = fb.
Proof.
  intros H Hd Hc HP Hn Hnz H0 Hlen Hfb x m'. pose proof (co_fb H) as Hr. assert (Hx : slot (V m) d MAXFILE = x) by apply slot_indirect.
  assert (HM : 0 <= MAXFILE <= MAXFILE) by (sizes; lia). assert (Hxr : nmeta <= x < fb) by (rewrite <- Hx; apply (co_range H j d); [done|done|by rewrite Hx]).
  pose proof (co_len H) as Hl. assert (Hxl : 0 <= x < Z.of_nat (length m)) by (sizes; lia).
  pose proof (blk_length _ _ _ _ _ x H ltac:(sizes; lia)) as Hbl.
  assert (Hsd : forall k, 0 <= k <= MAXFILE -> slot (V m') d k = if decide (j = j /\ k = n) then fb else slot (V m) d k).
  { intros k Hk. unfold slot at 1. fold x. destruct (Z.ltb_spec k NDIRECT); [rewrite decide_False by (sizes; lia); by rewrite slot_direct by lia|].
    destruct (Z.eqb_spec k MAXFILE) as [->|]; [rewrite decide_False by lia; by rewrite slot_indirect|].
    rewrite (proj2 (Z.eqb_neq x 0)) by done. unfold m'. rewrite blk_write by lia. rewrite decide_True by done. case_place.
    - destruct Hw as [_ ->]. rewrite get32_blit_eq by (rewrite Hbl; sizes; lia). apply u32_small. sizes. lia.
    - rewrite get32_blit_ne; [|change (length (le32 fb)) with 4%nat; lia|change (length (le32 fb)) with 4%nat; rewrite Hbl; sizes; lia].
      rewrite slot_entry by (sizes; lia). fold x. by rewrite (proj2 (Z.eqb_neq x 0)). }
  assert (Hso : forall j' e, D !! j' = Some e -> forall k, 0 <= k <= MAXFILE -> slot (V m') e k = if decide (j' = j /\ k = n) then fb else slot (V m) e k).
  { intros j' e He k Hk. destruct (decide (j' = j)) as [->|Hne]; [simplify_eq; by apply Hsd|]. rewrite decide_False by tauto.
    apply (slot_write m fb D F N j'); try done. intros Hz Ex. destruct (co_inj H j' e MAXFILE j d MAXFILE He Hd HM HM); rewrite ?slot_indirect; done. }
  split; [|rewrite Hsd by (sizes; lia); by rewrite decide_True].
  eapply (core_alloc m m' fb D D F N j d c P n); try done; [sizes; lia|unfold m'; by rewrite length_insert| | | |].
  - unfold m'. apply Forall_insert; [apply H|]. rewrite length_blit; [done|]. change (length (le32 fb)) with 4%nat. rewrite Hbl. sizes. lia.
  - intros j' e He. exists e. split; [done|]. split; [by apply (co_addrs H j')|]. by apply Hso.
  - intros j' e k He Hk Hke. unfold m'. destruct (slot_inside m fb D F N j' e k H He ltac:(lia) Hke). rewrite blk_write by lia. rewrite decide_False; [done|].
    intros E. destruct (co_inj H j' e k j d MAXFILE He Hd ltac:(lia) HM Hke); [by rewrite <- E, Hx|lia].
  - intros b Hb. unfold m'. by rewrite list_lookup_insert_ne by lia.
Qed.

(** Data is appended to file [j] in its block [n]. *)
Lemma core_write m fb D F N j d c n o src : core m fb D F N -> D !! j = Some d -> F !! j = Some c -> 0 <= n < MAXFILE -> slot (V m) d n <> 0 ->
  Z.of_nat (length c) = n * BSIZE + Z.of_nat o -> (o + length src <= 512)%nat ->
  let x := slot (V m) d n in let m' := <[Z.to_nat x := blit (blk (V m) x) o src]> m in core m' fb D (<[j := c ++ src]> F) N.
Proof.
  intros H Hd Hc Hn Hnz Hlen Ho x m'. pose proof (co_fb H) as Hr. destruct (slot_inside m fb D F N j d n H Hd ltac:(lia) Hnz) as [Hxl Hxs]. fold x in Hxl, Hxs.
  assert (Hxr : nmeta <= x < fb) by (apply (co_range H j d); [done|lia|done]). pose proof (blk_length _ _ _ _ _ x H Hxs) as Hbl.
  assert (Hso : forall j' e, D !! j' = Some e -> forall k, slot (V m') e k = slot (V m) e k).
  { intros j' e He k. apply (slot_write m fb D F N j'); try done. intros Hz Ex.
    destruct (co_inj H j' e MAXFILE j d n He Hd ltac:(sizes; lia) ltac:(lia)); rewrite ?slot_indirect; try done. lia. }
  split; unfold m'; rewrite ?length_insert; try apply H; fold m'.
  - apply Forall_insert; [apply H|]. rewrite length_blit; lia.
  - intros j' e P k He HP Hk. rewrite (Hso _ _ He). by apply (co_used H j').
  - intros j' e k He Hk. rewrite (Hso _ _ He). by apply (co_range H j').
  - intros j1 e1 k1 j2 e2 k2 He1 He2 Hk1 Hk2. rewrite (Hso _ _ He1), (Hso _ _ He2). by apply (co_inj H).
  - intros j' e c' off He Hc' Hof. rewrite (Hso _ _ He). intros Hoz. assert (Hk : 0 <= off / BSIZE < MAXFILE) by (sizes; zlia).
    unfold fbyte. rewrite (Hso _ _ He). destruct (slot_inside m fb D F N j' e (off / BSIZE) H He ltac:(lia) Hoz) as [Hsl Hss]. unfold m'. rewrite blk_write by lia.
    apply list_lookup_insert_Some in Hc' as [(->&<-&_)|(Hne&Hc')].
    + simplify_eq. pose proof (co_bytes H _ _ _ off Hd Hc Hof Hoz) as Hby. unfold fbyte in Hby. case_decide as Ex.
      * destruct (co_inj H _ _ n _ _ (off / BSIZE) Hd Hd ltac:(lia) ltac:(lia) Hnz Ex) as [_ En]. fold x in Ex. rewrite <- Ex in Hby.
        rewrite lookup_blit by lia. case_decide as Hin.
        -- rewrite lookup_app_r by (sizes; zlia). destruct (src !! (Z.to_nat (off `mod` BSIZE) - o)%nat) as [y|] eqn:Ey.
           ++ rewrite <- Ey. replace (Z.to_nat off - length c)%nat with (Z.to_nat (off `mod` BSIZE) - o)%nat by (sizes; zlia). by rewrite Ey.
           ++ apply lookup_ge_None_1 in Ey. lia.
        -- rewrite Hby. f_equal. f_equal. destruct (decide (off < Z.of_nat (length c))); [by rewrite lookup_app_l by lia|].
           rewrite !lookup_ge_None_2; [done|rewrite length_app; sizes; zlia|lia].
      * rewrite Hby. f_equal. f_equal. assert (off / BSIZE <> n) by (intros E; apply Ex; unfold x; by rewrite E).
        destruct (decide (off < Z.of_nat (length c))); [by rewrite lookup_app_l by lia|].
        rewrite !lookup_ge_None_2; [done|rewrite length_app; sizes; zlia|lia].
    + rewrite decide_False; [by apply (co_bytes H j' e c')|]. intros Ex. destruct (co_inj H j d n j' e (off / BSIZE) Hd He ltac:(lia) ltac:(lia) Hnz Ex) as [-> _]. done.
  - intros b Hb. unfold m'. rewrite list_lookup_insert_ne by lia. by apply (co_zero H).
Qed.

Lemma core_ext m fb D F N N' : core m fb D F N -> length N' = length N ->
  (forall j P Q n, N !! j = Some P -> N' !! j = Some Q -> 0 <= n <= MAXFILE -> P n <-> Q n) -> core m fb D F N'.
Proof.
  intros H Hl He. split; try apply H; [rewrite Hl; apply H|]. intros j d Q n Hd HQ Hn. destruct (lookup_lt_is_Some_2 N j) as [P HP].
  { rewrite <- Hl. by eapply lookup_lt_Some. }
  rewrite (co_used H j d P n Hd HP Hn). by apply (He j).
Qed.

(** ** Reading, writing and allocating blocks *)
Lemma mk_bind {A B} (m : MK A) (f : A -> MK B) s a s' : m s = Done (a, s') -> (m ≫= f) s = f a s'.
Proof. intros E. unfold mbind, MK_bind. by rewrite E. Qed.

Lemma mk_seq {A B C} (m : MK A) (n : A -> MK B) (k : B -> MK C) s : (m ≫= fun a => n a ≫= k) s = ((m ≫= n) ≫= k) s.
Proof. unfold mbind, MK_bind. by destruct (m s) as [[]| |]. Qed.

Lemma rsect_ok s x : 0 <= x < Z.of_nat (length (img s)) -> rsect x s = Done (blk (V (img s)) x, s).
Proof. intros Hx. unfold rsect, blk. cbn [v_disk]. destruct (lookup_lt_is_Some_2 (img s) (Z.to_nat x)) as [y Hy]; [lia|]. by rewrite Hy. Qed.
Lemma wsect_ok s x buf : 0 <= x < Z.of_nat (length (img s)) -> wsect x buf s = Done (tt, s <| img := <[Z.to_nat x := buf]> (img s) |>).
Proof. intros Hx. unfold wsect. replace (S (Z.to_nat x) - length (img s))%nat with 0%nat by lia. cbn [replicate]. by rewrite app_nil_r. Qed.

(** What writing to files leaves alone. *)
Definition low (s s' : mkfs) : Prop := freeinode s' = freeinode s /\ forall b, (b < 59)%nat -> img s' !! b = img s !! b.
Lemma low_refl s : low s s.
Proof. done. Qed.
Lemma low_trans s1 s2 s3 : low s1 s2 -> low s2 s3 -> low s1 s3.
Proof. intros [E1 L1] [E2 L2]. split; [congruence|]. intros b Hb. by rewrite L2, L1. Qed.
Lemma low_write s x buf : nmeta <= x -> low s (s <| img := <[Z.to_nat x := buf]> (img s) |>).
Proof. intros Hx. split; [done|]. intros b Hb. cbn [img setf]. rewrite list_lookup_insert_ne; [done|]. sizes. lia. Qed.

Definition readdressed (d d' : inode) : Prop := exists l, d' = d <| i_addrs := l |>.
Lemma readdressed_refl d : readdressed d d.
Proof. exists (i_addrs d). by destruct d. Qed.
Lemma readdressed_trans d1 d2 d3 : readdressed d1 d2 -> readdressed d2 d3 -> readdressed d1 d3.
Proof. intros [l ->] [l' ->]. by exists l'. Qed.

(** Where the next block goes: the blocks [file_block] takes. *)
Definition added (m : list (list Z)) (d : inode) (fbn : Z) : Z :=
  (if slot (V m) d fbn =? 0 then 1 else 0) + (if (NDIRECT <=? fbn) && (naddr d 12 =? 0) then 1 else 0).

(** The two stages of [file_block] that allocate in the inode. *)
Lemma take_addr s D F N j d c P k : core (img s) (freeblock s) D F N -> D !! j = Some d -> F !! j = Some c -> N !! j = Some P -> (k <= 12)%nat ->
  (naddr d k = 0 -> freeblock s < FSSIZE /\ ((k < 12)%nat -> Z.of_nat (length c) <= Z.of_nat k * BSIZE)) ->
  exists d' fb', (if xint (naddr d k) =? 0 then b ← next_block; mret (with_addr k (xint b) d) else mret d) s = Done (d', s <| freeblock := fb' |>) /\
    core (img s) fb' (<[j := d']> D) F (<[j := fun n => P n \/ n = place k]> N) /\ naddr d' k <> 0 /\ xint (naddr d' k) = naddr d' k /\
    fb' = freeblock s + (if naddr d k =? 0 then 1 else 0) /\ readdressed d d' /\ (naddr d k <> 0 -> d' = d) /\ (naddr d k = 0 -> d' = with_addr k (freeblock s) d).
Proof.
  intros H Hd Hc HP Hk Hr. pose proof (co_fb H) as Hfb. pose proof (co_addrs H _ _ Hd) as Hl.
  assert (Hnr : 0 <= naddr d k < FSSIZE).
  { rewrite <- (slot_place (V (img s))) by done. destruct (decide (slot (V (img s)) d (place k) = 0)) as [->|Hnz]; [sizes; lia|].
    eapply (slot_inside (img s)); try done. unfold place. sizes. case_decide; lia. }
  rewrite xint_eq, u32_small by (sizes; lia). destruct (Z.eqb_spec (naddr d k) 0) as [E|E].
  - destruct (Hr E) as [Hlt Hlen]. exists (with_addr k (freeblock s) d), (freeblock s + 1). assert (Hx : xint (freeblock s) = freeblock s) by (rewrite xint_eq; apply u32_small; sizes; lia).
    assert (Hna : naddr (with_addr k (freeblock s) d) k = freeblock s) by (rewrite naddr_with by lia; by rewrite decide_True).
    split; [unfold next_block, mbind, MK_bind, mret, MK_ret; rewrite Hx, u32_small by (sizes; lia); done|].
    split; [by eapply core_addr|]. rewrite Hna. split_and!; try done; [sizes; lia|by eexists].
  - exists d, (freeblock s). split; [by destruct s|]. rewrite list_insert_id by done. split_and!; try done; [|rewrite xint_eq; apply u32_small; sizes; lia|lia|apply readdressed_refl].
    eapply core_ext; [exact H|by rewrite length_insert|]. intros j' Q Q' n HQ HQ' Hn. apply list_lookup_insert_Some in HQ' as [(->&<-&_)|(Hne&HQ')]; [|by simplify_eq].
    simplify_eq. split; [by left|]. intros [| ->]; [done|]. apply (co_used H _ d _ _ Hd HP); [unfold place; sizes; case_decide; lia|]. by rewrite slot_place.
Qed.

Lemma core_more m fb D F N j d P Q : core m fb D F N -> D !! j = Some d -> N !! j = Some P -> (forall n, 0 <= n <= MAXFILE -> Q n -> slot (V m) d n <> 0) ->
  core m fb D F (<[j := fun n => P n \/ Q n]> N).
Proof.
  intros H Hd HP HQ. eapply core_ext; [exact H|by rewrite length_insert|]. intros j' P' Q' n HP' HQ' Hn.
  apply list_lookup_insert_Some in HQ' as [(->&<-&_)|(Hne&HQ')]; [|by simplify_eq]. simplify_eq. split; [by left|]. intros [|Hq]; [done|]. apply (co_used H _ d _ _ Hd HP Hn). by apply HQ.
Qed.

Lemma file_block_ok s D F N j d c P fbn : core (img s) (freeblock s) D F N -> D !! j = Some d -> F !! j = Some c -> N !! j = Some P ->
  0 <= fbn < MAXFILE -> (slot (V (img s)) d fbn = 0 -> Z.of_nat (length c) <= fbn * BSIZE) -> freeblock s + added (img s) d fbn <= FSSIZE ->
  exists d' s', file_block d fbn s = Done ((slot (V (img s')) d' fbn, d'), s') /\
    core (img s') (freeblock s') (<[j := d']> D) F (<[j := fun n => P n \/ n = fbn \/ NDIRECT <= fbn /\ n = MAXFILE]> N) /\
    slot (V (img s')) d' fbn <> 0 /\ freeblock s' = freeblock s + added (img s) d fbn /\ low s s' /\ readdressed d d'.
Proof.
  intros H Hd Hc HP Hn Hlen Hsum. pose proof (co_fb H) as Hfb. unfold file_block, added in *. destruct (Z.ltb_spec fbn NDIRECT) as [Hdir|Hind].
  - rewrite (proj2 (Z.leb_gt _ _) Hdir) in *. cbn [andb] in *. rewrite slot_direct in * by lia. set (k := Z.to_nat fbn) in *.
    assert (Hk : (k <= 12)%nat) by (unfold k; sizes; lia). assert (Ek : Z.of_nat k = fbn) by (unfold k; lia).
    destruct (take_addr s D F N j d c P k H Hd Hc HP Hk) as (d'&fb'&E&H'&Hnz&Hx&Ef&Hrd&_).
    { intros E0. rewrite E0 in Hsum. cbn in Hsum. split; [lia|]. intros _. rewrite Ek. by apply Hlen. }
    exists d', (s <| freeblock := fb' |>). rewrite (mk_bind _ _ _ _ _ E). rewrite slot_direct by lia. fold k. unfold mret, MK_ret. rewrite Hx. cbn [img freeblock setf].
    split; [done|]. split; [|split_and!; [done|lia|done|done]].
    assert (Epl : place k = fbn) by (unfold place; rewrite decide_False by (unfold k; sizes; lia); done). rewrite Epl in H'.
    pose proof (co_len H). eapply core_ext; [exact H'|by rewrite !length_insert|]. intros j' P' Q' n HP' HQ' Hn'.
    apply list_lookup_insert_Some in HP' as [(->&<-&_)|(Hne&HP')]; apply list_lookup_insert_Some in HQ' as [(?&<-&_)|(?&HQ')]; try done; [|by simplify_eq].
    split; [tauto|]. intros [|[|[? _]]]; [tauto|tauto|lia].
  - rewrite (proj2 (Z.leb_le _ _) Hind) in *. cbn [andb] in *. set (o := (4 * Z.to_nat (fbn - NDIRECT))%nat).
    destruct (take_addr s D F N j d c P 12 H Hd Hc HP ltac:(lia)) as (d1&fb1&E&H1&Hnz&Hx&Ef&Hrd&Hd1&Hd1').
    { intros E0. rewrite E0 in Hsum. cbn in Hsum. split; [destruct (slot (V (img s)) d fbn =? 0); lia|]. lia. }
    rewrite (mk_bind _ _ _ _ _ E). set (s1 := s <| freeblock := fb1 |>) in *. assert (Hdl : (j < length D)%nat) by (by eapply lookup_lt_Some).
    assert (Hd1l : <[j := d1]> D !! j = Some d1) by (by apply list_lookup_insert_eq). change (place 12) with MAXFILE in H1.
    assert (HP1 : <[j := fun n => P n \/ n = MAXFILE]> N !! j = Some (fun n => P n \/ n = MAXFILE)) by (apply list_lookup_insert_eq; by eapply lookup_lt_Some).
    assert (Hs1 : slot (V (img s)) d1 fbn = slot (V (img s)) d fbn).
    { destruct (decide (naddr d 12 = 0)) as [E0|E0]; [|by rewrite Hd1]. rewrite (Hd1' E0). rewrite slot_with; [|by apply (co_addrs H j)|lia|done|sizes; lia| |lia].
      - rewrite decide_False; [done|]. change (place 12) with MAXFILE. lia.
      - eapply blk_zero; [exact H|]. rewrite E0 in Hsum. cbn in Hsum. destruct (slot (V (img s)) d fbn =? 0); lia. }
    pose proof (slot_inside _ _ _ _ _ j d1 MAXFILE H1 Hd1l ltac:(sizes; lia)) as Hin. rewrite slot_indirect in Hin. specialize (Hin Hnz). destruct Hin as [Hin Hin'].
    assert (Hlow : nmeta <= naddr d1 12) by (rewrite <- (slot_indirect (V (img s))); apply (co_range H1 j); [done|sizes; lia|by rewrite slot_indirect]).
    rewrite Hx. rewrite (mk_bind _ _ _ _ _ (rsect_ok s1 _ Hin)). change (img s1) with (img s).
    assert (Eg : get32 (blk (V (img s)) (naddr d1 12)) o = slot (V (img s)) d1 fbn) by (rewrite slot_entry by lia; by rewrite (proj2 (Z.eqb_neq _ _) Hnz)).
    rewrite Eg, Hs1. destruct (Z.eqb_spec (slot (V (img s)) d fbn) 0) as [E0|E0].
    + specialize (Hlen E0). assert (Hlt : fb1 < FSSIZE) by (destruct (naddr d 12 =? 0); lia).
      destruct (core_entry (img s) fb1 _ F _ j d1 c _ fbn H1 Hd1l Hc HP1 ltac:(lia) Hnz ltac:(congruence) Hlen Hlt) as [H2 Hsl]. fold o in H2, Hsl.
      set (buf := blit (blk (V (img s)) (naddr d1 12)) o (le32 fb1)) in *. set (s2 := s1 <| freeblock := fb1 + 1 |> <| img := <[Z.to_nat (naddr d1 12) := buf]> (img s) |>).
      assert (Exb : xint fb1 = fb1) by (rewrite xint_eq; apply u32_small; destruct (co_fb H1); sizes; lia).
      exists d1, s2. split.
      { unfold next_block, mbind, MK_bind, mret, MK_ret. change (freeblock s1) with fb1. rewrite Exb. rewrite u32_small by (destruct (co_fb H1); sizes; lia). fold buf.
        rewrite (wsect_ok (s1 <| freeblock := fb1 + 1 |>)) by exact Hin. fold s2. change (img s2) with (<[Z.to_nat (naddr d1 12) := buf]> (img s)). rewrite Hsl.
        assert (Eb : get32 buf o = fb1). { unfold buf. rewrite get32_blit_eq; [apply u32_small; destruct (co_fb H1); sizes; lia|]. rewrite (blk_length _ _ _ _ _ _ H1 Hin'). unfold o. sizes. lia. }
        rewrite Eb, Exb. done. }
      change (img s2) with (<[Z.to_nat (naddr d1 12) := buf]> (img s)). change (freeblock s2) with (fb1 + 1). split; [|split_and!].
      * rewrite list_insert_insert_eq in H2. eapply core_ext; [exact H2|by rewrite !length_insert|]. intros j' P' Q' n HP' HQ' Hn'.
        apply list_lookup_insert_Some in HP' as [(->&<-&_)|(Hne&HP')]; apply list_lookup_insert_Some in HQ' as [(?&<-&_)|(?&HQ')]; try done; [|by simplify_eq]. tauto.
      * rewrite Hsl. destruct (co_fb H1). sizes. lia.
      * destruct (naddr d 12 =? 0); lia.
      * split; [done|]. intros b Hb. apply (low_write s (naddr d1 12) buf Hlow). done.
      * done.
    + exists d1, s1. change (img s1) with (img s). change (freeblock s1) with fb1. rewrite Hs1. unfold mbind, MK_bind, mret, MK_ret. rewrite Eg, Hs1.
      assert (Exs : xint (slot (V (img s)) d fbn) = slot (V (img s)) d fbn).
      { rewrite xint_eq. apply u32_small. pose proof (co_range H _ _ fbn Hd ltac:(lia) E0). sizes. lia. }
      split; [by rewrite Exs|]. split; [|split_and!; try done; destruct (naddr d 12 =? 0); lia].
      eapply core_ext; [eapply (core_more _ _ _ _ _ j d1 _ (fun n => n = fbn)); [exact H1|done|exact HP1|]|by rewrite !length_insert|].
      * intros n _ ->. by rewrite Hs1.
      * rewrite list_insert_insert_eq. intros j' P' Q' n HP' HQ' Hn'.
        apply list_lookup_insert_Some in HP' as [(->&<-&_)|(Hne&HP')]; apply list_lookup_insert_Some in HQ' as [(?&<-&_)|(?&HQ')]; try done; [|by simplify_eq]. tauto.
Qed.

(** ** Appending to a file *)

(** The places a file of [len] bytes has blocks at, and how many. *)
Definition need (len n : Z) : Prop := if decide (n = MAXFILE) then NDIRECT * BSIZE < len else n * BSIZE < len.
Definition nblk (len : Z) : Z := (len + BSIZE - 1) / BSIZE + (if NDIRECT * BSIZE <? len then 1 else 0).
Definition flen (c : list Z) : Z := Z.of_nat (length c).
Fixpoint total (F : list (list Z)) : Z := match F with [] => 0 | c :: F => nblk (flen c) + total F end.

Record good (m : list (list Z)) (fb : Z) (D : list inode) (F : list (list Z)) : Prop := {
  gd_core : core m fb D F ((fun c => need (flen c)) <$> F);
  gd_fb : fb = nmeta + total F;
}.

Lemma total_update F j c c' : F !! j = Some c -> total (<[j := c']> F) = total F + nblk (flen c') - nblk (flen c).
Proof.
  revert j. induction F as [|x F IH]; intros [|j] Hj; simpl in *; simplify_eq; [lia|]. rewrite (IH _ Hj). lia.
Qed.

Lemma nblk_step len n1 : 0 <= len -> 0 < n1 <= BSIZE - len `mod` BSIZE ->
  nblk (len + n1) = nblk len + (if len `mod` BSIZE =? 0 then 1 else 0) + (if len =? NDIRECT * BSIZE then 1 else 0).
Proof.
  intros Hl Hn. unfold nblk. sizes. destruct (Z.eqb_spec (len `mod` 512) 0), (Z.eqb_spec len (12 * 512)), (Z.ltb_spec (12 * 512) len), (Z.ltb_spec (12 * 512) (len + n1)); zlia.
Qed.

Lemma nblk_mono a b : 0 <= a <= b -> nblk a <= nblk b.
Proof. intros Hl. unfold nblk. sizes. destruct (Z.ltb_spec (12 * 512) a), (Z.ltb_spec (12 * 512) b); zlia. Qed.

Lemma need_step len n1 n : 0 <= len -> 0 < n1 <= BSIZE - len `mod` BSIZE -> 0 <= n <= MAXFILE -> len < MAXFILE * BSIZE ->
  (need len n \/ n = len / BSIZE \/ NDIRECT <= len / BSIZE /\ n = MAXFILE) <-> need (len + n1) n.
Proof. intros Hl Hn Hr Hm. unfold need. sizes. case_decide; zlia. Qed.

Lemma added_eq m fb D F j d c : good m fb D F -> D !! j = Some d -> F !! j = Some c -> flen c < MAXFILE * BSIZE ->
  (slot (V m) d (flen c / BSIZE) = 0 -> flen c `mod` BSIZE = 0) /\
  added m d (flen c / BSIZE) = (if flen c `mod` BSIZE =? 0 then 1 else 0) + (if flen c =? NDIRECT * BSIZE then 1 else 0).
Proof.
  intros [H _] Hd Hc Hm. assert (HP : ((fun c => need (flen c)) <$> F) !! j = Some (need (flen c))) by (by rewrite list_lookup_fmap, Hc).
  assert (H0 : 0 <= flen c) by (unfold flen; lia). pose proof (co_used H _ _ _ (flen c / BSIZE) Hd HP ltac:(sizes; zlia)) as H1.
  pose proof (co_used H _ _ _ MAXFILE Hd HP ltac:(sizes; lia)) as H2. rewrite slot_indirect in H2. unfold need in H1, H2. rewrite decide_False in H1 by (sizes; zlia).
  rewrite decide_True in H2 by done. unfold added. sizes.
  destruct (Z.eqb_spec (slot (V m) d (flen c / 512)) 0), (Z.eqb_spec (naddr d 12) 0), (Z.eqb_spec (flen c `mod` 512) 0), (Z.eqb_spec (flen c) (12 * 512)), (Z.leb_spec 12 (flen c / 512));
    cbn [andb]; split; try zlia.
Qed.

Lemma append_step s D F j d c src : good (img s) (freeblock s) D F -> D !! j = Some d -> F !! j = Some c ->
  (0 < length src)%nat -> flen src <= BSIZE - flen c `mod` BSIZE -> flen c < MAXFILE * BSIZE -> nmeta + total (<[j := c ++ src]> F) <= FSSIZE ->
  exists d' s', ('(x, din) ← file_block d (flen c / BSIZE); buf ← rsect x;
      wsect x (blit buf (Z.to_nat (flen c - flen c / BSIZE * BSIZE)) src) ;; mret din) s = Done (d', s') /\
    good (img s') (freeblock s') (<[j := d']> D) (<[j := c ++ src]> F) /\ low s s' /\ readdressed d d'.
Proof.
  intros G Hd Hc Hs Hfit Hm Hsum. pose proof (added_eq _ _ _ _ _ _ _ G Hd Hc Hm) as [H0 Ha]. destruct G as [H Hfb]. assert (Hc0 : 0 <= flen c) by (unfold flen; lia).
  assert (HP : ((fun c => need (flen c)) <$> F) !! j = Some (need (flen c))) by (by rewrite list_lookup_fmap, Hc).
  assert (Hap : flen (c ++ src) = flen c + flen src) by (unfold flen; rewrite length_app; lia). assert (Hs' : 0 < flen src) by (unfold flen; lia).
  pose proof (nblk_step (flen c) (flen src) Hc0 ltac:(lia)) as Hnb. rewrite (total_update _ _ _ _ Hc), Hap in Hsum.
  assert (Hfbn : 0 <= flen c / BSIZE < MAXFILE) by (sizes; zlia).
  destruct (file_block_ok s D F _ j d c _ (flen c / BSIZE) H Hd Hc HP Hfbn) as (d'&s1&E&H1&Hnz&Ef&Hlo&Hrd).
  { intros E0%H0. fold (flen c). sizes. zlia. }
  { lia. }
  rewrite (mk_bind _ _ _ _ _ E). set (x := slot (V (img s1)) d' (flen c / BSIZE)) in *. assert (Hdl : <[j := d']> D !! j = Some d') by (apply list_lookup_insert_eq; by eapply lookup_lt_Some).
  destruct (slot_inside _ _ _ _ _ j d' (flen c / BSIZE) H1 Hdl ltac:(lia) Hnz) as [Hxl Hxs]. fold x in Hxl, Hxs.
  rewrite (mk_bind _ _ _ _ _ (rsect_ok s1 x Hxl)). rewrite (mk_bind _ _ _ _ _ (wsect_ok s1 x _ Hxl)).
  eexists d', _. split; [done|]. cbn [img freeblock setf]. split; [|split; [|done]].
  - split; [|rewrite (total_update _ _ _ _ Hc), Hap; lia].
    eapply core_ext; [eapply (core_write _ _ _ _ _ j d' c (flen c / BSIZE)); [exact H1|done|done|done|done| |]|by rewrite !length_insert, !length_fmap, length_insert|].
    + fold (flen c). sizes. zlia.
    + unfold flen in Hfit, Hs'. sizes. unfold flen. zlia.
    + intros j' P Q n HP' HQ Hn. rewrite list_lookup_fmap in HQ. apply list_lookup_insert_Some in HP' as [(->&<-&Hlt)|(Hne&HP')].
      * rewrite list_lookup_insert_eq in HQ by (by eapply lookup_lt_Some). simplify_eq/=. rewrite Hap. apply need_step; lia.
      * rewrite list_lookup_insert_ne in HQ by done. rewrite list_lookup_fmap in HP'. destruct (F !! j'); simplify_eq/=. done.
  - eapply low_trans; [exact Hlo|]. apply low_write. apply (co_range H1 j); [done|lia|done].
Qed.

Lemma total_mono F j c a b : F !! j = Some c -> (length a <= length b)%nat -> total (<[j := a]> F) <= total (<[j := b]> F).
Proof. intros Hc Hl. rewrite !(total_update _ _ _ _ Hc). pose proof (nblk_mono (flen a) (flen b) ltac:(unfold flen; lia)). lia. Qed.

Lemma iappend_loop_ok fuel p : forall s D F j d c, (length p <= fuel)%nat -> good (img s) (freeblock s) D F -> D !! j = Some d -> F !! j = Some c ->
  flen (c ++ p) <= MAXFILE * BSIZE -> nmeta + total (<[j := c ++ p]> F) <= FSSIZE ->
  exists d' s', iappend_loop fuel d (flen c) p s = Done ((d', flen (c ++ p)), s') /\
    good (img s') (freeblock s') (<[j := d']> D) (<[j := c ++ p]> F) /\ low s s' /\ readdressed d d'.
Proof.
  revert p. induction fuel as [|fuel IH]; intros p s D F j d c Hf G Hd Hc Hm Hsum.
  - destruct p; [|simpl in Hf; lia]. rewrite app_nil_r. exists d, s. rewrite !list_insert_id by done. split_and!; try done. apply readdressed_refl.
  - cbn [iappend_loop]. destruct (Z.ltb_spec 0 (Z.of_nat (length p))) as [Hp|Hp].
    2:{ destruct p; [|simpl in Hp; lia]. rewrite app_nil_r. exists d, s. rewrite !list_insert_id by done. split_and!; try done. apply readdressed_refl. }
    assert (Hc0 : 0 <= flen c) by (unfold flen; lia). assert (Hap : flen (c ++ p) = flen c + flen p) by (unfold flen; rewrite length_app; lia).
    fold (flen p) in Hp. rewrite (proj2 (Z.ltb_lt (flen c / BSIZE) MAXFILE)) by (sizes; zlia). rewrite (mk_bind (assert true _) _ s tt s eq_refl). fold (flen p).
    set (n1 := Z.min (flen p) ((flen c / BSIZE + 1) * BSIZE - flen c)). assert (Hn1 : 0 < n1 <= BSIZE - flen c `mod` BSIZE /\ n1 <= flen p) by (unfold n1; sizes; zlia).
    set (src := take (Z.to_nat n1) p). assert (Hsl : flen src = n1) by (unfold flen, src in *; rewrite length_take; lia).
    destruct (append_step s D F j d c src G Hd Hc) as (d1&s1&E1&G1&Hlo&Hrd); [unfold flen in Hsl; lia|lia|lia| |].
    { etrans; [|exact Hsum]. pose proof (total_mono F j c (c ++ src) (c ++ p) Hc ltac:(rewrite !length_app; unfold src; rewrite length_take; lia)). lia. }
    assert (Hpl : c ++ p = (c ++ src) ++ drop (Z.to_nat n1) p) by (rewrite <- app_assoc; unfold src; by rewrite take_drop).
    assert (Hdl : <[j := d1]> D !! j = Some d1) by (apply list_lookup_insert_eq; by eapply lookup_lt_Some).
    assert (Hcl : <[j := c ++ src]> F !! j = Some (c ++ src)) by (apply list_lookup_insert_eq; by eapply lookup_lt_Some).
    destruct (IH (drop (Z.to_nat n1) p) s1 (<[j := d1]> D) (<[j := c ++ src]> F) j d1 (c ++ src)) as (d2&s2&E2&G2&Hlo2&Hrd2); [rewrite length_drop; unfold flen in *; lia|exact G1|done|done|by rewrite <- Hpl|by rewrite list_insert_insert_eq, <- Hpl|].
    rewrite !list_insert_insert_eq, <- Hpl in *. exists d2, s2. split; [|split_and!; [done|by eapply low_trans|by eapply readdressed_trans]].
    assert (Eo : u32 (flen c + n1) = flen (c ++ src)).
    { unfold flen at 2. rewrite length_app, Nat2Z.inj_add. fold (flen c) (flen src). rewrite Hsl. apply u32_small. sizes. lia. }
    rewrite Eo. unfold mbind, MK_bind in E1 |- *. destruct (file_block d (flen c / BSIZE) s) as [[[x dn] sa]|e|e]; try done.
    destruct (rsect x sa) as [[buf sb']|e|e]; try done. destruct (wsect x _ sb') as [[[] sc]|e|e]; try done. unfold mret, MK_ret in E1. simplify_eq. exact E2.
Qed.

(** ** Inodes on the image *)
Lemma IBLOCK_eq n : 0 <= n < NINODES -> IBLOCK n sb = n / 8 + 32.
Proof. intros Hn. unfold IBLOCK. change (sb_inodestart sb) with 32. change IPB with 8. apply u32_small. sizes. zlia. Qed.

(** Writes to the blocks of inodes, and to fields of inodes other than the addresses, leave the files alone. *)
Lemma core_low m m' fb D D' F N : core m fb D F N -> length m' = length m -> Forall (fun d => length d = 512%nat) m' ->
  (forall b, (59 <= b)%nat -> m' !! b = m !! b) -> Forall2 (fun d d' => i_addrs d' = i_addrs d) D D' -> core m' fb D' F N.
Proof.
  intros H Hl Hb Hm HD. pose proof (Forall2_length _ _ _ HD) as HDl.
  assert (Hlk : forall j e, D' !! j = Some e -> exists d, D !! j = Some d /\ i_addrs e = i_addrs d).
  { intros j e He. by destruct (Forall2_lookup_r _ _ _ _ _ HD He) as (d&?&?); exists d. }
  assert (Hbk : forall b, nmeta <= b -> blk (V m') b = blk (V m) b) by (intros b Hbr; unfold blk; cbn [v_disk]; rewrite Hm by (sizes; lia); done).
  assert (Hsl : forall j d e n, D !! j = Some d -> i_addrs e = i_addrs d -> slot (V m') e n = slot (V m) d n).
  { intros j d e n Hd He. apply slot_frame; [done|]. intros Hnz. apply Hbk. rewrite <- (slot_indirect (V m)). apply (co_range H j d); [done|sizes; lia|by rewrite slot_indirect]. }
  split; rewrite ?Hl, <- ?HDl; try apply H; try done.
  - intros j e He. destruct (Hlk j e He) as (d&Hd&E). rewrite E. by apply (co_addrs H j).
  - intros j e P n He HP Hn. destruct (Hlk j e He) as (d&Hd&E). rewrite (Hsl j d e n Hd E). by apply (co_used H j d).
  - intros j e n He Hn. destruct (Hlk j e He) as (d&Hd&E). rewrite (Hsl j d e n Hd E). by apply (co_range H j d).
  - intros j e n j' e' n' He He'. destruct (Hlk j e He) as (d&Hd&E). destruct (Hlk j' e' He') as (d'&Hd'&E').
    rewrite (Hsl j d e n Hd E), (Hsl j' d' e' n' Hd' E'). by apply (co_inj H).
  - intros j e c off He Hc Ho. destruct (Hlk j e He) as (d&Hd&E). unfold fbyte. rewrite (Hsl j d e _ Hd E). intros Hnz.
    rewrite Hbk by (apply (co_range H j d); [done|sizes; zlia|done]). by apply (co_bytes H j d).
  - intros b Hbr. rewrite Hm by (pose proof (co_fb H); sizes; lia). by apply (co_zero H).
Qed.

(** The inode of file [j] with contents [c]. *)
Definition shape (j : nat) (t : Z) (c l : list Z) : inode := mkInode 1 (Z.of_nat (S j)) 0 false t 0 0 1 (flen c) l.
Record image (s : mkfs) (D : list inode) (F : list (list Z)) (T : list Z) : Prop := {
  im_good : good (img s) (freeblock s) D F;
  im_types : length T = length D /\ Forall (fun t => 0 <= t < 2 ^ 15) T;
  im_shape : forall j d c, D !! j = Some d -> F !! j = Some c -> exists t l, T !! j = Some t /\ d = shape j t c l;
  im_stored : forall j d, D !! j = Some d -> node sb (V (img s)) (Z.of_nat (S j)) = d;
  im_inum : freeinode s = Z.of_nat (S (length D)) /\ freeinode s <= NINODES;
  im_head : forall b, (b < 32)%nat -> img s !! b = Some (if decide (b = 1%nat) then blit zeroes 0 (sb_bytes sb) else zeroes);
}.
#[local] Arguments im_good {s D F T}.
#[local] Arguments im_types {s D F T}.
#[local] Arguments im_shape {s D F T}.
#[local] Arguments im_stored {s D F T}.
#[local] Arguments im_inum {s D F T}.
#[local] Arguments im_head {s D F T}.

Lemma winode_ok s j t c l : length (img s) = Z.to_nat FSSIZE -> Forall (fun d => length d = 512%nat) (img s) -> Z.of_nat (S j) < NINODES ->
  length l = 13%nat -> Forall (fun a => 0 <= a < 2 ^ 32) l -> 0 <= t < 2 ^ 15 -> flen c < 2 ^ 32 ->
  exists m', winode (Z.of_nat (S j)) (shape j t c l) s = Done (tt, s <| img := m' |>) /\ length m' = length (img s) /\
    Forall (fun d => length d = 512%nat) m' /\ (forall b, (b < 32 \/ 58 <= b)%nat -> m' !! b = img s !! b) /\
    node sb (V m') (Z.of_nat (S j)) = shape j t c l /\
    (forall i, i <> j -> Z.of_nat (S i) < NINODES -> node sb (V m') (Z.of_nat (S i)) = node sb (V (img s)) (Z.of_nat (S i))).
Proof.
  intros Hlen Hbl Hj Hl Hr Ht Hc. set (n := Z.of_nat (S j)) in *. set (d := shape j t c l). pose proof (IBLOCK_eq n ltac:(lia)) as Eb. set (b := IBLOCK n sb) in *.
  assert (Hb : 32 <= b < 58) by (sizes; zlia). assert (Hbl' : 0 <= b < Z.of_nat (length (img s))) by (sizes; lia).
  destruct (lookup_lt_is_Some_2 (img s) (Z.to_nat b)) as [buf Hbuf]; [lia|]. pose proof (proj1 (Forall_lookup _ _) Hbl _ _ Hbuf) as Hbuf'. cbn beta in Hbuf'.
  assert (Ebk : blk (V (img s)) b = buf) by (unfold blk; cbn [v_disk]; by rewrite Hbuf).
  assert (Hdl : length (dinode_bytes d) = 64%nat) by (by apply length_dinode_bytes). assert (Hoff : (dinode_off n + 64 <= 512)%nat) by exact (dinode_fits d).
  exists (<[Z.to_nat b := blit buf (dinode_off n) (dinode_bytes d)]> (img s)). unfold winode. fold b. rewrite (mk_bind _ _ _ _ _ (rsect_ok s b Hbl')), Ebk.
  rewrite wsect_ok by done. split; [done|]. rewrite length_insert. split; [done|]. split; [apply Forall_insert; [done|]; rewrite length_blit; lia|].
  split; [intros a Ha; rewrite list_lookup_insert_ne by lia; done|]. split.
  - unfold node. fold n b. rewrite blk_write by lia. rewrite decide_True by done.
    transitivity (load_dinode (blit buf (dinode_off n) (dinode_bytes d)) (dinode_off n) d); [done|].
    apply load_dinode_bytes; [done| |repeat constructor; cbn; lia|unfold d; cbn; unfold flen in *; lia|lia].
    intros k Hk. unfold naddr, d. cbn [i_addrs shape]. destruct (lookup_lt_is_Some_2 l k) as [a Ha]; [lia|]. rewrite Ha. cbn. exact (proj1 (Forall_lookup _ _) Hr _ _ Ha).
  - intros i Hi Hin. unfold node. pose proof (IBLOCK_eq (Z.of_nat (S i)) ltac:(lia)) as Ei. rewrite blk_write by (lia || zlia). case_decide as E; [|done].
    rewrite <- E, Ebk. apply load_dinode_blit; rewrite Hdl; [|lia]. unfold dinode_off. change IPB with 8. change SIZEOF_DINODE with 64. unfold n in *. zlia.
Qed.

Lemma slot_unused m d n : i_addrs d = replicate 13 0 -> slot (V m) d n = 0.
Proof.
  intros E. assert (Hn : forall k, naddr d k = 0).
  { intros k. unfold naddr. rewrite E. destruct (replicate 13 0 !! k) as [a|] eqn:Ea; [by apply lookup_replicate_1 in Ea as [-> _]|done]. }
  unfold slot. rewrite !Hn, Z.eqb_refl. by destruct (n <? NDIRECT), (n =? MAXFILE).
Qed.

(** A new file has no blocks. *)
Lemma core_new m fb D F N d : core m fb D F N -> i_addrs d = replicate 13 0 -> core m fb (D ++ [d]) (F ++ [[]]) (N ++ [need 0]).
Proof.
  intros H Hd. pose proof (co_files H) as [HF HN]. pose proof (fun n => slot_unused m d n Hd) as Hs. split; rewrite ?length_app; try apply H.
  - simpl. lia.
  - intros j e [(_&He)|(_&<-)]%lookup_snoc_Some; [by apply (co_addrs H j)|by rewrite Hd].
  - intros j e P n [(Hj&He)|(Hj&<-)]%lookup_snoc_Some [(Hj'&HP)|(Hj'&<-)]%lookup_snoc_Some Hn; try lia; [by apply (co_used H j)|].
    rewrite Hs. unfold need. split; [done|]. case_decide; sizes; lia.
  - intros j e n [(Hj&He)|(Hj&<-)]%lookup_snoc_Some Hn; [by apply (co_range H j)|by rewrite Hs].
  - intros j e n j' e' n' [(Hj&He)|(Hj&<-)]%lookup_snoc_Some [(Hj'&He')|(Hj'&<-)]%lookup_snoc_Some Hn Hn'; rewrite ?Hs; try done. by apply (co_inj H).
  - intros j e c off [(Hj&He)|(Hj&<-)]%lookup_snoc_Some [(Hj'&Hc)|(Hj'&<-)]%lookup_snoc_Some Ho; try lia; [by apply (co_bytes H j)|by rewrite Hs].
Qed.

Lemma total_app F G : total (F ++ G) = total F + total G.
Proof. induction F as [|c F IH]; simpl; [done|]. rewrite IH. lia. Qed.

Lemma Forall2_addrs D : Forall2 (fun d d' => i_addrs d' = i_addrs d) D D.
Proof. induction D; by constructor. Qed.

Lemma ialloc_ok s D F T t : image s D F T -> Z.of_nat (S (length D)) < NINODES -> 0 <= t < 2 ^ 15 ->
  exists s' D', ialloc t s = Done (Z.of_nat (S (length D)), s') /\ image s' D' (F ++ [[]]) (T ++ [t]).
Proof.
  intros I Hn Ht. pose proof (gd_core _ _ _ _ (im_good I)) as H. destruct (im_inum I) as [Hfi _]. destruct (co_files H) as [HF _]. destruct (im_types I) as [HT HTr].
  set (d := shape (length D) t [] (replicate 13 0)). set (s1 := s <| freeinode := Z.of_nat (S (S (length D))) |>).
  destruct (winode_ok s1 (length D) t [] (replicate 13 0)) as (m'&E&Hl&Hb&Hlo&Hnew&Hold); try done; [apply H|apply H|repeat constructor; lia|].
  exists (s1 <| img := m' |>), (D ++ [d]). split.
  - unfold ialloc. cbv zeta. rewrite Hfi. rewrite xshort_eq, xshort_eq, xint_eq, !u16_small, !u32_small by (sizes; lia).
    replace (Z.of_nat (S (length D)) + 1) with (Z.of_nat (S (S (length D)))) by lia. fold s1. exact (mk_bind _ (fun _ => mret (Z.of_nat (S (length D)))) _ _ _ E).
  - cbn [img freeblock freeinode setf]. change (img s1) with (img s) in *. split; cbn [img freeblock freeinode setf].
    + split; [|change (freeblock s1) with (freeblock s); rewrite total_app; change (total [[]]) with 0; pose proof (gd_fb _ _ _ _ (im_good I)); lia].
      rewrite fmap_app. apply core_new; [|done]. eapply core_low; [exact H|done|done|intros b Hbr; apply Hlo; lia|apply Forall2_addrs].
    + rewrite !length_app. split; [simpl; lia|]. apply Forall_app. split; [done|by apply Forall_singleton].
    + intros j e c [(Hj&He)|(Hj&<-)]%lookup_snoc_Some [(Hj'&Hc)|(Hj'&<-)]%lookup_snoc_Some; try lia.
      * destruct (im_shape I j e c He Hc) as (t'&l&Ht'&->). exists t', l. split; [|done]. by apply lookup_app_l_Some.
      * exists t, (replicate 13 0). subst j. split; [|done]. rewrite <- HT. by apply list_lookup_middle.
    + intros j e [(Hj&He)|(Hj&<-)]%lookup_snoc_Some; [|by subst j]. rewrite Hold by lia. by apply (im_stored I).
    + rewrite length_app. change (freeinode (s1 <| img := m' |>)) with (Z.of_nat (S (S (length D)))). simpl. lia.
    + intros b Hbr. rewrite Hlo by lia. by apply (im_head I).
Qed.

Lemma addrs_small m fb D F N j d : core m fb D F N -> D !! j = Some d -> Forall (fun a => 0 <= a < 2 ^ 32) (i_addrs d).
Proof.
  intros H Hd. apply Forall_lookup. intros k a Ha. pose proof (lookup_lt_Some _ _ _ Ha) as Hk. rewrite (co_addrs H _ _ Hd) in Hk.
  assert (E : a = slot (V m) d (place k)) by (rewrite slot_place by lia; unfold naddr; by rewrite Ha).
  destruct (decide (a = 0)) as [->|Hnz]; [lia|]. rewrite E in *. pose proof (co_range H j d (place k) Hd ltac:(unfold place; sizes; case_decide; lia) Hnz). pose proof (co_fb H). sizes. lia.
Qed.

Lemma node_low s s' n : low s s' -> 0 <= n < NINODES -> node sb (V (img s')) n = node sb (V (img s)) n.
Proof.
  intros [_ Hlo] Hn. unfold node, blk. cbn [v_disk]. rewrite Hlo; [done|]. rewrite (IBLOCK_eq n Hn). sizes. zlia.
Qed.

Lemma iappend_ok s D F T j c p : image s D F T -> F !! j = Some c -> flen (c ++ p) <= MAXFILE * BSIZE -> nmeta + total (<[j := c ++ p]> F) <= FSSIZE ->
  exists s' D', iappend (Z.of_nat (S j)) p s = Done (tt, s') /\ image s' D' (<[j := c ++ p]> F) T.
Proof.
  intros I Hc Hm Hsum. pose proof (im_good I) as G. pose proof (gd_core _ _ _ _ G) as H. destruct (im_inum I) as [Hfi HfN]. destruct (co_files H) as [HF _].
  pose proof (lookup_lt_Some _ _ _ Hc) as Hj. destruct (lookup_lt_is_Some_2 D j) as [d Hd]; [lia|]. destruct (im_shape I j d c Hd Hc) as (t&l&Ht&Ed).
  assert (HjN : Z.of_nat (S j) < NINODES) by lia. pose proof (IBLOCK_eq (Z.of_nat (S j)) ltac:(lia)) as Eb.
  assert (Hap : flen (c ++ p) = flen c + flen p) by (unfold flen; rewrite length_app; lia). assert (Hc0 : 0 <= flen c /\ 0 <= flen p) by (unfold flen; lia).
  destruct (iappend_loop_ok (length p) p s D F j d c ltac:(lia) G Hd Hc Hm Hsum) as (d'&s1&E1&G1&Hlo&Hrd). pose proof (gd_core _ _ _ _ G1) as H1.
  assert (Hd' : <[j := d']> D !! j = Some d') by (apply list_lookup_insert_eq; lia). destruct Hrd as [l' Hrd].
  pose proof (co_addrs H1 _ _ Hd') as Hl'. pose proof (addrs_small _ _ _ _ _ _ _ H1 Hd') as Hs'. rewrite Hrd in Hl', Hs'. cbn [i_addrs setf] in Hl', Hs'.
  destruct (winode_ok s1 j t (c ++ p) l') as (m'&E2&Hl2&Hb2&Hlo2&Hnew&Hold); [apply H1|apply H1|done|done|done|exact (proj1 (Forall_lookup _ _) (proj2 (im_types I)) _ _ Ht)|sizes; lia|].
  set (d2 := shape j t (c ++ p) l') in *. exists (s1 <| img := m' |>), (<[j := d2]> D). split.
  - unfold iappend, rinode. rewrite (mk_bind _ _ _ _ s (mk_bind _ _ _ _ _ (rsect_ok s (IBLOCK (Z.of_nat (S j)) sb) ltac:(rewrite (co_len H); sizes; zlia)))).
    fold (node sb (V (img s)) (Z.of_nat (S j))). rewrite (im_stored I j d Hd). assert (Ex : xint (i_size d) = flen c) by (rewrite xint_eq, Ed; apply u32_small; sizes; cbn; lia).
    rewrite Ex, (mk_bind _ _ _ _ _ E1). rewrite xint_eq, u32_small by (sizes; lia). rewrite Hrd, Ed. exact E2.
  - cbn [img freeblock freeinode setf]. assert (HD : Forall2 (fun d d' => i_addrs d' = i_addrs d) (<[j := d']> D) (<[j := d2]> D)) by (apply Forall2_insert; [apply Forall2_addrs|by rewrite Hrd]).
    split; cbn [img freeblock freeinode setf].
    + split; [|apply G1]. eapply core_low; [exact H1|done|done|intros b Hb; apply Hlo2; lia|done].
    + rewrite length_insert. apply I.
    + intros i e c' [(->&<-&_)|(Hne&He)]%list_lookup_insert_Some [(Hi&<-&_)|(Hi&Hc')]%list_lookup_insert_Some; try done; [by exists t, l'|]. by apply (im_shape I).
    + intros i e [(->&<-&_)|(Hne&He)]%list_lookup_insert_Some; [done|]. pose proof (lookup_lt_Some _ _ _ He). rewrite Hold by (done || lia).
      rewrite (node_low s s1) by (done || lia). by apply (im_stored I).
    + rewrite length_insert. change (freeinode (s1 <| img := m' |>)) with (freeinode s1). rewrite (proj1 Hlo). by split.
    + intros b Hb. rewrite Hlo2 by lia. rewrite (proj2 Hlo) by lia. by apply (im_head I).
Qed.

(** A whole file is copied. *)
Lemma copy_loop_ok fuel p : forall s D F T j c, (length p <= fuel)%nat -> image s D F T -> F !! j = Some c -> flen (c ++ p) <= MAXFILE * BSIZE ->
  nmeta + total (<[j := c ++ p]> F) <= FSSIZE -> exists s' D', copy_loop fuel (Z.of_nat (S j)) p s = Done (tt, s') /\ image s' D' (<[j := c ++ p]> F) T.
Proof.
  revert p. induction fuel as [|fuel IH]; intros p s D F T j c Hf I Hc Hm Hsum.
  - destruct p; [|simpl in Hf; lia]. exists s, D. rewrite app_nil_r, list_insert_id by done. done.
  - destruct (decide (p = [])) as [->|Hp]; [exists s, D; by rewrite app_nil_r, list_insert_id by done|].
    assert (Hp0 : (0 < length p)%nat) by (destruct p; [done|simpl; lia]). assert (Hpl : c ++ p = (c ++ take 512 p) ++ drop 512 p) by (by rewrite <- app_assoc, take_drop).
    assert (Hle : (length (c ++ take 512 p) <= length (c ++ p))%nat) by (rewrite !length_app, length_take; lia).
    destruct (iappend_ok s D F T j c (take 512 p) I Hc) as (s1&D1&E1&I1); [unfold flen in *; lia|pose proof (total_mono F j c _ _ Hc Hle); lia|].
    destruct (IH (drop 512 p) s1 D1 (<[j := c ++ take 512 p]> F) T j (c ++ take 512 p)) as (s2&D2&E2&I2);
      [rewrite length_drop; lia|done|apply list_lookup_insert_eq; by eapply lookup_lt_Some|by rewrite <- Hpl|by rewrite list_insert_insert_eq, <- Hpl|].
    exists s2, D2. rewrite list_insert_insert_eq, <- Hpl in I2. split; [|done]. destruct p as [|x p]; [done|]. cbn [copy_loop]. rewrite (mk_bind _ _ _ _ _ E1). exact E2.
Qed.

(** ** The run of [main] *)
Lemma readable_nul n l : readable n (l ++ [0]).
Proof. revert n. induction l as [|c l IH]; intros [|n]; simpl; try done; [by left|]. right. apply IH. Qed.

(** The 14 characters of a name in its entry. *)
Definition dname (name : list Z) : list Z := default [] (strncpy DIRSIZ (name ++ [0])).
Lemma dname_ok name : strncpy DIRSIZ (name ++ [0]) = Some (dname name) /\ length (dname name) = DIRSIZ /\ cname DIRSIZ (dname name) = cname DIRSIZ (name ++ [0]).
Proof. destruct (strncpy_ok DIRSIZ (name ++ [0]) (readable_nul _ _)) as (r&E&Hl&Hr). unfold dname. rewrite E. by cbn. Qed.

Lemma nblk_pos len : 0 <= len -> 0 <= nblk len.
Proof. intros Hl. unfold nblk. sizes. destruct (12 * 512 <? len); zlia. Qed.

Section Run.
Context (host : list Z -> option (list Z)).

Lemma add_file_ok s D r F T name c : image s D (r :: F) T -> host name = Some c -> SLASH ∉ name -> flen c <= MAXFILE * BSIZE -> flen r + 16 <= MAXFILE * BSIZE ->
  let inum := Z.of_nat (S (length (r :: F))) in let r' := r ++ dirent inum (dname (strip name)) in
  inum < NINODES -> nmeta + total (r' :: F ++ [c]) <= FSSIZE ->
  exists s' D', add_file host name s = Done (tt, s') /\ image s' D' (r' :: F ++ [c]) (T ++ [T_FILE]).
Proof.
  intros I Hh Hs Hc Hr inum r' Hn Hsum. pose proof (gd_core _ _ _ _ (im_good I)) as H. destruct (co_files H) as [HF _].
  destruct (dname_ok (strip name)) as (En&Hnl&_). assert (Hde : length (dirent inum (dname (strip name))) = 16%nat) by (unfold dirent; rewrite length_app, Hnl; done).
  assert (Hc0 : 0 <= flen c) by (unfold flen; lia). pose proof (nblk_pos _ Hc0).
  destruct (ialloc_ok s D (r :: F) T T_FILE I) as (s1&D1&E1&I1); [unfold inum in Hn; rewrite HF in Hn; exact Hn|unfold T_FILE; lia|]. rewrite <- HF in E1. fold inum in E1.
  destruct (iappend_ok s1 D1 ((r :: F) ++ [[]]) _ 0 r (dirent inum (dname (strip name))) I1 eq_refl) as (s2&D2&E2&I2).
  { unfold flen in *. rewrite length_app, Hde. lia. }
  { cbn [app insert list_insert total]. fold r'. cbn [total] in Hsum. rewrite total_app in *. cbn [total] in *. change (nblk (flen [])) with 0. lia. }
  cbn [app insert list_insert] in I2. fold r' in I2.
  assert (Hlk : (r' :: F ++ [[]]) !! S (length F) = Some []) by (cbn; by apply list_lookup_middle).
  assert (Eins : <[S (length F) := c]> (r' :: F ++ [[]]) = r' :: F ++ [c]) by (change (r' :: <[length F := c]> (F ++ [[]]) = r' :: F ++ [c]); f_equal; by rewrite insert_app_r_alt, Nat.sub_diag by lia).
  destruct (copy_loop_ok (length c) c s2 D2 _ _ (S (length F)) [] ltac:(lia) I2 Hlk) as (s3&D3&E3&I3); [done|cbn [app]; rewrite Eins; done|].
  cbn [app] in I3. rewrite Eins in I3. exists s3, D3. split; [|done]. unfold add_file. rewrite bool_decide_true by done. rewrite (mk_bind (assert true _) _ s tt s eq_refl), Hh. cbv zeta.
  rewrite (mk_bind _ _ _ _ _ E1), En. change ROOTINO with (Z.of_nat 1). rewrite (mk_bind _ _ _ _ _ E2). exact E3.
Qed.

(** The entries of the files from inode [inum] on. *)
Fixpoint dirents (inum : Z) (names : list (list Z)) : list (list Z) :=
  match names with [] => [] | name :: names => dirent inum (dname (strip name)) :: dirents (inum + 1) names end.
Lemma dirents_length inum names : length (dirents inum names) = length names /\ Forall (fun e => length e = 16%nat) (dirents inum names).
Proof.
  revert inum. induction names as [|name names IH]; intros inum; [done|]. simpl. destruct (IH (inum + 1)) as [-> Hf]. split; [done|]. constructor; [|done].
  unfold dirent. rewrite length_app. by destruct (dname_ok (strip name)) as (_&->&_).
Qed.
Lemma concat_length (n : nat) (l : list (list Z)) : Forall (fun e => length e = n) l -> length (concat l) = (n * length l)%nat.
Proof. induction 1 as [|e l He Hl IH]; simpl; [lia|]. rewrite length_app, IH. lia. Qed.

Lemma add_files_ok names cs : Forall2 (fun name c => host name = Some c /\ SLASH ∉ name /\ flen c <= MAXFILE * BSIZE) names cs -> forall s D r F T, image s D (r :: F) T ->
  let inum := Z.of_nat (S (length (r :: F))) in let r' := r ++ concat (dirents inum names) in
  flen r' <= MAXFILE * BSIZE -> inum + Z.of_nat (length names) <= NINODES -> nmeta + total (r' :: F ++ cs) <= FSSIZE ->
  exists s' D', add_files host names s = Done (tt, s') /\ image s' D' (r' :: F ++ cs) (T ++ replicate (length names) T_FILE).
Proof.
  induction 1 as [|name c names cs (Hh&Hs&Hc) Hall IH]; intros s D r F T I inum r' Hr Hn Hsum.
  - exists s, D. unfold r'. cbn. by rewrite !app_nil_r.
  - cbn [dirents length replicate] in *. set (de := dirent inum (dname (strip name))) in *. assert (Hde : length de = 16%nat) by (unfold de, dirent; rewrite length_app; by destruct (dname_ok (strip name)) as (_&->&_)).
    assert (Er : r' = (r ++ de) ++ concat (dirents (inum + 1) names)) by (unfold r'; cbn [concat]; by rewrite app_assoc).
    assert (Hlr : flen (r ++ de) <= flen r') by (rewrite Er; unfold flen; rewrite !length_app; lia). assert (Hl16 : flen (r ++ de) = flen r + 16) by (unfold flen; rewrite length_app; lia).
    assert (Hcs : 0 <= total cs) by (clear; induction cs as [|x cs IH]; simpl; [lia|]; pose proof (nblk_pos (flen x) ltac:(unfold flen; lia)); lia).
    destruct (add_file_ok s D r F T name c I Hh Hs Hc) as (s1&D1&E1&I1); [lia|cbn [length]; fold inum; lia| |].
    { cbn [length]. fold inum de. cbn [total] in *. rewrite !total_app in *. cbn [total] in *. pose proof (nblk_mono (flen (r ++ de)) (flen r') ltac:(unfold flen in *; lia)). lia. }
    cbn [length] in I1. fold inum de in I1. destruct (IH s1 D1 (r ++ de) (F ++ [c]) (T ++ [T_FILE]) I1) as (s2&D2&E2&I2).
    + replace (Z.of_nat (S (S (length (F ++ [c]))))) with (inum + 1) by (unfold inum; rewrite length_app; simpl; lia). by rewrite <- Er.
    + cbn [length]. rewrite length_app. unfold inum in Hn. simpl in *. lia.
    + replace (Z.of_nat (S (S (length (F ++ [c]))))) with (inum + 1) by (unfold inum; rewrite length_app; simpl; lia). rewrite <- Er, <- app_assoc. done.
    + replace (Z.of_nat (S (S (length (F ++ [c]))))) with (inum + 1) in I2 by (unfold inum; rewrite length_app; simpl; lia).
      rewrite <- Er, <- !app_assoc in I2. exists s2, D2. split; [|exact I2]. cbn [add_files]. rewrite (mk_bind _ _ _ _ _ E1). exact E2.
Qed.

(** The empty image. *)
Lemma zero_loop_ok n i s : length (img s) = i -> zero_loop n (Z.of_nat i) s = Done (tt, s <| img := img s ++ replicate n zeroes |>).
Proof.
  revert i s. induction n as [|n IH]; intros i s Hi; cbn [zero_loop].
  - unfold mret, MK_ret. cbn [replicate]. rewrite app_nil_r. by destruct s.
  - assert (Ew : wsect (Z.of_nat i) zeroes s = Done (tt, s <| img := img s ++ [zeroes] |>)).
    { unfold wsect. rewrite Nat2Z.id, Hi. replace (S i - i)%nat with 1%nat by lia. cbn [replicate]. by rewrite insert_app_r_alt, Hi, Nat.sub_diag by lia. }
    rewrite (mk_bind _ _ _ _ _ Ew). replace (Z.of_nat i + 1) with (Z.of_nat (S i)) by lia. rewrite IH by (cbn [img setf]; rewrite length_app; simpl; lia).
    cbn [img setf]. rewrite <- app_assoc. done.
Qed.

End Run.

(** The image before the first inode. *)
Definition blank_img : list (list Z) := <[1%nat := blit zeroes 0 (sb_bytes sb)]> (replicate (Z.to_nat FSSIZE) zeroes).
Lemma blank_image : image (mkMkfs blank_img 1 nmeta) [] [] [].
Proof.
  assert (Hl : length blank_img = Z.to_nat FSSIZE) by (unfold blank_img; by rewrite length_insert, length_replicate).
  assert (Hz : forall b, (b <> 1)%nat -> (b < Z.to_nat FSSIZE)%nat -> blank_img !! b = Some zeroes).
  { intros b Hb Hlt. unfold blank_img. rewrite list_lookup_insert_ne by done. by apply lookup_replicate. }
  split; cbn [img freeblock freeinode length]; try done.
  - split; [|done]. split; try done.
    + apply Forall_insert; [by apply Forall_replicate|]. rewrite length_blit; [done|]. vm_compute. lia.
    + intros b Hb. apply Hz; sizes; lia.
  - intros b Hb. case_decide as E; [subst b; unfold blank_img; apply list_lookup_insert_eq; rewrite length_replicate; sizes; lia|]. apply Hz; [done|sizes; lia].
Qed.

Lemma build_blank : (zero_loop (Z.to_nat FSSIZE) 0 ;; wsect 1 (blit zeroes 0 (sb_bytes sb))) (mkMkfs [] 1 nmeta) = Done (tt, mkMkfs blank_img 1 nmeta).
Proof.
  rewrite (mk_bind _ _ _ _ _ (zero_loop_ok (Z.to_nat FSSIZE) 0 (mkMkfs [] 1 nmeta) eq_refl)). cbn [img setf app].
  apply wsect_ok. cbn [img setf]. rewrite length_replicate. sizes. lia.
Qed.

(** The directory is filled up with unused entries. *)
Definition padded (r : list Z) : list Z := r ++ replicate (512 - length r `mod` 512) 0.
Lemma flen_padded r : flen (padded r) = (flen r / BSIZE + 1) * BSIZE.
Proof. unfold flen, padded. rewrite length_app, length_replicate. sizes. rewrite Nat2Z.inj_add, Nat2Z.inj_sub, Nat2Z.inj_mod by (pose proof (Nat.mod_upper_bound (length r) 512); lia). zlia. Qed.

Lemma core_pad m fb D F N j c k : core m fb D F N -> F !! j = Some c -> core m fb D (<[j := c ++ replicate k 0]> F) N.
Proof.
  intros H Hc. split; rewrite ?length_insert; try apply H. intros i d c' off Hd [(->&<-&_)|(Hne&Hc')]%list_lookup_insert_Some Ho Hnz; [|by apply (co_bytes H i d)].
  rewrite (co_bytes H i d c off) by done. f_equal. destruct (decide (Z.to_nat off < length c)%nat); [by rewrite lookup_app_l|]. rewrite lookup_app_r, (lookup_ge_None_2 c) by lia.
  destruct (replicate k 0 !! _) as [y|] eqn:Ey; [by apply lookup_replicate_1 in Ey as [-> _]|done].
Qed.

Lemma fix_root_ok s D r F T : image s D (r :: F) T -> flen r `mod` BSIZE <> 0 -> flen r <= MAXFILE * BSIZE ->
  exists s' D', fix_root ROOTINO s = Done (tt, s') /\ image s' D' (padded r :: F) T /\ freeblock s' = freeblock s.
Proof.
  intros I Hmod Hr. pose proof (im_good I) as G. pose proof (gd_core _ _ _ _ G) as H. destruct (co_files H) as [HF _].
  destruct D as [|d D]; [done|]. destruct (im_shape I 0 d r eq_refl eq_refl) as (t&l&Ht&Ed). pose proof (flen_padded r) as Hp. assert (Hr0 : 0 <= flen r) by (unfold flen; lia).
  pose proof (co_addrs H 0 d eq_refl) as Hl. pose proof (addrs_small _ _ _ _ _ 0 d H eq_refl) as Hs. rewrite Ed in Hl, Hs. cbn [i_addrs shape] in Hl, Hs.
  destruct (winode_ok s 0 t (padded r) l) as (m'&E2&Hl2&Hb2&Hlo2&Hnew&Hold); [apply H|apply H|sizes; lia|done|done|exact (proj1 (Forall_lookup _ _) (proj2 (im_types I)) _ _ Ht)|sizes; zlia|].
  set (d2 := shape 0 t (padded r) l) in *. exists (s <| img := m' |>), (d2 :: D). split; [|split; [|done]].
  - unfold fix_root, rinode. pose proof (IBLOCK_eq ROOTINO ltac:(unfold ROOTINO; sizes; lia)) as Eb.
    rewrite (mk_bind _ _ _ _ s (mk_bind _ _ _ _ _ (rsect_ok s (IBLOCK ROOTINO sb) ltac:(rewrite (co_len H), Eb; unfold ROOTINO; sizes; zlia)))).
    fold (node sb (V (img s)) ROOTINO). change ROOTINO with (Z.of_nat 1). rewrite (im_stored I 0 d eq_refl). cbv zeta.
    assert (Ex : xint (i_size d) = flen r) by (rewrite xint_eq, Ed; apply u32_small; sizes; cbn; lia). rewrite Ex, xint_eq, u32_idemp, u32_small, <- Hp by (sizes; zlia). rewrite Ed. exact E2.
  - assert (HD : Forall2 (fun d d' => i_addrs d' = i_addrs d) (d :: D) (d2 :: D)) by (constructor; [by rewrite Ed|apply Forall2_addrs]).
    split; cbn [img freeblock freeinode setf].
    + assert (Enb : nblk (flen (padded r)) = nblk (flen r)) by (rewrite Hp; unfold nblk; sizes; destruct (Z.ltb_spec (12 * 512) (flen r)), (Z.ltb_spec (12 * 512) ((flen r / 512 + 1) * 512)); zlia).
      split; [|rewrite (gd_fb _ _ _ _ G); cbn [total]; by rewrite Enb].
      eapply core_low; [|exact Hl2|exact Hb2|intros b Hb; apply Hlo2; lia|exact HD].
      eapply core_ext; [exact (core_pad _ _ _ _ _ 0 r (512 - length r `mod` 512) H eq_refl)|done|]. intros j P Q n HP HQ Hn. destruct j as [|j]; cbn in HP, HQ; simplify_eq; [|done].
      fold (padded r). rewrite Hp. unfold need. sizes. case_decide; zlia.
    + exact (im_types I).
    + intros [|j] e c He Hc; cbn in He, Hc; simplify_eq; [by exists t, l|]. by apply (im_shape I (S j)).
    + intros [|j] e He; cbn in He; simplify_eq; [done|]. rewrite Hold; [by apply (im_stored I (S j))|done|].
      destruct (im_inum I) as [Hfi HfN]. apply lookup_lt_Some in He. cbn [length] in *. lia.
    + exact (im_inum I).
    + intros b Hb. rewrite Hlo2 by lia. by apply (im_head I).
Qed.

Lemma mark_used_ok n i buf b : 0 <= i -> 0 <= b ->
  bit_at (mark_used n i buf) b = if decide (i <= b < i + Z.of_nat n) then (fun _ => true) <$> bit_at buf b else bit_at buf b.
Proof.
  revert i buf. induction n as [|n IH]; intros i buf Hi Hb; cbn [mark_used]; [by rewrite decide_False by lia|].
  rewrite IH by lia. rewrite bit_at_set by done. destruct (decide (i = b)) as [->|].
  - rewrite decide_False by lia. by rewrite decide_True by lia.
  - destruct (decide (i + 1 <= b < i + 1 + Z.of_nat n)); [by rewrite decide_True by lia|by rewrite decide_False by lia].
Qed.
Lemma mark_used_length n i buf : length (mark_used n i buf) = length buf.
Proof. revert i buf. induction n as [|n IH]; intros i buf; simpl; [done|]. rewrite IH. unfold set_bit. apply length_alter. Qed.

Lemma balloc_ok s D F T : image s D F T -> exists m', balloc (freeblock s) s = Done (tt, s <| img := m' |>) /\ image (s <| img := m' |>) D F T /\
  forall b, 0 <= b < FSSIZE -> bit_of sb (V m') b = Some (b <? freeblock s).
Proof.
  intros I. pose proof (im_good I) as G. pose proof (gd_core _ _ _ _ G) as H. pose proof (co_fb H) as Hfb. set (buf := mark_used (Z.to_nat (freeblock s)) 0 zeroes).
  assert (Hbl : length buf = 512%nat) by (unfold buf; by rewrite mark_used_length). assert (Hin : 0 <= 58 < Z.of_nat (length (img s))) by (rewrite (co_len H); sizes; lia).
  exists (<[58%nat := buf]> (img s)). split; [|split].
  - unfold balloc. rewrite (proj2 (Z.ltb_lt _ _)) by (sizes; lia). rewrite (mk_bind (assert true _) _ s tt s eq_refl). exact (wsect_ok s 58 buf Hin).
  - split; cbn [img freeblock freeinode setf]; try apply I.
    + split; [|apply G]. eapply core_low; [exact H|by rewrite length_insert| |intros b Hb; by rewrite list_lookup_insert_ne by lia|apply Forall2_addrs].
      apply Forall_insert; [apply H|done].
    + intros j d Hd. rewrite <- (im_stored I j d Hd). destruct (im_inum I) as [Hfi HfN]. pose proof (lookup_lt_Some _ _ _ Hd).
      unfold node, blk. cbn [v_disk]. pose proof (IBLOCK_eq (Z.of_nat (S j)) ltac:(lia)) as Eb. rewrite list_lookup_insert_ne; [done|]. sizes. zlia.
    + intros b Hb. rewrite list_lookup_insert_ne by lia. by apply (im_head I).
  - intros b Hb. unfold bit_of, BBLOCK. change (sb_bmapstart sb) with 58. replace (u32 (b `div` BPB + 58)) with 58 by (unfold BPB; sizes; zlia).
    replace (b `mod` BPB) with b by (unfold BPB; sizes; zlia). unfold blk. cbn [v_disk]. change (Z.to_nat 58) with 58%nat. rewrite list_lookup_insert_eq by lia. change (default [] (Some buf)) with buf.
    unfold buf. rewrite mark_used_ok by lia. assert (E0 : bit_at zeroes b = Some false) by (rewrite bit_at_eq by lia; unfold zeroes; rewrite lookup_replicate_2 by (sizes; zlia); cbn; by rewrite Z.bits_0).
    rewrite E0. rewrite Z2Nat.id by (sizes; lia). destruct (Z.ltb_spec b (freeblock s)); [by rewrite decide_True by lia|by rewrite decide_False by lia].
Qed.

(** ** What the kernel finds *)
Section Finished.
Context (s : mkfs) (D : list inode) (F : list (list Z)) (T : list Z) (I : image s D F T).
Context (Hbits : forall b, 0 <= b < FSSIZE -> bit_of sb (V (img s)) b = Some (b <? freeblock s)).
Context (Hsizes : Forall (fun c => flen c <= MAXFILE * BSIZE) F).
Abbreviation v := (V (img s)).
Abbreviation inum j := (Z.of_nat (S j)).

Lemma the_core : core (img s) (freeblock s) D F ((fun c => need (flen c)) <$> F).
Proof. exact (gd_core _ _ _ _ (im_good I)). Qed.

Lemma made_fs_ok : fs_ok sb v.
Proof.
  pose proof the_core as H. pose proof (co_fb H). split; cbn [v_disk].
  - rewrite (co_len H). change (sb_size sb) with 1000. sizes. lia.
  - intros bn d Hd. exact (proj1 (Forall_lookup _ _) (co_blocks H) _ _ Hd).
  - intros b Hb. change (datastart sb) with 59 in Hb. unfold in_use. rewrite Hbits by (sizes; lia). f_equal. apply Z.ltb_lt. sizes. lia.
Qed.

Lemma made_node j c : F !! j = Some c -> exists d t l, D !! j = Some d /\ T !! j = Some t /\ node sb v (inum j) = d /\ d = shape j t c l.
Proof.
  intros Hc. destruct (co_files the_core) as [HF _]. destruct (lookup_lt_is_Some_2 D j) as [d Hd]; [rewrite <- HF; by eapply lookup_lt_Some|].
  destruct (im_shape I j d c Hd Hc) as (t&l&Ht&E). exists d, t, l. split_and!; try done. by apply (im_stored I).
Qed.

Lemma made_inode_ok j c : F !! j = Some c -> inode_ok sb v (node sb v (inum j)).
Proof.
  intros Hc. destruct (made_node j c Hc) as (d&t&l&Hd&Ht&->&Ed). pose proof the_core as H. pose proof (co_fb H) as Hfb.
  pose proof (proj1 (Forall_lookup _ _) Hsizes _ _ Hc) as Hsz. cbn beta in Hsz. assert (Hs : i_size d = flen c) by (by rewrite Ed).
  assert (HP : ((fun c => need (flen c)) <$> F) !! j = Some (need (flen c))) by (by rewrite list_lookup_fmap, Hc).
  split; rewrite ?Hs.
  - by apply (co_addrs H j).
  - by rewrite Ed.
  - unfold flen in *. lia.
  - intros n Hn Hnz. pose proof (co_range H j d n Hd Hn Hnz) as Hr. change (datastart sb) with 59. change (sb_size sb) with 1000. sizes. split; [lia|].
    unfold in_use. rewrite Hbits by (sizes; lia). f_equal. apply Z.ltb_lt. lia.
  - intros n n' Hn Hn' Hnz E. by destruct (co_inj H j d n j d n' Hd Hd Hn Hn' Hnz E).
  - intros n Hn Hlt. assert (Hn' : 0 <= n <= MAXFILE) by (sizes; lia). apply (co_used H j d _ n Hd HP Hn'). unfold need. rewrite decide_False by (sizes; lia). done.
Qed.

(** The bytes of a file. *)
Lemma made_slice j c off n : F !! j = Some c -> (off + n <= length c)%nat -> slice v (node sb v (inum j)) (Z.of_nat off) n = take n (drop off c).
Proof.
  intros Hc Hle. destruct (made_node j c Hc) as (d&t&l&Hd&Ht&->&Ed). pose proof the_core as H. pose proof (proj1 (Forall_lookup _ _) Hsizes _ _ Hc) as Hsz. cbn beta in Hsz.
  assert (HP : ((fun c => need (flen c)) <$> F) !! j = Some (need (flen c))) by (by rewrite list_lookup_fmap, Hc).
  apply list_eq. intros k. unfold slice. rewrite list_lookup_fmap. destruct (decide (k < n)%nat) as [Hk|Hk].
  - rewrite lookup_seq_lt by done. cbn [fmap option_fmap option_map]. rewrite lookup_take_lt, lookup_drop by done. destruct (lookup_lt_is_Some_2 c (off + k)) as [y Hy]; [lia|]. rewrite Hy.
    rewrite (co_bytes H j d c) by (done || (unfold flen in *; lia) ||
      (apply (co_used H j d _ _ Hd HP); [unfold flen in *; sizes; zlia|unfold need; rewrite decide_False by (unfold flen in *; sizes; zlia); unfold flen in *; sizes; zlia])).
    cbn [default]. replace (Z.to_nat (Z.of_nat off + Z.of_nat (0 + k))) with (off + k)%nat by lia. by rewrite Hy.
  - rewrite lookup_seq_ge by lia. cbn. symmetry. apply lookup_ge_None_2. rewrite length_take. lia.
Qed.

(** The entries of a directory. *)
Lemma made_entries j es : F !! j = Some (concat es) -> Forall (fun e => length e = 16%nat) es -> entries v (node sb v (inum j)) = es.
Proof.
  intros Hc Hes. destruct (made_node j _ Hc) as (d&t&l&Hd&Ht&En&Ed). pose proof (concat_length 16 es Hes) as Hl.
  assert (Hne : nents (node sb v (inum j)) = length es) by (rewrite En, Ed; unfold nents; cbn [i_size shape]; unfold flen, SIZEOF_DIRENT; rewrite Hl; zlia).
  apply list_eq. intros k. unfold entries. rewrite list_lookup_fmap, Hne. destruct (decide (k < length es)%nat) as [Hk|Hk].
  - rewrite lookup_seq_lt by done. cbn [fmap option_fmap option_map]. destruct (lookup_lt_is_Some_2 es k Hk) as [e He]. rewrite He. f_equal. unfold entry.
    replace (16 * Z.of_nat (0 + k)) with (Z.of_nat (16 * k)) by lia. rewrite (made_slice j (concat es)) by (done || lia).
    assert (He16 : length e = 16%nat) by exact (proj1 (Forall_lookup _ _) Hes _ _ He). rewrite <- (take_drop_middle es k e He), concat_app. cbn [concat].
    assert (Htk : length (concat (take k es)) = (16 * k)%nat) by (rewrite (concat_length 16) by (by apply Forall_take); rewrite length_take; lia).
    rewrite drop_app_length' by lia. apply take_app_length'. lia.
  - rewrite lookup_seq_ge by lia. cbn. symmetry. apply lookup_ge_None_2. lia.
Qed.

Lemma made_disjoint j j' c c' k k' : F !! j = Some c -> F !! j' = Some c' -> 0 <= k <= MAXFILE -> 0 <= k' <= MAXFILE ->
  slot v (node sb v (inum j)) k <> 0 -> slot v (node sb v (inum j)) k = slot v (node sb v (inum j')) k' -> j = j' /\ k = k'.
Proof.
  intros Hc Hc' Hk Hk'. destruct (made_node j c Hc) as (d&?&?&Hd&_&->&_). destruct (made_node j' c' Hc') as (d'&?&?&Hd'&_&->&_). by apply (co_inj the_core).
Qed.

End Finished.

(** ** The root directory *)
Lemma cname_nul n l : 0 ∉ l -> cname n (l ++ [0]) = take n l.
Proof.
  revert n. induction l as [|c l IH]; intros [|n] H0; simpl; try done. apply not_elem_of_cons in H0 as [Hc H0]. rewrite (proj2 (Z.eqb_neq c 0)) by done. f_equal. by apply IH.
Qed.
Lemma de_inum_dirent n l : 0 <= n < 2 ^ 16 -> de_inum (dirent n l) = n.
Proof. intros Hn. unfold de_inum, dirent. rewrite get16_le16, xshort_eq, u16_idemp. by apply u16_small. Qed.

Lemma dirents_lookup k i names : dirents i names !! k = (fun name => dirent (i + Z.of_nat k) (dname (strip name))) <$> names !! k.
Proof.
  revert k i. induction names as [|name names IH]; intros [|k] i; simpl; try done; [by rewrite Z.add_0_r|]. rewrite IH. by replace (i + 1 + Z.of_nat k) with (i + Z.of_nat (S k)) by lia.
Qed.

(** The name a file has in the image. *)
Definition shown (name : list Z) : list Z := take DIRSIZ (strip name).
Definition root_entries (names : list (list Z)) : list (list Z) := dirent 1 (cname14 [46]) :: dirent 1 (cname14 [46; 46]) :: dirents 2 names.

Section Root.
Context (names : list (list Z)) (Hn : Z.of_nat (length names) < 1000) (H0 : Forall (fun name => 0 ∉ name /\ shown name <> [46] /\ shown name <> [46; 46]) names).

Lemma root_lookup k e : root_entries names !! k = Some e ->
  1 <= de_inum e <= 1 + Z.of_nat (length names) /\
  (match k with
   | O => cname DIRSIZ (de_name e) = [46]
   | S O => cname DIRSIZ (de_name e) = [46; 46]
   | S (S k) => exists name, names !! k = Some name /\ de_inum e = 2 + Z.of_nat k /\ cname DIRSIZ (de_name e) = shown name
   end).
Proof.
  destruct k as [|[|k]]; cbn [root_entries lookup list_lookup]; [intros [= <-]; split; [rewrite de_inum_dirent; lia|done]..|].
  rewrite dirents_lookup. intros (name&Hk&->)%fmap_Some. pose proof (lookup_lt_Some _ _ _ Hk). rewrite de_inum_dirent by lia. split; [lia|].
  exists name. split_and!; try done. change (de_name (dirent (2 + Z.of_nat k) (dname (strip name)))) with (dname (strip name)). destruct (dname_ok (strip name)) as (_&_&->).
  apply cname_nul. pose proof (proj1 (Forall_lookup _ _) H0 _ _ Hk) as (Hz&_). destruct name as [|[|p|p] name]; try done. unfold strip. repeat case_match; try done; set_solver.
Qed.

Abbreviation all q := (root_entries names ++ replicate q (replicate 16 0)).

Lemma root_used q k e nm : all q !! k = Some e -> is_entry nm e = true -> root_entries names !! k = Some e /\ cname DIRSIZ (de_name e) = nm.
Proof.
  intros Hk. unfold is_entry. rewrite andb_true_iff, negb_true_iff, Z.eqb_neq, bool_decide_eq_true. intros [Hz Hnm]. split; [|done].
  apply lookup_app_Some in Hk as [?|[_ Hk]]; [done|]. by apply lookup_replicate_1 in Hk as [-> _].
Qed.

Lemma root_range q nm m : dmap (all q) nm = Some m -> 1 <= m <= 1 + Z.of_nat (length names).
Proof.
  unfold dmap. destruct (find_index _ _) as [k|] eqn:Ef; [|done]. apply find_index_Some in Ef as (e&He&Hp&_). cbn [mbind option_bind]. rewrite He. intros [= <-].
  destruct (root_used q k e nm He Hp) as [Hr _]. by destruct (root_lookup k e Hr).
Qed.

Lemma root_finds q k name : NoDup (shown <$> names) -> names !! k = Some name -> dmap (all q) (shown name) = Some (2 + Z.of_nat k).
Proof.
  intros Hd Hk. set (e := dirent (2 + Z.of_nat k) (dname (strip name))). assert (He : root_entries names !! S (S k) = Some e) by (cbn; by rewrite dirents_lookup, Hk).
  destruct (root_lookup _ _ He) as [Hr (name'&Hk'&Hi&Hc)]. simplify_eq. unfold dmap. rewrite (find_index_unique _ _ (S (S k)) e).
  - cbn [mbind option_bind]. rewrite (lookup_app_l_Some _ _ _ _ He). exact (f_equal Some Hi).
  - by apply lookup_app_l_Some.
  - unfold is_entry. rewrite Hi, Hc, bool_decide_true by done. rewrite (proj2 (Z.eqb_neq _ _)) by lia. done.
  - intros j e' He' Hp. destruct (root_used q j e' _ He' Hp) as [Hr' Hnm]. destruct (root_lookup j e' Hr') as [_ Hj]. pose proof (proj1 (Forall_lookup _ _) H0 _ _ Hk) as (_&Hd1&Hd2).
    destruct j as [|[|j]]; [congruence..|]. destruct Hj as (name2&Hj&_&Hc2). do 2 f_equal. eapply (NoDup_lookup _ _ _ (shown name) Hd); rewrite list_lookup_fmap; [rewrite Hj; exact (f_equal Some (eq_trans (eq_sym Hc2) Hnm))|by rewrite Hk].
Qed.
End Root.

(** What mkfs needs: room for the files and their names; see [full_root] for [bu_root]. *)
Record buildable (names cs : list (list Z)) : Prop := {
  bu_number : 1 + Z.of_nat (length names) < NINODES;
  bu_names : Forall (fun name => SLASH ∉ name /\ 0 ∉ name /\ shown name <> [46] /\ shown name <> [46; 46]) names;
  bu_distinct : NoDup (shown <$> names);
  bu_sizes : Forall (fun c => flen c <= MAXFILE * BSIZE) cs;
  bu_root : (Z.of_nat (length names) + 2) `mod` 32 <> 0;
  bu_room : nmeta + nblk (16 * (Z.of_nat (length names) + 2)) + total cs <= FSSIZE;
}.

Lemma build_ok host names cs : Forall2 (fun name c => host name = Some c) names cs -> buildable names cs ->
  exists s D, build host names (mkMkfs [] 1 nmeta) = Done (tt, s) /\ image s D (padded (concat (root_entries names)) :: cs) (T_DIR :: replicate (length names) T_FILE) /\
    (forall b, 0 <= b < FSSIZE -> bit_of sb (V (img s)) b = Some (b <? freeblock s)).
Proof.
  intros Hh B. destruct B as [Bn Bm Bd Bs Br Bo]. assert (Hes : Forall (fun e => length e = 16%nat) (root_entries names)) by (repeat constructor; apply dirents_length).
  assert (Hlr : flen (concat (root_entries names)) = 16 * (Z.of_nat (length names) + 2)).
  { unfold flen. rewrite (concat_length 16) by done. cbn [root_entries length]. rewrite (proj1 (dirents_length 2 names)). lia. }
  assert (Hall : Forall2 (fun name c => host name = Some c /\ SLASH ∉ name /\ flen c <= MAXFILE * BSIZE) names cs).
  { apply Forall2_same_length_lookup. split; [by eapply Forall2_length|]. intros k name c Hk Hc. split_and!; [exact (Forall2_lookup_lr _ _ _ _ _ _ Hh Hk Hc)| |].
    - exact (proj1 (proj1 (Forall_lookup _ _) Bm _ _ Hk)).
    - exact (proj1 (Forall_lookup _ _) Bs _ _ Hc). }
  set (dot := dirent 1 (cname14 [46])). set (dotdot := dirent 1 (cname14 [46; 46])).
  assert (Er : concat (root_entries names) = (dot ++ dotdot) ++ concat (dirents 2 names)) by (cbn [root_entries concat]; by rewrite app_assoc).
  assert (Hcs : 0 <= total cs) by (clear; induction cs as [|x cs IH]; simpl; [lia|]; pose proof (nblk_pos (flen x) ltac:(unfold flen; lia)); lia).
  destruct (ialloc_ok _ _ _ _ T_DIR blank_image ltac:(sizes; cbn; lia) ltac:(unfold T_DIR; lia)) as (s1&D1&E1&I1). cbn [app] in I1.
  destruct (iappend_ok s1 D1 [[]] [T_DIR] 0 [] dot I1 eq_refl) as (s2&D2&E2&I2); [vm_compute; discriminate..|].
  destruct (iappend_ok s2 D2 [dot] [T_DIR] 0 dot dotdot I2 eq_refl) as (s3&D3&E3&I3); [vm_compute; discriminate..|].
  destruct (add_files_ok host names cs Hall s3 D3 (dot ++ dotdot) [] [T_DIR] I3) as (s4&D4&E4&I4); cbn [length app] in *; change (Z.of_nat 2) with 2 in *; rewrite <- ?Er in *.
  { rewrite Hlr. sizes. lia. }
  { lia. }
  { cbn [total]. rewrite Hlr. lia. }
  destruct (fix_root_ok s4 D4 _ cs _ I4) as (s5&D5&E5&I5&Ef); [rewrite Hlr; sizes; zlia|rewrite Hlr; sizes; lia|].
  destruct (balloc_ok s5 D5 _ _ I5) as (m'&E6&I6&Hb). exists (s5 <| img := m' |>), D5. split; [|by split].
  unfold build. rewrite mk_seq, (mk_bind _ _ _ _ _ build_blank), (mk_bind _ _ _ _ _ E1). cbn [length]. change (Z.of_nat 1 =? ROOTINO) with true. rewrite (mk_bind (assert true _) _ s1 tt s1 eq_refl).
  change (Z.of_nat 1) with 1 in *. fold dot dotdot. rewrite (mk_bind _ _ _ _ _ E2), (mk_bind _ _ _ _ _ E3), (mk_bind _ _ _ _ _ E4). change 1 with ROOTINO. rewrite (mk_bind _ _ _ _ _ E5). exact E6.
Qed.

(** The padding is a whole number of unused entries. *)
Lemma padded_entries es : Forall (fun e => length e = 16%nat) es -> exists q, padded (concat es) = concat (es ++ replicate q (replicate 16 0)).
Proof.
  intros He. exists ((512 - length (concat es) `mod` 512) / 16)%nat. unfold padded. rewrite concat_app. f_equal. rewrite (concat_length 16) by done.
  set (k := (512 - (16 * length es) `mod` 512)%nat). assert (Ek : k = (16 * (k / 16))%nat).
  { pose proof (Nat.div_mod_eq (16 * length es) 512) as Hd. pose proof (Nat.mod_upper_bound (16 * length es) 512 ltac:(lia)).
    assert (E : k = ((32 - (length es - 32 * ((16 * length es) / 512))) * 16)%nat) by (unfold k; lia). rewrite E, Nat.div_mul by lia. lia. }
  rewrite Ek at 1. generalize (k / 16)%nat. clear. intros q. induction q as [|q IH]; [done|]. replace (16 * S q)%nat with (16 + 16 * q)%nat by lia. rewrite replicate_add, IH. done.
Qed.

(** C7: The image mkfs builds is a file system the kernel can run on, with the
    files it was given.  For any files that fit (at most 198, of at most 140
    blocks each, 941 blocks in all with the root directory; distinct names
    without slashes and NULs, not . or ..), and whose number plus two is not a
    multiple of 32 - when the entries of the root directory fill their last
    block exactly the image is broken, see [full_root] - mkfs succeeds, and on the image the kernel finds: the
    superblock; an empty log; the invariants of the block allocator; a tree of
    inodes with the root directory and one inode per file; each name, without its
    leading underscore, resolves to the inode of its file, whose size and bytes
    are those of the file; no block belongs to two files; and exactly the blocks
    after the last one used are free. *)
Theorem mkfs_image host prog out names cs :
  Forall2 (fun name c => host name = Some c) names cs -> buildable names cs ->
  exists s, main host true (prog :: out :: names) = Done s /\
    let v := mkView [] (img s) [] [] [] in
    superblock_of (blk v 1) = sb /\ hb_n (blk v (sb_logstart sb)) = 0 /\
    (forall l0, l_start l0 = sb_logstart sb -> layout l0 sb) /\ fs_ok sb v /\
    tree sb v (fun n => 1 <= n <= 1 + Z.of_nat (length names)) /\
    (forall k name c, names !! k = Some name -> cs !! k = Some c -> let n := 2 + Z.of_nat k in
      resolve sb v false ROOTINO [strip name] = Some n /\ i_type (node sb v n) = T_FILE /\ i_size (node sb v n) = flen c /\
      slice v (node sb v n) 0 (length c) = c) /\
    (forall n n' k k', 1 <= n <= 1 + Z.of_nat (length names) -> 1 <= n' <= 1 + Z.of_nat (length names) -> 0 <= k <= MAXFILE -> 0 <= k' <= MAXFILE ->
      slot v (node sb v n) k <> 0 -> slot v (node sb v n) k = slot v (node sb v n') k' -> n = n' /\ k = k') /\
    (forall b, 0 <= b < FSSIZE -> free sb v b <-> nmeta + nblk (16 * (Z.of_nat (length names) + 2)) + total cs <= b).
Proof.
  intros Hh B. destruct (build_ok host names cs Hh B) as (s&D&E&I&Hb). exists s. split; [unfold main; cbn [negb]; by rewrite E|]. cbv zeta. destruct B as [Bn Bm Bd Bs Br Bo].
  assert (Hes : Forall (fun e => length e = 16%nat) (root_entries names)) by (repeat constructor; apply dirents_length).
  assert (Hlr : flen (concat (root_entries names)) = 16 * (Z.of_nat (length names) + 2)).
  { unfold flen. rewrite (concat_length 16) by done. cbn [root_entries length]. rewrite (proj1 (dirents_length 2 names)). lia. }
  pose proof (flen_padded (concat (root_entries names))) as Hlp. rewrite Hlr in Hlp. pose proof (Forall2_length _ _ _ Hh) as Hlc. clear E Hh.
  destruct (padded_entries _ Hes) as [q Eq]. set (es := root_entries names ++ replicate q (replicate 16 0)) in *.
  assert (Hes' : Forall (fun e => length e = 16%nat) es) by (apply Forall_app; split; [done|by apply Forall_replicate]).
  assert (Hsz : Forall (fun c => flen c <= MAXFILE * BSIZE) (padded (concat (root_entries names)) :: cs)) by (constructor; [rewrite Hlp; sizes; zlia|done]).
  assert (Hroot : entries (V (img s)) (node sb (V (img s)) 1) = es) by (apply (made_entries s D _ _ I Hsz 0 es); [by rewrite <- Eq|done]).
  destruct (made_node s D _ _ I 0 _ eq_refl) as (d0&t0&l0&_&Ht0&En0&Ed0). cbn in Ht0. injection Ht0 as <-. change (Z.of_nat 1) with 1 in En0.
  assert (Hnm : Forall (fun name => 0 ∉ name /\ shown name <> [46] /\ shown name <> [46; 46]) names) by (eapply Forall_impl; [exact Bm|naive_solver]).
  assert (Hn1000 : Z.of_nat (length names) < 1000) by (sizes; lia).
  assert (Hidx : forall n, 1 <= n <= 1 + Z.of_nat (length names) -> exists j c, n = Z.of_nat (S j) /\ (padded (concat (root_entries names)) :: cs) !! j = Some c).
  { intros n Hn. exists (Z.to_nat (n - 1)). destruct (lookup_lt_is_Some_2 (padded (concat (root_entries names)) :: cs) (Z.to_nat (n - 1))) as [c Hc]; [cbn [length]; lia|]. exists c. split; [lia|done]. }
  assert (Hdir : forall nm, dir_map sb (V (img s)) 1 nm = dmap es nm) by (intros nm; unfold dir_map; by rewrite Hroot).
  assert (Hty : forall k c, cs !! k = Some c -> exists l, node sb (V (img s)) (2 + Z.of_nat k) = shape (S k) T_FILE c l).
  { intros k c Hc. destruct (made_node s D _ _ I (S k) c Hc) as (d&t&l&_&Ht&En&Ed). cbn in Ht. apply lookup_replicate_1 in Ht as [-> _]. exists l. by replace (2 + Z.of_nat k) with (Z.of_nat (S (S k))) by lia; rewrite En. }
  split_and!.
  - unfold blk. cbn [v_disk]. change (Z.to_nat 1) with 1%nat. rewrite (im_head I 1) by lia. vm_compute. reflexivity.
  - unfold blk. cbn [v_disk]. change (Z.to_nat (sb_logstart sb)) with 2%nat. rewrite (im_head I 2) by lia. vm_compute. reflexivity.
  - intros l E0. change (sb_logstart sb) with 2 in E0. split; rewrite ?E0; vm_compute; done.
  - exact (made_fs_ok s D _ _ I Hb).
  - split.
    + change (sb_ninodes sb) with 200. intros n Hn. sizes. lia.
    + intros n Hn. destruct (Hidx n Hn) as (j&c&->&Hc). by apply (made_inode_ok s D _ _ I Hb Hsz j c).
    + intros n Hn. destruct (Hidx n Hn) as (j&c&->&Hc). destruct (made_node s D _ _ I j c Hc) as (d&t&l&_&Ht&->&->). cbn [i_type i_nlink shape]. split; [|done].
      destruct j; cbn in Ht; [injection Ht as <-; discriminate|]. apply lookup_replicate_1 in Ht as [-> _]. discriminate.
    + intros n Hn Hd. destruct (Hidx n Hn) as (j&c&->&Hc). destruct (made_node s D _ _ I j c Hc) as (d&t&l&_&Ht&Ej&Ed). rewrite Ej, Ed in Hd |- *. cbn [i_type i_size shape] in Hd |- *. subst t.
      destruct j; [|cbn in Ht; apply lookup_replicate_1 in Ht as [? _]; discriminate]. change (Some (padded (concat (root_entries names))) = Some c) in Hc. apply (inj Some) in Hc. rewrite <- Hc, Hlp. unfold SIZEOF_DIRENT. sizes. zlia.
    + intros n nm m Hn Hd. destruct (Hidx n Hn) as (j&c&->&Hc). destruct (made_node s D _ _ I j c Hc) as (d&t&l&_&Ht&Ej&Ed). rewrite Ej, Ed in Hd. cbn [i_type shape] in Hd. subst t.
      destruct j; [|cbn in Ht; apply lookup_replicate_1 in Ht as [? _]; discriminate]. change (Z.of_nat 1) with 1. rewrite Hdir. intros Hm. exact (root_range names Hn1000 Hnm q nm m Hm).
  - intros k name c Hk Hc. destruct (Hty k c Hc) as [l Ek]. rewrite Ek. cbn [i_type i_size shape]. split; [|split; [reflexivity|split; [reflexivity|]]].
    + cbn [resolve]. change ROOTINO with 1. rewrite En0, Ed0. cbn [i_type shape]. rewrite Z.eqb_refl. cbn [andb]. rewrite Hdir. fold (shown name).
      unfold es. rewrite (root_finds names Hn1000 Hnm q k name Bd Hk). done.
    + rewrite <- Ek. replace (2 + Z.of_nat k) with (Z.of_nat (S (S k))) by lia. change 0 with (Z.of_nat 0) at 1. rewrite (made_slice s D _ _ I Hsz (S k) c 0 (length c) Hc) by lia. rewrite drop_0. apply firstn_all.
  - intros n n' k k' Hn Hn' Hkr Hkr' Hnz E'. destruct (Hidx n Hn) as (j&c&->&Hc). destruct (Hidx n' Hn') as (j'&c'&->&Hc').
    destruct (made_disjoint s D _ _ I j j' c c' k k' Hc Hc' Hkr Hkr' Hnz E') as [-> ->]. split; reflexivity.
  - intros b Hbr. unfold free. rewrite Hb by done. pose proof (gd_fb _ _ _ _ (im_good I)) as Hfb. cbn [total] in Hfb. rewrite Hfb.
    assert (Enb : nblk (flen (padded (concat (root_entries names)))) = nblk (16 * (Z.of_nat (length names) + 2))).
    { rewrite Hlp. unfold nblk. sizes. destruct (Z.ltb_spec (12 * 512) (16 * (Z.of_nat (length names) + 2))), (Z.ltb_spec (12 * 512) ((16 * (Z.of_nat (length names) + 2) / 512 + 1) * 512)); zlia. }
    rewrite Enb. split; [intros [= Hlt%Z.ltb_ge]; lia|]. intros Hle. f_equal. apply Z.ltb_ge. lia.
Qed.

(** With 30 files the entries of the root directory fill its block exactly.  The
    size is rounded up all the same: the directory then ends in a block it does
    not have, which the kernel allocates when it reads there, and outside a
    transaction (a program that reads the directory) this is a panic. *)
Example full_root :
  match main (fun _ => Some []) true ([] :: [] :: ((fun k => [97; Z.of_nat k + 65]) <$> seq 0 30)) with
  | Done s => let v := mkView [] (img s) [] [] [] in Some (i_size (node sb v 1), slot v (node sb v 1) 0, slot v (node sb v 1) 1)
  | _ => None
  end = Some (1024, 59, 0).
Proof. vm_compute. reflexivity. Qed.

(** ** Witness: two programs *)
Definition demo_names : list (list Z) := [chars "_cat"; chars "README"].
Definition demo_files : list (list Z) := [replicate 700 7; chars "xv6"].
Definition demo_host (name : list Z) : option (list Z) :=
  if bool_decide (name = chars "_cat") then Some (replicate 700 7) else if bool_decide (name = chars "README") then Some (chars "xv6") else None.
Lemma demo_buildable : buildable demo_names demo_files.
Proof.
  split.
  - vm_compute. reflexivity.
  - repeat constructor; apply (bool_decide_unpack _); vm_compute; exact I.
  - apply (bool_decide_unpack _). vm_compute. exact I.
  - repeat constructor; vm_compute; discriminate.
  - vm_compute. discriminate.
  - vm_compute. discriminate.
Qed.
Lemma mkfs_image_witness : exists s, main demo_host true [chars "mkfs"; chars "fs.img"; chars "_cat"; chars "README"] = Done s /\
  resolve sb (mkView [] (img s) [] [] []) false ROOTINO [chars "cat"] = Some 2.
Proof.
  destruct (mkfs_image demo_host (chars "mkfs") (chars "fs.img") demo_names demo_files) as (s&E&_&_&_&_&_&H&_).
  - repeat constructor.
  - exact demo_buildable.
  - exists s. split; [exact E|]. exact (proj1 (H 0%nat (chars "_cat") (replicate 700 7) eq_refl eq_refl)).
Defined.

End MkfsImage.
