(* ===== verification/Programs.v ===== *)
(** * Programs: the small user programs

    cat.c, wc.c, echo.c, kill.c, ln.c, mkdir.c, rm.c, ls.c, zombie.c, init.c and
    the network programs ping.c, tcpserver.c, tcpclient.c, ifset.c, ifconfig.c,
    with [stat] of ulib.c and unet.c.  A program is an interaction tree whose
    events are the system calls it makes, with the answers of the kernel as their
    results; [exit] is an event that does not return, and so is [crash], a store
    outside an array, which the C standard leaves undefined.  Strings are lists of
    their characters; [printf] writes its characters one by one.  What the
    programs do in a world of files, descriptors and network peers is in
    ProgramsRun. *)
From S2P Require Import Prelude Printf KState NetUtils Fs.
From ITree Require Import ITree.

Module Programs.

Definition b16 (l : list Z) : Z := get16 l 0.

(** The system calls of user.h, with the data they exchange. *)
Variant callE : Type -> Type :=
| Open (path : list Z) (mode : Z) : callE Z
| Close (fd : Z) : callE Z
| Read (fd n : Z) : callE (Z * list Z)
| Write (fd : Z) (l : list Z) : callE Z
| Fstat (fd : Z) : callE (option (Z * Z * Z))  (* type, ino, size *)
| Link (old new : list Z) : callE Z
| Unlink (path : list Z) : callE Z
| Mkdir (path : list Z) : callE Z
| Mknod (path : list Z) (major minor : Z) : callE Z
| Dup (fd : Z) : callE Z
| Kill (pid : Z) : callE Z
| Fork : callE Z
| Exec (path : list Z) (argv : list (list Z)) : callE Z
| Wait : callE Z
| Sleep (n : Z) : callE Z
| Uptime : callE Z
| Socket (type : Z) : callE Z
| Bind (fd ip port : Z) : callE Z
| Listen (fd : Z) : callE Z
| Accept (fd : Z) : callE Z
| Connect (fd ip port : Z) : callE Z
| Send_echo (ip seq : Z) : callE Z
| Echo_status : callE Z
| Echo_packet : callE Z
| Ifset (ip mask gateway : Z) : callE unit
| Ifconfig : callE unit.

Variant sysE : Type -> Type :=
| Call {T} (c : callE T) : sysE T
| Exit : sysE void
| Crash : sysE void.

Abbreviation prog := (itree sysE).
Definition call {T} (c : callE T) : prog T := ITree.trigger (Call c).
Definition exit {T} : prog T := ITree.bind (ITree.trigger Exit) (fun v : void => match v with end).
Definition crash {T} : prog T := ITree.bind (ITree.trigger Crash) (fun v : void => match v with end).

Declare Scope prog_scope.
Delimit Scope prog_scope with prog.
Notation "'ask' x := t 'in' k" := (ITree.bind t (fun x => k)) (at level 200, x pattern, t at level 100, k at level 200) : prog_scope.
Notation "'do' t 'then' k" := (ITree.bind t (fun _ => k)) (at level 200, t at level 100, k at level 200) : prog_scope.
#[local] Open Scope prog_scope.

(** ** The library *)
Fixpoint puts (fd : Z) (l : list Z) : prog unit :=
  match l with [] => Ret tt | c :: l => do call (Write fd [c]) then puts fd l end.
(** %d *)
Definition dec (n : Z) : list Z := Fs.show_int n.
Definition NL : list Z := [10].
Definition inet_addr (s : list Z) : Z := NetUtils.inet_addr s.
Fixpoint atoi (s : list Z) (n : Z) : Z :=
  match s with c :: s => if (48 <=? c) && (c <=? 57) then atoi s (s32 (n * 10 + c - 48)) else n | [] => n end.
Definition stat (n : list Z) : prog (option (Z * Z * Z)) :=
  ask fd := call (Open n 0) in
  if fd <? 0 then Ret None else
  ask r := call (Fstat fd) in
  do call (Close fd) then
  Ret r.

(** ** cat.c *)
Definition cat_body (fd : Z) (_ : unit) : prog (unit + unit) :=
  ask (n, buf) := call (Read fd 512) in
  if 0 <? n then
    ask r := call (Write 1 (take (Z.to_nat n) buf)) in
    if negb (r =? n) then do puts 1 (chars "cat: write error" ++ NL) then exit else Ret (inl tt)
  else if n <? 0 then do puts 1 (chars "cat: read error" ++ NL) then exit
  else Ret (inr tt).
Definition cat (fd : Z) : prog unit := ITree.iter (cat_body fd) tt.
Fixpoint cat_files (argv : list (list Z)) : prog unit :=
  match argv with
  | [] => Ret tt
  | path :: argv =>
    ask fd := call (Open path 0) in
    if fd <? 0 then do puts 1 (chars "cat: cannot open " ++ path ++ NL) then exit else
    do cat fd then
    do call (Close fd) then
    cat_files argv
  end.
Definition cat_main (argv : list (list Z)) : prog void :=
  match argv with
  | _ :: path :: rest => do cat_files (path :: rest) then exit
  | _ => do cat 0 then exit
  end.

(** ** wc.c *)
Definition blank (c : Z) : bool := existsb (Z.eqb c) [32; 13; 9; 10; 11].
(** [l], [w], [c] and [inword]. *)
Definition wc_char (st : Z * Z * Z * bool) (x : Z) : Z * Z * Z * bool :=
  let '(l, w, c, inword) := st in
  let c := s32 (c + 1) in
  let l := if x =? 10 then s32 (l + 1) else l in
  if blank x then (l, w, c, false)
  else if negb inword then (l, s32 (w + 1), c, true) else (l, w, c, inword).
Definition wc_body (fd : Z) (st : Z * Z * Z * bool) : prog (Z * Z * Z * bool + Z * Z * Z * bool) :=
  ask (n, buf) := call (Read fd 512) in
  if 0 <? n then Ret (inl (fold_left wc_char (take (Z.to_nat n) buf) st))
  else if n <? 0 then do puts 1 (chars "wc: read error" ++ NL) then exit
  else Ret (inr st).
Definition wc (fd : Z) (name : list Z) : prog unit :=
  ask (l, w, c, _) := ITree.iter (wc_body fd) (0, 0, 0, false) in
  puts 1 (dec l ++ [32] ++ dec w ++ [32] ++ dec c ++ [32] ++ name ++ NL).
Fixpoint wc_files (argv : list (list Z)) : prog unit :=
  match argv with
  | [] => Ret tt
  | path :: argv =>
    ask fd := call (Open path 0) in
    if fd <? 0 then do puts 1 (chars "wc: cannot open " ++ path ++ NL) then exit else
    do wc fd path then
    do call (Close fd) then
    wc_files argv
  end.
Definition wc_main (argv : list (list Z)) : prog void :=
  match argv with
  | _ :: path :: rest => do wc_files (path :: rest) then exit
  | _ => do wc 0 [] then exit
  end.

(** ** echo.c, kill.c, ln.c, mkdir.c, rm.c, zombie.c *)
Fixpoint echo_args (args : list (list Z)) : prog unit :=
  match args with
  | [] => Ret tt
  | a :: rest => do puts 1 (a ++ match rest with [] => NL | _ => [32] end) then echo_args rest
  end.
Definition echo_main (argv : list (list Z)) : prog void := do echo_args (tail argv) then exit.

Fixpoint kill_args (args : list (list Z)) : prog unit :=
  match args with [] => Ret tt | a :: rest => do call (Kill (atoi a 0)) then kill_args rest end.
Definition kill_main (argv : list (list Z)) : prog void :=
  if (length argv <? 2)%nat then do puts 2 (chars "usage: kill pid..." ++ NL) then exit else
  do kill_args (tail argv) then exit.

Definition ln_main (argv : list (list Z)) : prog void :=
  match argv with
  | [_; old; new] =>
    ask r := call (Link old new) in
    do (if r <? 0 then puts 2 (chars "link " ++ old ++ [32] ++ new ++ chars ": failed" ++ NL) else Ret tt) then exit
  | _ => do puts 2 (chars "Usage: ln old new" ++ NL) then exit
  end.

(** One call per argument, up to the first that fails. *)
Fixpoint each (c : list Z -> callE Z) (before after : list Z) (args : list (list Z)) : prog unit :=
  match args with
  | [] => Ret tt
  | a :: rest =>
    ask r := call (c a) in
    if r <? 0 then puts 2 (before ++ a ++ after ++ NL) else each c before after rest
  end.
Definition mkdir_main (argv : list (list Z)) : prog void :=
  if (length argv <? 2)%nat then do puts 2 (chars "Usage: mkdir files..." ++ NL) then exit else
  do each Mkdir (chars "mkdir: ") (chars " failed to create") (tail argv) then exit.
Definition rm_main (argv : list (list Z)) : prog void :=
  if (length argv <? 2)%nat then do puts 2 (chars "Usage: rm files..." ++ NL) then exit else
  do each Unlink (chars "rm: ") (chars " failed to delete") (tail argv) then exit.

Definition zombie_main : prog void :=
  ask pid := call Fork in
  do (if 0 <? pid then do call (Sleep 5) then Ret tt else Ret tt) then exit.

(** ** init.c *)
Definition O_RDWR : Z := 2.
(** [while((wpid=wait()) >= 0 && wpid != pid)] *)
Definition reap_body (pid : Z) (_ : unit) : prog (unit + unit) :=
  ask wpid := call Wait in
  if (0 <=? wpid) && negb (wpid =? pid) then do puts 1 (chars "zombie!" ++ NL) then Ret (inl tt) else Ret (inr tt).
Definition init_body (_ : unit) : prog (unit + void) :=
  do puts 1 (chars "init: starting sh" ++ NL) then
  ask pid := call Fork in
  if pid <? 0 then do puts 1 (chars "init: fork failed" ++ NL) then exit else
  if pid =? 0 then
    do call (Exec (chars "sh") [chars "sh"]) then
    do puts 1 (chars "init: exec sh failed" ++ NL) then exit
  else
    do ITree.iter (reap_body pid) tt then Ret (inl tt).
Definition init_main : prog void :=
  ask fd := call (Open (chars "console") O_RDWR) in
  do (if fd <? 0 then do call (Mknod (chars "console") 1 1) then do call (Open (chars "console") O_RDWR) then Ret tt else Ret tt) then
  do call (Dup 0) then
  do call (Dup 0) then
  ITree.iter init_body tt.

(** ** ls.c *)
Definition SLASH : Z := 47.
(** The characters after the last slash. *)
Fixpoint basename (acc path : list Z) : list Z :=
  match path with [] => acc | c :: rest => basename (if c =? SLASH then rest else acc) rest end.
Definition fmtname (path : list Z) : list Z :=
  let p := basename path path in
  if (14 <=? length p)%nat then p else p ++ replicate (14 - length p) 32.
Definition ls_line (path : list Z) (st : Z * Z * Z) : list Z :=
  let '(type, ino, size) := st in fmtname path ++ [32] ++ dec type ++ [32] ++ dec ino ++ [32] ++ dec size ++ NL.
(** The name of an entry, up to its first zero. *)
Fixpoint upto_nul (l : list Z) : list Z := match l with c :: l => if c =? 0 then [] else c :: upto_nul l | [] => [] end.
Definition ls_body (path : list Z) (fd : Z) (_ : unit) : prog (unit + unit) :=
  ask (n, de) := call (Read fd 16) in
  if negb (n =? 16) then Ret (inr tt) else
  if b16 de =? 0 then Ret (inl tt) else
  let buf := path ++ [SLASH] ++ upto_nul (take 14 (drop 2 de)) in
  ask st := stat buf in
  match st with
  | None => do puts 1 (chars "ls: cannot stat " ++ buf ++ NL) then Ret (inl tt)
  | Some st => do puts 1 (ls_line buf st) then Ret (inl tt)
  end.
Definition ls (path : list Z) : prog unit :=
  ask fd := call (Open path 0) in
  if fd <? 0 then puts 2 (chars "ls: cannot open " ++ path ++ NL) else
  ask st := call (Fstat fd) in
  match st with
  | None => do puts 2 (chars "ls: cannot stat " ++ path ++ NL) then do call (Close fd) then Ret tt
  | Some (type, ino, size) =>
    do (if type =? T_FILE then puts 1 (ls_line path (type, ino, size))
        else if type =? T_DIR then
          if (512 <? length path + 1 + 14 + 1)%nat then puts 1 (chars "ls: path too long" ++ NL)
          else ITree.iter (ls_body path fd) tt
        else Ret tt) then
    do call (Close fd) then Ret tt
  end.
Fixpoint ls_args (args : list (list Z)) : prog unit := match args with [] => Ret tt | a :: rest => do ls a then ls_args rest end.
Definition ls_main (argv : list (list Z)) : prog void :=
  if (length argv <? 2)%nat then do ls [46] then exit else do ls_args (tail argv) then exit.

(** ** ping.c *)
Definition TIMEOUT_MS : Z := 50000.
Definition MAX_PACKETS : Z := 10.
(** [while (!get_icmp_echo_reply_status())]: was the reply received? *)
Definition poll_body (timeout : Z) : prog (Z + bool) :=
  ask r := call Echo_status in
  if negb (r =? 0) then Ret (inr true) else
  if TIMEOUT_MS <=? timeout then
    do puts 1 (chars "Timeout: No ICMP Echo Reply received" ++ NL) then
    do call (Sleep 100) then Ret (inr false)
  else Ret (inl (s32 (timeout + 1))).
(** [pkt_no], [pkt_responsed] and [seq_no]. *)
Definition ping_body (ip : Z) (st : Z * Z * Z) : prog (Z * Z * Z + Z * Z) :=
  let '(pkt_no, responsed, seq_no) := st in
  if pkt_no <? MAX_PACKETS then
    do call (Send_echo ip seq_no) then
    ask start_ticks := call Uptime in
    ask received := ITree.iter poll_body 0 in
    if received : bool then
      ask end_ticks := call Uptime in
      do call Echo_packet then
      do puts 1 (chars "time=" ++ dec (s32 (s32 (end_ticks - start_ticks) * 10)) ++ chars " ms" ++ NL) then
      do call (Sleep 100) then
      Ret (inl (pkt_no + 1, responsed + 1, u16 (seq_no + 1)))
    else Ret (inl (pkt_no + 1, responsed, seq_no))
  else Ret (inr (pkt_no, responsed)).
Definition packet_loss (responsed : Z) : Z := Z.quot (MAX_PACKETS - responsed) MAX_PACKETS * 100.
Definition statistics (pkt_no responsed : Z) : list Z :=
  dec pkt_no ++ chars " packets transmitted, " ++ dec responsed ++ chars " received, " ++ dec (packet_loss responsed) ++ chars " packet loss" ++ NL.
Definition ping_main (argv : list (list Z)) : prog void :=
  match argv with
  | [_; dst] =>
    do puts 1 (chars "Sending PING Request to " ++ dst ++ NL) then
    ask (pkt_no, responsed) := ITree.iter (ping_body (inet_addr dst)) (0, 0, 1) in
    do puts 1 (chars "--- " ++ dst ++ chars " ping statistics ---" ++ NL) then
    do puts 1 (statistics pkt_no responsed) then exit
  | _ => do puts 2 (chars "Usage: " ++ default (chars "(null)") (head argv) ++ chars " <destination_ip>" ++ NL) then exit
  end.

(** ** tcpserver.c, tcpclient.c, ifset.c, ifconfig.c *)
Definition TCP : Z := 0.
Definition BUF_SIZE : Z := 100.
Definition NUM_REQUESTS : nat := 10.

(** [n] requests are left. *)
Fixpoint serve (n : nat) (fd : Z) : prog void :=
  match n with
  | O => do call (Close fd) then exit
  | S n =>
    ask a := call (Accept fd) in
    if a =? -1 then exit else
    do puts 1 (chars "connected with client" ++ NL) then
    ask (bytes, buf) := call (Read a (BUF_SIZE - 1)) in
    if (bytes <? 0) || (BUF_SIZE <=? bytes) then crash else
    let buf := take (Z.to_nat bytes) buf in
    let message := upto_nul buf in
    do puts 1 (chars "bytes read " ++ dec bytes ++ NL) then
    do puts 1 (chars "message received: " ++ message ++ NL) then
    do puts 1 (chars "echoing the message..." ++ NL) then
    do call (Write a buf) then
    do puts 1 (chars "connection terminated" ++ NL ++ NL) then
    do call (Close a) then
    if bool_decide (message = chars "exit") then
      do call (Close fd) then
      do puts 1 (NL ++ chars "server stopped" ++ NL) then exit
    else serve n fd
  end.
Definition tcpserver_main (argv : list (list Z)) : prog void :=
  match argv with
  | [_; ip; port] =>
    ask fd := call (Socket TCP) in
    if fd =? -1 then exit else
    ask r := call (Bind fd (inet_addr ip) (u16 (atoi port 0))) in
    if negb (r =? 0) then exit else
    ask r := call (Listen fd) in
    if negb (r =? 0) then exit else
    do puts 1 (chars "server listening..." ++ NL) then
    serve NUM_REQUESTS fd
  | _ => if (length argv <? 3)%nat then do puts 1 (chars "too few arguments" ++ NL) then exit
         else do puts 1 (chars "too many arguments" ++ NL) then exit
  end.

(** The array [buf] of the client has 10 characters. *)
Definition tcpclient_main (argv : list (list Z)) : prog void :=
  match argv with
  | [_; ip; port; message] =>
    ask fd := call (Socket TCP) in
    if fd =? -1 then exit else
    ask r := call (Connect fd (inet_addr ip) (u16 (atoi port 0))) in
    if negb (r =? 0) then exit else
    do call (Write fd message) then
    do puts 1 (chars "sent message: " ++ message ++ NL) then
    ask (bytes, buf) := call (Read fd (BUF_SIZE - 1)) in
    if (bytes <? 0) || (10 <=? bytes) then crash else
    do puts 1 (chars "received message: " ++ upto_nul (take (Z.to_nat bytes) buf) ++ NL) then
    do call (Close fd) then exit
  | _ => if (length argv <? 4)%nat then do puts 1 (chars "too few arguments" ++ NL) then exit
         else do puts 1 (chars "too many arguments" ++ NL) then exit
  end.

(** [argv[argc]] is null, where [inet_addr] reads. *)
Definition ifset_main (argv : list (list Z)) : prog void :=
  if (length argv <? 3)%nat then do puts 1 (chars "Too few arguments." ++ NL) then exit else
  match argv with
  | _ :: ip :: mask :: gateway :: _ => do call (Ifset (inet_addr ip) (inet_addr mask) (inet_addr gateway)) then exit
  | _ => crash
  end.
Definition ifconfig_main : prog void := do call Ifconfig then exit.

End Programs.
