(* ===== verification/ProgramsRun.v ===== *)
(** * ProgramsRun: what the user programs do

    A world of files, descriptors, network clients and a clock answers the system
    calls of the programs of Programs; [runs] and [ends] are the results of
    interpreting a program in it, up to silent steps, with the rules by which the
    theorems are proved.  [cat] copies, whatever pieces its input arrives in; [wc]
    counts lines, words and characters; the server echoes what the first read of
    each connection returns; [ping] sends ten requests and reports how many were
    answered. *)
From S2P Require Import Prelude Printf KState NetUtils Fs Programs.
From ITree Require Import ITree ITreeFacts Events.State Events.StateFacts.

Module ProgramsRun.
Import Programs.

(** ** The world *)

(** A client of the server: what it has sent when the first read returns and the
    pieces that arrive later, or a connection on which [read] fails. *)
Abbreviation client := (option (list Z * list (list Z))).
Record world := mkWorld {
  w_files : gmap (list Z) (list (list Z));  (* what reading a file returns, piece by piece *)
  w_fds : gmap Z (list (list Z));           (* the pieces a descriptor has left *)
  w_next : Z;                               (* the next descriptor *)
  w_out : gmap Z (list Z);                  (* what has been written to a descriptor *)
  w_clients : list client;                  (* the clients to come *)
  w_replies : list Z;                       (* the answers to the next questions for an echo reply *)
  w_pings : list (Z * Z);                   (* the echo requests sent *)
  w_children : list (list Z);               (* for each fork to come, the processes [wait] returns *)
  w_waits : list Z;
}.
#[export] Instance eta_world : Eta world := fun w =>
  mkWorld (w_files w) (w_fds w) (w_next w) (w_out w) (w_clients w) (w_replies w) (w_pings w) (w_children w) (w_waits w).

Definition sent (w : world) (fd : Z) : list Z := default [] (w_out w !! fd).
Definition write_to (fd : Z) (l : list Z) (w : world) : world := w <| w_out := <[fd := sent w fd ++ l]> (w_out w) |>.
Definition open_fd (pieces : list (list Z)) (w : world) : world := w <| w_fds := <[w_next w := pieces]> (w_fds w) |> <| w_next := w_next w + 1 |>.

Definition answer {T} (c : callE T) (w : world) : world * T :=
  match c in callE T return world * T with
  | Open path _ => match w_files w !! path with Some pieces => (open_fd pieces w, w_next w) | None => (w, -1) end
  | Close fd => (w <| w_fds := delete fd (w_fds w) |>, 0)
  | Read fd n =>
    match w_fds w !! fd with
    | None => (w, (-1, []))
    | Some [] => (w, (0, []))
    | Some (p :: ps) =>
      let got := take (Z.to_nat n) p in
      let left := drop (Z.to_nat n) p in
      (w <| w_fds := <[fd := match left with [] => ps | _ => left :: ps end]> (w_fds w) |>, (Z.of_nat (length got), got))
    end
  | Write fd l => (write_to fd l w, Z.of_nat (length l))
  | Fork => match w_children w with [] => (w, -1) | l :: r => (w <| w_children := r |> <| w_waits := l |>, default 1 (last l)) end
  | Wait => match w_waits w with [] => (w, -1) | x :: r => (w <| w_waits := r |>, x) end
  | Socket _ => (w <| w_next := w_next w + 1 |>, w_next w)
  | Bind _ _ _ | Listen _ => (w, 0)
  | Accept _ =>
    match w_clients w with
    | [] => (w, -1)
    | Some (p, ps) :: r => (open_fd (p :: ps) (w <| w_clients := r |>), w_next w)
    | None :: r => (w <| w_clients := r |> <| w_fds := delete (w_next w) (w_fds w) |> <| w_next := w_next w + 1 |>, w_next w)
    end
  | Send_echo ip seq => (w <| w_pings := w_pings w ++ [(ip, seq)] |>, 0)
  | Echo_status => match w_replies w with [] => (w, 0) | x :: r => (w <| w_replies := r |>, x) end
  | Fstat _ => (w, None)
  | Ifset _ _ _ | Ifconfig => (w, tt)
  | Link _ _ | Unlink _ | Mkdir _ | Mknod _ _ _ | Dup _ | Kill _ | Exec _ _ | Sleep _ | Uptime | Connect _ _ _ | Echo_packet => (w, 0)
  end.

(** The calls that sleep for ever: [accept] when no client comes. *)
Definition blocks {T} (c : callE T) (w : world) : bool :=
  match c with Accept _ => match w_clients w with [] => true | _ => false end | _ => false end.

(** How a program ends, and the world it leaves. *)
Variant endE : Type -> Type := Finished (w : world) : endE void | Crashed (w : world) : endE void | Asleep (w : world) : endE void.
Definition handle : forall T, sysE T -> Monads.stateT world (itree endE) T := fun T e w =>
  match e in sysE T return itree endE (world * T) with
  | Call c => if blocks c w then ITree.bind (ITree.trigger (Asleep w)) (fun v : void => match v with end) else Ret (answer c w)
  | Exit => ITree.map (fun v => (w, v)) (ITree.trigger (Finished w))
  | Crash => ITree.map (fun v => (w, v)) (ITree.trigger (Crashed w))
  end.

Definition runs {R} (t : prog R) (w : world) (r : R) (w' : world) : Prop := eutt eq (interp_state handle t w) (Ret (w', r)).
Definition stop {R} (e : endE void) : itree endE R := Vis e (fun v : void => match v with end).
Definition ends {R} (t : prog R) (w : world) (e : endE void) : Prop := eutt eq (interp_state handle t w) (stop e).

(** ** Rules *)
Lemma prog_ret {R} (r : R) w : runs (Ret r) w r w.
Proof. unfold runs. by rewrite interp_state_ret. Qed.
Lemma prog_call {T} (c : callE T) w : blocks c w = false -> runs (call c) w (answer c w).2 (answer c w).1.
Proof. intros Hb. unfold runs, call. rewrite interp_state_trigger. cbn. rewrite Hb. by destruct (answer c w). Qed.
Lemma prog_bind {A B} (t : prog A) (k : A -> prog B) w a w1 b w2 : runs t w a w1 -> runs (k a) w1 b w2 -> runs (ITree.bind t k) w b w2.
Proof. unfold runs. intros H1 H2. by rewrite interp_state_bind, H1, bind_ret_l. Qed.
Lemma ends_bind {A B} (t : prog A) (k : A -> prog B) w a w1 e : runs t w a w1 -> ends (k a) w1 e -> ends (ITree.bind t k) w e.
Proof. unfold runs, ends. intros H1 H2. by rewrite interp_state_bind, H1, bind_ret_l. Qed.
Lemma ends_assoc {A B C} (t : prog A) (k : A -> prog B) (g : B -> prog C) w e : ends (ITree.bind t (fun a => ITree.bind (k a) g)) w e -> ends (ITree.bind (ITree.bind t k) g) w e.
Proof. unfold ends. intros H. by rewrite bind_bind. Qed.
Lemma stop_bind {A B} e (k : A -> itree endE B) : eutt eq (ITree.bind (stop e) k) (stop e).
Proof. unfold stop. rewrite bind_vis. apply eqit_Vis. intros []. Qed.
Lemma ends_first {A B} (t : prog A) (k : A -> prog B) w e : ends t w e -> ends (ITree.bind t k) w e.
Proof. unfold ends. intros H. rewrite interp_state_bind, H. apply stop_bind. Qed.
Lemma ends_exit {R} w : ends (exit : prog R) w (Finished w).
Proof.
  unfold ends, exit. rewrite interp_state_bind, interp_state_trigger. cbn. unfold ITree.map, ITree.trigger. rewrite bind_bind, bind_vis. apply eqit_Vis. intros [].
Qed.
Lemma ends_crash {R} w : ends (crash : prog R) w (Crashed w).
Proof.
  unfold ends, crash. rewrite interp_state_bind, interp_state_trigger. cbn. unfold ITree.map, ITree.trigger. rewrite bind_bind, bind_vis. apply eqit_Vis. intros [].
Qed.
Lemma ends_asleep {T} (c : callE T) w : blocks c w = true -> ends (call c) w (Asleep w).
Proof.
  intros Hb. unfold ends, call. rewrite interp_state_trigger. cbn. rewrite Hb. unfold ITree.trigger. rewrite bind_vis. apply eqit_Vis. intros [].
Qed.
Lemma prog_again {I R} (body : I -> prog (I + R)) i j w w1 r w2 : runs (body i) w (inl j) w1 -> runs (ITree.iter body j) w1 r w2 -> runs (ITree.iter body i) w r w2.
Proof. unfold runs. intros H1 H2. rewrite unfold_iter, interp_state_bind, H1, bind_ret_l. cbn. by rewrite interp_state_tau, tau_eutt. Qed.
Lemma prog_done {I R} (body : I -> prog (I + R)) i w w1 r : runs (body i) w (inr r) w1 -> runs (ITree.iter body i) w r w1.
Proof. unfold runs. intros H1. rewrite unfold_iter, interp_state_bind, H1, bind_ret_l. cbn. by rewrite interp_state_ret. Qed.
Lemma ends_again {I R} (body : I -> prog (I + R)) i j w w1 e : runs (body i) w (inl j) w1 -> ends (ITree.iter body j) w1 e -> ends (ITree.iter body i) w e.
Proof. unfold runs, ends. intros H1 H2. rewrite unfold_iter, interp_state_bind, H1, bind_ret_l. cbn. by rewrite interp_state_tau, tau_eutt. Qed.
Lemma ends_inside {I R} (body : I -> prog (I + R)) i w e : ends (body i) w e -> ends (ITree.iter body i) w e.
Proof. unfold ends. intros H. rewrite unfold_iter, interp_state_bind, H. apply stop_bind. Qed.

(** One call, then the rest. *)
Ltac prog_step := first [eapply prog_bind | eapply ends_bind]; [apply prog_call; reflexivity|cbn [answer fst snd]].

(** ** Printing *)
Definition print (fd : Z) (l : list Z) (w : world) : world := fold_left (fun w c => write_to fd [c] w) l w.
Lemma prog_puts fd l w : runs (puts fd l) w tt (print fd l w).
Proof. revert w. induction l as [|c l IH]; intros w; cbn [puts]; [apply prog_ret|]. prog_step. apply IH. Qed.

Lemma sent_write fd l w fd' : sent (write_to fd l w) fd' = sent w fd' ++ (if fd =? fd' then l else []).
Proof.
  unfold sent, write_to. cbn [w_out setf]. destruct (Z.eqb_spec fd fd') as [<-|Hne]; [by rewrite lookup_insert_eq|]. by rewrite lookup_insert_ne, app_nil_r.
Qed.
Lemma sent_print fd l w fd' : sent (print fd l w) fd' = sent w fd' ++ (if fd =? fd' then l else []).
Proof.
  revert w. induction l as [|c l IH]; intros w; cbn [print fold_left]; [destruct (fd =? fd'); by rewrite app_nil_r|].
  fold (print fd l (write_to fd [c] w)). rewrite IH, sent_write, <- app_assoc. by destruct (fd =? fd').
Qed.
Lemma print_keeps fd l w : print fd l w = w <| w_out := w_out (print fd l w) |>.
Proof.
  revert w. induction l as [|c l IH]; intros w; cbn [print fold_left]; [by destruct w|]. fold (print fd l (write_to fd [c] w)). by rewrite IH at 1.
Qed.
Lemma print_fds fd l w : w_fds (print fd l w) = w_fds w.
Proof. by rewrite print_keeps. Qed.
Lemma print_files fd l w : w_files (print fd l w) = w_files w.
Proof. by rewrite print_keeps. Qed.
Lemma print_next fd l w : w_next (print fd l w) = w_next w.
Proof. by rewrite print_keeps. Qed.
Lemma print_clients fd l w : w_clients (print fd l w) = w_clients w.
Proof. by rewrite print_keeps. Qed.
Lemma print_replies fd l w : w_replies (print fd l w) = w_replies w.
Proof. by rewrite print_keeps. Qed.
Lemma print_pings fd l w : w_pings (print fd l w) = w_pings w.
Proof. by rewrite print_keeps. Qed.
Lemma print_children fd l w : w_children (print fd l w) = w_children w.
Proof. by rewrite print_keeps. Qed.
Lemma print_waits fd l w : w_waits (print fd l w) = w_waits w.
Proof. by rewrite print_keeps. Qed.
Lemma sent_fds w x a : sent (w <| w_fds := x |>) a = sent w a.
Proof. done. Qed.
Lemma sent_forked w x y a : sent (w <| w_children := x |> <| w_waits := y |>) a = sent w a.
Proof. done. Qed.
Lemma next_fds w x : w_next (w <| w_fds := x |>) = w_next w.
Proof. done. Qed.
Lemma clients_fds w x : w_clients (w <| w_fds := x |>) = w_clients w.
Proof. done. Qed.
Lemma next_write fd l w : w_next (write_to fd l w) = w_next w.
Proof. done. Qed.
Lemma clients_write fd l w : w_clients (write_to fd l w) = w_clients w.
Proof. done. Qed.
#[local] Hint Rewrite sent_print sent_write sent_fds print_fds print_files print_next next_fds next_write print_clients clients_fds clients_write
  print_replies print_pings print_children print_waits : world.
#[local] Opaque print puts.

(** ** Reading a descriptor to its end *)
Definition left (n : Z) (p : list Z) (ps : list (list Z)) : list (list Z) := match drop (Z.to_nat n) p with [] => ps | q => q :: ps end.
Lemma left_ok n p ps : 0 < n -> Forall (fun p => p <> []) (p :: ps) ->
  Forall (fun p => p <> []) (left n p ps) /\ take (Z.to_nat n) p ++ concat (left n p ps) = concat (p :: ps) /\ (length (concat (left n p ps)) < length (concat (p :: ps)))%nat.
Proof.
  intros Hn Hf. apply Forall_cons in Hf as [Hp Hf]. assert (E : take (Z.to_nat n) p ++ concat (left n p ps) = concat (p :: ps)).
  { unfold left. cbn [concat]. rewrite <- (take_drop (Z.to_nat n) p) at 3. rewrite <- app_assoc. f_equal. by destruct (drop (Z.to_nat n) p). }
  split; [unfold left; destruct (drop (Z.to_nat n) p) eqn:Ed; [done|by constructor]|]. split; [done|]. rewrite <- E, length_app, length_take. destruct p; [done|]. simpl. lia.
Qed.

Lemma read_some fd n p ps w : w_fds w !! fd = Some (p :: ps) ->
  answer (Read fd n) w = (w <| w_fds := <[fd := left n p ps]> (w_fds w) |>, (Z.of_nat (length (take (Z.to_nat n) p)), take (Z.to_nat n) p)).
Proof. intros H. cbn [answer]. rewrite H. unfold left. by destruct (drop (Z.to_nat n) p). Qed.

(** ** cat *)
Lemma cat_ok fd : fd <> 1 -> forall k ps w, (length (concat ps) < k)%nat -> w_fds w !! fd = Some ps -> Forall (fun p => p <> []) ps ->
  exists w', runs (cat fd) w tt w' /\ sent w' 1 = sent w 1 ++ concat ps /\ w_files w' = w_files w /\ w_next w' = w_next w.
Proof.
  intros Hfd. induction k as [|k IH]; intros ps w Hk Hp Hne; [lia|]. destruct ps as [|p ps].
  - exists w. split; [|by rewrite app_nil_r]. apply prog_done. unfold cat_body. prog_step. rewrite Hp. apply prog_ret.
  - destruct (left_ok 512 p ps ltac:(lia) Hne) as (Hne'&Ec&Hlt). set (got := take (Z.to_nat 512) p) in *. set (w1 := w <| w_fds := <[fd := left 512 p ps]> (w_fds w) |>).
    assert (Hg : 0 < Z.of_nat (length got)) by (unfold got; rewrite length_take; apply Forall_cons in Hne as [Hp0 _]; destruct p; [done|simpl; lia]).
    destruct (IH (left 512 p ps) (write_to 1 got w1)) as (w'&R&Ho&Hf&Hn); [lia|unfold write_to, w1; cbn [w_fds setf]; by rewrite lookup_insert_eq|done|].
    exists w'. split; [|rewrite Ho, Hf, Hn, sent_write, <- Ec, <- app_assoc; done]. eapply prog_again; [|exact R]. unfold cat_body. eapply prog_bind; [by apply prog_call|].
    rewrite (read_some _ _ _ _ _ Hp). cbn [fst snd]. fold got w1. rewrite (proj2 (Z.ltb_lt _ _) Hg). rewrite (take_ge got) by lia. prog_step. rewrite Z.eqb_refl. apply prog_ret.
Qed.

(** A file that can be read: what it holds, in pieces that are not empty. *)
Definition readable (w : world) (path content : list Z) : Prop := exists ps, w_files w !! path = Some ps /\ Forall (fun p => p <> []) ps /\ concat ps = content.

(** The files named in [paths] up to the first that cannot be opened. *)
Definition listed (w : world) (paths : list (list Z)) (contents : list (list Z)) (bad : option (list Z)) : Prop :=
  exists good rest, paths = good ++ rest /\ Forall2 (readable w) good contents /\
    match bad with None => rest = [] | Some path => w_files w !! path = None /\ exists rest', rest = path :: rest' end.
Lemma listed_cons w path paths contents bad : listed w (path :: paths) contents bad ->
  (exists c cs, contents = c :: cs /\ readable w path c /\ listed w paths cs bad) \/ (contents = [] /\ bad = Some path /\ w_files w !! path = None).
Proof.
  intros ([|p good]&rest&E&H2&Hb); [right|left].
  - apply Forall2_nil_inv_l in H2. cbn in E. destruct bad as [b|]; [|by subst]. destruct Hb as [Hn [r ->]]. by injection E as -> _.
  - apply Forall2_cons_inv_l in H2 as (c&cs&Hr&H2&->). injection E as -> ->. exists c, cs. split_and!; [done|done|]. by exists good, rest.
Qed.

Lemma readable_files w w' path c : w_files w' = w_files w -> readable w path c -> readable w' path c.
Proof. intros E (ps&Hf&?&?). exists ps. by rewrite E. Qed.
Lemma listed_files w w' paths cs bad : w_files w' = w_files w -> listed w paths cs bad -> listed w' paths cs bad.
Proof.
  intros E (good&rest&->&H2&Hb). exists good, rest. split_and!; [done| |destruct bad; [by rewrite E|done]]. eapply Forall2_impl; [exact H2|]. intros. by eapply readable_files.
Qed.

(** A program that handles its files one by one, and gives up at one it cannot open. *)
Lemma files_loop (name : list Z) (t : Z -> list Z -> prog unit) (out : list Z -> list Z -> list Z) (loop : list (list Z) -> prog unit) :
  loop [] = Ret tt ->
  (forall path rest, loop (path :: rest) = ITree.bind (call (Open path 0)) (fun fd =>
    if fd <? 0 then ITree.bind (puts 1 (name ++ path ++ NL)) (fun _ => exit) else ITree.bind (t fd path) (fun _ => ITree.bind (call (Close fd)) (fun _ => loop rest)))) ->
  (forall fd path ps w, fd <> 1 -> w_fds w !! fd = Some ps -> Forall (fun p => p <> []) ps -> (Z.of_nat (length (concat ps)) < 2 ^ 31) ->
    exists w', runs (t fd path) w tt w' /\ sent w' 1 = sent w 1 ++ out path (concat ps) /\ w_files w' = w_files w /\ w_next w' = w_next w) ->
  forall paths contents bad w, 3 <= w_next w -> listed w paths contents bad -> Forall (fun c => Z.of_nat (length c) < 2 ^ 31) contents ->
    exists w', ends (ITree.bind (loop paths) (fun _ => exit : prog void)) w (Finished w') /\
      sent w' 1 = sent w 1 ++ concat (zip_with out paths contents) ++ match bad with Some path => name ++ path ++ NL | None => [] end.
Proof.
  intros L0 L1 Ht. induction paths as [|path paths IH]; intros contents bad w Hn Hl Hsz.
  - rewrite L0. destruct Hl as (good&rest&E&H2&Hb). symmetry in E. apply app_nil in E as [-> ->]. apply Forall2_nil_inv_l in H2 as ->.
    destruct bad as [b|]; [by destruct Hb as [_ [? ?]]|]. exists w. split; [eapply ends_bind; [apply prog_ret|apply ends_exit]|by rewrite app_nil_r].
  - rewrite L1. destruct (listed_cons _ _ _ _ _ Hl) as [(c&cs&->&Hr&Hl')|(->&->&Hno)].
    + apply Forall_cons in Hsz as [Hc Hsz].
      destruct Hr as (ps&Hf&Hne&<-). set (w1 := open_fd ps w). destruct (Ht (w_next w) path ps w1) as (w2&R&Ho&Hf2&Hn2); [lia|unfold w1, open_fd; cbn [w_fds setf]; apply lookup_insert_eq|done|done|].
      set (w3 := w2 <| w_fds := delete (w_next w) (w_fds w2) |>). destruct (IH cs bad w3) as (w'&E&Ho'); [cbn; rewrite Hn2; cbn; lia|eapply listed_files; [|exact Hl']; cbn; by rewrite Hf2|done|].
      exists w'. split; [|rewrite Ho'; change (sent w3 1) with (sent w2 1); rewrite Ho; cbn [zip_with concat]; by rewrite <- !app_assoc].
      apply ends_assoc. prog_step. rewrite Hf. cbn [fst snd]. rewrite (proj2 (Z.ltb_ge _ _)) by lia. apply ends_assoc. eapply ends_bind; [exact R|]. apply ends_assoc. prog_step. exact E.
    + exists (print 1 (name ++ path ++ NL) w). split; [|rewrite sent_print; done]. apply ends_first. prog_step. rewrite Hno. cbn [fst snd]. change (-1 <? 0) with true.
      eapply ends_bind; [apply prog_puts|apply ends_exit].
Qed.

(** ** wc *)
Lemma wc_read fd : forall k ps w st, (length (concat ps) < k)%nat -> w_fds w !! fd = Some ps -> Forall (fun p => p <> []) ps ->
  exists w', runs (ITree.iter (wc_body fd) st) w (fold_left wc_char (concat ps) st) w' /\ w_out w' = w_out w /\ w_files w' = w_files w /\ w_next w' = w_next w.
Proof.
  induction k as [|k IH]; intros ps w st Hk Hp Hne; [lia|]. destruct ps as [|p ps].
  - exists w. split; [|done]. apply prog_done. unfold wc_body. prog_step. rewrite Hp. apply prog_ret.
  - destruct (left_ok 512 p ps ltac:(lia) Hne) as (Hne'&Ec&Hlt). set (got := take (Z.to_nat 512) p) in *. set (w1 := w <| w_fds := <[fd := left 512 p ps]> (w_fds w) |>).
    assert (Hg : 0 < Z.of_nat (length got)) by (unfold got; rewrite length_take; apply Forall_cons in Hne as [Hp0 _]; destruct p; [done|simpl; lia]).
    destruct (IH (left 512 p ps) w1 (fold_left wc_char got st)) as (w'&R&Ho&Hf&Hn); [lia|unfold w1; cbn [w_fds setf]; by rewrite lookup_insert_eq|done|].
    exists w'. split; [|done]. rewrite <- Ec, fold_left_app. eapply prog_again; [|exact R]. unfold wc_body. eapply prog_bind; [by apply prog_call|].
    rewrite (read_some _ _ _ _ _ Hp). cbn [fst snd]. fold got w1. rewrite (proj2 (Z.ltb_lt _ _) Hg). rewrite (take_ge got) by lia. apply prog_ret.
Qed.

(** The text between blanks. *)
Fixpoint fields (l : list Z) : list (list Z) :=
  match l with
  | [] => [[]]
  | c :: l => match fields l with f :: fs => if blank c then [] :: f :: fs else (c :: f) :: fs | [] => [] end
  end.
Definition words (l : list Z) : list (list Z) := filter (fun f => f <> []) (fields l).
Definition lines (l : list Z) : Z := Z.of_nat (length (filter (fun c => c = 10) l)).

Ltac quadruple := apply (f_equal2 pair); [apply (f_equal2 pair); [apply (f_equal2 pair)|]|]; (done || lia).

Lemma wc_counts_from l : forall ls ws cs inword, 0 <= ls -> 0 <= ws -> 0 <= cs ->
  ls + Z.of_nat (length l) < 2 ^ 31 -> ws + Z.of_nat (length l) < 2 ^ 31 -> cs + Z.of_nat (length l) < 2 ^ 31 ->
  exists f fs inword', fields l = f :: fs /\
    fold_left wc_char l (ls, ws, cs, inword) =
      (ls + lines l, ws + Z.of_nat (length (filter (fun f => f <> []) (if inword : bool then fs else f :: fs))), cs + Z.of_nat (length l), inword').
Proof.
  induction l as [|c l IH]; intros ls ws cs inword H1 H2 H3 H4 H5 H6; cbn [length] in *.
  { exists [], [], inword. split; [done|]. unfold lines. cbn. destruct inword; cbn; rewrite !Z.add_0_r; done. }
  cbn [fold_left fields]. unfold wc_char at 2. rewrite (s32_small (cs + 1)) by lia.
  assert (El : (if c =? 10 then s32 (ls + 1) else ls) = ls + lines [c]) by (unfold lines; rewrite filter_cons; destruct (Z.eqb_spec c 10); [rewrite decide_True by done; cbn; rewrite s32_small by lia; lia|rewrite decide_False by done; cbn; lia]).
  rewrite El. assert (Elc : lines (c :: l) = lines [c] + lines l) by (unfold lines; rewrite !filter_cons; destruct (decide (c = 10)); cbn; lia). assert (Hc1 : 0 <= lines [c] <= 1) by (unfold lines; rewrite filter_cons; case_decide; cbn; lia).
  destruct (blank c) eqn:Eb; [|destruct inword; cbn [negb]].
  - destruct (IH (ls + lines [c]) ws (cs + 1) false) as (f&fs&i'&Ef&->); [lia..|]. rewrite Ef. exists [], (f :: fs), i'. split; [done|].
    rewrite Elc. destruct inword; [|rewrite (filter_cons_False _ [] (f :: fs)) by naive_solver]; quadruple.
  - destruct (IH (ls + lines [c]) ws (cs + 1) true) as (f&fs&i'&Ef&->); [lia..|]. rewrite Ef. exists (c :: f), fs, i'. split; [done|]. rewrite Elc. quadruple.
  - rewrite s32_small by lia. destruct (IH (ls + lines [c]) (ws + 1) (cs + 1) true) as (f&fs&i'&Ef&->); [lia..|]. rewrite Ef. exists (c :: f), fs, i'. split; [done|].
    rewrite Elc, (filter_cons_True _ (c :: f) fs) by done. cbn [length]. quadruple.
Qed.

Definition wc_line (name l : list Z) : list Z :=
  dec (lines l) ++ [32] ++ dec (Z.of_nat (length (words l))) ++ [32] ++ dec (Z.of_nat (length l)) ++ [32] ++ name ++ NL.

Lemma wc_ok fd name ps w : w_fds w !! fd = Some ps -> Forall (fun p => p <> []) ps -> Z.of_nat (length (concat ps)) < 2 ^ 31 ->
  exists w', runs (wc fd name) w tt w' /\ sent w' 1 = sent w 1 ++ wc_line name (concat ps) /\ w_files w' = w_files w /\ w_next w' = w_next w.
Proof.
  intros Hp Hne Hl. destruct (wc_read fd _ ps w (0, 0, 0, false) (Nat.lt_succ_diag_r _) Hp Hne) as (w1&R&Ho&Hf&Hn).
  destruct (wc_counts_from (concat ps) 0 0 0 false) as (f&fs&i'&Ef&E); [lia..|]. cbn [Z.add] in E. rewrite E in R.
  exists (print 1 (wc_line name (concat ps)) w1). split; [|rewrite sent_print, print_files, print_next; unfold sent; by rewrite Ho].
  unfold wc. eapply prog_bind; [exact R|]. rewrite !Z.add_0_l. unfold wc_line, words. rewrite Ef. apply prog_puts.
Qed.

(** [cat] copies its files to the standard output, one after the other,
    whatever pieces [read] returns them in, up to the first that cannot be opened,
    where it stops with a message. *)
Theorem cat_copies name path paths contents bad w : 3 <= w_next w -> listed w (path :: paths) contents bad ->
  Forall (fun c => Z.of_nat (length c) < 2 ^ 31) contents ->
  exists w', ends (cat_main (name :: path :: paths)) w (Finished w') /\
    sent w' 1 = sent w 1 ++ concat contents ++ match bad with Some path => chars "cat: cannot open " ++ path ++ NL | None => [] end.
Proof.
  intros Hn Hl Hsz. destruct (files_loop (chars "cat: cannot open ") (fun fd _ => cat fd) (fun _ c => c) cat_files eq_refl ltac:(done)
    ltac:(intros fd p ps w0 Hfd Hp Hne _; apply (cat_ok fd Hfd (S (length (concat ps))) ps w0); [lia|done|done]) (path :: paths) contents bad w Hn Hl Hsz) as (w'&E&Ho).
  exists w'. split; [exact E|]. rewrite Ho. do 2 f_equal. destruct Hl as (good&rest&E'&H2&_). rewrite E'. clear -H2. f_equal.
  revert rest. induction H2 as [|p c ps cs _ _ IH]; intros rest; [by destruct rest|]. cbn. f_equal. apply IH.
Qed.

(** C37: [wc] counts.  For each file it prints the number of its newlines, of its
    words (the maximal runs without blanks) and of its characters, whatever
    pieces the file is read in and wherever a word is cut by them, up to the
    first file that cannot be opened. *)
Theorem wc_counts name path paths contents bad w : 3 <= w_next w -> listed w (path :: paths) contents bad ->
  Forall (fun c => Z.of_nat (length c) < 2 ^ 31) contents ->
  exists w', ends (wc_main (name :: path :: paths)) w (Finished w') /\
    sent w' 1 = sent w 1 ++ concat (zip_with wc_line (path :: paths) contents) ++ match bad with Some path => chars "wc: cannot open " ++ path ++ NL | None => [] end.
Proof.
  intros Hn Hl Hsz. exact (files_loop (chars "wc: cannot open ") wc wc_line wc_files eq_refl ltac:(done)
    ltac:(intros fd p ps w0 _ Hp Hne Hz; by apply wc_ok) (path :: paths) contents bad w Hn Hl Hsz).
Qed.

(** ** tcpserver *)

(** What a server with [n] requests left returns to its clients, and how it ends:
    it serves up to the first client that sends "exit", sleeps when none is left,
    and stores before its buffer when a read fails. *)
Inductive finish : Type := Stops | Sleeps | Dies.
Definition first_read (p : list Z) : list Z := take (Z.to_nat (BUF_SIZE - 1)) p.
Fixpoint served (n : nat) (cs : list client) : list (list Z) * finish :=
  match n, cs with
  | O, _ => ([], Stops)
  | S _, [] => ([], Sleeps)
  | S _, None :: _ => ([], Dies)
  | S n, Some (p, _) :: cs =>
    let m := first_read p in
    if bool_decide (upto_nul m = chars "exit") then ([m], Stops) else let '(ms, e) := served n cs in (m :: ms, e)
  end.
Definition ending (e : finish) (w : world) : endE void := match e with Stops => Finished w | Sleeps => Asleep w | Dies => Crashed w end.
(** The clients the server has accepted. *)
Definition accepted (r : list (list Z) * finish) : nat := length r.1 + match r.2 with Dies => 1 | _ => 0 end.

(** One connection: the world after the message [m] has been returned on descriptor [w_next w]. *)
Lemma serve_one fd n w p ps cs : 3 <= w_next w -> w_clients w = Some (p, ps) :: cs -> let m := first_read p in
  exists w6, (forall b, 3 <= b -> sent w6 b = sent w b ++ (if w_next w =? b then m else [])) /\ w_next w6 = w_next w + 1 /\ w_clients w6 = cs /\
    forall e, ends (if bool_decide (upto_nul m = chars "exit") then do call (Close fd) then do puts 1 (NL ++ chars "server stopped" ++ NL) then exit else serve n fd)%prog w6 e -> ends (serve (S n) fd) w e.
Proof.
  intros Hn Ec m. set (a := w_next w). set (w1 := open_fd (p :: ps) (w <| w_clients := cs |>)).
  set (w2 := print 1 (chars "connected with client" ++ NL) w1). set (w3 := w2 <| w_fds := <[a := left (BUF_SIZE - 1) p ps]> (w_fds w2) |>).
  set (w4 := print 1 (chars "echoing the message..." ++ NL) (print 1 (chars "message received: " ++ upto_nul m ++ NL) (print 1 (chars "bytes read " ++ dec (Z.of_nat (length m)) ++ NL) w3))).
  set (w5 := print 1 (chars "connection terminated" ++ NL ++ NL) (write_to a m w4)). set (w6 := w5 <| w_fds := delete a (w_fds w5) |>).
  assert (Hm : (length m <= 99)%nat) by (unfold m, first_read; rewrite length_take; change (Z.to_nat (BUF_SIZE - 1)) with 99%nat; lia).
  exists w6. split; [|split; [unfold w6, w5, w4, w3, w2; by autorewrite with world|split; [unfold w6, w5, w4, w3, w2; by autorewrite with world|]]].
  { intros b Hb. unfold w6, w5, w4, w3, w2. autorewrite with world. rewrite !(proj2 (Z.eqb_neq 1 b)) by lia. rewrite !app_nil_r. done. }
  intros e He. cbn [serve]. eapply ends_bind; [apply prog_call; cbn [blocks]; by rewrite Ec|]. cbn [answer]. rewrite Ec. cbn [fst snd]. fold a w1.
  rewrite (proj2 (Z.eqb_neq a (-1))) by lia. eapply ends_bind; [apply prog_puts|]. fold w2.
  eapply ends_bind; [by apply prog_call|]. rewrite (read_some a _ p ps) by (unfold w2; rewrite print_fds; apply lookup_insert_eq). cbn [fst snd]. fold w3. change (take (Z.to_nat (BUF_SIZE - 1)) p) with m.
  assert (Hb : (Z.of_nat (length m) <? 0) || (BUF_SIZE <=? Z.of_nat (length m)) = false) by (unfold BUF_SIZE; lia). rewrite Hb, (take_ge m) by lia. cbv zeta.
  do 3 (eapply ends_bind; [apply prog_puts|]). fold w4. prog_step. eapply ends_bind; [apply prog_puts|]. fold w5. prog_step. exact He.
Qed.

(** A connection on which the read fails. *)
Lemma serve_dies fd n w cs : 3 <= w_next w -> w_clients w = None :: cs -> exists w', ends (serve (S n) fd) w (Crashed w') /\ w_clients w' = cs /\ forall b, 3 <= b -> sent w' b = sent w b.
Proof.
  intros Hn Ec. set (w1 := w <| w_clients := cs |> <| w_fds := delete (w_next w) (w_fds w) |> <| w_next := w_next w + 1 |>). exists (print 1 (chars "connected with client" ++ NL) w1).
  split; [|split; [by rewrite print_clients|intros b Hb; rewrite sent_print, (proj2 (Z.eqb_neq 1 b)), app_nil_r by lia; done]].
  cbn [serve]. eapply ends_bind; [apply prog_call; cbn [blocks]; by rewrite Ec|]. cbn [answer]. rewrite Ec. cbn [fst snd]. fold w1. rewrite (proj2 (Z.eqb_neq (w_next w) (-1))) by lia.
  eapply ends_bind; [apply prog_puts|]. prog_step. rewrite print_fds. assert (E : w_fds w1 !! w_next w = None) by apply lookup_delete_eq. rewrite E. cbn [fst snd].
  change ((-1 <? 0) || (BUF_SIZE <=? -1)) with true. apply ends_crash.
Qed.

(** The accepted descriptors are new. *)
Lemma serve_ok fd n : forall w, 3 <= w_next w -> (forall a, w_next w <= a -> sent w a = []) -> let r := served n (w_clients w) in
  exists w', ends (serve n fd) w (ending r.2 w') /\ (forall i m, r.1 !! i = Some m -> sent w' (w_next w + Z.of_nat i) = m) /\
    w_clients w' = drop (accepted r) (w_clients w) /\ (forall a, 3 <= a < w_next w -> sent w' a = sent w a).
Proof.
  induction n as [|n IH]; intros w Hn Hnew.
  { eexists. split; [cbn [serve]; prog_step; apply ends_exit|]. done. }
  cbn [served]. destruct (w_clients w) as [|[[p ps]|] cs] eqn:Ec; cbv zeta.
  - exists w. split; [|by rewrite Ec]. cbn [serve ending snd]. apply ends_first, ends_asleep. cbn [blocks]. by rewrite Ec.
  - destruct (serve_one fd n w p ps cs Hn Ec) as (w6&Hs&Hn6&Hc6&Hgo). destruct (bool_decide (upto_nul (first_read p) = chars "exit")) eqn:Ex.
    + eexists. split; [cbn [snd ending]; apply Hgo; prog_step; eapply ends_bind; [apply prog_puts|apply ends_exit]|]. cbn [fst snd]. rewrite print_clients, clients_fds. split_and!; [|exact Hc6|].
      * intros [|i] m' Hi; [|done]. cbn in Hi. injection Hi as <-. rewrite Z.add_0_r, sent_print, sent_fds. rewrite Hs, Z.eqb_refl, (Hnew (w_next w)) by lia.
        rewrite (proj2 (Z.eqb_neq 1 _)) by lia. by rewrite app_nil_r.
      * intros b Hb. rewrite sent_print, sent_fds. rewrite Hs by lia. rewrite (proj2 (Z.eqb_neq 1 b)), (proj2 (Z.eqb_neq (w_next w) b)) by lia. by rewrite !app_nil_r.
    + destruct (IH w6) as (w'&E&Hi&Hc&Hlo); [lia|intros b Hb; rewrite Hs, (Hnew b), (proj2 (Z.eqb_neq (w_next w) b)) by lia; done|]. rewrite Hc6, Hn6 in *.
      destruct (served n cs) as [ms f]. cbn [fst snd] in *. exists w'. split; [by apply Hgo|]. split_and!; [|exact Hc|].
      * intros [|i] m' Hm'; cbn in Hm'; [|rewrite <- (Hi i m' Hm'); f_equal; lia]. injection Hm' as <-. rewrite Z.add_0_r, (Hlo (w_next w)) by lia. rewrite Hs, Z.eqb_refl, (Hnew (w_next w)) by lia. done.
      * intros b Hb. rewrite (Hlo b) by lia. rewrite Hs, (proj2 (Z.eqb_neq (w_next w) b)) by lia. by rewrite app_nil_r.
  - destruct (serve_dies fd n w cs Hn Ec) as (w'&E&Hc&Hs). exists w'. split; [exact E|]. split; [done|]. split; [exact Hc|]. intros b Hb. apply Hs. lia.
Qed.

(** C38: The echo server returns to each client what its first read returned: the
    bytes that have arrived by then, at most 99 of them (the rest of a longer or
    split message is lost).  It serves its clients one after the other, each once,
    until ten are served or one sends "exit" first, and then exits with the others
    still waiting; while no client comes it sleeps in [accept]; and when the read
    of a connection fails, it stores before its buffer - this is how it can crash,
    and the only way. *)
Theorem tcpserver_echoes name ip port w : 3 <= w_next w -> (forall a, w_next w <= a -> sent w a = []) ->
  let r := served NUM_REQUESTS (w_clients w) in
  exists w', ends (tcpserver_main [name; ip; port]) w (ending r.2 w') /\ (forall i m, r.1 !! i = Some m -> sent w' (w_next w + 1 + Z.of_nat i) = m) /\
    w_clients w' = drop (accepted r) (w_clients w).
Proof.
  intros Hn Hnew r. set (w1 := print 1 (chars "server listening..." ++ NL) (w <| w_next := w_next w + 1 |>)).
  assert (E1 : w_next w1 = w_next w + 1) by (unfold w1; by rewrite print_next). assert (E2 : w_clients w1 = w_clients w) by (unfold w1; by rewrite print_clients).
  destruct (serve_ok (w_next w) NUM_REQUESTS w1) as (w'&E&Hi&Hc&_); [lia| |].
  { intros a Ha. unfold w1. rewrite sent_print, (proj2 (Z.eqb_neq 1 a)), app_nil_r by lia. apply Hnew. lia. }
  rewrite E1, E2 in *. exists w'. split; [|by split]. unfold tcpserver_main. prog_step. rewrite (proj2 (Z.eqb_neq (w_next w) (-1))) by lia. prog_step. change (negb (0 =? 0)) with false.
  prog_step. change (negb (0 =? 0)) with false. eapply ends_bind; [apply prog_puts|]. exact E.
Qed.

(** ** ping *)

(** Whether a reply comes within [k] more questions, and the answers left. *)
Fixpoint poll (k : nat) (l : list Z) {struct l} : bool * list Z :=
  match l with
  | [] => (false, [])
  | x :: l => if x =? 0 then match k with O => (false, l) | S k => poll k l end else (true, l)
  end.
Definition patience : nat := Z.to_nat TIMEOUT_MS.
Lemma poll_ok k : forall w, (k <= patience)%nat ->
  exists w', runs (ITree.iter poll_body (TIMEOUT_MS - Z.of_nat k)) w (poll k (w_replies w)).1 w' /\ w_replies w' = (poll k (w_replies w)).2 /\ w_pings w' = w_pings w.
Proof.
  assert (HT : TIMEOUT_MS = 50000) by done. assert (HP : Z.of_nat patience = 50000) by (unfold patience; rewrite Z2Nat.id; done).
  induction k as [|k IH]; intros w Hk.
  - assert (Hle : (TIMEOUT_MS <=? TIMEOUT_MS - Z.of_nat 0) = true) by (apply Z.leb_le; lia). clear HT HP Hk. set (bye := chars "Timeout: No ICMP Echo Reply received" ++ NL).
    destruct (w_replies w) as [|x l] eqn:El; [|destruct (Z.eqb_spec x 0) as [->|Hx]].
    + exists (print 1 bye w). split; [|autorewrite with world; done]. apply prog_done. unfold poll_body. prog_step. rewrite El. cbn [fst snd]. change (negb (0 =? 0)) with false. rewrite Hle. cbv iota.
      eapply prog_bind; [apply prog_puts|]. prog_step. apply prog_ret.
    + exists (print 1 bye (w <| w_replies := l |>)). split; [|autorewrite with world; done]. apply prog_done. unfold poll_body. prog_step. rewrite El. cbn [fst snd]. change (negb (0 =? 0)) with false. rewrite Hle. cbv iota.
      eapply prog_bind; [apply prog_puts|]. prog_step. apply prog_ret.
    + try clear IH Hk'. exists (w <| w_replies := l |>). cbn [poll]. rewrite (proj2 (Z.eqb_neq x 0) Hx). split; [|done]. apply prog_done. unfold poll_body. prog_step. rewrite El. cbn [fst snd].
      rewrite (proj2 (Z.eqb_neq x 0) Hx). apply prog_ret.
  - assert (Hlt : (TIMEOUT_MS <=? TIMEOUT_MS - Z.of_nat (S k)) = false) by (apply Z.leb_gt; lia). assert (En : s32 (TIMEOUT_MS - Z.of_nat (S k) + 1) = TIMEOUT_MS - Z.of_nat k) by (rewrite s32_small; lia).
    assert (Hk' : (k <= patience)%nat) by lia. clear HT HP Hk.
    destruct (w_replies w) as [|x l] eqn:El; [|destruct (Z.eqb_spec x 0) as [->|Hx]].
    + destruct (IH w Hk') as (w'&R&H1&H2); clear IH Hk'. rewrite El in R, H1. exists w'. replace (poll (S k) []) with (poll k []) by (by destruct k). split; [|done]. eapply prog_again; [|exact R].
      unfold poll_body. prog_step. rewrite El. cbn [fst snd]. change (negb (0 =? 0)) with false. rewrite Hlt, En. apply prog_ret.
    + destruct (IH (w <| w_replies := l |>) Hk') as (w'&R&H1&H2); clear IH Hk'. cbn [w_replies w_pings setf] in R, H1, H2. exists w'. cbn [poll]. change (0 =? 0) with true. split; [|done].
      eapply prog_again; [|exact R]. unfold poll_body. prog_step. rewrite El. cbn [fst snd]. change (negb (0 =? 0)) with false. rewrite Hlt, En. apply prog_ret.
    + try clear IH Hk'. exists (w <| w_replies := l |>). cbn [poll]. rewrite (proj2 (Z.eqb_neq x 0) Hx). split; [|done]. apply prog_done. unfold poll_body. prog_step. rewrite El. cbn [fst snd].
      rewrite (proj2 (Z.eqb_neq x 0) Hx). apply prog_ret.
Qed.

(** The sequence numbers of [n] requests and the number of replies. *)
Fixpoint rounds (n : nat) (seq : Z) (l : list Z) : list Z * Z :=
  match n with
  | O => ([], 0)
  | S n =>
    let '(b, l) := poll patience l in
    let '(seqs, r) := rounds n (if b then u16 (seq + 1) else seq) l in
    (seq :: seqs, if b then r + 1 else r)
  end.
Lemma rounds_range n : forall seq l, 0 <= (rounds n seq l).2 <= Z.of_nat n /\ length (rounds n seq l).1 = n.
Proof.
  induction n as [|n IH]; intros seq l; cbn [rounds]; [done|]. destruct (poll patience l) as [b l']. specialize (IH (if b then u16 (seq + 1) else seq) l').
  destruct (rounds n _ l') as [seqs r]. cbn in *. destruct b; lia.
Qed.

Lemma ping_loop ip n : forall w resp seq, Z.of_nat n <= MAX_PACKETS ->
  exists w', runs (ITree.iter (ping_body ip) (MAX_PACKETS - Z.of_nat n, resp, seq)) w (MAX_PACKETS, resp + (rounds n seq (w_replies w)).2) w' /\
    w_pings w' = w_pings w ++ (pair ip <$> (rounds n seq (w_replies w)).1).
Proof.
  induction n as [|n IH]; intros w resp seq Hn.
  - exists w. cbn. rewrite app_nil_r, Z.add_0_r. split; [|done]. apply prog_done. apply prog_ret.
  - set (w1 := w <| w_pings := w_pings w ++ [(ip, seq)] |>). destruct (poll_ok patience w1 (Nat.le_refl _)) as (w2&R&E1&E2). change (w_replies w1) with (w_replies w) in R, E1.
    replace (TIMEOUT_MS - Z.of_nat patience) with 0 in R by (unfold patience; rewrite Z2Nat.id; done). cbn [rounds].
    destruct (poll patience (w_replies w)) as [b l]. cbn [fst snd] in *. assert (Hlt : (MAX_PACKETS - Z.of_nat (S n) <? MAX_PACKETS) = true) by (apply Z.ltb_lt; lia).
    set (w3 := if b then print 1 (chars "time=" ++ dec (s32 (s32 (0 - 0) * 10)) ++ chars " ms" ++ NL) w2 else w2).
    assert (H3 : w_replies w3 = l /\ w_pings w3 = w_pings w1) by (unfold w3; destruct b; autorewrite with world; done). destruct H3 as [H3 H3'].
    destruct (IH w3 (if b then resp + 1 else resp) (if b then u16 (seq + 1) else seq) ltac:(lia)) as (w'&R'&E'). rewrite H3 in R', E'. rewrite H3' in E'.
    destruct (rounds n _ l) as [seqs r]. cbn [fst snd] in *. exists w'. split; [|rewrite E'; unfold w1; cbn [w_pings setf fmap list_fmap]; by rewrite <- app_assoc].
    replace (resp + (if b then r + 1 else r)) with ((if b then resp + 1 else resp) + r) by (destruct b; lia). eapply prog_again; [|exact R'].
    replace (MAX_PACKETS - Z.of_nat n) with (MAX_PACKETS - Z.of_nat (S n) + 1) by lia. unfold ping_body. rewrite Hlt. cbv iota. prog_step. fold w1. prog_step. eapply prog_bind; [exact R|].
    destruct b; [|apply prog_ret]. prog_step. prog_step. eapply prog_bind; [apply prog_puts|]. prog_step. apply prog_ret.
Qed.

(** [ping] sends ten echo requests to the address, numbered from 1, a number
    being used again when there was no reply to it within the time, and its last
    line reports the ten requests and the number of those that were answered. *)
Theorem ping_reports name dst w : let '(seqs, r) := rounds 10 1 (w_replies w) in
  exists w' out, ends (ping_main [name; dst]) w (Finished w') /\ w_pings w' = w_pings w ++ (pair (inet_addr dst) <$> seqs) /\ length seqs = 10%nat /\
    0 <= r <= 10 /\ sent w' 1 = out ++ statistics 10 r.
Proof.
  set (w1 := print 1 (chars "Sending PING Request to " ++ dst ++ NL) w). destruct (ping_loop (inet_addr dst) 10 w1 0 1 ltac:(done)) as (w2&R&E).
  assert (H1 : w_replies w1 = w_replies w /\ w_pings w1 = w_pings w) by (unfold w1; autorewrite with world; done). destruct H1 as [H1 H1']. rewrite H1 in R, E. rewrite H1' in E.
  pose proof (rounds_range 10 1 (w_replies w)) as Hr. destruct (rounds 10 1 (w_replies w)) as [seqs r]. cbn [fst snd] in *. rewrite Z.add_0_l in R. change (MAX_PACKETS - Z.of_nat 10) with 0 in R.
  set (w3 := print 1 (chars "--- " ++ dst ++ chars " ping statistics ---" ++ NL) w2).
  exists (print 1 (statistics 10 r) w3), (sent w3 1). split_and!; [|rewrite print_pings; unfold w3; by rewrite print_pings|apply Hr|apply Hr|apply Hr|by rewrite sent_print].
  unfold ping_main. eapply ends_bind; [apply prog_puts|]. fold w1. eapply ends_bind; [exact R|]. eapply ends_bind; [apply prog_puts|]. eapply ends_bind; [apply prog_puts|]. apply ends_exit.
Qed.

(** The loss is divided before it is multiplied: it is reported as 0 as soon as one request is answered. *)
Lemma packet_loss_rounds r : 0 <= r <= 10 -> packet_loss r = if r =? 0 then 100 else 0.
Proof.
  intros Hr. assert (H : forallb (fun r => packet_loss r =? (if r =? 0 then 100 else 0)) (seqZ 0 11) = true) by reflexivity.
  rewrite forallb_forall in H. apply Z.eqb_eq, H, list_elem_of_In, elem_of_seqZ. lia.
Qed.

(** The array of the client holds 10 characters: a longer reply, which the server may send, is stored past its end. *)
Lemma tcpclient_overflows name ip port message reply ps w : (10 <= length reply <= 99)%nat -> 3 <= w_next w -> w_fds w !! w_next w = Some (reply :: ps) ->
  exists w', ends (tcpclient_main [name; ip; port; message]) w (Crashed w').
Proof.
  intros Hl Hn Hf. eexists. unfold tcpclient_main. prog_step. rewrite (proj2 (Z.eqb_neq (w_next w) (-1))) by lia. prog_step. change (negb (0 =? 0)) with false. prog_step. eapply ends_bind; [apply prog_puts|].
  eapply ends_bind; [by apply prog_call|]. rewrite (read_some (w_next w) _ reply ps) by (rewrite print_fds; exact Hf). cbn [fst snd]. rewrite take_ge by (unfold BUF_SIZE; lia).
  assert (Hb : (Z.of_nat (length reply) <? 0) || (10 <=? Z.of_nat (length reply)) = true) by lia. rewrite Hb. apply ends_crash.
Qed.
(** Two addresses pass the test for the number of arguments; the third is read through a null pointer. *)
Lemma ifset_two_arguments name ip mask w : ends (ifset_main [name; ip; mask]) w (Crashed w).
Proof. apply ends_crash. Qed.

(** ** echo and init *)
Definition spaced (args : list (list Z)) : list Z := match args with [] => [] | a :: rest => a ++ concat (cons 32 <$> rest) ++ NL end.
Lemma echo_joins argv w : exists w', ends (echo_main argv) w (Finished w') /\ sent w' 1 = sent w 1 ++ spaced (tail argv).
Proof.
  enough (H : forall args w, exists w', runs (echo_args args) w tt w' /\ sent w' 1 = sent w 1 ++ spaced args).
  { destruct (H (tail argv) w) as (w'&R&E). exists w'. split; [|done]. eapply ends_bind; [exact R|apply ends_exit]. }
  induction args as [|a rest IH]; intros w0; [exists w0; rewrite app_nil_r; split; [apply prog_ret|done]|]. cbn [echo_args].
  destruct (IH (print 1 (a ++ match rest with [] => NL | _ => [32] end) w0)) as (w'&R&E). exists w'. split; [eapply prog_bind; [apply prog_puts|exact R]|].
  rewrite E, sent_print, <- app_assoc. f_equal. change (1 =? 1) with true. cbv iota. destruct rest as [|b rest]; cbn [spaced]; [by rewrite app_nil_r|].
  cbn [fmap list_fmap concat]. by rewrite <- !app_assoc.
Qed.

(** A child of init: the orphans [wait] returns before it, and its pid. *)
Definition child_ok (c : list Z * Z) : Prop := 0 < c.2 /\ Forall (fun z => 0 <= z /\ z <> c.2) c.1.
Definition zombies (n : nat) : list Z := concat (replicate n (chars "zombie!" ++ NL)).
Lemma waits_ok pid zs : forall w, w_waits w = zs ++ [pid] -> 0 < pid -> Forall (fun z => 0 <= z /\ z <> pid) zs ->
  exists w', runs (ITree.iter (reap_body pid) tt) w tt w' /\ sent w' 1 = sent w 1 ++ zombies (length zs) /\ w_children w' = w_children w.
Proof.
  induction zs as [|z zs IH]; intros w Hw Hp Hz.
  - exists (w <| w_waits := [] |>). rewrite app_nil_r. split; [|done]. apply prog_done. unfold reap_body. prog_step. rewrite Hw. cbn [app fst snd]. rewrite Z.eqb_refl, andb_false_r. apply prog_ret.
  - apply Forall_cons in Hz as [[Hz0 Hzp] Hz]. set (w1 := w <| w_waits := zs ++ [pid] |>). destruct (IH (print 1 (chars "zombie!" ++ NL) w1)) as (w'&R&E&Ec); [by rewrite print_waits|done|done|].
    exists w'. split; [|rewrite E, Ec, sent_print, print_children, <- app_assoc; done]. eapply prog_again; [|exact R]. unfold reap_body. prog_step. rewrite Hw. cbn [app fst snd]. fold w1.
    rewrite (proj2 (Z.leb_le _ _) Hz0), (proj2 (Z.eqb_neq _ _) Hzp). cbn [andb negb]. eapply prog_bind; [apply prog_puts|apply prog_ret].
Qed.

(** init keeps a shell running: each time the shell it started has ended, after
    any number of orphans it has waited for, it starts another one, for as long as
    [fork] succeeds; only then does it exit. *)
Theorem init_restarts cs w : 0 <= w_next w -> w_children w = (fun c => c.1 ++ [c.2]) <$> cs -> Forall child_ok cs ->
  exists w', ends init_main w (Finished w') /\
    sent w' 1 = sent w 1 ++ concat ((fun c => chars "init: starting sh" ++ NL ++ zombies (length c.1)) <$> cs) ++ chars "init: starting sh" ++ NL ++ chars "init: fork failed" ++ NL.
Proof.
  intros Hn Hw Hc. enough (H : forall w, w_children w = (fun c => c.1 ++ [c.2]) <$> cs -> exists w', ends (ITree.iter init_body tt) w (Finished w') /\
    sent w' 1 = sent w 1 ++ concat ((fun c => chars "init: starting sh" ++ NL ++ zombies (length c.1)) <$> cs) ++ chars "init: starting sh" ++ NL ++ chars "init: fork failed" ++ NL).
  { unfold init_main. destruct (w_files w !! chars "console") as [ps|] eqn:Ef.
    - set (w1 := open_fd ps w). destruct (H w1 Hw) as (w'&E&Ho). exists w'. split; [|exact Ho]. prog_step. rewrite Ef. cbn [fst snd]. fold w1.
      rewrite (proj2 (Z.ltb_ge _ _)) by done. eapply ends_bind; [apply prog_ret|]. prog_step. prog_step. exact E.
    - destruct (H w Hw) as (w'&E&Ho). exists w'. split; [|exact Ho]. prog_step. rewrite Ef. cbn [fst snd]. change (-1 <? 0) with true. cbv iota.
      eapply ends_bind; [prog_step; prog_step; rewrite Ef; apply prog_ret|]. prog_step. prog_step. exact E. }
  clear w Hn Hw. induction Hc as [|c cs [Hp Hz] Hc IH]; intros w Hw.
  - exists (print 1 (chars "init: fork failed" ++ NL) (print 1 (chars "init: starting sh" ++ NL) w)). split; [|rewrite !sent_print, <- !app_assoc; done]. apply ends_inside. unfold init_body.
    eapply ends_bind; [apply prog_puts|]. prog_step. rewrite print_children, Hw. cbn [fmap list_fmap fst snd]. change (-1 <? 0) with true. cbv iota. eapply ends_bind; [apply prog_puts|apply ends_exit].
  - destruct c as [zs pid]. cbn [fst snd] in *. set (w1 := print 1 (chars "init: starting sh" ++ NL) w). set (w2 := w1 <| w_children := (fun c => c.1 ++ [c.2]) <$> cs |> <| w_waits := zs ++ [pid] |>).
    destruct (waits_ok pid zs w2 eq_refl Hp Hz) as (w3&R&Ho&Hch). destruct (IH w3) as (w'&E&Ho'); [by rewrite Hch|]. exists w'. split.
    + eapply ends_again; [|exact E]. unfold init_body. eapply prog_bind; [apply prog_puts|]. fold w1. prog_step. assert (E1 : w_children w1 = (zs ++ [pid]) :: ((fun c => c.1 ++ [c.2]) <$> cs)) by (unfold w1; by rewrite print_children, Hw).
      rewrite E1. cbn [fst snd]. fold w2. rewrite last_snoc. change (default 1 (Some pid)) with pid. rewrite (proj2 (Z.ltb_ge pid 0)), (proj2 (Z.eqb_neq pid 0)) by lia. eapply prog_bind; [exact R|apply prog_ret].
    + rewrite Ho', Ho. unfold w2. rewrite sent_forked. unfold w1. rewrite sent_print. cbn [fmap list_fmap concat fst]. by rewrite <- !app_assoc.
Qed.

(** ** Witnesses: a file of three words in two pieces, and three clients *)
Definition demo_world : world :=
  mkWorld {[ chars "a" := [chars "to be o"; chars "r" ++ [10]] ]} ∅ 3 ∅ [Some (chars "hi", []); Some (chars "ex", [chars "it"]); None; Some (chars "late", [])] [] [] [] [].

Lemma wc_counts_witness : exists w', ends (wc_main [chars "wc"; chars "a"; chars "b"]) demo_world (Finished w') /\
  sent w' 1 = chars "1 3 9 a" ++ NL ++ chars "wc: cannot open b" ++ NL.
Proof.
  destruct (wc_counts (chars "wc") (chars "a") [chars "b"] [chars "to be or" ++ [10]] (Some (chars "b")) demo_world) as (w'&E&Ho).
  - discriminate.
  - exists [chars "a"], [chars "b"]. split; [reflexivity|]. split; [|split; [reflexivity|by exists []]]. constructor; [|constructor]. exists [chars "to be o"; chars "r" ++ [10]].
    split; [reflexivity|]. split; [repeat constructor; discriminate|reflexivity].
  - repeat constructor.
  - exists w'. split; [exact E|]. rewrite Ho. vm_compute. reflexivity.
Defined.

Lemma tcpserver_echoes_witness : exists w', ends (tcpserver_main [chars "tcpserver"; chars "192.168.2.2"; chars "80"]) demo_world (Crashed w') /\
  sent w' 4 = chars "hi" /\ sent w' 5 = chars "ex" /\ w_clients w' = [Some (chars "late", [])].
Proof.
  destruct (tcpserver_echoes (chars "tcpserver") (chars "192.168.2.2") (chars "80") demo_world) as (w'&E&Hm&Hc).
  - discriminate.
  - reflexivity.
  - exists w'. split; [exact E|]. split; [exact (Hm 0%nat (chars "hi") eq_refl)|]. split; [exact (Hm 1%nat (chars "ex") eq_refl)|exact Hc].
Defined.

End ProgramsRun.
