(* ===== verification/Ide.v ===== *)
(** * Ide: the disk driver (ide.c)

    The request queue is the linked list of the source, threaded through
    [qnext]; a process in [iderw] is asleep on its buffer, or awake and about to
    look at the flags again.  The sections under [idelock] are the operations:
    [iderw] up to its first [sleep], the turn of its loop after a [wakeup], and
    [ideintr].  The controller is hardware: its ports are the class [Ata], and
    what the driver relies on, the programming model of ATA disks with
    programmed I/O, is the class [AtaLaws].  The theorems show that requests are
    served in the order they were made, whatever the interleaving, and that each
    one is: after as many interrupts as its place in the queue. *)
From S2P Require Import Prelude KState Kalloc Proc Sleeplock Bio.

Module Ide.

(** ** Constants *)
Definition FSSIZE : Z := 1000.
Definition SECTOR_SIZE : Z := 512.
Definition IDE_BSY : Z := 0x80.
Definition IDE_DRDY : Z := 0x40.
Definition IDE_DF : Z := 0x20.
Definition IDE_ERR : Z := 0x01.
Definition IDE_CMD_READ : Z := 0x20.
Definition IDE_CMD_WRITE : Z := 0x30.
Definition IDE_CMD_RDMUL : Z := 0xc4.
Definition IDE_CMD_WRMUL : Z := 0xc5.

(** ** The controller *)

(** How a command ends: done, or with an error, which for a write leaves any
    bytes in the sector. *)
Inductive outcome : Type := Completed | Failed (rest : list Z).

(** Port access; [ata_done]: the current command ends and the interrupt is raised. *)
Class Ata (D : Type) := {
  ata_inb : Z -> D -> Z * D;
  ata_outb : Z -> Z -> D -> D;
  ata_outsl : Z -> list Z -> D -> D;
  ata_insl : Z -> D -> list Z * D;
  ata_done : outcome -> D -> D;
}.

(** ** State *)
Record ibuf := mkIbuf { f_valid : bool; f_dirty : bool; f_dev : Z; f_blockno : Z; f_data : list Z; f_qnext : option nat }.
#[export] Instance eta_ibuf : Eta ibuf := fun b => mkIbuf (f_valid b) (f_dirty b) (f_dev b) (f_blockno b) (f_data b) (f_qnext b).

Inductive result (A : Type) : Type := Good (a : A) | Panicked (msg : string) | Stuck.
Arguments Good {_} _.
Arguments Panicked {_} _.
Arguments Stuck {_}.
#[export] Instance result_ret : MRet result := fun _ a => Good a.
#[export] Instance result_bind : MBind result := fun _ _ f m => match m with Good a => f a | Panicked s => Panicked s | Stuck => Stuck end.

Section Driver.
Context {D : Type} `{Ata D}.

(** [asleep] and [awake]: the processes inside [iderw] and their buffers. *)
Record ide := mkIde { ibufs : gmap nat ibuf; idequeue : option nat; havedisk1 : bool; disk : D; asleep : gmap nat nat; awake : gmap nat nat }.
#[export] Instance eta_ide : Eta ide := fun s => mkIde (ibufs s) (idequeue s) (havedisk1 s) (disk s) (asleep s) (awake s).

Definition ibuf_of (s : ide) (b : nat) : result ibuf := match ibufs s !! b with Some x => Good x | None => Stuck end.
Definition set_ibuf (b : nat) (g : ibuf -> ibuf) (s : ide) : ide := s <| ibufs := alter g b (ibufs s) |>.

(** ** Operations *)

(** Wait for IDE disk to become ready, at most [n] more looks. *)
Fixpoint idewait (n : nat) (checkerr : bool) (d : D) : result (Z * D) :=
  let '(r, d) := ata_inb 0x1f7 d in
  if negb (Z.land r (Z.lor IDE_BSY IDE_DRDY) =? IDE_DRDY) then match n with O => Stuck | S n => idewait n checkerr d end
  else if checkerr && negb (Z.land r (Z.lor IDE_DF IDE_ERR) =? 0) then Good (-1, d)
  else Good (0, d).

Section Fuel.
Context (polls : nat).

(** The loop that looks for disk 1. *)
Fixpoint find_disk1 (n : nat) (d : D) : bool * D :=
  match n with
  | O => (false, d)
  | S n => let '(r, d) := ata_inb 0x1f7 d in if negb (r =? 0) then (true, d) else find_disk1 n d
  end.
(** [ideinit] after the lock is initialised and the interrupt routed ([ioapicenable], in Hw). *)
Definition ideinit (s : ide) : result ide :=
  '(_, d) ← idewait polls false (disk s);
  let d := ata_outb 0x1f6 (Z.lor 0xe0 (Z.shiftl 1 4)) d in
  let '(found, d) := find_disk1 1000 d in
  let d := ata_outb 0x1f6 (Z.lor 0xe0 (Z.shiftl 0 4)) d in
  Good (s <| disk := d |> <| havedisk1 := havedisk1 s || found |>).

(** Start the request for [b]. *)
Definition idestart (o : option nat) (s : ide) : result ide :=
  match o with
  | None => Panicked "idestart"
  | Some b =>
    x ← ibuf_of s b;
    if FSSIZE <=? f_blockno x then Panicked "incorrect blockno" else
    let sector_per_block := BSIZE / SECTOR_SIZE in
    let sector := f_blockno x * sector_per_block in
    let read_cmd := if sector_per_block =? 1 then IDE_CMD_READ else IDE_CMD_RDMUL in
    let write_cmd := if sector_per_block =? 1 then IDE_CMD_WRITE else IDE_CMD_WRMUL in
    if 7 <? sector_per_block then Panicked "idestart" else
    '(_, d) ← idewait polls false (disk s);
    let d := ata_outb 0x3f6 0 d in
    let d := ata_outb 0x1f2 sector_per_block d in
    let d := ata_outb 0x1f3 (Z.land sector 0xff) d in
    let d := ata_outb 0x1f4 (Z.land (Z.shiftr sector 8) 0xff) d in
    let d := ata_outb 0x1f5 (Z.land (Z.shiftr sector 16) 0xff) d in
    let d := ata_outb 0x1f6 (Z.lor (Z.lor 0xe0 (Z.shiftl (Z.land (f_dev x) 1) 4)) (Z.land (Z.shiftr sector 24) 0x0f)) d in
    let d := if f_dirty x then ata_outsl 0x1f0 (f_data x) (ata_outb 0x1f7 write_cmd d) else ata_outb 0x1f7 read_cmd d in
    Good (s <| disk := d |>)
  end.

(** [wakeup(b)] *)
Definition wake (b : nat) (s : ide) : ide :=
  s <| awake := filter (fun p => p.2 = b) (asleep s) ∪ awake s |> <| asleep := filter (fun p => p.2 <> b) (asleep s) |>.

Definition ideintr (s : ide) : result ide :=
  match idequeue s with
  | None => Good s
  | Some b =>
    x ← ibuf_of s b;
    let s := s <| idequeue := f_qnext x |> in
    s ← (if negb (f_dirty x) then
           '(r, d) ← idewait polls true (disk s);
           if 0 <=? r then let '(data, d) := ata_insl 0x1f0 d in Good (set_ibuf b (fun x => x <| f_data := data |>) s <| disk := d |>)
           else Good (s <| disk := d |>)
         else Good s);
    let s := set_ibuf b (fun x => x <| f_valid := true |> <| f_dirty := false |>) s in
    let s := wake b s in
    match idequeue s with Some _ => idestart (idequeue s) s | None => Good s end
  end.

(** [for(pp=&idequeue; *pp; pp=&( *pp)->qnext)]: the buffer whose [qnext] is
    the last link, [None] for [idequeue] itself. *)
Fixpoint find_slot (fuel : nat) (s : ide) (pp cur : option nat) : result (option nat) :=
  match cur with
  | None => Good pp
  | Some x => match fuel with O => Stuck | S fuel => b ← ibuf_of s x; find_slot fuel s (Some x) (f_qnext b) end
  end.

(** The condition of the loop of [iderw]. *)
Definition pending (x : ibuf) : bool := negb (f_valid x && negb (f_dirty x)).
(** [while(pending) sleep(b, &idelock)]: process [pid] sleeps, or leaves [iderw]. *)
Definition iderw_wait (pid b : nat) (s : ide) : result ide :=
  x ← ibuf_of s b;
  if pending x then Good (s <| asleep := <[pid := b]> (asleep s) |> <| awake := delete pid (awake s) |>)
  else Good (s <| awake := delete pid (awake s) |>).

(** [iderw(b)] by process [pid], which holds the lock of the buffer ([locked]). *)
Definition iderw (pid b : nat) (locked : bool) (s : ide) : result ide :=
  if negb locked then Panicked "iderw: buf not locked" else
  x ← ibuf_of s b;
  if negb (pending x) then Panicked "iderw: nothing to do" else
  if negb (f_dev x =? 0) && negb (havedisk1 s) then Panicked "iderw: ide disk 1 not present" else
  let s := set_ibuf b (fun x => x <| f_qnext := None |>) s in
  slot ← find_slot (size (ibufs s)) s None (idequeue s);
  let s := match slot with None => s <| idequeue := Some b |> | Some y => set_ibuf y (fun x => x <| f_qnext := Some b |>) s end in
  s ← (if bool_decide (idequeue s = Some b) then idestart (Some b) s else Good s);
  iderw_wait pid b s.

End Fuel.
End Driver.

(** ** ATA disks *)

(** The contents of the two drives by sector; a command: drive, sector, data to write. *)
Abbreviation image := (Z -> Z -> list Z).
Abbreviation job := (Z * Z * option (list Z))%type.
Definition write_image (m : image) (drive sector : Z) (data : list Z) : image :=
  fun dr se => if (dr =? drive) && (se =? sector) then data else m dr se.
(** The contents after a command. *)
Definition serve (m : image) (e : job * outcome) : image :=
  let '((dr, se, w), out) := e in
  match w, out with Some data, Completed => write_image m dr se data | Some _, Failed rest => write_image m dr se rest | None, _ => m end.

(** The registers of the drive and of the 28-bit sector number. *)
Definition drive (r6 : Z) : Z := Z.land (Z.shiftr r6 4) 1.
Definition lba (r3 r4 r5 r6 : Z) : Z := r3 + 2 ^ 8 * r4 + 2 ^ 16 * r5 + 2 ^ 24 * Z.land r6 0x0f.

(** The programming model: at rest the drive reports ready; the registers and
    the command byte select what it does; a drive with a write command [wants]
    the data at once, which the driver does not wait for; when a read has ended
    without error the status says so and the data is there; when it has failed
    the status shows ERR or DF and no data is offered; a write that has ended
    leaves the drive ready. *)
Class AtaLaws (D : Type) `{Ata D} := {
  at_rest : D -> image -> Prop;
  wants : D -> image -> Z -> Z -> Prop;
  busy : D -> image -> job -> Prop;
  law_ready : forall d m, at_rest d m -> exists r d', ata_inb 0x1f7 d = (r, d') /\ Z.land r 0xc0 = 0x40 /\ at_rest d' m;
  law_read : forall d m r3 r4 r5 r6, at_rest d m ->
    busy (ata_outb 0x1f7 0x20 (ata_outb 0x1f6 r6 (ata_outb 0x1f5 r5 (ata_outb 0x1f4 r4 (ata_outb 0x1f3 r3 (ata_outb 0x1f2 1 (ata_outb 0x3f6 0 d)))))))
      m (drive r6, lba r3 r4 r5 r6, None);
  law_write : forall d m r3 r4 r5 r6, at_rest d m ->
    wants (ata_outb 0x1f7 0x30 (ata_outb 0x1f6 r6 (ata_outb 0x1f5 r5 (ata_outb 0x1f4 r4 (ata_outb 0x1f3 r3 (ata_outb 0x1f2 1 (ata_outb 0x3f6 0 d)))))))
      m (drive r6) (lba r3 r4 r5 r6);
  law_data : forall d m dr se data, wants d m dr se -> busy (ata_outsl 0x1f0 data d) m (dr, se, Some data);
  law_done_read : forall d m dr se, busy d m (dr, se, None) -> exists r d', ata_inb 0x1f7 (ata_done Completed d) = (r, d') /\ Z.land r 0xc0 = 0x40 /\ Z.land r 0x21 = 0 /\
    exists d'', ata_insl 0x1f0 d' = (m dr se, d'') /\ at_rest d'' m;
  law_failed_read : forall d m dr se rest, busy d m (dr, se, None) -> exists r d', ata_inb 0x1f7 (ata_done (Failed rest) d) = (r, d') /\ Z.land r 0xc0 = 0x40 /\ Z.land r 0x21 <> 0 /\
    at_rest d' m;
  law_done_write : forall d m dr se data out, busy d m (dr, se, Some data) -> at_rest (ata_done out d) (serve m ((dr, se, Some data), out));
}.

(** What the driver writes to the registers is the block number and the drive. *)
Lemma lba_split n dev : 0 <= n < 2 ^ 28 -> let r6 := Z.lor (Z.lor 0xe0 (Z.shiftl (Z.land dev 1) 4)) (Z.land (Z.shiftr n 24) 0x0f) in
  drive r6 = Z.land dev 1 /\ lba (Z.land n 0xff) (Z.land (Z.shiftr n 8) 0xff) (Z.land (Z.shiftr n 16) 0xff) r6 = n.
Proof.
  intros Hn r6. assert (Hd : Z.land dev 1 = 0 \/ Z.land dev 1 = 1) by (change 1 with (Z.ones 1); rewrite Z.land_ones by lia; pose proof (Z.mod_pos_bound dev 2 ltac:(lia)); change (2 ^ 1) with 2; change (Z.ones 1) with 1; lia).
  assert (Hh : Z.land (Z.shiftr n 24) 0x0f = n / 2 ^ 24) by (change 0x0f with (Z.ones 4); rewrite Z.land_ones, Z.shiftr_div_pow2 by lia; apply Z.mod_small; split; [apply Z.div_pos; lia|apply Z.div_lt_upper_bound; lia]).
  unfold r6. clear r6. rewrite Hh. assert (Hr : 0 <= n / 2 ^ 24 < 16) by (split; [apply Z.div_pos; lia|apply Z.div_lt_upper_bound; lia]).
  assert (Hhi : drive (Z.lor (Z.lor 224 (Z.shiftl (Z.land dev 1) 4)) (n / 2 ^ 24)) = Z.land dev 1 /\ Z.land (Z.lor (Z.lor 224 (Z.shiftl (Z.land dev 1) 4)) (n / 2 ^ 24)) 0x0f = n / 2 ^ 24).
  { revert Hr. generalize (n / 2 ^ 24). intros k Hr. assert (Hall : forallb (fun d => forallb (fun k => (drive (Z.lor (Z.lor 224 (Z.shiftl d 4)) k) =? d) &&
      (Z.land (Z.lor (Z.lor 224 (Z.shiftl d 4)) k) 15 =? k)) (seqZ 0 16)) [0; 1] = true) by (vm_compute; reflexivity).
    rewrite forallb_forall in Hall. specialize (Hall (Z.land dev 1)). cbv beta in Hall. rewrite forallb_forall in Hall.
    specialize (Hall ltac:(cbn; lia) k). cbv beta in Hall. rewrite andb_true_iff, !Z.eqb_eq in Hall. apply Hall. apply list_elem_of_In, elem_of_seqZ. lia. }
  destruct Hhi as [H1 H2]. split; [exact H1|]. unfold lba. rewrite H2. change 0xff with (Z.ones 8). rewrite !Z.land_ones, !Z.shiftr_div_pow2 by lia.
  pose proof (Z.div_mod n (2 ^ 8) ltac:(lia)). pose proof (Z.div_mod (n / 2 ^ 8) (2 ^ 8) ltac:(lia)). pose proof (Z.div_mod (n / 2 ^ 16) (2 ^ 8) ltac:(lia)).
  rewrite Z.div_div in * by lia. change (2 ^ 8 * 2 ^ 8) with (2 ^ 16) in *. change (2 ^ 16 * 2 ^ 8) with (2 ^ 24) in *. lia.
Qed.

(** ** The queue *)
Section Proofs.
Context {D : Type} `{AtaLaws D} (polls : nat).
Abbreviation ide := (@ide D).

(** [q] is the list that starts at [o]. *)
Fixpoint chain (bs : gmap nat ibuf) (o : option nat) (q : list nat) : Prop :=
  match q with
  | [] => o = None
  | b :: q => o = Some b /\ exists x, bs !! b = Some x /\ chain bs (f_qnext x) q
  end.
Definition job_of (x : ibuf) : job := (Z.land (f_dev x) 1, f_blockno x, if f_dirty x then Some (f_data x) else None).

(** The queued buffers are [q], the drives hold [m], and the controller works on
    the first request; sleepers wait for queued buffers. *)
Record inv (s : ide) (q : list nat) (m : image) : Prop := {
  i_chain : chain (ibufs s) (idequeue s) q;
  i_nodup : NoDup q;
  i_pending : forall b, b ∈ q -> exists x, ibufs s !! b = Some x /\ pending x = true /\ 0 <= f_blockno x < FSSIZE;
  i_disk : match q with [] => at_rest (disk s) m | b :: _ => exists x, ibufs s !! b = Some x /\ busy (disk s) m (job_of x) end;
  i_asleep : forall pid b, asleep s !! pid = Some b -> b ∈ q;
  i_awake : forall pid b, awake s !! pid = Some b -> b ∉ q /\ exists x, ibufs s !! b = Some x /\ pending x = false;
}.

Lemma queue_ext bs bs' o q : (forall b x, b ∈ q -> bs !! b = Some x -> exists x', bs' !! b = Some x' /\ f_qnext x' = f_qnext x) -> chain bs o q -> chain bs' o q.
Proof.
  revert o. induction q as [|b q IH]; intros o Hq; cbn; [done|]. intros [-> (x&Hx&Hc)]. split; [done|]. destruct (Hq b x) as (x'&Hx'&E); [by left|done|].
  exists x'. split; [done|]. rewrite E. apply IH; [|done]. intros c y Hc'. apply Hq. by right.
Qed.

Lemma idewait_ready n d m : at_rest d m -> exists d', idewait n false d = Good (0, d') /\ at_rest d' m.
Proof.
  intros Hr. destruct (law_ready d m Hr) as (r&d'&E&Hs&Hr'). exists d'. split; [|done]. destruct n; cbn [idewait]; rewrite E; change (Z.lor IDE_BSY IDE_DRDY) with 0xc0;
    rewrite Hs; change IDE_DRDY with 0x40; rewrite Z.eqb_refl; done.
Qed.

Lemma idestart_ok (s : ide) b x m : at_rest (disk s) m -> ibufs s !! b = Some x -> 0 <= f_blockno x < FSSIZE ->
  exists d, idestart polls (Some b) s = Good (s <| disk := d |>) /\ busy d m (job_of x).
Proof.
  intros Hr Hx Hb. destruct (idewait_ready polls (disk s) m Hr) as (d&E&Hr'). unfold idestart, ibuf_of. rewrite Hx. cbn [mbind result_bind].
  rewrite (proj2 (Z.leb_gt _ _)) by lia. change (BSIZE / SECTOR_SIZE) with 1. rewrite Z.mul_1_r. cbn [Z.eqb Pos.eqb Z.ltb Z.compare Pos.compare Pos.compare_cont]. rewrite E. cbn [mbind result_bind].
  eexists. split; [done|]. destruct (lba_split (f_blockno x) (f_dev x)) as [Hd Hl]; [unfold FSSIZE in Hb; lia|].
  cbv zeta in Hd, Hl. unfold job_of. destruct (f_dirty x).
  - pose proof (law_data _ m _ _ (f_data x) (law_write d m _ _ _ _ Hr') : busy _ m (_, lba (Z.land (f_blockno x) 0xff) (Z.land (Z.shiftr (f_blockno x) 8) 0xff) (Z.land (Z.shiftr (f_blockno x) 16) 0xff)
      (Z.lor (Z.lor 0xe0 (Z.shiftl (Z.land (f_dev x) 1) 4)) (Z.land (Z.shiftr (f_blockno x) 24) 0x0f)), _)) as L. rewrite Hd, Hl in L. exact L.
  - pose proof (law_read d m _ _ _ _ Hr' : busy _ m (_, lba (Z.land (f_blockno x) 0xff) (Z.land (Z.shiftr (f_blockno x) 8) 0xff) (Z.land (Z.shiftr (f_blockno x) 16) 0xff)
      (Z.lor (Z.lor 0xe0 (Z.shiftl (Z.land (f_dev x) 1) 4)) (Z.land (Z.shiftr (f_blockno x) 24) 0x0f)), _)) as L. rewrite Hd, Hl in L. exact L.
Qed.


Lemma alter_alter (f g : ibuf -> ibuf) b (bs : gmap nat ibuf) : alter f b (alter g b bs) = alter (fun x => f (g x)) b bs.
Proof.
  apply map_eq. intros k. destruct (decide (k = b)) as [->|Hne]; [rewrite !lookup_alter_eq; by destruct (bs !! b)|by rewrite !lookup_alter_ne].
Qed.

(** The buffer [x] after its request. *)
Definition after (m : image) (x : ibuf) (out : outcome) : ibuf :=
  x <| f_data := if f_dirty x then f_data x else match out with Completed => m (Z.land (f_dev x) 1) (f_blockno x) | Failed _ => f_data x end |> <| f_valid := true |> <| f_dirty := false |>.
(** The interrupt at the end of the current command. *)
Definition interrupt (out : outcome) (s : ide) : result ide := ideintr polls (s <| disk := ata_done out (disk s) |>).

(** Data and flags of the first buffer, before the next request is started. *)
Definition finished (b : nat) (x : ibuf) (m : image) (out : outcome) (d : D) (s : ide) : ide :=
  wake b (mkIde (<[b := after m x out]> (ibufs s)) (f_qnext x) (havedisk1 s) d (asleep s) (awake s)).

Lemma interrupt_finishes (s : ide) b q m x out : inv s (b :: q) m -> ibufs s !! b = Some x ->
  exists d, at_rest d (serve m (job_of x, out)) /\
    interrupt out s = match f_qnext x with Some _ => idestart polls (f_qnext x) (finished b x m out d s) | None => Good (finished b x m out d s) end.
Proof.
  intros Hi Hx. destruct (i_disk _ _ _ Hi) as (x'&Hx'&Hb). replace x' with x in Hb by congruence. destruct (i_chain _ _ _ Hi) as [Eq _].
  unfold interrupt, ideintr. change (idequeue (s <| disk := _ |>)) with (idequeue s). rewrite Eq. unfold ibuf_of. change (ibufs (s <| disk := _ |>)) with (ibufs s). rewrite Hx. cbn [mbind result_bind].
  assert (Hfin : forall g : ibuf -> ibuf, g x = after m x out -> alter g b (ibufs s) = <[b := after m x out]> (ibufs s)).
  { intros g Eg. rewrite <- Eg. apply map_eq. intros k. destruct (decide (k = b)) as [->|Hne]; [by rewrite lookup_alter_eq, lookup_insert_eq, Hx|by rewrite lookup_alter_ne, lookup_insert_ne]. }
  assert (Hst : forall d (g : ibuf -> ibuf), g x = after m x out ->
    wake b (set_ibuf b g (s <| disk := d |> <| idequeue := f_qnext x |>)) = finished b x m out d s).
  { intros d g Eg. unfold finished. rewrite <- (Hfin g Eg). by destruct s. }
  destruct (f_dirty x) eqn:Hd; cbn [negb].
  - cbn [mbind result_bind]. exists (ata_done out (disk s)). split; [unfold job_of in *; rewrite Hd in *; by apply law_done_write|].
    rewrite (Hst (ata_done out (disk s)) (fun x => x <| f_valid := true |> <| f_dirty := false |>)); [done|]. unfold after. rewrite Hd. by destruct x.
  - unfold job_of in Hb. rewrite Hd in Hb.
    assert (Ec : forall d (f g : ibuf -> ibuf), set_ibuf b f (set_ibuf b g (s <| disk := ata_done out (disk s) |> <| idequeue := f_qnext x |> <| disk := d |>)) =
      set_ibuf b (fun x => f (g x)) (s <| disk := d |> <| idequeue := f_qnext x |>)).
    { intros d f g. destruct s as [bs iq hd dk sl aw]. unfold set_ibuf, setf. cbn [ibufs idequeue havedisk1 disk asleep awake]. f_equal. apply alter_alter. }
    assert (Ew : forall d' r, ata_inb 0x1f7 (ata_done out (disk s)) = (r, d') -> Z.land r 0xc0 = 0x40 ->
      idewait polls true (ata_done out (disk s)) = Good (if Z.land r 0x21 =? 0 then (0, d') else (-1, d'))).
    { intros d' r E Hs. destruct polls; cbn [idewait]; rewrite E; change (Z.lor IDE_BSY IDE_DRDY) with 0xc0; rewrite Hs; change (Z.lor IDE_DF IDE_ERR) with 0x21;
        by destruct (Z.land r 0x21 =? 0). }
    change (disk (s <| disk := _ |> <| idequeue := _ |>)) with (ata_done out (disk s)). destruct out as [|rest].
    + destruct (law_done_read _ _ _ _ Hb) as (r&d'&E&Hs&He&d''&Ei&Hr). exists d''. split; [unfold job_of; by rewrite Hd|].
      rewrite (Ew d' r E Hs), He. cbn [mbind result_bind Z.eqb Z.leb Z.compare]. rewrite Ei. cbn [mbind result_bind]. rewrite Ec, (Hst d''); [done|]. unfold after. by rewrite Hd.
    + destruct (law_failed_read _ _ _ _ rest Hb) as (r&d'&E&Hs&He&Hr). exists d'. split; [unfold job_of; by rewrite Hd|].
      rewrite (Ew d' r E Hs), (proj2 (Z.eqb_neq _ _) He). cbn [mbind result_bind Z.leb Z.compare].
      change (s <| disk := ata_done (Failed rest) (disk s) |> <| idequeue := f_qnext x |> <| disk := d' |>) with (s <| disk := d' |> <| idequeue := f_qnext x |>).
      rewrite (Hst d' (fun x => x <| f_valid := true |> <| f_dirty := false |>)); [done|]. unfold after. rewrite Hd. by destruct x.
Qed.

Lemma pending_after m x out : pending (after m x out) = false.
Proof. reflexivity. Qed.
Lemma after_qnext m x out : f_qnext (after m x out) = f_qnext x.
Proof. reflexivity. Qed.

(** The interrupt out serves the first request and wakes its process. *)
Lemma interrupt_ok (s : ide) b q m x out : inv s (b :: q) m -> ibufs s !! b = Some x ->
  exists s', interrupt out s = Good s' /\ inv s' q (serve m (job_of x, out)) /\ ibufs s' = <[b := after m x out]> (ibufs s) /\
    (forall pid c, asleep s !! pid = Some c -> if decide (c = b) then awake s' !! pid = Some b else asleep s' !! pid = Some c).
Proof.
  intros Hi Hx. destruct (interrupt_finishes s b q m x out Hi Hx) as (d&Hr&E). pose proof Hi as [Hc Hnd Hp _ Hsl Haw]. apply NoDup_cons in Hnd as [Hb Hnd].
  destruct Hc as [_ (x'&Hx'&Hc)]. replace x' with x in Hc by congruence. set (s1 := finished b x m out d s) in *.
  assert (Hc1 : chain (ibufs s1) (f_qnext x) q).
  { eapply queue_ext; [|exact Hc]. intros c y Hcq Hy. exists y. split; [|done]. change (<[b := after m x out]> (ibufs s) !! c = Some y). rewrite lookup_insert_ne by (intros ->; done). done. }
  assert (Hp1 : forall c, c ∈ q -> exists y, ibufs s1 !! c = Some y /\ ibufs s !! c = Some y /\ pending y = true /\ 0 <= f_blockno y < FSSIZE).
  { intros c Hcq. destruct (Hp c ltac:(by right)) as (y&Hy&Hpy). exists y. split; [|done]. change (<[b := after m x out]> (ibufs s) !! c = Some y). by rewrite lookup_insert_ne by (intros ->; done). }
  assert (Hsl1 : forall pid c, asleep s1 !! pid = Some c -> c ∈ q).
  { intros pid c Hpc. change (filter (fun p => p.2 <> b) (asleep s) !! pid = Some c) in Hpc. apply map_lookup_filter_Some in Hpc as [Hpc Hne]. apply Hsl in Hpc. by apply elem_of_cons in Hpc as [->|?]. }
  assert (Haw1 : forall pid c, awake s1 !! pid = Some c -> c ∉ q /\ exists y, ibufs s1 !! c = Some y /\ pending y = false).
  { intros pid c Hpc. change ((filter (fun p => p.2 = b) (asleep s) ∪ awake s) !! pid = Some c) in Hpc. change (ibufs s1) with (<[b := after m x out]> (ibufs s)).
    apply lookup_union_Some_raw in Hpc as [Hpc|[_ Hpc]].
    - apply map_lookup_filter_Some in Hpc as [_ Hpc]. cbn in Hpc. subst c. split; [done|]. exists (after m x out). by rewrite lookup_insert_eq.
    - destruct (Haw pid c Hpc) as [Hn (y&Hy&Hpy)]. apply not_elem_of_cons in Hn as [Hne Hn]. split; [done|]. exists y. by rewrite lookup_insert_ne by done. }
  assert (Hwake : forall pid c, asleep s !! pid = Some c -> if decide (c = b) then awake s1 !! pid = Some b else asleep s1 !! pid = Some c).
  { intros pid c Hpid. destruct (decide (c = b)) as [->|Hne].
    2:{ change (filter (fun p => p.2 <> b) (asleep s) !! pid = Some c). by apply map_lookup_filter_Some. }
    change ((filter (fun p => p.2 = b) (asleep s) ∪ awake s) !! pid = Some b). apply lookup_union_Some_l. by apply map_lookup_filter_Some. }
  destruct q as [|c q].
  - cbn in Hc1. rewrite Hc1 in E. exists s1. split; [done|]. split; [|done]. split; [exact Hc1|done| |exact Hr|exact Hsl1|exact Haw1]. intros k Hk. by apply elem_of_nil in Hk.
  - pose proof Hc1 as [Eq _]. rewrite Eq in E. destruct (Hp1 c ltac:(by left)) as (y&Hy&_&_&Hby). destruct (idestart_ok s1 c y _ Hr Hy Hby) as (d2&E2&Hb2).
    exists (s1 <| disk := d2 |>). rewrite E. split; [exact E2|]. split; [|split; [reflexivity|exact Hwake]]. split; [exact Hc1|done| |by exists y|exact Hsl1|exact Haw1].
    intros k Hk. destruct (Hp1 k Hk) as (z&Hz&_&Hpz). by exists z.
Qed.


(** ** [iderw] *)
Lemma find_slot_ok (s : ide) q fuel pp cur : chain (ibufs s) cur q -> (length q <= fuel)%nat ->
  find_slot fuel s pp cur = Good (match last q with Some y => Some y | None => pp end).
Proof.
  revert fuel pp cur. induction q as [|b q IH]; intros fuel pp cur Hc Hf; [cbn in Hc; subst; by destruct fuel|]. destruct Hc as [-> (x&Hx&Hc)].
  destruct fuel as [|fuel]; [cbn in Hf; lia|]. cbn [find_slot]. unfold ibuf_of. rewrite Hx. cbn [mbind result_bind]. rewrite (IH fuel (Some b)); [|done|cbn in Hf; lia].
  rewrite last_cons. by destruct (last q).
Qed.

(** A link to [b] at the end of the list. *)
Lemma chain_snoc bs o q b y z : chain bs o (q ++ [y]) -> NoDup (q ++ [y; b]) -> bs !! b = Some z -> f_qnext z = None ->
  chain (alter (fun x => x <| f_qnext := Some b |>) y bs) o (q ++ [y; b]).
Proof.
  revert o. induction q as [|c q IH]; intros o; cbn [app chain].
  - intros [-> (x&Hx&Hn)] Hnd Hz Ez. split; [done|]. exists (x <| f_qnext := Some b |>). rewrite lookup_alter_eq, Hx. split; [done|]. split; [done|]. exists z. split; [|done].
    apply NoDup_cons in Hnd as [Hyb _]. rewrite lookup_alter_ne by set_solver. done.
  - intros [-> (x&Hx&Hc)] Hnd Hz Ez. apply NoDup_cons in Hnd as [Hcn Hnd]. split; [done|]. exists x. rewrite lookup_alter_ne by set_solver. split; [done|]. by apply IH.
Qed.

Lemma chain_size bs o q : chain bs o q -> NoDup q -> (length q <= size bs)%nat.
Proof.
  intros Hc Hnd. rewrite <- (size_list_to_set (C := gset nat) q Hnd), <- size_dom. apply subseteq_size. intros b Hb. apply elem_of_list_to_set in Hb. apply elem_of_dom.
  clear Hnd. revert o Hc. induction q as [|c q IH]; [by apply elem_of_nil in Hb|]. intros o [_ (x&Hx&Hc)]. apply elem_of_cons in Hb as [->|Hb]; [eauto|by eapply IH].
Qed.

(** The queue with [b] appended, nothing started. *)
Definition queued (b : nat) (q : list nat) (s : ide) : ide :=
  let s := set_ibuf b (fun x => x <| f_qnext := None |>) s in
  match last q with None => s <| idequeue := Some b |> | Some y => set_ibuf y (fun x => x <| f_qnext := Some b |>) s end.

Lemma disk_id (s : ide) : s <| disk := disk s |> = s.
Proof. by destruct s. Qed.

Lemma queued_lookup b q (s : ide) c x : ibufs s !! c = Some x -> exists x', ibufs (queued b q s) !! c = Some x' /\ job_of x' = job_of x /\ pending x' = pending x /\ f_blockno x' = f_blockno x.
Proof.
  intros Hx. unfold queued. assert (H1 : exists x', ibufs (set_ibuf b (fun x => x <| f_qnext := None |>) s) !! c = Some x' /\ job_of x' = job_of x /\ pending x' = pending x /\ f_blockno x' = f_blockno x).
  { change (ibufs (set_ibuf b _ s)) with (alter (fun x => x <| f_qnext := None |>) b (ibufs s)). destruct (decide (c = b)) as [->|Hne].
    - rewrite lookup_alter_eq, Hx. by eexists.
    - rewrite lookup_alter_ne by done. by exists x. }
  destruct H1 as (x1&H1&J1&P1&B1). destruct (last q) as [y|]; [|by exists x1]. change (ibufs (set_ibuf y ?f ?t)) with (alter f y (ibufs t)).
  set (t := set_ibuf b _ s) in *. change (exists x', alter (fun x => x <| f_qnext := Some b |>) y (ibufs t) !! c = Some x' /\ job_of x' = job_of x /\ pending x' = pending x /\ f_blockno x' = f_blockno x).
  destruct (decide (c = y)) as [->|Hne]; [rewrite lookup_alter_eq, H1; by exists (x1 <| f_qnext := Some b |>)|rewrite lookup_alter_ne by done; by exists x1].
Qed.

Lemma queued_chain b q m (s : ide) x : inv s q m -> b ∉ q -> ibufs s !! b = Some x -> chain (ibufs (queued b q s)) (idequeue (queued b q s)) (q ++ [b]).
Proof.
  intros Hi Hb Hx. pose proof (i_chain _ _ _ Hi) as Hc. pose proof (i_nodup _ _ _ Hi) as Hnd. set (t := set_ibuf b (fun x => x <| f_qnext := None |>) s).
  assert (Hz : ibufs t !! b = Some (x <| f_qnext := None |>)) by (change (alter (fun x => x <| f_qnext := None |>) b (ibufs s) !! b = Some (x <| f_qnext := None |>)); by rewrite lookup_alter_eq, Hx).
  assert (Hct : chain (ibufs t) (idequeue t) q).
  { eapply queue_ext; [|exact Hc]. intros c y Hcq Hy. exists y. split; [|done]. change (alter (fun x => x <| f_qnext := None |>) b (ibufs s) !! c = Some y). by rewrite lookup_alter_ne by (intros ->; done). }
  unfold queued. fold t. destruct (last q) as [y|] eqn:El.
  - apply last_Some in El as [q' ->]. rewrite <- app_assoc. cbn [app]. apply (chain_snoc (ibufs t) (idequeue t) q' b y (x <| f_qnext := None |>) Hct); [|exact Hz|done].
    change [y; b] with ([y] ++ [b]). rewrite app_assoc. apply NoDup_app. split; [done|]. split; [|apply NoDup_singleton]. intros c Hcq ->%list_elem_of_singleton. done.
  - apply last_None in El as ->. split; [done|]. by exists (x <| f_qnext := None |>).
Qed.

(** [iderw] appends the buffer, starts the disk if it is the first, and sleeps. *)
Lemma iderw_ok (s : ide) q m pid b x : inv s q m -> ibufs s !! b = Some x -> pending x = true -> 0 <= f_blockno x < FSSIZE -> (f_dev x = 0 \/ havedisk1 s = true) ->
  b ∉ q -> (forall p, awake s !! p <> Some b) ->
  exists s', iderw polls pid b true s = Good s' /\ inv s' (q ++ [b]) m /\ asleep s' = <[pid := b]> (asleep s) /\
    forall c y, ibufs s !! c = Some y -> exists y', ibufs s' !! c = Some y' /\ job_of y' = job_of y.
Proof.
  intros Hi Hx Hp Hbl Hdev Hb Haw. pose proof (queued_chain b q m s x Hi Hb Hx) as Hc. destruct (queued_lookup b q s b x Hx) as (x'&Hx'&Jx&Px&Bx).
  pose proof (i_nodup _ _ _ Hi) as Hnd. assert (Hnd' : NoDup (q ++ [b])).
  { apply NoDup_app. split; [done|]. split; [|apply NoDup_singleton]. intros c Hcq ->%list_elem_of_singleton. done. }
  set (t := set_ibuf b (fun x => x <| f_qnext := None |>) s).
  assert (Hslot : find_slot (size (ibufs t)) t None (idequeue t) = Good (last q)).
  { rewrite (find_slot_ok t q); [by destruct (last q)| |].
    - eapply queue_ext; [|exact (i_chain _ _ _ Hi)]. intros c y Hcq Hy. exists y. split; [|done]. change (alter (fun x => x <| f_qnext := None |>) b (ibufs s) !! c = Some y). by rewrite lookup_alter_ne by (intros ->; done).
    - etransitivity; [exact (chain_size _ _ _ (i_chain _ _ _ Hi) Hnd)|]. rewrite <- !size_dom. change (ibufs t) with (alter (fun x => x <| f_qnext := None |>) b (ibufs s)). by rewrite dom_alter_L. }
  assert (Hdisk : disk (queued b q s) = disk s /\ asleep (queued b q s) = asleep s /\ awake (queued b q s) = awake s) by (unfold queued; by destruct (last q)).
  destruct Hdisk as (Ed&Es&Ea).
  assert (Hstart : exists d, (if bool_decide (idequeue (queued b q s) = Some b) then idestart polls (Some b) (queued b q s) else Good (queued b q s)) = Good ((queued b q s) <| disk := d |>) /\
    match q with [] => busy d m (job_of x') | c :: _ => exists y, ibufs (queued b q s) !! c = Some y /\ busy d m (job_of y) end).
  { pose proof (i_disk _ _ _ Hi) as Hd. destruct q as [|c q].
    - destruct Hc as [Eq _]. rewrite bool_decide_true by done. apply idestart_ok; [by rewrite Ed|done|lia].
    - destruct Hc as [Eq _]. rewrite bool_decide_false by (rewrite Eq; intros [= ->]; set_solver). exists (disk (queued b (c :: q) s)). split; [by rewrite disk_id|].
      destruct Hd as (y&Hy&Hbusy). destruct (queued_lookup b (c :: q) s c y Hy) as (y'&Hy'&Jy&_). exists y'. split; [done|]. by rewrite Ed, Jy. }
  destruct Hstart as (d&Est&Hbusy). unfold iderw, ibuf_of. cbn [negb]. rewrite Hx. cbn [mbind result_bind]. rewrite Hp. cbn [negb].
  replace (negb (f_dev x =? 0) && negb (havedisk1 s)) with false by (destruct Hdev as [-> | ->]; [done|by rewrite andb_false_r]). fold t. rewrite Hslot. cbn [mbind result_bind].
  change (match last q with None => t <| idequeue := Some b |> | Some y => set_ibuf y (fun x => x <| f_qnext := Some b |>) t end) with (queued b q s). rewrite Est. cbn [mbind result_bind].
  unfold iderw_wait, ibuf_of. change (ibufs ((queued b q s) <| disk := d |>)) with (ibufs (queued b q s)). rewrite Hx'. cbn [mbind result_bind]. rewrite Px, Hp. eexists. split; [reflexivity|]. split; [|split].
  - split.
    + exact Hc.
    + exact Hnd'.
    + intros c [Hcq| ->%list_elem_of_singleton]%elem_of_app; [|exists x'; split; [exact Hx'|]; rewrite Px, Bx; done].
      destruct (i_pending _ _ _ Hi c Hcq) as (y&Hy&Hpy&Hby). destruct (queued_lookup b q s c y Hy) as (y'&Hy'&_&Py&By). exists y'. split; [exact Hy'|]. by rewrite Py, By.
    + destruct q as [|c q]; [exists x'; split; [exact Hx'|exact Hbusy]|exact Hbusy].
    + intros p c Hpc. change (<[pid := b]> (asleep (queued b q s)) !! p = Some c) in Hpc. rewrite Es in Hpc. apply lookup_insert_Some in Hpc as [[_ <-]|[_ Hpc]]; [set_solver|].
      apply (i_asleep _ _ _ Hi) in Hpc. set_solver.
    + intros p c Hpc. change (delete pid (awake (queued b q s)) !! p = Some c) in Hpc. rewrite Ea in Hpc. apply lookup_delete_Some in Hpc as [_ Hpc]. destruct (i_awake _ _ _ Hi p c Hpc) as [Hcq (y&Hy&Hpy)].
      destruct (queued_lookup b q s c y Hy) as (y'&Hy'&_&Py&_). split; [|exists y'; split; [exact Hy'|congruence]]. intros [?| ->%list_elem_of_singleton]%elem_of_app; [done|]. by destruct (Haw p).
  - change (<[pid := b]> (asleep (queued b q s)) = <[pid := b]> (asleep s)). by rewrite Es.
  - intros c y Hy. destruct (queued_lookup b q s c y Hy) as (y'&Hy'&Jy&_). by exists y'.
Qed.


(** ** Runs *)

(** Before any request. *)
Definition started (s : ide) (m : image) : Prop := idequeue s = None /\ at_rest (disk s) m /\ asleep s = ∅ /\ awake s = ∅.

(** Processes call [iderw] on buffers they have locked, the controller raises
    interrupts, spurious ones included, and woken processes go on; [es] and [ss]
    are the requests made, and those served with how they ended. *)
Inductive reachable (s0 : ide) : ide -> list job -> list (job * outcome) -> Prop :=
| rc_start : reachable s0 s0 [] []
| rc_call s es ss pid b x s' : reachable s0 s es ss -> ibufs s !! b = Some x -> pending x = true -> 0 <= f_blockno x < FSSIZE -> (f_dev x = 0 \/ havedisk1 s = true) ->
    (forall p, asleep s !! p <> Some b /\ awake s !! p <> Some b) -> asleep s !! pid = None -> awake s !! pid = None ->
    iderw polls pid b true s = Good s' -> reachable s0 s' (es ++ [job_of x]) ss
| rc_intr s es ss b x out s' : reachable s0 s es ss -> idequeue s = Some b -> ibufs s !! b = Some x -> interrupt out s = Good s' -> reachable s0 s' es (ss ++ [(job_of x, out)])
| rc_spurious s es ss s' : reachable s0 s es ss -> idequeue s = None -> ideintr polls s = Good s' -> reachable s0 s' es ss
| rc_wake s es ss pid b s' : reachable s0 s es ss -> awake s !! pid = Some b -> iderw_wait pid b s = Good s' -> reachable s0 s' es ss.

(** The buffers [q] hold the requests [js]. *)
Definition holds (s : ide) (q : list nat) (js : list job) : Prop := Forall2 (fun b j => exists x, ibufs s !! b = Some x /\ job_of x = j) q js.
Record good (s : ide) (m : image) (q : list nat) (js : list job) : Prop := {
  g_inv : inv s q m;
  g_jobs : holds s q js;
  g_sleepers : forall b, b ∈ q -> exists pid, asleep s !! pid = Some b;
}.

Lemma holds_ext (s s' : ide) q js : (forall b y, b ∈ q -> ibufs s !! b = Some y -> exists y', ibufs s' !! b = Some y' /\ job_of y' = job_of y) -> holds s q js -> holds s' q js.
Proof.
  intros Hq Hh. induction Hh as [|b j q js (x&Hx&Hj) _ IH]; constructor.
  - destruct (Hq b x) as (y&Hy&Jy); [by left|done|]. exists y. split; [done|congruence].
  - apply IH. intros c y Hc. apply Hq. by right.
Qed.

Lemma good_interrupt (s : ide) m b q j js out : good s m (b :: q) (j :: js) ->
  exists x s', ibufs s !! b = Some x /\ job_of x = j /\ interrupt out s = Good s' /\ good s' (serve m (j, out)) q js /\ ibufs s' !! b = Some (after m x out) /\
    forall pid c, asleep s !! pid = Some c -> if decide (c = b) then awake s' !! pid = Some b else asleep s' !! pid = Some c.
Proof.
  intros [Hi Hj Hs]. inversion Hj as [|? ? ? ? (x&Hx&Ex) Hjs]; subst. destruct (interrupt_ok s b q m x out Hi Hx) as (s'&E&Hi'&Eb&Hw). exists x, s'.
  pose proof (i_nodup _ _ _ Hi) as Hnd. apply NoDup_cons in Hnd as [Hb _]. split; [done|]. split; [done|]. split; [done|]. split; [|split; [rewrite Eb; by rewrite lookup_insert_eq|done]]. split; [done| |].
  - eapply holds_ext; [|exact Hjs]. intros c y Hc Hy. exists y. split; [|done]. rewrite Eb. by rewrite lookup_insert_ne by (intros ->; done).
  - intros c Hc. destruct (Hs c ltac:(by right)) as [pid Hpid]. exists pid. specialize (Hw pid c Hpid). rewrite decide_False in Hw by (intros ->; done). done.
Qed.

Lemma good_call (s : ide) m q js pid b x s' : good s m q js -> ibufs s !! b = Some x -> pending x = true -> 0 <= f_blockno x < FSSIZE -> (f_dev x = 0 \/ havedisk1 s = true) ->
  (forall p, asleep s !! p <> Some b /\ awake s !! p <> Some b) -> asleep s !! pid = None -> iderw polls pid b true s = Good s' -> good s' m (q ++ [b]) (js ++ [job_of x]).
Proof.
  intros [Hi Hj Hs] Hx Hp Hbl Hdev Hfree Hpid E. assert (Hb : b ∉ q) by (intros Hb; destruct (Hs b Hb) as [p Hb']; by destruct (Hfree p)).
  destruct (iderw_ok s q m pid b x Hi Hx Hp Hbl Hdev Hb) as (s1&E1&Hi1&Hsl&Hbufs); [intros p; apply Hfree|]. replace s1 with s' in * by congruence. split; [done| |].
  - apply Forall2_app; [eapply holds_ext; [|exact Hj]; eauto|]. apply Forall2_cons. split; [|by apply Forall2_nil]. destruct (Hbufs b x Hx) as (y&Hy&Jy). by exists y.
  - rewrite Hsl. intros c [Hc| ->%list_elem_of_singleton]%elem_of_app; [|exists pid; apply lookup_insert_eq].
    destruct (Hs c Hc) as [p Hpc]. exists p. rewrite lookup_insert_ne; [done|]. intros ->. congruence.
Qed.

Lemma reachable_good s0 m0 s es ss : started s0 m0 -> reachable s0 s es ss -> exists q js, good s (fold_left serve ss m0) q js /\ es = (fst <$> ss) ++ js.
Proof.
  intros (Hq0&Hr0&Hs0&Ha0). induction 1 as [|s es ss pid b x s' _ IH Hx Hp Hbl Hdev Hfree Hpid _ E|s es ss b x out s' _ IH Hq Hx E|s es ss s' _ IH Hq E|s es ss pid b s' _ IH Hw E].
  - exists [], []. split; [|done]. split; [|constructor|by intros b ?%elem_of_nil]. split; [done|constructor|by intros b ?%elem_of_nil|done|rewrite Hs0; by intros ? ? ?%lookup_empty_Some|rewrite Ha0; by intros ? ? ?%lookup_empty_Some].
  - destruct IH as (q&js&Hg&->). exists (q ++ [b]), (js ++ [job_of x]). split; [by eapply good_call|by rewrite app_assoc].
  - destruct IH as (q&js&Hg&->). destruct q as [|c q]; [pose proof (i_chain _ _ _ (g_inv _ _ _ _ Hg)) as Hc; cbn in Hc; congruence|].
    destruct (i_chain _ _ _ (g_inv _ _ _ _ Hg)) as [Hc _]. assert (c = b) as -> by congruence. pose proof (g_jobs _ _ _ _ Hg) as Hj. inversion Hj; subst.
    destruct (good_interrupt _ _ _ _ _ _ out Hg) as (x'&s1&Hx'&Jx&E1&Hg1&_). replace x' with x in Jx by congruence. replace s1 with s' in Hg1 by congruence. rewrite Jx.
    eexists q, _. split; [rewrite fold_left_app; exact Hg1|]. by rewrite fmap_app, <- app_assoc.
  - unfold ideintr in E. rewrite Hq in E. by injection E as <-.
  - destruct IH as (q&js&Hg&->). exists q, js. split; [|done]. pose proof Hg as [Hi Hj Hs]. destruct (i_awake _ _ _ Hi pid b Hw) as [Hb (x&Hx&Hp)].
    unfold iderw_wait, ibuf_of in E. rewrite Hx in E. cbn [mbind result_bind] in E. rewrite Hp in E. injection E as <-. destruct Hi as [H1 H2 H3 H4 H5 H6]. split; [|done|done]. split; [done..|].
    intros p c Hpc. change (delete pid (awake s) !! p = Some c) in Hpc. apply lookup_delete_Some in Hpc as [_ Hpc]. by eapply H6.
Qed.

(** One interrupt after the other, with how the commands end. *)
Fixpoint interrupts (outs : list outcome) (s : ide) : result ide := match outs with [] => Good s | out :: outs => s ← interrupt out s; interrupts outs s end.

(** A sleeper at place [k] of the queue is woken by [k + 1] interrupts. *)
Lemma woken (s : ide) m q js pid b outs : good s m q js -> asleep s !! pid = Some b -> length outs = length q ->
  exists k s', interrupts (take k outs) s = Good s' /\ awake s' !! pid = Some b.
Proof.
  revert s m js outs. induction q as [|c q IH]; intros s m js outs Hg Hpid Ho.
  - pose proof (i_asleep _ _ _ (g_inv _ _ _ _ Hg) pid b Hpid) as Hb. by apply elem_of_nil in Hb.
  - destruct outs as [|out outs]; [done|]. pose proof (g_jobs _ _ _ _ Hg) as Hj. inversion Hj; subst.
    destruct (good_interrupt _ _ _ _ _ _ out Hg) as (x&s1&_&_&E&Hg1&_&Hw). specialize (Hw pid b Hpid). destruct (decide (b = c)) as [->|Hne].
    + exists 1%nat, s1. cbn [take interrupts]. by rewrite E.
    + destruct (IH s1 _ _ outs Hg1 Hw) as (k&s'&E'&Hw'); [by injection Ho|]. exists (S k), s'. cbn [take interrupts]. by rewrite E.
Qed.

(** C9: The disk driver serves its requests in order, whatever the interleaving
    of calls, interrupts and woken processes and whichever commands fail, on a
    controller that takes the data of a write right after the command (the
    driver does not wait until it is asked for).  In every state reached, the
    requests served are the first of those made, in the same order; the queue is
    empty only when all are served; the next interrupt neither panics nor hangs.
    When the command has succeeded it leaves in the buffer of the oldest request,
    for a read, what the disk holds after all requests before it (a write leaves
    its data on the disk, which the next reads see); when a read has failed the
    bytes of the buffer stay as they were; in both cases, and when a write has
    failed, the flags say valid and clean: errors are not reported.  A process
    that has been woken finds its request done; and a process asleep in [iderw]
    is woken within as many interrupts as there are requests not yet served. *)
Theorem ide_serves_in_order s0 m0 s es ss : started s0 m0 -> reachable s0 s es ss ->
  (exists rest, es = (fst <$> ss) ++ rest /\ (idequeue s = None <-> rest = [])) /\
  (forall b x out, idequeue s = Some b -> ibufs s !! b = Some x ->
     exists s', interrupt out s = Good s' /\ ibufs s' !! b = Some (after (fold_left serve ss m0) x out)) /\
  (forall pid b, awake s !! pid = Some b -> exists x, ibufs s !! b = Some x /\ f_valid x = true /\ f_dirty x = false) /\
  (forall pid b outs, asleep s !! pid = Some b -> length outs = (length es - length ss)%nat ->
     exists k s', interrupts (take k outs) s = Good s' /\ awake s' !! pid = Some b).
Proof.
  intros Hst Hr. destruct (reachable_good s0 m0 s es ss Hst Hr) as (q&js&Hg&->). pose proof (g_inv _ _ _ _ Hg) as Hi. pose proof (g_jobs _ _ _ _ Hg) as Hj. pose proof (i_chain _ _ _ Hi) as Hc.
  split; [|split; [|split]].
  - exists js. split; [done|]. destruct Hj as [|b j q js]; cbn in Hc; [by rewrite Hc|]. destruct Hc as [-> _]. done.
  - intros b x out Hb Hx. destruct q as [|c q]; [cbn in Hc; congruence|]. destruct Hc as [Hc _]. assert (c = b) as -> by congruence. inversion Hj; subst.
    destruct (good_interrupt _ _ _ _ _ _ out Hg) as (x'&s'&Hx'&_&E&_&Hb'&_). exists s'. split; [done|]. by replace x with x' by congruence.
  - intros pid b Hw. destruct (i_awake _ _ _ Hi pid b Hw) as [_ (x&Hx&Hp)]. exists x. split; [done|]. unfold pending in Hp. destruct (f_valid x), (f_dirty x); done.
  - intros pid b outs Hs Ho. eapply woken; [exact Hg|exact Hs|]. rewrite Ho, length_app, length_fmap, (Forall2_length _ _ _ Hj). lia.
Qed.

End Proofs.

(** ** Demo: a drive with its registers and an image *)

(** [t_cmd]: a write that wants data, a write with its data, a read. *)
Inductive toy_cmd : Type := TWant | TWrite (data : list Z) | TRead.
Record toy := mkToy { t_img : image; t_reg : Z -> Z; t_cmd : option toy_cmd; t_err : bool }.
Definition toy_outb (p v : Z) (d : toy) : toy :=
  if p =? 0x1f7 then mkToy (t_img d) (t_reg d) (Some (if v =? 0x30 then TWant else TRead)) false
  else mkToy (t_img d) (fun q => if q =? p then v else t_reg d q) (t_cmd d) (t_err d).
Definition toy_lba (d : toy) : Z := lba (t_reg d 0x1f3) (t_reg d 0x1f4) (t_reg d 0x1f5) (t_reg d 0x1f6).
#[export] Instance toy_ata : Ata toy := {
  ata_inb _ d := (if t_err d then 0x41 else 0x40, d);
  ata_outb := toy_outb;
  ata_outsl _ data d := match t_cmd d with Some TWant => mkToy (t_img d) (t_reg d) (Some (TWrite data)) (t_err d) | _ => d end;
  ata_insl _ d := (if t_err d then [] else t_img d (drive (t_reg d 0x1f6)) (toy_lba d), mkToy (t_img d) (t_reg d) None (t_err d));
  ata_done out d :=
    let err := match out with Completed => false | Failed _ => true end in
    match t_cmd d with
    | Some (TWrite data) =>
      mkToy (write_image (t_img d) (drive (t_reg d 0x1f6)) (toy_lba d) (match out with Completed => data | Failed rest => rest end)) (t_reg d) None err
    | c => mkToy (t_img d) (t_reg d) c err
    end;
}.
#[export, refine] Instance toy_laws : AtaLaws toy := {
  at_rest d m := t_img d = m;
  wants d m dr se := t_img d = m /\ (dr, se) = (drive (t_reg d 0x1f6), toy_lba d) /\ t_cmd d = Some TWant;
  busy d m j := t_img d = m /\ j.1 = (drive (t_reg d 0x1f6), toy_lba d) /\ t_cmd d = Some (match j.2 with Some data => TWrite data | None => TRead end);
}.
Proof.
  - intros d m Hr. exists (if t_err d then 0x41 else 0x40), d. split; [done|]. split; [by destruct (t_err d)|done].
  - intros d m r3 r4 r5 r6 Hr. by rewrite <- Hr.
  - intros d m r3 r4 r5 r6 Hr. by rewrite <- Hr.
  - intros d m dr se data (Hm&Hj&Hc). cbn. rewrite Hc. by injection Hj as -> ->.
  - intros d m dr se (Hm&Hj&Hc). cbn in Hj, Hc. injection Hj as -> ->. exists 0x40, (mkToy (t_img d) (t_reg d) (Some TRead) false).
    cbn [ata_inb ata_done toy_ata]. rewrite Hc. split; [done|]. split; [done|]. split; [done|]. eexists. split; [cbn; by rewrite <- Hm|done].
  - intros d m dr se rest (Hm&Hj&Hc). cbn in Hj, Hc. exists 0x41, (mkToy (t_img d) (t_reg d) (Some TRead) true).
    cbn [ata_inb ata_done toy_ata]. by rewrite Hc.
  - intros d m dr se data out (Hm&Hj&Hc). cbn in Hj, Hc. injection Hj as -> ->. cbn. rewrite Hc. cbn. rewrite Hm. by destruct out.
Defined.

(** A write of block 7 and a read of block 7, queued behind it. *)
Definition demo_image : image := fun _ _ => zero_bytes BSIZE.
Definition demo_ide : @ide toy :=
  mkIde {[0%nat := mkIbuf true true 1 7 [1; 2; 3] None; 1%nat := mkIbuf false false 1 7 [9] None]} None true (mkToy demo_image (fun _ => 0) None false) ∅ ∅.
Definition get (r : result (@ide toy)) : @ide toy := match r with Good s => s | _ => demo_ide end.
Definition demo_two : @ide toy := get (iderw 5 11 1 true (get (iderw 5 10 0 true demo_ide))).

Example demo_read : exists s, interrupts 5 [Completed; Completed] demo_two = Good s /\ f_data <$> ibufs s !! 1%nat = Some [1; 2; 3] /\ idequeue s = None.
Proof. eexists. split; vm_compute; [reflexivity|]. split; reflexivity. Qed.

(** A read that fails leaves the old bytes in a buffer that says valid. *)
Example failed_read_is_valid : exists s, interrupts 5 [Completed; Failed []] demo_two = Good s /\
  (fun x => (f_data x, f_valid x, f_dirty x)) <$> ibufs s !! 1%nat = Some ([9], true, false).
Proof. eexists. split; vm_compute; reflexivity. Qed.

Definition demo_one : @ide toy := get (iderw 5 10 0 true demo_ide).
Lemma demo_one_reach : reachable 5 demo_ide demo_one [(1, 7, Some [1; 2; 3])] [].
Proof.
  apply (rc_call 5 demo_ide demo_ide [] [] 10 0 (mkIbuf true true 1 7 [1; 2; 3] None));
    [apply rc_start|reflexivity|reflexivity|unfold FSSIZE; cbn; lia|by right| |reflexivity|reflexivity|vm_compute; reflexivity].
  intros p. change (asleep demo_ide) with (∅ : gmap nat nat). change (awake demo_ide) with (∅ : gmap nat nat). by rewrite lookup_empty.
Qed.
Lemma demo_reach : reachable 5 demo_ide demo_two [(1, 7, Some [1; 2; 3]); (1, 7, None)] [].
Proof.
  apply (rc_call 5 demo_ide demo_one [(1, 7, Some [1; 2; 3])] [] 11 1 (mkIbuf false false 1 7 [9] None));
    [exact demo_one_reach|vm_compute; reflexivity|reflexivity|unfold FSSIZE; cbn; lia|by right| |vm_compute; reflexivity|vm_compute; reflexivity|vm_compute; reflexivity].
  assert (Hs : asleep demo_one = {[10%nat := 0%nat]}) by (vm_compute; reflexivity). assert (Hw : awake demo_one = ∅) by (vm_compute; reflexivity). rewrite Hs, Hw.
  intros p. split; [|by rewrite lookup_empty]. intros Hp. apply lookup_singleton_Some in Hp as [_ ?]. done.
Qed.

Lemma ide_serves_in_order_witness : exists k s', interrupts 5 (take k [Completed; Failed []]) demo_two = Good s' /\ awake s' !! 11%nat = Some 1%nat.
Proof.
  apply (ide_serves_in_order 5 demo_ide demo_image demo_two [(1, 7, Some [1; 2; 3]); (1, 7, None)] []); [|exact demo_reach|vm_compute; reflexivity|reflexivity].
  split; [reflexivity|]. split; [reflexivity|]. split; reflexivity.
Defined.

End Ide.
