(* ===== verification/Trap.v ===== *)
(** * Trap: interrupts, exceptions and system calls (trap.c)

    [trap] as the assembly entry calls it, with the trap frame on the kernel
    stack: the dispatch on the trap number and what happens before the return to
    the interrupted code.  The handlers of the keyboard, the serial port and the
    IDE controller keep state of their own (Console, Ide) and are parameters
    here; so are the CPU the code runs on, its [cr2] and the address of its local
    APIC, 0 if there is none.  The theorems show that
    the timer preempts the running process and wakes the sleepers, and that a
    fault in user space ends that process and nothing else. *)
From S2P Require Import Prelude Printf Console Queue KState Kalloc Proc Sleeplock Bio Log Nic Receive File Fs Sysfile Vm Space Life Syscall.

Module Trap.

(** ** traps.h, mmu.h *)
Definition T_SYSCALL : Z := 64.
Definition T_IRQ0 : Z := 32.
Definition IRQ_TIMER : Z := 0.
Definition IRQ_KBD : Z := 1.
Definition IRQ_COM1 : Z := 4.
Definition IRQ_NIC : Z := 11.
Definition IRQ_IDE : Z := 14.
Definition IRQ_ERROR : Z := 19.
Definition IRQ_SPURIOUS : Z := 31.
Definition SEG_KCODE : Z := 1.
Definition DPL_USER : Z := 3.
Definition STS_IG32 : Z := 0xE.
Definition STS_TG32 : Z := 0xF.

(** ** The interrupt descriptor table *)
Record gatedesc := mkGate { off_15_0 : Z; g_cs : Z; g_args : Z; g_rsv1 : Z; g_type : Z; g_s : Z; g_dpl : Z; g_p : Z; off_31_16 : Z }.
Definition SETGATE (istrap : bool) (sel off d : Z) : gatedesc :=
  mkGate (Z.land off 0xffff) sel 0 0 (if istrap then STS_TG32 else STS_IG32) 0 d 1 (Z.shiftr off 16).
(** The table, given the entry points of vectors.S. *)
Definition tvinit (vectors : nat -> Z) : list gatedesc :=
  let idt := (fun i => SETGATE false (Z.shiftl SEG_KCODE 3) (vectors i) 0) <$> seq 0 256 in
  <[Z.to_nat T_SYSCALL := SETGATE true (Z.shiftl SEG_KCODE 3) (vectors (Z.to_nat T_SYSCALL)) DPL_USER]> idt.

(** ** [trap] *)
Section Code.
Context (fuel : nat) {devs : Devices} {stk : Stack} {mach : Machine} (data : Z).
Context (cpu cr2 lapic : Z) (kbdintr uartintr ideintr : M unit).

(** %d and %x of [cprintf]. *)
Definition show_hex (z : Z) : list Z := default [] ((@rev Z) <$> Printf.digit_loop Console.digits 16 (u32 z) 16).

(** lapic.c: acknowledge interrupt. *)
Definition lapiceoi : M unit := if negb (lapic =? 0) then emit (EvLapic (0x00B0 / 4) 0) else mret tt.

Definition timer : M unit :=
  if cpu =? 0 then
    acquire LkTicks ;;
    modify (fun s => s <| ticks := u32 (ticks s + 1) |>) ;;
    Proc.wakeup ChTicks ;;
    release LkTicks
  else mret tt.

Definition spurious (tf : trapframe) : M unit :=
  emit (EvPrint (chars "cpu" ++ Fs.show_int cpu ++ chars ": spurious interrupt at " ++ show_hex (tf_cs tf) ++ chars ":" ++ show_hex (tf_eip tf) ++ [10])).

Definition unexpected (tf : trapframe) : M unit :=
  o ← Proc.myproc;
  match o with
  | Some i =>
    if negb (Z.land (tf_cs tf) 3 =? 0) then
      p ← Proc.get_proc i;
      emit (EvPrint (chars "pid " ++ Fs.show_int (p_pid p) ++ chars " " ++ Receive.c_string (p_name p) ++ chars ": trap " ++ Fs.show_int (tf_trapno tf) ++
        chars " err " ++ Fs.show_int (tf_err tf) ++ chars " on cpu " ++ Fs.show_int cpu ++ chars " eip 0x" ++ show_hex (tf_eip tf) ++ chars " addr 0x" ++ show_hex cr2 ++
        chars "--kill proc" ++ [10])) ;;
      Proc.set_proc i (fun p => p <| p_killed := true |>)
    else
      emit (EvPrint (chars "unexpected trap " ++ Fs.show_int (tf_trapno tf) ++ chars " from cpu " ++ Fs.show_int cpu ++ chars " eip " ++ show_hex (tf_eip tf) ++
        chars " (cr2=0x" ++ show_hex cr2 ++ chars ")" ++ [10])) ;;
      panic "trap"
  | None =>
    emit (EvPrint (chars "unexpected trap " ++ Fs.show_int (tf_trapno tf) ++ chars " from cpu " ++ Fs.show_int cpu ++ chars " eip " ++ show_hex (tf_eip tf) ++
      chars " (cr2=0x" ++ show_hex cr2 ++ chars ")" ++ [10])) ;;
    panic "trap"
  end.

(** The [switch] on the trap number. *)
Definition dispatch (tf : trapframe) : M unit :=
  let n := tf_trapno tf in
  if n =? T_IRQ0 + IRQ_TIMER then timer ;; lapiceoi
  else if n =? T_IRQ0 + IRQ_IDE then ideintr ;; lapiceoi
  else if n =? T_IRQ0 + IRQ_IDE + 1 then mret tt
  else if n =? T_IRQ0 + IRQ_KBD then kbdintr ;; lapiceoi
  else if n =? T_IRQ0 + IRQ_COM1 then uartintr ;; lapiceoi
  else if n =? T_IRQ0 + IRQ_NIC then Receive.nicintr fuel ;; lapiceoi
  else if (n =? T_IRQ0 + 7) || (n =? T_IRQ0 + IRQ_SPURIOUS) then spurious tf ;; lapiceoi
  else unexpected tf.

(** [if(myproc() && myproc()->killed && (tf->cs&3) == DPL_USER) exit();] *)
Definition exit_if_killed (tf : trapframe) : M unit :=
  o ← Proc.myproc;
  match o with
  | None => mret tt
  | Some i => p ← Proc.get_proc i; if p_killed p && (Z.land (tf_cs tf) 3 =? DPL_USER) then Life.exit fuel else mret tt
  end.

(** Force process to give up CPU on clock tick. *)
Definition yield_on_tick (tf : trapframe) : M unit :=
  o ← Proc.myproc;
  match o with
  | None => mret tt
  | Some i => p ← Proc.get_proc i; if bool_decide (p_state p = RUNNING) && (tf_trapno tf =? T_IRQ0 + IRQ_TIMER) then Proc.yield else mret tt
  end.

(** [if(myproc()->killed) exit();] *)
Definition exit_killed : M unit :=
  i ← File.current; p ← Proc.get_proc i; if p_killed p then Life.exit fuel else mret tt.

Definition trap (tf : trapframe) : M unit :=
  if tf_trapno tf =? T_SYSCALL then
    exit_killed ;;
    i ← File.current; Proc.set_proc i (fun p => p <| p_tf := tf |>) ;;
    Syscall.syscall fuel data ;;
    exit_killed
  else
    dispatch tf ;;
    exit_if_killed tf ;;
    yield_on_tick tf ;;
    exit_if_killed tf.


(** ** Preemption *)

(** The process table when the timer has fired under process [i]. *)
Definition after_tick (i : nat) (l : list proc) : list proc :=
  alter (fun p => p <| p_state := RUNNABLE |>) i (if cpu =? 0 then Proc.wakeup1_proc ChTicks <$> l else l).

Lemma timer_ok s : held s = [] ->
  timer s = Ret tt (if cpu =? 0 then s <| ticks := u32 (ticks s + 1) |> <| ptable := Proc.wakeup1_proc ChTicks <$> ptable s |> else s).
Proof.
  intros Hh. unfold timer. destruct (cpu =? 0); [|done]. mrun. rewrite Kalloc.acquire_ok by (rewrite Hh; set_solver). mrun.
  rewrite Proc.wakeup_ok by (cbn; rewrite Hh; set_solver). mrun. rewrite Kalloc.release_ok by (cbn; rewrite Hh; set_solver). destruct s. cbn in *. subst. done.
Qed.

Lemma running_woken p : p_state p = RUNNING -> Proc.wakeup1_proc ChTicks p = p.
Proof. intros H. unfold Proc.wakeup1_proc. by rewrite bool_decide_eq_false_2 by (rewrite H; done). Qed.

Lemma yield_blocks i p s : curproc s = Some i -> ptable s !! i = Some p -> held s = [] ->
  exists k, Proc.yield s = Block (s <| ptable := alter (fun p => p <| p_state := RUNNABLE |>) i (ptable s) |> <| held := [LkPtable] |>) k /\
    forall s', held s' = [LkPtable] -> k s' = Ret tt (s' <| held := [] |>).
Proof.
  intros Hc Hp Hh. unfold Proc.yield, Proc.myproc, Proc.set_proc. mrun. rewrite Kalloc.acquire_ok by (rewrite Hh; set_solver). mrun. change (curproc (s <| held := _ |>)) with (curproc s). rewrite Hc. cbn [need]. mrun.
  rewrite (Proc.sched_ok i (p <| p_state := RUNNABLE |>)); [|done|cbn; by rewrite list_lookup_alter_eq, Hp|cbn; by rewrite Hh|done]. cbn [obind]. eexists. split.
  - f_equal. destruct s. cbn in *. by subst.
  - intros s' Hs. mrun. rewrite Kalloc.release_ok by (rewrite Hs; set_solver). rewrite Hs. done.
Qed.

Lemma exit_if_killed_skip i p tf s : curproc s = Some i -> ptable s !! i = Some p -> p_killed p && (Z.land (tf_cs tf) 3 =? DPL_USER) = false -> exit_if_killed tf s = Ret tt s.
Proof. intros Hc Hp Hk. unfold exit_if_killed, Proc.myproc. mrun. rewrite Hc. mrun. rewrite (Proc.get_proc_ok i p) by done. cbn [obind]. by rewrite Hk. Qed.

(** C10: The clock preempts.  When the timer interrupts a running process that has
    not been killed, [trap] on CPU 0 counts the tick, makes every process that
    sleeps on the clock runnable; on every CPU it acknowledges the interrupt at the
    local APIC, if there is one, the
    interrupted process becomes runnable and the CPU goes to the scheduler with
    only [ptable.lock] held.  When the scheduler picks the process again, [trap]
    releases the lock and returns to the interrupted code, with the rest of the
    state as it finds it - unless the process was killed meanwhile and was in user
    space, when it exits. *)
Theorem trap_preempts tf i p s : tf_trapno tf = T_IRQ0 + IRQ_TIMER -> curproc s = Some i -> ptable s !! i = Some p -> p_state p = RUNNING -> p_killed p = false -> held s = [] ->
  exists s1 k, trap tf s = Block s1 k /\ ptable s1 = after_tick i (ptable s) /\ ticks s1 = (if cpu =? 0 then u32 (ticks s + 1) else ticks s) /\
    held s1 = [LkPtable] /\ curproc s1 = Some i /\ trace s1 = trace s ++ (if lapic =? 0 then [] else [EvLapic (0x00B0 / 4) 0]) /\
    forall s' q, held s' = [LkPtable] -> curproc s' = Some i -> ptable s' !! i = Some q ->
      k s' = if p_killed q && (Z.land (tf_cs tf) 3 =? DPL_USER) then Life.exit fuel (s' <| held := [] |>) else Ret tt (s' <| held := [] |>).
Proof.
  intros Hn Hc Hp Hst Hk Hh.
  set (s0 := if cpu =? 0 then s <| ticks := u32 (ticks s + 1) |> <| ptable := Proc.wakeup1_proc ChTicks <$> ptable s |> else s).
  set (s2 := s0 <| trace := trace s ++ (if lapic =? 0 then [] else [EvLapic (0x00B0 / 4) 0]) |>).
  assert (Hc2 : curproc s2 = Some i) by (unfold s2, s0; by destruct (cpu =? 0)).
  assert (Hp2 : ptable s2 !! i = Some p) by (unfold s2, s0; destruct (cpu =? 0); [cbn; by rewrite list_lookup_fmap, Hp; cbn; rewrite running_woken|done]).
  assert (Hh2 : held s2 = []) by (unfold s2, s0; by destruct (cpu =? 0)). destruct (yield_blocks i p s2 Hc2 Hp2 Hh2) as (k&E&Hk2).
  assert (Ed : dispatch tf s = Ret tt s2).
  { unfold dispatch. rewrite Hn, Z.eqb_refl. unfold mbind, M_bind. rewrite timer_ok by done. cbn [obind]. unfold lapiceoi. fold s0.
    destruct (lapic =? 0); cbn [negb]; mrun; f_equal; unfold s2, s0; destruct (cpu =? 0), s; cbn; by rewrite ?app_nil_r. }
  assert (Ey : yield_on_tick tf s2 = Block (s2 <| ptable := alter (fun p => p <| p_state := RUNNABLE |>) i (ptable s2) |> <| held := [LkPtable] |>) k).
  { unfold yield_on_tick, Proc.myproc. mrun. rewrite Hc2. mrun. rewrite (Proc.get_proc_ok i p) by done. cbn [obind]. rewrite bool_decide_eq_true_2 by done. rewrite Hn, Z.eqb_refl. exact E. }
  unfold trap. rewrite Hn. change (T_IRQ0 + IRQ_TIMER =? T_SYSCALL) with false. cbv iota. unfold mbind, M_bind at 1. rewrite Ed. cbn [obind].
  unfold M_bind at 1. rewrite (exit_if_killed_skip i p) by (done || by rewrite Hk). cbn [obind]. unfold M_bind at 1. rewrite Ey. cbn [obind].
  eexists _, _. split; [reflexivity|]. split_and!.
  - unfold after_tick, s2, s0. by destruct (cpu =? 0).
  - unfold s2, s0. by destruct (cpu =? 0).
  - done.
  - done.
  - done.
  - intros s' q Hh' Hc' Hq. rewrite (Hk2 s' Hh'). cbn [obind]. unfold exit_if_killed, Proc.myproc. mrun. change (curproc (s' <| held := [] |>)) with (curproc s'). rewrite Hc'. mrun.
    rewrite (Proc.get_proc_ok i q) by done. cbn [obind]. by destruct (p_killed q && _).
Qed.


(** ** Faults *)

(** The trap numbers the [switch] does not know. *)
Definition is_fault (n : Z) : bool :=
  negb (existsb (Z.eqb n) [T_SYSCALL; T_IRQ0 + IRQ_TIMER; T_IRQ0 + IRQ_IDE; T_IRQ0 + IRQ_IDE + 1; T_IRQ0 + IRQ_KBD; T_IRQ0 + IRQ_COM1; T_IRQ0 + IRQ_NIC; T_IRQ0 + 7; T_IRQ0 + IRQ_SPURIOUS]).

Lemma dispatch_fault tf : is_fault (tf_trapno tf) = true -> (tf_trapno tf =? T_SYSCALL) = false /\ dispatch tf = unexpected tf.
Proof.
  unfold is_fault. cbn [existsb]. intros H%negb_true_iff. rewrite !orb_false_iff in H. destruct H as (H1&H2&H3&H4&H5&H6&H7&H8&H9&_).
  split; [done|]. unfold dispatch. cbv zeta. by rewrite H2, H3, H4, H5, H6, H7, H8, H9.
Qed.

(** C27: A fault is contained.  A trap the kernel does not expect (a page fault, a
    division by zero, an illegal instruction, ...) in user space prints a message
    and ends the process that caused it: [trap] marks it killed and goes on as
    [exit] in a state in which nothing else has changed.  The same trap in kernel
    mode, or with no process, is a kernel error: the message and a panic. *)
Theorem trap_contains_fault tf s : is_fault (tf_trapno tf) = true ->
  (forall i p, curproc s = Some i -> ptable s !! i = Some p -> Z.land (tf_cs tf) 3 = DPL_USER ->
     exists msg rest, trap tf s = obind (Life.exit fuel (s <| trace := trace s ++ [EvPrint msg] |> <| ptable := alter (fun p => p <| p_killed := true |>) i (ptable s) |>)) rest) /\
  (forall o, curproc s = o -> o = None \/ Z.land (tf_cs tf) 3 = 0 -> trap tf s = Panic "trap").
Proof.
  intros Hf. destruct (dispatch_fault tf Hf) as [Hs Hd]. unfold trap. rewrite Hs, Hd. split.
  - intros i p Hc Hp Hcs. unfold mbind, M_bind at 1. unfold unexpected, Proc.myproc. mrun. rewrite Hc, Hcs. change (negb (DPL_USER =? 0)) with true. cbv iota. mrun.
    rewrite (Proc.get_proc_ok i p) by done. cbn [obind]. unfold Proc.set_proc. mrun. eexists _, _.
    unfold exit_if_killed at 1, Proc.myproc. mrun. change (curproc (s <| trace := ?t |> <| ptable := ?l |>)) with (curproc s).
    set (s1 := s <| trace := _ |> <| ptable := _ |>). change (curproc s1) with (curproc s). rewrite Hc. mrun.
    rewrite (Proc.get_proc_ok i (p <| p_killed := true |>)) by (unfold s1; cbn; by rewrite list_lookup_alter_eq, Hp). cbn [obind]. rewrite Hcs. cbn [p_killed setf]. rewrite Z.eqb_refl. reflexivity.
  - intros o Hc Ho. unfold mbind, M_bind at 1. unfold unexpected, Proc.myproc. mrun. rewrite Hc. destruct o as [i|]; [|done]. destruct Ho as [|Hcs]; [done|]. rewrite Hcs. done.
Qed.

End Code.

(** ** Witnesses *)
Definition quiet_devices : Devices := {| dev_read _ := None; dev_write _ := None |}.
Definition quiet_machine : Machine := {| port_in _ _ := 0; reg_in _ _ := 0; dma_in _ l := l |}.
#[program] Definition zero_stack : Stack := {| uninit n := replicate n 0 |}.
Next Obligation. intros n. apply length_replicate. Qed.
Next Obligation. intros n. apply Forall_replicate. unfold byte_ok. lia. Qed.

(** A sleeper on the clock and a running process, in user mode. *)
Definition demo_trap : kstate :=
  tiny <| ptable := [ zero_proc <| p_state := SLEEPING |> <| p_pid := 1 |> <| p_chan := Some ChTicks |>; zero_proc <| p_state := RUNNING |> <| p_pid := 2 |> ] |>
    <| curproc := Some 1%nat |> <| initproc := Some 0%nat |>.
Definition demo_tf (n : Z) : trapframe := zero_tf <| tf_trapno := n |> <| tf_cs := 0x1b |>.

Lemma trap_preempts_witness : exists s1 k, @trap 9 quiet_devices zero_stack quiet_machine 0 0 0 0xfee00000 (mret tt) (mret tt) (mret tt) (demo_tf 32) demo_trap = Block s1 k /\
  (p_state <$> ptable s1) = [RUNNABLE; RUNNABLE] /\ ticks s1 = u32 (ticks demo_trap + 1).
Proof.
  destruct (@trap_preempts 9 quiet_devices zero_stack quiet_machine 0 0 0 0xfee00000 (mret tt) (mret tt) (mret tt) (demo_tf 32) 1 (zero_proc <| p_state := RUNNING |> <| p_pid := 2 |>) demo_trap)
    as (s1&k&E&Hp&Ht&_); [reflexivity..|].
  exists s1, k. split; [exact E|]. split; [rewrite Hp; vm_compute; reflexivity|rewrite Ht; reflexivity].
Defined.

Lemma trap_contains_fault_witness : exists msg rest, @trap 9 quiet_devices zero_stack quiet_machine 0 0 0 0xfee00000 (mret tt) (mret tt) (mret tt) (demo_tf 14) demo_trap =
  obind (@Life.exit 9 quiet_devices (demo_trap <| trace := trace demo_trap ++ [EvPrint msg] |> <| ptable := alter (fun p => p <| p_killed := true |>) 1%nat (ptable demo_trap) |>)) rest.
Proof.
  destruct (@trap_contains_fault 9 quiet_devices zero_stack quiet_machine 0 0 0 0xfee00000 (mret tt) (mret tt) (mret tt) (demo_tf 14) demo_trap) as [H _]; [reflexivity|].
  apply (H 1%nat (zero_proc <| p_state := RUNNING |> <| p_pid := 2 |>)); reflexivity.
Defined.

End Trap.
