(* ===== verification/Hw.v ===== *)
(** * Hw: interrupt controllers, clock and serial port (picirq.c, ioapic.c, lapic.c, uart.c)

    The code that programs the devices, as functions on the history of accesses
    to ports and device registers, in program order.  What a read returns is the
    hardware's: the class [Hardware] gives it as a function of the history.
    The theorems read the effect off the history: which interrupts the I/O APIC
    delivers and where, what the local APIC is told to start a processor, and
    that [cmostime] returns a date the clock really showed. *)
From S2P Require Import Prelude KState.

Module Hw.

(** A port, or a 32-bit device register at an address. *)
Inductive io : Type := OutB (port val : Z) | InB (port : Z) | Store (addr val : Z) | Load (addr : Z).
Class Hardware := answer : list io -> Z.

(** Programs: [None] is a loop that has used up its fuel. *)
Definition IO (A : Type) : Type := list io -> option (A * list io).
#[export] Instance IO_ret : MRet IO := fun _ a h => Some (a, h).
#[export] Instance IO_bind : MBind IO := fun _ _ f m h => match m h with Some (a, h) => f a h | None => None end.

Section Code.
Context {hw : Hardware}.

Definition outb (port val : Z) : IO unit := fun h => Some (tt, h ++ [OutB port (u8 val)]).
Definition inb (port : Z) : IO Z := fun h => let h := h ++ [InB port] in Some (u8 (answer h), h).
Definition store (addr val : Z) : IO unit := fun h => Some (tt, h ++ [Store addr (u32 val)]).
Definition load (addr : Z) : IO Z := fun h => let h := h ++ [Load addr] in Some (u32 (answer h), h).

(** ** picirq.c *)
Definition IO_PIC1 : Z := 0x20.
Definition IO_PIC2 : Z := 0xA0.
Definition picinit : IO unit := outb (IO_PIC1 + 1) 0xFF ;; outb (IO_PIC2 + 1) 0xFF.

(** ** ioapic.c *)
Definition T_IRQ0 : Z := 32.
Definition IOAPIC : Z := 0xFEC00000.
Definition REG_ID : Z := 0x00.
Definition REG_VER : Z := 0x01.
Definition REG_TABLE : Z := 0x10.
Definition INT_DISABLED : Z := 0x00010000.
(** [ioapic->reg] and [ioapic->data]. *)
Definition IOAPIC_DATA : Z := IOAPIC + 16.

Definition ioapicread (reg : Z) : IO Z := store IOAPIC reg ;; load IOAPIC_DATA.
Definition ioapicwrite (reg data : Z) : IO unit := store IOAPIC reg ;; store IOAPIC_DATA data.

(** [for(i = 0; i <= maxintr; i++)], [n] more interrupts from [i] on. *)
Fixpoint disable_all (n : nat) (i : Z) : IO unit :=
  match n with
  | O => mret tt
  | S n => ioapicwrite (REG_TABLE + 2 * i) (Z.lor INT_DISABLED (T_IRQ0 + i)) ;; ioapicwrite (REG_TABLE + 2 * i + 1) 0 ;; disable_all n (i + 1)
  end.
(** [ioapicid]: the id the processor tables give; the result says whether it was the same. *)
Definition ioapicinit (ioapicid : Z) : IO bool :=
  v ← ioapicread REG_VER;
  let maxintr := Z.land (Z.shiftr v 16) 0xFF in
  v ← ioapicread REG_ID;
  let id := Z.shiftr v 24 in
  disable_all (Z.to_nat (maxintr + 1)) 0 ;;
  mret (id =? ioapicid).
Definition ioapicenable (irq cpunum : Z) : IO unit :=
  ioapicwrite (REG_TABLE + 2 * irq) (T_IRQ0 + irq) ;;
  ioapicwrite (REG_TABLE + 2 * irq + 1) (u32 (Z.shiftl cpunum 24)).

(** ** lapic.c *)
Definition ID : Z := 0x0020 / 4.
Definition VER : Z := 0x0030 / 4.
Definition TPR : Z := 0x0080 / 4.
Definition EOI : Z := 0x00B0 / 4.
Definition SVR : Z := 0x00F0 / 4.
Definition ENABLE : Z := 0x00000100.
Definition ESR : Z := 0x0280 / 4.
Definition ICRLO : Z := 0x0300 / 4.
Definition INIT : Z := 0x00000500.
Definition STARTUP : Z := 0x00000600.
Definition DELIVS : Z := 0x00001000.
Definition ASSERT : Z := 0x00004000.
Definition LEVEL : Z := 0x00008000.
Definition BCAST : Z := 0x00080000.
Definition ICRHI : Z := 0x0310 / 4.
Definition TIMER : Z := 0x0320 / 4.
Definition X1 : Z := 0x0000000B.
Definition PERIODIC : Z := 0x00020000.
Definition PCINT : Z := 0x0340 / 4.
Definition LINT0 : Z := 0x0350 / 4.
Definition LINT1 : Z := 0x0360 / 4.
Definition ERROR : Z := 0x0370 / 4.
Definition MASKED : Z := 0x00010000.
Definition TICR : Z := 0x0380 / 4.
Definition TDCR : Z := 0x03E0 / 4.
Definition IRQ_TIMER : Z := 0.
Definition IRQ_ERROR : Z := 19.
Definition IRQ_SPURIOUS : Z := 31.

Section Lapic.
(** The address mpinit found, 0 for none. *)
Context (lapic : Z).

Definition lapicr (index : Z) : IO Z := load (lapic + 4 * index).
Definition lapicw (index value : Z) : IO unit := store (lapic + 4 * index) value ;; _ ← lapicr ID; mret tt.

(** [while(lapic[ICRLO] & DELIVS)] *)
Fixpoint wait_delivery (fuel : nat) : IO unit :=
  match fuel with
  | O => fun _ => None
  | S fuel => v ← lapicr ICRLO; if negb (Z.land v DELIVS =? 0) then wait_delivery fuel else mret tt
  end.

Definition lapicinit (fuel : nat) : IO unit :=
  if lapic =? 0 then mret tt else
  lapicw SVR (Z.lor ENABLE (T_IRQ0 + IRQ_SPURIOUS)) ;;
  lapicw TDCR X1 ;;
  lapicw TIMER (Z.lor PERIODIC (T_IRQ0 + IRQ_TIMER)) ;;
  lapicw TICR 10000000 ;;
  lapicw LINT0 MASKED ;;
  lapicw LINT1 MASKED ;;
  v ← lapicr VER;
  (if 4 <=? Z.land (Z.shiftr v 16) 0xFF then lapicw PCINT MASKED else mret tt) ;;
  lapicw ERROR (T_IRQ0 + IRQ_ERROR) ;;
  lapicw ESR 0 ;;
  lapicw ESR 0 ;;
  lapicw EOI 0 ;;
  lapicw ICRHI 0 ;;
  lapicw ICRLO (Z.lor (Z.lor BCAST INIT) LEVEL) ;;
  wait_delivery fuel ;;
  lapicw TPR 0.

Definition lapicid : IO Z := if lapic =? 0 then mret 0 else v ← lapicr ID; mret (Z.shiftr v 24).
Definition lapiceoi : IO unit := if lapic =? 0 then mret tt else lapicw EOI 0.
Definition microdelay (us : Z) : IO unit := mret tt.

Definition CMOS_PORT : Z := 0x70.
Definition CMOS_RETURN : Z := 0x71.
(** [P2V(0x40<<4 | 0x67)] *)
Definition WRV : Z := u32 (Z.lor (Z.shiftl 0x40 4) 0x67 + 0x80000000).

Fixpoint send_startup (n : nat) (apicid addr : Z) : IO unit :=
  match n with
  | O => mret tt
  | S n => lapicw ICRHI (u32 (Z.shiftl apicid 24)) ;; lapicw ICRLO (Z.lor STARTUP (Z.shiftr addr 12)) ;; microdelay 200 ;; send_startup n apicid addr
  end.
(** Start additional processor running entry code at addr; the two stores to the
    warm reset vector are 16 bits wide. *)
Definition lapicstartap (apicid addr : Z) : IO unit :=
  outb CMOS_PORT 0xF ;;
  outb (CMOS_PORT + 1) 0x0A ;;
  store WRV 0 ;;
  store (WRV + 2) (u16 (Z.shiftr addr 4)) ;;
  lapicw ICRHI (u32 (Z.shiftl apicid 24)) ;;
  lapicw ICRLO (Z.lor (Z.lor INIT LEVEL) ASSERT) ;;
  microdelay 200 ;;
  lapicw ICRLO (Z.lor INIT LEVEL) ;;
  microdelay 100 ;;
  send_startup 2 apicid addr.

(** *** The clock *)
Definition CMOS_STATA : Z := 0x0a.
Definition CMOS_STATB : Z := 0x0b.
Definition CMOS_UIP : Z := Z.shiftl 1 7.
Definition SECS : Z := 0x00.
Definition MINS : Z := 0x02.
Definition HOURS : Z := 0x04.
Definition DAY : Z := 0x07.
Definition MONTH : Z := 0x08.
Definition YEAR : Z := 0x09.

Record rtcdate := mkDate { second : Z; minute : Z; hour : Z; day : Z; month : Z; year : Z }.
#[export] Instance rtcdate_eq_dec : EqDecision rtcdate.
Proof. solve_decision. Defined.

Definition cmos_read (reg : Z) : IO Z := outb CMOS_PORT reg ;; microdelay 200 ;; inb CMOS_RETURN.
Definition fill_rtcdate : IO rtcdate :=
  s ← cmos_read SECS; m ← cmos_read MINS; h ← cmos_read HOURS; d ← cmos_read DAY; mo ← cmos_read MONTH; y ← cmos_read YEAR;
  mret (mkDate s m h d mo y).

(** The loop of [cmostime], at most [fuel] turns. *)
Fixpoint stable_date (fuel : nat) : IO rtcdate :=
  match fuel with
  | O => fun _ => None
  | S fuel =>
    t1 ← fill_rtcdate;
    v ← cmos_read CMOS_STATA;
    if negb (Z.land v CMOS_UIP =? 0) then stable_date fuel else
    t2 ← fill_rtcdate;
    if bool_decide (t1 = t2) then mret t1 else stable_date fuel
  end.
Definition CONV (x : Z) : Z := u32 (Z.shiftr x 4 * 10) + Z.land x 0xf.
Definition cmostime (fuel : nat) : IO rtcdate :=
  sb ← cmos_read CMOS_STATB;
  let bcd := Z.land sb (Z.shiftl 1 2) =? 0 in
  t1 ← stable_date fuel;
  let t1 := if bcd then mkDate (CONV (second t1)) (CONV (minute t1)) (CONV (hour t1)) (CONV (day t1)) (CONV (month t1)) (CONV (year t1)) else t1 in
  mret (mkDate (second t1) (minute t1) (hour t1) (day t1) (month t1) (u32 (year t1 + 2000))).

End Lapic.

(** ** uart.c *)
Definition COM1 : Z := 0x3f8.
Definition IRQ_COM1 : Z := 4.

(** [for(i = 0; i < 128 && !(inb(COM1+5) & 0x20); i++)] *)
Fixpoint uart_wait (n : nat) : IO unit :=
  match n with
  | O => mret tt
  | S n => v ← inb (COM1 + 5); if negb (Z.land v 0x20 =? 0) then mret tt else microdelay 10 ;; uart_wait n
  end.
Definition uartputc (uart : bool) (c : Z) : IO unit := if negb uart then mret tt else uart_wait 128 ;; outb (COM1 + 0) c.
Definition uartgetc (uart : bool) : IO Z :=
  if negb uart then mret (-1) else
  v ← inb (COM1 + 5);
  if Z.land v 0x01 =? 0 then mret (-1) else inb (COM1 + 0).
Fixpoint uartputs (l : list Z) : IO unit := match l with [] => mret tt | c :: l => uartputc true c ;; uartputs l end.
(** The new value of [uart]. *)
Definition uartinit : IO bool :=
  outb (COM1 + 2) 0 ;;
  outb (COM1 + 3) 0x80 ;;
  outb (COM1 + 0) (115200 / 9600) ;;
  outb (COM1 + 1) 0 ;;
  outb (COM1 + 3) 0x03 ;;
  outb (COM1 + 4) 0 ;;
  outb (COM1 + 1) 0x01 ;;
  v ← inb (COM1 + 5);
  if v =? 0xFF then mret false else
  _ ← inb (COM1 + 2);
  _ ← inb (COM1 + 0);
  ioapicenable IRQ_COM1 0 ;;
  uartputs (chars "xv6..." ++ [10]) ;;
  mret true.


(** ** The redirection table of the I/O APIC *)

(** The register selected and the registers written, after a history. *)
Definition ioapic_step (st : Z * gmap Z Z) (e : io) : Z * gmap Z Z :=
  match e with
  | Store a v => if a =? IOAPIC then (v, st.2) else if a =? IOAPIC_DATA then (st.1, <[st.1 := v]> st.2) else st
  | _ => st
  end.
Definition ioapic_regs (h : list io) : gmap Z Z := (fold_left ioapic_step h (0, ∅)).2.
(** What interrupt [irq] does: enabled with a vector and a mode - bits 8 to 15:
    delivery mode, destination mode ([INT_LOGICAL]), polarity ([INT_ACTIVELOW]) and
    trigger ([INT_LEVEL]); 0 is fixed delivery to an APIC id, active high,
    edge-triggered - and the CPU it is sent to. *)
Inductive route : Type := Disabled | To (vector mode cpu : Z).
Definition route_of (h : list io) (irq : Z) : option route :=
  lo ← ioapic_regs h !! (REG_TABLE + 2 * irq);
  hi ← ioapic_regs h !! (REG_TABLE + 2 * irq + 1);
  Some (if negb (Z.land lo INT_DISABLED =? 0) then Disabled else To (Z.land lo 0xff) (Z.land (Z.shiftr lo 8) 0xff) (Z.shiftr hi 24)).

Lemma ioapicwrite_ok r d h : 0 <= r < 2 ^ 32 -> 0 <= d < 2 ^ 32 -> exists h', ioapicwrite r d h = Some (tt, h') /\ ioapic_regs h' = <[r := d]> (ioapic_regs h).
Proof.
  intros Hr Hd. eexists. split; [reflexivity|]. unfold ioapic_regs. rewrite !fold_left_app. cbn [fold_left ioapic_step]. rewrite Z.eqb_refl. change (IOAPIC_DATA =? IOAPIC) with false.
  rewrite Z.eqb_refl. cbn [fst snd]. by rewrite !u32_small by lia.
Qed.
Lemma ioapicread_ok r h : exists v h', ioapicread r h = Some (v, h') /\ 0 <= v < 2 ^ 32 /\ ioapic_regs h' = ioapic_regs h.
Proof.
  eexists _, _. split; [reflexivity|]. split; [apply Z.mod_pos_bound; lia|]. unfold ioapic_regs. rewrite !fold_left_app. cbn [fold_left ioapic_step]. by rewrite Z.eqb_refl.
Qed.

(** An entry is two registers of its own. *)
Lemma route_write h h' irq lo hi j : ioapic_regs h' = <[REG_TABLE + 2 * irq + 1 := hi]> (<[REG_TABLE + 2 * irq := lo]> (ioapic_regs h)) ->
  route_of h' j = if decide (j = irq) then Some (if negb (Z.land lo INT_DISABLED =? 0) then Disabled else To (Z.land lo 0xff) (Z.land (Z.shiftr lo 8) 0xff) (Z.shiftr hi 24)) else route_of h j.
Proof.
  intros E. unfold route_of. rewrite E. destruct (decide (j = irq)) as [->|Hne].
  - rewrite (lookup_insert_ne _ (REG_TABLE + 2 * irq + 1) (REG_TABLE + 2 * irq)) by lia. rewrite !lookup_insert_eq. done.
  - rewrite !lookup_insert_ne by lia. done.
Qed.

Lemma bind_some {A B} (m : IO A) (f : A -> IO B) a h h' : m h = Some (a, h') -> (m ≫= f) h = f a h'.
Proof. intros E. unfold mbind, IO_bind. by rewrite E. Qed.

(** The mask bit and the vector do not meet. *)
Lemma vector_bits v : 0 <= v < 2 ^ 16 ->
  Z.land v INT_DISABLED = 0 /\ 0 <= Z.lor INT_DISABLED v < 2 ^ 32 /\ Z.land (Z.lor INT_DISABLED v) INT_DISABLED = INT_DISABLED.
Proof.
  intros Hv. assert (Hz : Z.land v INT_DISABLED = 0).
  { change INT_DISABLED with (2 ^ 16). apply Z.bits_inj'. intros k Hk. rewrite Z.land_spec, Z.bits_0, Z.pow2_bits_eqb by lia. destruct (Z.eqb_spec 16 k) as [<-|]; [|by rewrite andb_false_r].
    rewrite andb_true_r. destruct (decide (v = 0)) as [->|]; [apply Z.bits_0|]. apply Z.bits_above_log2; [lia|]. apply Z.log2_lt_pow2; lia. }
  split; [done|]. rewrite Z.land_lor_distr_l, Hz. split; [|done].
  assert (E : Z.lor INT_DISABLED v = INT_DISABLED + v) by (rewrite <- Z.lxor_lor by (by rewrite Z.land_comm); symmetry; apply Z.add_nocarry_lxor; by rewrite Z.land_comm).
  rewrite E. unfold INT_DISABLED. lia.
Qed.

Lemma disable_all_ok n i h : 0 <= i -> i + Z.of_nat n <= 256 -> exists h', disable_all n i h = Some (tt, h') /\
  forall j, route_of h' j = if decide (i <= j < i + Z.of_nat n) then Some Disabled else route_of h j.
Proof.
  revert i h. induction n as [|n IH]; intros i h Hi Hn.
  - exists h. split; [done|]. intros j. by rewrite decide_False by lia.
  - destruct (vector_bits (T_IRQ0 + i)) as (_&Hr&Hl); [unfold T_IRQ0; lia|].
    destruct (ioapicwrite_ok (REG_TABLE + 2 * i) (Z.lor INT_DISABLED (T_IRQ0 + i)) h ltac:(unfold REG_TABLE; lia) Hr) as (h1&E1&R1).
    destruct (ioapicwrite_ok (REG_TABLE + 2 * i + 1) 0 h1 ltac:(unfold REG_TABLE; lia) ltac:(lia)) as (h2&E2&R2). rewrite R1 in R2.
    destruct (IH (i + 1) h2) as (h3&E3&R3); [lia|lia|]. exists h3. split; [cbn [disable_all]; rewrite (bind_some _ _ _ _ _ E1), (bind_some _ _ _ _ _ E2); exact E3|].
    intros j. rewrite R3, (route_write h h2 i _ _ j R2), Hl. change (negb (INT_DISABLED =? 0)) with true. cbv iota.
    destruct (decide (i + 1 <= j < i + 1 + Z.of_nat n)); [by rewrite decide_True by lia|]. destruct (decide (j = i)) as [->|]; [by rewrite decide_True by lia|by rewrite decide_False by lia].
Qed.

Lemma ioapicenable_ok irq cpu h : 0 <= irq < 200 -> 0 <= cpu < 256 -> exists h', ioapicenable irq cpu h = Some (tt, h') /\
  forall j, route_of h' j = if decide (j = irq) then Some (To (T_IRQ0 + irq) 0 cpu) else route_of h j.
Proof.
  intros Hi Hc. assert (Hv : 0 <= T_IRQ0 + irq < 2 ^ 32) by (unfold T_IRQ0; lia). assert (Hs : 0 <= Z.shiftl cpu 24 < 2 ^ 32) by (rewrite Z.shiftl_mul_pow2 by lia; lia).
  destruct (ioapicwrite_ok (REG_TABLE + 2 * irq) (T_IRQ0 + irq) h ltac:(unfold REG_TABLE; lia) Hv) as (h1&E1&R1).
  destruct (ioapicwrite_ok (REG_TABLE + 2 * irq + 1) (u32 (Z.shiftl cpu 24)) h1 ltac:(unfold REG_TABLE; lia) ltac:(rewrite u32_small; lia)) as (h2&E2&R2). rewrite R1, u32_small in R2 by lia.
  exists h2. split; [unfold ioapicenable; rewrite (bind_some _ _ _ _ _ E1); exact E2|]. intros j. rewrite (route_write h h2 irq _ _ j R2). destruct (decide (j = irq)); [|done]. f_equal.
  destruct (vector_bits (T_IRQ0 + irq)) as (Hz&_); [unfold T_IRQ0; lia|].
  rewrite Hz. cbn [Z.eqb negb]. f_equal.
  - change 0xff with (Z.ones 8). rewrite Z.land_ones by lia. apply Z.mod_small. unfold T_IRQ0. lia.
  - rewrite Z.shiftr_div_pow2, Z.div_small by (unfold T_IRQ0; lia). done.
  - rewrite Z.shiftr_shiftl_l by lia. by rewrite Z.shiftl_0_r.
Qed.


(** The devices' calls of [ioapicenable], in order. *)
Fixpoint enable_all (es : list (Z * Z)) : IO unit :=
  match es with [] => mret tt | (irq, cpu) :: es => ioapicenable irq cpu ;; enable_all es end.
(** The last call for [irq]. *)
Fixpoint enabled (es : list (Z * Z)) (irq : Z) : option Z :=
  match es with [] => None | (i, cpu) :: es => match enabled es irq with Some c => Some c | None => if i =? irq then Some cpu else None end end.

Lemma enable_all_ok es h : Forall (fun e => 0 <= e.1 < 200 /\ 0 <= e.2 < 256) es -> exists h', enable_all es h = Some (tt, h') /\
  forall j, route_of h' j = match enabled es j with Some cpu => Some (To (T_IRQ0 + j) 0 cpu) | None => route_of h j end.
Proof.
  intros Hes. revert h. induction Hes as [|[irq cpu] es [Hi Hc] _ IH]; intros h; [by exists h|]. cbn [fst snd] in *.
  destruct (ioapicenable_ok irq cpu h Hi Hc) as (h1&E1&R1). destruct (IH h1) as (h2&E2&R2). exists h2. split; [cbn [enable_all]; rewrite (bind_some _ _ _ _ _ E1); exact E2|].
  intros j. rewrite R2. cbn [enabled]. destruct (enabled es j); [done|]. rewrite R1. destruct (Z.eqb_spec irq j) as [->|]; [by rewrite decide_True|by rewrite decide_False by congruence].
Qed.

(** The number of interrupts the controller has. *)
Definition max_interrupt (h : list io) : Z := Z.land (Z.shiftr (u32 (answer (h ++ [Store IOAPIC REG_VER; Load IOAPIC_DATA]))) 16) 0xFF.

(** C39: Interrupt routing.  After [ioapicinit] and any sequence of calls of
    [ioapicenable], each interrupt the controller has is either disabled, if no
    driver has enabled it, or delivered to the CPU of the last call for it with
    vector 32 + irq, the number [trap] dispatches on, edge-triggered, active high
    and addressed by APIC id; enabling one leaves the others alone. *)
Theorem ioapic_routes ioapicid es h j : Forall (fun e => 0 <= e.1 < 200 /\ 0 <= e.2 < 256) es -> 0 <= j <= max_interrupt h ->
  exists h', (_ ← ioapicinit ioapicid; enable_all es) h = Some (tt, h') /\
    route_of h' j = Some (match enabled es j with Some cpu => To (T_IRQ0 + j) 0 cpu | None => Disabled end).
Proof.
  intros Hes Hj. assert (Hm : 0 <= max_interrupt h < 256) by (unfold max_interrupt; change 0xFF with (Z.ones 8); rewrite Z.land_ones by lia; apply (Z.mod_pos_bound _ (2 ^ 8)); lia).
  assert (E1 : ioapicread REG_VER h = Some (u32 (answer (h ++ [Store IOAPIC REG_VER; Load IOAPIC_DATA])), h ++ [Store IOAPIC REG_VER; Load IOAPIC_DATA])).
  { unfold ioapicread, mbind, IO_bind, store, load. rewrite <- !app_assoc. done. }
  set (h1 := h ++ [Store IOAPIC REG_VER; Load IOAPIC_DATA]) in *. destruct (ioapicread_ok REG_ID h1) as (v&h2&E2&_&_).
  destruct (disable_all_ok (Z.to_nat (max_interrupt h + 1)) 0 h2) as (h3&E3&R3); [lia|lia|]. destruct (enable_all_ok es h3 Hes) as (h4&E4&R4). exists h4.
  assert (Ei : ioapicinit ioapicid h = Some (Z.shiftr v 24 =? ioapicid, h3)).
  { unfold ioapicinit. rewrite (bind_some _ _ _ _ _ E1), (bind_some _ _ _ _ _ E2). unfold max_interrupt in E3. rewrite (bind_some _ _ _ _ _ E3). done. }
  split; [rewrite (bind_some _ _ _ _ _ Ei); exact E4|]. rewrite R4. destruct (enabled es j); [done|]. by rewrite R3, decide_True by lia.
Qed.

(** ** The clock *)

(** Two digits in one byte. *)
Definition bcd (x : Z) : Z := 16 * (x / 10) + x mod 10.
Lemma CONV_bcd x : 0 <= x < 100 -> CONV (bcd x) = x /\ 0 <= bcd x < 256.
Proof.
  intros Hx. pose proof (Z.div_mod x 10 ltac:(lia)). pose proof (Z.mod_pos_bound x 10 ltac:(lia)). assert (0 <= x / 10 < 10) by (split; [apply Z.div_pos; lia|apply Z.div_lt_upper_bound; lia]).
  unfold CONV, bcd. rewrite Z.shiftr_div_pow2 by lia. change 0xf with (Z.ones 4). rewrite Z.land_ones by lia. change (2 ^ 4) with 16.
  replace (16 * (x / 10) + x mod 10) with (x mod 10 + (x / 10) * 16) by lia. rewrite Z.div_add, Z.mod_add, (Z.div_small (x mod 10)), (Z.mod_small (x mod 10) 16) by lia. rewrite u32_small; lia.
Qed.

Definition valid_date (d : rtcdate) : Prop :=
  0 <= second d < 60 /\ 0 <= minute d < 60 /\ 0 <= hour d < 24 /\ 1 <= day d <= 31 /\ 1 <= month d <= 12 /\ 2000 <= year d < 2100.
(** The registers of a clock that shows [d], in binary or as digits. *)
Definition shows (binary : bool) (clock : Z -> Z) (d : rtcdate) : Prop :=
  let code x := if binary then x else bcd x in
  Z.land (clock CMOS_STATA) CMOS_UIP = 0 /\ (Z.land (clock CMOS_STATB) 4 =? 0) = negb binary /\ (0 <= clock CMOS_STATA < 256) /\ (0 <= clock CMOS_STATB < 256) /\
  clock SECS = code (second d) /\ clock MINS = code (minute d) /\ clock HOURS = code (hour d) /\ clock DAY = code (day d) /\ clock MONTH = code (month d) /\ clock YEAR = code (year d - 2000).

Section Clock.
Context (clock : Z -> Z) (Hclock : forall h r, answer (h ++ [OutB CMOS_PORT r; InB CMOS_RETURN]) = clock r).

Lemma cmos_read_ok r h : 0 <= r < 256 -> 0 <= clock r < 256 -> cmos_read r h = Some (clock r, h ++ [OutB CMOS_PORT r; InB CMOS_RETURN]).
Proof.
  intros Hr Hc. unfold cmos_read, microdelay, outb, inb, mbind, IO_bind, mret, IO_ret. rewrite <- app_assoc. cbn [app].
  assert (Eu : forall x, 0 <= x < 256 -> u8 x = x) by (intros x Hx; apply Z.mod_small; lia). by rewrite (Eu r Hr), Hclock, (Eu _ Hc).
Qed.

Ltac cmos := match goal with |- context [(cmos_read ?r ≫= ?f) ?h] => rewrite (bind_some _ f _ _ _ (cmos_read_ok r h ltac:(done) ltac:(lia))) end.

(** [cmostime] tells the time: if the clock shows a date of this century,
    whether it counts in binary or in decimal digits, and does not change during
    the call, the result is that date. *)
Theorem cmostime_tells binary d fuel h : valid_date d -> shows binary clock d -> exists h', cmostime (S fuel) h = Some (d, h').
Proof.
  intros (V1&V2&V3&V4&V5&V6) (Ha&Hb&Ra&Rb&Hs). cbv zeta in Hs. destruct Hs as (E1&E2&E3&E4&E5&E6).
  assert (Hc : forall x, 0 <= x < 100 -> 0 <= (if binary then x else bcd x) < 256 /\ CONV (bcd x) = x) by (intros x Hx; destruct (CONV_bcd x Hx); destruct binary; lia).
  assert (Rs : 0 <= clock SECS < 256 /\ 0 <= clock MINS < 256 /\ 0 <= clock HOURS < 256 /\ 0 <= clock DAY < 256 /\ 0 <= clock MONTH < 256 /\ 0 <= clock YEAR < 256).
  { rewrite E1, E2, E3, E4, E5, E6. split_and!; apply Hc; lia. }
  assert (Hfill : forall h, exists h', fill_rtcdate h = Some (mkDate (clock SECS) (clock MINS) (clock HOURS) (clock DAY) (clock MONTH) (clock YEAR), h')).
  { intros h0. unfold fill_rtcdate. repeat cmos. eexists. reflexivity. }
  unfold cmostime. cmos. change (Z.shiftl 1 2) with 4. rewrite Hb. cbn [stable_date].
  set (t := mkDate (clock SECS) (clock MINS) (clock HOURS) (clock DAY) (clock MONTH) (clock YEAR)) in *.
  assert (Hst : forall h, exists h', stable_date (S fuel) h = Some (t, h')).
  { intros h0. cbn [stable_date]. destruct (Hfill h0) as (h1&F1). rewrite (bind_some _ _ _ _ _ F1). cmos. rewrite Ha. cbn [Z.eqb negb].
    match goal with |- context [(fill_rtcdate ≫= ?f) ?h] => destruct (Hfill h) as (h2&F2); rewrite (bind_some _ f _ _ _ F2) end. rewrite bool_decide_true by done. by eexists. }
  match goal with |- context [((_ ≫= _) ≫= ?f) ?h] => destruct (Hst h) as (h3&E); cbn [stable_date] in E; rewrite (bind_some _ f _ _ _ E) end. eexists. unfold mret, IO_ret. f_equal. f_equal.
  unfold t. destruct d as [se mi ho da mo ye]. cbn [second minute hour day month year] in *. rewrite E1, E2, E3, E4, E5, E6. destruct binary; cbn [negb second minute hour day month year].
  - f_equal. rewrite u32_small; lia.
  - rewrite (proj2 (Hc se ltac:(lia))), (proj2 (Hc mi ltac:(lia))), (proj2 (Hc ho ltac:(lia))), (proj2 (Hc da ltac:(lia))), (proj2 (Hc mo ltac:(lia))), (proj2 (Hc (ye - 2000) ltac:(lia))). f_equal. rewrite u32_small; lia.
Qed.
End Clock.

End Code.

(** ** Witnesses: a machine with 24 interrupts and a clock at 2019-12-31 23:59:58 *)
Definition demo_clock (r : Z) : Z :=
  if r =? SECS then 0x58 else if r =? MINS then 0x59 else if r =? HOURS then 0x23 else if r =? DAY then 0x31 else if r =? MONTH then 0x12 else if r =? YEAR then 0x19
  else if r =? CMOS_STATB then 2 else 0.
Definition demo_hw : Hardware := fun h =>
  match rev h with
  | InB _ :: OutB _ r :: _ => demo_clock r
  | Load _ :: Store _ r :: _ => if r =? REG_VER then 0x170011 else 0
  | _ => 0
  end.
Definition demo_date : rtcdate := mkDate 58 59 23 31 12 2019.

Lemma cmostime_tells_witness : exists h', @cmostime demo_hw 1 [] = Some (demo_date, h').
Proof.
  apply (@cmostime_tells demo_hw demo_clock) with (binary := false) (fuel := O).
  - intros h r. unfold answer, demo_hw. by rewrite rev_app_distr.
  - unfold valid_date. cbn. lia.
  - vm_compute. repeat split; discriminate.
Defined.

(** Keyboard, disk and network card, each on its CPU; interrupt 3 stays disabled. *)
Lemma ioapic_routes_witness : exists h', (_ ← @ioapicinit demo_hw 0; enable_all [(1, 0); (14, 1); (11, 0)]) [] = Some (tt, h') /\ route_of h' 14 = Some (To 46 0 1).
Proof.
  apply (@ioapic_routes demo_hw 0 [(1, 0); (14, 1); (11, 0)] [] 14); [|vm_compute; split; discriminate].
  repeat constructor; cbn; lia.
Defined.

End Hw.
