(* ===== verification/Mp.v ===== *)
(** * Mp: finding the processors (mp.c)

    The search for the MP floating structure and its configuration table in the
    memory of the machine, a map from addresses to bytes in which a read of an
    address that is not there is a fault, and the walk over the entries of the
    table.  The theorems: [mpsearch1] finds the first structure there is; [mpinit]
    records the processors, the I/O APIC and the address of the local APIC that the
    table names; and an entry of an unknown type, which the code means to report,
    keeps it in its loop for ever. *)
From S2P Require Import Prelude Str Hw.

Module Mp.
Import Str.

(** [Stops]: a panic; [Bad]: a fault; [Spent]: a loop out of fuel. *)
Inductive outcome (A : Type) : Type := Got (a : A) | Stops (msg : string) | Bad | Spent.
Arguments Got {_} _.
Arguments Stops {_} _.
Arguments Bad {_}.
Arguments Spent {_}.
#[export] Instance outcome_ret : MRet outcome := fun _ a => Got a.
#[export] Instance outcome_bind : MBind outcome := fun _ _ f m => match m with Got a => f a | Stops s => Stops s | Bad => Bad | Spent => Spent end.

Definition of_option {A} (o : option A) : outcome A := match o with Some a => Got a | None => Bad end.
Definition byte (m : mem) (a : Z) : outcome Z := of_option (load m a).
Definition half (m : mem) (a : Z) : outcome Z := l ← of_option (mread m a 2); Got (get16 l 0).
Definition word (m : mem) (a : Z) : outcome Z := l ← of_option (mread m a 4); Got (get32 l 0).

Definition NCPU : nat := 8.
Definition P2V (a : Z) : Z := u32 (a + 0x80000000).
(** [sizeof] of the structures of mp.h. *)
Definition SIZEOF_MP : Z := 16.
Definition SIZEOF_MPCONF : Z := 44.
Definition SIZEOF_MPPROC : Z := 20.
Definition SIZEOF_MPIOAPIC : Z := 8.
Definition MPPROC : Z := 0x00.
Definition MPBUS : Z := 0x01.
Definition MPIOAPIC : Z := 0x02.
Definition MPIOINTR : Z := 0x03.
Definition MPLINTR : Z := 0x04.

#[local] Existing Instances Hw.IO_ret Hw.IO_bind.
(** [if(mp->imcrp)]: mask external interrupts. *)
Definition imcr {hw : Hw.Hardware} (imcrp : bool) : Hw.IO unit :=
  if imcrp then Hw.outb 0x22 0x70 ;; v ← Hw.inb 0x23; Hw.outb 0x23 (Z.lor v 1) else mret tt.

Section Code.
Context {hw : Hw.Hardware} (m : mem).

Definition sum (addr : Z) (len : nat) : outcome Z := l ← of_option (mread m addr len); Got (u8 (fold_left Z.add l 0)).

(** [memcmp(p, sig, 4) == 0] *)
Definition signed (p : Z) (sig : list Z) : outcome bool := l ← of_option (mread m p 4); Got (bool_decide (l = sig)).

(** The loop of [mpsearch1] over [n] places from [p] on. *)
Fixpoint mpsearch1_loop (n : nat) (p : Z) : outcome (option Z) :=
  match n with
  | O => Got None
  | S n =>
    b ← signed p [95; 77; 80; 95];
    found ← (if (b : bool) then s ← sum p (Z.to_nat SIZEOF_MP); Got (s =? 0) else Got false);
    if (found : bool) then Got (Some p) else mpsearch1_loop n (p + SIZEOF_MP)
  end.
Definition mpsearch1 (a len : Z) : outcome (option Z) := mpsearch1_loop (Z.to_nat ((len + SIZEOF_MP - 1) / SIZEOF_MP)) (P2V a).

Definition mpsearch : outcome (option Z) :=
  let bda := P2V 0x400 in
  hi ← byte m (bda + 0x0F); lo ← byte m (bda + 0x0E);
  let p := Z.shiftl (Z.lor (Z.shiftl hi 8) lo) 4 in
  r ← (if negb (p =? 0) then mpsearch1 p 1024
       else hi ← byte m (bda + 0x14); lo ← byte m (bda + 0x13); mpsearch1 (Z.lor (Z.shiftl hi 8) lo * 1024 - 1024) 1024);
  match r with Some mp => Got (Some mp) | None => mpsearch1 0xF0000 0x10000 end.

(** The floating structure and the configuration table. *)
Definition mpconfig : outcome (option (Z * Z)) :=
  r ← mpsearch;
  match r with
  | None => Got None
  | Some mp =>
    physaddr ← word m (mp + 4);
    if physaddr =? 0 then Got None else
    let conf := P2V physaddr in
    b ← signed conf [80; 67; 77; 80];
    if negb b then Got None else
    version ← byte m (conf + 6);
    if negb (version =? 1) && negb (version =? 4) then Got None else
    length ← half m (conf + 4);
    s ← sum conf (Z.to_nat length);
    if negb (s =? 0) then Got None else Got (Some (mp, conf))
  end.

(** What [mpinit] sets: the APIC ids of [cpus] ([ncpu] is their number), [ioapicid]. *)
Record machine := mkMachine { cpus : list Z; ioapicid : Z }.

(** The loop over the entries from [p] to [e]. *)
Fixpoint entries (fuel : nat) (p e : Z) (ismp : bool) (s : machine) : outcome (bool * machine) :=
  match fuel with
  | O => Spent
  | S fuel =>
    if p <? e then
      t ← byte m p;
      if t =? MPPROC then
        apicid ← byte m (p + 1);
        let s := if (length (cpus s) <? NCPU)%nat then mkMachine (cpus s ++ [apicid]) (ioapicid s) else s in
        entries fuel (p + SIZEOF_MPPROC) e ismp s
      else if t =? MPIOAPIC then
        apicno ← byte m (p + 1);
        entries fuel (p + SIZEOF_MPIOAPIC) e ismp (mkMachine (cpus s) apicno)
      else if (t =? MPBUS) || (t =? MPIOINTR) || (t =? MPLINTR) then entries fuel (p + 8) e ismp s
      else entries fuel p e false s
    else Got (ismp, s)
  end.

(** [lapic], the machine, and the port accesses the function ends with. *)
Definition mpinit (fuel : nat) (s : machine) : outcome (Z * machine * Hw.IO unit) :=
  r ← mpconfig;
  match r with
  | None => Stops "Expect to run on an SMP"
  | Some (mp, conf) =>
    lapic ← word m (conf + 36);
    length ← half m (conf + 4);
    '(ismp, s) ← entries fuel (conf + SIZEOF_MPCONF) (conf + length) true s;
    if negb ismp then Stops "Didn't find a suitable machine" else
    imcrp ← byte m (mp + 12);
    Got (lapic, s, imcr (negb (imcrp =? 0)))
  end.

End Code.


(** ** Tables *)

(** The entries of a table, with the bytes the code does not look at. *)
Inductive entry : Type := Cpu (apicid : Z) (pad : list Z) | Ioapic (apicno : Z) (pad : list Z) | Other (t : Z) (pad : list Z).
Definition entry_bytes (x : entry) : list Z :=
  match x with Cpu id pad => MPPROC :: id :: pad | Ioapic no pad => MPIOAPIC :: no :: pad | Other t pad => t :: pad end.
Definition entry_ok (x : entry) : Prop :=
  match x with Cpu _ pad => length pad = 18%nat | Ioapic _ pad => length pad = 6%nat | Other t pad => (t = MPBUS \/ t = MPIOINTR \/ t = MPLINTR) /\ length pad = 7%nat end.
Definition record (s : machine) (x : entry) : machine :=
  match x with
  | Cpu id _ => if (length (cpus s) <? NCPU)%nat then mkMachine (cpus s ++ [id]) (ioapicid s) else s
  | Ioapic no _ => mkMachine (cpus s) no
  | Other _ _ => s
  end.
(** The processors of a table. *)
Definition apicids (es : list entry) : list Z := omap (fun x => match x with Cpu id _ => Some id | _ => None end) es.

Lemma record_cpus es s : (length (cpus s) <= NCPU)%nat -> cpus (fold_left record es s) = take NCPU (cpus s ++ apicids es).
Proof.
  revert s. induction es as [|x es IH]; intros s Hs; cbn [fold_left]; [unfold apicids; cbn; by rewrite app_nil_r, take_ge|].
  destruct x as [id pad|no pad|t pad]; cbn [record]; [|by rewrite IH|by rewrite IH].
  destruct (Nat.ltb_spec (length (cpus s)) NCPU) as [Hlt|Hge].
  - rewrite IH by (cbn; rewrite length_app; cbn; lia). cbn [cpus]. by rewrite <- app_assoc.
  - rewrite IH by done. rewrite !take_app_le by lia. done.
Qed.

Lemma mread_cons m a l b : mread m a (S (length l)) = Some (b :: l) -> byte m a = Got b /\ mread m (a + 1) (length l) = Some l.
Proof.
  rewrite mread_S. intros H. unfold byte. destruct (load m a) as [v|]; cbn [mbind option_bind] in H; [|done]. destruct (mread m (a + 1) (length l)) as [r|]; cbn [mbind option_bind] in H; [|done]. by simplify_eq.
Qed.
Lemma mread_app_inv m a l l' : mread m a (length (l ++ l')) = Some (l ++ l') -> mread m a (length l) = Some l /\ mread m (a + Z.of_nat (length l)) (length l') = Some l'.
Proof.
  rewrite length_app, mread_app. intros H. destruct (mread m a (length l)) as [x|] eqn:Ex; cbn [mbind option_bind] in H; [|done].
  destruct (mread m (a + Z.of_nat (length l)) (length l')) as [y|]; cbn [mbind option_bind] in H; [|done]. injection H as H. apply length_mread in Ex. apply app_inj_1 in H as [-> ->]; done.
Qed.

(** The loop reads the entries one by one. *)
Lemma entries_ok m es fuel p e ismp s : Forall entry_ok es -> let l := concat (entry_bytes <$> es) in
  mread m p (length l) = Some l -> p + Z.of_nat (length l) <= e ->
  entries m (length es + fuel) p e ismp s = entries m fuel (p + Z.of_nat (length l)) e ismp (fold_left record es s).
Proof.
  intros Hes. revert p s. induction Hes as [|x es Hx _ IH]; intros p s l Hm He; subst l; cbn [fmap list_fmap concat length fold_left] in *; [by rewrite Z.add_0_r|].
  destruct (mread_app_inv m p _ _ Hm) as [Hm1 Hm2]. rewrite length_app in He |- *. cbn [Nat.add entries].
  assert (Hlen : (0 < length (entry_bytes x))%nat) by (destruct x; cbn; lia). rewrite (proj2 (Z.ltb_lt p e)) by lia.
  destruct x as [id pad|no pad|t pad]; cbn [entry_bytes length entry_ok] in *.
  - apply (mread_cons m p (id :: pad)) in Hm1 as [B1 Hm1]. apply mread_cons in Hm1 as [B2 _]. rewrite B1. cbn [mbind outcome_bind]. rewrite B2. cbn [mbind outcome_bind Z.eqb MPPROC].
    rewrite Hx in *. change (p + SIZEOF_MPPROC) with (p + Z.of_nat 20). rewrite IH by (done || lia). f_equal. lia.
  - apply (mread_cons m p (no :: pad)) in Hm1 as [B1 Hm1]. apply mread_cons in Hm1 as [B2 _]. rewrite B1. cbn [mbind outcome_bind]. change (MPIOAPIC =? MPPROC) with false. rewrite Z.eqb_refl, B2. cbn [mbind outcome_bind].
    rewrite Hx in *. change (p + SIZEOF_MPIOAPIC) with (p + Z.of_nat 8). rewrite IH by (done || lia). f_equal. lia.
  - destruct Hx as [Ht Hx]. apply mread_cons in Hm1 as [B1 _]. rewrite B1. cbn [mbind outcome_bind]. rewrite Hx in *.
    replace (t =? MPPROC) with false by (destruct Ht as [->|[->| ->]]; done). replace (t =? MPIOAPIC) with false by (destruct Ht as [->|[->| ->]]; done).
    replace ((t =? MPBUS) || (t =? MPIOINTR) || (t =? MPLINTR)) with true by (destruct Ht as [->|[->| ->]]; done).
    change (p + 8) with (p + Z.of_nat 8). rewrite IH by (done || lia). f_equal. lia.
Qed.

(** A configuration table: the bytes of its header, and its entries. *)
Record table_ok (hdr : list Z) (es : list entry) : Prop := {
  tb_hdr : length hdr = 44%nat;
  tb_signature : take 4 hdr = [80; 67; 77; 80];
  tb_version : hdr !! 6%nat = Some 1 \/ hdr !! 6%nat = Some 4;
  tb_length : get16 hdr 4 = 44 + Z.of_nat (length (concat (entry_bytes <$> es)));
  tb_sum : u8 (fold_left Z.add (hdr ++ concat (entry_bytes <$> es)) 0) = 0;
  tb_entries : Forall entry_ok es;
}.


Lemma mread_slice m a T o n : mread m a (length T) = Some T -> (o + n <= length T)%nat -> mread m (a + Z.of_nat o) n = Some (take n (drop o T)).
Proof.
  intros H Hle. rewrite <- (take_drop o T) in H. apply mread_app_inv in H as [_ H]. rewrite length_take, Nat.min_l in H by lia.
  rewrite <- (take_drop n (drop o T)) in H. apply mread_app_inv in H as [H _]. rewrite length_take, length_drop, Nat.min_l in H by lia. exact H.
Qed.
Lemma get8_slice T o n k : (k < n)%nat -> get8 (take n (drop o T)) k = get8 T (o + k).
Proof. intros Hk. unfold get8. rewrite !nth_lookup. by rewrite lookup_take_lt, lookup_drop by done. Qed.
Lemma get8_app l l' k : (k < length l)%nat -> get8 (l ++ l') k = get8 l k.
Proof. intros Hk. unfold get8. rewrite !nth_lookup. by rewrite lookup_app_l. Qed.

Section Config.
Context {hw : Hw.Hardware} (m : mem) (mp pa : Z) (hdr : list Z) (es : list entry).
Context (Hfound : mpsearch m = Got (Some mp)) (Hpa : word m (mp + 4) = Got pa) (Hne : pa <> 0) (Htab : table_ok hdr es).
Abbreviation conf := (P2V pa).
Abbreviation body := (concat (entry_bytes <$> es)).
Context (Hmem : mread m conf (length (hdr ++ body)) = Some (hdr ++ body)).

Lemma conf_half : half m (conf + 4) = Got (44 + Z.of_nat (length body)).
Proof.
  destruct Htab as [H1 _ _ H4 _ _]. unfold half. pose proof (mread_slice m conf _ 4 2 Hmem ltac:(rewrite length_app; lia)) as Hs. change (Z.of_nat 4) with 4 in Hs. rewrite Hs. cbn [mbind outcome_bind of_option]. f_equal.
  unfold get16 in *. rewrite !get8_slice, !get8_app by lia. exact H4.
Qed.
Lemma conf_lapic : word m (conf + 36) = Got (get32 hdr 36).
Proof.
  destruct Htab as [H1 _ _ _ _ _]. unfold word. pose proof (mread_slice m conf _ 36 4 Hmem ltac:(rewrite length_app; lia)) as Hs. change (Z.of_nat 36) with 36 in Hs. rewrite Hs. cbn [mbind outcome_bind of_option]. f_equal.
  unfold get32, get16. by rewrite !get8_slice, !get8_app by lia.
Qed.

Lemma mpconfig_ok : mpconfig m = Got (Some (mp, conf)).
Proof.
  destruct Htab as [H1 H2 H3 H4 H5 H6]. unfold mpconfig. rewrite Hfound. cbn [mbind outcome_bind]. rewrite Hpa. cbn [mbind outcome_bind]. rewrite (proj2 (Z.eqb_neq _ _) Hne).
  pose proof (mread_slice m conf _ 0 4 Hmem ltac:(rewrite length_app; lia)) as Hsig. rewrite Z.add_0_r, drop_0, take_app_le, H2 in Hsig by lia. unfold signed. rewrite Hsig. cbn [mbind outcome_bind of_option].
  rewrite bool_decide_true by done. cbn [negb]. pose proof (mread_lookup m conf _ _ 6 Hmem ltac:(rewrite length_app; lia)) as Hv. rewrite lookup_app_l in Hv by lia. change (Z.of_nat 6) with 6 in Hv.
  unfold byte, load. rewrite Hv. destruct H3 as [-> | ->]; cbn [mbind outcome_bind of_option]; change (1 =? 1) with true; change (4 =? 1) with false; change (4 =? 4) with true; cbn [negb andb];
    rewrite conf_half; cbn [mbind outcome_bind]; unfold sum; replace (Z.to_nat (44 + Z.of_nat (length body))) with (length (hdr ++ body)) by (rewrite length_app; lia);
    rewrite Hmem; cbn [mbind outcome_bind of_option]; rewrite H5; done.
Qed.

(** [mpinit] records what the tables say.  When the search finds a floating
    structure that points to a well-formed configuration table (signature,
    version, length and checksum), the CPUs are the processors of the table in
    its order, at most eight, the I/O APIC is the one it names, and the address
    of the local APIC is taken from its header; the IMCR is switched when the
    floating structure says that there is one. *)
Theorem mpinit_records fuel imcrp : byte m (mp + 12) = Got imcrp ->
  exists io, mpinit m (length es + S fuel) (mkMachine [] 0) = Got (get32 hdr 36, mkMachine (take NCPU (apicids es)) io, imcr (negb (imcrp =? 0))) /\
    (forall no pad es', es = es' ++ [Ioapic no pad] -> io = no).
Proof.
  intros Hi. exists (ioapicid (fold_left record es (mkMachine [] 0))). split.
  - unfold mpinit. rewrite mpconfig_ok. cbn [mbind outcome_bind]. rewrite conf_lapic. cbn [mbind outcome_bind]. rewrite conf_half. cbn [mbind outcome_bind].
    destruct (mread_app_inv m conf hdr body Hmem) as [_ Hb]. rewrite (tb_hdr _ _ Htab) in Hb. change (Z.of_nat 44) with SIZEOF_MPCONF in Hb.
    rewrite (entries_ok m es (S fuel) (conf + SIZEOF_MPCONF)); [|apply Htab|exact Hb|unfold SIZEOF_MPCONF; lia].
    replace (conf + SIZEOF_MPCONF + Z.of_nat (length body)) with (conf + (44 + Z.of_nat (length body))) by (unfold SIZEOF_MPCONF; lia).
    cbn [entries]. rewrite Z.ltb_irrefl. cbn [mbind outcome_bind negb]. rewrite Hi. cbn [mbind outcome_bind].
    pose proof (record_cpus es (mkMachine [] 0) ltac:(cbn; lia)) as Hr. cbn [cpus app] in Hr. rewrite <- Hr. by destruct (fold_left record es (mkMachine [] 0)).
  - intros no pad es' ->. by rewrite fold_left_app.
Qed.
End Config.

(** An entry of a type that is not known is never passed. *)
Lemma entries_unknown m fuel p e ismp s t : p < e -> byte m p = Got t -> ~ (0 <= t <= 4) -> entries m fuel p e ismp s = Spent.
Proof.
  intros Hp Ht Hn. revert ismp s. induction fuel as [|fuel IH]; intros ismp s; [done|]. cbn [entries]. rewrite (proj2 (Z.ltb_lt _ _) Hp), Ht. cbn [mbind outcome_bind].
  unfold MPPROC, MPIOAPIC, MPBUS, MPIOINTR, MPLINTR. rewrite !(proj2 (Z.eqb_neq t _)) by lia. apply IH.
Qed.

(** An entry of an unknown type hangs the boot: the [break] of the default
    case leaves the [switch] and not the loop, whose pointer stays at the entry,
    so that, whatever came before, the loop never reaches the panic the code
    means to end in. *)
Theorem mpinit_unknown_hangs {hw : Hw.Hardware} m fuel mp conf es t lapic len s : mpconfig m = Got (Some (mp, conf)) -> word m (conf + 36) = Got lapic -> half m (conf + 4) = Got len ->
  let l := concat (entry_bytes <$> es) in Forall entry_ok es -> mread m (conf + SIZEOF_MPCONF) (length l) = Some l ->
  SIZEOF_MPCONF + Z.of_nat (length l) < len -> byte m (conf + SIZEOF_MPCONF + Z.of_nat (length l)) = Got t -> ~ (0 <= t <= 4) ->
  mpinit m fuel s = Spent.
Proof.
  intros Hc Hla Hle l Hes Hm Hlt Ht Hn. unfold mpinit. rewrite Hc. cbn [mbind outcome_bind]. rewrite Hla. cbn [mbind outcome_bind]. rewrite Hle. cbn [mbind outcome_bind].
  enough (E : entries m fuel (conf + SIZEOF_MPCONF) (conf + len) true s = Spent) by (by rewrite E).
  destruct (decide (length es <= fuel)%nat) as [Hf|Hf].
  - replace fuel with (length es + (fuel - length es))%nat by lia. rewrite (entries_ok m es) by (done || (unfold l in *; lia)). eapply entries_unknown; [fold l; lia|exact Ht|done].
  - replace fuel with (length (take fuel es) + 0)%nat by (rewrite length_take; lia). unfold l in Hm, Hlt. clear l Ht. rewrite <- (take_drop fuel es) in Hes.
    rewrite <- (take_drop fuel es), fmap_app, concat_app in Hm, Hlt. apply mread_app_inv in Hm as [Hm _]. apply Forall_app in Hes as [Hes _]. rewrite length_app in Hlt.
    rewrite (entries_ok m (take fuel es)) by (done || lia). done.
Qed.


(** ** The search *)
Definition valid_mp (m : mem) (q : Z) : Prop := exists l, mread m q 16 = Some l /\ take 4 l = [95; 77; 80; 95] /\ u8 (fold_left Z.add l 0) = 0.

(** [mpsearch1] returns the first floating structure of the area, by signature
    and checksum, and nothing only if there is none. *)
Theorem mpsearch1_first m n p : (forall i, (i < n)%nat -> is_Some (mread m (p + 16 * Z.of_nat i) 16)) ->
  exists r, mpsearch1_loop m n p = Got r /\
  match r with
  | Some q => exists i, (i < n)%nat /\ q = p + 16 * Z.of_nat i /\ valid_mp m q /\ forall j, (j < i)%nat -> ~ valid_mp m (p + 16 * Z.of_nat j)
  | None => forall i, (i < n)%nat -> ~ valid_mp m (p + 16 * Z.of_nat i)
  end.
Proof.
  revert p. induction n as [|n IH]; intros p Hm; [exists None; split; [done|intros i Hi; lia]|].
  destruct (Hm 0%nat ltac:(lia)) as [l Hl]. rewrite Z.mul_0_r, Z.add_0_r in Hl. pose proof (length_mread _ _ _ _ Hl) as Hlen.
  assert (H4 : mread m p 4 = Some (take 4 l)).
  { rewrite <- Hlen in Hl. pose proof (mread_slice m p l 0 4 Hl ltac:(lia)) as Hs. by rewrite Z.add_0_r, drop_0 in Hs. }
  cbn [mpsearch1_loop]. unfold signed, sum. change (Z.to_nat SIZEOF_MP) with 16%nat. rewrite H4, Hl. cbn [mbind outcome_bind of_option].
  set (found := if bool_decide (take 4 l = [95; 77; 80; 95]) then Got (u8 (fold_left Z.add l 0) =? 0) else Got false).
  assert (Hf : exists b : bool, found = Got b /\ (b = true <-> valid_mp m p)).
  { unfold found. destruct (bool_decide_reflect (take 4 l = [95; 77; 80; 95])) as [Hs|Hs].
    - eexists. split; [done|]. rewrite Z.eqb_eq. split; [intros Hz; by exists l|]. intros (l'&Hl'&_&Hz). congruence.
    - exists false. split; [done|]. split; [done|]. intros (l'&Hl'&Hs'&_). congruence. }
  fold found. destruct Hf as (b&->&Hb). cbn [mbind outcome_bind]. destruct b.
  - exists (Some p). split; [done|]. exists 0%nat. split; [lia|]. split; [lia|]. split; [by apply Hb|]. intros j Hj. lia.
  - assert (Hn : ~ valid_mp m p) by (intros Hv; by apply Hb in Hv). change SIZEOF_MP with 16. destruct (IH (p + 16)) as (r&E&Hr).
    { intros i Hi. replace (p + 16 + 16 * Z.of_nat i) with (p + 16 * Z.of_nat (S i)) by lia. apply Hm. lia. }
    exists r. split; [done|]. destruct r as [q|].
    + destruct Hr as (i&Hi&->&Hv&Hj). exists (S i). split; [lia|]. split; [lia|]. split; [done|]. intros [|j] Hlt; [by rewrite Z.mul_0_r, Z.add_0_r|].
      replace (p + 16 * Z.of_nat (S j)) with (p + 16 + 16 * Z.of_nat j) by lia. apply Hj. lia.
    + intros [|i] Hi; [by rewrite Z.mul_0_r, Z.add_0_r|]. replace (p + 16 * Z.of_nat (S i)) with (p + 16 + 16 * Z.of_nat i) by lia. apply Hr. lia.
Qed.

(** ** Witnesses: a machine with two processors *)
Definition demo_mp : list Z := [95; 77; 80; 95; 0; 0; 2; 0; 1; 4; 158; 0; 0; 0; 0; 0].
Definition demo_hdr : list Z := [80; 67; 77; 80; 92; 0; 4; 138] ++ replicate 20 0 ++ replicate 4 0 ++ [0; 0; 3; 0; 0; 0; 224; 254; 0; 0; 0; 0].
Definition demo_es : list entry := [Cpu 0 (replicate 18 0); Cpu 1 (replicate 18 0); Ioapic 2 (replicate 6 0)].
Definition demo_mem : mem :=
  mwrite (mwrite (mwrite ∅ 0x80020000 (demo_hdr ++ concat (entry_bytes <$> demo_es))) 0x80010000 demo_mp) 0x8000040e [0; 0x10].

Lemma demo_table : table_ok demo_hdr demo_es.
Proof. split; try reflexivity; [by right|]. repeat constructor. Qed.

Lemma mpinit_records_witness : exists io, @mpinit Hw.demo_hw demo_mem 5 (mkMachine [] 0) = Got (0xfee00000, mkMachine [0; 1] io, @imcr Hw.demo_hw false) /\ io = 2.
Proof.
  destruct (@mpinit_records Hw.demo_hw demo_mem 0x80010000 0x20000 demo_hdr demo_es) with (fuel := 1%nat) (imcrp := 0) as (io&E&Hio).
  - vm_compute. reflexivity.
  - vm_compute. reflexivity.
  - discriminate.
  - exact demo_table.
  - vm_compute. reflexivity.
  - vm_compute. reflexivity.
  - exists io. split; [exact E|]. exact (Hio 2 (replicate 6 0) [Cpu 0 (replicate 18 0); Cpu 1 (replicate 18 0)] eq_refl).
Defined.

(** The same table with the type of its second entry out of range (the checksum adjusted). *)
Definition demo_hdr' : list Z := [80; 67; 77; 80; 92; 0; 4; 136] ++ replicate 20 0 ++ replicate 4 0 ++ [0; 0; 3; 0; 0; 0; 224; 254; 0; 0; 0; 0].
Definition demo_mem' : mem :=
  mwrite (mwrite (mwrite ∅ 0x80020000 (demo_hdr' ++ entry_bytes (Cpu 0 (replicate 18 0)) ++ [7] ++ replicate 27 0)) 0x80010000 demo_mp) 0x8000040e [0; 0x10].
Lemma mpinit_unknown_hangs_witness : @mpinit Hw.demo_hw demo_mem' 1000 (mkMachine [] 0) = Spent.
Proof.
  apply (@mpinit_unknown_hangs Hw.demo_hw demo_mem' 1000 0x80010000 0x80020000 [Cpu 0 (replicate 18 0)] 7 0xfee00000 92 (mkMachine [] 0)); try (vm_compute; reflexivity).
  - repeat constructor.
  - lia.
Defined.

End Mp.
